(* ===== verification/_CoqProject ===== *)
-Q . S2P
Prelude.v
Mem.v
Bytes.v
Riscv.v
Kernel.v
Spinlock.v
Kalloc.v
Vm.v
VmTree.v
VmMap.v
Printf.v
PrintfSpec.v
Sched.v
SchedSpec.v
Thread.v
SchedLive.v
Sv39.v
Asm.v
AsmSpec.v
Start.v
Sleeplock.v
SleeplockSpec.v
Virtio.v
Bio.v
BioSpec.v
BioInv.v
VirtioSpec.v
BioProps.v
Log.v
LogSpec.v
LogCrash.v
LogTxn.v
Fs.v
FsTx.v
FsAlloc.v
FsFile.v
FsRw.v
FsInode.v
FsAtomic.v
FsDir.v
FsPath.v
Mkfs.v
MkfsFile.v
MkfsSpec.v
MkfsRead.v
Console.v
Pipe.v
PipeSpec.v
File.v
ProcLife.v
Syscall.v
Exec.v
Sysfile.v
Trap.v
User.v
Initcode.v
Ulib.v
UlibSpec.v
Grep.v
Coreutils.v
Umalloc.v
UmallocSpec.v
UmallocProps.v
Arena.v
Sh.v
ShParse.v
ShLex.v
ShTree.v
ShProps.v
ShRun.v
