(* ===== verification/Prelude.v ===== *)
(** * A verified model of xv6 (RISC-V, page-table lab)

    This library models the code of src/kernel/, of the programs in src/user/ and of
    src/mkfs/ as functions of Rocq and proves it correct.  It is a shallow embedding: a C function is a definition of the
    same name, a struct a record with the struct's fields, a global variable a
    field of the record [kernel] (Kernel.v).

    ** How the code is represented

    A kernel function with result [A] is a [K A = kernel -> outcome kernel A]
    (this file): it returns ([Ret]), panics ([Panic], with the message), faults
    ([Fault]: an access the hardware would not make, such as an index out of an
    array or an address outside RAM), spins on a taken lock forever ([Spin]),
    gives up the CPU ([Switch], with the continuation that swtch() resumes), or has used
    up the fuel of a loop ([NoFuel]).  [let! x := m in k] and [do! m; k] sequence such
    functions.  No theorem takes the absence of [NoFuel] as a hypothesis: those
    about a result prove that the function returns.

    Integers are [Z]; a wrap at 32 or 64 bits is written [u32], [i32], [u64] where the C type
    wraps.  Physical memory is a map from addresses to bytes (Mem.v), with
    little-endian loads and stores; page tables, the free list, trap frames and
    user pages live in it.  Tables of the kernel (processes, buffers, inodes,
    files) are lists, a pointer into a table is the index.  Block contents
    are byte lists of length BSIZE.

    Code runs on one hart at a time; what other threads and devices do between a
    [Switch] and the return is a relation [env] over which the theorems on
    blocking code are stated ([wp], Thread.v): the thread that waits gets the
    CPU back in a state that [env] allows.  Interleavings of several harts are
    a step relation in Spinlock.v.

    User programs run alone in their address space and see the kernel through system
    calls.  A user function with result [A] is a [U A] (User.v): from the memory of the process it returns,
    exits, faults, runs out of fuel, or makes a call ([ECall], with the number, the
    arguments and the continuation).  The kernel is a relation ([Os]) between a call and its answers; [uwp] says that
    every run of a program ends well whatever the answers are, so that the theorems include termination.  Where the linker puts literals
    and variables is a parameter ([Image]); a local array whose address is taken is such a variable.
    What a program needs of the kernel is an interface of its own: [Stdio] (read and
    write, UlibSpec.v), [Sbrk] (UmallocProps.v), [Unix] (descriptors and processes,
    ShRun.v); what the shell needs of malloc() is the interface [Arena] (Arena.v), which umalloc.c
    is proved to provide.  Each has a concrete instance.

    ** The parts and their files

    - Mem.v, Bytes.v: memory, kernel/string.c, integers in byte arrays.
    - Riscv.v: constants and macros of param.h, memlayout.h, riscv.h.
    - Kernel.v: the structs of proc.h, spinlock.h, sleeplock.h, buf.h, fs.h,
      file.h and the global state.  The addresses that the linker fixes (kernel.ld)
      are the class [LinkerSymbols], what kernel.ld says of them is [Layout].
    - Spinlock.v: kernel/spinlock.c.
    - Kalloc.v: kernel/kalloc.c.
    - Vm.v: kernel/vm.c, kernel/vmcopyin.c; VmTree.v and VmMap.v hold its theory:
      the page-table tree in memory and the abstract function [pte_at] from
      virtual addresses to entries.
    - Printf.v: kernel/printf.c with polled UART output; theorems in PrintfSpec.v.
    - Sched.v: the scheduler's part of kernel/proc.c; theorems in SchedSpec.v
      and, that no runnable process starves, in SchedLive.v.
    - Thread.v: the logic for code that may sleep.
    - Sv39.v: copyin and copyinstr of vmcopyin.c, which run on the process's kernel page table,
      against the translation that the user page table gives.
    - Asm.v: trampoline.S, kernelvec.S, swtch.S and entry.S as lists of instructions, and a
      machine that runs them: registers, control registers, privilege modes, memory behind Sv39 translation.
      Theorems in AsmSpec.v.  Start.v: kernel/start.c on that machine.
      Initcode.v: user/initcode.S and the bytes of it in proc.c, decoded.
    - Sleeplock.v: kernel/sleeplock.c; theorems in SleeplockSpec.v.
    - Bio.v: kernel/bio.c, over an interface to the disk driver; BioSpec.v (the ring of buffers),
      BioInv.v (the cache as a function from block numbers to
      contents), BioProps.v (its properties and concrete instances).
    - Virtio.v: kernel/virtio_disk.c on the queue that the driver shares with the device;
      VirtioSpec.v proves what Bio.v asks of a disk.
    - Log.v: kernel/log.c; LogSpec.v (the writes of commit and recovery),
      LogCrash.v (crash safety), LogTxn.v (whole transactions).
    - Fs.v: kernel/fs.c; FsTx.v (the view of the file system on the
      layers below), FsAlloc.v (the bitmap), FsFile.v (bmap), FsRw.v
      (readi, writei), FsInode.v (ilock), FsAtomic.v (a write as a transaction), FsDir.v (dirlookup, iget),
      FsPath.v (skipelem, namex, namei).
    - Mkfs.v: mkfs/mkfs.c, which builds the disk image on the host; MkfsFile.v (a file that
      iappend() extends), MkfsSpec.v (the image as a file system), MkfsRead.v (the kernel reads the image).
    - Console.v: kernel/console.c and the interrupt-driven part of uart.c.
    - Pipe.v: kernel/pipe.c; theorems in PipeSpec.v.
    - File.v: kernel/file.c.  ProcLife.v: allocproc to wait of kernel/proc.c.
      Syscall.v: kernel/syscall.c and sysproc.c.  Exec.v: kernel/exec.c.
      Sysfile.v: kernel/sysfile.c.  Trap.v: kernel/trap.c, plic.c, main.c.
    - User.v: system-call stubs (user/usys.pl).  Ulib.v: user/ulib.c and user/printf.c; theorems in UlibSpec.v.
    - Grep.v: user/grep.c.  Coreutils.v: cat, echo, wc, kill, ln, mkdir, rm, ls, zombie, init.
    - Umalloc.v: user/umalloc.c; UmallocSpec.v (the list of free blocks), UmallocProps.v
      (malloc and free), Arena.v (the interface for the shell).
    - Sh.v: user/sh.c; ShParse.v (the language of the shell and a reference parser),
      ShLex.v (tokens), ShTree.v (the parser), ShProps.v (parsecmd), ShRun.v (runcmd).

    The layers call each other as the C code does: system calls (Sysfile, Syscall) use
    files (File), these pipes and inodes (Pipe, Fs), inodes use the log (Log), the
    log the buffer cache (Bio), the cache sleeplocks and the disk; everything
    uses spinlocks, the allocator and the scheduler.

    ** What the theorems show

    - Log and file system: a transaction is atomic with respect to crashes
      ([transaction_atomic], [commit_crash_safe], [recovery_crash_safe]); a write to a
      file is such a transaction ([file_write_atomic]).  They are statements about
      the sequence of disk writes of the code: for every prefix of it, what
      initlog() makes of the disk.  [writei_correct], [readi_correct] and their round trip treat a file as a
      sequence of bytes; [balloc_correct] and [bfree_correct] the bitmap as a set.  [dirlookup_correct] and [namei_correct]
      relate the walk along a path to the directories on the disk ([resolves], FsPath.v), with an account of
      the references in the inode table; the walk assumes that no other process holds an inode on the way locked.
    - Buffer cache: [bio] is its invariant, [bread_correct], [bwrite_correct],
      [bget_correct], [brelse_correct] its operations.
    - Virtual memory: each operation against [pte_at], with a frame condition
      for all other translations and all other memory.
    - Locks and scheduling: mutual exclusion over all interleavings of acquire
      and release, no lost wakeup in sleep, the exact effect of wakeup and kill, no starvation
      of a runnable process by the scheduler.
    - Traps and boot: [user_trap_roundtrip], [kernelvec_transparent] and [swtch_coroutine] say that the
      assembly code saves and restores the registers that the C code relies on, so that a trap is invisible to
      the code that it interrupts and [Switch] is what swtch() does; [boot_correct] takes a hart from _entry to main() and
      through its timer interrupts; [initcode_execs_init] is the first user code.
    - The disk image: [mkfs_correct] shows that the image satisfies what the theorems on the file
      system assume of a disk; [mkfs_readable] composes it with [namei], [ilock] and [readi]: the kernel reads from the image
      the bytes that the files had on the host.  [root_hole] is a bug.
    - Allocator, pipes, printf, string functions: functional correctness.
    - Disk driver: [virtio_disk_rw_correct] runs a request from its descriptors through the
      device, the interrupt handler and the wakeup of the waiting thread; it makes
      the driver an instance of the interface of the buffer cache ([DiskLaws], BioInv.v), so
      that the theorems on the cache, the log and the file system hold over it.
      The device is a parameter ([VirtioDevice]) with the laws of the virtio specification
      ([VirtioLaws]): it serves the chain at the head of the available ring and puts it on the used ring.
      [virtio_disk_init_correct] shows that initialisation establishes the driver's invariant.
    - User programs: [parsecmd_correct] and [parsecmd_print] relate the shell's parser, with its structures
      in allocated memory, to a grammar; [runcmd_correct] says what each process of a command
      line executes and with which descriptors; [malloc_correct] and [free_correct] treat the heap as sets of
      blocks; [match_correct] relates the matcher of grep to the language of its pattern, [grep_correct] its
      output to the lines of the input.  [grep_long_line] and [malloc_negative_sbrk] are bugs.
    
    ** Fuel and bounds

    A loop whose number of rounds the code bounds has that bound as its fuel (the
    number of pages, blocks or bytes it treats, plus one for the exit), and the theorems
    prove that it suffices.  A loop that waits for another thread (begin_op, pipes,
    acquiresleep, the console, wait) has [sleep_rounds] = 1000 rounds: each is a
    wakeup that finds the condition false; the theorems on these loops treat
    the case in which the condition holds or the thread goes to sleep.
    iappend() of mkfs writes at least a byte in a round, so that the length of its argument is the fuel; the code of
    Asm.v has no loops, and initcode runs a stated number of instructions between two system calls.
    User code: [str_fuel] is a page, [match_fuel] a page and the buffer of grep, [heap_fuel] twice
    the blocks that fit in the memory of the machine, [parse_fuel] five times a page (four calls per
    token); loops over input (cat, wc, grep) have the number of reads as fuel, and the theorems ask for one more than the bytes of the input.

    ** Not modelled

    - The TLB and the order in which other harts see stores: sfence_vma and the fences of spinlock.c have
      no effect on the model's state.
    - Interrupts between any two instructions of a C function: a trap handler is a function of its own.
    - The code that the compiler makes of the C functions: Asm.v runs assembly files only, and its theorems take what
      a called C function keeps (the stack pointer, the frame) as hypotheses.
    - user/user.ld: where the linker puts the parts of a user program is a parameter ([Image]).
    - kernel/ramdisk.c, which uses fields of struct buf that no longer exist and is not built.
    - defs.h, types.h and user.h, which hold prototypes and type names.
    - The test programs (usertests, grind, forktest, stressfs, pgtbltest) and the grading scripts: they run
      the system calls that are modelled here and are not part of the system. *)

From Stdlib Require Import ZArith Lia Ascii.
From stdpp Require Import base gmap list_numbers strings numbers list.

Open Scope Z_scope.

(** * C integers

    A w-bit unsigned C integer is a [Z] in [0, 2^w); [u8] .. [u64] are the
    conversions to the unsigned types, [i16] and [i32] those to the signed
    ones (two's complement, which is what the RISC-V compiler implements for
    the out-of-range conversions the sources use). *)

Definition u8 (z : Z) : Z := z mod 2 ^ 8.
Definition u16 (z : Z) : Z := z mod 2 ^ 16.
Definition u32 (z : Z) : Z := z mod 2 ^ 32.
Definition u64 (z : Z) : Z := z mod 2 ^ 64.
Definition i16 (z : Z) : Z := (z + 2 ^ 15) mod 2 ^ 16 - 2 ^ 15.
Definition i32 (z : Z) : Z := (z + 2 ^ 31) mod 2 ^ 32 - 2 ^ 31.

(** A C truth value used as an integer. *)
Definition b2z (b : bool) : Z := if b then 1 else 0.

(** The bytes of a string literal. *)
Fixpoint str (s : string) : list Z :=
  match s with
  | EmptyString => []
  | String c s' => Z.of_nat (nat_of_ascii c) :: str s'
  end.

(** * Outcomes and the kernel monad

    A C function is a function from the state to an [outcome].  [Switch] is a
    context switch: the thread has left the CPU in state [s] and goes on with
    [resume] in whatever state it is switched back in.  [Panic] is a call of
    panic(), which never returns; [Fault] is an access the hardware or the C
    language does not allow (a null or unmapped address, an index out of an
    array); [Spin] is an acquire() of a spinlock that some other thread holds;
    [NoFuel] is a loop that has not ended within the bound of its model. *)

Inductive outcome (S A : Type) : Type :=
| Ret (a : A) (s : S)
| Panic (msg : string) (s : S)
| Fault (why : string) (s : S)
| Spin (s : S)
| Switch (s : S) (resume : S -> outcome S A)
| NoFuel.

Arguments Ret {S A} a s.
Arguments Panic {S A} msg s.
Arguments Fault {S A} why s.
Arguments Spin {S A} s.
Arguments Switch {S A} s resume.
Arguments NoFuel {S A}.

Definition M (S A : Type) : Type := S -> outcome S A.

Fixpoint obind {S A B : Type} (o : outcome S A) (f : A -> M S B) : outcome S B :=
  match o with
  | Ret a s => f a s
  | Panic m s => Panic m s
  | Fault m s => Fault m s
  | Spin s => Spin s
  | Switch s r => Switch s (fun s' => obind (r s') f)
  | NoFuel => NoFuel
  end.

Definition ret {S A : Type} (a : A) : M S A := fun s => Ret a s.
Definition bind {S A B : Type} (m : M S A) (f : A -> M S B) : M S B :=
  fun s => obind (m s) f.
Definition gets {S A : Type} (f : S -> A) : M S A := fun s => Ret (f s) s.
Definition modify {S : Type} (f : S -> S) : M S unit := fun s => Ret tt (f s).
Definition panic {S A : Type} (msg : string) : M S A := fun s => Panic msg s.
Definition fault {S A : Type} (why : string) : M S A := fun s => Fault why s.
Definition nofuel {S A : Type} : M S A := fun _ => NoFuel.

Declare Scope kernel_scope.
Delimit Scope kernel_scope with K.
Open Scope kernel_scope.

Notation "'let!' x := m 'in' k" := (bind m (fun x => k))
  (at level 10, x name, m at level 100, k at level 200,
   format "'[v' 'let!'  x  :=  m  'in' '/' k ']'") : kernel_scope.
Notation "'let!' ' p := m 'in' k" := (bind m (fun p => k))
  (at level 10, p pattern, m at level 100, k at level 200,
   format "'[v' 'let!'  ' p  :=  m  'in' '/' k ']'") : kernel_scope.
Notation "'do!' m ; k" := (bind m (fun _ => k))
  (at level 10, m at level 100, k at level 200,
   format "'[v' 'do!'  m ; '/' k ']'") : kernel_scope.

(** An access through an index or pointer that may be out of range. *)
Definition need {S A : Type} (why : string) (o : option A) : M S A :=
  match o with Some a => ret a | None => fault why end.

Definition when {S : Type} (b : bool) (m : M S unit) : M S unit :=
  if b then m else ret tt.

(** [foreach l body]: a C loop over the elements of [l] in order, whose body
    may leave the loop early with [Some r] (a return or goto in the body). *)
Fixpoint foreach {S X R : Type} (l : list X) (body : X -> M S (option R)) : M S (option R) :=
  match l with
  | [] => ret None
  | x :: l' =>
      let! r := body x in
      match r with
      | Some _ => ret r
      | None => foreach l' body
      end
  end.

Section MonadLemmas.
Context {S A B : Type}.
Implicit Types (m : M S A) (f : A -> M S B) (s : S).

Lemma bind_run m f s a s' : m s = Ret a s' -> bind m f s = f a s'.
Proof. unfold bind. by intros ->. Qed.

Lemma bind_ret (a : A) f s : bind (ret a) f s = f a s.
Proof. done. Qed.

Lemma bind_cong m m' f s : m s = m' s -> bind m f s = bind m' f s.
Proof. unfold bind. by intros ->. Qed.

Lemma bind_panic m f s msg s' : m s = Panic msg s' -> bind m f s = Panic msg s'.
Proof. unfold bind. by intros ->. Qed.

Lemma bind_Ret_inv m f s b s' :
  bind m f s = Ret b s' -> exists a s1, m s = Ret a s1 /\ f a s1 = Ret b s'.
Proof. unfold bind. destruct (m s) eqn:E; simpl; intros H; try discriminate. eauto. Qed.
End MonadLemmas.

(** Two calls followed by the rest of a body. *)
Lemma bind_run_seq {S A : Type} (m1 m2 : M S unit) (c : M S A) s s' :
  (do! m1; m2) s = Ret tt s' -> (do! m1; do! m2; c) s = c s'.
Proof.
  intros E. apply bind_Ret_inv in E as (u & s1 & E1 & E2).
  rewrite (bind_run _ _ _ _ _ E1). by rewrite (bind_run _ _ _ _ _ E2).
Qed.

(** [run_with L]: execute the first call of a bind with the equation [L]. *)
Ltac run_with L := erewrite bind_run; [| eapply L; try eassumption; eauto ].

(** A closed decidable statement, by evaluation. *)
Ltac decided := apply (bool_decide_unpack _); vm_compute; exact I.

(** Boolean tests of the code as propositions. *)
Ltac bool_prop :=
  repeat match goal with
  | H : (_ =? _) = true |- _ => apply Z.eqb_eq in H
  | H : (_ =? _) = false |- _ => apply Z.eqb_neq in H
  | H : (_ <? _) = true |- _ => apply Z.ltb_lt in H
  | H : (_ <? _) = false |- _ => apply Z.ltb_ge in H
  | H : (_ <=? _) = true |- _ => apply Z.leb_le in H
  | H : (_ <=? _) = false |- _ => apply Z.leb_gt in H
  | H : negb _ = true |- _ => apply negb_true_iff in H
  | H : negb _ = false |- _ => apply negb_false_iff in H
  | H : (_ && _) = true |- _ => apply andb_true_iff in H; destruct H
  | H : (_ || _) = false |- _ => apply orb_false_iff in H; destruct H
  end.

(** Case analysis on the innermost test of a conditional of the goal. *)
Ltac case_if :=
  match goal with
  | |- context [if ?b then _ else _] =>
      lazymatch b with
      | context [if _ then _ else _] => fail
      | _ => let E := fresh "E" in destruct b eqn:E; bool_prop
      end
  end.

(** Invert an execution [m s = Ret a s'] into the executions of its calls. *)
Ltac inv_run :=
  repeat match goal with
  | H : bind _ _ _ = Ret _ _ |- _ =>
      apply bind_Ret_inv in H; destruct H as (? & ? & ? & H)
  | H : ret _ _ = Ret _ _ |- _ => unfold ret in H; simplify_eq
  | H : gets _ _ = Ret _ _ |- _ => unfold gets in H; simplify_eq
  | H : modify _ _ = Ret _ _ |- _ => unfold modify in H; simplify_eq
  | H : panic _ _ = Ret _ _ |- _ => discriminate H
  | H : fault _ _ = Ret _ _ |- _ => discriminate H
  | H : nofuel _ = Ret _ _ |- _ => discriminate H
  | H : need _ ?o _ = Ret _ _ |- _ => destruct o eqn:?; simpl in H
  | H : (if ?b then _ else _) _ = Ret _ _ |- _ => destruct b eqn:?; bool_prop
  end.

Create HintDb word discriminated.

(** * Integer lemmas *)

Lemma u64_small z : 0 <= z < 2 ^ 64 -> u64 z = z.
Proof. apply Z.mod_small. Qed.

Lemma u32_small z : 0 <= z < 2 ^ 32 -> u32 z = z.
Proof. apply Z.mod_small. Qed.

Lemma u64_range z : 0 <= u64 z < 2 ^ 64.
Proof. apply Z.mod_pos_bound. lia. Qed.

Lemma u32_range z : 0 <= u32 z < 2 ^ 32.
Proof. apply Z.mod_pos_bound. lia. Qed.

Lemma u8_range z : 0 <= u8 z < 256.
Proof. apply Z.mod_pos_bound. lia. Qed.

Lemma i32_small z : - 2 ^ 31 <= z < 2 ^ 31 -> i32 z = z.
Proof. intros. unfold i32. rewrite Z.mod_small; lia. Qed.

Lemma i32_range z : - 2 ^ 31 <= i32 z < 2 ^ 31.
Proof. unfold i32. pose proof (Z.mod_pos_bound (z + 2 ^ 31) (2 ^ 32)). lia. Qed.

#[export] Hint Resolve u64_range u32_range u8_range i32_range : word.

(** * Numerals *)

(** The value of the digits [ds], the least significant first. *)
Fixpoint digits_val (base : Z) (ds : list Z) : Z :=
  match ds with
  | [] => 0
  | d :: ds' => d + base * digits_val base ds'
  end.

(** [ds] are the digits of [x], no more than needed. *)
Record numeral (base x : Z) (ds : list Z) : Prop := {
  nu_digits : Forall (fun d => 0 <= d < base) ds;
  nu_val : digits_val base ds = x;
  nu_top : exists ds' d, ds = ds' ++ [d] /\ (d = 0 -> ds' = []);
}.

(** The digits that a loop of divisions yields. *)
Fixpoint to_digits (n : nat) (base x : Z) : list Z :=
  match n with
  | O => []
  | S n' => x mod base :: if x / base =? 0 then [] else to_digits n' base (x / base)
  end.

Lemma to_digits_length base n : forall x, (length (to_digits n base x) <= n)%nat.
Proof. induction n as [|n IH]; intros x; simpl; [lia|]. case_if; simpl; [lia|]. specialize (IH (x / base)). lia. Qed.

Lemma div_pow_bound base x n : 0 < base -> 0 <= x < base ^ Z.of_nat (S n) -> 0 <= x / base < base ^ Z.of_nat n.
Proof.
  intros Hb Hx. split; [apply Z.div_pos; lia|]. apply Z.div_lt_upper_bound; [lia|].
  replace (Z.of_nat (S n)) with (1 + Z.of_nat n) in Hx by lia. rewrite Z.pow_add_r, Z.pow_1_r in Hx by lia. lia.
Qed.

Lemma to_digits_numeral base n : 2 <= base -> (0 < n)%nat -> forall x,
  0 <= x < base ^ Z.of_nat n -> numeral base x (to_digits n base x).
Proof.
  intros Hb Hn. induction n as [|n IH]; [lia|]. intros x Hx. cbn [to_digits].
  pose proof (Z.mod_pos_bound x base ltac:(lia)) as Hm. pose proof (Z.div_mod x base ltac:(lia)) as Hdm.
  destruct (Z.eqb_spec (x / base) 0) as [E|Hne].
  - split; [by apply Forall_singleton|simpl; lia|by exists [], (x mod base)].
  - apply (div_pow_bound base) in Hx as Hx'; [|lia]. destruct n as [|n]; [simpl in Hx'; lia|].
    destruct (IH ltac:(lia) (x / base) Hx') as [H1 H2 (ds' & d & E & Hd)]. split.
    + by constructor.
    + cbn [digits_val]. rewrite H2. lia.
    + exists (x mod base :: ds'), d. split; [by rewrite E|]. intros ->. rewrite E, Hd in H2 by done. simpl in H2. lia.
Qed.

(** The first [n] hexadecimal digits of a 64-bit integer, the most significant first. *)
Definition nibbles (x : Z) (n : nat) : list Z := (fun i => Z.land (Z.shiftr x (60 - 4 * Z.of_nat i)) 15) <$> seq 0 n.

Lemma nibbles_range x n : Forall (fun d => 0 <= d < 16) (nibbles x n).
Proof.
  apply Forall_fmap, Forall_true. intros i. cbn. change 15 with (Z.ones 4). rewrite Z.land_ones by lia. apply Z.mod_pos_bound. lia.
Qed.

Lemma top_nibble x : 0 <= x < 2 ^ 64 -> 0 <= Z.shiftr x 60 < 16.
Proof.
  intros Hx. rewrite Z.shiftr_div_pow2 by lia. split; [apply Z.div_pos; lia|]. apply Z.div_lt_upper_bound; lia.
Qed.

Lemma shl_digit x i : 0 <= i <= 56 ->
  Z.land (Z.shiftr (u64 (Z.shiftl x 4)) (4 + i)) 15 = Z.land (Z.shiftr x i) 15.
Proof.
  intros Hi. apply Z.bits_inj'. intros n Hn. change 15 with (Z.ones 4). unfold u64.
  rewrite !Z.land_spec, <- Z.land_ones, !Z.shiftr_spec, Z.land_spec, Z.shiftl_spec by lia.
  destruct (Z.ltb_spec n 4).
  - rewrite (Z.ones_spec_low 64), andb_true_r by lia. by replace (n + (4 + i) - 4) with (n + i) by lia.
  - rewrite (Z.ones_spec_high 4), !andb_false_r by lia. done.
Qed.

(** Shifting a digit out at the top. *)
Lemma nibbles_S x n : (S n <= 16)%nat -> 0 <= x < 2 ^ 64 -> nibbles x (S n) = Z.shiftr x 60 :: nibbles (u64 (Z.shiftl x 4)) n.
Proof.
  intros Hn Hx. unfold nibbles. rewrite <- cons_seq, fmap_cons, <- fmap_S_seq, <- list_fmap_compose. f_equal.
  - change 15 with (Z.ones 4). rewrite Z.land_ones by lia. apply Z.mod_small, top_nibble, Hx.
  - apply list_fmap_ext. intros i y [-> Hi]%lookup_seq. simpl.
    rewrite <- (shl_digit x (60 - 4 * Z.of_nat (S i))) by lia. do 2 f_equal. lia.
Qed.
