(* ===== verification/Mem.v ===== *)
(** Byte-addressed memory with little-endian loads and stores, and the
    functions of kernel/string.c on it. *)

From Stdlib Require Import ZArith Lia.
From stdpp Require Import base gmap list_numbers numbers list.
From S2P Require Import Prelude.

Open Scope Z_scope.

(** A memory maps an address to the byte stored there; a byte never written
    reads as zero.  Every load truncates to the width of a byte, so a load is
    in range whatever the map holds. *)
Abbreviation mem := (gmap Z Z).

Implicit Types (m : mem) (a b v c d : Z) (n : nat).

Definition ld8 (m : mem) (a : Z) : Z := u8 (default 0 (m !! a)).
Definition st8 (m : mem) (a v : Z) : mem := <[a := u8 v]> m.

Fixpoint ldn (n : nat) (m : mem) (a : Z) : Z :=
  match n with
  | O => 0
  | S n' => ld8 m a + 2 ^ 8 * ldn n' m (a + 1)
  end.

Fixpoint stn (n : nat) (m : mem) (a v : Z) : mem :=
  match n with
  | O => m
  | S n' => stn n' (st8 m a v) (a + 1) (v / 2 ^ 8)
  end.

Definition ld32 (m : mem) (a : Z) : Z := ldn 4 m a.
Definition ld64 (m : mem) (a : Z) : Z := ldn 8 m a.
Definition st32 (m : mem) (a v : Z) : mem := stn 4 m a v.
Definition st64 (m : mem) (a v : Z) : mem := stn 8 m a v.

(** The bytes at [a, a+n), in order. *)
Fixpoint bytes_at (m : mem) (a : Z) (n : nat) : list Z :=
  match n with
  | O => []
  | S n' => ld8 m a :: bytes_at m (a + 1) n'
  end.

(** Store a list of bytes from address [a] on. *)
Fixpoint st_bytes (m : mem) (a : Z) (l : list Z) : mem :=
  match l with
  | [] => m
  | b :: l' => st_bytes (st8 m a b) (a + 1) l'
  end.

(** * Little-endian fields of a byte array

    [getn n off l] is the n-byte integer at offset [off] of [l], [putn] stores
    one; [None] when the field does not lie in the array. *)

Fixpoint le_bytes (n : nat) (v : Z) : list Z :=
  match n with
  | O => []
  | S n' => u8 v :: le_bytes n' (v / 2 ^ 8)
  end.

Fixpoint le_val (l : list Z) : Z :=
  match l with
  | [] => 0
  | b :: l' => b + 2 ^ 8 * le_val l'
  end.

Definition get_bytes (n off : nat) (l : list Z) : option (list Z) :=
  if (off + n <=? length l)%nat then Some (take n (drop off l)) else None.
Definition put_bytes (off : nat) (bs l : list Z) : option (list Z) :=
  if (off + length bs <=? length l)%nat then Some (take off l ++ bs ++ drop (off + length bs) l)
  else None.

Definition getn (n off : nat) (l : list Z) : option Z := le_val <$> get_bytes n off l.
Definition putn (n off : nat) (v : Z) (l : list Z) : option (list Z) := put_bytes off (le_bytes n v) l.

(** * kernel/string.c *)

Module StringC.

(** for(i = 0; i < n; i++) cdst[i] = c; *)
Fixpoint memset_loop (k : nat) (m : mem) (cdst c i : Z) : mem :=
  match k with
  | O => m
  | S k' => memset_loop k' (st8 m (cdst + i) c) cdst c (i + 1)
  end.

Definition memset (m : mem) (dst c n : Z) : mem :=
  memset_loop (Z.to_nat (u32 n)) m dst c 0.

(** while(n-- > 0){ if( *s1 != *s2 ) return *s1 - *s2; s1++, s2++; } *)
Fixpoint memcmp_loop (k : nat) (m : mem) (s1 s2 : Z) : Z :=
  match k with
  | O => 0
  | S k' =>
      if negb (ld8 m s1 =? ld8 m s2) then ld8 m s1 - ld8 m s2
      else memcmp_loop k' m (s1 + 1) (s2 + 1)
  end.

Definition memcmp (m : mem) (v1 v2 n : Z) : Z :=
  memcmp_loop (Z.to_nat (u32 n)) m v1 v2.

(** while(n-- > 0) *--d = *--s; *)
Fixpoint memmove_down (k : nat) (m : mem) (d s : Z) : mem :=
  match k with
  | O => m
  | S k' => memmove_down k' (st8 m (d - 1) (ld8 m (s - 1))) (d - 1) (s - 1)
  end.

(** while(n-- > 0) *d++ = *s++; *)
Fixpoint memmove_up (k : nat) (m : mem) (d s : Z) : mem :=
  match k with
  | O => m
  | S k' => memmove_up k' (st8 m d (ld8 m s)) (d + 1) (s + 1)
  end.

Definition memmove (m : mem) (dst src n : Z) : mem :=
  let n := u32 n in
  if n =? 0 then m
  else if (src <? dst) && (dst <? src + n)
  then memmove_down (Z.to_nat n) m (dst + n) (src + n)
  else memmove_up (Z.to_nat n) m dst src.

Definition memcpy (m : mem) (dst src n : Z) : mem := memmove m dst src n.

(** A [const char *] argument that is only read: the byte at each offset from
    the pointer. *)
Abbreviation cstr := (Z -> Z).

Definition str_at (m : mem) (p : Z) : cstr := fun i => ld8 m (p + i).
Definition str_of (l : list Z) : cstr := fun i => default 0 (l !! Z.to_nat i).

(** while(n > 0 && *p && *p == *q) n--, p++, q++;
    if(n == 0) return 0; return (uchar)*p - (uchar)*q; *)
Fixpoint strncmp_loop (n : nat) (p q : cstr) (i : Z) : Z :=
  match n with
  | O => 0
  | S n' =>
      if negb (p i =? 0) && (p i =? q i) then strncmp_loop n' p q (i + 1)
      else p i - q i
  end.

Definition strncmp (p q : cstr) (n : Z) : Z := strncmp_loop (Z.to_nat (u32 n)) p q 0.

(** while(n-- > 0 && ( *s++ = *t++) != 0) ;  while(n-- > 0) *s++ = 0;
    The result is the list of the bytes written at s. *)
Fixpoint strncpy_loop (n : nat) (t : cstr) (i : Z) : list Z :=
  match n with
  | O => []
  | S n' =>
      if negb (t i =? 0) then t i :: strncpy_loop n' t (i + 1)
      else t i :: repeat 0 n'
  end.

Definition strncpy (t : cstr) (n : Z) : list Z := strncpy_loop (Z.to_nat n) t 0.

(** while(--n > 0 && ( *s++ = *t++) != 0) ;  *s = 0;
    [n] is the value of the C variable after the decrement. *)
Fixpoint safestrcpy_loop (n : nat) (t : cstr) (i : Z) : list Z :=
  match n with
  | O => [0]
  | S n' =>
      if negb (t i =? 0) then t i :: safestrcpy_loop n' t (i + 1)
      else [t i; 0]
  end.

(** The bytes written at s, from its first byte on. *)
Definition safestrcpy (t : cstr) (n : Z) : list Z :=
  if n <=? 0 then [] else safestrcpy_loop (Z.to_nat (n - 1)) t 0.

(** for(n = 0; s[n]; n++) ;   [None]: no NUL within [fuel] bytes. *)
Fixpoint strlen_loop (fuel : nat) (s : cstr) (n : Z) : option Z :=
  match fuel with
  | O => None
  | S f => if negb (s n =? 0) then strlen_loop f s (n + 1) else Some n
  end.

Definition strlen (fuel : nat) (s : cstr) : option Z := strlen_loop fuel s 0.

End StringC.
Export StringC.

(** * Loads and stores *)

Lemma ld8_range m a : 0 <= ld8 m a < 256.
Proof. apply u8_range. Qed.

Lemma u8_small z : 0 <= z < 256 -> u8 z = z.
Proof. apply Z.mod_small. Qed.

Lemma ld8_st8 m a v b : ld8 (st8 m a v) b = if decide (a = b) then u8 v else ld8 m b.
Proof.
  unfold ld8, st8. rewrite lookup_insert. case_decide; simpl; [|done].
  apply u8_small, u8_range.
Qed.

Lemma ld8_st8_eq m a v : ld8 (st8 m a v) a = u8 v.
Proof. rewrite ld8_st8. by case_decide. Qed.

Lemma ld8_st8_ne m a v b : a <> b -> ld8 (st8 m a v) b = ld8 m b.
Proof. intros. rewrite ld8_st8. by case_decide. Qed.

Lemma ldn_ext n : forall m m' a,
  (forall b, a <= b < a + Z.of_nat n -> ld8 m b = ld8 m' b) -> ldn n m a = ldn n m' a.
Proof.
  induction n as [|n IH]; intros m m' a H; simpl; [done|].
  rewrite (H a) by lia. rewrite (IH m m' (a + 1)); [done|]. intros; apply H; lia.
Qed.

Lemma ldn_range n : forall m a, 0 <= ldn n m a < 2 ^ (8 * Z.of_nat n).
Proof.
  induction n as [|n IH]; intros m a; [simpl; lia|].
  cbn [ldn]. pose proof (ld8_range m a). specialize (IH m (a + 1)).
  replace (8 * Z.of_nat (S n)) with (8 + 8 * Z.of_nat n) by lia.
  rewrite Z.pow_add_r by lia. lia.
Qed.

Lemma ld64_range m a : 0 <= ld64 m a < 2 ^ 64.
Proof. apply (ldn_range 8). Qed.

Lemma ld8_stn_out n : forall m a v b,
  (b < a \/ a + Z.of_nat n <= b) -> ld8 (stn n m a v) b = ld8 m b.
Proof.
  induction n as [|n IH]; intros m a v b H; cbn [stn]; [done|].
  rewrite IH by lia. apply ld8_st8_ne. lia.
Qed.

Lemma ldn_stn_same n : forall m a v, ldn n (stn n m a v) a = v mod 2 ^ (8 * Z.of_nat n).
Proof.
  induction n as [|n IH]; intros m a v; cbn [stn ldn].
  - by rewrite Z.mod_1_r.
  - rewrite IH, ld8_stn_out by lia. rewrite ld8_st8_eq. unfold u8.
    replace (8 * Z.of_nat (S n)) with (8 + 8 * Z.of_nat n) by lia.
    rewrite Z.pow_add_r, Z.rem_mul_r by lia. lia.
Qed.

Lemma ldn_stn_disj n k m a v b :
  (b + Z.of_nat n <= a \/ a + Z.of_nat k <= b) -> ldn n (stn k m a v) b = ldn n m b.
Proof. intros H. apply ldn_ext. intros c Hc. apply ld8_stn_out. lia. Qed.

Lemma ld64_st64_eq m a v : 0 <= v < 2 ^ 64 -> ld64 (st64 m a v) a = v.
Proof. intros. unfold ld64, st64. rewrite ldn_stn_same. by apply Z.mod_small. Qed.

Lemma ld64_st64_ne m a v b : b + 8 <= a \/ a + 8 <= b -> ld64 (st64 m a v) b = ld64 m b.
Proof. intros. by apply ldn_stn_disj. Qed.

Lemma length_bytes_at m n : forall a, length (bytes_at m a n) = n.
Proof. induction n; intros; simpl; auto. Qed.

Lemma lookup_bytes_at m n : forall a i,
  (i < n)%nat -> bytes_at m a n !! i = Some (ld8 m (a + Z.of_nat i)).
Proof.
  induction n as [|n IH]; intros a [|i] H; simpl; try lia.
  - by rewrite Z.add_0_r.
  - rewrite IH by lia. do 2 f_equal. lia.
Qed.

Lemma bytes_at_ext n : forall m m' a,
  (forall b, a <= b < a + Z.of_nat n -> ld8 m b = ld8 m' b) -> bytes_at m a n = bytes_at m' a n.
Proof.
  induction n as [|n IH]; intros m m' a H; simpl; [done|].
  f_equal; [apply H; lia|]. apply IH. intros; apply H; lia.
Qed.

Lemma ld8_st_bytes l : forall m a b,
  ld8 (st_bytes m a l) b =
    if decide (a <= b < a + Z.of_nat (length l)) then u8 (default 0 (l !! Z.to_nat (b - a)))
    else ld8 m b.
Proof.
  induction l as [|x l IH]; intros m a b; cbn [st_bytes length].
  - case_decide; [lia|done].
  - rewrite IH, ld8_st8. destruct (decide (a = b)) as [->|Hne].
    + rewrite decide_False, decide_True by lia. by rewrite Z.sub_diag.
    + repeat case_decide; try lia.
      replace (Z.to_nat (b - a)) with (S (Z.to_nat (b - (a + 1)))) by lia. done.
Qed.

(** * Correctness of string.c *)

Lemma ld8_memset_loop k : forall m dst c i a,
  ld8 (memset_loop k m dst c i) a =
    if decide (dst + i <= a < dst + i + Z.of_nat k) then u8 c else ld8 m a.
Proof.
  induction k as [|k IH]; intros m dst c i a; cbn [memset_loop].
  - case_decide; [lia|done].
  - rewrite IH, ld8_st8. repeat case_decide; try lia; done.
Qed.

Lemma ld8_memset m (dst c n a : Z) :
  0 <= n < 2 ^ 32 ->
  ld8 (memset m dst c n) a = if decide (dst <= a < dst + n) then u8 c else ld8 m a.
Proof.
  intros H. unfold memset. rewrite ld8_memset_loop, u32_small by lia.
  repeat case_decide; try lia; done.
Qed.

Lemma ld8_memmove_up k : forall m d s a,
  (s < d -> s + Z.of_nat k <= d) ->
  ld8 (memmove_up k m d s) a =
    if decide (d <= a < d + Z.of_nat k) then ld8 m (s + (a - d)) else ld8 m a.
Proof.
  induction k as [|k IH]; intros m d s a H; cbn [memmove_up].
  - case_decide; [lia|done].
  - rewrite IH by lia. rewrite !ld8_st8.
    repeat case_decide; try lia; try done; subst.
    + f_equal; lia.
    + replace (s + (a - a)) with s by lia. apply u8_small, ld8_range.
Qed.

Lemma ld8_memmove_down k : forall m d s a,
  s <= d ->
  ld8 (memmove_down k m d s) a =
    if decide (d - Z.of_nat k <= a < d) then ld8 m (s + (a - d)) else ld8 m a.
Proof.
  induction k as [|k IH]; intros m d s a H; cbn [memmove_down].
  - case_decide; [lia|done].
  - rewrite IH by lia. rewrite !ld8_st8.
    repeat case_decide; try lia; try done; subst.
    + f_equal; lia.
    + replace (s + (d - 1 - d)) with (s - 1) by lia. apply u8_small, ld8_range.
Qed.

Lemma ld8_memmove m (dst src n a : Z) :
  0 <= n < 2 ^ 32 ->
  ld8 (memmove m dst src n) a =
    if decide (dst <= a < dst + n) then ld8 m (src + (a - dst)) else ld8 m a.
Proof.
  intros H. unfold memmove. rewrite u32_small by lia.
  case_if; [case_decide; [lia|done]|].
  case_if.
  - rewrite ld8_memmove_down by lia. repeat case_decide; try lia; try done. f_equal; lia.
  - rewrite ld8_memmove_up.
    + repeat case_decide; try lia; done.
    + apply andb_false_iff in E0. rewrite !Z.ltb_ge in E0. lia.
Qed.

(** memmove() copies as if through a buffer of its own, whatever the overlap
    of source and destination: the destination holds the old bytes of the
    source, and no other byte changes. *)
Theorem memmove_correct m (dst src n : Z) :
  0 <= n < 2 ^ 32 ->
  bytes_at (memmove m dst src n) dst (Z.to_nat n) = bytes_at m src (Z.to_nat n) /\
  forall a, ~ (dst <= a < dst + n) -> ld8 (memmove m dst src n) a = ld8 m a.
Proof.
  intros Hn. split.
  - apply list_eq. intros i. destruct (decide (i < Z.to_nat n)%nat) as [Hi|Hi].
    + rewrite !lookup_bytes_at by done. rewrite ld8_memmove, decide_True by lia. do 2 f_equal. lia.
    + rewrite !lookup_ge_None_2 by (rewrite length_bytes_at; lia). done.
  - intros a Ha. rewrite ld8_memmove by done. by rewrite decide_False.
Qed.

Lemma strncmp_loop_spec n : forall p q i,
  (strncmp_loop n p q i = 0 /\
   forall j, i <= j < i + Z.of_nat n -> (forall l, i <= l < j -> p l <> 0) -> p j = q j) \/
  (exists j, i <= j < i + Z.of_nat n /\ strncmp_loop n p q i = p j - q j /\ p j <> q j /\
     forall l, i <= l < j -> p l = q l /\ p l <> 0).
Proof.
  induction n as [|n IH]; intros p q i; cbn [strncmp_loop].
  - left. split; [done|]. intros; lia.
  - destruct (negb (p i =? 0) && (p i =? q i)) eqn:E; bool_prop.
    + destruct (IH p q (i + 1)) as [[E0 HI]|(j & Hj & E1 & Hne & HI)].
      * left. split; [done|]. intros j Hj Hl. destruct (decide (j = i)) as [->|]; [done|].
        apply HI; [lia|]. intros; apply Hl; lia.
      * right. exists j. split; [lia|]. split; [done|]. split; [done|].
        intros l Hl. destruct (decide (l = i)) as [->|]; [done|]. apply HI. lia.
    + destruct (decide (p i = q i)) as [Eq|Hne].
      * rewrite Eq, Z.eqb_refl, andb_true_r in E. apply negb_false_iff, Z.eqb_eq in E.
        left. split; [lia|]. intros j Hj Hl. destruct (decide (j = i)) as [->|]; [done|].
        exfalso. apply (Hl i); lia.
      * right. exists i. split; [lia|]. split; [done|]. split; [done|]. intros; lia.
Qed.

(** strncmp() compares at most n bytes, up to the first NUL: it returns 0
    when they agree, and otherwise the difference of the first two bytes that
    differ, all bytes before these being equal and not NUL. *)
Theorem strncmp_correct (p q : cstr) (n : Z) :
  0 <= n < 2 ^ 32 ->
  (strncmp p q n = 0 /\
   forall j, 0 <= j < n -> (forall l, 0 <= l < j -> p l <> 0) -> p j = q j) \/
  (exists j, 0 <= j < n /\ strncmp p q n = p j - q j /\ p j <> q j /\
     forall l, 0 <= l < j -> p l = q l /\ p l <> 0).
Proof.
  intros Hn. unfold strncmp. rewrite u32_small by done.
  pose proof (strncmp_loop_spec (Z.to_nat n) p q 0) as H. by rewrite Z2Nat.id in H by lia.
Qed.

(** The bytes of a string before its NUL, at most [n] of them. *)
Fixpoint str_prefix (n : nat) (t : cstr) (i : Z) : list Z :=
  match n with
  | O => []
  | S n' => if t i =? 0 then [] else t i :: str_prefix n' t (i + 1)
  end.

Lemma safestrcpy_loop_spec n : forall t i,
  exists pad, safestrcpy_loop n t i = str_prefix n t i ++ 0 :: pad /\
    (length (safestrcpy_loop n t i) <= S n)%nat.
Proof.
  induction n as [|n IH]; intros t i; cbn [safestrcpy_loop str_prefix]; [by exists []; simpl|].
  destruct (Z.eqb_spec (t i) 0) as [E|E]; simpl.
  - rewrite E. exists [0]. split; [done|]. simpl. lia.
  - destruct (IH t (i + 1)) as (pad & -> & Hl). exists pad. simpl. split; [done|]. simpl in Hl. lia.
Qed.

(** safestrcpy(s, t, n) with n > 0 writes at most n bytes, and they are the
    first n - 1 bytes of the string t (all of it, if it is shorter) followed by a
    NUL: the copy is always terminated and never overruns. *)
Theorem safestrcpy_correct (t : cstr) (n : Z) :
  0 < n ->
  exists pad, safestrcpy t n = str_prefix (Z.to_nat (n - 1)) t 0 ++ 0 :: pad /\
    Z.of_nat (length (safestrcpy t n)) <= n.
Proof.
  intros Hn. unfold safestrcpy. destruct (Z.leb_spec n 0); [lia|].
  destruct (safestrcpy_loop_spec (Z.to_nat (n - 1)) t 0) as (pad & E & Hl).
  exists pad. split; [done|]. lia.
Qed.

#[global] Opaque memset memmove.
#[global] Arguments ldn : simpl never.
#[global] Arguments stn : simpl never.
#[global] Arguments bytes_at : simpl never.
#[global] Arguments ld64 : simpl never.
#[global] Arguments st64 : simpl never.
#[global] Arguments ld32 : simpl never.
#[global] Arguments st32 : simpl never.

(** * Witnesses *)

(** Overlapping by one byte. *)
Lemma memmove_correct_witness :
  bytes_at (memmove (st_bytes ∅ 10 [1; 2; 3]) 11 10 3) 11 3 = [1; 2; 3].
Proof.
  destruct (memmove_correct (st_bytes ∅ 10 [1; 2; 3]) 11 10 3) as [E _]; [lia|].
  etransitivity; [exact E|]. by vm_compute.
Defined.

Lemma strncmp_correct_witness : strncmp (str_of [97; 98]) (str_of [97; 99]) 14 <> 0.
Proof.
  destruct (strncmp_correct (str_of [97; 98]) (str_of [97; 99]) 14) as [[_ H]|(j & Hj & E & Hne & _)];
    [lia| |lia].
  specialize (H 1 ltac:(lia)). exfalso. enough (98 = 99) by lia. apply H.
  intros l Hl. replace l with 0 by lia. by vm_compute.
Defined.

Lemma safestrcpy_correct_witness :
  exists pad, safestrcpy (str_of [97; 98; 99]) 3 = [97; 98; 0] ++ pad.
Proof.
  destruct (safestrcpy_correct (str_of [97; 98; 99]) 3) as (pad & E & _); [lia|].
  exists pad. exact E.
Defined.
