(* ===== verification/Bytes.v ===== *)
(** Integers in byte arrays: what is stored in a field is read back from it, and
    the other fields keep their values. *)

From Stdlib Require Import ZArith Lia.
From stdpp Require Import base gmap list_numbers strings numbers list.
From S2P Require Import Prelude Mem.

Open Scope Z_scope.

Lemma le_bytes_length n v : length (le_bytes n v) = n.
Proof. revert v. induction n as [|n IH]; intros v; simpl; [done|]. by rewrite IH. Qed.

Lemma le_val_bytes n : forall v, le_val (le_bytes n v) = v mod 2 ^ (8 * Z.of_nat n).
Proof.
  induction n as [|n IH]; intros v; [simpl; by rewrite Z.mod_1_r|].
  cbn [le_bytes le_val]. rewrite IH. unfold u8.
  replace (8 * Z.of_nat (S n)) with (8 + 8 * Z.of_nat n) by lia.
  rewrite Z.pow_add_r, Z.rem_mul_r by lia. lia.
Qed.

Lemma le_bytes_range n : forall v, Forall (fun b => 0 <= b < 256) (le_bytes n v).
Proof. induction n as [|n IH]; intros v; simpl; constructor; [apply u8_range|apply IH]. Qed.

Lemma get_bytes_app a b c n off :
  off = length a -> n = length b -> get_bytes n off (a ++ b ++ c) = Some b.
Proof.
  intros -> ->. unfold get_bytes. rewrite !length_app. destruct (Nat.leb_spec (length a + length b) (length a + (length b + length c))); [|lia].
  f_equal. rewrite drop_app_length. apply take_app_length.
Qed.

Lemma put_bytes_app a b b' c off :
  off = length a -> length b' = length b -> put_bytes off b' (a ++ b ++ c) = Some (a ++ b' ++ c).
Proof.
  intros -> E. unfold put_bytes. rewrite !length_app, E.
  destruct (Nat.leb_spec (length a + length b) (length a + (length b + length c))); [|lia].
  f_equal. rewrite take_app_length. do 2 f_equal. rewrite app_assoc, <- length_app. apply drop_app_length.
Qed.

Lemma getn_app a n v c off :
  off = length a -> getn n off (a ++ le_bytes n v ++ c) = Some (v mod 2 ^ (8 * Z.of_nat n)).
Proof.
  intros E. unfold getn. rewrite (get_bytes_app a (le_bytes n v) c n off E) by (by rewrite le_bytes_length).
  simpl. by rewrite le_val_bytes.
Qed.

(** A store into an array that is written up to [off]. *)
Lemma putn_at n off v a d :
  off = length a -> (off + n <= length (a ++ drop off d))%nat -> (length a <= length d)%nat ->
  putn n off v (a ++ drop off d) = Some (a ++ le_bytes n v ++ drop (off + n) d).
Proof.
  intros E Hlen Hd. rewrite length_app, length_drop in Hlen.
  rewrite <- (take_drop n (drop off d)) at 1. rewrite drop_drop. unfold putn.
  apply put_bytes_app; [done|]. rewrite le_bytes_length, length_take, length_drop. lia.
Qed.

(** The bytes of a list of 4-byte integers. *)
Definition words (l : list Z) : list Z := concat (le_bytes 4 <$> l).

Lemma words_length l : length (words l) = (4 * length l)%nat.
Proof.
  unfold words. induction l as [|x l IH]; [done|]. rewrite fmap_cons. cbn [concat].
  rewrite length_app, le_bytes_length, IH. simpl. lia.
Qed.

Lemma words_snoc l x : words (l ++ [x]) = words l ++ le_bytes 4 x.
Proof. unfold words. rewrite fmap_app, concat_app. by f_equal. Qed.

Lemma words_app l1 l2 : words (l1 ++ l2) = words l1 ++ words l2.
Proof. unfold words. by rewrite fmap_app, concat_app. Qed.

Lemma getn_words a l c i x off :
  l !! i = Some x -> 0 <= x < 2 ^ 32 -> off = (length a + 4 * i)%nat ->
  getn 4 off (a ++ words l ++ c) = Some x.
Proof.
  intros E Hx ->. rewrite <- (take_drop_middle l i x E), words_app.
  change (words (x :: drop (S i) l)) with (le_bytes 4 x ++ words (drop (S i) l)).
  rewrite <- !app_assoc, (app_assoc a). rewrite getn_app.
  - f_equal. apply Z.mod_small. simpl. lia.
  - rewrite length_app, words_length, length_take. apply lookup_lt_Some in E. lia.
Qed.

(** What a store leaves where, by index. *)
Lemma put_bytes_lookup off b d d' : put_bytes off b d = Some d' ->
  length d' = length d /\ forall i, d' !! i = if decide (off <= i < off + length b)%nat then b !! (i - off)%nat else d !! i.
Proof.
  unfold put_bytes. destruct (Nat.leb_spec (off + length b) (length d)) as [Hle|]; [|done]. intros [= <-]. split.
  - rewrite !length_app, length_take, length_drop. lia.
  - intros i. case_decide as Hi.
    + rewrite lookup_app_r by (rewrite length_take; lia). rewrite length_take, Nat.min_l by lia.
      apply lookup_app_l. lia.
    + destruct (decide (i < off)%nat).
      * rewrite lookup_app_l by (rewrite length_take; lia). by apply lookup_take_lt.
      * rewrite lookup_app_r by (rewrite length_take; lia). rewrite length_take, Nat.min_l by lia.
        rewrite lookup_app_r by lia. rewrite lookup_drop. f_equal. lia.
Qed.

Lemma get_bytes_ext n off d d' : length d' = length d ->
  (forall i, (off <= i < off + n)%nat -> d' !! i = d !! i) -> get_bytes n off d' = get_bytes n off d.
Proof.
  intros Hlen Hi. unfold get_bytes. rewrite Hlen. destruct (Nat.leb_spec (off + n) (length d)); [|done].
  f_equal. apply list_eq. intros i. destruct (decide (i < n)%nat).
  - rewrite !lookup_take_lt, !lookup_drop by lia. apply Hi. lia.
  - rewrite !lookup_take_ge by lia. done.
Qed.

Lemma put_get_bytes off b d d' : put_bytes off b d = Some d' -> get_bytes (length b) off d' = Some b.
Proof.
  intros E. pose proof (put_bytes_lookup _ _ _ _ E) as [Hlen Hl]. unfold put_bytes in E.
  destruct (Nat.leb_spec (off + length b) (length d)); [|done].
  unfold get_bytes. rewrite Hlen, (proj2 (Nat.leb_le _ _)) by lia. f_equal. apply list_eq. intros i.
  destruct (decide (i < length b)%nat).
  - rewrite lookup_take_lt, lookup_drop, Hl, decide_True by lia. f_equal. lia.
  - rewrite lookup_take_ge by lia. symmetry. apply lookup_ge_None. lia.
Qed.

(** A stored integer is read back, and the integers beside it are as before. *)
Lemma getn_putn n off v d d' : putn n off v d = Some d' ->
  length d' = length d /\ getn n off d' = Some (v mod 2 ^ (8 * Z.of_nat n)) /\
  forall n' off', (off' + n' <= off \/ off + n <= off')%nat -> getn n' off' d' = getn n' off' d.
Proof.
  unfold putn. intros E. pose proof (put_bytes_lookup _ _ _ _ E) as [Hlen Hl]. rewrite le_bytes_length in Hl.
  split; [done|]. split.
  - unfold getn. pose proof (put_get_bytes _ _ _ _ E) as Eg. rewrite le_bytes_length in Eg. rewrite Eg. simpl. by rewrite le_val_bytes.
  - intros n' off' Hd. unfold getn. f_equal. apply get_bytes_ext; [done|]. intros i Hi. rewrite Hl, decide_False by lia. done.
Qed.

Lemma putn_ok n off v d : (off + n <= length d)%nat -> exists d', putn n off v d = Some d'.
Proof. intros Hle. unfold putn, put_bytes. rewrite le_bytes_length, (proj2 (Nat.leb_le _ _) Hle). by eexists. Qed.

Lemma getn_ok n off d : (off + n <= length d)%nat -> exists v, getn n off d = Some v.
Proof. intros Hle. unfold getn, get_bytes. rewrite (proj2 (Nat.leb_le _ _) Hle). by eexists. Qed.

Lemma le_val_zeros n : le_val (replicate n 0) = 0.
Proof. induction n as [|n IH]; simpl; [done|]. rewrite IH. done. Qed.

Lemma getn_zeros n off m : (off + n <= m)%nat -> getn n off (replicate m 0) = Some 0.
Proof.
  intros Hle. unfold getn, get_bytes. rewrite length_replicate, (proj2 (Nat.leb_le _ _) Hle). simpl.
  rewrite drop_replicate, take_replicate, Nat.min_l by lia. by rewrite le_val_zeros.
Qed.
