(* ===== verification/Riscv.v ===== *)
(** Constants and macros of kernel/param.h, kernel/memlayout.h and
    kernel/riscv.h, with their arithmetic meaning. *)

From Stdlib Require Import ZArith Lia.
From stdpp Require Import base numbers list.
From S2P Require Import Prelude.

Open Scope Z_scope.

(** * kernel/param.h *)

Definition NPROC : Z := 64.
Definition NCPU : Z := 8.
Definition NOFILE : Z := 16.
Definition NFILE : Z := 100.
Definition NINODE : Z := 50.
Definition NDEV : Z := 10.
Definition ROOTDEV : Z := 1.
Definition MAXARG : Z := 32.
Definition MAXOPBLOCKS : Z := 10.
Definition LOGSIZE : Z := MAXOPBLOCKS * 3.
Definition NBUF : Z := MAXOPBLOCKS * 3.
Definition FSSIZE : Z := 2000.
Definition MAXPATH : Z := 128.

(** * kernel/riscv.h *)

Definition SSTATUS_SPP : Z := Z.shiftl 1 8.
Definition SSTATUS_SPIE : Z := Z.shiftl 1 5.
Definition SSTATUS_SIE : Z := Z.shiftl 1 1.

Definition SATP_SV39 : Z := u64 (Z.shiftl 8 60).
Definition MAKE_SATP (pagetable : Z) : Z := Z.lor SATP_SV39 (Z.shiftr pagetable 12).

Definition PGSIZE : Z := 4096.
Definition PGSHIFT : Z := 12.

Definition PGROUNDUP (sz : Z) : Z :=
  Z.land (u64 (sz + PGSIZE - 1)) (u64 (Z.lnot (PGSIZE - 1))).
Definition PGROUNDDOWN (a : Z) : Z := Z.land a (u64 (Z.lnot (PGSIZE - 1))).

Definition PTE_V : Z := Z.shiftl 1 0.
Definition PTE_R : Z := Z.shiftl 1 1.
Definition PTE_W : Z := Z.shiftl 1 2.
Definition PTE_X : Z := Z.shiftl 1 3.
Definition PTE_U : Z := Z.shiftl 1 4.
Definition PTE_A : Z := Z.shiftl 1 6.

Definition PA2PTE (pa : Z) : Z := u64 (Z.shiftl (Z.shiftr pa 12) 10).
Definition PTE2PA (pte : Z) : Z := u64 (Z.shiftl (Z.shiftr pte 10) 12).
Definition PTE_FLAGS (pte : Z) : Z := Z.land pte 0x3FF.

Definition PXMASK : Z := 0x1FF.
Definition PXSHIFT (level : Z) : Z := PGSHIFT + 9 * level.
Definition PX (level va : Z) : Z := Z.land (Z.shiftr va (PXSHIFT level)) PXMASK.

Definition MAXVA : Z := Z.shiftl 1 (9 + 9 + 9 + 12 - 1).

(** * kernel/memlayout.h *)

Definition UART0 : Z := 0x10000000.
Definition UART0_IRQ : Z := 10.
Definition VIRTIO0 : Z := 0x10001000.
Definition VIRTIO0_IRQ : Z := 1.
Definition CLINT : Z := 0x2000000.
Definition PLIC : Z := 0x0c000000.
Definition USER_TOP : Z := 0x80000000.
Definition KERNBASE : Z := 0x80000000.
Definition PHYSTOP : Z := KERNBASE + 128 * 1024 * 1024.
Definition TRAMPOLINE : Z := MAXVA - PGSIZE.
Definition KSTACK (p : Z) : Z := TRAMPOLINE - p * 2 * PGSIZE - 3 * PGSIZE.
Definition TRAPFRAME : Z := TRAMPOLINE - PGSIZE.
Definition USYSCALL : Z := TRAPFRAME - PGSIZE.

(** * Meaning of the macros *)

(** A mask of the low [k] bits selects the remainder. *)
Lemma land_low_mask a k : 0 <= k -> Z.land a (2 ^ k - 1) = a mod 2 ^ k.
Proof.
  intros. rewrite <- Z.land_ones by lia. by rewrite Z.ones_equiv, Z.sub_1_r.
Qed.

Lemma land_page_mask a : 0 <= a < 2 ^ 64 -> Z.land a (u64 (Z.lnot (PGSIZE - 1))) = a - a mod 4096.
Proof.
  intros Ha.
  assert (E : Z.land a (u64 (Z.lnot (PGSIZE - 1))) = Z.ldiff a (Z.ones 12)).
  { apply Z.bits_inj'. intros i Hi. rewrite Z.land_spec, Z.ldiff_spec.
    change (u64 (Z.lnot (PGSIZE - 1))) with (Z.land (Z.ones 64) (Z.lnot (Z.ones 12))).
    rewrite Z.land_spec, Z.lnot_spec by lia.
    destruct (Z.testbit (Z.ones 64) i) eqn:E1; [done|].
    destruct (decide (64 <= i)).
    - rewrite (Z.bits_above_log2 a i); [done|lia|].
      destruct (decide (a = 0)) as [->|]; [simpl; lia|].
      apply Z.log2_lt_pow2; [lia|]. apply Z.lt_le_trans with (2 ^ 64); [lia|].
      apply Z.pow_le_mono_r; lia.
    - rewrite Z.ones_spec_low in E1 by lia. done. }
  rewrite E, Z.ldiff_ones_r by lia.
  rewrite Z.shiftl_mul_pow2, Z.shiftr_div_pow2 by lia.
  pose proof (Z.div_mod a 4096). change (2 ^ 12) with 4096. lia.
Qed.

Lemma PGROUNDDOWN_eq a : 0 <= a < 2 ^ 64 -> PGROUNDDOWN a = a - a mod 4096.
Proof. apply land_page_mask. Qed.

Lemma PGROUNDUP_eq a :
  0 <= a <= 2 ^ 64 - 4096 -> PGROUNDUP a = (a + 4095) - (a + 4095) mod 4096.
Proof.
  intros Ha. unfold PGROUNDUP. rewrite land_page_mask by apply u64_range.
  change (a + PGSIZE - 1) with (a + 4096 - 1).
  rewrite u64_small by lia. f_equal; [lia|]. f_equal; lia.
Qed.

Lemma PGROUNDUP_spec a :
  0 <= a <= 2 ^ 64 - 4096 ->
  PGROUNDUP a mod 4096 = 0 /\ a <= PGROUNDUP a < a + 4096.
Proof. intros Ha. rewrite PGROUNDUP_eq by done. Z.div_mod_to_equations. lia. Qed.

Lemma PGROUNDUP_aligned a : 0 <= a <= 2 ^ 64 - 4096 -> a mod 4096 = 0 -> PGROUNDUP a = a.
Proof. intros Ha H. rewrite PGROUNDUP_eq by done. Z.div_mod_to_equations. lia. Qed.

Lemma PX_eq level va : 0 <= level -> PX level va = (va / 2 ^ (12 + 9 * level)) mod 512.
Proof.
  intros. unfold PX, PXMASK, PXSHIFT, PGSHIFT. change 0x1FF with (2 ^ 9 - 1).
  rewrite land_low_mask, Z.shiftr_div_pow2 by lia. done.
Qed.

Lemma PX_range level va : 0 <= level -> 0 <= PX level va < 512.
Proof. intros. rewrite PX_eq by done. apply Z.mod_pos_bound. lia. Qed.

(** The three indices and the page offset determine an address below 2^39. *)
Lemma PX_decompose va :
  0 <= va < 2 ^ 39 ->
  va = PX 2 va * 2 ^ 30 + PX 1 va * 2 ^ 21 + PX 0 va * 2 ^ 12 + va mod 4096.
Proof. intros H. rewrite !PX_eq by lia. simpl (2 ^ _). Z.div_mod_to_equations. lia. Qed.

Lemma PX_inj va va' :
  0 <= va < 2 ^ 39 -> 0 <= va' < 2 ^ 39 ->
  PX 2 va = PX 2 va' -> PX 1 va = PX 1 va' -> PX 0 va = PX 0 va' ->
  va - va mod 4096 = va' - va' mod 4096.
Proof.
  intros H H' H2 H1 H0. rewrite (PX_decompose va H) at 1.
  rewrite (PX_decompose va' H') at 1. lia.
Qed.

(** * Page-table entries *)

(** A physical page: page-aligned and within the 56-bit physical space. *)
Definition is_page (pa : Z) : Prop := pa mod 4096 = 0 /\ 0 <= pa < 2 ^ 56.

#[export] Instance is_page_dec pa : Decision (is_page pa).
Proof. unfold is_page. apply _. Defined.

Lemma PA2PTE_eq pa : 0 <= pa < 2 ^ 56 -> PA2PTE pa = pa / 4096 * 1024.
Proof.
  intros H. unfold PA2PTE. rewrite Z.shiftl_mul_pow2, Z.shiftr_div_pow2 by lia.
  rewrite u64_small; [done|]. change (2 ^ 12) with 4096. change (2 ^ 10) with 1024.
  Z.div_mod_to_equations. lia.
Qed.

(** Flags below 2^10 do not overlap the page number. *)
Lemma lor_flags x f : 0 <= f < 1024 -> x mod 1024 = 0 -> Z.lor x f = x + f.
Proof.
  intros Hf Hx.
  assert (E : Z.land x f = 0).
  { apply Z.bits_inj'. intros i Hi. rewrite Z.land_spec, Z.bits_0.
    destruct (decide (i < 10)).
    - assert (Z.testbit x i = false) as ->; [|done].
      rewrite <- (Z.mod_pow2_bits_low x 10 i) by lia.
      change (2 ^ 10) with 1024. rewrite Hx. apply Z.bits_0.
    - rewrite andb_comm. destruct (decide (f = 0)) as [->|]; [by rewrite Z.bits_0|].
      rewrite (Z.bits_above_log2 f i); [done|lia|].
      apply Z.log2_lt_pow2; [lia|]. apply Z.lt_le_trans with (2 ^ 10); [lia|].
      apply Z.pow_le_mono_r; lia. }
  symmetry. rewrite <- Z.lxor_lor by done. by apply Z.add_nocarry_lxor.
Qed.

Lemma pte_eq pa f :
  is_page pa -> 0 <= f < 1024 -> Z.lor (PA2PTE pa) f = pa / 4096 * 1024 + f.
Proof.
  intros [Hp Hr] Hf. rewrite lor_flags; rewrite ?PA2PTE_eq by done; try done.
  apply Z.mod_mul. lia.
Qed.

Lemma pte_range pa f :
  is_page pa -> 0 <= f < 1024 -> 0 <= Z.lor (PA2PTE pa) f < 2 ^ 64.
Proof.
  intros Hp Hf. rewrite pte_eq by done. destruct Hp as [Hp Hr].
  Z.div_mod_to_equations. lia.
Qed.

Lemma PTE2PA_eq pte : 0 <= pte < 2 ^ 54 -> PTE2PA pte = pte / 1024 * 4096.
Proof.
  intros H. unfold PTE2PA. rewrite Z.shiftl_mul_pow2, Z.shiftr_div_pow2 by lia.
  apply u64_small. change (2 ^ 10) with 1024. change (2 ^ 12) with 4096.
  Z.div_mod_to_equations. lia.
Qed.

Lemma PTE2PA_pte pa f : is_page pa -> 0 <= f < 1024 -> PTE2PA (Z.lor (PA2PTE pa) f) = pa.
Proof.
  intros Hp Hf. rewrite pte_eq by done. destruct Hp as [Hp Hr].
  rewrite PTE2PA_eq; Z.div_mod_to_equations; lia.
Qed.

Lemma PTE_FLAGS_pte pa f : is_page pa -> 0 <= f < 1024 -> PTE_FLAGS (Z.lor (PA2PTE pa) f) = f.
Proof.
  intros Hp Hf. unfold PTE_FLAGS. change 0x3FF with (2 ^ 10 - 1).
  rewrite land_low_mask by lia. rewrite pte_eq by done. change (2 ^ 10) with 1024.
  rewrite Z.add_comm, Z.mod_add by lia. by apply Z.mod_small.
Qed.

(** Testing a flag of an entry is testing it in the flags. *)
Lemma land_pte_flag pa f g :
  is_page pa -> 0 <= f < 1024 -> 0 <= g < 1024 ->
  Z.land (Z.lor (PA2PTE pa) f) g = Z.land f g.
Proof.
  intros Hp Hf Hg.
  rewrite <- (PTE_FLAGS_pte pa f) at 2 by done. unfold PTE_FLAGS.
  rewrite <- Z.land_assoc. f_equal.
  change 0x3FF with (2 ^ 10 - 1). rewrite Z.land_comm, land_low_mask by lia.
  symmetry. by apply Z.mod_small.
Qed.
