(* ===== verification/Kernel.v ===== *)
(** The kernel's data: the structs of kernel/proc.h, spinlock.h, sleeplock.h,
    buf.h, fs.h, file.h, and the global variables of the C files, gathered in
    one record [kernel] that is the state of every kernel function.

    A pointer into one of the kernel's tables (proc[], cpus[], bcache.buf[],
    itable.inode[], ftable.file[]) is the index of the entry, and [None] where
    the code has a null pointer (for the links of the buffer list, [None] is
    &bcache.head).  Addresses of physical pages are integers.  A spinlock is
    named by the object it sits in ([lockid]); a sleep channel by the object
    whose address the code uses ([chanid]).

    [set_f v x] is [x] with field [f] replaced by [v]. *)

From Stdlib Require Import ZArith Lia.
From stdpp Require Import base gmap list_numbers strings numbers countable list.
From S2P Require Import Prelude Mem Riscv.

Open Scope Z_scope.

(** Addresses that the linker script (kernel/kernel.ld) and the assembler fix. *)
Class LinkerSymbols := {
  etext : Z;        (** first address after the kernel's code *)
  kend : Z;         (** [end]: first address after the kernel *)
  trampoline : Z;   (** the page of trampoline.S *)
  uservec : Z;
  userret : Z;
  kernelvec : Z;
  usertrap_addr : Z;
  forkret_addr : Z;
}.

(** What kernel.ld makes of them: the code starts at KERNBASE, the trampoline is
    its last page, and the kernel ends within RAM. *)
Class Layout `{LinkerSymbols} : Prop := {
  lay_trampoline : KERNBASE <= trampoline /\ trampoline mod PGSIZE = 0;
  lay_etext : etext = trampoline + PGSIZE;
  lay_kend : etext <= kend <= PHYSTOP;
}.

Lemma kend_range `{Layout} : KERNBASE <= kend <= PHYSTOP.
Proof.
  destruct lay_trampoline. pose proof lay_etext. pose proof lay_kend. unfold PGSIZE in *. lia.
Qed.

(** * Locks and channels *)

Inductive lockid : Type :=
| LKmem | LPid | LWait | LBcache | LItable | LFtable | LLog | LCons | LUart | LPr
| LTicks | LVdisk
| LProc (i : nat)      (** proc[i].lock *)
| LBuf (i : nat)       (** bcache.buf[i].lock.lk *)
| LInode (i : nat)     (** itable.inode[i].lock.lk *)
| LPipe (pi : Z).      (** the lock of the pipe in the page at [pi] *)

#[export] Instance lockid_eq_dec : EqDecision lockid.
Proof. solve_decision. Defined.

Definition lockid_code (l : lockid) : nat * Z :=
  match l with
  | LKmem => (0%nat, 0) | LPid => (1%nat, 0) | LWait => (2%nat, 0) | LBcache => (3%nat, 0)
  | LItable => (4%nat, 0) | LFtable => (5%nat, 0) | LLog => (6%nat, 0) | LCons => (7%nat, 0)
  | LUart => (8%nat, 0) | LPr => (9%nat, 0) | LTicks => (10%nat, 0) | LVdisk => (11%nat, 0)
  | LProc i => (12%nat, Z.of_nat i) | LBuf i => (13%nat, Z.of_nat i)
  | LInode i => (14%nat, Z.of_nat i) | LPipe a => (15%nat, a)
  end.

Definition lockid_decode (c : nat * Z) : option lockid :=
  match c with
  | (0%nat, _) => Some LKmem | (1%nat, _) => Some LPid | (2%nat, _) => Some LWait
  | (3%nat, _) => Some LBcache | (4%nat, _) => Some LItable | (5%nat, _) => Some LFtable
  | (6%nat, _) => Some LLog | (7%nat, _) => Some LCons | (8%nat, _) => Some LUart
  | (9%nat, _) => Some LPr | (10%nat, _) => Some LTicks | (11%nat, _) => Some LVdisk
  | (12%nat, z) => Some (LProc (Z.to_nat z)) | (13%nat, z) => Some (LBuf (Z.to_nat z))
  | (14%nat, z) => Some (LInode (Z.to_nat z)) | (15%nat, a) => Some (LPipe a)
  | _ => None
  end.

#[export] Instance lockid_countable : Countable lockid.
Proof.
  apply (inj_countable lockid_code lockid_decode).
  intros []; simpl; rewrite ?Nat2Z.id; done.
Defined.

Inductive chanid : Type :=
| ChProc (i : nat)        (** &proc[i] *)
| ChLog                   (** &log *)
| ChBufLock (i : nat)     (** &bcache.buf[i].lock *)
| ChBuf (i : nat)         (** &bcache.buf[i] *)
| ChInodeLock (i : nat)   (** &itable.inode[i].lock *)
| ChPipeRead (pi : Z)     (** &pi->nread *)
| ChPipeWrite (pi : Z)    (** &pi->nwrite *)
| ChTicks                 (** &ticks *)
| ChConsR                 (** &cons.r *)
| ChUartTxR               (** &uart_tx_r *)
| ChDiskFree.             (** &disk.free[0] *)

#[export] Instance chanid_eq_dec : EqDecision chanid.
Proof. solve_decision. Defined.

(** struct spinlock *)
Record spinlock : Type := mkSpinlock {
  lk_locked : Z;
  lk_name : string;
  lk_cpu : option nat;
}.

Definition set_lk_locked (v : Z) (x : spinlock) : spinlock := mkSpinlock v (lk_name x)
  (lk_cpu x).
Definition set_lk_name (v : string) (x : spinlock) : spinlock := mkSpinlock (lk_locked
  x) v (lk_cpu x).
Definition set_lk_cpu (v : option nat) (x : spinlock) : spinlock := mkSpinlock
  (lk_locked x) (lk_name x) v.

(** struct sleeplock; the spinlock that protects it is in [k_locks]. *)
Record sleeplock : Type := mkSleeplock {
  sl_locked : Z;
  sl_name : string;
  sl_pid : Z;
}.

Definition set_sl_locked (v : Z) (x : sleeplock) : sleeplock := mkSleeplock v (sl_name
  x) (sl_pid x).
Definition set_sl_name (v : string) (x : sleeplock) : sleeplock := mkSleeplock
  (sl_locked x) v (sl_pid x).
Definition set_sl_pid (v : Z) (x : sleeplock) : sleeplock := mkSleeplock (sl_locked x)
  (sl_name x) v.

(** * Harts, CPUs and processes *)

(** The supervisor registers of the hart that runs the code (r_sstatus() .. r_tp()). *)
Record hart : Type := mkHart {
  h_sstatus : Z;
  h_satp : Z;
  h_stvec : Z;
  h_sepc : Z;
  h_scause : Z;
  h_stval : Z;
  h_sip : Z;
  h_tp : Z;
}.

Definition set_h_sstatus (v : Z) (x : hart) : hart := mkHart v (h_satp x) (h_stvec x)
  (h_sepc x) (h_scause x) (h_stval x) (h_sip x) (h_tp x).
Definition set_h_satp (v : Z) (x : hart) : hart := mkHart (h_sstatus x) v (h_stvec x)
  (h_sepc x) (h_scause x) (h_stval x) (h_sip x) (h_tp x).
Definition set_h_stvec (v : Z) (x : hart) : hart := mkHart (h_sstatus x) (h_satp x) v
  (h_sepc x) (h_scause x) (h_stval x) (h_sip x) (h_tp x).
Definition set_h_sepc (v : Z) (x : hart) : hart := mkHart (h_sstatus x) (h_satp x)
  (h_stvec x) v (h_scause x) (h_stval x) (h_sip x) (h_tp x).
Definition set_h_scause (v : Z) (x : hart) : hart := mkHart (h_sstatus x) (h_satp x)
  (h_stvec x) (h_sepc x) v (h_stval x) (h_sip x) (h_tp x).
Definition set_h_stval (v : Z) (x : hart) : hart := mkHart (h_sstatus x) (h_satp x)
  (h_stvec x) (h_sepc x) (h_scause x) v (h_sip x) (h_tp x).
Definition set_h_sip (v : Z) (x : hart) : hart := mkHart (h_sstatus x) (h_satp x)
  (h_stvec x) (h_sepc x) (h_scause x) (h_stval x) v (h_tp x).
Definition set_h_tp (v : Z) (x : hart) : hart := mkHart (h_sstatus x) (h_satp x)
  (h_stvec x) (h_sepc x) (h_scause x) (h_stval x) (h_sip x) v.

(** struct context: ra, sp and the callee-saved s0..s11 *)
Record context : Type := mkContext {
  ctx_ra : Z;
  ctx_sp : Z;
  ctx_s : list Z;
}.

(** struct cpu *)
Record cpu : Type := mkCpu {
  c_proc : option nat;
  c_context : context;
  c_noff : Z;
  c_intena : Z;
}.

Definition set_c_proc (v : option nat) (x : cpu) : cpu := mkCpu v (c_context x) (c_noff
  x) (c_intena x).
Definition set_c_context (v : context) (x : cpu) : cpu := mkCpu (c_proc x) v (c_noff x)
  (c_intena x).
Definition set_c_noff (v : Z) (x : cpu) : cpu := mkCpu (c_proc x) (c_context x) v
  (c_intena x).
Definition set_c_intena (v : Z) (x : cpu) : cpu := mkCpu (c_proc x) (c_context x)
  (c_noff x) v.

Inductive procstate : Type := UNUSED | USED | SLEEPING | RUNNABLE | RUNNING | ZOMBIE.

#[export] Instance procstate_eq_dec : EqDecision procstate.
Proof. solve_decision. Defined.

(** struct proc; the trapframe and usyscall pages are in physical memory. *)
Record proc : Type := mkProc {
  p_state : procstate;
  p_chan : option chanid;
  p_killed : Z;
  p_xstate : Z;
  p_pid : Z;
  p_parent : option nat;
  p_kstack : Z;
  p_sz : Z;
  p_pagetable : Z;
  p_kpagetable : Z;
  p_trapframe : Z;
  p_context : context;
  p_ofile : list (option nat);
  p_cwd : option nat;
  p_name : list Z;
  p_usyscall : Z;
}.

Definition set_p_state (v : procstate) (x : proc) : proc := mkProc v (p_chan x)
  (p_killed x) (p_xstate x) (p_pid x) (p_parent x) (p_kstack x) (p_sz x) (p_pagetable x)
  (p_kpagetable x) (p_trapframe x) (p_context x) (p_ofile x) (p_cwd x) (p_name x)
  (p_usyscall x).
Definition set_p_chan (v : option chanid) (x : proc) : proc := mkProc (p_state x) v
  (p_killed x) (p_xstate x) (p_pid x) (p_parent x) (p_kstack x) (p_sz x) (p_pagetable x)
  (p_kpagetable x) (p_trapframe x) (p_context x) (p_ofile x) (p_cwd x) (p_name x)
  (p_usyscall x).
Definition set_p_killed (v : Z) (x : proc) : proc := mkProc (p_state x) (p_chan x) v
  (p_xstate x) (p_pid x) (p_parent x) (p_kstack x) (p_sz x) (p_pagetable x)
  (p_kpagetable x) (p_trapframe x) (p_context x) (p_ofile x) (p_cwd x) (p_name x)
  (p_usyscall x).
Definition set_p_xstate (v : Z) (x : proc) : proc := mkProc (p_state x) (p_chan x)
  (p_killed x) v (p_pid x) (p_parent x) (p_kstack x) (p_sz x) (p_pagetable x)
  (p_kpagetable x) (p_trapframe x) (p_context x) (p_ofile x) (p_cwd x) (p_name x)
  (p_usyscall x).
Definition set_p_pid (v : Z) (x : proc) : proc := mkProc (p_state x) (p_chan x)
  (p_killed x) (p_xstate x) v (p_parent x) (p_kstack x) (p_sz x) (p_pagetable x)
  (p_kpagetable x) (p_trapframe x) (p_context x) (p_ofile x) (p_cwd x) (p_name x)
  (p_usyscall x).
Definition set_p_parent (v : option nat) (x : proc) : proc := mkProc (p_state x) (p_chan
  x) (p_killed x) (p_xstate x) (p_pid x) v (p_kstack x) (p_sz x) (p_pagetable x)
  (p_kpagetable x) (p_trapframe x) (p_context x) (p_ofile x) (p_cwd x) (p_name x)
  (p_usyscall x).
Definition set_p_kstack (v : Z) (x : proc) : proc := mkProc (p_state x) (p_chan x)
  (p_killed x) (p_xstate x) (p_pid x) (p_parent x) v (p_sz x) (p_pagetable x)
  (p_kpagetable x) (p_trapframe x) (p_context x) (p_ofile x) (p_cwd x) (p_name x)
  (p_usyscall x).
Definition set_p_sz (v : Z) (x : proc) : proc := mkProc (p_state x) (p_chan x) (p_killed
  x) (p_xstate x) (p_pid x) (p_parent x) (p_kstack x) v (p_pagetable x) (p_kpagetable x)
  (p_trapframe x) (p_context x) (p_ofile x) (p_cwd x) (p_name x) (p_usyscall x).
Definition set_p_pagetable (v : Z) (x : proc) : proc := mkProc (p_state x) (p_chan x)
  (p_killed x) (p_xstate x) (p_pid x) (p_parent x) (p_kstack x) (p_sz x) v (p_kpagetable
  x) (p_trapframe x) (p_context x) (p_ofile x) (p_cwd x) (p_name x) (p_usyscall x).
Definition set_p_kpagetable (v : Z) (x : proc) : proc := mkProc (p_state x) (p_chan x)
  (p_killed x) (p_xstate x) (p_pid x) (p_parent x) (p_kstack x) (p_sz x) (p_pagetable x)
  v (p_trapframe x) (p_context x) (p_ofile x) (p_cwd x) (p_name x) (p_usyscall x).
Definition set_p_trapframe (v : Z) (x : proc) : proc := mkProc (p_state x) (p_chan x)
  (p_killed x) (p_xstate x) (p_pid x) (p_parent x) (p_kstack x) (p_sz x) (p_pagetable x)
  (p_kpagetable x) v (p_context x) (p_ofile x) (p_cwd x) (p_name x) (p_usyscall x).
Definition set_p_context (v : context) (x : proc) : proc := mkProc (p_state x) (p_chan
  x) (p_killed x) (p_xstate x) (p_pid x) (p_parent x) (p_kstack x) (p_sz x) (p_pagetable
  x) (p_kpagetable x) (p_trapframe x) v (p_ofile x) (p_cwd x) (p_name x) (p_usyscall x).
Definition set_p_ofile (v : list (option nat)) (x : proc) : proc := mkProc (p_state x)
  (p_chan x) (p_killed x) (p_xstate x) (p_pid x) (p_parent x) (p_kstack x) (p_sz x)
  (p_pagetable x) (p_kpagetable x) (p_trapframe x) (p_context x) v (p_cwd x) (p_name x)
  (p_usyscall x).
Definition set_p_cwd (v : option nat) (x : proc) : proc := mkProc (p_state x) (p_chan x)
  (p_killed x) (p_xstate x) (p_pid x) (p_parent x) (p_kstack x) (p_sz x) (p_pagetable x)
  (p_kpagetable x) (p_trapframe x) (p_context x) (p_ofile x) v (p_name x) (p_usyscall
  x).
Definition set_p_name (v : list Z) (x : proc) : proc := mkProc (p_state x) (p_chan x)
  (p_killed x) (p_xstate x) (p_pid x) (p_parent x) (p_kstack x) (p_sz x) (p_pagetable x)
  (p_kpagetable x) (p_trapframe x) (p_context x) (p_ofile x) (p_cwd x) v (p_usyscall x).
Definition set_p_usyscall (v : Z) (x : proc) : proc := mkProc (p_state x) (p_chan x)
  (p_killed x) (p_xstate x) (p_pid x) (p_parent x) (p_kstack x) (p_sz x) (p_pagetable x)
  (p_kpagetable x) (p_trapframe x) (p_context x) (p_ofile x) (p_cwd x) (p_name x) v.

(** The globals of kernel/proc.c: proc[], nextpid, initproc *)
Record ptable : Type := mkPtable {
  pt_procs : list proc;
  pt_nextpid : Z;
  pt_initproc : option nat;
}.

Definition set_pt_procs (v : list proc) (x : ptable) : ptable := mkPtable v (pt_nextpid
  x) (pt_initproc x).
Definition set_pt_nextpid (v : Z) (x : ptable) : ptable := mkPtable (pt_procs x) v
  (pt_initproc x).
Definition set_pt_initproc (v : option nat) (x : ptable) : ptable := mkPtable (pt_procs
  x) (pt_nextpid x) v.

(** * Physical memory *)

(** Physical memory and kmem.freelist *)
Record mm : Type := mkMm {
  mm_mem : mem;
  mm_freelist : Z;
}.

Definition set_mm_mem (v : mem) (x : mm) : mm := mkMm v (mm_freelist x).
Definition set_mm_freelist (v : Z) (x : mm) : mm := mkMm (mm_mem x) v.

(** * Buffer cache, log and inodes *)

(** struct buf *)
Record buf : Type := mkBuf {
  b_valid : Z;
  b_disk : Z;
  b_dev : Z;
  b_blockno : Z;
  b_lock : sleeplock;
  b_refcnt : Z;
  b_prev : option nat;
  b_next : option nat;
  b_data : list Z;
}.

Definition set_b_valid (v : Z) (x : buf) : buf := mkBuf v (b_disk x) (b_dev x)
  (b_blockno x) (b_lock x) (b_refcnt x) (b_prev x) (b_next x) (b_data x).
Definition set_b_disk (v : Z) (x : buf) : buf := mkBuf (b_valid x) v (b_dev x)
  (b_blockno x) (b_lock x) (b_refcnt x) (b_prev x) (b_next x) (b_data x).
Definition set_b_dev (v : Z) (x : buf) : buf := mkBuf (b_valid x) (b_disk x) v
  (b_blockno x) (b_lock x) (b_refcnt x) (b_prev x) (b_next x) (b_data x).
Definition set_b_blockno (v : Z) (x : buf) : buf := mkBuf (b_valid x) (b_disk x) (b_dev
  x) v (b_lock x) (b_refcnt x) (b_prev x) (b_next x) (b_data x).
Definition set_b_lock (v : sleeplock) (x : buf) : buf := mkBuf (b_valid x) (b_disk x)
  (b_dev x) (b_blockno x) v (b_refcnt x) (b_prev x) (b_next x) (b_data x).
Definition set_b_refcnt (v : Z) (x : buf) : buf := mkBuf (b_valid x) (b_disk x) (b_dev
  x) (b_blockno x) (b_lock x) v (b_prev x) (b_next x) (b_data x).
Definition set_b_prev (v : option nat) (x : buf) : buf := mkBuf (b_valid x) (b_disk x)
  (b_dev x) (b_blockno x) (b_lock x) (b_refcnt x) v (b_next x) (b_data x).
Definition set_b_next (v : option nat) (x : buf) : buf := mkBuf (b_valid x) (b_disk x)
  (b_dev x) (b_blockno x) (b_lock x) (b_refcnt x) (b_prev x) v (b_data x).
Definition set_b_data (v : list Z) (x : buf) : buf := mkBuf (b_valid x) (b_disk x)
  (b_dev x) (b_blockno x) (b_lock x) (b_refcnt x) (b_prev x) (b_next x) v.

(** bcache: the buffers and the links of the list head *)
Record bcache : Type := mkBcache {
  bc_buf : list buf;
  bc_head_prev : option nat;
  bc_head_next : option nat;
}.

Definition set_bc_buf (v : list buf) (x : bcache) : bcache := mkBcache v (bc_head_prev
  x) (bc_head_next x).
Definition set_bc_head_prev (v : option nat) (x : bcache) : bcache := mkBcache (bc_buf
  x) v (bc_head_next x).
Definition set_bc_head_next (v : option nat) (x : bcache) : bcache := mkBcache (bc_buf
  x) (bc_head_prev x) v.

(** The disk behind virtio_disk_rw: block contents, and the writes it has
    received, in order. *)
Record disk : Type := mkDisk {
  dk_blocks : gmap Z (list Z);
  dk_writes : list (Z * list Z);
}.

Definition set_dk_blocks (v : gmap Z (list Z)) (x : disk) : disk := mkDisk v (dk_writes
  x).
Definition set_dk_writes (v : list (Z * list Z)) (x : disk) : disk := mkDisk (dk_blocks
  x) v.

(** struct logheader *)
Record logheader : Type := mkLogheader {
  lh_n : Z;
  lh_block : list Z;
}.

Definition set_lh_n (v : Z) (x : logheader) : logheader := mkLogheader v (lh_block x).
Definition set_lh_block (v : list Z) (x : logheader) : logheader := mkLogheader (lh_n x)
  v.

(** struct log *)
Record logst : Type := mkLog {
  l_start : Z;
  l_size : Z;
  l_outstanding : Z;
  l_committing : Z;
  l_dev : Z;
  l_lh : logheader;
}.

Definition set_l_start (v : Z) (x : logst) : logst := mkLog v (l_size x) (l_outstanding
  x) (l_committing x) (l_dev x) (l_lh x).
Definition set_l_size (v : Z) (x : logst) : logst := mkLog (l_start x) v (l_outstanding
  x) (l_committing x) (l_dev x) (l_lh x).
Definition set_l_outstanding (v : Z) (x : logst) : logst := mkLog (l_start x) (l_size x)
  v (l_committing x) (l_dev x) (l_lh x).
Definition set_l_committing (v : Z) (x : logst) : logst := mkLog (l_start x) (l_size x)
  (l_outstanding x) v (l_dev x) (l_lh x).
Definition set_l_dev (v : Z) (x : logst) : logst := mkLog (l_start x) (l_size x)
  (l_outstanding x) (l_committing x) v (l_lh x).
Definition set_l_lh (v : logheader) (x : logst) : logst := mkLog (l_start x) (l_size x)
  (l_outstanding x) (l_committing x) (l_dev x) v.

(** struct superblock *)
Record superblock : Type := mkSuperblock {
  sb_magic : Z;
  sb_size : Z;
  sb_nblocks : Z;
  sb_ninodes : Z;
  sb_nlog : Z;
  sb_logstart : Z;
  sb_inodestart : Z;
  sb_bmapstart : Z;
}.

(** struct inode *)
Record inode : Type := mkInode {
  i_dev : Z;
  i_inum : Z;
  i_ref : Z;
  i_lock : sleeplock;
  i_valid : Z;
  i_type : Z;
  i_major : Z;
  i_minor : Z;
  i_nlink : Z;
  i_size : Z;
  i_addrs : list Z;
}.

Definition set_i_dev (v : Z) (x : inode) : inode := mkInode v (i_inum x) (i_ref x)
  (i_lock x) (i_valid x) (i_type x) (i_major x) (i_minor x) (i_nlink x) (i_size x)
  (i_addrs x).
Definition set_i_inum (v : Z) (x : inode) : inode := mkInode (i_dev x) v (i_ref x)
  (i_lock x) (i_valid x) (i_type x) (i_major x) (i_minor x) (i_nlink x) (i_size x)
  (i_addrs x).
Definition set_i_ref (v : Z) (x : inode) : inode := mkInode (i_dev x) (i_inum x) v
  (i_lock x) (i_valid x) (i_type x) (i_major x) (i_minor x) (i_nlink x) (i_size x)
  (i_addrs x).
Definition set_i_lock (v : sleeplock) (x : inode) : inode := mkInode (i_dev x) (i_inum
  x) (i_ref x) v (i_valid x) (i_type x) (i_major x) (i_minor x) (i_nlink x) (i_size x)
  (i_addrs x).
Definition set_i_valid (v : Z) (x : inode) : inode := mkInode (i_dev x) (i_inum x)
  (i_ref x) (i_lock x) v (i_type x) (i_major x) (i_minor x) (i_nlink x) (i_size x)
  (i_addrs x).
Definition set_i_type (v : Z) (x : inode) : inode := mkInode (i_dev x) (i_inum x) (i_ref
  x) (i_lock x) (i_valid x) v (i_major x) (i_minor x) (i_nlink x) (i_size x) (i_addrs
  x).
Definition set_i_major (v : Z) (x : inode) : inode := mkInode (i_dev x) (i_inum x)
  (i_ref x) (i_lock x) (i_valid x) (i_type x) v (i_minor x) (i_nlink x) (i_size x)
  (i_addrs x).
Definition set_i_minor (v : Z) (x : inode) : inode := mkInode (i_dev x) (i_inum x)
  (i_ref x) (i_lock x) (i_valid x) (i_type x) (i_major x) v (i_nlink x) (i_size x)
  (i_addrs x).
Definition set_i_nlink (v : Z) (x : inode) : inode := mkInode (i_dev x) (i_inum x)
  (i_ref x) (i_lock x) (i_valid x) (i_type x) (i_major x) (i_minor x) v (i_size x)
  (i_addrs x).
Definition set_i_size (v : Z) (x : inode) : inode := mkInode (i_dev x) (i_inum x) (i_ref
  x) (i_lock x) (i_valid x) (i_type x) (i_major x) (i_minor x) (i_nlink x) v (i_addrs
  x).
Definition set_i_addrs (v : list Z) (x : inode) : inode := mkInode (i_dev x) (i_inum x)
  (i_ref x) (i_lock x) (i_valid x) (i_type x) (i_major x) (i_minor x) (i_nlink x)
  (i_size x) v.

(** * Files, pipes and the terminal *)

Inductive ftype : Type := FD_NONE | FD_PIPE | FD_INODE | FD_DEVICE.

(** The functions a device switch entry can point to. *)
Inductive devread : Type := dev_consoleread.
Inductive devwrite : Type := dev_consolewrite.

(** struct file *)
Record file : Type := mkFile {
  f_type : ftype;
  f_ref : Z;
  f_readable : Z;
  f_writable : Z;
  f_pipe : Z;
  f_ip : option nat;
  f_off : Z;
  f_major : Z;
}.

Definition set_f_type (v : ftype) (x : file) : file := mkFile v (f_ref x) (f_readable x)
  (f_writable x) (f_pipe x) (f_ip x) (f_off x) (f_major x).
Definition set_f_ref (v : Z) (x : file) : file := mkFile (f_type x) v (f_readable x)
  (f_writable x) (f_pipe x) (f_ip x) (f_off x) (f_major x).
Definition set_f_readable (v : Z) (x : file) : file := mkFile (f_type x) (f_ref x) v
  (f_writable x) (f_pipe x) (f_ip x) (f_off x) (f_major x).
Definition set_f_writable (v : Z) (x : file) : file := mkFile (f_type x) (f_ref x)
  (f_readable x) v (f_pipe x) (f_ip x) (f_off x) (f_major x).
Definition set_f_pipe (v : Z) (x : file) : file := mkFile (f_type x) (f_ref x)
  (f_readable x) (f_writable x) v (f_ip x) (f_off x) (f_major x).
Definition set_f_ip (v : option nat) (x : file) : file := mkFile (f_type x) (f_ref x)
  (f_readable x) (f_writable x) (f_pipe x) v (f_off x) (f_major x).
Definition set_f_off (v : Z) (x : file) : file := mkFile (f_type x) (f_ref x)
  (f_readable x) (f_writable x) (f_pipe x) (f_ip x) v (f_major x).
Definition set_f_major (v : Z) (x : file) : file := mkFile (f_type x) (f_ref x)
  (f_readable x) (f_writable x) (f_pipe x) (f_ip x) (f_off x) v.

(** struct pipe *)
Record pipe : Type := mkPipe {
  pi_data : list Z;
  pi_nread : Z;
  pi_nwrite : Z;
  pi_readopen : Z;
  pi_writeopen : Z;
}.

Definition set_pi_data (v : list Z) (x : pipe) : pipe := mkPipe v (pi_nread x)
  (pi_nwrite x) (pi_readopen x) (pi_writeopen x).
Definition set_pi_nread (v : Z) (x : pipe) : pipe := mkPipe (pi_data x) v (pi_nwrite x)
  (pi_readopen x) (pi_writeopen x).
Definition set_pi_nwrite (v : Z) (x : pipe) : pipe := mkPipe (pi_data x) (pi_nread x) v
  (pi_readopen x) (pi_writeopen x).
Definition set_pi_readopen (v : Z) (x : pipe) : pipe := mkPipe (pi_data x) (pi_nread x)
  (pi_nwrite x) v (pi_writeopen x).
Definition set_pi_writeopen (v : Z) (x : pipe) : pipe := mkPipe (pi_data x) (pi_nread x)
  (pi_nwrite x) (pi_readopen x) v.

(** The console's input buffer *)
Record cons : Type := mkCons {
  cons_buf : list Z;
  cons_r : Z;
  cons_w : Z;
  cons_e : Z;
}.

Definition set_cons_buf (v : list Z) (x : cons) : cons := mkCons v (cons_r x) (cons_w x)
  (cons_e x).
Definition set_cons_r (v : Z) (x : cons) : cons := mkCons (cons_buf x) v (cons_w x)
  (cons_e x).
Definition set_cons_w (v : Z) (x : cons) : cons := mkCons (cons_buf x) (cons_r x) v
  (cons_e x).
Definition set_cons_e (v : Z) (x : cons) : cons := mkCons (cons_buf x) (cons_r x)
  (cons_w x) v.

(** The UART: the transmit buffer of uart.c; whether the holding register is idle
    at each coming read of the line status register (after these it is); the
    received bytes not yet read; the bytes written to the transmit register; the
    writes to the control registers. *)
Record uart : Type := mkUart {
  tx_buf : list Z;
  tx_w : Z;
  tx_r : Z;
  uart_idle : list bool;
  uart_in : list Z;
  uart_out : list Z;
  uart_ctl : list (Z * Z);
}.

Definition set_tx_buf (v : list Z) (x : uart) : uart := mkUart v (tx_w x) (tx_r x)
  (uart_idle x) (uart_in x) (uart_out x) (uart_ctl x).
Definition set_tx_w (v : Z) (x : uart) : uart := mkUart (tx_buf x) v (tx_r x) (uart_idle
  x) (uart_in x) (uart_out x) (uart_ctl x).
Definition set_tx_r (v : Z) (x : uart) : uart := mkUart (tx_buf x) (tx_w x) v (uart_idle
  x) (uart_in x) (uart_out x) (uart_ctl x).
Definition set_uart_idle (v : list bool) (x : uart) : uart := mkUart (tx_buf x) (tx_w x)
  (tx_r x) v (uart_in x) (uart_out x) (uart_ctl x).
Definition set_uart_in (v : list Z) (x : uart) : uart := mkUart (tx_buf x) (tx_w x)
  (tx_r x) (uart_idle x) v (uart_out x) (uart_ctl x).
Definition set_uart_out (v : list Z) (x : uart) : uart := mkUart (tx_buf x) (tx_w x)
  (tx_r x) (uart_idle x) (uart_in x) v (uart_ctl x).
Definition set_uart_ctl (v : list (Z * Z)) (x : uart) : uart := mkUart (tx_buf x) (tx_w
  x) (tx_r x) (uart_idle x) (uart_in x) (uart_out x) v.

(** struct devsw: the only device functions are those of console.c *)
Record devsw : Type := mkDevsw {
  dev_read : option devread;
  dev_write : option devwrite;
}.

Definition set_dev_read (v : option devread) (x : devsw) : devsw := mkDevsw v (dev_write
  x).
Definition set_dev_write (v : option devwrite) (x : devsw) : devsw := mkDevsw (dev_read
  x) v.

(** * The state *)

(** * The disk driver

    The descriptors name memory by the object at the address: a request header, the
    data of a buffer, a status byte. *)
Inductive dma : Type :=
| DmaNull
| DmaReq (i : nat)      (** &disk.ops[i] *)
| DmaData (b : nat)     (** bcache.buf[b].data *)
| DmaStatus (i : nat).  (** &disk.info[i].status *)

#[export] Instance dma_eq_dec : EqDecision dma.
Proof. solve_decision. Defined.

(** struct virtq_desc *)
Record virtq_desc : Type := mkVirtqDesc {
  vd_addr : dma;
  vd_len : Z;
  vd_flags : Z;
  vd_next : Z;
}.

Definition set_vd_addr (v : dma) (x : virtq_desc) : virtq_desc := mkVirtqDesc v (vd_len
  x) (vd_flags x) (vd_next x).
Definition set_vd_len (v : Z) (x : virtq_desc) : virtq_desc := mkVirtqDesc (vd_addr x) v
  (vd_flags x) (vd_next x).
Definition set_vd_flags (v : Z) (x : virtq_desc) : virtq_desc := mkVirtqDesc (vd_addr x)
  (vd_len x) v (vd_next x).
Definition set_vd_next (v : Z) (x : virtq_desc) : virtq_desc := mkVirtqDesc (vd_addr x)
  (vd_len x) (vd_flags x) v.

(** struct virtq_avail *)
Record virtq_avail : Type := mkVirtqAvail {
  va_flags : Z;
  va_idx : Z;
  va_ring : list Z;
  va_unused : Z;
}.

Definition set_va_flags (v : Z) (x : virtq_avail) : virtq_avail := mkVirtqAvail v
  (va_idx x) (va_ring x) (va_unused x).
Definition set_va_idx (v : Z) (x : virtq_avail) : virtq_avail := mkVirtqAvail (va_flags
  x) v (va_ring x) (va_unused x).
Definition set_va_ring (v : list Z) (x : virtq_avail) : virtq_avail := mkVirtqAvail
  (va_flags x) (va_idx x) v (va_unused x).
Definition set_va_unused (v : Z) (x : virtq_avail) : virtq_avail := mkVirtqAvail
  (va_flags x) (va_idx x) (va_ring x) v.

(** struct virtq_used_elem *)
Record virtq_used_elem : Type := mkUsedElem {
  ue_id : Z;
  ue_len : Z;
}.

Definition set_ue_id (v : Z) (x : virtq_used_elem) : virtq_used_elem := mkUsedElem v
  (ue_len x).
Definition set_ue_len (v : Z) (x : virtq_used_elem) : virtq_used_elem := mkUsedElem
  (ue_id x) v.

(** struct virtq_used *)
Record virtq_used : Type := mkVirtqUsed {
  vu_flags : Z;
  vu_idx : Z;
  vu_ring : list virtq_used_elem;
}.

Definition set_vu_flags (v : Z) (x : virtq_used) : virtq_used := mkVirtqUsed v (vu_idx
  x) (vu_ring x).
Definition set_vu_idx (v : Z) (x : virtq_used) : virtq_used := mkVirtqUsed (vu_flags x)
  v (vu_ring x).
Definition set_vu_ring (v : list virtq_used_elem) (x : virtq_used) : virtq_used :=
  mkVirtqUsed (vu_flags x) (vu_idx x) v.

(** struct virtio_blk_req *)
Record virtio_blk_req : Type := mkBlkReq {
  rq_type : Z;
  rq_reserved : Z;
  rq_sector : Z;
}.

Definition set_rq_type (v : Z) (x : virtio_blk_req) : virtio_blk_req := mkBlkReq v
  (rq_reserved x) (rq_sector x).
Definition set_rq_reserved (v : Z) (x : virtio_blk_req) : virtio_blk_req := mkBlkReq
  (rq_type x) v (rq_sector x).
Definition set_rq_sector (v : Z) (x : virtio_blk_req) : virtio_blk_req := mkBlkReq
  (rq_type x) (rq_reserved x) v.

(** The entries of disk.info[]. *)
Record disk_info : Type := mkDiskInfo {
  di_b : option nat;
  di_status : Z;
}.

Definition set_di_b (v : option nat) (x : disk_info) : disk_info := mkDiskInfo v
  (di_status x).
Definition set_di_status (v : Z) (x : disk_info) : disk_info := mkDiskInfo (di_b x) v.

(** struct disk of virtio_disk.c: the addresses of the three pages of the queue, what the
    pages hold (they belong to the driver and the device from virtio_disk_init() on), the
    driver's own fields, and the writes to the device's registers, in order. *)
Record vdisk : Type := mkVdisk {
  vd_desc_pa : Z;
  vd_avail_pa : Z;
  vd_used_pa : Z;
  vd_desc : list virtq_desc;
  vd_avail : virtq_avail;
  vd_used : virtq_used;
  vd_free : list Z;
  vd_used_idx : Z;
  vd_info : list disk_info;
  vd_ops : list virtio_blk_req;
  vd_mmio : list (Z * Z);
}.

Definition set_vd_desc_pa (v : Z) (x : vdisk) : vdisk := mkVdisk v (vd_avail_pa x)
  (vd_used_pa x) (vd_desc x) (vd_avail x) (vd_used x) (vd_free x) (vd_used_idx x)
  (vd_info x) (vd_ops x) (vd_mmio x).
Definition set_vd_avail_pa (v : Z) (x : vdisk) : vdisk := mkVdisk (vd_desc_pa x) v
  (vd_used_pa x) (vd_desc x) (vd_avail x) (vd_used x) (vd_free x) (vd_used_idx x)
  (vd_info x) (vd_ops x) (vd_mmio x).
Definition set_vd_used_pa (v : Z) (x : vdisk) : vdisk := mkVdisk (vd_desc_pa x)
  (vd_avail_pa x) v (vd_desc x) (vd_avail x) (vd_used x) (vd_free x) (vd_used_idx x)
  (vd_info x) (vd_ops x) (vd_mmio x).
Definition set_vd_desc (v : list virtq_desc) (x : vdisk) : vdisk := mkVdisk (vd_desc_pa
  x) (vd_avail_pa x) (vd_used_pa x) v (vd_avail x) (vd_used x) (vd_free x) (vd_used_idx
  x) (vd_info x) (vd_ops x) (vd_mmio x).
Definition set_vd_avail (v : virtq_avail) (x : vdisk) : vdisk := mkVdisk (vd_desc_pa x)
  (vd_avail_pa x) (vd_used_pa x) (vd_desc x) v (vd_used x) (vd_free x) (vd_used_idx x)
  (vd_info x) (vd_ops x) (vd_mmio x).
Definition set_vd_used (v : virtq_used) (x : vdisk) : vdisk := mkVdisk (vd_desc_pa x)
  (vd_avail_pa x) (vd_used_pa x) (vd_desc x) (vd_avail x) v (vd_free x) (vd_used_idx x)
  (vd_info x) (vd_ops x) (vd_mmio x).
Definition set_vd_free (v : list Z) (x : vdisk) : vdisk := mkVdisk (vd_desc_pa x)
  (vd_avail_pa x) (vd_used_pa x) (vd_desc x) (vd_avail x) (vd_used x) v (vd_used_idx x)
  (vd_info x) (vd_ops x) (vd_mmio x).
Definition set_vd_used_idx (v : Z) (x : vdisk) : vdisk := mkVdisk (vd_desc_pa x)
  (vd_avail_pa x) (vd_used_pa x) (vd_desc x) (vd_avail x) (vd_used x) (vd_free x) v
  (vd_info x) (vd_ops x) (vd_mmio x).
Definition set_vd_info (v : list disk_info) (x : vdisk) : vdisk := mkVdisk (vd_desc_pa
  x) (vd_avail_pa x) (vd_used_pa x) (vd_desc x) (vd_avail x) (vd_used x) (vd_free x)
  (vd_used_idx x) v (vd_ops x) (vd_mmio x).
Definition set_vd_ops (v : list virtio_blk_req) (x : vdisk) : vdisk := mkVdisk
  (vd_desc_pa x) (vd_avail_pa x) (vd_used_pa x) (vd_desc x) (vd_avail x) (vd_used x)
  (vd_free x) (vd_used_idx x) (vd_info x) v (vd_mmio x).
Definition set_vd_mmio (v : list (Z * Z)) (x : vdisk) : vdisk := mkVdisk (vd_desc_pa x)
  (vd_avail_pa x) (vd_used_pa x) (vd_desc x) (vd_avail x) (vd_used x) (vd_free x)
  (vd_used_idx x) (vd_info x) (vd_ops x) v.

(** The interrupt controller: the interrupts it will hand out, and the writes it has
    received. *)
Record plic : Type := mkPlic {
  plic_pending : list Z;
  plic_writes : list (Z * Z);
}.

Definition set_plic_pending (v : list Z) (x : plic) : plic := mkPlic v (plic_writes x).
Definition set_plic_writes (v : list (Z * Z)) (x : plic) : plic := mkPlic (plic_pending
  x) v.

(** All global variables of the kernel, with the hart that executes; [k_first] is
    the static variable of forkret(). *)
Record kernel : Type := mkKernel {
  k_hart : hart;
  k_cpus : list cpu;
  k_locks : gmap lockid spinlock;
  k_mm : mm;
  k_kernel_pagetable : Z;
  k_ptable : ptable;
  k_bcache : bcache;
  k_disk : disk;
  k_log : logst;
  k_sb : superblock;
  k_itable : list inode;
  k_ftable : list file;
  k_pipes : gmap Z pipe;
  k_cons : cons;
  k_uart : uart;
  k_ticks : Z;
  k_devsw : list devsw;
  k_pr_locking : Z;
  k_panicked : Z;
  k_first : Z;
  k_plic : plic;
  k_vdisk : vdisk;
}.

Definition set_k_hart (v : hart) (x : kernel) : kernel := mkKernel v (k_cpus x) (k_locks
  x) (k_mm x) (k_kernel_pagetable x) (k_ptable x) (k_bcache x) (k_disk x) (k_log x)
  (k_sb x) (k_itable x) (k_ftable x) (k_pipes x) (k_cons x) (k_uart x) (k_ticks x)
  (k_devsw x) (k_pr_locking x) (k_panicked x) (k_first x) (k_plic x) (k_vdisk x).
Definition set_k_cpus (v : list cpu) (x : kernel) : kernel := mkKernel (k_hart x) v
  (k_locks x) (k_mm x) (k_kernel_pagetable x) (k_ptable x) (k_bcache x) (k_disk x)
  (k_log x) (k_sb x) (k_itable x) (k_ftable x) (k_pipes x) (k_cons x) (k_uart x)
  (k_ticks x) (k_devsw x) (k_pr_locking x) (k_panicked x) (k_first x) (k_plic x)
  (k_vdisk x).
Definition set_k_locks (v : gmap lockid spinlock) (x : kernel) : kernel := mkKernel
  (k_hart x) (k_cpus x) v (k_mm x) (k_kernel_pagetable x) (k_ptable x) (k_bcache x)
  (k_disk x) (k_log x) (k_sb x) (k_itable x) (k_ftable x) (k_pipes x) (k_cons x) (k_uart
  x) (k_ticks x) (k_devsw x) (k_pr_locking x) (k_panicked x) (k_first x) (k_plic x)
  (k_vdisk x).
Definition set_k_mm (v : mm) (x : kernel) : kernel := mkKernel (k_hart x) (k_cpus x)
  (k_locks x) v (k_kernel_pagetable x) (k_ptable x) (k_bcache x) (k_disk x) (k_log x)
  (k_sb x) (k_itable x) (k_ftable x) (k_pipes x) (k_cons x) (k_uart x) (k_ticks x)
  (k_devsw x) (k_pr_locking x) (k_panicked x) (k_first x) (k_plic x) (k_vdisk x).
Definition set_k_kernel_pagetable (v : Z) (x : kernel) : kernel := mkKernel (k_hart x)
  (k_cpus x) (k_locks x) (k_mm x) v (k_ptable x) (k_bcache x) (k_disk x) (k_log x) (k_sb
  x) (k_itable x) (k_ftable x) (k_pipes x) (k_cons x) (k_uart x) (k_ticks x) (k_devsw x)
  (k_pr_locking x) (k_panicked x) (k_first x) (k_plic x) (k_vdisk x).
Definition set_k_ptable (v : ptable) (x : kernel) : kernel := mkKernel (k_hart x)
  (k_cpus x) (k_locks x) (k_mm x) (k_kernel_pagetable x) v (k_bcache x) (k_disk x)
  (k_log x) (k_sb x) (k_itable x) (k_ftable x) (k_pipes x) (k_cons x) (k_uart x)
  (k_ticks x) (k_devsw x) (k_pr_locking x) (k_panicked x) (k_first x) (k_plic x)
  (k_vdisk x).
Definition set_k_bcache (v : bcache) (x : kernel) : kernel := mkKernel (k_hart x)
  (k_cpus x) (k_locks x) (k_mm x) (k_kernel_pagetable x) (k_ptable x) v (k_disk x)
  (k_log x) (k_sb x) (k_itable x) (k_ftable x) (k_pipes x) (k_cons x) (k_uart x)
  (k_ticks x) (k_devsw x) (k_pr_locking x) (k_panicked x) (k_first x) (k_plic x)
  (k_vdisk x).
Definition set_k_disk (v : disk) (x : kernel) : kernel := mkKernel (k_hart x) (k_cpus x)
  (k_locks x) (k_mm x) (k_kernel_pagetable x) (k_ptable x) (k_bcache x) v (k_log x)
  (k_sb x) (k_itable x) (k_ftable x) (k_pipes x) (k_cons x) (k_uart x) (k_ticks x)
  (k_devsw x) (k_pr_locking x) (k_panicked x) (k_first x) (k_plic x) (k_vdisk x).
Definition set_k_log (v : logst) (x : kernel) : kernel := mkKernel (k_hart x) (k_cpus x)
  (k_locks x) (k_mm x) (k_kernel_pagetable x) (k_ptable x) (k_bcache x) (k_disk x) v
  (k_sb x) (k_itable x) (k_ftable x) (k_pipes x) (k_cons x) (k_uart x) (k_ticks x)
  (k_devsw x) (k_pr_locking x) (k_panicked x) (k_first x) (k_plic x) (k_vdisk x).
Definition set_k_sb (v : superblock) (x : kernel) : kernel := mkKernel (k_hart x)
  (k_cpus x) (k_locks x) (k_mm x) (k_kernel_pagetable x) (k_ptable x) (k_bcache x)
  (k_disk x) (k_log x) v (k_itable x) (k_ftable x) (k_pipes x) (k_cons x) (k_uart x)
  (k_ticks x) (k_devsw x) (k_pr_locking x) (k_panicked x) (k_first x) (k_plic x)
  (k_vdisk x).
Definition set_k_itable (v : list inode) (x : kernel) : kernel := mkKernel (k_hart x)
  (k_cpus x) (k_locks x) (k_mm x) (k_kernel_pagetable x) (k_ptable x) (k_bcache x)
  (k_disk x) (k_log x) (k_sb x) v (k_ftable x) (k_pipes x) (k_cons x) (k_uart x)
  (k_ticks x) (k_devsw x) (k_pr_locking x) (k_panicked x) (k_first x) (k_plic x)
  (k_vdisk x).
Definition set_k_ftable (v : list file) (x : kernel) : kernel := mkKernel (k_hart x)
  (k_cpus x) (k_locks x) (k_mm x) (k_kernel_pagetable x) (k_ptable x) (k_bcache x)
  (k_disk x) (k_log x) (k_sb x) (k_itable x) v (k_pipes x) (k_cons x) (k_uart x)
  (k_ticks x) (k_devsw x) (k_pr_locking x) (k_panicked x) (k_first x) (k_plic x)
  (k_vdisk x).
Definition set_k_pipes (v : gmap Z pipe) (x : kernel) : kernel := mkKernel (k_hart x)
  (k_cpus x) (k_locks x) (k_mm x) (k_kernel_pagetable x) (k_ptable x) (k_bcache x)
  (k_disk x) (k_log x) (k_sb x) (k_itable x) (k_ftable x) v (k_cons x) (k_uart x)
  (k_ticks x) (k_devsw x) (k_pr_locking x) (k_panicked x) (k_first x) (k_plic x)
  (k_vdisk x).
Definition set_k_cons (v : cons) (x : kernel) : kernel := mkKernel (k_hart x) (k_cpus x)
  (k_locks x) (k_mm x) (k_kernel_pagetable x) (k_ptable x) (k_bcache x) (k_disk x)
  (k_log x) (k_sb x) (k_itable x) (k_ftable x) (k_pipes x) v (k_uart x) (k_ticks x)
  (k_devsw x) (k_pr_locking x) (k_panicked x) (k_first x) (k_plic x) (k_vdisk x).
Definition set_k_uart (v : uart) (x : kernel) : kernel := mkKernel (k_hart x) (k_cpus x)
  (k_locks x) (k_mm x) (k_kernel_pagetable x) (k_ptable x) (k_bcache x) (k_disk x)
  (k_log x) (k_sb x) (k_itable x) (k_ftable x) (k_pipes x) (k_cons x) v (k_ticks x)
  (k_devsw x) (k_pr_locking x) (k_panicked x) (k_first x) (k_plic x) (k_vdisk x).
Definition set_k_ticks (v : Z) (x : kernel) : kernel := mkKernel (k_hart x) (k_cpus x)
  (k_locks x) (k_mm x) (k_kernel_pagetable x) (k_ptable x) (k_bcache x) (k_disk x)
  (k_log x) (k_sb x) (k_itable x) (k_ftable x) (k_pipes x) (k_cons x) (k_uart x) v
  (k_devsw x) (k_pr_locking x) (k_panicked x) (k_first x) (k_plic x) (k_vdisk x).
Definition set_k_devsw (v : list devsw) (x : kernel) : kernel := mkKernel (k_hart x)
  (k_cpus x) (k_locks x) (k_mm x) (k_kernel_pagetable x) (k_ptable x) (k_bcache x)
  (k_disk x) (k_log x) (k_sb x) (k_itable x) (k_ftable x) (k_pipes x) (k_cons x) (k_uart
  x) (k_ticks x) v (k_pr_locking x) (k_panicked x) (k_first x) (k_plic x) (k_vdisk x).
Definition set_k_pr_locking (v : Z) (x : kernel) : kernel := mkKernel (k_hart x) (k_cpus
  x) (k_locks x) (k_mm x) (k_kernel_pagetable x) (k_ptable x) (k_bcache x) (k_disk x)
  (k_log x) (k_sb x) (k_itable x) (k_ftable x) (k_pipes x) (k_cons x) (k_uart x)
  (k_ticks x) (k_devsw x) v (k_panicked x) (k_first x) (k_plic x) (k_vdisk x).
Definition set_k_panicked (v : Z) (x : kernel) : kernel := mkKernel (k_hart x) (k_cpus
  x) (k_locks x) (k_mm x) (k_kernel_pagetable x) (k_ptable x) (k_bcache x) (k_disk x)
  (k_log x) (k_sb x) (k_itable x) (k_ftable x) (k_pipes x) (k_cons x) (k_uart x)
  (k_ticks x) (k_devsw x) (k_pr_locking x) v (k_first x) (k_plic x) (k_vdisk x).
Definition set_k_first (v : Z) (x : kernel) : kernel := mkKernel (k_hart x) (k_cpus x)
  (k_locks x) (k_mm x) (k_kernel_pagetable x) (k_ptable x) (k_bcache x) (k_disk x)
  (k_log x) (k_sb x) (k_itable x) (k_ftable x) (k_pipes x) (k_cons x) (k_uart x)
  (k_ticks x) (k_devsw x) (k_pr_locking x) (k_panicked x) v (k_plic x) (k_vdisk x).
Definition set_k_plic (v : plic) (x : kernel) : kernel := mkKernel (k_hart x) (k_cpus x)
  (k_locks x) (k_mm x) (k_kernel_pagetable x) (k_ptable x) (k_bcache x) (k_disk x)
  (k_log x) (k_sb x) (k_itable x) (k_ftable x) (k_pipes x) (k_cons x) (k_uart x)
  (k_ticks x) (k_devsw x) (k_pr_locking x) (k_panicked x) (k_first x) v (k_vdisk x).
Definition set_k_vdisk (v : vdisk) (x : kernel) : kernel := mkKernel (k_hart x) (k_cpus
  x) (k_locks x) (k_mm x) (k_kernel_pagetable x) (k_ptable x) (k_bcache x) (k_disk x)
  (k_log x) (k_sb x) (k_itable x) (k_ftable x) (k_pipes x) (k_cons x) (k_uart x)
  (k_ticks x) (k_devsw x) (k_pr_locking x) (k_panicked x) (k_first x) (k_plic x) v.

Abbreviation K := (M kernel).

(** The globals as the C program starts with them (all zero), on hart 0. *)
Definition no_context : context := mkContext 0 0 (replicate 12 0).
Definition no_sleeplock : sleeplock := mkSleeplock 0 "" 0.
Definition no_proc : proc :=
  mkProc UNUSED None 0 0 0 None 0 0 0 0 0 no_context (replicate (Z.to_nat NOFILE) None) None
    (replicate 16 0) 0.
Definition no_buf : buf := mkBuf 0 0 0 0 no_sleeplock 0 None None (replicate 1024 0).
Definition no_inode : inode := mkInode 0 0 0 no_sleeplock 0 0 0 0 0 0 (replicate 13 0).
Definition no_desc : virtq_desc := mkVirtqDesc DmaNull 0 0 0.
Definition no_vdisk : vdisk :=
  mkVdisk 0 0 0 (replicate 8 no_desc) (mkVirtqAvail 0 0 (replicate 8 0) 0) (mkVirtqUsed 0 0 (replicate 8 (mkUsedElem 0 0)))
    (replicate 8 0) 0 (replicate 8 (mkDiskInfo None 0)) (replicate 8 (mkBlkReq 0 0 0)) [].
Definition no_file : file := mkFile FD_NONE 0 0 0 0 None 0 0.

Definition boot : kernel :=
  mkKernel (mkHart 0 0 0 0 0 0 0 0) (replicate (Z.to_nat NCPU) (mkCpu None no_context 0 0)) ∅
    (mkMm ∅ 0) 0 (mkPtable (replicate (Z.to_nat NPROC) no_proc) 1 None)
    (mkBcache (replicate (Z.to_nat NBUF) no_buf) None None) (mkDisk ∅ [])
    (mkLog 0 0 0 0 0 (mkLogheader 0 (replicate (Z.to_nat LOGSIZE) 0)))
    (mkSuperblock 0 0 0 0 0 0 0 0) (replicate (Z.to_nat NINODE) no_inode)
    (replicate (Z.to_nat NFILE) no_file) ∅ (mkCons (replicate 128 0) 0 0 0)
    (mkUart (replicate 32 0) 0 0 [] [] [] []) 0
    (replicate (Z.to_nat NDEV) (mkDevsw None None)) 0 0 1 (mkPlic [] []) no_vdisk.

(** Records are equal to themselves with a field stored back. *)
Lemma set_k_locks_id k : set_k_locks (k_locks k) k = k.
Proof. by destruct k. Qed.

Lemma set_k_mm_id k : set_k_mm (k_mm k) k = k.
Proof. by destruct k. Qed.

Lemma set_k_hart_id k : set_k_hart (k_hart k) k = k.
Proof. by destruct k. Qed.

Lemma set_k_cpus_id k : set_k_cpus (k_cpus k) k = k.
Proof. by destruct k. Qed.
