(* ===== verification/Spinlock.v ===== *)
(** kernel/spinlock.c, with the interrupt state of riscv.h and cpuid(), mycpu()
    and myproc() of proc.c; the nesting of push_off/pop_off and the effect of a
    critical section. *)

From Stdlib Require Import ZArith Lia.
From stdpp Require Import base gmap strings numbers list.
From S2P Require Import Prelude Mem Riscv Kernel.

Open Scope Z_scope.

Implicit Types (k : kernel) (l : lockid) (c : cpu).

(** * Interrupt state (riscv.h) and the current CPU (proc.c) *)

Definition r_sstatus : K Z := gets (fun k => h_sstatus (k_hart k)).
Definition w_sstatus (x : Z) : K unit :=
  modify (fun k => set_k_hart (set_h_sstatus x (k_hart k)) k).

Definition intr_on : K unit :=
  let! x := r_sstatus in w_sstatus (Z.lor x SSTATUS_SIE).

Definition intr_off : K unit :=
  let! x := r_sstatus in w_sstatus (Z.land x (u64 (Z.lnot SSTATUS_SIE))).

Definition intr_get : K Z :=
  let! x := r_sstatus in ret (b2z (negb (Z.land x SSTATUS_SIE =? 0))).

Definition cpuid : K Z := gets (fun k => i32 (h_tp (k_hart k))).

(** &cpus[id]: the index of the entry; an id outside cpus[] is out of bounds. *)
Definition mycpu : K nat :=
  let! id := cpuid in
  if (0 <=? id) && (id <? NCPU) then ret (Z.to_nat id) else fault "cpus[]".

Definition get_cpu (i : nat) : K cpu :=
  let! o := gets (fun k => k_cpus k !! i) in need "cpus[]" o.
Definition upd_cpu (i : nat) (f : cpu -> cpu) : K unit :=
  modify (fun k => set_k_cpus (alter f i (k_cpus k)) k).

(** * spinlock.c *)

Definition get_lock (l : lockid) : K spinlock :=
  let! o := gets (fun k => k_locks k !! l) in need "lock not initialised" o.
Definition put_lock (l : lockid) (x : spinlock) : K unit :=
  modify (fun k => set_k_locks (<[l := x]> (k_locks k)) k).

Definition initlock (l : lockid) (name : string) : K unit :=
  put_lock l (mkSpinlock 0 name None).

Definition holding (l : lockid) : K bool :=
  let! lk := get_lock l in
  if lk_locked lk =? 0 then ret false
  else let! c := mycpu in ret (bool_decide (lk_cpu lk = Some c)).

Definition push_off : K unit :=
  let! old := intr_get in
  do! intr_off;
  let! i := mycpu in
  let! c := get_cpu i in
  do! when (c_noff c =? 0) (upd_cpu i (set_c_intena old));
  upd_cpu i (fun c => set_c_noff (c_noff c + 1) c).

Definition pop_off : K unit :=
  let! i := mycpu in
  let! on := intr_get in
  if negb (on =? 0) then panic "pop_off - interruptible" else
  let! c := get_cpu i in
  if c_noff c <? 1 then panic "pop_off" else
  do! upd_cpu i (set_c_noff (c_noff c - 1));
  when ((c_noff c - 1 =? 0) && negb (c_intena c =? 0)) intr_on.

(** The swap of __sync_lock_test_and_set, iterated: with the lock free it is
    taken at once; with the lock held by another thread the CPU spins. *)
Definition test_and_set (l : lockid) : K unit :=
  let! lk := get_lock l in
  if lk_locked lk =? 0 then put_lock l (set_lk_locked 1 lk) else (fun k => Spin k).

Definition acquire (l : lockid) : K unit :=
  do! push_off;
  let! h := holding l in
  if (h : bool) then panic "acquire" else
  do! test_and_set l;
  let! c := mycpu in
  let! lk := get_lock l in
  put_lock l (set_lk_cpu (Some c) lk).

Definition release (l : lockid) : K unit :=
  let! h := holding l in
  if negb h then panic "release" else
  let! lk := get_lock l in
  do! put_lock l (set_lk_cpu None lk);
  let! lk := get_lock l in
  do! put_lock l (set_lk_locked 0 lk);
  pop_off.

(** myproc() of proc.c *)
Definition myproc : K (option nat) :=
  do! push_off;
  let! i := mycpu in
  let! c := get_cpu i in
  do! pop_off;
  ret (c_proc c).

(** * The running CPU *)

(** Whether device interrupts are enabled. *)
Definition intr (k : kernel) : bool := negb (Z.land (h_sstatus (k_hart k)) SSTATUS_SIE =? 0).

(** The hart runs on CPU [i], whose struct is [c]; interrupts are off inside a
    push_off. *)
Record on_cpu (k : kernel) (i : nat) (c : cpu) : Prop := {
  oc_id : i32 (h_tp (k_hart k)) = Z.of_nat i;
  oc_lt : Z.of_nat i < NCPU;
  oc_cpu : k_cpus k !! i = Some c;
  oc_sstatus : 0 <= h_sstatus (k_hart k) < 2 ^ 64;
  oc_noff : 0 <= c_noff c;
  oc_off : 0 < c_noff c -> intr k = false;
}.

Definition cpu_ok (k : kernel) : Prop := exists i c, on_cpu k i c.

(** Lock [l] is initialised and free. *)
Definition lock_free (k : kernel) (l : lockid) : Prop :=
  exists name, k_locks k !! l = Some (mkSpinlock 0 name None).

(** CPU [c] after a push_off taken with interrupts [b], and after the matching
    pop_off: only the saved interrupt flag of a CPU outside any push_off differs. *)
Definition cpu_off (b : bool) (c : cpu) : cpu :=
  set_c_noff (c_noff c + 1) (if c_noff c =? 0 then set_c_intena (b2z b) c else c).
Definition cpu_relax (b : bool) (c : cpu) : cpu :=
  if c_noff c =? 0 then set_c_intena (b2z b) c else c.

Definition sie_off (k : kernel) : kernel :=
  set_k_hart (set_h_sstatus (Z.land (h_sstatus (k_hart k)) (u64 (Z.lnot SSTATUS_SIE))) (k_hart k)) k.

Definition this_cpu (k : kernel) : nat := Z.to_nat (i32 (h_tp (k_hart k))).

Definition pushed (k : kernel) : kernel :=
  set_k_cpus (alter (cpu_off (intr k)) (this_cpu k) (k_cpus k)) (sie_off k).
Definition relax (k : kernel) : kernel :=
  set_k_cpus (alter (cpu_relax (intr k)) (this_cpu k) (k_cpus k)) k.

(** The state in which the critical section of lock [l] runs. *)
Definition enter (l : lockid) (k : kernel) : kernel :=
  set_k_locks (alter (fun lk => mkSpinlock 1 (lk_name lk) (Some (this_cpu k))) l (k_locks k)) (pushed k).

(** The state after the critical section, when the section ended in [k2]. *)
Definition leave (k k2 : kernel) : kernel :=
  set_k_hart (k_hart k) (set_k_cpus (k_cpus (relax k)) (set_k_locks (k_locks k) k2)).

(** * Lemmas *)

Lemma testbit_SIE i : 0 <= i -> Z.testbit (u64 (Z.lnot SSTATUS_SIE)) i = (i <? 64) && negb (i =? 1).
Proof.
  intros Hi. unfold u64. destruct (i <? 64) eqn:E; bool_prop.
  - rewrite Z.mod_pow2_bits_low by lia. rewrite Z.lnot_spec by lia.
    change SSTATUS_SIE with (2 ^ 1). rewrite Z.pow2_bits_eqb by lia.
    by rewrite (Z.eqb_sym 1 i).
  - by rewrite Z.mod_pow2_bits_high by lia.
Qed.

Lemma testbit_u64_high s i : 0 <= s < 2 ^ 64 -> 64 <= i -> Z.testbit s i = false.
Proof.
  intros Hs Hi. destruct (decide (s = 0)) as [->|]; [apply Z.bits_0|].
  apply Z.bits_above_log2; [lia|]. apply Z.log2_lt_pow2; [lia|].
  apply Z.lt_le_trans with (2 ^ 64); [lia|]. apply Z.pow_le_mono_r; lia.
Qed.

Lemma land_SIE s : negb (Z.land s SSTATUS_SIE =? 0) = Z.testbit s 1.
Proof.
  change SSTATUS_SIE with (2 ^ 1).
  destruct (Z.testbit s 1) eqn:E.
  - apply negb_true_iff, Z.eqb_neq. intros H.
    assert (Z.testbit (Z.land s (2 ^ 1)) 1 = true) as H1.
    { rewrite Z.land_spec, E. by rewrite Z.pow2_bits_true by lia. }
    by rewrite H, Z.bits_0 in H1.
  - apply negb_false_iff, Z.eqb_eq. apply Z.bits_inj'. intros i Hi.
    rewrite Z.land_spec, Z.bits_0, Z.pow2_bits_eqb by lia.
    destruct (Z.eqb_spec 1 i); subst; rewrite ?E; [done|apply andb_false_r].
Qed.

Lemma sie_cleared s : Z.testbit (Z.land s (u64 (Z.lnot SSTATUS_SIE))) 1 = false.
Proof. rewrite Z.land_spec, testbit_SIE by lia. apply andb_false_r. Qed.

Lemma sie_restore s :
  0 <= s < 2 ^ 64 -> Z.testbit s 1 = true ->
  Z.lor (Z.land s (u64 (Z.lnot SSTATUS_SIE))) SSTATUS_SIE = s.
Proof.
  intros Hs H1. apply Z.bits_inj'. intros i Hi.
  rewrite Z.lor_spec, Z.land_spec, testbit_SIE by lia.
  change SSTATUS_SIE with (2 ^ 1). rewrite Z.pow2_bits_eqb by lia.
  destruct (Z.eqb_spec 1 i) as [<-|]; [by rewrite H1, orb_true_r|].
  destruct (i <? 64) eqn:E; bool_prop.
  - destruct (Z.eqb_spec i 1); [lia|]. simpl. by rewrite andb_true_r, orb_false_r.
  - simpl. rewrite andb_false_r. symmetry. by apply testbit_u64_high.
Qed.

Lemma sie_already s :
  0 <= s < 2 ^ 64 -> Z.testbit s 1 = false -> Z.land s (u64 (Z.lnot SSTATUS_SIE)) = s.
Proof.
  intros Hs H1. apply Z.bits_inj'. intros i Hi.
  rewrite Z.land_spec, testbit_SIE by lia.
  destruct (i <? 64) eqn:E; bool_prop.
  - destruct (Z.eqb_spec i 1) as [->|]; [by rewrite H1|]. apply andb_true_r.
  - simpl. rewrite andb_false_r. symmetry. by apply testbit_u64_high.
Qed.

Lemma land_u64_range s x : 0 <= s < 2 ^ 64 -> 0 <= Z.land s x < 2 ^ 64.
Proof.
  intros Hs. split; [apply Z.land_nonneg; lia|].
  assert (Z.land s x = Z.land s x mod 2 ^ 64) as ->.
  { apply Z.bits_inj'. intros i Hi. destruct (decide (i < 64)).
    - by rewrite Z.mod_pow2_bits_low by lia.
    - rewrite Z.mod_pow2_bits_high, Z.land_spec, testbit_u64_high by lia. done. }
  apply Z.mod_pos_bound. lia.
Qed.

Lemma lor_u64_range s x : 0 <= s < 2 ^ 64 -> 0 <= x < 2 ^ 64 -> 0 <= Z.lor s x < 2 ^ 64.
Proof.
  intros Hs Hx. assert (Z.lor s x = Z.lor s x mod 2 ^ 64) as ->; [|apply Z.mod_pos_bound; lia].
  apply Z.bits_inj'. intros i Hi. destruct (decide (i < 64)).
  - by rewrite Z.mod_pow2_bits_low by lia.
  - rewrite Z.mod_pow2_bits_high, Z.lor_spec, !testbit_u64_high by lia. done.
Qed.

Lemma on_cpu_ext k k2 i c :
  k_hart k2 = k_hart k -> k_cpus k2 = k_cpus k -> on_cpu k i c -> on_cpu k2 i c.
Proof.
  intros Hh Hc [H1 H2 H3 H4 H5 H6]. unfold intr in H6.
  split; unfold intr; rewrite ?Hh, ?Hc; done.
Qed.

Lemma mycpu_run k i c : on_cpu k i c -> mycpu k = Ret i k.
Proof.
  intros [H1 H2 _ _ _ _]. unfold mycpu, cpuid, bind, gets. cbn [obind].
  rewrite H1. destruct (Z.ltb_spec (Z.of_nat i) NCPU); [|lia].
  destruct (Z.leb_spec 0 (Z.of_nat i)); [|lia]. simpl. by rewrite Nat2Z.id.
Qed.

Lemma get_cpu_run k i c : on_cpu k i c -> get_cpu i k = Ret c k.
Proof. intros OC. unfold get_cpu, bind, gets. cbn [obind]. by rewrite (oc_cpu _ _ _ OC). Qed.

Lemma intr_get_run k : intr_get k = Ret (b2z (intr k)) k.
Proof. done. Qed.

Lemma this_cpu_on k i c : on_cpu k i c -> this_cpu k = i.
Proof. intros OC. unfold this_cpu. rewrite (oc_id _ _ _ OC). apply Nat2Z.id. Qed.

Lemma sie_off_on_cpu k i c : on_cpu k i c -> on_cpu (sie_off k) i c.
Proof.
  intros [H1 H2 H3 H4 H5 H6]. split; simpl; try done.
  - by apply land_u64_range.
  - intros _. unfold intr. simpl. rewrite land_SIE. apply sie_cleared.
Qed.

Lemma pushed_on_cpu k i c : on_cpu k i c -> on_cpu (pushed k) i (cpu_off (intr k) c).
Proof.
  intros OC. pose proof (sie_off_on_cpu _ _ _ OC) as [H1 H2 H3 H4 H5 H6]. split; simpl; try done.
  - simpl in H3. rewrite (this_cpu_on _ _ _ OC), list_lookup_alter, H3. by case_decide.
  - lia.
  - intros _. unfold intr. simpl. rewrite land_SIE. apply sie_cleared.
Qed.

Lemma push_off_run k i c : on_cpu k i c -> push_off k = Ret tt (pushed k).
Proof.
  intros OC. pose proof (sie_off_on_cpu _ _ _ OC) as OC'.
  unfold push_off. rewrite (bind_run _ _ _ _ _ (intr_get_run k)).
  rewrite bind_run with (a := tt) (s' := sie_off k) by done.
  rewrite (bind_run _ _ _ _ _ (mycpu_run _ _ _ OC')), (bind_run _ _ _ _ _ (get_cpu_run _ _ _ OC')).
  unfold pushed, upd_cpu, cpu_off. rewrite (this_cpu_on _ _ _ OC).
  pose proof (oc_cpu _ _ _ OC) as H3.
  destruct (c_noff c =? 0) eqn:E; unfold bind, when, modify, ret; cbn [obind]; f_equal.
  - unfold set_k_cpus. simpl. f_equal.
    rewrite list_alter_alter_eq. apply list_alter_ext; [|done].
    intros x Hx. simpl in Hx. replace x with c by congruence. simpl. by rewrite E.
  - f_equal. apply list_alter_ext; [|done].
    intros x Hx. simpl in Hx. replace x with c by congruence. by rewrite E.
Qed.

(** A pop_off with at least one push_off pending. *)
Lemma pop_off_run k i c :
  on_cpu k i c -> 0 < c_noff c ->
  pop_off k =
    Ret tt (let k' := set_k_cpus (alter (set_c_noff (c_noff c - 1)) i (k_cpus k)) k in
            if (c_noff c - 1 =? 0) && negb (c_intena c =? 0)
            then set_k_hart (set_h_sstatus (Z.lor (h_sstatus (k_hart k)) SSTATUS_SIE) (k_hart k)) k'
            else k').
Proof.
  intros OC Hn. unfold pop_off.
  rewrite (bind_run _ _ _ _ _ (mycpu_run _ _ _ OC)), (bind_run _ _ _ _ _ (intr_get_run k)).
  rewrite (oc_off _ _ _ OC Hn). simpl.
  rewrite (bind_run _ _ _ _ _ (get_cpu_run _ _ _ OC)).
  destruct (Z.ltb_spec (c_noff c) 1); [lia|].
  unfold when, upd_cpu, bind, modify. cbn [obind]. by case_if.
Qed.

(** [k2] has the interrupt state in which the push_off of [k] left it; the
    matching pop_off puts that of [k] back. *)
Lemma pop_off_pushed k i c k2 :
  on_cpu k i c -> k_hart k2 = k_hart (pushed k) -> k_cpus k2 = k_cpus (pushed k) ->
  pop_off k2 = Ret tt (set_k_hart (k_hart k) (set_k_cpus (k_cpus (relax k)) k2)).
Proof.
  intros OC Hh Hc. pose proof (pushed_on_cpu _ _ _ OC) as OP.
  assert (OC2 : on_cpu k2 i (cpu_off (intr k) c)).
  { by apply (on_cpu_ext (pushed k)). }
  pose proof (oc_noff _ _ _ OC) as Hn. pose proof (oc_cpu _ _ _ OC) as H3.
  rewrite (pop_off_run _ _ _ OC2) by (simpl; lia). f_equal. cbv zeta.
  rewrite Hh, Hc.
  assert (Hcp : alter (set_c_noff (c_noff (cpu_off (intr k) c) - 1)) i (k_cpus (pushed k))
                = k_cpus (relax k)).
  { unfold pushed, relax. simpl. rewrite (this_cpu_on _ _ _ OC).
    rewrite list_alter_alter_eq. apply list_alter_ext; [|done].
    intros x Hx. simpl in Hx. replace x with c by congruence. unfold compose, cpu_off, cpu_relax. simpl.
    replace (c_noff c + 1 - 1) with (c_noff c) by lia.
    destruct c; simpl. by case_if. }
  rewrite Hcp. unfold cpu_off. simpl.
  replace (c_noff c + 1 - 1) with (c_noff c) by lia.
  destruct (c_noff c =? 0) eqn:E; bool_prop; simpl.
  - destruct (intr k) eqn:Ei; simpl; unfold intr in Ei; rewrite land_SIE in Ei;
      unfold set_k_hart, set_h_sstatus; simpl.
    + rewrite (sie_restore _ (oc_sstatus _ _ _ OC) Ei). by destruct k as [[] ? ?], k2.
    + assert (Hk : k_hart k2 = k_hart k).
      { rewrite Hh. simpl. unfold set_h_sstatus.
        rewrite (sie_already _ (oc_sstatus _ _ _ OC) Ei). by destruct k as [[] ? ?]. }
      rewrite <- Hk. by destruct k2.
  - pose proof (oc_off _ _ _ OC) as Hoff. specialize (Hoff ltac:(lia)).
    unfold intr in Hoff. rewrite land_SIE in Hoff.
    assert (Hk : k_hart k2 = k_hart k).
    { rewrite Hh. simpl. unfold set_h_sstatus.
      rewrite (sie_already _ (oc_sstatus _ _ _ OC) Hoff). by destruct k as [[] ? ?]. }
    rewrite <- Hk. by destruct k2.
Qed.

(** * Critical sections *)

Lemma relax_on_cpu k i c : on_cpu k i c -> on_cpu (relax k) i (cpu_relax (intr k) c).
Proof.
  intros OC. pose proof OC as [H1 H2 H3 H4 H5 H6]. split; simpl; try done.
  - rewrite (this_cpu_on _ _ _ OC), list_lookup_alter, H3. by case_decide.
  - unfold cpu_relax. by case_if.
  - unfold cpu_relax. case_if; simpl; apply H6.
Qed.

Lemma relax_cpu_ok k : cpu_ok k -> cpu_ok (relax k).
Proof. intros (i & c & OC). eexists _, _. by apply relax_on_cpu. Qed.

Lemma holding_free k l : lock_free k l -> holding l k = Ret false k.
Proof. intros [name H]. unfold holding, get_lock, bind, gets. cbn [obind]. by rewrite H. Qed.

Lemma acquire_run k l : cpu_ok k -> lock_free k l -> acquire l k = Ret tt (enter l k).
Proof.
  intros (i & c & OC) [name Hl]. pose proof (pushed_on_cpu _ _ _ OC) as OP.
  unfold acquire. rewrite (bind_run _ _ _ _ _ (push_off_run _ _ _ OC)).
  rewrite bind_run with (a := false) (s' := pushed k) by (apply holding_free; by exists name).
  cbv iota beta.
  unfold test_and_set, get_lock, put_lock, bind, gets, modify. cbn [obind].
  simpl (k_locks (pushed k)). rewrite Hl. cbn [need ret obind].
  simpl (_ =? _). cbv iota. cbn [obind].
  unfold mycpu, bind, cpuid, gets. cbn [obind].
  pose proof (oc_id _ _ _ OP) as Hid. simpl in Hid |- *. rewrite Hid.
  pose proof (oc_lt _ _ _ OP).
  destruct (Z.ltb_spec (Z.of_nat i) NCPU); [|lia].
  destruct (Z.leb_spec 0 (Z.of_nat i)); [|lia]. simpl.
  rewrite lookup_insert_eq. cbn [need ret obind]. f_equal.
  unfold enter. rewrite (this_cpu_on _ _ _ OC), Nat2Z.id.
  unfold set_k_locks. simpl. f_equal.
  rewrite insert_insert_eq. apply map_eq. intros l'.
  rewrite lookup_insert, lookup_alter. case_decide; subst; [|done].
  by rewrite Hl.
Qed.

Lemma enter_cpu_ok l k : cpu_ok k -> cpu_ok (enter l k).
Proof.
  intros (i & c & OC). exists i, (cpu_off (intr k) c).
  by apply (on_cpu_ext (pushed k)), pushed_on_cpu.
Qed.

(** Releasing [l] at the end of a critical section that left the interrupt
    state and the locks as it found them. *)
Lemma release_run k l k2 :
  cpu_ok k -> lock_free k l ->
  k_hart k2 = k_hart (enter l k) -> k_cpus k2 = k_cpus (enter l k) ->
  k_locks k2 = k_locks (enter l k) ->
  release l k2 = Ret tt (leave k k2).
Proof.
  intros (i & c & OC) [name Hl] Hh Hc Hlk. pose proof (pushed_on_cpu _ _ _ OC) as OP.
  assert (OC2 : on_cpu k2 i (cpu_off (intr k) c)).
  { by apply (on_cpu_ext (pushed k)). }
  assert (Hl2 : k_locks k2 !! l = Some (mkSpinlock 1 name (Some i))).
  { rewrite Hlk. simpl. rewrite lookup_alter, Hl. case_decide; [|done]. simpl.
    by rewrite (this_cpu_on _ _ _ OC). }
  unfold release.
  rewrite bind_run with (a := true) (s' := k2).
  2: { unfold holding. rewrite bind_run with (a := mkSpinlock 1 name (Some i)) (s' := k2).
       - simpl (_ =? 0). cbv iota. rewrite (bind_run _ _ _ _ _ (mycpu_run _ _ _ OC2)).
         simpl. unfold ret. by rewrite bool_decide_true.
       - unfold get_lock, bind, gets. cbn [obind]. by rewrite Hl2. }
  simpl (negb true). cbv iota.
  unfold get_lock, put_lock, bind, gets, modify. cbn [obind]. rewrite Hl2. cbn [need ret obind].
  simpl. rewrite lookup_insert_eq. cbn [need ret obind].
  erewrite pop_off_pushed; [|exact OC|done|done].
  f_equal. unfold leave. unfold set_k_hart, set_k_cpus, set_k_locks. simpl. f_equal.
  rewrite insert_insert_eq, Hlk. apply map_eq. intros l'. simpl.
  rewrite lookup_insert, lookup_alter. case_decide; subst; [by rewrite Hl|done].
Qed.

(** An update of the state that neither depends on nor changes the hart, the
    CPUs and the locks. *)
Definition with_cpu (h : hart) (cs : list cpu) (ls : gmap lockid spinlock) (k : kernel) : kernel :=
  set_k_hart h (set_k_cpus cs (set_k_locks ls k)).

Definition data_only (f : kernel -> kernel) : Prop :=
  forall h cs ls k, f (with_cpu h cs ls k) = with_cpu h cs ls (f k).

Lemma with_cpu_id k : with_cpu (k_hart k) (k_cpus k) (k_locks k) k = k.
Proof. by destruct k. Qed.

Lemma enter_with_cpu l k :
  enter l k = with_cpu (k_hart (enter l k)) (k_cpus (enter l k)) (k_locks (enter l k)) k.
Proof. by destruct k. Qed.

Lemma relax_with_cpu k : relax k = with_cpu (k_hart k) (k_cpus (relax k)) (k_locks k) k.
Proof. by destruct k. Qed.

Lemma data_only_hart f k : data_only f -> k_hart (f k) = k_hart k.
Proof. intros Hf. rewrite <- (with_cpu_id k) at 1. by rewrite Hf. Qed.

Lemma data_only_cpus f k : data_only f -> k_cpus (f k) = k_cpus k.
Proof. intros Hf. rewrite <- (with_cpu_id k) at 1. by rewrite Hf. Qed.

Lemma data_only_locks f k : data_only f -> k_locks (f k) = k_locks k.
Proof. intros Hf. rewrite <- (with_cpu_id k) at 1. by rewrite Hf. Qed.

Lemma data_only_cpu_ok f k : data_only f -> cpu_ok k -> cpu_ok (f k).
Proof.
  intros Hf (i & c & OC). exists i, c.
  apply (on_cpu_ext k); [by apply data_only_hart|by apply data_only_cpus|done].
Qed.

Lemma data_only_relax f k : data_only f -> relax (f k) = f (relax k).
Proof.
  intros Hf. rewrite (relax_with_cpu k), Hf. unfold relax, intr, this_cpu.
  rewrite data_only_hart, data_only_cpus by done. rewrite <- (with_cpu_id (f k)) at 1.
  by rewrite data_only_hart, data_only_cpus, data_only_locks by done.
Qed.

(** The release() that ends a critical section which has made the update [f]. *)
Lemma release_upd k l f :
  cpu_ok k -> lock_free k l -> data_only f -> release l (f (enter l k)) = Ret tt (f (relax k)).
Proof.
  intros Hk Hl Hf. rewrite (release_run k l).
  - f_equal. rewrite (enter_with_cpu l k), (relax_with_cpu k), !Hf. by destruct (f k).
  - done.
  - done.
  - by apply data_only_hart.
  - by apply data_only_cpus.
  - by apply data_only_locks.
Qed.

(** acquire(l); body; release(l) where the body returns [a] and makes the update
    [f]. *)
Lemma critical_run {A} k l (body : K A) (a : A) f :
  cpu_ok k -> lock_free k l -> data_only f -> body (enter l k) = Ret a (f (enter l k)) ->
  (do! acquire l; let! x := body in do! release l; ret x) k = Ret a (f (relax k)).
Proof.
  intros Hk Hl Hf Hb. rewrite (bind_run _ _ _ _ _ (acquire_run _ _ Hk Hl)).
  rewrite (bind_run _ _ _ _ _ Hb). by rewrite (bind_run _ _ _ _ _ (release_upd _ _ _ Hk Hl Hf)).
Qed.

Lemma critical_unit_run k l (body : K unit) f :
  cpu_ok k -> lock_free k l -> data_only f -> body (enter l k) = Ret tt (f (enter l k)) ->
  (do! acquire l; do! body; release l) k = Ret tt (f (relax k)).
Proof.
  intros Hk Hl Hf Hb. rewrite (bind_run _ _ _ _ _ (acquire_run _ _ Hk Hl)).
  rewrite (bind_run _ _ _ _ _ Hb). by apply release_upd.
Qed.

(** myproc() has no effect but the saved interrupt flag, and reads the process
    of the running CPU. *)
Lemma myproc_run k i c : on_cpu k i c -> myproc k = Ret (c_proc c) (relax k).
Proof.
  intros OC. pose proof (pushed_on_cpu _ _ _ OC) as OP.
  unfold myproc. rewrite (bind_run _ _ _ _ _ (push_off_run _ _ _ OC)).
  rewrite (bind_run _ _ _ _ _ (mycpu_run _ _ _ OP)), (bind_run _ _ _ _ _ (get_cpu_run _ _ _ OP)).
  erewrite bind_run; [|by apply (pop_off_pushed k _ _ _ OC)].
  unfold ret. f_equal.
  unfold cpu_off. simpl. by case_if.
Qed.

(** holding(), on an initialised lock. *)
Lemma holding_run k l i c lk :
  on_cpu k i c -> k_locks k !! l = Some lk ->
  holding l k = Ret (negb (lk_locked lk =? 0) && bool_decide (lk_cpu lk = Some i)) k.
Proof.
  intros OC Hl. unfold holding.
  rewrite bind_run with (a := lk) (s' := k).
  - destruct (lk_locked lk =? 0); [done|]. by rewrite (bind_run _ _ _ _ _ (mycpu_run _ _ _ OC)).
  - unfold get_lock, bind, gets. cbn [obind]. by rewrite Hl.
Qed.

Lemma release_holding l k k' : release l k = Ret tt k' -> holding l k = Ret true k.
Proof.
  unfold release. intros (h & s & E & E')%bind_Ret_inv.
  assert (s = k) as ->.
  { unfold holding, get_lock, mycpu, cpuid in E. inv_run; try discriminate; done. }
  by destruct h.
Qed.

Lemma enter_intr l k : intr (enter l k) = false.
Proof. unfold intr. simpl. rewrite land_SIE. apply sie_cleared. Qed.

Lemma relax_idem k : relax (relax k) = relax k.
Proof.
  unfold relax at 1 3. unfold set_k_cpus. simpl. f_equal.
  change (intr (relax k)) with (intr k). change (this_cpu (relax k)) with (this_cpu k).
  rewrite list_alter_alter_eq. apply list_alter_ext; [|done].
  intros c _. unfold compose, cpu_relax. by destruct (c_noff c =? 0) eqn:E; simpl; rewrite ?E.
Qed.

Lemma acquire_spin k l i c lk :
  on_cpu k i c -> k_locks k !! l = Some lk -> lk_locked lk <> 0 -> lk_cpu lk <> Some i ->
  acquire l k = Spin (pushed k).
Proof.
  intros OC Hl H1 H2. pose proof (pushed_on_cpu _ _ _ OC) as OP. unfold acquire.
  rewrite (bind_run _ _ _ _ _ (push_off_run _ _ _ OC)).
  rewrite (bind_run _ _ _ _ _ (holding_run (pushed k) l i _ lk OP Hl)).
  rewrite (proj2 (Z.eqb_neq _ 0) H1), bool_decide_false by done. simpl.
  unfold test_and_set, get_lock, bind, gets. cbn [obind]. simpl (k_locks (pushed k)). rewrite Hl.
  simpl. by rewrite (proj2 (Z.eqb_neq _ 0) H1).
Qed.

(** Inside a critical section the saved interrupt flag is not rewritten. *)
Lemma relax_in k i c : on_cpu k i c -> 0 < c_noff c -> relax k = k.
Proof.
  intros OC Hn. unfold relax. rewrite (this_cpu_on _ _ _ OC).
  replace (alter (cpu_relax (intr k)) i (k_cpus k)) with (k_cpus k); [apply set_k_cpus_id|].
  symmetry. apply list_eq. intros j. rewrite list_lookup_alter. case_decide as E; [subst j|done].
  rewrite (oc_cpu _ _ _ OC). simpl. f_equal. unfold cpu_relax. by rewrite (proj2 (Z.eqb_neq _ 0)) by lia.
Qed.

Lemma relax_enter l k : cpu_ok k -> relax (enter l k) = enter l k.
Proof.
  intros (i & c & OC). apply (relax_in _ i (cpu_off (intr k) c)).
  - by apply (on_cpu_ext (pushed k)), pushed_on_cpu.
  - pose proof (oc_noff _ _ _ OC). unfold cpu_off. simpl. lia.
Qed.

Lemma alter_back {A} (f g : A -> A) i (l : list A) x :
  l !! i = Some x -> g (f x) = x -> alter g i (alter f i l) = l.
Proof.
  intros E Hg. apply list_eq. intros j. rewrite !list_lookup_alter.
  case_decide as Ej; [subst j|done]. rewrite decide_True, E by done. simpl. by rewrite Hg.
Qed.

Lemma locks_alter (ls : gmap lockid spinlock) l x g :
  ls !! l = Some x -> alter g l ls = <[l := g x]> ls.
Proof.
  intros E. apply map_eq. intros l'. rewrite lookup_alter, lookup_insert.
  case_decide as El; [subst l'|done]. by rewrite E.
Qed.

(** release() frees the lock and pops one level of interrupt disabling. *)
Lemma release_pop k l i c name :
  on_cpu k i c -> k_locks k !! l = Some (mkSpinlock 1 name (Some i)) ->
  release l k = pop_off (set_k_locks (<[l := mkSpinlock 0 name None]> (k_locks k)) k).
Proof.
  intros OC Hl. unfold release.
  rewrite (bind_run _ _ _ _ _ (holding_run k l i _ _ OC Hl)). simpl (negb (_ =? 0)).
  rewrite bool_decide_true by done. simpl (negb _). cbv iota.
  unfold get_lock, put_lock, bind, gets, modify. cbn [obind]. rewrite Hl. cbn [need ret obind].
  simpl. rewrite lookup_insert_eq. cbn [need ret obind].
  unfold set_k_locks. simpl. by rewrite insert_insert_eq.
Qed.

(** release() of a lock that is not the innermost one. *)
Lemma release_outer_run k l i c name :
  on_cpu k i c -> 1 < c_noff c -> k_locks k !! l = Some (mkSpinlock 1 name (Some i)) ->
  release l k = Ret tt (set_k_cpus (alter (set_c_noff (c_noff c - 1)) i (k_cpus k))
                          (set_k_locks (<[l := mkSpinlock 0 name None]> (k_locks k)) k)).
Proof.
  intros OC Hn Hl. rewrite (release_pop k l i c name OC Hl). set (k2 := set_k_locks _ _).
  assert (OC2 : on_cpu k2 i c) by by apply (on_cpu_ext k).
  rewrite (pop_off_run k2 i c OC2) by lia. cbv zeta.
  by rewrite (proj2 (Z.eqb_neq (c_noff c - 1) 0)) by lia.
Qed.

Lemma sie_cycle s :
  0 <= s < 2 ^ 64 -> Z.testbit s 1 = false ->
  Z.land (Z.lor s SSTATUS_SIE) (u64 (Z.lnot SSTATUS_SIE)) = s.
Proof.
  intros Hs H1. apply Z.bits_inj'. intros j Hj.
  rewrite Z.land_spec, Z.lor_spec, testbit_SIE by lia.
  change SSTATUS_SIE with (2 ^ 1). rewrite Z.pow2_bits_eqb by lia.
  destruct (Z.eqb_spec j 1) as [->|]; [by rewrite H1, andb_false_r|].
  rewrite (proj2 (Z.eqb_neq 1 j)) by lia. rewrite orb_false_r. destruct (j <? 64) eqn:E; bool_prop.
  - apply andb_true_r.
  - simpl. rewrite andb_false_r. symmetry. by apply testbit_u64_high.
Qed.

(** release() of the only lock held: the interrupt state of the outside comes back. *)
Lemma release_inner_run k l i c name :
  on_cpu k i c -> c_noff c = 1 -> k_locks k !! l = Some (mkSpinlock 1 name (Some i)) ->
  let s := h_sstatus (k_hart k) in
  let b := negb (c_intena c =? 0) in
  let kr := with_cpu (set_h_sstatus (if b then Z.lor s SSTATUS_SIE else s) (k_hart k)) (alter (set_c_noff 0) i (k_cpus k))
              (<[l := mkSpinlock 0 name None]> (k_locks k)) k in
  release l k = Ret tt kr /\ on_cpu kr i (set_c_noff 0 c) /\ intr kr = b.
Proof.
  intros OC Hn H1. pose proof (oc_cpu _ _ _ OC) as Hc. pose proof (oc_off _ _ _ OC ltac:(lia)) as Hoff.
  unfold intr in Hoff. rewrite land_SIE in Hoff. cbv zeta. set (s := h_sstatus (k_hart k)) in *.
  pose proof (oc_sstatus _ _ _ OC) as Hs. set (b := negb (c_intena c =? 0)). set (s1 := if b then Z.lor s SSTATUS_SIE else s).
  split; [|split].
  - rewrite (release_pop k l i c name OC H1). set (k2 := set_k_locks _ _).
    assert (OC2 : on_cpu k2 i c) by by apply (on_cpu_ext k).
    rewrite (pop_off_run k2 i c OC2) by lia. rewrite Hn. cbv zeta.
    f_equal. unfold s1. fold b. destruct b; [done|]. by destruct k as [[]].
  - split; simpl; try by apply OC.
    + by rewrite list_lookup_alter_eq, Hc.
    + unfold s1. destruct b; [|done]. by apply lor_u64_range.
    + lia.
    + lia.
  - unfold intr. rewrite land_SIE. change (Z.testbit s1 1 = b). unfold s1. destruct b; [|done].
    rewrite Z.lor_spec. change (Z.testbit SSTATUS_SIE 1) with true. apply orb_true_r.
Qed.

(** Giving up the only lock held and taking another one: the interrupt state
    goes through that of the outside and comes back. *)
Lemma exchange_run k i c l1 n1 l2 n2 :
  on_cpu k i c -> c_noff c = 1 -> c_intena c = 0 \/ c_intena c = 1 -> l1 <> l2 ->
  k_locks k !! l1 = Some (mkSpinlock 1 n1 (Some i)) -> k_locks k !! l2 = Some (mkSpinlock 0 n2 None) ->
  (do! release l1; acquire l2) k =
    Ret tt (set_k_locks (<[l2 := mkSpinlock 1 n2 (Some i)]> (<[l1 := mkSpinlock 0 n1 None]> (k_locks k))) k).
Proof.
  intros OC Hn Hi Hne H1 H2. pose proof (oc_cpu _ _ _ OC) as Hc.
  pose proof (oc_off _ _ _ OC ltac:(lia)) as Hoff. unfold intr in Hoff. rewrite land_SIE in Hoff.
  pose proof (oc_sstatus _ _ _ OC) as Hs.
  destruct (release_inner_run k l1 i c n1 OC Hn H1) as (Er & OR & Ei).
  set (s := h_sstatus (k_hart k)) in *. set (b := negb (c_intena c =? 0)) in *.
  set (s1 := if b then Z.lor s SSTATUS_SIE else s) in *. set (kr := with_cpu _ _ _ _) in *.
  rewrite (bind_run _ _ _ _ _ Er), acquire_run; [|by eexists _, _|exists n2; simpl; by rewrite lookup_insert_ne].
  f_equal. unfold enter, pushed, sie_off. rewrite (this_cpu_on _ _ _ OR), Ei. simpl.
  assert (Es : Z.land s1 (u64 (Z.lnot SSTATUS_SIE)) = s).
  { unfold s1. destruct b; [by apply sie_cycle|by apply sie_already]. }
  rewrite Es, (alter_back (set_c_noff 0) (cpu_off b) i (k_cpus k) c Hc).
  - rewrite (locks_alter _ l2 (mkSpinlock 0 n2 None)) by (by rewrite lookup_insert_ne).
    unfold kr, s. by destruct k as [[]].
  - unfold cpu_off, b. destruct c. simpl in *. subst. by destruct Hi as [-> | ->].
Qed.

(** * Mutual exclusion

    Several harts run acquire() and release() on the shared locks: each step
    runs one whole call on one hart, with that hart's registers, in a state
    that the others have left.  [sys_held] records which locks each hart has
    acquired and not yet released. *)

Record sys : Type := mkSys {
  sys_k : kernel;
  sys_harts : list hart;
  sys_held : list (list lockid);
}.

Inductive sys_step : sys -> sys -> Prop :=
| step_acquire s i l h hs k' :
    sys_harts s !! i = Some h -> sys_held s !! i = Some hs ->
    acquire l (set_k_hart h (sys_k s)) = Ret tt k' ->
    sys_step s (mkSys k' (<[i := k_hart k']> (sys_harts s)) (<[i := l :: hs]> (sys_held s)))
| step_release s i l h hs k' :
    sys_harts s !! i = Some h -> sys_held s !! i = Some hs ->
    release l (set_k_hart h (sys_k s)) = Ret tt k' ->
    sys_step s (mkSys k' (<[i := k_hart k']> (sys_harts s))
                  (<[i := filter (.≠ l) hs]> (sys_held s))).

Inductive sys_reach : sys -> sys -> Prop :=
| reach_refl s : sys_reach s s
| reach_step s1 s2 s3 : sys_reach s1 s2 -> sys_step s2 s3 -> sys_reach s1 s3.

(** Hart [i] runs on CPU [i], and holds exactly the locks it has acquired. *)
Definition sys_inv (s : sys) : Prop :=
  (forall i h, sys_harts s !! i = Some h -> i32 (h_tp h) = Z.of_nat i) /\
  (forall i hs l, sys_held s !! i = Some hs ->
     l ∈ hs <-> exists name, k_locks (sys_k s) !! l = Some (mkSpinlock 1 name (Some i))) /\
  (forall l lk, k_locks (sys_k s) !! l = Some lk ->
     lk_locked lk = 0 \/ exists i, lk = mkSpinlock 1 (lk_name lk) (Some i)).

(** The power-on state: no lock is held. *)
Definition sys_init (s : sys) : Prop :=
  (forall i h, sys_harts s !! i = Some h -> i32 (h_tp h) = Z.of_nat i) /\
  (forall i hs, sys_held s !! i = Some hs -> hs = []) /\
  (forall l lk, k_locks (sys_k s) !! l = Some lk -> lk_locked lk = 0).

Definition same_locks (k k' : kernel) : Prop :=
  k_locks k' = k_locks k /\ h_tp (k_hart k') = h_tp (k_hart k).

Lemma push_off_locks k k' : push_off k = Ret tt k' -> same_locks k k'.
Proof.
  unfold push_off, intr_get, intr_off, r_sstatus, w_sstatus, mycpu, cpuid, get_cpu, upd_cpu, when.
  intros H. inv_run; try discriminate; by split.
Qed.

Lemma pop_off_locks k k' : pop_off k = Ret tt k' -> same_locks k k'.
Proof.
  unfold pop_off, intr_on, intr_get, r_sstatus, w_sstatus, mycpu, cpuid, get_cpu, upd_cpu, when.
  intros H. inv_run; try discriminate; by split.
Qed.

(** The effect of a successful acquire() and release() on the locks. *)
Lemma acquire_inv k l k' i :
  i32 (h_tp (k_hart k)) = Z.of_nat i -> acquire l k = Ret tt k' ->
  h_tp (k_hart k') = h_tp (k_hart k) /\
  exists lk, k_locks k !! l = Some lk /\ lk_locked lk = 0 /\
    k_locks k' = <[l := mkSpinlock 1 (lk_name lk) (Some i)]> (k_locks k).
Proof.
  intros Hi H. unfold acquire, holding, test_and_set, get_lock, put_lock, mycpu, cpuid in H.
  inv_run; try discriminate;
    match goal with P : push_off _ = Ret ?u _ |- _ => destruct u; apply push_off_locks in P as [E Et] end;
    simpl in *; rewrite ?lookup_insert_eq in *; simplify_eq;
    rewrite ?E, ?Et, ?Hi in *; (split; [done|]); eexists; (split; [done|]); (split; [done|]);
    rewrite insert_insert_eq, Nat2Z.id; done.
Qed.

Lemma release_inv k l k' i :
  i32 (h_tp (k_hart k)) = Z.of_nat i -> release l k = Ret tt k' ->
  h_tp (k_hart k') = h_tp (k_hart k) /\
  exists lk, k_locks k !! l = Some lk /\ lk_locked lk <> 0 /\ lk_cpu lk = Some i /\
    k_locks k' = <[l := mkSpinlock 0 (lk_name lk) None]> (k_locks k).
Proof.
  intros Hi H. unfold release, holding, get_lock, put_lock, mycpu, cpuid in H.
  inv_run; try discriminate.
  match goal with P : pop_off _ = Ret _ _ |- _ => apply pop_off_locks in P as [E Et] end.
  simpl in *. rewrite ?lookup_insert_eq in *. simplify_eq. rewrite ?Hi in *.
  match goal with P : bool_decide _ = true |- _ => apply bool_decide_eq_true in P; rewrite Nat2Z.id in P end.
  split; [done|]. eexists. split; [done|]. split; [done|]. split; [done|].
  rewrite E, insert_insert_eq. done.
Qed.

Lemma sys_step_inv s s' : sys_inv s -> sys_step s s' -> sys_inv s'.
Proof.
  intros (It & Ih & Il) Hs. destruct Hs as [s i l h hs k' Hh Hhs Hr|s i l h hs k' Hh Hhs Hr].
  - apply (acquire_inv _ _ _ i) in Hr as (Ht & lk & E1 & E2 & E3); [|simpl; eauto].
    simpl in *. split; [|split]; simpl.
    + intros j h'. rewrite list_lookup_insert. case_decide; [|by eauto]. intros [= <-].
      destruct_and!. subst. rewrite Ht. eauto.
    + intros j hs' l'. rewrite E3, list_lookup_insert, lookup_insert. intros Hj.
      destruct (decide (l = l')) as [<-|Hne].
      * case_decide as Hd; simplify_eq; [destruct Hd as [<- _]; split; [eauto|left]|].
        rewrite (Ih _ _ _ Hj), E1.
        assert (i <> j) by (intros ->; apply Hd; split; [done|by apply lookup_lt_Some in Hhs]).
        split; intros [n Hn]; simplify_eq.
      * case_decide as Hd; [destruct Hd as [<- _]; simplify_eq|].
        -- rewrite elem_of_cons, (Ih _ _ _ Hhs). split; [intros [->|]; done|by right].
        -- by rewrite (Ih _ _ _ Hj).
    + intros l' lk'. rewrite E3, lookup_insert. case_decide; [intros [= <-]; eauto|]. eauto.
  - apply (release_inv _ _ _ i) in Hr as (Ht & lk & E1 & E2 & E2' & E3); [|simpl; eauto].
    simpl in *. split; [|split]; simpl.
    + intros j h'. rewrite list_lookup_insert. case_decide; [|by eauto]. intros [= <-].
      destruct_and!. subst. rewrite Ht. eauto.
    + intros j hs' l'. rewrite E3, list_lookup_insert, lookup_insert. intros Hj.
      destruct (decide (l = l')) as [<-|Hne].
      * case_decide as Hd; simplify_eq.
        -- split; [intros [??]%list_elem_of_filter; done|intros [? [=]]].
        -- rewrite (Ih _ _ _ Hj), E1.
           assert (i <> j) by (intros ->; apply Hd; split; [done|by apply lookup_lt_Some in Hhs]).
           split; intros [n Hn]; [|done]. simplify_eq. simpl in E2'. congruence.
      * case_decide as Hd; [destruct Hd as [<- _]; simplify_eq|].
        -- rewrite list_elem_of_filter, (Ih _ _ _ Hhs). naive_solver.
        -- by rewrite (Ih _ _ _ Hj).
    + intros l' lk'. rewrite E3, lookup_insert. case_decide; [intros [= <-]; by left|]. eauto.
Qed.

Lemma sys_reach_inv s s' : sys_inv s -> sys_reach s s' -> sys_inv s'.
Proof. induction 2; eauto using sys_step_inv. Qed.

Lemma sys_init_inv s : sys_init s -> sys_inv s.
Proof.
  intros (It & Ih & Il). split; [done|]. split.
  - intros i hs l Hi. apply Ih in Hi as ->. split; [intros []%not_elem_of_nil|].
    intros [n Hn]. apply Il in Hn. done.
  - eauto.
Qed.

(** * Properties *)

(** [n] calls of [m]. *)
Fixpoint times {S : Type} (n : nat) (m : M S unit) : M S unit :=
  match n with
  | O => ret tt
  | S n' => do! m; times n' m
  end.

Lemma times_last {S : Type} (m : M S unit) n s s1 s2 :
  times n m s = Ret tt s1 -> m s1 = Ret tt s2 -> times (Datatypes.S n) m s = Ret tt s2.
Proof.
  revert s. induction n as [|n IH]; intros s E E2.
  - cbn in E. injection E as <-. cbn [times]. by rewrite (bind_run _ _ _ _ _ E2).
  - cbn [times] in E. apply bind_Ret_inv in E as (u & s3 & E1 & E3).
    change (times (Datatypes.S (Datatypes.S n)) m) with (do! m; times (Datatypes.S n) m).
    rewrite (bind_run _ _ _ _ _ E1). by apply IH.
Qed.

Lemma relax_pushed k : cpu_ok k -> relax (pushed k) = pushed k.
Proof.
  intros (i & c & OC). apply (relax_in _ i (cpu_off (intr k) c)); [by apply pushed_on_cpu|].
  pose proof (oc_noff _ _ _ OC). unfold cpu_off. simpl. lia.
Qed.

Lemma push_pop_run n : forall k, cpu_ok k ->
  exists k1, times n push_off k = Ret tt k1 /\ cpu_ok k1 /\ (n <> O -> intr k1 = false) /\
    times n pop_off k1 = Ret tt (if (n =? 0)%nat then k else relax k).
Proof.
  induction n as [|n IH]; intros k Hk; [by exists k|].
  destruct Hk as (i & c & OC).
  assert (Hp : cpu_ok (pushed k)) by (eexists _, _; by apply pushed_on_cpu).
  assert (Hoff : intr (pushed k) = false).
  { pose proof (pushed_on_cpu _ _ _ OC) as OP. apply (oc_off _ _ _ OP).
    pose proof (oc_noff _ _ _ OC). unfold cpu_off. simpl. lia. }
  destruct (IH (pushed k) Hp) as (k1 & E1 & Hk1 & Hoff1 & E2). exists k1.
  split; [cbn [times]; by rewrite (bind_run _ _ _ _ _ (push_off_run _ _ _ OC))|].
  split; [done|]. split.
  - intros _. destruct n; [|by apply Hoff1]. cbn in E1. by injection E1 as <-.
  - assert (E2' : times n pop_off k1 = Ret tt (pushed k)).
    { rewrite E2. destruct n; [done|]. simpl. rewrite relax_pushed; [done|]. by eexists _, _. }
    rewrite (times_last _ _ _ _ _ E2' (pop_off_pushed k _ _ _ OC eq_refl eq_refl)).
    by destruct k.
Qed.

(** push_off() and pop_off() nest: after any number of push_off() calls
    interrupts are off, and the same number of pop_off() calls puts the
    interrupt state and everything else back, but for the saved flag of a CPU
    that is outside all critical sections. *)
Theorem push_off_pop_off_nest n k :
  cpu_ok k ->
  exists k1 k2, times n push_off k = Ret tt k1 /\ (n <> O -> intr k1 = false) /\
    times n pop_off k1 = Ret tt k2 /\ relax k2 = relax k /\ intr k2 = intr k.
Proof.
  intros Hk. destruct (push_pop_run n k Hk) as (k1 & E1 & _ & Hoff & E2).
  exists k1, (if (n =? 0)%nat then k else relax k). split; [done|]. split; [done|]. split; [done|].
  destruct (n =? 0)%nat; [done|]. split; [apply relax_idem|done].
Qed.

(** A critical section: acquire() of a free lock returns with the lock held by
    this CPU and interrupts off, and changes no other lock; release() then puts
    back the state before acquire(), but for the saved interrupt flag of a CPU
    outside all critical sections. *)
Theorem acquire_release k l :
  cpu_ok k -> lock_free k l ->
  exists k1, acquire l k = Ret tt k1 /\ holding l k1 = Ret true k1 /\ intr k1 = false /\
    (forall l', l' <> l -> k_locks k1 !! l' = k_locks k !! l') /\
    release l k1 = Ret tt (relax k).
Proof.
  intros Hk Hl. exists (enter l k). split; [by apply acquire_run|].
  assert (Hr : release l (enter l k) = Ret tt (relax k)).
  { by rewrite (release_run k l (enter l k)). }
  split; [by eapply release_holding|]. split; [by apply enter_intr|]. split; [|done].
  intros l' Hne. simpl. rewrite lookup_alter. by case_decide.
Qed.

(** acquire() of a lock that this CPU already holds panics; of a lock that
    another CPU holds it spins; release() of a lock that this CPU does not hold
    panics. *)
Theorem lock_misuse k l i c lk :
  on_cpu k i c -> k_locks k !! l = Some lk ->
  (lk_locked lk <> 0 -> lk_cpu lk = Some i -> exists k', acquire l k = Panic "acquire" k') /\
  (lk_locked lk <> 0 -> lk_cpu lk <> Some i -> exists k', acquire l k = Spin k') /\
  (lk_locked lk = 0 \/ lk_cpu lk <> Some i -> release l k = Panic "release" k).
Proof.
  intros OC Hl. pose proof (pushed_on_cpu _ _ _ OC) as OP. unfold acquire, release.
  rewrite (bind_run _ _ _ _ _ (push_off_run _ _ _ OC)).
  rewrite (bind_run _ _ _ _ _ (holding_run (pushed k) l i _ lk OP Hl)).
  rewrite (bind_run _ _ _ _ _ (holding_run k l i _ lk OC Hl)).
  split; [|split].
  - intros H1 H2. exists (pushed k). rewrite (proj2 (Z.eqb_neq _ 0) H1), bool_decide_true by done. done.
  - intros H1 H2. exists (pushed k).
    pose proof (acquire_spin k l i c lk OC Hl H1 H2) as E. unfold acquire in E.
    rewrite (bind_run _ _ _ _ _ (push_off_run _ _ _ OC)) in E.
    by rewrite (bind_run _ _ _ _ _ (holding_run (pushed k) l i _ lk OP Hl)) in E.
  - intros [H1|H1]; [by rewrite H1|]. rewrite bool_decide_false by done. by rewrite andb_false_r.
Qed.


(** * Witnesses *)

Lemma boot_on_cpu : on_cpu boot 0 (mkCpu None no_context 0 0).
Proof. by split. Qed.

Lemma boot_cpu_ok : cpu_ok boot.
Proof. eexists _, _. apply boot_on_cpu. Qed.

(** Interrupts on, the lock of the console free, that of the log held by CPU 1. *)
Definition lock_sample : kernel :=
  set_k_locks (<[LCons := mkSpinlock 0 "cons" None]> {[LLog := mkSpinlock 1 "log" (Some 1%nat)]})
    (set_k_hart (mkHart 2 0 0 0 0 0 0 0) boot).

Lemma lock_sample_on_cpu : on_cpu lock_sample 0 (mkCpu None no_context 0 0).
Proof. by split. Qed.

Lemma push_off_pop_off_nest_witness :
  exists k1 k2, times 3 push_off lock_sample = Ret tt k1 /\ intr k1 = false /\
    times 3 pop_off k1 = Ret tt k2 /\ intr k2 = true.
Proof.
  destruct (push_off_pop_off_nest 3 lock_sample) as (k1 & k2 & E1 & H1 & E2 & _ & H2).
  - eexists _, _. apply lock_sample_on_cpu.
  - exists k1, k2. split; [exact E1|]. split; [by apply H1|]. split; [exact E2|exact H2].
Defined.

Lemma acquire_release_witness :
  exists k1, acquire LCons lock_sample = Ret tt k1 /\ holding LCons k1 = Ret true k1 /\
    release LCons k1 = Ret tt (relax lock_sample).
Proof.
  destruct (acquire_release lock_sample LCons) as (k1 & E1 & H1 & _ & _ & E2).
  - eexists _, _. apply lock_sample_on_cpu.
  - exists "cons". reflexivity.
  - exists k1. split; [exact E1|]. split; [exact H1|exact E2].
Defined.

Lemma lock_misuse_witness :
  (exists k', acquire LLog lock_sample = Spin k') /\
  release LLog lock_sample = Panic "release" lock_sample.
Proof.
  destruct (lock_misuse lock_sample LLog 0 _ _ lock_sample_on_cpu eq_refl) as (_ & H1 & H2).
  split; [by apply H1|]. apply H2. by right.
Defined.

(** Two harts; hart 1 has taken the console lock. *)
Definition sys0 : sys :=
  mkSys (set_k_locks {[LCons := mkSpinlock 0 "cons" None]} boot)
    [mkHart 0 0 0 0 0 0 0 0; mkHart 0 0 0 0 0 0 0 1] [[]; []].

