(* ===== verification/Kalloc.v ===== *)
(** kernel/kalloc.c: the physical page allocator.  The free list is threaded
    through the first word of the free pages; [free_pages] is the abstract list
    it represents. *)

From Stdlib Require Import ZArith Lia.
From stdpp Require Import base gmap strings numbers list.
From S2P Require Import Prelude Mem Riscv Kernel Spinlock.

Open Scope Z_scope.

Implicit Types (k : kernel) (m : mem) (p a : Z).

(** * Direct-mapped memory

    The kernel reads and writes physical memory at its own address; an access
    outside the RAM of memlayout.h faults. *)

Definition in_ram (a n : Z) : bool := (KERNBASE <=? a) && (a + n <=? PHYSTOP).

Definition k_mem (k : kernel) : mem := mm_mem (k_mm k).
Definition set_mem (m : mem) (k : kernel) : kernel := set_k_mm (set_mm_mem m (k_mm k)) k.

Definition kload (n : nat) (a : Z) : K Z :=
  if in_ram a (Z.of_nat n) then gets (fun k => ldn n (k_mem k) a) else fault "load".
Definition kstore (n : nat) (a v : Z) : K unit :=
  if in_ram a (Z.of_nat n) then modify (fun k => set_mem (stn n (k_mem k) a v) k)
  else fault "store".
Definition kmemset (dst c n : Z) : K unit :=
  if in_ram dst n then modify (fun k => set_mem (memset (k_mem k) dst c n) k)
  else fault "memset".
Definition kmemmove (dst src n : Z) : K unit :=
  if in_ram dst n && in_ram src n
  then modify (fun k => set_mem (memmove (k_mem k) dst src n) k)
  else fault "memmove".

Section Kalloc.
Context `{LinkerSymbols}.

(** * kalloc.c *)

Definition freelist : K Z := gets (fun k => mm_freelist (k_mm k)).
Definition set_freelist (r : Z) : K unit :=
  modify (fun k => set_k_mm (set_mm_freelist r (k_mm k)) k).

Definition kfree (pa : Z) : K unit :=
  if negb (pa mod PGSIZE =? 0) || (pa <? kend) || (PHYSTOP <=? pa) then panic "kfree" else
  do! kmemset pa 1 PGSIZE;
  do! acquire LKmem;
  let! next := freelist in
  do! kstore 8 pa next;
  do! set_freelist pa;
  release LKmem.

Definition kalloc : K Z :=
  do! acquire LKmem;
  let! r := freelist in
  do! (if negb (r =? 0) then let! next := kload 8 r in set_freelist next else ret tt);
  do! release LKmem;
  do! when (negb (r =? 0)) (kmemset r 5 PGSIZE);
  ret r.

(** for(; p + PGSIZE <= pa_end; p += PGSIZE) kfree(p); *)
Fixpoint freerange_loop (fuel : nat) (p pa_end : Z) : K unit :=
  match fuel with
  | O => nofuel
  | S f =>
      if p + PGSIZE <=? pa_end then do! kfree p; freerange_loop f (p + PGSIZE) pa_end
      else ret tt
  end.

Definition freerange (pa_start pa_end : Z) : K unit :=
  let p := PGROUNDUP pa_start in
  freerange_loop (Z.to_nat ((pa_end - p) / PGSIZE + 2)) p pa_end.

Definition kinit : K unit :=
  do! initlock LKmem "kmem";
  freerange kend PHYSTOP.

(** * Specification *)

(** A page that the allocator manages. *)
Definition ram_page (p : Z) : Prop := p mod 4096 = 0 /\ kend <= p < PHYSTOP.

Fixpoint freelist_rep (m : mem) (head : Z) (l : list Z) : Prop :=
  match l with
  | [] => head = 0
  | p :: l' => head = p /\ ram_page p /\ freelist_rep m (ld64 m p) l'
  end.

(** The allocator's free pages are [l], first to be allocated first. *)
Definition free_pages (k : kernel) (l : list Z) : Prop :=
  freelist_rep (k_mem k) (mm_freelist (k_mm k)) l /\ NoDup l.

(** The state in which the allocator can be called. *)
Definition mm_ready (k : kernel) : Prop := cpu_ok k /\ lock_free k LKmem.

Definition set_mm (m : mem) (head : Z) (k : kernel) : kernel := set_k_mm (mkMm m head) k.

(** [m'] differs from [m] at most on the page at [p]. *)
Definition page_frame (p : Z) (m m' : mem) : Prop :=
  forall a, ~ (p <= a < p + 4096) -> ld8 m' a = ld8 m a.

(** * Lemmas *)

Context `{!Layout}.

Lemma ram_page_in_ram p : ram_page p -> in_ram p 4096 = true.
Proof.
  intros [H1 H2]. unfold in_ram. destruct kend_range as [L1 L2].
  apply andb_true_iff. split; apply Z.leb_le; [lia|].
  change PHYSTOP with 0x88000000 in *. Z.div_mod_to_equations. lia.
Qed.

Lemma ram_page_nonzero p : ram_page p -> p <> 0.
Proof. intros [_ H2]. destruct kend_range as [L1 _]. unfold KERNBASE in L1. lia. Qed.

Lemma ram_page_is_page p : ram_page p -> is_page p.
Proof.
  intros [H1 H2]. destruct kend_range as [L1 _]. split; [done|].
  change PHYSTOP with 0x88000000 in *. unfold KERNBASE in L1. lia.
Qed.

Lemma ram_page_disjoint p q : ram_page p -> ram_page q -> p <> q -> p + 4096 <= q \/ q + 4096 <= p.
Proof. intros [H1 _] [H2 _] Hne. Z.div_mod_to_equations. lia. Qed.

Lemma in_ram_sub a n b j : in_ram a n = true -> a <= b -> b + j <= a + n -> in_ram b j = true.
Proof. unfold in_ram. rewrite !andb_true_iff, !Z.leb_le. lia. Qed.

Lemma freelist_rep_ext m m' l : forall head,
  (forall p, p ∈ l -> ld64 m' p = ld64 m p) -> freelist_rep m head l -> freelist_rep m' head l.
Proof.
  induction l as [|q l IH]; intros head Hm; simpl; [done|].
  intros (-> & Hq & Hl). split; [done|]. split; [done|].
  rewrite Hm by set_solver. apply IH; [|done]. intros; apply Hm; set_solver.
Qed.

Lemma freelist_rep_ram m l : forall head p, freelist_rep m head l -> p ∈ l -> ram_page p.
Proof.
  induction l as [|q l IH]; intros head p; simpl; [set_solver|].
  intros (-> & Hq & Hl) [->|Hp]%elem_of_cons; eauto.
Qed.

Lemma page_frame_ld64 p q m m' :
  page_frame p m m' -> ram_page p -> ram_page q -> p <> q ->
  forall o, 0 <= o <= 4088 -> ld64 m' (q + o) = ld64 m (q + o).
Proof.
  intros Hf Hp Hq Hne o Ho. apply ldn_ext. intros b Hb. apply Hf.
  pose proof (ram_page_disjoint p q Hp Hq Hne). lia.
Qed.

(** A write to a page that is not free keeps the free list. *)
Lemma freelist_rep_frame p m m' head l :
  page_frame p m m' -> ram_page p -> p ∉ l -> freelist_rep m head l -> freelist_rep m' head l.
Proof.
  intros Hf Hp Hn Hl. eapply freelist_rep_ext; [|done]. intros q Hq.
  rewrite <- (Z.add_0_r q). eapply page_frame_ld64; try done; [by eapply freelist_rep_ram|].
  by intros ->.
Qed.

Lemma memset_page_frame p c m : page_frame p m (memset m p c 4096).
Proof. intros a Ha. rewrite ld8_memset by lia. case_decide; [lia|done]. Qed.

Lemma stn_page_frame p a n v m :
  p <= a -> a + Z.of_nat n <= p + 4096 -> page_frame p m (stn n m a v).
Proof. intros H1 H2 b Hb. apply ld8_stn_out. lia. Qed.

Lemma page_frame_trans p m1 m2 m3 : page_frame p m1 m2 -> page_frame p m2 m3 -> page_frame p m1 m3.
Proof. intros H1 H2 a Ha. rewrite H2, H1 by done. done. Qed.

Lemma kload_run n a k : in_ram a (Z.of_nat n) = true -> kload n a k = Ret (ldn n (k_mem k) a) k.
Proof. intros E. unfold kload. by rewrite E. Qed.

Lemma kstore_run n a v k :
  in_ram a (Z.of_nat n) = true -> kstore n a v k = Ret tt (set_mem (stn n (k_mem k) a v) k).
Proof. intros E. unfold kstore. by rewrite E. Qed.

Lemma kmemset_run dst c n k :
  in_ram dst n = true -> kmemset dst c n k = Ret tt (set_mem (memset (k_mem k) dst c n) k).
Proof. intros E. unfold kmemset. by rewrite E. Qed.

Lemma mm_ready_relax k : mm_ready k -> mm_ready (relax k).
Proof. intros [H1 H2]. split; [by apply relax_cpu_ok|done]. Qed.

Lemma mm_ready_set_mm m h k : mm_ready k -> mm_ready (set_mm m h k).
Proof. intros [(i & c & OC) H2]. split; [|done]. exists i, c. by apply (on_cpu_ext k). Qed.

(** kalloc() with no free page. *)
Lemma kalloc_empty_run k : mm_ready k -> free_pages k [] -> kalloc k = Ret 0 (relax k).
Proof.
  intros [Hc Hl] [Hr _]. unfold kalloc.
  rewrite (bind_run _ _ _ _ _ (acquire_run _ _ Hc Hl)).
  rewrite bind_run with (a := 0) (s' := enter LKmem k).
  2: { unfold freelist, gets. simpl. by rewrite Hr. }
  simpl (negb _). cbv iota. rewrite bind_ret.
  erewrite bind_run; [|by apply (release_run k)].
  unfold when. rewrite bind_ret. unfold ret. f_equal.
Qed.

(** kalloc() takes the first free page and fills it with junk. *)
Lemma kalloc_run k p l :
  mm_ready k -> free_pages k (p :: l) ->
  kalloc k = Ret p (set_mm (memset (k_mem k) p 5 4096) (ld64 (k_mem k) p) (relax k)) /\
  free_pages (set_mm (memset (k_mem k) p 5 4096) (ld64 (k_mem k) p) (relax k)) l /\
  ram_page p.
Proof.
  intros [Hc Hl] [(Hh & Hp & Hr) Hnd]. pose proof (ram_page_in_ram p Hp) as Hram.
  apply NoDup_cons in Hnd as [Hnp Hnd]. split; [|split; [|done]].
  - unfold kalloc. rewrite (bind_run _ _ _ _ _ (acquire_run _ _ Hc Hl)).
    rewrite bind_run with (a := p) (s' := enter LKmem k).
    2: { unfold freelist, gets. simpl. by rewrite Hh. }
    rewrite (proj2 (Z.eqb_neq p 0) (ram_page_nonzero p Hp)). simpl (negb _). cbv iota.
    rewrite bind_run with (a := tt)
      (s' := set_k_mm (mkMm (k_mem k) (ld64 (k_mem k) p)) (enter LKmem k)).
    2: { erewrite bind_run; [|apply kload_run; eapply in_ram_sub; [exact Hram|lia|lia]].
         unfold set_freelist, modify. f_equal. }
    erewrite bind_run; [|by apply (release_run k)].
    unfold when. erewrite bind_run; [|by apply kmemset_run]. unfold ret. f_equal.
  - split; [|done]. simpl. eapply freelist_rep_frame; [apply memset_page_frame|done|done|done].
Qed.

(** kfree() puts a page in front of the free list. *)
Lemma kfree_run k p l :
  mm_ready k -> free_pages k l -> ram_page p -> p ∉ l ->
  exists m', kfree p k = Ret tt (set_mm m' p (relax k)) /\
    page_frame p (k_mem k) m' /\
    free_pages (set_mm m' p (relax k)) (p :: l).
Proof.
  intros [Hc Hl] [Hr Hnd] Hp Hnp. pose proof (ram_page_in_ram p Hp) as Hram.
  set (m1 := memset (k_mem k) p 1 4096). set (h := mm_freelist (k_mm k)).
  assert (Hf : page_frame p (k_mem k) (stn 8 m1 p h)).
  { eapply page_frame_trans; [apply memset_page_frame|apply stn_page_frame; lia]. }
  exists (stn 8 m1 p h). split; [|split; [done|split; [simpl; split; [done|split; [done|]]|by constructor]]].
  - unfold kfree. destruct Hp as [Hp1 Hp2].
    change (p mod PGSIZE) with (p mod 4096). rewrite Hp1. simpl (negb _).
    destruct (Z.ltb_spec p kend); [lia|]. destruct (Z.leb_spec PHYSTOP p); [lia|].
    simpl (_ || _). cbv iota.
    rewrite (bind_run _ _ _ _ _ (kmemset_run p 1 PGSIZE k Hram)). fold m1.
    assert (Hc1 : cpu_ok (set_mem m1 k)).
    { destruct Hc as (i & c & OC). exists i, c. by apply (on_cpu_ext k). }
    rewrite (bind_run _ _ _ _ _ (acquire_run _ _ Hc1 Hl)).
    erewrite bind_run; [|reflexivity].
    erewrite bind_run; [|apply kstore_run; eapply in_ram_sub; [exact Hram|lia|lia]].
    erewrite bind_run; [|reflexivity].
    rewrite (release_run (set_mem m1 k)); [reflexivity|done..].
  - change (freelist_rep (stn 8 m1 p h) (ld64 (stn 8 m1 p h) p) l).
    assert (Hh : ld64 (stn 8 m1 p h) p = h).
    { apply ld64_st64_eq. subst h. destruct l as [|q l]; simpl in Hr; [lia|].
      destruct Hr as (-> & [_ Hq] & _). destruct kend_range as [L1 L2].
      change PHYSTOP with 0x88000000 in *. unfold KERNBASE in L1. lia. }
    rewrite Hh. by eapply freelist_rep_frame.
Qed.

(** * States that differ in memory only

    [mm_only k k']: [k'] is [k] but for physical memory and the free list, and
    for the saved interrupt flag of a CPU outside any push_off. *)

Definition mm_only (k k' : kernel) : Prop :=
  exists m h, k' = set_mm m h k \/ k' = set_mm m h (relax k).

Lemma relax_set_mm m h k : relax (set_mm m h k) = set_mm m h (relax k).
Proof. done. Qed.

Lemma set_mm_set_mm m h m' h' k : set_mm m h (set_mm m' h' k) = set_mm m h k.
Proof. done. Qed.

Lemma set_mm_id k : set_mm (k_mem k) (mm_freelist (k_mm k)) k = k.
Proof. by destruct k as [? ? ? []]. Qed.

Lemma mm_only_refl k : mm_only k k.
Proof. eexists _, _. left. symmetry. apply set_mm_id. Qed.

Lemma mm_only_relax k : mm_only k (relax k).
Proof. exists (k_mem k), (mm_freelist (k_mm k)). right. symmetry. apply (set_mm_id (relax k)). Qed.

Lemma mm_only_set_mm m h k : mm_only k (set_mm m h k).
Proof. exists m, h. by left. Qed.

Lemma mm_only_trans k1 k2 k3 : mm_only k1 k2 -> mm_only k2 k3 -> mm_only k1 k3.
Proof.
  intros (m & h & [->| ->]) (m' & h' & [->| ->]); exists m', h';
    rewrite ?relax_set_mm, ?relax_idem, ?set_mm_set_mm; auto.
Qed.

Lemma mm_only_ready k k' : mm_only k k' -> mm_ready k -> mm_ready k'.
Proof. intros (m & h & [->| ->]) Hk; auto using mm_ready_set_mm, mm_ready_relax. Qed.

Lemma mm_only_kalloc k m h : mm_only k (set_mm m h (relax k)).
Proof. exists m, h. by right. Qed.

(** * freerange() and kinit() *)

(** [n] consecutive pages from [p] on. *)
Fixpoint pages_from (p : Z) (n : nat) : list Z :=
  match n with
  | O => []
  | S n' => p :: pages_from (p + 4096) n'
  end.

Lemma elem_of_pages_from n : forall p q,
  q ∈ pages_from p n <-> exists i, 0 <= i < Z.of_nat n /\ q = p + 4096 * i.
Proof.
  induction n as [|n IH]; intros p q; simpl.
  - split; [set_solver|]. intros (i & Hi & _). lia.
  - rewrite elem_of_cons, IH. split.
    + intros [->|(i & Hi & ->)]; [exists 0; lia|exists (i + 1); lia].
    + intros (i & Hi & ->). destruct (decide (i = 0)) as [->|]; [left; lia|].
      right. exists (i - 1). lia.
Qed.

Lemma freerange_loop_run n : forall fuel k p l,
  mm_ready k -> free_pages k l -> p mod 4096 = 0 -> kend <= p ->
  p + 4096 * Z.of_nat n <= PHYSTOP < p + 4096 * (Z.of_nat n + 1) ->
  (forall q, q ∈ l -> q < p) -> (n < fuel)%nat ->
  exists k', freerange_loop fuel p PHYSTOP k = Ret tt k' /\ mm_only k k' /\
    free_pages k' (rev (pages_from p n) ++ l).
Proof.
  induction n as [|n IH]; intros fuel k p l Hk Hl Hp Hend Hn Hq Hfuel;
    (destruct fuel as [|fuel]; [lia|]); cbn [freerange_loop].
  - destruct (Z.leb_spec (p + PGSIZE) PHYSTOP); [unfold PGSIZE in *; lia|].
    exists k. split; [done|]. split; [apply mm_only_refl|done].
  - destruct (Z.leb_spec (p + PGSIZE) PHYSTOP); [|unfold PGSIZE in *; lia].
    assert (Hram : ram_page p) by (split; [done|lia]).
    destruct (kfree_run k p l) as (m & E & _ & Hl'); [done..| |].
    { intros Hin. apply Hq in Hin. lia. }
    rewrite (bind_run _ _ _ _ _ E).
    destruct (IH fuel (set_mm m p (relax k)) (p + PGSIZE) (p :: l)) as (k' & E' & Ho & Hl2).
    + eapply mm_only_ready; [apply mm_only_kalloc|done].
    + done.
    + change PGSIZE with (1 * 4096). by rewrite Z.mod_add by lia.
    + unfold PGSIZE. lia.
    + unfold PGSIZE. lia.
    + intros q [->|Hin]%elem_of_cons; unfold PGSIZE; [lia|]. apply Hq in Hin. lia.
    + lia.
    + exists k'. split; [done|]. split; [by eapply mm_only_trans; [apply mm_only_kalloc|]|].
      simpl. rewrite <- app_assoc. done.
Qed.

(** * Correctness *)

Lemma kfree_panic_run k p : ~ ram_page p -> kfree p k = Panic "kfree" k.
Proof.
  intros Hn. unfold kfree.
  destruct (negb (p mod PGSIZE =? 0)) eqn:E1; [done|].
  destruct (p <? kend) eqn:E2; [done|].
  destruct (PHYSTOP <=? p) eqn:E3; [done|]. bool_prop.
  destruct Hn. split; [done|lia].
Qed.

Lemma mem_set_mm m h k : k_mem (set_mm m h k) = m.
Proof. done. Qed.

(** C34. kalloc() returns the first page of the free list, filled with the byte
    5, removes exactly that page from the list, and changes no other byte of
    memory; with an empty list it returns 0 and leaves memory as it is.  In
    both cases the lock is free again and the CPU's interrupt state restored. *)
Theorem kalloc_correct k l :
  mm_ready k -> free_pages k l ->
  exists r k', kalloc k = Ret r k' /\ mm_only k k' /\ mm_ready k' /\
    match l with
    | [] => r = 0 /\ free_pages k' [] /\ k_mem k' = k_mem k
    | p :: l' =>
        r = p /\ ram_page p /\ (p ∉ l') /\ free_pages k' l' /\
        (forall a, p <= a < p + 4096 -> ld8 (k_mem k') a = 5) /\
        page_frame p (k_mem k) (k_mem k')
    end.
Proof.
  intros Hk Hl. destruct l as [|p l].
  - exists 0, (relax k). rewrite kalloc_empty_run by done.
    split; [done|]. split; [apply mm_only_relax|]. split; [by apply mm_ready_relax|done].
  - destruct (kalloc_run k p l Hk Hl) as (E & Hl' & Hp).
    eexists _, _. split; [exact E|]. split; [apply mm_only_kalloc|].
    split; [eapply mm_only_ready; [apply mm_only_kalloc|done]|].
    rewrite mem_set_mm. destruct Hl as [_ Hnd]. apply NoDup_cons in Hnd as [Hnp _].
    split; [done|]. split; [done|]. split; [done|]. split; [done|]. split.
    + intros a Ha. rewrite ld8_memset by lia. case_decide; [done|lia].
    + apply memset_page_frame.
Qed.

(** kfree() of a page the allocator manages puts it in front of the free
    list and writes to no other page; a page that is not page-aligned or not in
    [end, PHYSTOP) is rejected with a panic before anything is changed. *)
Theorem kfree_correct k l p :
  mm_ready k -> free_pages k l ->
  (~ ram_page p -> kfree p k = Panic "kfree" k) /\
  (ram_page p -> p ∉ l ->
   exists k', kfree p k = Ret tt k' /\ mm_only k k' /\ mm_ready k' /\
     free_pages k' (p :: l) /\ page_frame p (k_mem k) (k_mem k')).
Proof.
  intros Hk Hl. split; [apply kfree_panic_run|]. intros Hp Hn.
  destruct (kfree_run k p l Hk Hl Hp Hn) as (m & E & Hf & Hl').
  eexists. split; [exact E|]. split; [apply mm_only_kalloc|].
  split; [eapply mm_only_ready; [apply mm_only_kalloc|done]|done].
Qed.

(** C35. kinit() terminates and hands the allocator every page between the end of
    the kernel, rounded up to a page, and PHYSTOP, each exactly once, highest
    address first. *)
Theorem kinit_correct k :
  cpu_ok k -> mm_freelist (k_mm k) = 0 ->
  exists k', kinit k = Ret tt k' /\ mm_ready k' /\
    free_pages k' (rev (pages_from (PGROUNDUP kend)
                         (Z.to_nat ((PHYSTOP - PGROUNDUP kend) / 4096)))).
Proof.
  intros (i & c & OC) Hf. unfold kinit.
  set (k1 := set_k_locks (<[LKmem := mkSpinlock 0 "kmem" None]> (k_locks k)) k).
  rewrite bind_run with (a := tt) (s' := k1) by done. unfold freerange.
  assert (Hk1 : mm_ready k1).
  { split; [exists i, c; by apply (on_cpu_ext k)|exists "kmem"; apply lookup_insert_eq]. }
  destruct kend_range as [L1 L2]. change PHYSTOP with 0x88000000 in L2. unfold KERNBASE in L1.
  destruct (PGROUNDUP_spec kend) as [Ha Hb]; [lia|].
  assert (Hle : PGROUNDUP kend <= PHYSTOP).
  { change PHYSTOP with 0x88000000. Z.div_mod_to_equations. lia. }
  destruct (freerange_loop_run (Z.to_nat ((PHYSTOP - PGROUNDUP kend) / 4096))
              (Z.to_nat ((PHYSTOP - PGROUNDUP kend) / PGSIZE + 2)) k1 (PGROUNDUP kend) [])
    as (k' & E & Ho & Hl); [done|..].
  - by split; [|constructor].
  - done.
  - lia.
  - rewrite Z2Nat.id by (apply Z.div_pos; lia). Z.div_mod_to_equations. lia.
  - set_solver.
  - unfold PGSIZE. pose proof (Z.div_pos (PHYSTOP - PGROUNDUP kend) 4096). lia.
  - exists k'. split; [done|]. split; [by eapply mm_only_ready|]. by rewrite app_nil_r in Hl.
Qed.

End Kalloc.

(** * Witnesses *)

(** A kernel image of 0x22000 bytes. *)
#[export] Instance sample_symbols : LinkerSymbols :=
  {| etext := 0x80008000; kend := 0x80022000; trampoline := 0x80007000; uservec := 0x80007000;
     userret := 0x8000709c; kernelvec := 0x80005000; usertrap_addr := 0x80001a00;
     forkret_addr := 0x80001900 |}.

#[export] Instance sample_layout : Layout.
Proof. split; by vm_compute. Qed.

(** The boot state with a free list of two pages. *)
Definition two_pages : kernel :=
  set_k_locks {[LKmem := mkSpinlock 0 "kmem" None]}
    (set_mm (st64 ∅ 0x80023000 0x80024000) 0x80023000 boot).

Lemma two_pages_ready : mm_ready two_pages.
Proof.
  split; [eexists _, _; apply (on_cpu_ext boot); [done|done|apply boot_on_cpu]|].
  exists "kmem". reflexivity.
Qed.

Lemma two_pages_free : free_pages two_pages [0x80023000; 0x80024000].
Proof.
  split; [|apply (bool_decide_unpack _); by vm_compute].
  simpl. unfold ram_page. repeat split; by vm_compute.
Qed.

Lemma kalloc_correct_witness :
  exists r k', kalloc two_pages = Ret r k' /\ r = 0x80023000 /\ free_pages k' [0x80024000].
Proof.
  destruct (kalloc_correct two_pages _ two_pages_ready two_pages_free)
    as (r & k' & E & _ & _ & Hr & _ & _ & Hl & _).
  exists r, k'. split; [exact E|]. split; [exact Hr|exact Hl].
Defined.

Lemma kfree_correct_witness :
  (exists k', kfree 0x80025000 two_pages = Ret tt k' /\
     free_pages k' [0x80025000; 0x80023000; 0x80024000]) /\
  kfree 0x80025001 two_pages = Panic "kfree" two_pages.
Proof.
  split.
  - destruct (kfree_correct two_pages _ 0x80025000 two_pages_ready two_pages_free)
      as [_ H].
    destruct H as (k' & E & _ & _ & Hl & _).
    + split; by vm_compute.
    + apply (bool_decide_unpack _); by vm_compute.
    + exists k'. split; [exact E|exact Hl].
  - apply (kfree_correct two_pages _ _ two_pages_ready two_pages_free).
    intros [H _]. by vm_compute in H.
Defined.

Lemma kinit_correct_witness :
  exists k', kinit boot = Ret tt k' /\ mm_ready k'.
Proof.
  destruct (kinit_correct boot boot_cpu_ok eq_refl) as (k' & E & Hr & _).
  exists k'. split; [exact E|exact Hr].
Defined.
