(* ===== verification/Vm.v ===== *)
(** kernel/vm.c, kernel/vmcopyin.c and the page-table part of kernel/proc.c:
    three-level Sv39 page tables in physical memory.  This file holds the
    operations; [VmTree] and [VmMap] prove them correct. *)

From Stdlib Require Import ZArith Lia.
From stdpp Require Import base gmap list_numbers strings numbers list.
From S2P Require Import Prelude Mem Riscv Kernel Spinlock Kalloc.

Open Scope Z_scope.

(** A C test of a bit mask: (x & mask) != 0. *)
Definition has (x mask : Z) : bool := negb (Z.land x mask =? 0).

(** A loop over the elements of [l] with no early exit. *)
Fixpoint each {S X : Type} (l : list X) (body : X -> M S unit) : M S unit :=
  match l with
  | [] => ret tt
  | x :: l' => do! body x; each l' body
  end.

(** Store the bytes of a kernel buffer at a physical address. *)
Definition kput (a : Z) (l : list Z) : K unit :=
  if in_ram a (Z.of_nat (length l)) then modify (fun k => set_mem (st_bytes (k_mem k) a l) k)
  else fault "memmove".

Section Vm.
Context `{LinkerSymbols}.

(** * walk *)

(** for(int level = 2; level > 0; level--) ... return &pagetable[PX(0, va)]; *)
Fixpoint walk_loop (level : nat) (pagetable va : Z) (alloc : bool) : K Z :=
  match level with
  | O => ret (pagetable + 8 * PX 0 va)
  | S level' =>
      let pte := pagetable + 8 * PX (Z.of_nat level) va in
      let! v := kload 8 pte in
      if has v PTE_V then walk_loop level' (PTE2PA v) va alloc
      else if negb alloc then ret 0
      else
        let! pg := kalloc in
        if pg =? 0 then ret 0 else
        do! kmemset pg 0 PGSIZE;
        do! kstore 8 pte (Z.lor (PA2PTE pg) PTE_V);
        walk_loop level' pg va alloc
  end.

Definition walk (pagetable va : Z) (alloc : bool) : K Z :=
  if MAXVA <=? va then panic "walk" else walk_loop 2 pagetable va alloc.

Definition walkaddr (pagetable va : Z) : K Z :=
  if MAXVA <=? va then ret 0 else
  let! pte := walk pagetable va false in
  if pte =? 0 then ret 0 else
  let! v := kload 8 pte in
  if negb (has v PTE_V) then ret 0 else
  if negb (has v PTE_U) then ret 0 else
  ret (PTE2PA v).

(** * mappages *)

(** for(;;){ ... if(a == last) break; a += PGSIZE; pa += PGSIZE; } *)
Fixpoint mappages_loop (fuel : nat) (pagetable a last pa perm : Z) : K Z :=
  match fuel with
  | O => nofuel
  | S f =>
      let! pte := walk pagetable a true in
      if pte =? 0 then ret (-1) else
      let! v := kload 8 pte in
      if has v PTE_V then panic "mappages: remap" else
      do! kstore 8 pte (Z.lor (Z.lor (PA2PTE pa) perm) PTE_V);
      if a =? last then ret 0
      else mappages_loop f pagetable (u64 (a + PGSIZE)) last (u64 (pa + PGSIZE)) perm
  end.

Definition mappages (pagetable va size pa perm : Z) : K Z :=
  if negb (va mod PGSIZE =? 0) then panic "mappages: va not aligned" else
  if negb (size mod PGSIZE =? 0) then panic "mappages: size not aligned" else
  if size =? 0 then panic "mappages: size" else
  mappages_loop (Z.to_nat (size / PGSIZE)) pagetable va (u64 (va + size - PGSIZE)) pa perm.

Definition kvmmap (kpgtbl va pa sz perm : Z) : K unit :=
  let! r := mappages kpgtbl va sz pa perm in
  if negb (r =? 0) then panic "kvmmap" else ret tt.

(** * Unmapping and freeing *)

(** for(a = va; a < va + npages*PGSIZE; a += PGSIZE) *)
Fixpoint uvmunmap_loop (fuel : nat) (pagetable a last : Z) (do_free : bool) : K unit :=
  match fuel with
  | O => nofuel
  | S f =>
      if a <? last then
        let! pte := walk pagetable a false in
        if pte =? 0 then panic "uvmunmap: walk" else
        let! v := kload 8 pte in
        if negb (has v PTE_V) then panic "uvmunmap: not mapped" else
        if PTE_FLAGS v =? PTE_V then panic "uvmunmap: not a leaf" else
        do! when do_free (kfree (PTE2PA v));
        do! kstore 8 pte 0;
        uvmunmap_loop f pagetable (u64 (a + PGSIZE)) last do_free
      else ret tt
  end.

Definition uvmunmap (pagetable va npages : Z) (do_free : bool) : K unit :=
  if negb (va mod PGSIZE =? 0) then panic "uvmunmap: not aligned" else
  uvmunmap_loop (S (Z.to_nat npages)) pagetable va (u64 (va + npages * PGSIZE)) do_free.

Definition uvmcreate : K Z :=
  let! pagetable := kalloc in
  if pagetable =? 0 then ret 0 else
  do! kmemset pagetable 0 PGSIZE;
  ret pagetable.

Definition uvmfirst (pagetable : Z) (src : list Z) (sz : Z) : K unit :=
  if PGSIZE <=? sz then panic "uvmfirst: more than a page" else
  let! mem := kalloc in
  do! kmemset mem 0 PGSIZE;
  let! _ := mappages pagetable 0 PGSIZE mem (Z.lor (Z.lor (Z.lor PTE_W PTE_R) PTE_X) PTE_U) in
  kput mem (take (Z.to_nat sz) src).

Definition uvmdealloc (pagetable oldsz newsz : Z) : K Z :=
  if oldsz <=? newsz then ret oldsz else
  do! when (PGROUNDUP newsz <? PGROUNDUP oldsz)
        (let npages := i32 (u64 (PGROUNDUP oldsz - PGROUNDUP newsz) / PGSIZE) in
         uvmunmap pagetable (PGROUNDUP newsz) (u64 npages) true);
  ret newsz.

(** for(a = oldsz; a < newsz; a += PGSIZE); [oldsz] is already rounded up. *)
Fixpoint uvmalloc_loop (fuel : nat) (pagetable a oldsz newsz xperm : Z) : K Z :=
  match fuel with
  | O => nofuel
  | S f =>
      if a <? newsz then
        let! mem := kalloc in
        if mem =? 0 then
          do! uvmdealloc pagetable a oldsz; ret 0
        else
        do! kmemset mem 0 PGSIZE;
        let! r := mappages pagetable a PGSIZE mem (Z.lor (Z.lor PTE_R PTE_U) xperm) in
        if negb (r =? 0) then
          do! kfree mem;
          do! uvmdealloc pagetable a oldsz;
          ret 0
        else uvmalloc_loop f pagetable (u64 (a + PGSIZE)) oldsz newsz xperm
      else ret newsz
  end.

Definition uvmalloc (pagetable oldsz newsz xperm : Z) : K Z :=
  if newsz <? oldsz then ret oldsz else
  let oldsz := PGROUNDUP oldsz in
  uvmalloc_loop (S (Z.to_nat ((newsz - oldsz + PGSIZE - 1) / PGSIZE)))
    pagetable oldsz oldsz newsz xperm.

(** Recursively free page-table pages; [depth] bounds the recursion, and three
    levels are all that walk() creates. *)
Fixpoint freewalk (depth : nat) (pagetable : Z) : K unit :=
  match depth with
  | O => nofuel
  | S d =>
      do! each (seqZ 0 512) (fun i =>
        let! pte := kload 8 (pagetable + 8 * i) in
        if has pte PTE_V && negb (has pte (Z.lor (Z.lor PTE_R PTE_W) PTE_X)) then
          let child := PTE2PA pte in
          do! freewalk d child;
          kstore 8 (pagetable + 8 * i) 0
        else if has pte PTE_V then panic "freewalk: leaf"
        else ret tt);
      kfree pagetable
  end.

Definition uvmfree (pagetable sz : Z) : K unit :=
  do! when (0 <? sz) (uvmunmap pagetable 0 (PGROUNDUP sz / PGSIZE) true);
  freewalk 3 pagetable.

(** for(i = 0; i < sz; i += PGSIZE) *)
Fixpoint uvmcopy_loop (fuel : nat) (old new i sz : Z) : K Z :=
  match fuel with
  | O => nofuel
  | S f =>
      if i <? sz then
        let! pte := walk old i false in
        if pte =? 0 then panic "uvmcopy: pte should exist" else
        let! v := kload 8 pte in
        if negb (has v PTE_V) then panic "uvmcopy: page not present" else
        let pa := PTE2PA v in
        let flags := PTE_FLAGS v in
        let! mem := kalloc in
        if mem =? 0 then
          do! uvmunmap new 0 (i / PGSIZE) true; ret (-1)
        else
        do! kmemmove mem pa PGSIZE;
        let! r := mappages new i PGSIZE mem flags in
        if negb (r =? 0) then
          do! kfree mem;
          do! uvmunmap new 0 (i / PGSIZE) true;
          ret (-1)
        else uvmcopy_loop f old new (u64 (i + PGSIZE)) sz
      else ret 0
  end.

Definition uvmcopy (old new sz : Z) : K Z :=
  uvmcopy_loop (S (Z.to_nat ((sz + PGSIZE - 1) / PGSIZE))) old new 0 sz.

Definition uvmclear (pagetable va : Z) : K unit :=
  let! pte := walk pagetable va false in
  if pte =? 0 then panic "uvmclear" else
  let! v := kload 8 pte in
  kstore 8 pte (Z.land v (u64 (Z.lnot PTE_U))).

(** * Copying to user memory *)

(** while(len > 0); [src] is the rest of the kernel buffer. *)
Fixpoint copyout_loop (fuel : nat) (pagetable dstva : Z) (src : list Z) (len : Z) : K Z :=
  match fuel with
  | O => nofuel
  | S f =>
      if 0 <? len then
        let va0 := PGROUNDDOWN dstva in
        if MAXVA <=? va0 then ret (-1) else
        let! pte := walk pagetable va0 false in
        if pte =? 0 then ret (-1) else
        let! v := kload 8 pte in
        if negb (has v PTE_V) || negb (has v PTE_U) || negb (has v PTE_W) then ret (-1) else
        let pa0 := PTE2PA v in
        let n := PGSIZE - (dstva - va0) in
        let n := if len <? n then len else n in
        do! kput (pa0 + (dstva - va0)) (take (Z.to_nat n) src);
        copyout_loop f pagetable (u64 (va0 + PGSIZE)) (drop (Z.to_nat n) src) (len - n)
      else ret 0
  end.

Definition copyout (pagetable dstva : Z) (src : list Z) (len : Z) : K Z :=
  copyout_loop (S (S (Z.to_nat (len / PGSIZE + 1)))) pagetable dstva src len.

(** * The per-process kernel page table *)

(** for(i = oldsz; i < newsz; i += PGSIZE); [oldsz] is already rounded up. *)
Fixpoint u2kvmcopy_loop (fuel : nat) (pagetable kpagetable i newsz : Z) : K unit :=
  match fuel with
  | O => nofuel
  | S f =>
      if i <? newsz then
        let! pte_from := walk pagetable i false in
        if pte_from =? 0 then panic "u2kvmcopy: src pte does not exist" else
        let! pte_to := walk kpagetable i true in
        if pte_to =? 0 then panic "u2kvmcopy: pte walk failed" else
        let! v := kload 8 pte_from in
        let pa := PTE2PA v in
        let flags := u32 (Z.land (PTE_FLAGS v) (u64 (Z.lnot PTE_U))) in
        do! kstore 8 pte_to (Z.lor (PA2PTE pa) flags);
        u2kvmcopy_loop f pagetable kpagetable (u64 (i + PGSIZE)) newsz
      else ret tt
  end.

Definition u2kvmcopy (pagetable kpagetable oldsz newsz : Z) : K unit :=
  if newsz <? oldsz then ret tt else
  let oldsz := PGROUNDUP oldsz in
  u2kvmcopy_loop (S (Z.to_nat ((newsz - oldsz + PGSIZE - 1) / PGSIZE)))
    pagetable kpagetable oldsz newsz.

(** The body is one early return. *)
Definition kvmdealloc (pagetable oldsz newsz : Z) : K unit :=
  if oldsz <=? newsz then ret tt else ret tt.

(** for(p = proc; p < &proc[NPROC]; p++), proc.c *)
Definition proc_mapstacks (kpgtbl : Z) : K unit :=
  each (seqZ 0 NPROC) (fun i =>
    let! pa := kalloc in
    if pa =? 0 then panic "kalloc" else
    let va := KSTACK i in
    kvmmap kpgtbl va pa PGSIZE (Z.lor PTE_R PTE_W)).

Definition kvmmake : K Z :=
  let! kpgtbl := kalloc in
  do! kmemset kpgtbl 0 PGSIZE;
  do! kvmmap kpgtbl UART0 UART0 PGSIZE (Z.lor PTE_R PTE_W);
  do! kvmmap kpgtbl VIRTIO0 VIRTIO0 PGSIZE (Z.lor PTE_R PTE_W);
  do! kvmmap kpgtbl PLIC PLIC 0x400000 (Z.lor PTE_R PTE_W);
  do! kvmmap kpgtbl KERNBASE KERNBASE (u64 (etext - KERNBASE)) (Z.lor PTE_R PTE_X);
  do! kvmmap kpgtbl etext etext (u64 (PHYSTOP - etext)) (Z.lor PTE_R PTE_W);
  do! kvmmap kpgtbl TRAMPOLINE trampoline PGSIZE (Z.lor PTE_R PTE_X);
  do! proc_mapstacks kpgtbl;
  ret kpgtbl.

Definition kvminit : K unit :=
  let! kpgtbl := kvmmake in
  modify (set_k_kernel_pagetable kpgtbl).

Definition w_satp (x : Z) : K unit := modify (fun k => set_k_hart (set_h_satp x (k_hart k)) k).
Definition r_satp : K Z := gets (fun k => h_satp (k_hart k)).

(** The TLB is not part of the state: every access uses the tables in memory,
    so sfence_vma() has no effect. *)
Definition sfence_vma : K unit := ret tt.

Definition kvminithart : K unit :=
  do! sfence_vma;
  let! kpgtbl := gets k_kernel_pagetable in
  do! w_satp (MAKE_SATP kpgtbl);
  sfence_vma.

Definition proc_kpagetable_init : K Z :=
  let! kpagetable := uvmcreate in
  if kpagetable =? 0 then ret 0 else
  do! kvmmap kpagetable UART0 UART0 PGSIZE (Z.lor PTE_R PTE_W);
  do! kvmmap kpagetable VIRTIO0 VIRTIO0 PGSIZE (Z.lor PTE_R PTE_W);
  do! kvmmap kpagetable CLINT CLINT 0x10000 (Z.lor PTE_R PTE_W);
  do! kvmmap kpagetable PLIC PLIC 0x400000 (Z.lor PTE_R PTE_W);
  do! kvmmap kpagetable KERNBASE KERNBASE (u64 (etext - KERNBASE)) (Z.lor PTE_R PTE_X);
  do! kvmmap kpagetable etext etext (u64 (PHYSTOP - etext)) (Z.lor PTE_R PTE_W);
  do! kvmmap kpagetable TRAMPOLINE trampoline PGSIZE (Z.lor PTE_R PTE_X);
  ret kpagetable.

(** Free the pages of a kernel page table, not the memory it maps. *)
Fixpoint proc_free_kpagetable (depth : nat) (pagetable : Z) : K unit :=
  match depth with
  | O => nofuel
  | S d =>
      do! each (seqZ 0 512) (fun i =>
        let! pte := kload 8 (pagetable + 8 * i) in
        if has pte PTE_V && negb (has pte (Z.lor (Z.lor PTE_R PTE_W) PTE_X)) then
          let child := PTE2PA pte in
          do! proc_free_kpagetable d child;
          kstore 8 (pagetable + 8 * i) 0
        else if has pte PTE_V then kstore 8 (pagetable + 8 * i) 0
        else ret tt);
      kfree pagetable
  end.

(** proc_pagetable(p); the argument is p->trapframe. *)
Definition proc_pagetable (trapframe : Z) : K Z :=
  let! pagetable := uvmcreate in
  if pagetable =? 0 then ret 0 else
  let! r := mappages pagetable TRAMPOLINE PGSIZE trampoline (Z.lor PTE_R PTE_X) in
  if r <? 0 then do! uvmfree pagetable 0; ret 0 else
  let! r := mappages pagetable TRAPFRAME PGSIZE trapframe (Z.lor PTE_R PTE_W) in
  if r <? 0 then
    do! uvmunmap pagetable TRAMPOLINE 1 false;
    do! uvmfree pagetable 0;
    ret 0
  else ret pagetable.

Definition proc_freepagetable (pagetable sz : Z) : K unit :=
  do! uvmunmap pagetable TRAMPOLINE 1 false;
  do! uvmunmap pagetable TRAPFRAME 1 false;
  uvmfree pagetable sz.

End Vm.
