(* ===== verification/VmTree.v ===== *)
(** The three-level page-table tree in physical memory: its well-formedness,
    and the correctness of walk(). *)

From Stdlib Require Import ZArith Lia.
From stdpp Require Import base gmap list_numbers strings numbers list.
From S2P Require Import Prelude Mem Riscv Kernel Spinlock Kalloc Vm.

Open Scope Z_scope.

Implicit Types (k : kernel) (m : mem) (p q a va : Z).

(** * Shape of a page table *)

(** The place of a page-table page in the tree: the root, the level-1 page
    under root entry [i], the level-0 page under entry [j] of that page. *)
Inductive role : Type := Root | L1 (i : Z) | L0 (i j : Z).

#[export] Instance role_eq_dec : EqDecision role.
Proof. solve_decision. Defined.

(** Which page plays each role. *)
Abbreviation shape := (role -> option Z).

Definition child (r : role) (idx : Z) : option role :=
  match r with
  | Root => Some (L1 idx)
  | L1 i => Some (L0 i idx)
  | L0 _ _ => None
  end.

Definition sh_upd (c : role) (p : Z) (sh : shape) : shape :=
  fun r => if decide (r = c) then Some p else sh r.

(** Entry at address [a] of a page above level 0 points to [o]. *)
Definition entry_ok (m : mem) (a : Z) (o : option Z) : Prop :=
  match o with
  | Some q => ld64 m a = Z.lor (PA2PTE q) PTE_V
  | None => has (ld64 m a) PTE_V = false
  end.

Section Tree.
Context `{LinkerSymbols}.

Record tree_wf (m : mem) (root : Z) (sh : shape) : Prop := {
  tw_root : sh Root = Some root;
  tw_page : forall r p, sh r = Some p -> ram_page p;
  tw_inj : forall r1 r2 p, sh r1 = Some p -> sh r2 = Some p -> r1 = r2;
  tw_entry : forall r p idx c,
    sh r = Some p -> child r idx = Some c -> 0 <= idx < 512 -> entry_ok m (p + 8 * idx) (sh c);
  tw_parent : forall r idx c q,
    sh c = Some q -> child r idx = Some c -> 0 <= idx < 512 /\ is_Some (sh r);
}.

(** The address of the level-0 entry of [va], if the tree reaches it. *)
Definition pte_addr (sh : shape) (va : Z) : option Z :=
  match sh (L0 (PX 2 va) (PX 1 va)) with
  | Some q => Some (q + 8 * PX 0 va)
  | None => None
  end.

(** The abstract page table: the entry of each virtual address, 0 where the
    tree has none. *)
Definition pte_at (m : mem) (sh : shape) (va : Z) : Z :=
  match pte_addr sh va with
  | Some a => ld64 m a
  | None => 0
  end.

(** No page of the tree is free. *)
Definition tree_free_disj (sh : shape) (l : list Z) : Prop :=
  forall r p, sh r = Some p -> p ∉ l.

(** * Entries *)

Lemma has_spec x mask : has x mask = true <-> Z.land x mask <> 0.
Proof. unfold has. rewrite negb_true_iff. apply Z.eqb_neq. Qed.

Context `{!Layout}.

Lemma table_pte_valid q : ram_page q -> has (Z.lor (PA2PTE q) PTE_V) PTE_V = true.
Proof.
  intros Hq. unfold has. rewrite land_pte_flag; [done|by apply ram_page_is_page| |]; by vm_compute.
Qed.

Lemma table_pte_addr q : ram_page q -> PTE2PA (Z.lor (PA2PTE q) PTE_V) = q.
Proof. intros Hq. apply PTE2PA_pte; [by apply ram_page_is_page|by vm_compute]. Qed.

Lemma table_pte_range q : ram_page q -> 0 <= Z.lor (PA2PTE q) PTE_V < 2 ^ 64.
Proof. intros Hq. apply pte_range; [by apply ram_page_is_page|by vm_compute]. Qed.

Lemma ram_entry_in_ram p idx : ram_page p -> 0 <= idx < 512 -> in_ram (p + 8 * idx) 8 = true.
Proof. intros Hp Hi. eapply in_ram_sub; [by apply ram_page_in_ram|lia|lia]. Qed.

(** * walk() without allocation *)

Lemma walk_loop_valid k root sh r p idx c q level va alloc :
  tree_wf (k_mem k) root sh -> sh r = Some p -> child r idx = Some c -> sh c = Some q ->
  PX (Z.of_nat (S level)) va = idx ->
  walk_loop (S level) p va alloc k = walk_loop level q va alloc k.
Proof.
  intros W Hr Hc Hq <-. cbn [walk_loop].
  assert (Hi : 0 <= PX (Z.of_nat (S level)) va < 512) by (apply PX_range; lia).
  pose proof (tw_page _ _ _ W _ _ Hq) as Rq.
  rewrite (bind_run _ _ _ _ _ (kload_run 8 _ k (ram_entry_in_ram _ _ (tw_page _ _ _ W _ _ Hr) Hi))).
  pose proof (tw_entry _ _ _ W _ _ _ _ Hr Hc Hi) as He. rewrite Hq in He. simpl in He.
  change (ldn 8 (k_mem k)) with (ld64 (k_mem k)). rewrite He.
  rewrite table_pte_valid, table_pte_addr by done. done.
Qed.

Lemma walk_loop_missing k root sh r p idx c level va :
  tree_wf (k_mem k) root sh -> sh r = Some p -> child r idx = Some c -> sh c = None ->
  PX (Z.of_nat (S level)) va = idx ->
  walk_loop (S level) p va false k = Ret 0 k.
Proof.
  intros W Hr Hc Hq <-. cbn [walk_loop].
  assert (Hi : 0 <= PX (Z.of_nat (S level)) va < 512) by (apply PX_range; lia).
  rewrite (bind_run _ _ _ _ _ (kload_run 8 _ k (ram_entry_in_ram _ _ (tw_page _ _ _ W _ _ Hr) Hi))).
  pose proof (tw_entry _ _ _ W _ _ _ _ Hr Hc Hi) as He. rewrite Hq in He. simpl in He.
  change (ldn 8 (k_mem k)) with (ld64 (k_mem k)). by rewrite He.
Qed.

Lemma walk_lookup_run k root sh va :
  tree_wf (k_mem k) root sh -> va < MAXVA ->
  walk root va false k = Ret (default 0 (pte_addr sh va)) k.
Proof.
  intros W Hva. unfold walk. destruct (Z.leb_spec MAXVA va); [lia|].
  unfold pte_addr. destruct (sh (L1 (PX 2 va))) as [p1|] eqn:E1.
  - rewrite (walk_loop_valid k root sh Root root (PX 2 va) (L1 (PX 2 va)) p1);
      [|done|apply W|done|done|done].
    destruct (sh (L0 (PX 2 va) (PX 1 va))) as [p0|] eqn:E0.
    + by rewrite (walk_loop_valid k root sh (L1 (PX 2 va)) p1 (PX 1 va) (L0 (PX 2 va) (PX 1 va)) p0).
    + by rewrite (walk_loop_missing k root sh (L1 (PX 2 va)) p1 (PX 1 va) (L0 (PX 2 va) (PX 1 va))).
  - rewrite (walk_loop_missing k root sh Root root (PX 2 va) (L1 (PX 2 va)));
      [|done|apply W|done|done|done].
    destruct (sh (L0 (PX 2 va) (PX 1 va))) as [p0|] eqn:E0; [|done].
    destruct (tw_parent _ _ _ W (L1 (PX 2 va)) (PX 1 va) _ _ E0 eq_refl) as [_ [? E]].
    by rewrite E1 in E.
Qed.

(** * Growing the tree *)

(** [pg] is zero-filled in [m]. *)
Definition zero_page (m : mem) (pg : Z) : Prop := forall a, pg <= a < pg + 4096 -> ld8 m a = 0.

Lemma zero_page_ld64 m pg o : zero_page m pg -> 0 <= o <= 4088 -> ld64 m (pg + o) = 0.
Proof.
  intros Hz Ho. unfold ld64.
  rewrite (ldn_ext 8 m ∅); [by vm_compute|]. intros b Hb. rewrite Hz by lia. by vm_compute.
Qed.

Lemma memset_zero_page m pg : zero_page (memset m pg 0 4096) pg.
Proof. intros a Ha. rewrite ld8_memset by lia. by case_decide. Qed.

Section Install.
Context (m m1 : mem) (root : Z) (sh : shape) (r c : role) (p pg idx : Z).
Context (W : tree_wf m root sh) (Hr : sh r = Some p) (Hc : child r idx = Some c)
  (Hi : 0 <= idx < 512) (Hn : sh c = None)
  (Hpg : ram_page pg) (Hfresh : forall r', sh r' <> Some pg)
  (Hf : page_frame pg m m1) (Hz : zero_page m1 pg).

Let m2 := st64 m1 (p + 8 * idx) (Z.lor (PA2PTE pg) PTE_V).
Let sh' := sh_upd c pg sh.

Lemma install_ld64_page q o :
  ram_page q -> q <> p -> 0 <= o <= 4088 -> ld64 m2 (q + o) = ld64 m1 (q + o).
Proof.
  intros Hq Hne Ho. apply ld64_st64_ne.
  pose proof (tw_page _ _ _ W _ _ Hr) as Hp.
  pose proof (ram_page_disjoint q p Hq Hp Hne). lia.
Qed.

Lemma install_ld64_entry j :
  0 <= j < 512 -> j <> idx -> ld64 m2 (p + 8 * j) = ld64 m (p + 8 * j).
Proof.
  intros Hj Hne. unfold m2. rewrite ld64_st64_ne by lia.
  eapply page_frame_ld64; [exact Hf|done|by eapply tw_page| |lia].
  intros ->. by apply (Hfresh r).
Qed.

Lemma install_ld64_old q o r' :
  sh r' = Some q -> q <> p -> 0 <= o <= 4088 -> ld64 m2 (q + o) = ld64 m (q + o).
Proof.
  intros Hq Hne Ho. pose proof (tw_page _ _ _ W _ _ Hq) as Rq.
  rewrite install_ld64_page by done.
  eapply page_frame_ld64; [exact Hf|done|done| |done].
  intros ->. by apply (Hfresh r').
Qed.

Lemma install_ld64_new o : 0 <= o <= 4088 -> ld64 m2 (pg + o) = 0.
Proof.
  intros Ho. rewrite install_ld64_page; [by apply zero_page_ld64|done| |done].
  intros ->. by apply (Hfresh r).
Qed.

Lemma install_wf : tree_wf m2 root sh'.
Proof.
  assert (Hcr : forall r1 i1 r2 i2, child r1 i1 = Some c -> child r2 i2 = Some c ->
            r1 = r2 /\ i1 = i2).
  { intros [] i1 [] i2 ? ?; simpl in *; simplify_eq; done. }
  split.
  - unfold sh', sh_upd. case_decide as E; [|apply W]. subst c. by destruct r.
  - intros r' q. unfold sh', sh_upd. case_decide; [by intros [= <-]|apply W].
  - intros r1 r2 q. unfold sh', sh_upd. repeat case_decide; intros; simplify_eq; try done.
    + by destruct (Hfresh r2).
    + by destruct (Hfresh r1).
    + by eapply (tw_inj _ _ _ W).
  - intros r' q j c' Hq Hc' Hj. unfold sh', sh_upd in Hq. case_decide as E.
    + subst r'. injection Hq as <-. unfold sh', sh_upd.
      case_decide as E'; [subst c'; destruct c; simpl in Hc'; simplify_eq|].
      destruct (sh c') eqn:E2.
      * destruct (tw_parent _ _ _ W _ _ _ _ E2 Hc') as [_ [? E3]]. by rewrite Hn in E3.
      * simpl. rewrite install_ld64_new by lia. by vm_compute.
    + destruct (decide (r' = r)) as [->|Hrr].
      * rewrite Hr in Hq. injection Hq as <-. unfold sh', sh_upd. case_decide as E'.
        -- subst c'. destruct (Hcr _ _ _ _ Hc' Hc) as [_ ->]. simpl.
           apply ld64_st64_eq. by apply table_pte_range.
        -- assert (j <> idx) by (intros ->; rewrite Hc in Hc'; congruence).
           pose proof (tw_entry _ _ _ W _ _ _ _ Hr Hc' Hj) as He. unfold entry_ok in *.
           destruct (sh c'); by rewrite install_ld64_entry.
      * assert (q <> p) by (intros ->; apply Hrr; by eapply (tw_inj _ _ _ W)).
        unfold sh', sh_upd. case_decide as E'.
        { subst c'. destruct Hrr. by destruct (Hcr _ _ _ _ Hc' Hc). }
        pose proof (tw_entry _ _ _ W _ _ _ _ Hq Hc' Hj) as He. unfold entry_ok in *.
        destruct (sh c'); rewrite (install_ld64_old q _ r') by (done || lia); done.
  - intros r' j c' q Hq Hc'. unfold sh', sh_upd in *. case_decide as E.
    + subst c'. destruct (Hcr _ _ _ _ Hc' Hc) as [-> ->]. split; [done|].
      case_decide; [done|]. by eexists.
    + destruct (tw_parent _ _ _ W _ _ _ _ Hq Hc') as [? [??]]. split; [done|].
      case_decide; by eexists.
Qed.

Lemma install_pte_at va : pte_at m2 sh' va = pte_at m sh va.
Proof.
  unfold pte_at, pte_addr, sh', sh_upd.
  assert (Hx : 0 <= PX 0 va < 512) by (apply PX_range; lia).
  case_decide as E.
  - rewrite E, Hn. apply install_ld64_new. lia.
  - destruct (sh (L0 _ _)) as [q|] eqn:E0; [|done].
    apply (install_ld64_old q _ _ E0); [|lia].
    intros ->. assert (L0 (PX 2 va) (PX 1 va) = r) by by eapply (tw_inj _ _ _ W).
    subst r. done.
Qed.
End Install.

(** * walk() with allocation *)

(** Address [a] is in none of the pages of the tree, nor of the list [l]. *)
Definition off_pages (sh : shape) (l : list Z) (a : Z) : Prop :=
  (forall r p, sh r = Some p -> ~ (p <= a < p + 4096)) /\
  (forall p, p ∈ l -> ~ (p <= a < p + 4096)).

(** From [k] to [k'] the tree has grown by the pages [used], taken from the
    front of the free list; the abstract page table is the same. *)
Record tree_grow (k k' : kernel) (root : Z) (sh sh' : shape) (used l' : list Z) : Prop := {
  tg_only : mm_only k k';
  tg_wf : tree_wf (k_mem k') root sh';
  tg_free : free_pages k' l';
  tg_disj : tree_free_disj sh' l';
  tg_pte : forall va, pte_at (k_mem k') sh' va = pte_at (k_mem k) sh va;
  tg_sub : forall r p, sh r = Some p -> sh' r = Some p;
  tg_new : forall r p, sh' r = Some p -> sh r = Some p \/ p ∈ used;
  tg_mem : forall a, off_pages sh used a -> ld8 (k_mem k') a = ld8 (k_mem k) a;
}.

Lemma tree_grow_refl k k' root sh l :
  mm_only k k' -> k_mem k' = k_mem k ->
  tree_wf (k_mem k) root sh -> free_pages k' l -> tree_free_disj sh l ->
  tree_grow k k' root sh sh [] l.
Proof. intros Ho Hm W Hl Hd. split; rewrite ?Hm; auto. Qed.

Lemma tree_grow_trans k1 k2 k3 root sh1 sh2 sh3 u1 u2 l2 l3 :
  tree_grow k1 k2 root sh1 sh2 u1 l2 -> tree_grow k2 k3 root sh2 sh3 u2 l3 ->
  tree_grow k1 k3 root sh1 sh3 (u1 ++ u2) l3.
Proof.
  intros [] []. split; eauto using mm_only_trans.
  - intros va. by rewrite tg_pte1.
  - intros r p [H1|H1]%tg_new1; [apply tg_new0 in H1 as []|]; set_solver.
  - intros a [Ha1 Ha2]. rewrite tg_mem1, tg_mem0; [done| |].
    + split; [done|]. intros; apply Ha2; set_solver.
    + split; [|intros; apply Ha2; set_solver].
      intros r p [H1|H1]%tg_new0; [eauto|apply Ha2; set_solver].
Qed.

Lemma walk_loop_grow k root sh l r p idx c level va pg :
  mm_ready k -> tree_wf (k_mem k) root sh -> free_pages k (pg :: l) ->
  tree_free_disj sh (pg :: l) ->
  sh r = Some p -> child r idx = Some c -> sh c = None -> PX (Z.of_nat (S level)) va = idx ->
  exists k1, walk_loop (S level) p va true k = walk_loop level pg va true k1 /\
    tree_grow k k1 root sh (sh_upd c pg sh) [pg] l.
Proof.
  intros Hk W Hl Hd Hr Hc Hn <-. cbn [walk_loop].
  assert (Hi : 0 <= PX (Z.of_nat (S level)) va < 512) by (apply PX_range; lia).
  set (idx := PX (Z.of_nat (S level)) va) in *.
  pose proof (tw_page _ _ _ W _ _ Hr) as Hp. pose proof (ram_entry_in_ram p idx Hp Hi) as Hram.
  rewrite (bind_run _ _ _ _ _ (kload_run 8 _ k Hram)).
  pose proof (tw_entry _ _ _ W _ _ _ _ Hr Hc Hi) as He. rewrite Hn in He. simpl in He.
  change (ldn 8 (k_mem k)) with (ld64 (k_mem k)). rewrite He. cbv iota. simpl (negb true). cbv iota.
  destruct (kalloc_run k pg l Hk Hl) as (E & Hl' & Hpg).
  rewrite (bind_run _ _ _ _ _ E).
  rewrite (proj2 (Z.eqb_neq pg 0) (ram_page_nonzero pg Hpg)).
  rewrite (bind_run _ _ _ _ _ (kmemset_run _ _ _ _ (ram_page_in_ram pg Hpg))).
  rewrite (bind_run _ _ _ _ _ (kstore_run 8 _ _ _ Hram)).
  eexists. split; [reflexivity|].
  set (h := ld64 (k_mem k) pg) in *. set (m0 := memset (k_mem k) pg 5 4096) in *.
  set (m1 := memset m0 pg 0 4096).
  assert (Hf : page_frame pg (k_mem k) m1)
    by (eapply page_frame_trans; apply memset_page_frame).
  assert (Hz : zero_page m1 pg) by apply memset_zero_page.
  assert (Hfresh : forall r', sh r' <> Some pg) by (intros r' Hr'; apply Hd in Hr'; set_solver).
  assert (Hpn : p ∉ l) by (apply Hd in Hr; set_solver).
  change (tree_grow k (set_mm (st64 m1 (p + 8 * idx) (Z.lor (PA2PTE pg) PTE_V)) h (relax k))
            root sh (sh_upd c pg sh) [pg] l).
  split; rewrite ?mem_set_mm.
  - apply mm_only_kalloc.
  - by apply (install_wf (k_mem k) m1 root sh r c p pg idx).
  - destruct Hl' as [Hrep Hnd]. destruct Hl as [_ Hnd']. apply NoDup_cons in Hnd' as [Hpgl _].
    split; [|done]. rewrite mem_set_mm.
    eapply freelist_rep_frame; [apply stn_page_frame; [|]|exact Hp|done|]; [lia|lia|].
    rewrite mem_set_mm in Hrep.
    by apply (freelist_rep_frame pg m0 m1 _ _ (memset_page_frame pg 0 m0)).
  - intros r' q Hq. unfold sh_upd in Hq. case_decide; [simplify_eq|by apply Hd in Hq; set_solver].
    destruct Hl as [_ Hnd']. by apply NoDup_cons in Hnd' as [? _].
  - intros va'. by apply (install_pte_at (k_mem k) m1 root sh r c p pg idx).
  - intros r' q Hq. unfold sh_upd. case_decide; [by simplify_eq|done].
  - intros r' q Hq. unfold sh_upd in Hq. case_decide; [simplify_eq; right; set_solver|by left].
  - intros a [Ha1 Ha2]. unfold st64. rewrite ld8_stn_out.
    + apply Hf. apply Ha2. set_solver.
    + specialize (Ha1 _ _ Hr). lia.
Qed.

Lemma walk_loop_oom k root sh r p idx c level va :
  mm_ready k -> tree_wf (k_mem k) root sh -> free_pages k [] ->
  sh r = Some p -> child r idx = Some c -> sh c = None -> PX (Z.of_nat (S level)) va = idx ->
  walk_loop (S level) p va true k = Ret 0 (relax k).
Proof.
  intros Hk W Hl Hr Hc Hn <-. cbn [walk_loop].
  assert (Hi : 0 <= PX (Z.of_nat (S level)) va < 512) by (apply PX_range; lia).
  rewrite (bind_run _ _ _ _ _ (kload_run 8 _ k (ram_entry_in_ram _ _ (tw_page _ _ _ W _ _ Hr) Hi))).
  pose proof (tw_entry _ _ _ W _ _ _ _ Hr Hc Hi) as He. rewrite Hn in He. simpl in He.
  change (ldn 8 (k_mem k)) with (ld64 (k_mem k)). rewrite He. cbv iota. simpl (negb true). cbv iota.
  by rewrite (bind_run _ _ _ _ _ (kalloc_empty_run k Hk Hl)).
Qed.

(** One level of walk(alloc = 1): the page below is there, is made, or cannot
    be made because the free list is empty. *)
Lemma walk_loop_descend k root sh l r p idx c level va :
  mm_ready k -> tree_wf (k_mem k) root sh -> free_pages k l -> tree_free_disj sh l ->
  sh r = Some p -> child r idx = Some c -> PX (Z.of_nat (S level)) va = idx ->
  (l = [] /\ sh c = None /\ walk_loop (S level) p va true k = Ret 0 (relax k)) \/
  (exists k1 sh1 used l1 q,
     l = used ++ l1 /\ sh1 c = Some q /\
     walk_loop (S level) p va true k = walk_loop level q va true k1 /\
     tree_grow k k1 root sh sh1 used l1).
Proof.
  intros Hk W Hl Hd Hr Hc Hpx. destruct (sh c) as [q|] eqn:Ec.
  - right. exists k, sh, [], l, q. split; [done|]. split; [done|].
    split; [by eapply walk_loop_valid|]. by apply tree_grow_refl; [apply mm_only_refl|..].
  - destruct l as [|pg l].
    + left. split; [done|]. split; [done|]. by eapply walk_loop_oom.
    + right. destruct (walk_loop_grow k root sh l r p idx c level va pg) as (k1 & E & G); try done.
      exists k1, (sh_upd c pg sh), [pg], l, pg. split; [done|].
      split; [unfold sh_upd; by case_decide|done].
Qed.

Lemma walk_alloc_run k root sh l va :
  mm_ready k -> tree_wf (k_mem k) root sh -> free_pages k l -> tree_free_disj sh l -> va < MAXVA ->
  exists k' sh' used l' r,
    l = used ++ l' /\ walk root va true k = Ret r k' /\ tree_grow k k' root sh sh' used l' /\
    (pte_addr sh' va = Some r \/ r = 0 /\ l' = [] /\ pte_addr sh va = None).
Proof.
  intros Hk W Hl Hd Hva. unfold walk. destruct (Z.leb_spec MAXVA va); [lia|].
  destruct (walk_loop_descend k root sh l Root root (PX 2 va) (L1 (PX 2 va)) 1 va)
    as [(-> & En & E)|(k1 & sh1 & u1 & l1 & q1 & -> & Eq1 & E & G1)]; try done; [apply W|..].
  { exists (relax k), sh, [], [], 0. split; [done|]. split; [done|].
    split; [by apply tree_grow_refl; [apply mm_only_relax|..]|]. right.
    split; [done|]. split; [done|]. unfold pte_addr.
    destruct (sh (L0 _ _)) eqn:E0; [|done].
    destruct (tw_parent _ _ _ W (L1 (PX 2 va)) (PX 1 va) _ _ E0 eq_refl) as [_ [? E1]].
    by rewrite En in E1. }
  rewrite E. pose proof G1 as [].
  assert (Hk1 : mm_ready k1) by by eapply mm_only_ready.
  destruct (walk_loop_descend k1 root sh1 l1 (L1 (PX 2 va)) q1 (PX 1 va) (L0 (PX 2 va) (PX 1 va)) 0 va)
    as [(-> & En & E')|(k2 & sh2 & u2 & l2 & q2 & -> & Eq2 & E' & G2)]; try done.
  { exists (relax k1), sh1, u1, [], 0. split; [done|]. split; [done|].
    split; [|right; split; [done|]; split; [done|]].
    - rewrite <- (app_nil_r u1). eapply tree_grow_trans; [exact G1|].
      by apply tree_grow_refl; [apply mm_only_relax|..].
    - unfold pte_addr. destruct (sh (L0 _ _)) eqn:E0; [|done]. apply tg_sub0 in E0. congruence. }
  rewrite E'. exists k2, sh2, (u1 ++ u2), l2, (q2 + 8 * PX 0 va).
  split; [by rewrite app_assoc|]. split; [done|]. split; [by eapply tree_grow_trans|].
  left. unfold pte_addr. by rewrite Eq2.
Qed.

(** * Writing a level-0 entry *)

(** Two addresses in the same virtual page. *)
Definition same_vpage (va va' : Z) : Prop := va / 4096 = va' / 4096.

#[export] Instance same_vpage_dec va va' : Decision (same_vpage va va').
Proof. unfold same_vpage. apply _. Defined.

Lemma same_vpage_PX va va' :
  0 <= va < 2 ^ 39 -> 0 <= va' < 2 ^ 39 ->
  same_vpage va va' <-> PX 2 va = PX 2 va' /\ PX 1 va = PX 1 va' /\ PX 0 va = PX 0 va'.
Proof.
  intros Hv Hv'. unfold same_vpage. split.
  - intros E.
    assert (Hd : forall l, 0 <= l -> PX l va = PX l va').
    { intros l Hl. rewrite !PX_eq by done. rewrite !Z.pow_add_r by lia.
      rewrite <- !Z.div_div by lia. change (2 ^ 12) with 4096. by rewrite E. }
    auto with lia.
  - intros (E2 & E1 & E0). pose proof (PX_inj va va' Hv Hv' E2 E1 E0). Z.div_mod_to_equations. lia.
Qed.

Lemma pte_addr_page root sh m va a :
  tree_wf m root sh -> pte_addr sh va = Some a ->
  exists q, sh (L0 (PX 2 va) (PX 1 va)) = Some q /\ ram_page q /\ a = q + 8 * PX 0 va /\
    in_ram a 8 = true /\ a <> 0.
Proof.
  intros W Ha. unfold pte_addr in Ha. destruct (sh _) as [q|] eqn:E; [|done].
  injection Ha as <-. pose proof (tw_page _ _ _ W _ _ E) as Hq.
  assert (Hi : 0 <= PX 0 va < 512) by (apply PX_range; lia).
  exists q. split; [done|]. split; [done|]. split; [done|].
  split; [by apply ram_entry_in_ram|]. pose proof (ram_page_nonzero q Hq).
  destruct Hq as [_ Hq]. destruct kend_range as [L1 _]. unfold KERNBASE in L1. lia.
Qed.

Section LeafStore.
Context (m : mem) (root : Z) (sh : shape) (va a v : Z).
Context (W : tree_wf m root sh) (Ha : pte_addr sh va = Some a) (Hv : 0 <= v < 2 ^ 64).

Lemma leaf_store_wf : tree_wf (st64 m a v) root sh.
Proof.
  destruct (pte_addr_page _ _ _ _ _ W Ha) as (q & Eq & Hq & -> & _ & _).
  assert (Hi : 0 <= PX 0 va < 512) by (apply PX_range; lia).
  destruct W as [Wr Wp Wi We Wpa]. split; try done.
  intros r p idx c Hr Hc Hidx. pose proof (We _ _ _ _ Hr Hc Hidx) as He.
  assert (p <> q) by (intros ->; rewrite (Wi _ _ _ Hr Eq) in Hc; done).
  pose proof (ram_page_disjoint p q (Wp _ _ Hr) Hq ltac:(done)).
  unfold entry_ok in *. rewrite ld64_st64_ne by lia. done.
Qed.

Lemma leaf_store_pte_at va' :
  0 <= va < 2 ^ 39 -> 0 <= va' < 2 ^ 39 ->
  pte_at (st64 m a v) sh va' = if decide (same_vpage va va') then v else pte_at m sh va'.
Proof.
  intros Hr Hr'. destruct (pte_addr_page _ _ _ _ _ W Ha) as (q & Eq & Hq & Ea & _ & _).
  assert (Hi : forall x, 0 <= PX 0 x < 512) by (intros; apply PX_range; lia).
  case_decide as E.
  - apply same_vpage_PX in E as (E2 & E1 & E0); [|done..].
    unfold pte_at, pte_addr. rewrite <- E2, <- E1, <- E0, Eq, <- Ea. by apply ld64_st64_eq.
  - unfold pte_at, pte_addr. destruct (sh (L0 (PX 2 va') (PX 1 va'))) as [q'|] eqn:Eq'; [|done].
    apply ld64_st64_ne. subst a. pose proof (Hi va). pose proof (Hi va').
    destruct (decide (q = q')) as [<-|Hne].
    + pose proof (tw_inj _ _ _ W _ _ _ Eq Eq') as Er. injection Er as E2 E1.
      assert (PX 0 va <> PX 0 va'); [|lia].
      intros E0. apply E. by apply same_vpage_PX.
    + pose proof (ram_page_disjoint q q' Hq (tw_page _ _ _ W _ _ Eq') Hne). lia.
Qed.

Lemma leaf_store_mem b :
  (forall r p, sh r = Some p -> ~ (p <= b < p + 4096)) -> ld8 (st64 m a v) b = ld8 m b.
Proof.
  intros Hb. destruct (pte_addr_page _ _ _ _ _ W Ha) as (q & Eq & Hq & -> & _ & _).
  specialize (Hb _ _ Eq). assert (Hi : 0 <= PX 0 va < 512) by (apply PX_range; lia).
  apply ld8_stn_out. lia.
Qed.

Lemma leaf_store_free l h :
  tree_free_disj sh l -> freelist_rep m h l -> freelist_rep (st64 m a v) h l.
Proof.
  intros Hd Hl. destruct (pte_addr_page _ _ _ _ _ W Ha) as (q & Eq & Hq & -> & _ & _).
  assert (Hi : 0 <= PX 0 va < 512) by (apply PX_range; lia).
  eapply freelist_rep_frame; [apply stn_page_frame; [|]|exact Hq|by eapply Hd|done]; lia.
Qed.
End LeafStore.

End Tree.
