(* ===== verification/VmMap.v ===== *)
(** Correctness of the page-table operations of kernel/vm.c over the abstract
    page table [pte_at]: mappages(), uvmunmap(), u2kvmcopy() and copyout(). *)

From Stdlib Require Import ZArith Lia.
From stdpp Require Import base gmap list_numbers strings numbers list.
From S2P Require Import Prelude Mem Riscv Kernel Spinlock Kalloc Vm VmTree.

Open Scope Z_scope.

Implicit Types (k : kernel) (m : mem) (p q a va pa perm : Z) (T : Z -> Z).

Section Map.
Context `{LinkerSymbols}.

(** * Updates of an abstract page table *)

(** From [k] to [k'] the tree at [root] has grown by the pages [used] from the
    front of the free list, the free list is now [l'], and the abstract page
    table is [T]; nothing else of memory has changed but the pages [dirty]. *)
Record pt_upd (k k' : kernel) (root : Z) (sh sh' : shape) (used l' dirty : list Z) T : Prop := {
  pu_only : mm_only k k';
  pu_wf : tree_wf (k_mem k') root sh';
  pu_free : free_pages k' l';
  pu_disj : tree_free_disj sh' l';
  pu_pte : forall va, 0 <= va < 2 ^ 39 -> pte_at (k_mem k') sh' va = T va;
  pu_sub : forall r p, sh r = Some p -> sh' r = Some p;
  pu_new : forall r p, sh' r = Some p -> sh r = Some p \/ p ∈ used;
  pu_mem : forall a, off_pages sh (used ++ dirty) a -> ld8 (k_mem k') a = ld8 (k_mem k) a;
}.

(** What an operation on the page table at [root] may assume. *)
Record pt_pre (k : kernel) (root : Z) (sh : shape) (l : list Z) : Prop := {
  pp_ready : mm_ready k;
  pp_wf : tree_wf (k_mem k) root sh;
  pp_free : free_pages k l;
  pp_disj : tree_free_disj sh l;
}.

(** Entry [v] for the page of [a]. *)
Definition set_pte T (a v : Z) : Z -> Z := fun va => if decide (same_vpage a va) then v else T va.

(** [n] consecutive pages from [a] on mapped to consecutive pages from [pa] on. *)
Definition map_range T (a pa perm : Z) (n : Z) : Z -> Z :=
  fun va => if decide (a <= va < a + 4096 * n)
            then Z.lor (Z.lor (PA2PTE (pa + (va - a) / 4096 * 4096)) perm) PTE_V
            else T va.

(** [n] consecutive pages from [a] on unmapped. *)
Definition unmap_range T (a : Z) (n : Z) : Z -> Z :=
  fun va => if decide (a <= va < a + 4096 * n) then 0 else T va.

Context `{!Layout}.

Lemma MAXVA_lt : MAXVA < 2 ^ 39.
Proof. by vm_compute. Qed.

Lemma pt_upd_pre k k' root sh sh' used l' dirty T :
  mm_ready k -> pt_upd k k' root sh sh' used l' dirty T -> pt_pre k' root sh' l'.
Proof. intros Hk []. split; try done. by eapply mm_only_ready. Qed.

Lemma pt_upd_refl k root sh l : pt_pre k root sh l -> pt_upd k k root sh sh [] l [] (pte_at (k_mem k) sh).
Proof. intros []. split; auto. apply mm_only_refl. Qed.

Lemma pt_upd_ext k k' root sh sh' used l' dirty T T' :
  (forall va, 0 <= va < 2 ^ 39 -> T va = T' va) ->
  pt_upd k k' root sh sh' used l' dirty T -> pt_upd k k' root sh sh' used l' dirty T'.
Proof. intros HT []. split; try done. intros va Hva. rewrite <- HT by done. auto. Qed.

Lemma pt_upd_trans k1 k2 k3 root sh1 sh2 sh3 u1 u2 l2 l3 d1 d2 T2 T3 :
  pt_upd k1 k2 root sh1 sh2 u1 l2 d1 T2 -> pt_upd k2 k3 root sh2 sh3 u2 l3 d2 T3 ->
  pt_upd k1 k3 root sh1 sh3 (u1 ++ u2) l3 (d1 ++ d2) T3.
Proof.
  intros [] []. split; eauto using mm_only_trans.
  - intros r p [H1|H1]%pu_new1; [apply pu_new0 in H1 as []|]; set_solver.
  - intros a [Ha1 Ha2]. rewrite pu_mem1, pu_mem0; [done| |].
    + split; [done|]. intros; apply Ha2; set_solver.
    + split; [|intros; apply Ha2; set_solver].
      intros r p [H1|H1]%pu_new0; [eauto|apply Ha2; set_solver].
Qed.

Lemma tree_grow_upd k k' root sh sh' used l' :
  tree_grow k k' root sh sh' used l' ->
  pt_upd k k' root sh sh' used l' [] (pte_at (k_mem k) sh).
Proof. intros []. split; auto. by rewrite app_nil_r. Qed.

(** Writing the level-0 entry of [a]. *)
Lemma kstore_pte_run k root sh l a r v :
  pt_pre k root sh l -> pte_addr sh a = Some r -> 0 <= a < 2 ^ 39 -> 0 <= v < 2 ^ 64 ->
  exists k', kstore 8 r v k = Ret tt k' /\
    pt_upd k k' root sh sh [] l [] (set_pte (pte_at (k_mem k) sh) a v).
Proof.
  intros [Hk W Hl Hd] Hr Ha Hv.
  destruct (pte_addr_page _ _ _ _ _ W Hr) as (q & _ & _ & _ & Hram & _).
  eexists. split; [by apply kstore_run|].
  change (set_mem (stn 8 (k_mem k) r v) k) with (set_mm (st64 (k_mem k) r v) (mm_freelist (k_mm k)) k).
  split; rewrite ?mem_set_mm; auto.
  - apply mm_only_set_mm.
  - by apply (leaf_store_wf _ _ _ a).
  - destruct Hl as [Hl Hnd]. split; [|done]. rewrite mem_set_mm. by eapply leaf_store_free.
  - intros va Hva. by eapply leaf_store_pte_at.
  - intros b [Hb _]. by eapply leaf_store_mem.
Qed.

(** walk(alloc = 1) followed by a write of the entry it returns. *)
Lemma walk_alloc_cases k root sh l a :
  pt_pre k root sh l -> 0 <= a < MAXVA ->
  exists k1 sh1 used l1 r,
    l = used ++ l1 /\ walk root a true k = Ret r k1 /\
    pt_upd k k1 root sh sh1 used l1 [] (pte_at (k_mem k) sh) /\
    (r = 0 /\ l1 = [] \/
     r <> 0 /\ pte_addr sh1 a = Some r /\ kload 8 r k1 = Ret (pte_at (k_mem k) sh a) k1).
Proof.
  intros [Hk W Hl Hd] Ha. pose proof MAXVA_lt.
  destruct (walk_alloc_run k root sh l a) as (k1 & sh1 & used & l1 & r & -> & E & G & Hr); try done; [lia|].
  exists k1, sh1, used, l1, r. split; [done|]. split; [done|].
  split; [by apply tree_grow_upd|]. destruct Hr as [Hr|(-> & -> & _)]; [|by left].
  right. destruct (pte_addr_page _ _ _ _ _ (tg_wf _ _ _ _ _ _ _ G) Hr) as (q & _ & _ & _ & Hram & Hnz).
  split; [done|]. split; [done|]. rewrite kload_run by done. f_equal.
  change (ldn 8 (k_mem k1) r) with (ld64 (k_mem k1) r).
  rewrite <- (tg_pte _ _ _ _ _ _ _ G). unfold pte_at. by rewrite Hr.
Qed.

(** * mappages() *)

Lemma map_range_0 T a pa perm va : map_range T a pa perm 0 va = T va.
Proof. unfold map_range. case_decide; [lia|done]. Qed.

Lemma same_vpage_range a va : a mod 4096 = 0 -> same_vpage a va <-> a <= va < a + 4096.
Proof. intros Ha. unfold same_vpage. Z.div_mod_to_equations. lia. Qed.

Lemma map_range_S T a pa perm n va :
  a mod 4096 = 0 -> 0 <= n ->
  map_range (set_pte T a (Z.lor (Z.lor (PA2PTE pa) perm) PTE_V)) (a + 4096) (pa + 4096) perm n va =
  map_range T a pa perm (n + 1) va.
Proof.
  intros Ha Hn. unfold map_range, set_pte.
  destruct (decide (same_vpage a va)) as [E|E]; rewrite same_vpage_range in E by done.
  - rewrite decide_False by lia. rewrite decide_True by lia.
    rewrite (Z.div_small (va - a)) by lia. do 3 f_equal. lia.
  - destruct (decide (a + 4096 <= va < a + 4096 + 4096 * n)).
    + rewrite decide_True by lia.
      replace (va - a) with ((va - (a + 4096)) + 1 * 4096) by lia.
      rewrite Z.div_add by lia. do 3 f_equal. lia.
    + by rewrite decide_False by lia.
Qed.

Lemma leaf_pte_range pa perm :
  is_page pa -> 0 <= perm < 1024 -> 0 <= Z.lor (Z.lor (PA2PTE pa) perm) PTE_V < 2 ^ 64.
Proof.
  intros Hp Hf. rewrite <- Z.lor_assoc. apply pte_range; [done|].
  assert (E : Z.lor perm PTE_V = Z.lor perm PTE_V mod 2 ^ 10).
  { rewrite <- Z.land_ones, Z.land_lor_distr_l by lia. f_equal.
    rewrite Z.land_ones by lia. symmetry. by apply Z.mod_small. }
  rewrite E. by apply Z.mod_pos_bound.
Qed.

Lemma page_next a n : a mod 4096 = 0 -> (a + 4096 * n) mod 4096 = 0.
Proof. intros. rewrite Z.mul_comm, Z.mod_add by lia. done. Qed.

(** One iteration of mappages() at an unmapped page. *)
Lemma mappages_page_run k root sh l a pa perm (rest : K Z) :
  pt_pre k root sh l -> 0 <= a < MAXVA -> is_page pa -> 0 <= perm < 1024 ->
  has (pte_at (k_mem k) sh a) PTE_V = false ->
  let v := Z.lor (Z.lor (PA2PTE pa) perm) PTE_V in
  let body := (let! pte := walk root a true in
               if pte =? 0 then ret (-1) else
               let! old := kload 8 pte in
               if has old PTE_V then panic "mappages: remap" else
               do! kstore 8 pte v; rest) in
  exists k' sh' used l',
    l = used ++ l' /\
    (l' = [] /\ body k = Ret (-1) k' /\
       pt_upd k k' root sh sh' used l' [] (pte_at (k_mem k) sh) \/
     body k = rest k' /\
       pt_upd k k' root sh sh' used l' [] (set_pte (pte_at (k_mem k) sh) a v)).
Proof.
  intros Hpre Ha Hpa Hperm Hun v body. pose proof MAXVA_lt. subst body.
  destruct (walk_alloc_cases k root sh l a Hpre Ha) as (k1 & sh1 & u1 & l1 & r & -> & E1 & U1 & Hr).
  rewrite (bind_run _ _ _ _ _ E1). destruct Hr as [[-> ->]|(Hnz & Hr & El)].
  { exists k1, sh1, u1, []. split; [done|]. by left. }
  rewrite (proj2 (Z.eqb_neq r 0) Hnz), (bind_run _ _ _ _ _ El), Hun.
  pose proof (pt_upd_pre _ _ _ _ _ _ _ _ _ (pp_ready _ _ _ _ Hpre) U1) as P1.
  destruct (kstore_pte_run k1 root sh1 l1 a r v) as (k2 & E2 & U2);
    [done|done|lia|by apply leaf_pte_range|].
  rewrite (bind_run _ _ _ _ _ E2). exists k2, sh1, u1, l1. split; [done|]. right. split; [done|].
  pose proof (pt_upd_trans _ _ _ _ _ _ _ _ _ _ _ _ _ _ _ U1 U2) as U12. rewrite app_nil_r in U12.
  eapply pt_upd_ext; [|exact U12]. intros va Hva. unfold set_pte. case_decide; [done|].
  by apply (pu_pte _ _ _ _ _ _ _ _ _ U1).
Qed.

(** The loop of mappages() with [n] pages left: it maps the first [j] of them,
    all of them unless the allocator runs dry. *)
Lemma mappages_loop_run root perm n : forall k sh l a pa,
  pt_pre k root sh l -> (0 < n)%nat ->
  a mod 4096 = 0 -> 0 <= a -> a + 4096 * Z.of_nat n <= MAXVA ->
  pa mod 4096 = 0 -> 0 <= pa -> pa + 4096 * Z.of_nat n <= 2 ^ 56 -> 0 <= perm < 1024 ->
  (forall va, a <= va < a + 4096 * Z.of_nat n -> has (pte_at (k_mem k) sh va) PTE_V = false) ->
  exists j k' sh' used l' r,
    l = used ++ l' /\ mappages_loop n root a (a + 4096 * (Z.of_nat n - 1)) pa perm k = Ret r k' /\
    pt_upd k k' root sh sh' used l' [] (map_range (pte_at (k_mem k) sh) a pa perm j) /\
    (r = 0 /\ j = Z.of_nat n \/ r = -1 /\ 0 <= j < Z.of_nat n /\ l' = []).
Proof.
  induction n as [|n IH]; intros k sh l a pa Hpre Hn Ha Ha0 HaM Hpa Hpa0 HpaM Hperm Hun; [lia|].
  pose proof MAXVA_lt. cbn [mappages_loop].
  match goal with |- context [do! kstore 8 _ _; ?c] => set (rest := c) end.
  destruct (mappages_page_run k root sh l a pa perm rest)
    as (k2 & sh2 & u2 & l2 & -> & [(-> & E & U)|(E & U)]);
    [done|lia|by split; [|lia]|done|apply Hun; lia|..]; cbv zeta in E; rewrite E.
  { exists 0, k2, sh2, u2, [], (-1). split; [done|]. split; [done|]. split; [|right; split_and!; done || lia].
    eapply pt_upd_ext; [|exact U]. intros. by rewrite map_range_0. }
  subst rest. pose proof (pu_pte _ _ _ _ _ _ _ _ _ U) as HT.
  pose proof (pt_upd_pre _ _ _ _ _ _ _ _ _ (pp_ready _ _ _ _ Hpre) U) as P2.
  destruct (Z.eqb_spec a (a + 4096 * (Z.of_nat (S n) - 1))) as [El|El].
  { exists 1, k2, sh2, u2, l2, 0. split; [done|]. split; [done|]. split; [|left; lia].
    eapply pt_upd_ext; [|exact U]. intros va Hva.
    by rewrite <- (map_range_S _ _ _ _ 0), map_range_0. }
  unfold PGSIZE. rewrite !u64_small by lia.
  destruct (IH k2 sh2 l2 (a + 4096) (pa + 4096)) as (j & k3 & sh3 & u3 & l3 & r3 & -> & E3 & U3 & Hr3);
    [done|lia|by apply (page_next a 1)|lia|lia|by apply (page_next pa 1)|lia|lia|done| |].
  { intros va Hva. rewrite HT by lia. unfold set_pte. rewrite decide_False.
    - apply Hun. lia.
    - rewrite same_vpage_range by done. lia. }
  replace (a + 4096 + 4096 * (Z.of_nat n - 1)) with (a + 4096 * (Z.of_nat (S n) - 1)) in E3 by lia.
  exists (j + 1), k3, sh3, (u2 ++ u3), l3, r3. split; [by rewrite app_assoc|]. split; [done|].
  split; [|destruct Hr3 as [[-> ->]|(-> & ? & ->)]; [left|right]; split_and!; done || lia].
  pose proof (pt_upd_trans _ _ _ _ _ _ _ _ _ _ _ _ _ _ _ U U3) as U23.
  eapply pt_upd_ext; [|exact U23]. intros va Hva. rewrite <- map_range_S by lia.
  unfold map_range. case_decide; [done|]. by apply HT.
Qed.

(** A virtual range that mappages() can be given: page-aligned, not empty and
    below MAXVA; and a physical range of the same size. *)
Definition range_ok (va size pa perm : Z) : Prop :=
  va mod 4096 = 0 /\ size mod 4096 = 0 /\ 0 <= va /\ 0 < size /\ va + size <= MAXVA /\
  pa mod 4096 = 0 /\ 0 <= pa /\ pa + size <= 2 ^ 56 /\ 0 <= perm < 1024.

Lemma mappages_run k root sh l va size pa perm :
  pt_pre k root sh l -> range_ok va size pa perm ->
  (forall a, va <= a < va + size -> has (pte_at (k_mem k) sh a) PTE_V = false) ->
  exists j k' sh' used l' r,
    l = used ++ l' /\ mappages root va size pa perm k = Ret r k' /\
    pt_upd k k' root sh sh' used l' [] (map_range (pte_at (k_mem k) sh) va pa perm j) /\
    (r = 0 /\ 4096 * j = size \/ r = -1 /\ 0 <= 4096 * j < size /\ l' = []).
Proof.
  intros Hpre (H1 & H2 & H3 & H4 & H5 & H6 & H7 & H8 & H9) Hun. pose proof MAXVA_lt.
  set (n := Z.to_nat (size / 4096)).
  assert (Hs : size = 4096 * Z.of_nat n) by (subst n; Z.div_mod_to_equations; lia).
  destruct (mappages_loop_run root perm n k sh l va pa) as (j & k' & sh' & u & l' & r & Hl & E & U & Hr);
    try done; try lia.
  { intros a Ha. apply Hun. lia. }
  exists j, k', sh', u, l', r. split; [done|]. split; [|split; [done|destruct Hr as [[-> ->]|(-> & ? & ->)]; [left|right]; split_and!; done || lia]].
  unfold mappages, PGSIZE. rewrite H1, H2. simpl (negb _). cbv iota.
  destruct (Z.eqb_spec size 0); [lia|]. rewrite u64_small by lia. fold n.
  replace (va + size - 4096) with (va + 4096 * (Z.of_nat n - 1)) by lia. exact E.
Qed.

(** * uvmunmap() *)

Lemma walk_lookup_cases k root sh a :
  tree_wf (k_mem k) root sh -> a < MAXVA ->
  exists r, walk root a false k = Ret r k /\
    (r = 0 /\ pte_addr sh a = None /\ pte_at (k_mem k) sh a = 0 \/
     r <> 0 /\ pte_addr sh a = Some r /\ kload 8 r k = Ret (pte_at (k_mem k) sh a) k).
Proof.
  intros W Ha. eexists. split; [by eapply walk_lookup_run|].
  destruct (pte_addr sh a) as [r|] eqn:Hr; simpl.
  - right. destruct (pte_addr_page _ _ _ _ _ W Hr) as (q & _ & _ & _ & Hram & Hnz).
    split; [done|]. split; [done|]. rewrite kload_run by done. f_equal. unfold pte_at. by rewrite Hr.
  - left. unfold pte_at. by rewrite Hr.
Qed.

(** A page table depends on its own pages only. *)
Definition same_on (sh : shape) (m m' : mem) : Prop :=
  forall r p o, sh r = Some p -> 0 <= o <= 4088 -> ld64 m' (p + o) = ld64 m (p + o).

Lemma tree_wf_same m m' root sh : same_on sh m m' -> tree_wf m root sh -> tree_wf m' root sh.
Proof.
  intros Hs []. split; try done. intros r p idx c Hr Hc Hi.
  pose proof (tw_entry _ _ _ _ Hr Hc Hi) as He. unfold entry_ok in *.
  by rewrite (Hs r p) by (done || lia).
Qed.

Lemma pte_at_same m m' sh va : same_on sh m m' -> pte_at m' sh va = pte_at m sh va.
Proof.
  intros Hs. unfold pte_at, pte_addr. destruct (sh (L0 _ _)) as [q|] eqn:E; [|done].
  assert (0 <= PX 0 va < 512) by (apply PX_range; lia). apply (Hs _ _ _ E). lia.
Qed.

Lemma page_frame_same root sh m m' p :
  tree_wf m root sh -> (forall r, sh r <> Some p) -> ram_page p -> page_frame p m m' -> same_on sh m m'.
Proof.
  intros W Hn Hp Hf r q o Hr Ho. eapply page_frame_ld64; [done|done|by eapply tw_page| |done].
  intros ->. by apply (Hn r).
Qed.

Lemma kfree_pt_run k root sh l p :
  pt_pre k root sh l -> ram_page p -> p ∉ l -> (forall r, sh r <> Some p) ->
  exists k', kfree p k = Ret tt k' /\
    pt_upd k k' root sh sh [] (p :: l) [p] (pte_at (k_mem k) sh).
Proof.
  intros [Hk W Hl Hd] Hp Hn Hsh. destruct (kfree_run k p l Hk Hl Hp Hn) as (m' & E & Hf & Hl').
  exists (set_mm m' p (relax k)). split; [done|].
  pose proof (page_frame_same _ _ _ _ _ W Hsh Hp Hf) as Hs. split; rewrite ?mem_set_mm; auto.
  - apply mm_only_kalloc.
  - by eapply tree_wf_same.
  - intros r q Hr [->|Hin]%elem_of_cons; [by apply (Hsh r)|by apply (Hd r q)].
  - intros. by apply pte_at_same.
  - intros b [_ Hb]. apply Hf, Hb. set_solver.
Qed.

(** The pages that [n] consecutive entries from [a] on map. *)
Fixpoint mapped_pages T (a : Z) (n : nat) : list Z :=
  match n with
  | O => []
  | S n' => PTE2PA (T a) :: mapped_pages T (a + 4096) n'
  end.

Lemma mapped_pages_ext T T' n : forall a,
  (forall va, a <= va < a + 4096 * Z.of_nat n -> T va = T' va) -> mapped_pages T a n = mapped_pages T' a n.
Proof.
  induction n as [|n IH]; intros a HT; simpl; [done|].
  rewrite HT by lia. f_equal. apply IH. intros. apply HT. lia.
Qed.

(** Leaves that uvmunmap(.., do_free) accepts on [n] pages from [a] on. *)
Definition unmappable T (a : Z) (n : nat) : Prop :=
  forall va, a <= va < a + 4096 * Z.of_nat n -> has (T va) PTE_V = true /\ PTE_FLAGS (T va) <> PTE_V.

(** Pages that can be freed: managed, free of other uses, each mapped once. *)
Definition freeable (sh : shape) (l ps : list Z) : Prop :=
  NoDup ps /\ forall p, p ∈ ps -> ram_page p /\ p ∉ l /\ forall r, sh r <> Some p.

Lemma set_pte_0_unmap T a n va :
  a mod 4096 = 0 -> 0 <= n ->
  unmap_range (set_pte T a 0) (a + 4096) n va = unmap_range T a (n + 1) va.
Proof.
  intros Ha Hn. unfold unmap_range, set_pte.
  destruct (decide (same_vpage a va)) as [E|E]; rewrite same_vpage_range in E by done;
    repeat case_decide; lia || done.
Qed.

(** One iteration of uvmunmap(): the page is freed if asked for, and its entry
    cleared. *)
Lemma uvmunmap_page_run k root sh l a do_free :
  pt_pre k root sh l -> 0 <= a < MAXVA ->
  has (pte_at (k_mem k) sh a) PTE_V = true ->
  let p := PTE2PA (pte_at (k_mem k) sh a) in
  let ps := if (do_free : bool) then [p] else [] in
  freeable sh l ps ->
  exists r k', r <> 0 /\ walk root a false k = Ret r k /\
    kload 8 r k = Ret (pte_at (k_mem k) sh a) k /\
    (do! when do_free (kfree p); kstore 8 r 0) k = Ret tt k' /\
    pt_upd k k' root sh sh [] (ps ++ l) ps (set_pte (pte_at (k_mem k) sh) a 0).
Proof.
  intros Hpre Ha Hv p ps [_ Hfr]. pose proof MAXVA_lt.
  destruct (walk_lookup_cases k root sh a) as (r & E & [(-> & _ & E0)|(Hnz & Hr & El)]);
    [apply Hpre|lia|by rewrite E0 in Hv|].
  assert (exists k1, when do_free (kfree p) k = Ret tt k1 /\
            pt_upd k k1 root sh sh [] (ps ++ l) ps (pte_at (k_mem k) sh)) as (k1 & E1 & U1).
  { unfold ps in *. destruct do_free; simpl in *.
    - destruct (Hfr p) as (F1 & F2 & F3); [set_solver|]. by apply kfree_pt_run.
    - exists k. split; [done|]. by apply pt_upd_refl. }
  pose proof (pt_upd_pre _ _ _ _ _ _ _ _ _ (pp_ready _ _ _ _ Hpre) U1) as P1.
  destruct (kstore_pte_run k1 root sh (ps ++ l) a r 0) as (k2 & E2 & U2); [done|done|lia|lia|].
  exists r, k2. split; [done|]. split; [done|]. split; [done|].
  split; [by rewrite (bind_run _ _ _ _ _ E1)|].
  pose proof (pt_upd_trans _ _ _ _ _ _ _ _ _ _ _ _ _ _ _ U1 U2) as U. rewrite (app_nil_r ps) in U.
  eapply pt_upd_ext; [|exact U]. intros va Hva. unfold set_pte. case_decide; [done|].
  by apply (pu_pte _ _ _ _ _ _ _ _ _ U1).
Qed.

Lemma uvmunmap_loop_run root do_free n : forall fuel k sh l a,
  pt_pre k root sh l -> a mod 4096 = 0 -> 0 <= a -> a + 4096 * Z.of_nat n <= MAXVA ->
  let T := pte_at (k_mem k) sh in
  let ps := if (do_free : bool) then mapped_pages T a n else [] in
  unmappable T a n -> freeable sh l ps -> (n < fuel)%nat ->
  exists k', uvmunmap_loop fuel root a (a + 4096 * Z.of_nat n) do_free k = Ret tt k' /\
    pt_upd k k' root sh sh [] (rev ps ++ l) ps (unmap_range T a (Z.of_nat n)).
Proof.
  induction n as [|n IH]; intros [|fuel] k sh l a Hpre Ha Ha0 HaM T ps Hun Hfr Hf; try lia;
    cbn [uvmunmap_loop].
  - destruct (Z.ltb_spec a (a + 4096 * Z.of_nat 0)); [lia|]. exists k. split; [done|].
    assert (ps = []) as -> by by destruct do_free.
    eapply pt_upd_ext; [|by apply pt_upd_refl]. intros va _. unfold unmap_range.
    by rewrite decide_False by lia.
  - destruct (Z.ltb_spec a (a + 4096 * Z.of_nat (S n))); [|lia]. pose proof MAXVA_lt.
    destruct (Hun a ltac:(lia)) as [Hv Hleaf]. destruct Hfr as [Hnd Hfr].
    assert (Hps : ps = (if do_free then [PTE2PA (T a)] else []) ++
                       (if do_free then mapped_pages T (a + 4096) n else []))
      by by unfold ps; destruct do_free.
    rewrite Hps in *. apply NoDup_app in Hnd as (Hnd1 & Hnd12 & Hnd2).
    destruct (uvmunmap_page_run k root sh l a do_free) as (r & k1 & Hnz & Ew & El & E1 & U1);
      [done|lia|done|split; [done|intros; apply Hfr; set_solver]|].
    rewrite (bind_run _ _ _ _ _ Ew), (proj2 (Z.eqb_neq r 0) Hnz), (bind_run _ _ _ _ _ El).
    fold T. rewrite Hv, (proj2 (Z.eqb_neq _ _) Hleaf). simpl (negb true). cbv iota.
    rewrite (bind_run_seq _ _ _ _ _ E1). unfold PGSIZE. rewrite u64_small by lia.
    pose proof (pt_upd_pre _ _ _ _ _ _ _ _ _ (pp_ready _ _ _ _ Hpre) U1) as P1.
    fold T in U1. set (ps1 := if do_free then [PTE2PA (T a)] else []) in *.
    set (ps2 := if do_free then mapped_pages T (a + 4096) n else []) in *.
    assert (HT : forall va, a + 4096 <= va < a + 4096 + 4096 * Z.of_nat n ->
              pte_at (k_mem k1) sh va = T va).
    { intros va Hva. rewrite (pu_pte _ _ _ _ _ _ _ _ _ U1) by lia. unfold set_pte.
      rewrite decide_False; [done|]. rewrite same_vpage_range by done. lia. }
    assert (Hps2 : (if do_free then mapped_pages (pte_at (k_mem k1) sh) (a + 4096) n else []) = ps2)
      by (unfold ps2; destruct do_free; [by apply mapped_pages_ext|done]).
    destruct (IH fuel k1 sh (ps1 ++ l) (a + 4096)) as (k2 & E2 & U2);
      [done|by apply (page_next a 1)|lia|lia| | |lia|].
    + intros va Hva. rewrite HT by lia. apply Hun. lia.
    + rewrite Hps2. split; [done|]. intros p Hp. destruct (Hfr p) as (? & ? & ?); [set_solver|].
      split; [done|]. split; [|done]. set_solver.
    + rewrite Hps2 in U2. exists k2. split.
      { rewrite <- E2. f_equal. lia. }
      pose proof (pt_upd_trans _ _ _ _ _ _ _ _ _ _ _ _ _ _ _ U1 U2) as U.
      replace (rev (ps1 ++ ps2) ++ l) with (rev ps2 ++ ps1 ++ l)
        by (rewrite rev_app_distr, <- app_assoc; unfold ps1; by destruct do_free).
      eapply pt_upd_ext; [|exact U]. intros va Hva.
      replace (Z.of_nat (S n)) with (Z.of_nat n + 1) by lia.
      rewrite <- set_pte_0_unmap by lia. unfold unmap_range. case_decide; [done|].
      by apply (pu_pte _ _ _ _ _ _ _ _ _ U1).
Qed.

Lemma uvmunmap_run k root sh l va npages do_free :
  pt_pre k root sh l -> va mod 4096 = 0 -> 0 <= va -> 0 <= npages -> va + 4096 * npages <= MAXVA ->
  let T := pte_at (k_mem k) sh in
  let ps := if (do_free : bool) then mapped_pages T va (Z.to_nat npages) else [] in
  unmappable T va (Z.to_nat npages) -> freeable sh l ps ->
  exists k', uvmunmap root va npages do_free k = Ret tt k' /\
    pt_upd k k' root sh sh [] (rev ps ++ l) ps (unmap_range T va npages).
Proof.
  intros Hpre Ha Ha0 Hn HaM T ps Hun Hfr. pose proof MAXVA_lt.
  destruct (uvmunmap_loop_run root do_free (Z.to_nat npages) (S (Z.to_nat npages)) k sh l va)
    as (k' & E & U); try done; [lia|lia|].
  exists k'. split; [|by rewrite Z2Nat.id in U].
  unfold uvmunmap, PGSIZE. rewrite Ha. simpl (negb _). cbv iota. rewrite u64_small by lia.
  rewrite <- E. f_equal. lia.
Qed.

(** * copyout() *)

Definition user_writable (pte : Z) : bool := has pte PTE_V && has pte PTE_U && has pte PTE_W.

(** The byte of user memory at [va]. *)
Definition vbyte (m : mem) (sh : shape) (va : Z) : Z :=
  ld8 m (PTE2PA (pte_at m sh va) + va mod 4096).

(** The user pages of a process: pages of RAM that are neither page-table pages
    nor free, each mapped at one virtual page only. *)
Record user_pages (m : mem) (sh : shape) (l : list Z) : Prop := {
  up_page : forall va, 0 <= va < MAXVA -> user_writable (pte_at m sh va) = true ->
    ram_page (PTE2PA (pte_at m sh va)) /\ PTE2PA (pte_at m sh va) ∉ l /\
    forall r, sh r <> Some (PTE2PA (pte_at m sh va));
  up_inj : forall va va', 0 <= va < MAXVA -> 0 <= va' < MAXVA ->
    user_writable (pte_at m sh va) = true ->
    PTE2PA (pte_at m sh va) = PTE2PA (pte_at m sh va') -> same_vpage va va';
}.

Lemma same_vpage_pte m sh va va' :
  0 <= va < 2 ^ 39 -> 0 <= va' < 2 ^ 39 -> same_vpage va va' -> pte_at m sh va = pte_at m sh va'.
Proof.
  intros H1 H2 (E2 & E1 & E0)%same_vpage_PX; [|done..]. unfold pte_at, pte_addr. by rewrite E2, E1, E0.
Qed.

(** [k'] is [k] after [bs] has been written to user memory at [dstva]. *)
Record user_write (k k' : kernel) (root : Z) (sh : shape) (l : list Z) (dstva : Z) (bs : list Z) : Prop := {
  uw_upd : pt_upd k k' root sh sh [] l (map (fun va => PTE2PA (pte_at (k_mem k) sh va))
             (seqZ dstva (Z.of_nat (length bs)))) (pte_at (k_mem k) sh);
  uw_byte : forall va, 0 <= va < MAXVA -> user_writable (pte_at (k_mem k) sh va) = true ->
    vbyte (k_mem k') sh va =
      if decide (dstva <= va < dstva + Z.of_nat (length bs))
      then u8 (default 0 (bs !! Z.to_nat (va - dstva))) else vbyte (k_mem k) sh va;
}.

Lemma user_write_nil k root sh l dstva : pt_pre k root sh l -> user_write k k root sh l dstva [].
Proof.
  intros Hpre. split; [by apply pt_upd_refl|]. intros va Hva _. rewrite decide_False by (simpl; lia). done.
Qed.

Lemma page_write_upd k root sh l p m' dirty :
  pt_pre k root sh l -> ram_page p -> p ∉ l -> (forall r, sh r <> Some p) ->
  page_frame p (k_mem k) m' -> p ∈ dirty ->
  pt_upd k (set_mem m' k) root sh sh [] l dirty (pte_at (k_mem k) sh).
Proof.
  intros [Hk W Hl Hd] Hp Hn Hsh Hf Hdirty.
  pose proof (page_frame_same _ _ _ _ _ W Hsh Hp Hf) as Hs.
  change (set_mem m' k) with (set_mm m' (mm_freelist (k_mm k)) k).
  split; rewrite ?mem_set_mm; auto.
  - apply mm_only_set_mm.
  - by eapply tree_wf_same.
  - destruct Hl as [Hl Hnd]. split; [|done]. rewrite mem_set_mm. by eapply freelist_rep_frame.
  - intros. by apply pte_at_same.
  - intros b [_ Hb]. apply Hf, Hb. set_solver.
Qed.

Lemma kput_user_run k root sh l dstva bs :
  pt_pre k root sh l -> user_pages (k_mem k) sh l -> 0 <= dstva < MAXVA ->
  user_writable (pte_at (k_mem k) sh dstva) = true -> bs <> [] ->
  dstva mod 4096 + Z.of_nat (length bs) <= 4096 ->
  exists k', kput (PTE2PA (pte_at (k_mem k) sh dstva) + dstva mod 4096) bs k = Ret tt k' /\
    user_write k k' root sh l dstva bs.
Proof.
  intros Hpre Hup Hva Hw Hbs Hlen. pose proof MAXVA_lt.
  destruct (up_page _ _ _ Hup dstva Hva Hw) as (Hp & Hl & Hsh).
  set (p := PTE2PA (pte_at (k_mem k) sh dstva)) in *.
  pose proof (Z.mod_pos_bound dstva 4096 ltac:(lia)).
  assert (Hin : in_ram (p + dstva mod 4096) (Z.of_nat (length bs)) = true).
  { eapply in_ram_sub; [by apply ram_page_in_ram|lia|lia]. }
  exists (set_mem (st_bytes (k_mem k) (p + dstva mod 4096) bs) k).
  split; [unfold kput; by rewrite Hin|].
  assert (Hf : page_frame p (k_mem k) (st_bytes (k_mem k) (p + dstva mod 4096) bs)).
  { intros b Hb. rewrite ld8_st_bytes, decide_False by lia. done. }
  assert (U : pt_upd k (set_mem (st_bytes (k_mem k) (p + dstva mod 4096) bs) k) root sh sh [] l
                (map (fun va => PTE2PA (pte_at (k_mem k) sh va)) (seqZ dstva (Z.of_nat (length bs))))
                (pte_at (k_mem k) sh)).
  { eapply page_write_upd; try done. apply list_elem_of_fmap. exists dstva. split; [done|].
    apply elem_of_seqZ. destruct bs; simpl; [done|lia]. }
  split; [done|]. intros va Hva' Hw'. unfold vbyte.
  rewrite (pu_pte _ _ _ _ _ _ _ _ _ U) by lia.
  change (k_mem (set_mem ?m ?k)) with m.
  rewrite ld8_st_bytes. destruct (decide (PTE2PA (pte_at (k_mem k) sh va) = p)) as [E|E].
  - apply (up_inj _ _ _ Hup) in E; [|done..]. unfold same_vpage in E.
    assert (PTE2PA (pte_at (k_mem k) sh va) = p) as ->
      by (unfold p; f_equal; apply same_vpage_pte; [lia|lia|done]).
    replace (p + va mod 4096 - (p + dstva mod 4096)) with (va - dstva)
      by (Z.div_mod_to_equations; lia).
    pose proof (Z.div_mod va 4096). pose proof (Z.div_mod dstva 4096).
    repeat case_decide; lia || done.
  - destruct (up_page _ _ _ Hup va Hva' Hw') as (Hp' & _ & _).
    pose proof (ram_page_disjoint _ _ Hp' Hp E). pose proof (Z.mod_pos_bound va 4096 ltac:(lia)).
    rewrite decide_False by lia. rewrite decide_False; [done|]. intros Hr. apply E.
    unfold p. f_equal. apply same_vpage_pte; [lia|lia|]. unfold same_vpage.
    Z.div_mod_to_equations. lia.
Qed.

Lemma user_pages_upd k k' root sh l dirty :
  pt_upd k k' root sh sh [] l dirty (pte_at (k_mem k) sh) ->
  user_pages (k_mem k) sh l -> user_pages (k_mem k') sh l.
Proof.
  intros U [H1 H2]. pose proof MAXVA_lt. pose proof (pu_pte _ _ _ _ _ _ _ _ _ U) as HT. split.
  - intros va Hva. rewrite !HT by lia. auto.
  - intros va va' Hva Hva'. rewrite !HT by lia. auto.
Qed.

Lemma user_write_app k1 k2 k3 root sh l d bs1 bs2 :
  0 <= d -> user_write k1 k2 root sh l d bs1 ->
  user_write k2 k3 root sh l (d + Z.of_nat (length bs1)) bs2 ->
  d + Z.of_nat (length bs1) + Z.of_nat (length bs2) <= MAXVA ->
  user_write k1 k3 root sh l d (bs1 ++ bs2).
Proof.
  intros Hd [U1 B1] [U2 B2] Hle. pose proof MAXVA_lt.
  pose proof (pu_pte _ _ _ _ _ _ _ _ _ U1) as HT. split.
  - pose proof (pt_upd_trans _ _ _ _ _ _ _ _ _ _ _ _ _ _ _ U1 U2) as U. simpl in U.
    rewrite length_app, Nat2Z.inj_add, seqZ_app, map_app by lia.
    rewrite (map_ext_in (fun va => PTE2PA (pte_at (k_mem k1) sh va))
               (fun va => PTE2PA (pte_at (k_mem k2) sh va))
               (seqZ (d + Z.of_nat (length bs1)) (Z.of_nat (length bs2)))).
    + eapply pt_upd_ext; [|exact U]. done.
    + intros va Hva%list_elem_of_In%elem_of_seqZ. by rewrite HT by lia.
  - intros va Hva Hw. rewrite B2, B1 by (rewrite ?HT by lia; done). rewrite length_app, Nat2Z.inj_add.
    destruct (decide (d <= va < d + Z.of_nat (length bs1))).
    + rewrite decide_False, decide_True, lookup_app_l by lia. done.
    + repeat case_decide; try lia. rewrite lookup_app_r by lia. do 3 f_equal. lia.
Qed.

(** The outcome of copyout(): a prefix of [src] has been written, all of it, or
    what lies before the first page that is not a writable user page. *)
Definition copied_out (k : kernel) (root : Z) (sh : shape) (l : list Z) (dstva : Z) (src : list Z)
    (o : outcome kernel Z) : Prop :=
  exists r k' bs rest,
    o = Ret r k' /\ src = bs ++ rest /\ user_write k k' root sh l dstva bs /\
    (forall va, dstva <= va < dstva + Z.of_nat (length bs) ->
       va < MAXVA /\ user_writable (pte_at (k_mem k) sh va) = true) /\
    (r = 0 /\ rest = [] \/
     r = -1 /\ rest <> [] /\
       (MAXVA <= dstva + Z.of_nat (length bs) \/
        user_writable (pte_at (k_mem k) sh (dstva + Z.of_nat (length bs))) = false)).

Lemma copied_out_fail k root sh l dstva src :
  pt_pre k root sh l -> src <> [] ->
  MAXVA <= dstva \/ user_writable (pte_at (k_mem k) sh dstva) = false ->
  copied_out k root sh l dstva src (Ret (-1) k).
Proof.
  intros Hpre Hne Hf. exists (-1), k, [], src. split; [done|]. split; [done|].
  split; [by apply user_write_nil|]. split; [simpl; lia|]. right. simpl. by rewrite Z.add_0_r.
Qed.

Lemma copied_out_nil k root sh l dstva :
  pt_pre k root sh l -> copied_out k root sh l dstva [] (Ret 0 k).
Proof.
  intros Hpre. exists 0, k, [], []. split; [done|]. split; [done|].
  split; [by apply user_write_nil|]. split; [simpl; lia|by left].
Qed.

Lemma copied_out_step k k1 root sh l dstva bs rest o :
  0 <= dstva < 2 ^ 64 -> dstva + Z.of_nat (length bs) <= MAXVA ->
  (forall va, dstva <= va < dstva + Z.of_nat (length bs) ->
     user_writable (pte_at (k_mem k) sh va) = true) ->
  user_write k k1 root sh l dstva bs ->
  copied_out k1 root sh l (dstva + Z.of_nat (length bs)) rest o ->
  copied_out k root sh l dstva (bs ++ rest) o.
Proof.
  intros Hd Hle Hwr Hw (r & k' & bs' & rest' & -> & -> & Hw' & Hb & Hr). pose proof MAXVA_lt.
  assert (Hle' : dstva + Z.of_nat (length bs) + Z.of_nat (length bs') <= MAXVA).
  { destruct bs' as [|b bs']; [simpl; lia|].
    destruct (Hb (dstva + Z.of_nat (length bs) + Z.of_nat (length bs'))); simpl in *; lia. }
  pose proof (pu_pte _ _ _ _ _ _ _ _ _ (uw_upd _ _ _ _ _ _ _ Hw)) as HT.
  exists r, k', (bs ++ bs'), rest'. split; [done|]. split; [by rewrite app_assoc|].
  split; [by eapply user_write_app; [lia|..]|]. rewrite length_app, Nat2Z.inj_add, Z.add_assoc.
  split.
  { intros va Hva. destruct (decide (va < dstva + Z.of_nat (length bs))).
    - split; [lia|]. apply Hwr. lia.
    - rewrite <- HT by lia. apply Hb. lia. }
  destruct Hr as [Hr|(-> & Hne & Hr)]; [by left|]. right. split; [done|]. split; [done|].
  destruct Hr as [Hr|Hr]; [by left|].
  destruct (decide (MAXVA <= dstva + Z.of_nat (length bs) + Z.of_nat (length bs'))); [by left|].
  right. by rewrite HT in Hr by lia.
Qed.

Lemma MAXVA_page : MAXVA mod 4096 = 0.
Proof. by vm_compute. Qed.

(** The check that copyout() makes on the page of [dstva]. *)
Lemma copyout_check_run k root sh l dstva (c : Z -> K Z) :
  pt_pre k root sh l -> 0 <= dstva < 2 ^ 64 ->
  let body := (if MAXVA <=? PGROUNDDOWN dstva then ret (-1) else
               let! pte := walk root (PGROUNDDOWN dstva) false in
               if pte =? 0 then ret (-1) else
               let! v := kload 8 pte in
               if negb (has v PTE_V) || negb (has v PTE_U) || negb (has v PTE_W) then ret (-1) else
               c v) in
  body k = Ret (-1) k /\ (MAXVA <= dstva \/ user_writable (pte_at (k_mem k) sh dstva) = false) \/
  body k = c (pte_at (k_mem k) sh dstva) k /\ dstva < MAXVA /\
    user_writable (pte_at (k_mem k) sh dstva) = true.
Proof.
  intros Hpre Hd body. subst body. pose proof MAXVA_lt. pose proof MAXVA_page.
  pose proof (Z.mod_pos_bound dstva 4096 ltac:(lia)). pose proof (Z.mod_le dstva 4096).
  assert (Hpd : PGROUNDDOWN dstva = dstva - dstva mod 4096) by by apply PGROUNDDOWN_eq.
  destruct (Z.leb_spec MAXVA (PGROUNDDOWN dstva)) as [Hm|Hm]; [left; split; [done|left; lia]|].
  assert (HdM : dstva < MAXVA) by (rewrite Hpd in Hm; Z.div_mod_to_equations; lia).
  assert (Hpte : pte_at (k_mem k) sh (PGROUNDDOWN dstva) = pte_at (k_mem k) sh dstva).
  { apply same_vpage_pte; [lia|lia|]. apply same_vpage_range; rewrite Hpd; [|lia].
    Z.div_mod_to_equations. lia. }
  destruct (walk_lookup_cases k root sh (PGROUNDDOWN dstva)) as (r & Ew & Hr); [apply Hpre|done|].
  rewrite (bind_run _ _ _ _ _ Ew), Hpte in *. destruct Hr as [(-> & _ & E0)|(Hnz & _ & El)].
  { left. split; [done|]. right. by rewrite E0. }
  rewrite (proj2 (Z.eqb_neq r 0) Hnz), (bind_run _ _ _ _ _ El).
  rewrite <- !negb_andb. fold (user_writable (pte_at (k_mem k) sh dstva)).
  destruct (user_writable (pte_at (k_mem k) sh dstva)) eqn:Hw; [by right|left; auto].
Qed.

(** [n] bounds the pages that the rest of the buffer touches. *)
Lemma copyout_loop_run root n : forall fuel k sh l dstva src,
  pt_pre k root sh l -> user_pages (k_mem k) sh l -> 0 <= dstva < 2 ^ 64 ->
  (src <> [] -> dstva mod 4096 + Z.of_nat (length src) <= 4096 * Z.of_nat n) -> (n < fuel)%nat ->
  copied_out k root sh l dstva src
    (copyout_loop fuel root dstva src (Z.of_nat (length src)) k).
Proof.
  induction n as [|n IH]; intros [|fuel] k sh l dstva src Hpre Hup Hd Hlen Hf; try lia;
    cbn [copyout_loop]; pose proof (Z.mod_pos_bound dstva 4096 ltac:(lia)); pose proof MAXVA_lt.
  - destruct src; [by apply copied_out_nil|]. specialize (Hlen ltac:(done)). simpl in Hlen. lia.
  - destruct (decide (src = [])) as [->|Hne]; [by apply copied_out_nil|]. specialize (Hlen Hne).
    assert (Hpos : 0 < Z.of_nat (length src)) by (destruct src; simpl; [done|lia]).
    destruct (Z.ltb_spec 0 (Z.of_nat (length src))); [|lia]. cbv zeta.
    edestruct (copyout_check_run k root sh l dstva) as [[E Hfail]|(E & HdM & Hw)];
      [done|done|cbv zeta in E; rewrite E; by apply copied_out_fail|].
    cbv zeta in E. rewrite E. clear E.
    rewrite PGROUNDDOWN_eq by done.
    replace (dstva - (dstva - dstva mod 4096)) with (dstva mod 4096) by lia.
    set (c := if Z.of_nat (length src) <? PGSIZE - dstva mod 4096 then Z.of_nat (length src)
              else PGSIZE - dstva mod 4096).
    assert (Hc : 0 < c <= Z.of_nat (length src) /\ dstva mod 4096 + c <= 4096 /\
                 (c < Z.of_nat (length src) -> dstva mod 4096 + c = 4096))
      by (unfold c, PGSIZE; case_if; lia).
    assert (Hlt : length (take (Z.to_nat c) src) = Z.to_nat c) by (rewrite length_take; lia).
    destruct (kput_user_run k root sh l dstva (take (Z.to_nat c) src)) as (k1 & E1 & W1);
      [done|done|lia|done|by intros E; rewrite E in Hlt; simpl in Hlt; lia|lia|].
    rewrite (bind_run _ _ _ _ _ E1). pose proof MAXVA_page.
    rewrite <- (take_drop (Z.to_nat c) src) at 1. eapply (copied_out_step k k1); [lia| | |done|].
    { rewrite Hlt. Z.div_mod_to_equations. lia. }
    { intros va Hva. rewrite Hlt in Hva. rewrite <- Hw. f_equal. apply same_vpage_pte; [|lia|].
      - Z.div_mod_to_equations. lia.
      - unfold same_vpage. Z.div_mod_to_equations. lia. }
    pose proof (uw_upd _ _ _ _ _ _ _ W1) as U1.
    pose proof (pt_upd_pre _ _ _ _ _ _ _ _ _ (pp_ready _ _ _ _ Hpre) U1) as P1.
    rewrite Hlt, Z2Nat.id by lia.
    destruct (decide (c = Z.of_nat (length src))) as [Ec|Ec].
    { rewrite drop_ge by lia. replace (Z.of_nat (length src) - c) with 0 by lia.
      destruct fuel; [lia|]. by apply copied_out_nil. }
    unfold PGSIZE. replace (u64 (dstva - dstva mod 4096 + 4096)) with (dstva + c)
      by (rewrite u64_small; lia).
    replace (Z.of_nat (length src) - c) with (Z.of_nat (length (drop (Z.to_nat c) src)))
      by (rewrite length_drop; lia).
    apply IH; [done|by eapply user_pages_upd|lia| |lia].
    intros _. rewrite length_drop. Z.div_mod_to_equations. lia.
Qed.

Lemma copyout_run k root sh l dstva src :
  pt_pre k root sh l -> user_pages (k_mem k) sh l -> 0 <= dstva < 2 ^ 64 ->
  copied_out k root sh l dstva src (copyout root dstva src (Z.of_nat (length src)) k).
Proof.
  intros Hpre Hup Hd. unfold copyout, PGSIZE.
  apply (copyout_loop_run root (S (Z.to_nat (Z.of_nat (length src) / 4096 + 1)))); try done; [|lia].
  intros _. Z.div_mod_to_equations. lia.
Qed.

(** * u2kvmcopy() *)

(** Two page tables without a common page. *)
Definition trees_disj (sh sh' : shape) : Prop := forall r r' p, sh r = Some p -> sh' r' <> Some p.

(** The entry that u2kvmcopy() makes from a user entry. *)
Definition kpte (v : Z) : Z :=
  Z.lor (PA2PTE (PTE2PA v)) (u32 (Z.land (PTE_FLAGS v) (u64 (Z.lnot PTE_U)))).

(** [n] consecutive entries from [a] on copied from the user table [Tu]. *)
Definition mirror T Tu (a n : Z) : Z -> Z :=
  fun va => if decide (a <= va < a + 4096 * n) then kpte (Tu va) else T va.

Lemma kpte_flags_range v : 0 <= u32 (Z.land (PTE_FLAGS v) (u64 (Z.lnot PTE_U))) < 1024.
Proof.
  assert (E : u32 (Z.land (PTE_FLAGS v) (u64 (Z.lnot PTE_U))) =
              u32 (Z.land (PTE_FLAGS v) (u64 (Z.lnot PTE_U))) mod 2 ^ 10).
  { unfold u32, PTE_FLAGS. change 0x3FF with (Z.ones 10).
    rewrite <- !Z.land_ones, <- !Z.land_assoc by lia. f_equal. }
  rewrite E. by apply Z.mod_pos_bound.
Qed.

Lemma PTE2PA_is_page v : 0 <= v < 2 ^ 54 -> is_page (PTE2PA v).
Proof.
  intros Hv. rewrite PTE2PA_eq by done. split; [apply Z.mod_mul; lia|]. Z.div_mod_to_equations. lia.
Qed.

Lemma kpte_range v : 0 <= v < 2 ^ 54 -> 0 <= kpte v < 2 ^ 64.
Proof.
  intros. unfold kpte. apply pte_range; [by apply PTE2PA_is_page|apply kpte_flags_range].
Qed.

(** The copied entry maps the same page with the same permissions, except that
    user mode has no access. *)
Lemma kpte_spec v :
  0 <= v < 2 ^ 54 -> PTE2PA (kpte v) = PTE2PA v /\ has (kpte v) PTE_U = false /\
  forall f, f ∈ [PTE_V; PTE_R; PTE_W; PTE_X] -> has (kpte v) f = has v f.
Proof.
  intros Hv. pose proof (PTE2PA_is_page v Hv) as Hp. pose proof (kpte_flags_range v) as Hf.
  split; [unfold kpte; by apply PTE2PA_pte|].
  assert (E : forall f, 0 <= f < 1024 -> Z.land (kpte v) f =
                Z.land v (Z.land 0x3FF (Z.land (u64 (Z.lnot PTE_U)) (Z.land (Z.ones 32) f)))).
  { intros f Hf'. unfold kpte. rewrite land_pte_flag by done. unfold u32, PTE_FLAGS.
    by rewrite <- Z.land_ones, <- !Z.land_assoc by lia. }
  split.
  - unfold has. rewrite E by by vm_compute.
    replace (Z.land 0x3FF _) with 0 by by vm_compute. by rewrite Z.land_0_r.
  - intros f Hin. unfold has. rewrite E by (set_unfold; destruct_or!; subst; by vm_compute).
    do 2 f_equal. set_unfold; destruct_or!; subst; by vm_compute.
Qed.

Lemma pt_upd_same_on k k' root sh sh' used l' T root2 sh2 :
  pt_upd k k' root sh sh' used l' [] T -> tree_wf (k_mem k) root sh -> tree_wf (k_mem k) root2 sh2 ->
  trees_disj sh2 sh -> (forall p, p ∈ used -> ram_page p) -> tree_free_disj sh2 used ->
  same_on sh2 (k_mem k) (k_mem k').
Proof.
  intros U W W2 Hd Hused Hf r p o Hr Ho. apply ldn_ext. intros b Hb.
  apply (pu_mem _ _ _ _ _ _ _ _ _ U). pose proof (tw_page _ _ _ W2 _ _ Hr) as Hp.
  rewrite app_nil_r. split.
  - intros r' q Hq. assert (Hne : q <> p) by (intros ->; by eapply Hd).
    pose proof (ram_page_disjoint q p (tw_page _ _ _ W _ _ Hq) Hp Hne). lia.
  - intros q Hq. assert (Hne : q <> p) by (intros ->; by eapply Hf).
    pose proof (ram_page_disjoint q p (Hused _ Hq) Hp Hne). lia.
Qed.

(** The user table [shu] beside the kernel table [shk] and the free pages [l]. *)
Record two_trees (k : kernel) (uroot kroot : Z) (shu shk : shape) (l : list Z) : Prop := {
  tt_pre : pt_pre k kroot shk l;
  tt_user : tree_wf (k_mem k) uroot shu;
  tt_disj : trees_disj shu shk;
  tt_free : tree_free_disj shu l;
}.

Lemma same_on_trans sh m1 m2 m3 : same_on sh m1 m2 -> same_on sh m2 m3 -> same_on sh m1 m3.
Proof. intros H1 H2 r p o Hr Ho. by rewrite (H2 r), (H1 r). Qed.

(** The user table is not affected by an update of the kernel table. *)
Lemma two_trees_upd k k' uroot kroot shu shk shk' used l' T :
  two_trees k uroot kroot shu shk (used ++ l') -> pt_upd k k' kroot shk shk' used l' [] T ->
  two_trees k' uroot kroot shu shk' l' /\ same_on shu (k_mem k) (k_mem k').
Proof.
  intros [Hpre Wu Hd Hf] U.
  assert (Hs : same_on shu (k_mem k) (k_mem k')).
  { eapply pt_upd_same_on; try done; [apply Hpre| |].
    - intros p Hp. eapply freelist_rep_ram; [apply (pp_free _ _ _ _ Hpre)|set_solver].
    - intros r p Hr Hp. apply (Hf r p Hr). set_solver. }
  split; [|done]. split.
  - eapply pt_upd_pre; [apply Hpre|done].
  - by eapply tree_wf_same.
  - intros r r' p Hr Hr'. apply (pu_new _ _ _ _ _ _ _ _ _ U) in Hr' as [Hr'|Hr'].
    + by eapply Hd.
    + apply (Hf r p Hr). set_solver.
  - intros r p Hr Hp. apply (Hf r p Hr). set_solver.
Qed.

Lemma mirror_S T Tu a n va :
  a mod 4096 = 0 -> 0 <= n -> (forall v, same_vpage a v -> Tu v = Tu a) ->
  mirror (set_pte T a (kpte (Tu a))) Tu (a + 4096) n va = mirror T Tu a (n + 1) va.
Proof.
  intros Ha Hn HTu. unfold mirror, set_pte.
  destruct (decide (same_vpage a va)) as [E|E].
  - rewrite <- (HTu va E). rewrite same_vpage_range in E by done. by rewrite decide_False, decide_True by lia.
  - rewrite same_vpage_range in E by done. repeat case_decide; lia || done.
Qed.

(** One iteration of u2kvmcopy(). *)
Lemma u2kvmcopy_page_run k uroot kroot shu shk l a (rest : K unit) :
  two_trees k uroot kroot shu shk l -> 0 <= a < MAXVA -> is_Some (pte_addr shu a) ->
  0 <= pte_at (k_mem k) shu a < 2 ^ 54 ->
  let body := (let! pte_from := walk uroot a false in
               if pte_from =? 0 then panic "u2kvmcopy: src pte does not exist" else
               let! pte_to := walk kroot a true in
               if pte_to =? 0 then panic "u2kvmcopy: pte walk failed" else
               let! v := kload 8 pte_from in
               do! kstore 8 pte_to (kpte v); rest) in
  exists k' shk' used l', l = used ++ l' /\
    (body k = Panic "u2kvmcopy: pte walk failed" k' /\ free_pages k' [] \/
     body k = rest k' /\
       pt_upd k k' kroot shk shk' used l' []
         (set_pte (pte_at (k_mem k) shk) a (kpte (pte_at (k_mem k) shu a)))).
Proof.
  intros Htt Ha [ra Hra] Hr54 body. subst body. pose proof MAXVA_lt.
  destruct (walk_lookup_cases k uroot shu a) as (r & Ew & [(_ & E & _)|(Hnz & Hr & El)]);
    [apply Htt|lia|congruence|].
  rewrite (bind_run _ _ _ _ _ Ew), (proj2 (Z.eqb_neq r 0) Hnz).
  destruct (walk_alloc_cases k kroot shk l a) as (k1 & sh1 & u1 & l1 & r1 & -> & E1 & U1 & Hr1);
    [apply Htt|done|].
  rewrite (bind_run _ _ _ _ _ E1).
  destruct (two_trees_upd _ _ _ _ _ _ _ _ _ _ Htt U1) as [Htt1 Hs].
  destruct Hr1 as [[-> ->]|(Hnz1 & Hr1 & El1)].
  { exists k1, sh1, u1, []. split; [done|]. left. split; [done|]. by apply Htt1. }
  rewrite (proj2 (Z.eqb_neq r1 0) Hnz1).
  destruct (walk_lookup_cases k1 uroot shu a) as (r2 & _ & [(_ & E & _)|(_ & Hr2 & El2)]);
    [apply Htt1|lia|congruence|].
  replace r2 with r in El2 by congruence. rewrite (bind_run _ _ _ _ _ El2), (pte_at_same _ _ _ _ Hs).
  destruct (kstore_pte_run k1 kroot sh1 l1 a r1 (kpte (pte_at (k_mem k) shu a))) as (k2 & E2 & U2);
    [apply Htt1|done|lia|by apply kpte_range|].
  rewrite (bind_run _ _ _ _ _ E2). exists k2, sh1, u1, l1. split; [done|]. right. split; [done|].
  pose proof (pt_upd_trans _ _ _ _ _ _ _ _ _ _ _ _ _ _ _ U1 U2) as U12. rewrite app_nil_r in U12.
  eapply pt_upd_ext; [|exact U12]. intros va Hva. unfold set_pte. case_decide; [done|].
  by apply (pu_pte _ _ _ _ _ _ _ _ _ U1).
Qed.

(** [n] pages are left; the panic means that the allocator has run dry. *)
Lemma u2kvmcopy_loop_run uroot kroot shu n : forall fuel k shk l a newsz,
  two_trees k uroot kroot shu shk l -> a mod 4096 = 0 -> 0 <= a -> newsz <= MAXVA ->
  newsz <= a + 4096 * Z.of_nat n < newsz + 4096 -> (n < fuel)%nat ->
  (forall va, a <= va < a + 4096 * Z.of_nat n ->
     is_Some (pte_addr shu va) /\ 0 <= pte_at (k_mem k) shu va < 2 ^ 54) ->
  (exists k', u2kvmcopy_loop fuel uroot kroot a newsz k = Panic "u2kvmcopy: pte walk failed" k' /\
     free_pages k' []) \/
  exists k' shk' used l',
    l = used ++ l' /\ u2kvmcopy_loop fuel uroot kroot a newsz k = Ret tt k' /\
    pt_upd k k' kroot shk shk' used l' []
      (mirror (pte_at (k_mem k) shk) (pte_at (k_mem k) shu) a (Z.of_nat n)).
Proof.
  induction n as [|n IH]; intros [|fuel] k shk l a newsz Htt Ha Ha0 HM Hn Hf Hu; try lia;
    cbn [u2kvmcopy_loop]; pose proof MAXVA_lt; pose proof MAXVA_page.
  - destruct (Z.ltb_spec a newsz); [lia|]. right. exists k, shk, [], l. split; [done|]. split; [done|].
    eapply pt_upd_ext; [|apply pt_upd_refl, Htt]. intros. unfold mirror. by rewrite decide_False by lia.
  - destruct (Z.ltb_spec a newsz); [|lia].
    assert (HaM : a + 4096 * Z.of_nat (S n) <= MAXVA) by (Z.div_mod_to_equations; lia).
    destruct (Hu a ltac:(lia)) as [Hsome Hr54].
    unfold PGSIZE. rewrite (u64_small (a + 4096)) by lia.
    edestruct (u2kvmcopy_page_run k uroot kroot shu shk l a)
      as (k1 & sh1 & u1 & l1 & -> & [(E & Hl)|(E & U)]); [done|lia|done|done|..]; cbv zeta in E.
    { left. exists k1. split; [exact E|done]. }
    destruct (two_trees_upd _ _ _ _ _ _ _ _ _ _ Htt U) as [Htt1 Hs].
    pose proof (pte_at_same _ _ shu a Hs) as Hsa.
    assert (Hvp : forall v, same_vpage a v -> pte_at (k_mem k) shu v = pte_at (k_mem k) shu a).
    { intros v Hv. symmetry. apply same_vpage_pte; [lia| |done]. apply same_vpage_range in Hv; lia. }
    destruct (IH fuel k1 sh1 l1 (a + 4096) newsz)
      as [(k2 & E2 & Hl)|(k2 & sh2 & u2 & l2 & -> & E2 & U2)];
      [done|by apply (page_next a 1)|lia|done|lia|lia| | |].
    { intros va Hva. rewrite (pte_at_same _ _ _ _ Hs). apply Hu. lia. }
    { left. exists k2. split; [|done]. etransitivity; [exact E|exact E2]. }
    right. exists k2, sh2, (u1 ++ u2), l2. split; [by rewrite app_assoc|].
    split; [etransitivity; [exact E|exact E2]|].
    pose proof (pt_upd_trans _ _ _ _ _ _ _ _ _ _ _ _ _ _ _ U U2) as U12.
    eapply pt_upd_ext; [|exact U12]. intros va Hva.
    replace (Z.of_nat (S n)) with (Z.of_nat n + 1) by lia.
    rewrite <- mirror_S by (done || lia). unfold mirror. case_decide.
    + by rewrite (pte_at_same _ _ _ _ Hs).
    + by apply (pu_pte _ _ _ _ _ _ _ _ _ U).
Qed.

Lemma u2kvmcopy_run k uroot kroot shu shk l oldsz newsz :
  two_trees k uroot kroot shu shk l -> 0 <= oldsz <= newsz -> newsz <= MAXVA ->
  let n := (newsz - PGROUNDUP oldsz + 4095) / 4096 in
  (forall va, PGROUNDUP oldsz <= va < PGROUNDUP oldsz + 4096 * n ->
     is_Some (pte_addr shu va) /\ 0 <= pte_at (k_mem k) shu va < 2 ^ 54) ->
  (exists k', u2kvmcopy uroot kroot oldsz newsz k = Panic "u2kvmcopy: pte walk failed" k' /\
     free_pages k' []) \/
  exists k' shk' used l',
    l = used ++ l' /\ u2kvmcopy uroot kroot oldsz newsz k = Ret tt k' /\
    pt_upd k k' kroot shk shk' used l' []
      (mirror (pte_at (k_mem k) shk) (pte_at (k_mem k) shu) (PGROUNDUP oldsz) n).
Proof.
  intros Htt Ho HM n Hu. pose proof MAXVA_lt. unfold u2kvmcopy. destruct (Z.ltb_spec newsz oldsz); [lia|].
  destruct (PGROUNDUP_spec oldsz) as [Hp1 Hp2]; [lia|].
  assert (Hn : 0 <= n) by (unfold n; Z.div_mod_to_equations; lia).
  unfold PGSIZE. replace (newsz - PGROUNDUP oldsz + 4096 - 1) with (newsz - PGROUNDUP oldsz + 4095) by lia.
  fold n. destruct (u2kvmcopy_loop_run uroot kroot shu (Z.to_nat n) (S (Z.to_nat n)) k shk l
    (PGROUNDUP oldsz) newsz) as [P|P]; rewrite ?Z2Nat.id in * by done; try done; [lia| |lia|by left|by right].
  unfold n. Z.div_mod_to_equations. lia.
Qed.

(** * Properties *)

(** C7. mappages() on a page-aligned range that is not mapped yet.  It returns 0
    and the page table maps exactly the new range, each page to the corresponding
    physical page with the permissions asked for and PTE_V, all other
    translations being as before; or it returns -1, which happens only when the
    free list is exhausted, with a proper prefix of the range mapped.  In either
    case the page table stays well formed, takes its new pages from the front of
    the free list, and no memory outside the page table is written. *)
Theorem mappages_correct k root sh l va size pa perm :
  pt_pre k root sh l -> range_ok va size pa perm ->
  (forall a, va <= a < va + size -> has (pte_at (k_mem k) sh a) PTE_V = false) ->
  exists r k' sh' used l' mapped,
    mappages root va size pa perm k = Ret r k' /\ mm_only k k' /\
    (r = 0 /\ mapped = size \/ r = -1 /\ 0 <= mapped < size /\ l' = []) /\
    tree_wf (k_mem k') root sh' /\ l = used ++ l' /\ free_pages k' l' /\
    (forall a, 0 <= a < MAXVA -> pte_at (k_mem k') sh' a =
       if decide (va <= a < va + mapped)
       then Z.lor (Z.lor (PA2PTE (pa + (a - va) / 4096 * 4096)) perm) PTE_V
       else pte_at (k_mem k) sh a) /\
    (forall a, off_pages sh used a -> ld8 (k_mem k') a = ld8 (k_mem k) a).
Proof.
  intros Hpre Hok Hun. pose proof MAXVA_lt.
  destruct (mappages_run k root sh l va size pa perm Hpre Hok Hun)
    as (j & k' & sh' & used & l' & r & Hl & E & [] & Hr).
  exists r, k', sh', used, l', (4096 * j). split; [done|]. split; [done|]. split; [done|].
  split; [done|]. split; [done|]. split; [done|]. split.
  - intros a Ha. rewrite pu_pte0 by lia. done.
  - intros a Ha. apply pu_mem0. by rewrite app_nil_r.
Qed.

(** uvmunmap() clears the entries of [npages] pages from [va] on, and no
    others; with do_free the pages they mapped go to the free list, last one
    first, and those are the only pages written besides the page table.  The
    page table stays well formed and keeps its own pages. *)
Theorem uvmunmap_correct k root sh l va npages do_free :
  pt_pre k root sh l -> va mod 4096 = 0 -> 0 <= va -> 0 <= npages -> va + 4096 * npages <= MAXVA ->
  let T := pte_at (k_mem k) sh in
  let ps := if (do_free : bool) then mapped_pages T va (Z.to_nat npages) else [] in
  unmappable T va (Z.to_nat npages) -> freeable sh l ps ->
  exists k', uvmunmap root va npages do_free k = Ret tt k' /\ mm_only k k' /\
    tree_wf (k_mem k') root sh /\ free_pages k' (rev ps ++ l) /\
    (forall a, 0 <= a < MAXVA -> pte_at (k_mem k') sh a =
       if decide (va <= a < va + 4096 * npages) then 0 else T a) /\
    (forall a, off_pages sh ps a -> ld8 (k_mem k') a = ld8 (k_mem k) a).
Proof.
  intros Hpre Ha Ha0 Hn HaM T ps Hun Hfr. pose proof MAXVA_lt.
  destruct (uvmunmap_run k root sh l va npages do_free Hpre Ha Ha0 Hn HaM Hun Hfr) as (k' & E & []).
  exists k'. split; [done|]. split; [done|]. split; [done|]. split; [done|]. split; [|done].
  intros a Ha'. rewrite pu_pte0 by lia. done.
Qed.

(** C8. copyout() returns 0 exactly when every page it has to write is a
    writable user page below MAXVA; then the user's memory holds [src] at
    [dstva] and is otherwise unchanged.  Otherwise it returns -1, and exactly
    the bytes before the first page that is not writable have been written.  The
    page table and the free list are untouched. *)
Theorem copyout_correct k root sh l dstva src :
  pt_pre k root sh l -> user_pages (k_mem k) sh l -> 0 <= dstva < 2 ^ 64 ->
  let ok va := va < MAXVA /\ user_writable (pte_at (k_mem k) sh va) = true in
  exists r k' bs rest,
    copyout root dstva src (Z.of_nat (length src)) k = Ret r k' /\
    src = bs ++ rest /\ user_write k k' root sh l dstva bs /\
    (forall va, dstva <= va < dstva + Z.of_nat (length bs) -> ok va) /\
    (r = 0 /\ rest = [] \/ r = -1 /\ rest <> [] /\ ~ ok (dstva + Z.of_nat (length bs))) /\
    (r = 0 <-> forall va, dstva <= va < dstva + Z.of_nat (length src) -> ok va).
Proof.
  intros Hpre Hup Hd ok.
  destruct (copyout_run k root sh l dstva src Hpre Hup Hd)
    as (r & k' & bs & rest & E & -> & Hw & Hok & Hr).
  assert (Hr' : r = 0 /\ rest = [] \/ r = -1 /\ rest <> [] /\ ~ ok (dstva + Z.of_nat (length bs))).
  { destruct Hr as [?|(? & ? & Hbad)]; [by left|right]. split; [done|]. split; [done|].
    intros [Ho1 Ho2]. destruct Hbad as [?|Hbad]; [lia|congruence]. }
  exists r, k', bs, rest. split; [done|]. split; [done|]. split; [done|]. split; [done|]. split; [done|].
  rewrite length_app, Nat2Z.inj_add. destruct Hr' as [[-> ->]|(-> & Hne & Hbad)].
  - split; [|done]. intros _ va Hva. apply Hok. simpl in Hva. lia.
  - split; [done|]. intros Hall. destruct Hbad. apply Hall. destruct rest; simpl; [done|lia].
Qed.

(** C6. u2kvmcopy() makes the process's kernel page table translate every user
    page of [oldsz, newsz) to the same physical page with the same R, W, X and V
    bits and with the U bit cleared; other translations of the kernel table and
    the whole user table are unchanged.  It panics only when the allocator has
    no page left for the table. *)
Theorem u2kvmcopy_correct k uroot kroot shu shk l oldsz newsz :
  two_trees k uroot kroot shu shk l -> 0 <= oldsz <= newsz -> newsz <= MAXVA ->
  let n := (newsz - PGROUNDUP oldsz + 4095) / 4096 in
  (forall va, PGROUNDUP oldsz <= va < PGROUNDUP oldsz + 4096 * n ->
     is_Some (pte_addr shu va) /\ 0 <= pte_at (k_mem k) shu va < 2 ^ 54) ->
  (exists k', u2kvmcopy uroot kroot oldsz newsz k = Panic "u2kvmcopy: pte walk failed" k' /\
     free_pages k' []) \/
  exists k' shk',
    u2kvmcopy uroot kroot oldsz newsz k = Ret tt k' /\ mm_only k k' /\
    tree_wf (k_mem k') kroot shk' /\ trees_disj shu shk' /\
    (forall va, pte_at (k_mem k') shu va = pte_at (k_mem k) shu va) /\
    forall va, 0 <= va < MAXVA ->
      let new := pte_at (k_mem k') shk' va in
      if decide (PGROUNDUP oldsz <= va < PGROUNDUP oldsz + 4096 * n)
      then PTE2PA new = PTE2PA (pte_at (k_mem k) shu va) /\ has new PTE_U = false /\
           forall f, f ∈ [PTE_V; PTE_R; PTE_W; PTE_X] -> has new f = has (pte_at (k_mem k) shu va) f
      else new = pte_at (k_mem k) shk va.
Proof.
  intros Htt Ho HM n Hu. pose proof MAXVA_lt.
  destruct (u2kvmcopy_run k uroot kroot shu shk l oldsz newsz)
    as [P|(k' & shk' & used & l' & -> & E & U)]; [done..|by left|].
  right. exists k', shk'. split; [done|]. split; [apply U|]. split; [apply U|].
  destruct (two_trees_upd _ _ _ _ _ _ _ _ _ _ Htt U) as [Htt' Hs].
  split; [apply Htt'|]. split; [intros; by apply pte_at_same|].
  intros va Hva new. unfold new. rewrite (pu_pte _ _ _ _ _ _ _ _ _ U) by lia. unfold mirror. fold n.
  case_decide; [|done]. apply kpte_spec. by apply Hu.
Qed.

End Map.

(** * Witnesses *)

(** A user page table with root 0x80030000 that maps page 0 to 0x80033000 (V, R,
    W, U), an empty kernel page table at 0x80034000, two free pages. *)
Definition sample_mem : mem :=
  st64 (st64 (st64 (k_mem two_pages) 0x80030000 (Z.lor (PA2PTE 0x80031000) PTE_V))
     0x80031000 (Z.lor (PA2PTE 0x80032000) PTE_V))
     0x80032000 (Z.lor (PA2PTE 0x80033000) 0x17).

Definition sample_k : kernel := set_mm sample_mem 0x80023000 two_pages.

Definition sample_shu : shape := fun r =>
  match r with
  | Root => Some 0x80030000
  | L1 0 => Some 0x80031000
  | L0 0 0 => Some 0x80032000
  | _ => None
  end.

Definition sample_shk : shape := fun r => match r with Root => Some 0x80034000 | _ => None end.

Lemma sample_ld64_other a :
  (forall b, b ∈ [0x80023000; 0x80030000; 0x80031000; 0x80032000] -> a + 8 <= b \/ b + 8 <= a) ->
  ld64 sample_mem a = 0.
Proof.
  intros Ha. unfold sample_mem. rewrite !ld64_st64_ne by (apply Ha; set_solver).
  change (k_mem two_pages) with (st64 ∅ 0x80023000 0x80024000).
  rewrite ld64_st64_ne by (apply Ha; set_solver). unfold ld64. by vm_compute.
Qed.

Ltac page_cases := set_unfold; destruct_or?; subst; lia.

(** Case analysis on a role and on whether its indices are 0. *)
Ltac role_cases r :=
  let i := fresh "i" in let j := fresh "j" in
  destruct r as [|i|i j]; [|destruct i|destruct i, j]; simpl in *; simplify_eq.

Lemma sample_user_wf : tree_wf sample_mem 0x80030000 sample_shu.
Proof.
  split; [done|..].
  - intros r q Hq. role_cases r; split; by vm_compute.
  - intros r1 r2 q H1 H2. role_cases r1; role_cases r2; done.
  - intros r q idx c Hq Hc Hi. role_cases r;
      (destruct idx as [|idx|idx]; [try by vm_compute| |lia]); simpl;
      rewrite sample_ld64_other by page_cases; done.
  - intros r idx c q Hq Hc. role_cases r; destruct idx; simpl in *; simplify_eq; split; done || lia.
Qed.

Lemma sample_kernel_wf : tree_wf sample_mem 0x80034000 sample_shk.
Proof.
  split; [done|..].
  - intros r q Hq. role_cases r; split; by vm_compute.
  - intros r1 r2 q H1 H2. role_cases r1; role_cases r2; done.
  - intros r q idx c Hq Hc Hi. role_cases r. simpl. rewrite sample_ld64_other by page_cases. done.
  - intros r idx c q Hq Hc. role_cases r.
Qed.

Lemma sample_free : free_pages sample_k [0x80023000; 0x80024000].
Proof.
  split; [|apply (bool_decide_unpack _); by vm_compute].
  simpl. unfold ram_page. repeat split; by vm_compute.
Qed.

Lemma sample_user_pre : pt_pre sample_k 0x80030000 sample_shu [0x80023000; 0x80024000].
Proof.
  split; [apply mm_ready_set_mm, two_pages_ready|apply sample_user_wf|apply sample_free|].
  intros r q Hq. role_cases r; apply (bool_decide_unpack _); by vm_compute.
Qed.

Lemma sample_two_trees :
  two_trees sample_k 0x80030000 0x80034000 sample_shu sample_shk [0x80023000; 0x80024000].
Proof.
  split; [|apply sample_user_wf| |apply sample_user_pre].
  - split; [apply mm_ready_set_mm, two_pages_ready|apply sample_kernel_wf|apply sample_free|].
    intros r q Hq. role_cases r; apply (bool_decide_unpack _); by vm_compute.
  - intros r1 r2 q H1 H2. role_cases r1; role_cases r2; done.
Qed.

(** The user table maps the addresses of page 0 only. *)
Lemma sample_pte va :
  0 <= va < 4096 -> pte_at sample_mem sample_shu va = Z.lor (PA2PTE 0x80033000) 0x17.
Proof.
  intros Hva. rewrite <- (same_vpage_pte sample_mem sample_shu 0 va); [by vm_compute|lia|lia|].
  apply same_vpage_range; [done|lia].
Qed.

Lemma sample_pte_other va :
  0 <= va < MAXVA -> pte_at sample_mem sample_shu va <> 0 -> 0 <= va < 4096.
Proof.
  intros Hva. pose proof MAXVA_lt. unfold pte_at, pte_addr, sample_shu.
  assert (H2 : 0 <= PX 2 va < 512) by (apply PX_range; lia).
  assert (H1 : 0 <= PX 1 va < 512) by (apply PX_range; lia).
  assert (H0 : 0 <= PX 0 va < 512) by (apply PX_range; lia).
  pose proof (PX_decompose va ltac:(lia)). pose proof (Z.mod_pos_bound va 4096).
  destruct (PX 2 va) eqn:E2; [|done..]. destruct (PX 1 va) eqn:E1; [|done..].
  destruct (PX 0 va) eqn:E0; [lia| |lia].
  rewrite sample_ld64_other; [done|]. page_cases.
Qed.

Lemma sample_user_pages : user_pages (k_mem sample_k) sample_shu [0x80023000; 0x80024000].
Proof.
  change (k_mem sample_k) with sample_mem. split.
  + intros va Hva Hw. assert (Hp : 0 <= va < 4096).
    { apply sample_pte_other; [done|]. intros E. by rewrite E in Hw. }
    rewrite sample_pte by done. change (PTE2PA _) with 0x80033000.
    split; [by split; vm_compute|]. split; [apply (bool_decide_unpack _); by vm_compute|].
    intros r. role_cases r; by intros ?; simplify_eq.
  + intros va va' Hva Hva' Hw E. assert (Hp : 0 <= va < 4096).
    { apply sample_pte_other; [done|]. intros E0. by rewrite E0 in Hw. }
    rewrite sample_pte in E by done. assert (Hp' : 0 <= va' < 4096).
    { apply sample_pte_other; [done|]. intros E0. rewrite E0 in E. by vm_compute in E. }
    unfold same_vpage. Z.div_mod_to_equations. lia.
Qed.

Lemma mappages_correct_witness :
  exists r k', mappages 0x80034000 0x1000 0x1000 0x80025000 (Z.lor PTE_R PTE_W) sample_k = Ret r k' /\
    mm_only sample_k k'.
Proof.
  destruct (mappages_correct sample_k 0x80034000 sample_shk [0x80023000; 0x80024000]
              0x1000 0x1000 0x80025000 (Z.lor PTE_R PTE_W))
    as (r & k' & _ & _ & _ & _ & E & Ho & _).
  - apply sample_two_trees.
  - repeat split; by vm_compute.
  - intros a Ha. reflexivity.
  - exists r, k'. split; [exact E|exact Ho].
Defined.

Lemma uvmunmap_correct_witness :
  exists k', uvmunmap 0x80030000 0 1 true sample_k = Ret tt k' /\
    free_pages k' [0x80033000; 0x80023000; 0x80024000].
Proof.
  destruct (uvmunmap_correct sample_k 0x80030000 sample_shu [0x80023000; 0x80024000] 0 1 true)
    as (k' & E & _ & _ & Hl & _).
  - apply sample_user_pre.
  - reflexivity.
  - lia.
  - lia.
  - by vm_compute.
  - intros va Hva. rewrite sample_pte by (simpl in Hva; lia). by vm_compute.
  - simpl. rewrite sample_pte by lia. split; [apply NoDup_singleton|].
    intros p ->%list_elem_of_singleton. change (PTE2PA _) with 0x80033000.
    split; [by split; vm_compute|]. split; [apply (bool_decide_unpack _); by vm_compute|].
    intros r. role_cases r; by intros ?; simplify_eq.
  - exists k'. split; [exact E|]. simpl in Hl. by rewrite sample_pte in Hl by lia.
Defined.

Lemma copyout_correct_witness :
  exists r k' bs rest, copyout 0x80030000 4094 [1; 2; 3] 3 sample_k = Ret r k' /\
    [1; 2; 3] = bs ++ rest /\ user_write sample_k k' 0x80030000 sample_shu [0x80023000; 0x80024000] 4094 bs.
Proof.
  destruct (copyout_correct sample_k 0x80030000 sample_shu [0x80023000; 0x80024000] 4094 [1; 2; 3])
    as (r & k' & bs & rest & E & Hs & Hw & _).
  - apply sample_user_pre.
  - exact sample_user_pages.
  - lia.
  - exists r, k', bs, rest. split; [exact E|]. split; [exact Hs|exact Hw].
Defined.

Lemma u2kvmcopy_correct_witness :
  (exists k', u2kvmcopy 0x80030000 0x80034000 0 4096 sample_k =
                Panic "u2kvmcopy: pte walk failed" k' /\ free_pages k' []) \/
  exists k' shk', u2kvmcopy 0x80030000 0x80034000 0 4096 sample_k = Ret tt k' /\
    PTE2PA (pte_at (k_mem k') shk' 100) = 0x80033000.
Proof.
  destruct (u2kvmcopy_correct sample_k 0x80030000 0x80034000 sample_shu sample_shk
              [0x80023000; 0x80024000] 0 4096) as [P|(k' & shk' & E & _ & _ & _ & _ & HT)].
  - apply sample_two_trees.
  - lia.
  - by vm_compute.
  - change (PGROUNDUP 0 + 4096 * _) with 4096. change (PGROUNDUP 0) with 0. intros va Hva.
    change (k_mem sample_k) with sample_mem. rewrite sample_pte by done. split; [|by vm_compute].
    assert (E : pte_addr sample_shu va <> None); [|by destruct (pte_addr sample_shu va)].
    intros E. pose proof (sample_pte va Hva) as Hp. unfold pte_at in Hp. by rewrite E in Hp.
  - left. exact P.
  - right. exists k', shk'. split; [exact E|].
    specialize (HT 100 ltac:(clear; by vm_compute)). cbv zeta in HT.
    rewrite decide_True in HT by (clear; by vm_compute). destruct HT as [Hp _]. rewrite Hp.
    change (k_mem sample_k) with sample_mem. by rewrite sample_pte by lia.
Defined.
