(* ===== verification/Printf.v ===== *)
(** kernel/printf.c, with the polled output path of kernel/uart.c
    (uartputc_sync) and consputc() of kernel/console.c; vmprint() of
    kernel/vm.c, which prints with it. *)

From Stdlib Require Import ZArith Lia Ascii.
From stdpp Require Import base gmap list_numbers strings numbers list.
From S2P Require Import Prelude Mem Riscv Kernel Spinlock Kalloc Vm.

Open Scope Z_scope.

Definition NL : Z := 10.

(** * The UART, polled *)

Definition upd_uart (f : uart -> uart) : K unit := modify (fun k => set_k_uart (f (k_uart k)) k).

(** ReadReg(LSR) & LSR_TX_IDLE *)
Definition lsr_tx_idle : K bool :=
  let! l := gets (fun k => uart_idle (k_uart k)) in
  match l with
  | [] => ret true
  | b :: l' => do! upd_uart (set_uart_idle l'); ret b
  end.

(** WriteReg(THR, c) *)
Definition write_thr (c : Z) : K unit :=
  upd_uart (fun u => set_uart_out (uart_out u ++ [u8 c]) u).

(** while((ReadReg(LSR) & LSR_TX_IDLE) == 0) ; *)
Fixpoint wait_tx_idle (fuel : nat) : K unit :=
  match fuel with
  | O => nofuel
  | S f => let! b := lsr_tx_idle in if (b : bool) then ret tt else wait_tx_idle f
  end.

Definition uartputc_sync (c : Z) : K unit :=
  do! push_off;
  let! panicked := gets k_panicked in
  if negb (panicked =? 0) then (fun k => Spin k) else
  let! n := gets (fun k => length (uart_idle (k_uart k))) in
  do! wait_tx_idle (S n);
  do! write_thr c;
  pop_off.

Definition BACKSPACE : Z := 0x100.

Definition consputc (c : Z) : K unit :=
  if c =? BACKSPACE then
    do! uartputc_sync 8; do! uartputc_sync 32; uartputc_sync 8
  else uartputc_sync c.

(** * printf.c *)

Definition digits : list Z := str "0123456789abcdef".

(** do { buf[i++] = digits[x % base]; } while((x /= base) != 0);
    [buf] is the part of buf[16] written so far. *)
Fixpoint printint_loop (fuel : nat) (x base : Z) (buf : list Z) : K (list Z) :=
  match fuel with
  | O => nofuel
  | S f =>
      if 16 <=? Z.of_nat (length buf) then fault "buf" else
      let! d := need "digits" (digits !! Z.to_nat (x mod base)) in
      let buf := buf ++ [d] in
      let x := x / base in
      if negb (x =? 0) then printint_loop f x base buf else ret buf
  end.

(** while(--i >= 0) consputc(buf[i]); *)
Definition put_back (buf : list Z) : K unit := each (rev buf) consputc.

Definition printint (xx base : Z) (sign : bool) : K unit :=
  let neg := sign && (xx <? 0) in
  let x := if neg then u32 (- xx) else u32 xx in
  let! buf := printint_loop 32 x base [] in
  if neg then
    if 16 <=? Z.of_nat (length buf) then fault "buf" else put_back (buf ++ [45])
  else put_back buf.

(** for(i = 0; i < 16; i++, x <<= 4) consputc(digits[x >> 60]); *)
Fixpoint printptr_loop (n : nat) (x : Z) : K unit :=
  match n with
  | O => ret tt
  | S n' =>
      let! d := need "digits" (digits !! Z.to_nat (Z.shiftr x 60)) in
      do! consputc d;
      printptr_loop n' (u64 (Z.shiftl x 4))
  end.

Definition printptr (x : Z) : K unit :=
  do! consputc 48;
  do! consputc 120;
  printptr_loop 16 x.

(** The variable arguments: an int, a uint64, or a char pointer. *)
Inductive vararg : Type := AInt (z : Z) | APtr (z : Z) | AStr (s : option (list Z)).

(** for(; *s; s++) consputc( *s ); *)
Fixpoint put_str (s : list Z) : K unit :=
  match s with
  | [] => ret tt
  | c :: s' => if c =? 0 then ret tt else do! consputc c; put_str s'
  end.

(** for(i = 0; (c = fmt[i] & 0xff) != 0; i++); the list is fmt from index i on,
    its end the terminating NUL. *)
Fixpoint printf_loop (fmt : list Z) (ap : list vararg) : K unit :=
  match fmt with
  | [] => ret tt
  | c :: fmt' =>
      if c =? 0 then ret tt else
      if negb (c =? 37) then do! consputc c; printf_loop fmt' ap else
      match fmt' with
      | [] => ret tt
      | c :: fmt'' =>
          if c =? 0 then ret tt else
          if c =? 100 then
            match ap with
            | AInt z :: ap' => do! printint z 10 true; printf_loop fmt'' ap'
            | _ => fault "va_arg"
            end
          else if c =? 120 then
            match ap with
            | AInt z :: ap' => do! printint z 16 true; printf_loop fmt'' ap'
            | _ => fault "va_arg"
            end
          else if c =? 112 then
            match ap with
            | APtr z :: ap' => do! printptr z; printf_loop fmt'' ap'
            | _ => fault "va_arg"
            end
          else if c =? 115 then
            match ap with
            | AStr s :: ap' => do! put_str (default (str "(null)") s); printf_loop fmt'' ap'
            | _ => fault "va_arg"
            end
          else if c =? 37 then do! consputc 37; printf_loop fmt'' ap
          else do! consputc 37; do! consputc c; printf_loop fmt'' ap
      end
  end.

Definition printf (fmt : option (list Z)) (ap : list vararg) : K unit :=
  let! locking := gets k_pr_locking in
  do! when (negb (locking =? 0)) (acquire LPr);
  match fmt with
  | None => panic "null fmt"
  | Some f =>
      do! printf_loop f ap;
      when (negb (locking =? 0)) (release LPr)
  end.

(** What panic(s) does before it loops for ever; the [Panic] outcome of the
    model stands for a call of it. *)
Definition panic_print (s : list Z) : K unit :=
  do! modify (set_k_pr_locking 0);
  do! printf (Some (str "panic: ")) [];
  do! printf (Some s) [];
  do! printf (Some [NL]) [];
  modify (set_k_panicked 1).

Definition printfinit : K unit :=
  do! initlock LPr "pr";
  modify (set_k_pr_locking 1).

(** * vmprint() of vm.c *)

(** [levels] bounds the recursion; a table of walk() has three levels. *)
Fixpoint _vmprint (levels : nat) (pagetable : Z) (depth : nat) : K unit :=
  match levels with
  | O => nofuel
  | S lv =>
      each (seqZ 0 512) (fun i =>
        let! pte := kload 8 (pagetable + 8 * i) in
        when (has pte PTE_V)
          (do! each (seq 0 depth) (fun _ => printf (Some (str ".. ")) []);
           do! printf (Some (str "%d: pte %p pa %p" ++ [NL])) [AInt i; APtr pte; APtr (PTE2PA pte)];
           when (negb (has pte (Z.lor (Z.lor PTE_R PTE_W) PTE_X)))
             (_vmprint lv (PTE2PA pte) (S depth))))
  end.

Definition vmprint (pagetable : Z) : K unit :=
  do! printf (Some (str "page table %p" ++ [NL])) [APtr pagetable];
  _vmprint 3 pagetable 1.
