(* ===== verification/PrintfSpec.v ===== *)
(** What printf() prints (kernel/printf.c, uartputc_sync() of kernel/uart.c and consputc()
    of kernel/console.c): the text of a format and its arguments reaches the UART, in order
    and complete. *)

From Stdlib Require Import ZArith Lia Ascii.
From stdpp Require Import base gmap list_numbers strings numbers list.
From S2P Require Import Prelude Mem Riscv Kernel Spinlock Kalloc Vm Printf.

Open Scope Z_scope.

Implicit Types (k : kernel).

(** * Characters *)

(** What is left of the UART's answers after the wait for an idle transmitter. *)
Fixpoint polled (l : list bool) : list bool :=
  match l with
  | [] => []
  | true :: l' => l'
  | false :: l' => polled l'
  end.

Definition sent (c : Z) (u : uart) : uart :=
  set_uart_out (uart_out u ++ [u8 c]) (set_uart_idle (polled (uart_idle u)) u).

(** The UART after the characters [s] have been sent. *)
Definition emit (s : list Z) (k : kernel) : kernel :=
  set_k_uart (foldl (fun u c => sent c u) (k_uart k) s) k.

Lemma emit_data_only s : data_only (emit s).
Proof. by intros h cs ls k. Qed.

Lemma emit_app s1 s2 k : emit s2 (emit s1 k) = emit (s1 ++ s2) k.
Proof. unfold emit. simpl. by rewrite foldl_app. Qed.

Lemma emit_out s k : uart_out (k_uart (emit s k)) = uart_out (k_uart k) ++ (u8 <$> s).
Proof.
  unfold emit. simpl. generalize (k_uart k) as u. induction s as [|c s IH]; intros u; simpl; [by rewrite app_nil_r|].
  rewrite IH. simpl. by rewrite <- app_assoc.
Qed.

Lemma wait_tx_idle_run k : forall l n, uart_idle (k_uart k) = l -> (length l < n)%nat ->
  wait_tx_idle n k = Ret tt (set_k_uart (set_uart_idle (polled l) (k_uart k)) k).
Proof.
  intros l. revert k. induction l as [|b l IH]; intros k n E Hn; (destruct n as [|n]; [simpl in Hn; lia|]); simpl;
    unfold lsr_tx_idle, bind, gets; simpl; rewrite E.
  - unfold ret. f_equal. destruct k as [? ? ? ? ? ? ? ? ? ? ? ? ? ? [] ? ? ? ? ? ?]. simpl in *. by subst.
  - simpl. destruct b; [done|]. simpl in Hn. rewrite (IH _ n); [|done|lia]. done.
Qed.

(** printf() can run: the kernel has not panicked. *)
Lemma uartputc_sync_run k c : cpu_ok k -> k_panicked k = 0 -> uartputc_sync c k = Ret tt (emit [c] (relax k)).
Proof.
  intros (i & cp & OC) Hp. unfold uartputc_sync. rewrite (bind_run _ _ _ _ _ (push_off_run _ _ _ OC)).
  unfold bind at 1, gets at 1. cbn [obind]. change (k_panicked (pushed k)) with (k_panicked k). rewrite Hp. cbn [Z.eqb negb].
  unfold bind at 1, gets at 1. cbn [obind].
  rewrite (bind_run _ _ _ _ _ (wait_tx_idle_run (pushed k) _ _ eq_refl (Nat.lt_succ_diag_r _))).
  erewrite bind_run by reflexivity. by rewrite (pop_off_pushed k i cp _ OC).
Qed.

Lemma emit_cpu_ok s k : cpu_ok k -> cpu_ok (emit s k).
Proof. apply data_only_cpu_ok, emit_data_only. Qed.

(** A call that sends the characters [s] and has no other effect.  ([relax k = k]: the
    saved interrupt flag of the CPU is up to date, as inside every critical section.) *)
Definition prints (m : K unit) (s : list Z) : Prop :=
  forall k, cpu_ok k -> k_panicked k = 0 -> relax k = k -> m k = Ret tt (emit s k).

Lemma emit_nil k : emit [] k = k.
Proof. by destruct k. Qed.

Lemma prints_ret : prints (ret tt) [].
Proof. intros k _ _ _. by rewrite emit_nil. Qed.

Lemma prints_seq m1 m2 s1 s2 : prints m1 s1 -> prints m2 s2 -> prints (do! m1; m2) (s1 ++ s2).
Proof.
  intros H1 H2 k Hok Hp Hr. rewrite (bind_run _ _ _ _ _ (H1 k Hok Hp Hr)).
  rewrite H2; [by rewrite emit_app|by apply emit_cpu_ok|done|].
  by rewrite (data_only_relax _ _ (emit_data_only s1)), Hr.
Qed.

Lemma consputc_prints c : c <> BACKSPACE -> prints (consputc c) [c].
Proof.
  intros Hc k Hok Hp Hr. unfold consputc. rewrite (proj2 (Z.eqb_neq c BACKSPACE) Hc).
  by rewrite uartputc_sync_run, Hr.
Qed.

(** A byte: what a char of a string is. *)
Definition is_byte (c : Z) : Prop := 0 <= c < 256.

Lemma byte_prints c : is_byte c -> prints (consputc c) [c].
Proof. intros Hc. apply consputc_prints. unfold is_byte, BACKSPACE in *. lia. Qed.

Lemma each_prints s : Forall is_byte s -> prints (each s consputc) s.
Proof.
  induction 1 as [|c s Hc _ IH]; [exact prints_ret|].
  exact (prints_seq _ _ [c] s (byte_prints c Hc) IH).
Qed.

(** * Numbers *)

(** The character of a digit, 0 to 15. *)
Definition digit_char (d : Z) : Z := if d <? 10 then 48 + d else 87 + d.

Lemma digits_lookup d : 0 <= d < 16 -> digits !! Z.to_nat d = Some (digit_char d).
Proof.
  intros Hd. assert (Hc : forallb (fun d => bool_decide (digits !! Z.to_nat d = Some (digit_char d))) (seqZ 0 16) = true)
    by (by vm_compute).
  rewrite forallb_forall in Hc. specialize (Hc d). rewrite bool_decide_eq_true in Hc. apply Hc, list_elem_of_In, elem_of_seqZ. lia.
Qed.

(** The conversion loop. *)
Lemma printint_loop_run base : 2 <= base <= 16 -> forall fuel n x k buf,
  0 <= x < base ^ Z.of_nat n -> (0 < n <= fuel)%nat -> (length buf + n <= 16)%nat ->
  printint_loop fuel x base buf k = Ret (buf ++ (digit_char <$> to_digits n base x)) k.
Proof.
  intros Hb. induction fuel as [|fuel IH]; intros [|n] x k buf Hx Hn Hlen; try lia.
  pose proof (Z.mod_pos_bound x base ltac:(lia)) as Hm. cbn [printint_loop to_digits]. rewrite (proj2 (Z.leb_gt 16 _)) by lia.
  rewrite (digits_lookup (x mod base)) by lia. unfold bind at 1. cbn [need ret obind].
  destruct (Z.eqb_spec (x / base) 0) as [E|Hne]; cbn [negb]; [done|].
  apply (div_pow_bound base) in Hx as Hx'; [|lia]. destruct n as [|n]; [simpl in Hx'; lia|].
  rewrite (IH (S n)), <- app_assoc; [done|done|lia|]. rewrite length_app. simpl. lia.
Qed.

(** The text of a number: its sign and its digits, the most significant first. *)
Definition number_text (neg : bool) (ds : list Z) : list Z :=
  (if neg then [45] else []) ++ reverse (digit_char <$> ds).

Lemma digit_char_byte d : 0 <= d < 16 -> is_byte (digit_char d).
Proof. intros. unfold digit_char, is_byte. case_if; lia. Qed.

Lemma number_text_bytes base neg ds :
  base <= 16 -> Forall (fun d => 0 <= d < base) ds -> Forall is_byte (number_text neg ds).
Proof.
  intros Hb Hd. unfold number_text. apply Forall_app. split; [destruct neg; [by apply Forall_singleton|apply Forall_nil_2]|].
  apply Forall_reverse, Forall_fmap. eapply Forall_impl; [exact Hd|]. intros d Hd'. apply digit_char_byte. simpl in Hd'. lia.
Qed.

(** The value that %d and %x print: [xx] as an int. *)
Lemma printint_prints xx base :
  base = 10 \/ base = 16 -> - 2 ^ 31 <= xx < 2 ^ 31 ->
  exists ds, numeral base (Z.abs xx) ds /\ prints (printint xx base true) (number_text (xx <? 0) ds).
Proof.
  intros Hbase Hxx. assert (Hb : 2 <= base <= 16) by lia.
  assert (Hx : (if xx <? 0 then u32 (- xx) else u32 xx) = Z.abs xx) by (case_if; rewrite u32_small; lia).
  assert (Hlt : 0 <= Z.abs xx < base ^ Z.of_nat 10) by (destruct Hbase as [-> | ->]; simpl; lia).
  pose proof (to_digits_numeral base 10 ltac:(lia) ltac:(lia) _ Hlt) as Hnu. pose proof (to_digits_length base 10 (Z.abs xx)) as Hl.
  exists (to_digits 10 base (Z.abs xx)). split; [done|]. intros k Hok Hp Hr. unfold printint. cbn [andb]. rewrite Hx.
  erewrite (bind_run _ _ _ _ _); [|apply (printint_loop_run base Hb 32 10); [done|lia|simpl; lia]]. unfold put_back. cbn [app].
  set (ds := to_digits 10 base (Z.abs xx)) in *.
  pose proof (number_text_bytes base (xx <? 0) ds ltac:(lia) (nu_digits _ _ _ Hnu)) as Hby.
  unfold number_text in *. destruct (xx <? 0).
  - rewrite (proj2 (Z.leb_gt 16 _)) by (rewrite length_fmap; lia).
    rewrite rev_app_distr. unfold reverse in *. rewrite <- rev_alt in *. by apply each_prints.
  - unfold reverse in *. rewrite <- rev_alt in *. by apply each_prints.
Qed.

(** %p: the sixteen hexadecimal digits of a 64-bit value. *)
Definition pointer_text (x : Z) : list Z :=
  [48; 120] ++ (digit_char <$> nibbles x 16).

Lemma printptr_loop_prints n : forall x, (n <= 16)%nat -> 0 <= x < 2 ^ 64 ->
  prints (printptr_loop n x) (digit_char <$> nibbles x n).
Proof.
  induction n as [|n IH]; intros x Hn Hx; [exact prints_ret|]. rewrite nibbles_S by done.
  assert (Hd : 0 <= Z.shiftr x 60 < 16) by (by apply top_nibble).
  intros k Hok Hp Hr. cbn [printptr_loop]. rewrite (digits_lookup _ Hd).
  rewrite (bind_run _ _ _ _ _ (eq_refl : need "digits" (Some _) k = Ret _ k)).
  exact (prints_seq _ _ _ _ (byte_prints _ (digit_char_byte _ Hd)) (IH (u64 (Z.shiftl x 4)) ltac:(lia) (u64_range _)) k Hok Hp Hr).
Qed.

Lemma printptr_prints x : 0 <= x < 2 ^ 64 -> prints (printptr x) (pointer_text x).
Proof.
  intros Hx. apply (prints_seq _ _ [48]); [by apply byte_prints|].
  apply (prints_seq _ _ [120]); [by apply byte_prints|]. by apply printptr_loop_prints.
Qed.

Lemma put_str_prints s : Forall (fun c => is_byte c /\ c <> 0) s -> prints (put_str s) s.
Proof.
  induction 1 as [|c s [Hc H0] _ IH]; [exact prints_ret|]. cbn [put_str].
  rewrite (proj2 (Z.eqb_neq _ _) H0). exact (prints_seq _ _ [c] s (byte_prints c Hc) IH).
Qed.

(** * Formats *)

(** A piece of a format: literal text, or a conversion with its argument. *)
Inductive piece : Type :=
| Lit (c : Z)
| Dec (z : Z)
| Hex (z : Z)
| Ptr (z : Z)
| Str (s : list Z)
| Pct.

(** The characters of the piece in the format. *)
Definition piece_fmt (p : piece) : list Z :=
  match p with
  | Lit c => [c]
  | Dec _ => [37; 100]
  | Hex _ => [37; 120]
  | Ptr _ => [37; 112]
  | Str _ => [37; 115]
  | Pct => [37; 37]
  end.

Definition piece_args (p : piece) : list vararg :=
  match p with
  | Dec z | Hex z => [AInt z]
  | Ptr z => [APtr z]
  | Str s => [AStr (Some s)]
  | _ => []
  end.

Definition piece_ok (p : piece) : Prop :=
  match p with
  | Lit c => is_byte c /\ c <> 0 /\ c <> 37
  | Dec z | Hex z => - 2 ^ 31 <= z < 2 ^ 31
  | Ptr z => 0 <= z < 2 ^ 64
  | Str s => Forall (fun c => is_byte c /\ c <> 0) s
  | Pct => True
  end.

(** [t] is the text of the piece. *)
Definition piece_text (p : piece) (t : list Z) : Prop :=
  match p with
  | Lit c => t = [c]
  | Dec z => exists ds, numeral 10 (Z.abs z) ds /\ t = number_text (z <? 0) ds
  | Hex z => exists ds, numeral 16 (Z.abs z) ds /\ t = number_text (z <? 0) ds
  | Ptr z => t = pointer_text z
  | Str s => t = s
  | Pct => t = [37]
  end.

Lemma printf_piece p : piece_ok p -> exists t, piece_text p t /\ forall fmt ap s,
  prints (printf_loop fmt ap) s -> prints (printf_loop (piece_fmt p ++ fmt) (piece_args p ++ ap)) (t ++ s).
Proof.
  destruct p as [c|z|z|z|str|]; simpl; intros Hok.
  - destruct Hok as (Hb & H0 & H37). exists [c]. split; [done|]. intros fmt ap s Hs. cbn [printf_loop].
    rewrite (proj2 (Z.eqb_neq _ _) H0), (proj2 (Z.eqb_neq _ _) H37). cbn [negb]. by apply (prints_seq _ _ [c]); [apply byte_prints|].
  - destruct (printint_prints z 10 (or_introl eq_refl) Hok) as (ds & Hn & Hp). exists (number_text (z <? 0) ds).
    split; [by exists ds|]. intros fmt ap s Hs. by apply prints_seq.
  - destruct (printint_prints z 16 (or_intror eq_refl) Hok) as (ds & Hn & Hp). exists (number_text (z <? 0) ds).
    split; [by exists ds|]. intros fmt ap s Hs. by apply prints_seq.
  - exists (pointer_text z). split; [done|]. intros fmt ap s Hs. by apply prints_seq; [apply printptr_prints|].
  - exists str. split; [done|]. intros fmt ap s Hs. by apply prints_seq; [apply put_str_prints|].
  - exists [37]. split; [done|]. intros fmt ap s Hs. by apply (prints_seq _ _ [37]); [apply byte_prints|].
Qed.

Lemma printf_loop_prints ps : Forall piece_ok ps -> exists ts, Forall2 piece_text ps ts /\
  prints (printf_loop (ps ≫= piece_fmt) (ps ≫= piece_args)) (concat ts).
Proof.
  induction 1 as [|p ps Hp _ (ts & Ht & IH)]; [exists []; split; [done|exact prints_ret]|].
  destruct (printf_piece p Hp) as (t & Htp & Hrun). exists (t :: ts). split; [by constructor|].
  cbn [concat]. exact (Hrun _ _ _ IH).
Qed.

(** The text of a printf() call under the printing lock. *)
Lemma printf_run k fmt ap s :
  prints (printf_loop fmt ap) s -> cpu_ok k -> k_panicked k = 0 -> k_pr_locking k <> 0 -> lock_free k LPr ->
  printf (Some fmt) ap k = Ret tt (emit s (relax k)).
Proof.
  intros Hs Hok Hp Hl Hf. unfold printf. rewrite (bind_run _ _ _ _ _ (eq_refl : gets k_pr_locking k = Ret _ k)).
  rewrite (proj2 (Z.eqb_neq _ _) Hl). cbn [negb when].
  rewrite (bind_run _ _ _ _ _ (acquire_run k LPr Hok Hf)).
  pose proof (enter_cpu_ok LPr k Hok) as Hoke. destruct Hok as (i & c & OC).
  erewrite bind_run; [|apply Hs; [exact Hoke|exact Hp|]].
  - apply (release_upd k LPr (emit s)); [by exists i, c|done|apply emit_data_only].
  - apply relax_enter. by exists i, c.
Qed.

Lemma pointer_text_bytes x : Forall is_byte (pointer_text x).
Proof.
  apply Forall_app. split; [repeat apply Forall_cons_2; try done; apply Forall_nil_2|].
  apply Forall_fmap. eapply Forall_impl; [apply nibbles_range|]. apply digit_char_byte.
Qed.

Lemma piece_text_bytes p t : piece_ok p -> piece_text p t -> Forall is_byte t.
Proof.
  destruct p as [c|z|z|z|s|]; simpl; intros Hok.
  - intros ->. apply Forall_singleton, Hok.
  - intros (ds & Hn & ->). eapply (number_text_bytes 10); [lia|apply Hn].
  - intros (ds & Hn & ->). eapply (number_text_bytes 16); [lia|apply Hn].
  - intros ->. apply pointer_text_bytes.
  - intros ->. eapply Forall_impl; [exact Hok|]. by intros c [].
  - intros ->. by apply Forall_singleton.
Qed.

Lemma bytes_u8 s : Forall is_byte s -> u8 <$> s = s.
Proof. induction 1 as [|c s Hc _ IH]; [done|]. rewrite fmap_cons, IH. f_equal. by apply Z.mod_small. Qed.

(** C38. printf() of a format and arguments that fit it sends the text of every piece, in order,
    to the UART, and has no other effect: literal characters as they are, %d and %x as the numeral
    of the int (its sign, then its digits without leading zeros, also for the
    most negative int), %p as sixteen hexadecimal digits, %s as the string, %% as
    a percent sign.  The buffer of printint() never overflows.  A null format panics. *)
Theorem printf_correct ps k :
  Forall piece_ok ps -> cpu_ok k -> k_panicked k = 0 -> k_pr_locking k <> 0 -> lock_free k LPr ->
  (exists ts k', Forall2 piece_text ps ts /\
    printf (Some (ps ≫= piece_fmt)) (ps ≫= piece_args) k = Ret tt k' /\
    k' = set_k_uart (k_uart k') (relax k) /\ uart_out (k_uart k') = uart_out (k_uart k) ++ concat ts) /\
  exists k', printf None [] k = Panic "null fmt" k'.
Proof.
  intros Hps Hok Hp Hl Hf. destruct (printf_loop_prints ps Hps) as (ts & Ht & Hs). split.
  - exists ts, (emit (concat ts) (relax k)). split; [done|]. split; [by apply printf_run|]. split; [done|].
    rewrite emit_out. f_equal. apply bytes_u8. clear Hs.
    induction Ht as [|p t ps ts Hpt _ IH]; [apply Forall_nil_2|]. apply Forall_cons in Hps as [Hp1 Hps].
    cbn [concat]. apply Forall_app. split; [by apply (piece_text_bytes p)|by apply IH].
  - eexists. unfold printf. rewrite (bind_run _ _ _ _ _ (eq_refl : gets k_pr_locking k = Ret _ k)).
    rewrite (proj2 (Z.eqb_neq _ _) Hl). cbn [negb when].
    by rewrite (bind_run _ _ _ _ _ (acquire_run k LPr Hok Hf)).
Qed.

(** The state after printfinit() on the boot CPU. *)
Definition printf_sample : kernel :=
  set_k_pr_locking 1 (set_k_locks {[LPr := mkSpinlock 0 "pr" None]} boot).

Lemma printf_correct_witness : exists ts k',
  Forall2 piece_text [Lit 120; Dec (- 2 ^ 31); Pct; Hex 255; Str (str "ok"); Ptr 4096] ts /\
  printf (Some (str "x%d%%%x%s%p")) [AInt (- 2 ^ 31); AInt 255; AStr (Some (str "ok")); APtr 4096] printf_sample = Ret tt k' /\
  uart_out (k_uart k') = concat ts.
Proof.
  destruct (printf_correct [Lit 120; Dec (- 2 ^ 31); Pct; Hex 255; Str (str "ok"); Ptr 4096] printf_sample)
    as [(ts & k' & H1 & H2 & _ & H3) _].
  - repeat (apply Forall_cons_2 || apply Forall_nil_2); simpl; unfold is_byte; try lia; try done.
  - exists 0%nat, (mkCpu None no_context 0 0). by split.
  - reflexivity.
  - discriminate.
  - exists "pr". reflexivity.
  - exists ts, k'. split; [exact H1|]. split; [exact H2|exact H3].
Defined.
