(* ===== verification/Sched.v ===== *)
(** kernel/proc.c: the process table, sched(), yield(), sleep(), wakeup(),
    kill(), the scheduler, and the copies between user and kernel memory
    (either_copyin/out, kernel/vmcopyin.c); kernel/sleeplock.c. *)

From Stdlib Require Import ZArith Lia.
From stdpp Require Import base gmap list_numbers strings numbers list.
From S2P Require Import Prelude Mem Riscv Kernel Spinlock Kalloc Vm Printf.

Open Scope Z_scope.

(** * The process table *)

Definition get_proc (i : nat) : K proc :=
  let! o := gets (fun k => pt_procs (k_ptable k) !! i) in need "proc[]" o.

Definition upd_proc (i : nat) (f : proc -> proc) : K unit :=
  modify (fun k => set_k_ptable (set_pt_procs (alter f i (pt_procs (k_ptable k))) (k_ptable k)) k).

(** &proc[0] .. &proc[NPROC-1] *)
Definition procs : list nat := seq 0 (Z.to_nat NPROC).

(** A use of myproc() that dereferences the pointer. *)
Definition curproc : K nat := let! o := myproc in need "myproc()" o.

Definition procinit : K unit :=
  do! initlock LPid "nextpid";
  do! initlock LWait "wait_lock";
  each procs (fun i =>
    do! initlock (LProc i) "proc";
    do! upd_proc i (set_p_state UNUSED);
    upd_proc i (set_p_kstack (KSTACK (Z.of_nat i)))).

Definition allocpid : K Z :=
  do! acquire LPid;
  let! pid := gets (fun k => pt_nextpid (k_ptable k)) in
  do! modify (fun k => set_k_ptable (set_pt_nextpid (i32 (pid + 1)) (k_ptable k)) k);
  do! release LPid;
  ret pid.

(** * Switching *)

(** swtch(): the thread gives the CPU away and goes on where it is switched
    back, in the state of that moment. *)
Definition swtch : K unit := fun k => Switch k (fun k' => Ret tt k').

Definition sched : K unit :=
  let! p := curproc in
  let! h := holding (LProc p) in
  if negb h then panic "sched p->lock" else
  let! c := mycpu in
  let! cpu := get_cpu c in
  if negb (c_noff cpu =? 1) then panic "sched locks" else
  let! pr := get_proc p in
  if decide (p_state pr = RUNNING) then panic "sched running" else
  let! on := intr_get in
  if negb (on =? 0) then panic "sched interruptible" else
  let! c := mycpu in
  let! cpu := get_cpu c in
  let intena := c_intena cpu in
  do! swtch;
  let! c := mycpu in
  upd_cpu c (set_c_intena intena).

Definition yield : K unit :=
  let! p := curproc in
  do! acquire (LProc p);
  do! upd_proc p (set_p_state RUNNABLE);
  do! sched;
  release (LProc p).

Definition sleep (chan : chanid) (lk : lockid) : K unit :=
  let! p := curproc in
  do! acquire (LProc p);
  do! release lk;
  do! upd_proc p (set_p_chan (Some chan));
  do! upd_proc p (set_p_state SLEEPING);
  do! sched;
  do! upd_proc p (set_p_chan None);
  do! release (LProc p);
  acquire lk.

(** wakeup(chan); a null chan is a legal argument. *)
Definition wakeup_chan (chan : option chanid) : K unit :=
  each procs (fun i =>
    let! me := myproc in
    if decide (me = Some i) then ret tt else
    do! acquire (LProc i);
    let! p := get_proc i in
    do! when (bool_decide (p_state p = SLEEPING) && bool_decide (p_chan p = chan))
          (upd_proc i (set_p_state RUNNABLE));
    release (LProc i)).

Definition wakeup (chan : chanid) : K unit := wakeup_chan (Some chan).

Definition kill (pid : Z) : K Z :=
  let! r := foreach procs (fun i =>
    do! acquire (LProc i);
    let! p := get_proc i in
    if p_pid p =? pid then
      do! upd_proc i (set_p_killed 1);
      do! when (bool_decide (p_state p = SLEEPING)) (upd_proc i (set_p_state RUNNABLE));
      do! release (LProc i);
      ret (Some 0)
    else do! release (LProc i); ret None) in
  ret (default (-1) r).

Definition setkilled (p : nat) : K unit :=
  do! acquire (LProc p);
  do! upd_proc p (set_p_killed 1);
  release (LProc p).

Definition killed (p : nat) : K Z :=
  do! acquire (LProc p);
  let! pr := get_proc p in
  do! release (LProc p);
  ret (p_killed pr).

(** One turn of the inner loop of scheduler(), for process [i]. *)
Definition schedule_one (c i : nat) : K unit :=
  do! acquire (LProc i);
  let! p := get_proc i in
  do! (if decide (p_state p = RUNNABLE) then
         do! upd_proc i (set_p_state RUNNING);
         do! upd_cpu c (set_c_proc (Some i));
         do! w_satp (MAKE_SATP (p_kpagetable p));
         do! sfence_vma;
         do! swtch;
         do! kvminithart;
         upd_cpu c (set_c_proc None)
       else ret tt);
  release (LProc i).

(** scheduler() for [rounds] passes over the process table; the C loop has no
    exit. *)
Fixpoint scheduler_loop (rounds : nat) (c : nat) : K unit :=
  match rounds with
  | O => nofuel
  | S r => do! intr_on; do! each procs (schedule_one c); scheduler_loop r c
  end.

Definition scheduler (rounds : nat) : K unit :=
  let! c := mycpu in
  do! upd_cpu c (set_c_proc None);
  scheduler_loop rounds c.

(** * Reading user memory in kernel mode

    copyin_new() and copyinstr_new() dereference the user's addresses through
    the page table that satp names.  The walk of the hardware: a valid entry
    without R, W and X leads to the next level, any other valid entry is the
    leaf.  In supervisor mode (sstatus.SUM is 0) a load needs V and R, and no U.
    Addresses that lead outside RAM, to a device, are not part of the model. *)

Fixpoint sv39_walk (level : nat) (m : mem) (table va : Z) : option (Z * nat) :=
  let pte := ld64 m (table + 8 * PX (Z.of_nat level) va) in
  if negb (has pte PTE_V) then None else
  if has pte (Z.lor (Z.lor PTE_R PTE_W) PTE_X) then Some (pte, level) else
  match level with
  | O => None
  | S l => sv39_walk l m (PTE2PA pte) va
  end.

(** The root that satp names. *)
Definition satp_root (satp : Z) : Z := (satp mod 2 ^ 44) * 4096.

Definition translate (k : kernel) (va : Z) : option Z :=
  if negb (Z.shiftr (h_satp (k_hart k)) 60 =? 8) then Some va else
  match sv39_walk 2 (k_mem k) (satp_root (h_satp (k_hart k))) va with
  | Some (pte, level) =>
      if has pte PTE_R && negb (has pte PTE_U) then
        let size := 4096 * 512 ^ Z.of_nat level in
        Some (PTE2PA pte / size * size + va mod size)
      else None
  | None => None
  end.

(** A byte load by the kernel from a virtual address. *)
Definition vload8 (va : Z) : K Z :=
  let! o := gets (fun k => translate k va) in
  match o with
  | Some pa => kload 1 pa
  | None => fault "kernel page fault"
  end.

Fixpoint vload_bytes (n : nat) (va : Z) : K (list Z) :=
  match n with
  | O => ret []
  | S n' => let! b := vload8 va in let! bs := vload_bytes n' (va + 1) in ret (b :: bs)
  end.

(** * kernel/vmcopyin.c; the result has the bytes stored at dst. *)

Definition copyin_new (pagetable srcva len : Z) : K (Z * list Z) :=
  let! p := curproc in
  let! pr := get_proc p in
  if (p_sz pr <=? srcva) || (p_sz pr <? u64 (srcva + len)) || (u64 (srcva + len) <? srcva)
  then ret (-1, []) else
  let! bs := vload_bytes (Z.to_nat (u32 len)) srcva in
  ret (0, bs).

(** while (n < max); [sz] is p->sz, [dst] the bytes stored so far. *)
Fixpoint copyinstr_loop (fuel : nat) (p : nat) (srcva n max : Z) (dst : list Z) : K (Z * list Z) :=
  match fuel with
  | O => nofuel
  | S f =>
      if n <? max then
        let! pr := get_proc p in
        if p_sz pr <=? u64 (srcva + n) then ret (-1, dst) else
        let! c := vload8 (u64 (srcva + n)) in
        if c =? 0 then ret (0, dst ++ [c])
        else copyinstr_loop f p srcva (n + 1) max (dst ++ [c])
      else ret (-1, dst)
  end.

Definition copyinstr_new (pagetable srcva max : Z) : K (Z * list Z) :=
  let! p := curproc in
  let! pr := get_proc p in
  if p_sz pr <=? srcva then ret (-1, []) else
  copyinstr_loop (S (Z.to_nat max)) p srcva 0 max [].

Definition copyin (pagetable srcva len : Z) : K (Z * list Z) := copyin_new pagetable srcva len.
Definition copyinstr (pagetable srcva max : Z) : K (Z * list Z) := copyinstr_new pagetable srcva max.

(** The destination of a copy: a user address, a physical page the kernel
    writes directly, or a variable of the caller, who takes the bytes from the
    result. *)
Inductive dest : Type := ToUser (va : Z) | ToPhys (pa : Z) | ToVar.

Definition dest_add (d : dest) (n : Z) : dest :=
  match d with
  | ToUser va => ToUser (u64 (va + n))
  | ToPhys pa => ToPhys (u64 (pa + n))
  | ToVar => ToVar
  end.

(** The source of a copy: a user address, or a variable of the caller. *)
Inductive source : Type := FromUser (va : Z) | FromVar (bytes : list Z).

Definition source_add (s : source) (n : Z) : source :=
  match s with
  | FromUser va => FromUser (u64 (va + n))
  | FromVar bytes => FromVar (drop (Z.to_nat n) bytes)
  end.

Definition either_copyout (d : dest) (src : list Z) (len : Z) `{LinkerSymbols} : K Z :=
  let! p := myproc in
  match d with
  | ToUser dst =>
      let! p := need "myproc()" p in
      let! pr := get_proc p in
      copyout (p_pagetable pr) dst src len
  | ToPhys pa => do! kput pa (take (Z.to_nat len) src); ret 0
  | ToVar => ret 0
  end.

Definition either_copyin (s : source) (len : Z) : K (Z * list Z) :=
  let! p := myproc in
  match s with
  | FromUser src =>
      let! p := need "myproc()" p in
      let! pr := get_proc p in
      copyin (p_pagetable pr) src len
  | FromVar bytes => ret (0, take (Z.to_nat len) bytes)
  end.

(** states[] of procdump() *)
Definition state_name (s : procstate) : list Z :=
  match s with
  | UNUSED => str "unused"
  | USED => str "used"
  | SLEEPING => str "sleep "
  | RUNNABLE => str "runble"
  | RUNNING => str "run   "
  | ZOMBIE => str "zombie"
  end.

Definition procdump : K unit :=
  do! printf (Some [NL]) [];
  each procs (fun i =>
    let! p := get_proc i in
    if decide (p_state p = UNUSED) then ret tt else
    do! printf (Some (str "%d %s %s"))
          [AInt (p_pid p); AStr (Some (state_name (p_state p))); AStr (Some (p_name p))];
    printf (Some [NL]) []).
