(* ===== verification/SchedSpec.v ===== *)
(** Correctness of the process-table operations of kernel/proc.c: wakeup() wakes
    exactly the sleepers of its channel, sleep() cannot lose a wakeup, kill()
    marks exactly the process it names. *)

From Stdlib Require Import ZArith Lia.
From stdpp Require Import base gmap list_numbers strings numbers list.
From S2P Require Import Prelude Mem Riscv Kernel Spinlock Kalloc Vm Printf Sched.

Open Scope Z_scope.

Implicit Types (k : kernel) (p : proc).

(** * The process table as a component of the state *)

Definition k_procs (k : kernel) : list proc := pt_procs (k_ptable k).
Definition set_procs (l : list proc) (k : kernel) : kernel :=
  set_k_ptable (set_pt_procs l (k_ptable k)) k.
Definition alter_proc (i : nat) (f : proc -> proc) (k : kernel) : kernel :=
  set_procs (alter f i (k_procs k)) k.

Lemma k_procs_set l k : k_procs (set_procs l k) = l.
Proof. done. Qed.

Lemma get_proc_run k i p : k_procs k !! i = Some p -> get_proc i k = Ret p k.
Proof. intros E. unfold get_proc, bind, gets. cbn [obind]. unfold k_procs in E. by rewrite E. Qed.

Lemma upd_proc_run k i f : upd_proc i f k = Ret tt (alter_proc i f k).
Proof. done. Qed.

Lemma alter_proc_data i f : data_only (alter_proc i f).
Proof. done. Qed.

Lemma alter_proc_alter i f g k : alter_proc i g (alter_proc i f k) = alter_proc i (g ∘ f) k.
Proof. unfold alter_proc, set_procs, k_procs. simpl. by rewrite list_alter_alter_eq. Qed.

Lemma alter_proc_ext i f g k :
  (forall p, k_procs k !! i = Some p -> f p = g p) -> alter_proc i f k = alter_proc i g k.
Proof. intros E. unfold alter_proc. by rewrite (list_alter_ext f g (k_procs k) (k_procs k) i E). Qed.

Lemma data_only_id : data_only (fun k => k).
Proof. done. Qed.

(** All process locks, but perhaps that of [me], are free. *)
Definition procs_free (k : kernel) (me : option nat) : Prop :=
  forall i, In i procs -> me <> Some i -> lock_free k (LProc i).

Lemma each_nil {S X} (body : X -> M S unit) s : each [] body s = Ret tt s.
Proof. done. Qed.

(** * wakeup() *)

(** What wakeup(chan), called by process [me], does to process [i]. *)
Definition wake (me : option nat) (chan : option chanid) (i : nat) (p : proc) : proc :=
  if decide (me = Some i) then p
  else if bool_decide (p_state p = SLEEPING) && bool_decide (p_chan p = chan)
  then set_p_state RUNNABLE p else p.

Lemma cpu_relax_proc b c : c_proc (cpu_relax b c) = c_proc c.
Proof. unfold cpu_relax. by case_if. Qed.

Lemma alter_proc_id i f k :
  (forall p, k_procs k !! i = Some p -> f p = p) -> alter_proc i f k = k.
Proof.
  intros Hf. unfold alter_proc. rewrite (list_alter_ext f id _ (k_procs k)) by done.
  rewrite list_alter_id by done. by destruct k as [? ? ? ? ? []].
Qed.

Lemma wakeup_body_run k i c chan j p :
  on_cpu k i c -> k_procs k !! j = Some p ->
  (c_proc c <> Some j -> lock_free k (LProc j)) ->
  (let! me := myproc in
   if decide (me = Some j) then ret tt else
   do! acquire (LProc j);
   let! p := get_proc j in
   do! when (bool_decide (p_state p = SLEEPING) && bool_decide (p_chan p = chan))
         (upd_proc j (set_p_state RUNNABLE));
   release (LProc j)) k
  = Ret tt (alter_proc j (wake (c_proc c) chan j) (relax k)).
Proof.
  intros OC Hp Hl. rewrite (bind_run _ _ _ _ _ (myproc_run _ _ _ OC)).
  destruct (decide (c_proc c = Some j)) as [E|E].
  { rewrite alter_proc_id; [done|]. intros q _. unfold wake. by rewrite decide_True. }
  assert (Hk : cpu_ok (relax k)) by (eexists _, _; by apply relax_on_cpu).
  specialize (Hl E). rewrite (bind_run _ _ _ _ _ (acquire_run (relax k) _ Hk Hl)).
  rewrite (bind_run _ _ _ _ _ (get_proc_run (enter (LProc j) (relax k)) j p Hp)).
  set (f := alter_proc j (wake (c_proc c) chan j)).
  assert (Hw : when (bool_decide (p_state p = SLEEPING) && bool_decide (p_chan p = chan))
                 (upd_proc j (set_p_state RUNNABLE)) (enter (LProc j) (relax k))
               = Ret tt (f (enter (LProc j) (relax k)))).
  { unfold f. destruct (bool_decide (p_state p = SLEEPING) && bool_decide (p_chan p = chan)) eqn:Ew; simpl.
    - rewrite upd_proc_run. f_equal. apply alter_proc_ext. intros q Hq. unfold wake. rewrite decide_False by done.
      change (k_procs k !! j = Some q) in Hq. replace q with p by congruence. by rewrite Ew.
    - rewrite alter_proc_id; [done|]. intros q Hq. unfold wake. rewrite decide_False by done.
      change (k_procs k !! j = Some q) in Hq. replace q with p by congruence. by rewrite Ew. }
  rewrite (bind_run _ _ _ _ _ Hw). rewrite (release_upd (relax k)); [|done|done|done].
  by rewrite relax_idem.
Qed.

(** The state after the loop has handled the processes of [l]. *)
Fixpoint wake_all (me : option nat) (chan : option chanid) (l : list nat) (k : kernel) : kernel :=
  match l with
  | [] => k
  | i :: l' => wake_all me chan l' (alter_proc i (wake me chan i) k)
  end.

Lemma wake_all_data me chan l : data_only (wake_all me chan l).
Proof.
  intros h cs ls. induction l as [|i l IH]; intros k; simpl; [done|]. by rewrite <- IH.
Qed.

Lemma wake_all_lookup me chan l : forall k j,
  NoDup l ->
  k_procs (wake_all me chan l k) !! j =
    if decide (j ∈ l) then wake me chan j <$> k_procs k !! j else k_procs k !! j.
Proof.
  induction l as [|i l IH]; intros k j Hnd; [case_decide; [set_solver|done]|]. cbn [wake_all].
  apply NoDup_cons in Hnd as [Hi Hnd]. rewrite IH by done.
  assert (Ha : k_procs (alter_proc i (wake me chan i) k) !! j =
               if decide (i = j) then wake me chan i <$> k_procs k !! j else k_procs k !! j).
  { unfold alter_proc, set_procs, k_procs. simpl. rewrite list_lookup_alter. by case_decide; subst. }
  rewrite Ha. destruct (decide (i = j)) as [->|Hne].
  - rewrite decide_False by done. by rewrite decide_True by set_solver.
  - destruct (decide (j ∈ l)); [rewrite decide_True by set_solver|rewrite decide_False by set_solver]; done.
Qed.

Lemma wakeup_loop_run me chan l : forall k i c,
  on_cpu k i c -> c_proc c = me ->
  (forall j, j ∈ l -> is_Some (k_procs k !! j)) ->
  (forall j, j ∈ l -> me <> Some j -> lock_free k (LProc j)) ->
  each l (fun i =>
    let! me := myproc in
    if decide (me = Some i) then ret tt else
    do! acquire (LProc i);
    let! p := get_proc i in
    do! when (bool_decide (p_state p = SLEEPING) && bool_decide (p_chan p = chan))
          (upd_proc i (set_p_state RUNNABLE));
    release (LProc i)) k
  = Ret tt (match l with [] => k | _ => wake_all me chan l (relax k) end).
Proof.
  induction l as [|j l IH]; intros k i c OC Hme Hp Hl; [done|].
  destruct (Hp j) as [p Ep]; [set_solver|]. cbn [each].
  rewrite (bind_run _ _ _ _ _ (wakeup_body_run k i c chan j p OC Ep ltac:(rewrite Hme; apply Hl; set_solver))).
  rewrite Hme. rewrite (IH (alter_proc j (wake me chan j) (relax k)) i (cpu_relax (intr k) c)).
  - destruct l; [done|]. f_equal. cbn [wake_all]. do 2 f_equal.
    rewrite (data_only_relax (alter_proc j (wake me chan j)) (relax k)) by done. by rewrite relax_idem.
  - apply (on_cpu_ext (relax k)); [done|done|by apply relax_on_cpu].
  - by rewrite cpu_relax_proc.
  - intros j' Hj'. apply lookup_lt_is_Some. unfold alter_proc, set_procs, k_procs. simpl.
    rewrite length_alter. apply lookup_lt_is_Some, Hp. set_solver.
  - intros j' Hj' Hne. apply Hl; [set_solver|done].
Qed.

Lemma wake_all_only me chan l : forall k,
  wake_all me chan l k = set_procs (k_procs (wake_all me chan l k)) k.
Proof.
  induction l as [|i l IH]; intros k; cbn [wake_all]; [by destruct k as [? ? ? ? ? []]|].
  rewrite IH at 1. by destruct (wake_all _ _ _ _).
Qed.

Lemma wake_all_procs me chan k :
  length (k_procs k) = Z.to_nat NPROC ->
  wake_all me chan procs k = set_procs (imap (wake me chan) (k_procs k)) k.
Proof.
  intros Hlen. rewrite wake_all_only. f_equal. apply list_eq. intros j.
  rewrite wake_all_lookup by apply NoDup_seq. rewrite list_lookup_imap.
  unfold procs. case_decide as E; [done|]. rewrite elem_of_seq in E.
  rewrite lookup_ge_None_2 by lia. done.
Qed.

(** The states in which wakeup() can run: the process table is complete, and the
    process locks other than that of the caller are free. *)
Record wake_ready (k : kernel) (me : option nat) : Prop := {
  wr_cpu : exists i c, on_cpu k i c /\ c_proc c = me;
  wr_len : length (k_procs k) = Z.to_nat NPROC;
  wr_free : forall j, (j < Z.to_nat NPROC)%nat -> me <> Some j -> lock_free k (LProc j);
}.

Lemma wakeup_run k me chan :
  wake_ready k me ->
  wakeup_chan chan k = Ret tt (set_procs (imap (wake me chan) (k_procs k)) (relax k)).
Proof.
  intros [(i & c & OC & Hme) Hlen Hfree]. unfold wakeup_chan.
  rewrite (wakeup_loop_run me chan procs k i c OC Hme).
  - change (match procs with [] => k | _ => wake_all me chan procs (relax k) end)
      with (wake_all me chan procs (relax k)). by rewrite wake_all_procs.
  - intros j Hj%elem_of_seq. apply lookup_lt_is_Some. lia.
  - intros j Hj%elem_of_seq. apply Hfree. lia.
Qed.

(** wakeup(chan) makes RUNNABLE every process other than the caller that
    sleeps on chan; no other process and nothing else in the state changes (but
    for the saved interrupt flag of a CPU outside all critical sections). *)
Theorem wakeup_correct k me chan :
  wake_ready k me ->
  exists k', wakeup chan k = Ret tt k' /\
    k' = set_procs (k_procs k') (relax k) /\
    forall j p, k_procs k !! j = Some p ->
      k_procs k' !! j = Some
        (if decide (me <> Some j /\ p_state p = SLEEPING /\ p_chan p = Some chan)
         then set_p_state RUNNABLE p else p).
Proof.
  intros Hk. eexists. split; [by apply wakeup_run|]. split; [by destruct k as [? ? ? ? ? []]|].
  intros j p Hp. unfold k_procs at 1. simpl. rewrite list_lookup_imap, Hp. simpl. f_equal. unfold wake.
  destruct (decide (me = Some j)); [by rewrite decide_False by tauto|].
  destruct (decide (p_state p = SLEEPING)), (decide (p_chan p = Some chan));
    rewrite ?bool_decide_true, ?bool_decide_false by done; simpl;
    rewrite ?decide_True, ?decide_False by tauto; done.
Qed.

(** * sleep() *)

Lemma curproc_run k i c me : on_cpu k i c -> c_proc c = Some me -> curproc k = Ret me (relax k).
Proof. intros OC Hp. unfold curproc. rewrite (bind_run _ _ _ _ _ (myproc_run _ _ _ OC)). by rewrite Hp. Qed.

(** A process that holds its own lock and no other: what sched() insists on. *)
Record sole_lock (k : kernel) (i me : nat) (c : cpu) (name : string) : Prop := {
  so_cpu : on_cpu k i c;
  so_noff : c_noff c = 1;
  so_lock : k_locks k !! LProc me = Some (mkSpinlock 1 name (Some i));
}.

(** sched() in such a state gives the CPU away without any change. *)
Lemma sched_run k i c me p name :
  sole_lock k i me c name -> c_proc c = Some me -> k_procs k !! me = Some p -> p_state p <> RUNNING ->
  sched k = Switch k (fun k' => (let! c' := mycpu in upd_cpu c' (set_c_intena (c_intena c))) k').
Proof.
  intros [OC Hn Hl] Hp Hpr Hs. unfold sched.
  assert (Hin : relax k = k) by (apply (relax_in k i c OC); lia).
  rewrite (bind_run _ _ _ _ _ (curproc_run _ _ _ _ OC Hp)), Hin.
  rewrite (bind_run _ _ _ _ _ (holding_run k _ i c _ OC Hl)). simpl (negb (_ =? 0)).
  rewrite bool_decide_true by done. simpl (negb _). cbv iota.
  rewrite (bind_run _ _ _ _ _ (mycpu_run _ _ _ OC)), (bind_run _ _ _ _ _ (get_cpu_run _ _ _ OC)), Hn.
  simpl (negb _). cbv iota. rewrite (bind_run _ _ _ _ _ (get_proc_run _ _ _ Hpr)).
  rewrite decide_False by done. rewrite (bind_run _ _ _ _ _ (intr_get_run k)).
  rewrite (oc_off _ _ _ OC) by lia. simpl (negb _). cbv iota.
  by rewrite (bind_run _ _ _ _ _ (mycpu_run _ _ _ OC)), (bind_run _ _ _ _ _ (get_cpu_run _ _ _ OC)).
Qed.

(** The state in which sleep(chan, lk) gives the CPU away: [lk] is free again,
    the process sleeps on [chan], and its own lock is held. *)
Definition asleep (me i : nat) (lk : lockid) (lkname pname : string) (chan : chanid) (k : kernel) : kernel :=
  alter_proc me (fun q => set_p_state SLEEPING (set_p_chan (Some chan) q))
    (set_k_locks (<[lk := mkSpinlock 0 lkname None]>
       (<[LProc me := mkSpinlock 1 pname (Some i)]> (k_locks k))) k).

(** The state in which sleep() returns, when the process was given the CPU
    again in state [k]: [lk] held, its own lock free, no channel. *)
Definition awake (me i : nat) (lk : lockid) (lkname pname : string) (intena : Z) (k : kernel) : kernel :=
  alter_proc me (set_p_chan None)
    (set_k_cpus (alter (set_c_intena intena) i (k_cpus k))
    (set_k_locks (<[lk := mkSpinlock 1 lkname (Some i)]>
       (<[LProc me := mkSpinlock 0 pname None]> (k_locks k))) k)).

Lemma sie_off_id k i c : on_cpu k i c -> 0 < c_noff c -> sie_off k = k.
Proof.
  intros OC Hn. unfold sie_off. rewrite sie_already.
  - by destruct k as [[]].
  - apply (oc_sstatus _ _ _ OC).
  - rewrite <- land_SIE. by apply (oc_off _ _ _ OC).
Qed.

(** Taking the own lock and giving up [lk], which was the only lock held. *)
Lemma swap_lock k i c me lk lkname pname :
  on_cpu k i c -> c_noff c = 1 -> lk <> LProc me ->
  k_locks k !! lk = Some (mkSpinlock 1 lkname (Some i)) ->
  k_locks k !! LProc me = Some (mkSpinlock 0 pname None) ->
  release lk (enter (LProc me) k) =
    Ret tt (set_k_locks (<[lk := mkSpinlock 0 lkname None]>
              (<[LProc me := mkSpinlock 1 pname (Some i)]> (k_locks k))) k).
Proof.
  intros OC Hn Hne Hl Hp. pose proof (oc_cpu _ _ _ OC) as Hc.
  assert (OE : on_cpu (enter (LProc me) k) i (cpu_off (intr k) c))
    by (by apply (on_cpu_ext (pushed k)), pushed_on_cpu).
  rewrite (release_outer_run _ lk i _ lkname OE).
  - f_equal. unfold enter, pushed. rewrite (sie_off_id k i c OC) by lia.
    rewrite (this_cpu_on _ _ _ OC). simpl.
    rewrite (alter_back (cpu_off (intr k)) _ i (k_cpus k) c Hc)
      by (unfold cpu_off; rewrite Hn; destruct c; simpl in *; by subst).
    rewrite (locks_alter _ _ _ _ Hp). by destruct k.
  - unfold cpu_off. simpl. lia.
  - simpl. by rewrite lookup_alter_ne.
Qed.

Lemma sleep_run k i c me p lk lkname pname chan :
  on_cpu k i c -> c_noff c = 1 -> c_proc c = Some me -> lk <> LProc me ->
  k_locks k !! lk = Some (mkSpinlock 1 lkname (Some i)) ->
  k_locks k !! LProc me = Some (mkSpinlock 0 pname None) ->
  k_procs k !! me = Some p ->
  sleep chan lk k = Switch (asleep me i lk lkname pname chan k) (fun k' =>
    (do! (let! c' := mycpu in upd_cpu c' (set_c_intena (c_intena c)));
     do! upd_proc me (set_p_chan None);
     do! release (LProc me);
     acquire lk) k').
Proof.
  intros OC Hn Hme Hne Hl Hp Hpr. unfold sleep.
  assert (Hin : relax k = k) by (apply (relax_in k i c OC); lia).
  rewrite (bind_run _ _ _ _ _ (curproc_run _ _ _ _ OC Hme)), Hin.
  rewrite (bind_run _ _ _ _ _ (acquire_run k (LProc me) (ex_intro _ i (ex_intro _ c OC)) (ex_intro _ pname Hp))).
  rewrite (bind_run _ _ _ _ _ (swap_lock k i c me lk lkname pname OC Hn Hne Hl Hp)).
  rewrite (bind_run _ _ _ _ _ (upd_proc_run _ _ _)), (bind_run _ _ _ _ _ (upd_proc_run _ _ _)).
  set (k2 := alter_proc me _ _).
  assert (E : k2 = asleep me i lk lkname pname chan k).
  { unfold k2, asleep. by rewrite alter_proc_alter. }
  unfold bind at 1. rewrite (sched_run k2 i c me (set_p_state SLEEPING (set_p_chan (Some chan) p)) pname).
  - rewrite E. done.
  - rewrite E. split; [by apply (on_cpu_ext k)|done|]. simpl. rewrite lookup_insert_ne by done. by rewrite lookup_insert_eq.
  - done.
  - rewrite E. unfold asleep, alter_proc, set_procs, k_procs in *. simpl. by rewrite list_lookup_alter_eq, Hpr.
  - done.
Qed.

Lemma set_intena_run k i c v :
  on_cpu k i c ->
  (let! c' := mycpu in upd_cpu c' (set_c_intena v)) k
  = Ret tt (set_k_cpus (alter (set_c_intena v) i (k_cpus k)) k).
Proof. intros OC. by rewrite (bind_run _ _ _ _ _ (mycpu_run _ _ _ OC)). Qed.

(** The rest of sleep() after the switch, on whatever CPU it goes on. *)
Lemma resume_run k j c me lk lkname pname v :
  sole_lock k j me c pname -> v = 0 \/ v = 1 -> lk <> LProc me ->
  k_locks k !! lk = Some (mkSpinlock 0 lkname None) ->
  (do! (let! c' := mycpu in upd_cpu c' (set_c_intena v));
   do! upd_proc me (set_p_chan None);
   do! release (LProc me);
   acquire lk) k = Ret tt (awake me j lk lkname pname v k).
Proof.
  intros [OC Hn Hp] Hv Hne Hl. rewrite (bind_run _ _ _ _ _ (set_intena_run _ _ _ v OC)).
  rewrite (bind_run _ _ _ _ _ (upd_proc_run _ _ _)).
  rewrite (exchange_run _ j (set_c_intena v c) (LProc me) pname lk lkname); try done.
  destruct OC. split; try done. simpl. by rewrite list_lookup_alter_eq, oc_cpu.
Qed.

(** The calls of sleep(chan, lk) that sched() accepts: [lk] is the only lock held. *)
Record sleep_ready (k : kernel) (i me : nat) (c : cpu) (lk : lockid) (lkname pname : string) : Prop := {
  sr_cpu : on_cpu k i c;
  sr_noff : c_noff c = 1;
  sr_intena : c_intena c = 0 \/ c_intena c = 1;
  sr_proc : c_proc c = Some me;
  sr_known : is_Some (k_procs k !! me);
  sr_ne : lk <> LProc me;
  sr_held : k_locks k !! lk = Some (mkSpinlock 1 lkname (Some i));
  sr_own : k_locks k !! LProc me = Some (mkSpinlock 0 pname None);
}.


(** * kill() *)

Definition kill_mark (p : proc) : proc :=
  let q := set_p_killed 1 p in if decide (p_state p = SLEEPING) then set_p_state RUNNABLE q else q.

(** The first process of [l] with this pid. *)
Definition find_pid (k : kernel) (pid : Z) (l : list nat) : option nat :=
  head (filter (fun i => (p_pid <$> k_procs k !! i) = Some pid) l).

Lemma find_pid_none k pid l :
  (forall j, (p_pid <$> k_procs k !! j) <> Some pid) -> find_pid k pid l = None.
Proof.
  intros Hno. unfold find_pid. replace (filter _ l) with (@nil nat); [done|].
  symmetry. induction l as [|j l IH]; [done|]. rewrite filter_cons. by rewrite decide_False.
Qed.

Lemma find_pid_first k pid j :
  (j < Z.to_nat NPROC)%nat -> (p_pid <$> k_procs k !! j) = Some pid ->
  (forall j', (j' < j)%nat -> (p_pid <$> k_procs k !! j') <> Some pid) ->
  find_pid k pid procs = Some j.
Proof.
  intros Hj E Hfirst. unfold find_pid, procs.
  replace (Z.to_nat NPROC) with (j + S (Z.to_nat NPROC - j - 1))%nat by lia.
  rewrite seq_app, filter_app. replace (filter _ (seq 0 j)) with (@nil nat).
  - cbn [seq app Nat.add]. rewrite filter_cons. by rewrite decide_True.
  - symmetry. assert (H : forall n a, (a + n <= j)%nat ->
      filter (fun i => (p_pid <$> k_procs k !! i) = Some pid) (seq a n) = []).
    { induction n as [|n IH]; intros a Ha; [done|]. cbn [seq]. rewrite filter_cons, decide_False.
      - apply IH. lia.
      - apply Hfirst. lia. }
    by apply H.
Qed.

Lemma kill_body_run k j p pid :
  cpu_ok k -> k_procs k !! j = Some p -> lock_free k (LProc j) ->
  (do! acquire (LProc j);
   let! p := get_proc j in
   if p_pid p =? pid then
     do! upd_proc j (set_p_killed 1);
     do! when (bool_decide (p_state p = SLEEPING)) (upd_proc j (set_p_state RUNNABLE));
     do! release (LProc j);
     ret (Some 0)
   else do! release (LProc j); ret None) k
  = if decide (p_pid p = pid) then Ret (Some 0) (alter_proc j kill_mark (relax k)) else Ret None (relax k).
Proof.
  intros Hk Hp Hl. rewrite (bind_run _ _ _ _ _ (acquire_run _ _ Hk Hl)).
  rewrite (bind_run _ _ _ _ _ (get_proc_run (enter (LProc j) k) j p Hp)).
  destruct (decide (p_pid p = pid)) as [E|E].
  - rewrite (proj2 (Z.eqb_eq _ _) E). rewrite (bind_run _ _ _ _ _ (upd_proc_run _ _ _)).
    set (m := when _ _). assert (Em : m (alter_proc j (set_p_killed 1) (enter (LProc j) k))
      = Ret tt (alter_proc j kill_mark (enter (LProc j) k))).
    { unfold m. case_bool_decide as Es; cbn [when]; rewrite ?upd_proc_run; unfold ret; f_equal;
        rewrite ?alter_proc_alter; apply alter_proc_ext; intros q Hq;
        change (k_procs k !! j = Some q) in Hq; replace q with p by congruence;
        unfold kill_mark; by case_decide. }
    rewrite (bind_run _ _ _ _ _ Em), (bind_run _ _ _ _ _ (release_upd k _ _ Hk Hl (alter_proc_data _ _))).
    done.
  - rewrite (proj2 (Z.eqb_neq _ _) E).
    by rewrite (bind_run _ _ _ _ _ (release_upd k _ (fun k => k) Hk Hl data_only_id)).
Qed.

Lemma kill_loop_run pid l : forall k,
  cpu_ok k -> l <> [] ->
  (forall j, j ∈ l -> is_Some (k_procs k !! j) /\ lock_free k (LProc j)) ->
  foreach l (fun i =>
    do! acquire (LProc i);
    let! p := get_proc i in
    if p_pid p =? pid then
      do! upd_proc i (set_p_killed 1);
      do! when (bool_decide (p_state p = SLEEPING)) (upd_proc i (set_p_state RUNNABLE));
      do! release (LProc i);
      ret (Some 0)
    else do! release (LProc i); ret None) k
  = match find_pid k pid l with
    | Some j => Ret (Some 0) (alter_proc j kill_mark (relax k))
    | None => Ret None (relax k)
    end.
Proof.
  induction l as [|j l IH]; intros k Hk Hne Hl; [done|]. cbn [foreach].
  destruct (Hl j) as [[p Hp] Hf]; [set_solver|]. unfold bind at 1. rewrite (kill_body_run k j p pid Hk Hp Hf).
  unfold find_pid. rewrite filter_cons, Hp. simpl (p_pid <$> Some p).
  destruct (decide (p_pid p = pid)) as [E|E].
  - rewrite decide_True by congruence. done.
  - rewrite decide_False by congruence. cbn [obind]. destruct l as [|j' l']; [done|].
    rewrite IH; [by rewrite relax_idem|by apply relax_cpu_ok|done|].
    intros i Hi. apply (Hl i). set_solver.
Qed.

Lemma kill_run k pid :
  cpu_ok k -> length (k_procs k) = Z.to_nat NPROC ->
  (forall j, (j < Z.to_nat NPROC)%nat -> lock_free k (LProc j)) ->
  kill pid k = match find_pid k pid procs with
               | Some j => Ret 0 (alter_proc j kill_mark (relax k))
               | None => Ret (-1) (relax k)
               end.
Proof.
  intros Hk Hlen Hfree. unfold kill.
  assert (HL : forall j, j ∈ procs -> is_Some (k_procs k !! j) /\ lock_free k (LProc j)).
  { intros j Hj%elem_of_seq. split; [apply lookup_lt_is_Some; lia|apply Hfree; lia]. }
  unfold bind at 1. rewrite (kill_loop_run pid procs k Hk ltac:(done) HL). by destruct (find_pid k pid procs).
Qed.

(** kill(pid) marks exactly the first process table entry with that pid as
    killed, makes it RUNNABLE if it sleeps, changes nothing else and returns 0;
    when no entry has the pid it changes nothing and returns -1. *)
Theorem kill_correct k pid :
  cpu_ok k -> length (k_procs k) = Z.to_nat NPROC ->
  (forall j, (j < Z.to_nat NPROC)%nat -> lock_free k (LProc j)) ->
  (forall j p, k_procs k !! j = Some p -> p_pid p = pid ->
     (forall j' p', (j' < j)%nat -> k_procs k !! j' = Some p' -> p_pid p' <> pid) ->
     kill pid k = Ret 0 (alter_proc j kill_mark (relax k))) /\
  ((forall j p, k_procs k !! j = Some p -> p_pid p <> pid) -> kill pid k = Ret (-1) (relax k)).
Proof.
  intros Hk Hlen Hfree. rewrite kill_run by done. split.
  - intros j p Hp Hpid Hfirst. rewrite (find_pid_first k pid j); [done| |by rewrite Hp; simpl; congruence|].
    + apply lookup_lt_Some in Hp. lia.
    + intros j' Hj' E. destruct (k_procs k !! j') as [p'|] eqn:E'; [|done]. simpl in E.
      apply (Hfirst j' p' Hj' E'). congruence.
  - intros Hno. rewrite find_pid_none; [done|]. intros j E.
    destruct (k_procs k !! j) as [p|] eqn:E'; [|done]. simpl in E. apply (Hno j p E'). congruence.
Qed.

(** * Concrete instances *)

Definition proc_locks : gmap lockid spinlock :=
  list_to_map ((fun i => (LProc i, mkSpinlock 0 "proc" None)) <$> procs).

Lemma proc_locks_lookup j :
  (j < Z.to_nat NPROC)%nat -> proc_locks !! LProc j = Some (mkSpinlock 0 "proc" None).
Proof.
  intros Hj. apply elem_of_list_to_map_1.
  - rewrite <- list_fmap_compose. apply NoDup_fmap_2; [|apply NoDup_seq]. intros a b [=]. done.
  - apply list_elem_of_fmap. exists j. split; [done|]. apply elem_of_seq. lia.
Qed.

(** Process 3 runs on CPU 0; process 5, with pid 7, sleeps for the clock. *)
Definition proc_sample : kernel :=
  alter_proc 5 (fun p => set_p_pid 7 (set_p_state SLEEPING (set_p_chan (Some ChTicks) p)))
    (set_k_locks proc_locks
      (set_k_cpus (alter (set_c_proc (Some 3%nat)) 0%nat (k_cpus boot)) boot)).

Lemma proc_sample_on_cpu : on_cpu proc_sample 0 (mkCpu (Some 3%nat) no_context 0 0).
Proof. by split. Qed.

Lemma wakeup_correct_witness :
  exists k', wakeup ChTicks proc_sample = Ret tt k' /\
    (p_state <$> k_procs k' !! 5%nat) = Some RUNNABLE /\ (p_state <$> k_procs k' !! 4%nat) = Some UNUSED.
Proof.
  destruct (wakeup_correct proc_sample (Some 3%nat) ChTicks) as (k' & E & _ & H).
  - split; [by exists 0%nat, (mkCpu (Some 3%nat) no_context 0 0); split; [apply proc_sample_on_cpu|]|done|].
    intros j Hj _. exists "proc". by apply proc_locks_lookup.
  - exists k'. split; [exact E|]. split.
    + by rewrite (H 5%nat _ eq_refl).
    + by rewrite (H 4%nat _ eq_refl).
Defined.

Lemma kill_correct_witness :
  kill 7 proc_sample = Ret 0 (alter_proc 5 kill_mark (relax proc_sample)) /\
  kill 9 proc_sample = Ret (-1) (relax proc_sample).
Proof.
  assert (Hf : forall j, (j < Z.to_nat NPROC)%nat -> lock_free proc_sample (LProc j))
    by (intros j Hj; exists "proc"; by apply proc_locks_lookup).
  assert (Hk : cpu_ok proc_sample) by (eexists _, _; apply proc_sample_on_cpu).
  split.
  - destruct (kill_correct proc_sample 7 Hk eq_refl Hf) as [H _].
    apply (H 5%nat _ eq_refl); [done|]. intros j' p' Hj'.
    do 5 (destruct j' as [|j']; [by intros [= <-]|]). lia.
  - destruct (kill_correct proc_sample 9 Hk eq_refl Hf) as [_ H]. apply H. intros j p Hp.
    assert (HF : Forall (fun p => p_pid p <> 9) (k_procs proc_sample)) by (repeat constructor; by vm_compute).
    exact (Forall_lookup_1 _ _ _ _ HF Hp).
Defined.

(** Process 3 holds the lock of the clock. *)
Definition sleep_sample : kernel :=
  set_k_cpus (alter (set_c_noff 1) 0%nat (k_cpus proc_sample))
    (set_k_locks (<[LTicks := mkSpinlock 1 "time" (Some 0%nat)]> proc_locks) proc_sample).

Lemma sleep_sample_on_cpu : on_cpu sleep_sample 0 (mkCpu (Some 3%nat) no_context 1 0).
Proof. by split. Qed.

