(* ===== verification/Thread.v ===== *)
(** A kernel thread that may leave the CPU: the correctness of its code under a
    relation [env] that says what the rest of the system does to the state
    between a switch away and the switch back, and the part of the state that
    scheduling changes. *)

From Stdlib Require Import ZArith Lia.
From stdpp Require Import base gmap list_numbers strings numbers list.
From S2P Require Import Prelude Mem Riscv Kernel Spinlock Kalloc Vm Printf Sched SchedSpec.

Open Scope Z_scope.

(** * Total correctness of an execution

    [wp env o Q]: the execution [o] does not panic, fault, spin or run out of
    fuel; each time it leaves the CPU the environment can give it back; and
    whatever states it is given back in, it returns, with [Q]. *)
Fixpoint wp {S A : Type} (env : S -> S -> Prop) (o : outcome S A) (Q : A -> S -> Prop) : Prop :=
  match o with
  | Ret a s => Q a s
  | Switch s r => (exists s', env s s') /\ forall s', env s s' -> wp env (r s') Q
  | _ => False
  end.

Section Wp.
Context {S : Type} (env : S -> S -> Prop).

Lemma wp_mono {A} (o : outcome S A) (Q Q' : A -> S -> Prop) :
  wp env o Q -> (forall a s, Q a s -> Q' a s) -> wp env o Q'.
Proof.
  intros Hw HQ. induction o as [a s| | | |s r IH|]; simpl in *; try done; [by apply HQ|].
  destruct Hw as [He Hw]. split; [done|]. intros s' Hs'. apply IH. by apply Hw.
Qed.

Lemma wp_obind {A B} (o : outcome S A) (f : A -> M S B) Q :
  wp env o (fun a s => wp env (f a s) Q) -> wp env (obind o f) Q.
Proof.
  induction o as [a s| | | |s r IH|]; simpl; try done.
  intros [He Hw]. split; [done|]. intros s' Hs'. apply IH. by apply Hw.
Qed.

Lemma wp_bind {A B} (m : M S A) (f : A -> M S B) s Q :
  wp env (m s) (fun a s' => wp env (f a s') Q) -> wp env (bind m f s) Q.
Proof. apply wp_obind. Qed.

Lemma wp_bind_run {A B} (m : M S A) (f : A -> M S B) s a s' Q :
  m s = Ret a s' -> wp env (f a s') Q -> wp env (bind m f s) Q.
Proof. intros E. by rewrite (bind_run _ _ _ _ _ E). Qed.

Lemma wp_run {A} (m : M S A) s a s' (Q : A -> S -> Prop) :
  m s = Ret a s' -> Q a s' -> wp env (m s) Q.
Proof. by intros ->. Qed.
End Wp.

(** The execution ends in panic(msg), whatever states it is given back in. *)
Fixpoint panics {S A : Type} (env : S -> S -> Prop) (o : outcome S A) (msg : string) : Prop :=
  match o with
  | Panic m _ => m = msg
  | Switch s r => (exists s', env s s') /\ forall s', env s s' -> panics env (r s') msg
  | _ => False
  end.

Lemma panics_bind {S A B : Type} (env : S -> S -> Prop) (m : M S A) (f : A -> M S B) s msg :
  wp env (m s) (fun a s' => panics env (f a s') msg) -> panics env (bind m f s) msg.
Proof.
  unfold bind. induction (m s) as [a s1| | | |s1 r IH|]; simpl; try done.
  intros [He Hw]. split; [done|]. intros s' Hs'. apply IH. by apply Hw.
Qed.

(** * The state without what scheduling changes *)

(** [core k]: [k] without the registers, the CPUs, the process table and the
    state of the disk driver. *)
Definition core (k : kernel) : kernel :=
  set_k_hart (mkHart 0 0 0 0 0 0 0 0)
    (set_k_cpus [] (set_k_ptable (mkPtable [] 0 None) (set_k_vdisk no_vdisk k))).

Lemma core_relax k : core (relax k) = core k.
Proof. done. Qed.

Lemma core_set_procs l k : core (set_procs l k) = core k.
Proof. done. Qed.

(** Process [me], with this pid, runs; the locks of the process table are free. *)
Record running (k : kernel) (me : nat) (pid : Z) : Prop := {
  ru_cpu : exists i c, on_cpu k i c /\ c_proc c = Some me;
  ru_len : length (k_procs k) = Z.to_nat NPROC;
  ru_pid : (p_pid <$> k_procs k !! me) = Some pid;
  ru_free : forall j, (j < Z.to_nat NPROC)%nat -> lock_free k (LProc j);
}.

(** Outside all critical sections. *)
Definition unlocked (k : kernel) : Prop := forall i c, on_cpu k i c -> c_noff c = 0.

(** The process runs and holds no spinlock. *)
Record thread (k : kernel) (me : nat) (pid : Z) : Prop := {
  th_run : running k me pid;
  th_unlocked : unlocked k;
}.

Lemma on_cpu_fun k i c j d : on_cpu k i c -> on_cpu k j d -> i = j /\ c = d.
Proof.
  intros O P. assert (i = j) as -> by (rewrite <- (this_cpu_on _ _ _ O); apply (this_cpu_on _ _ _ P)).
  split; [done|]. pose proof (oc_cpu _ _ _ O). pose proof (oc_cpu _ _ _ P). congruence.
Qed.

Lemma thread_intro k me pid i c :
  on_cpu k i c -> c_proc c = Some me -> c_noff c = 0 -> length (k_procs k) = Z.to_nat NPROC ->
  (p_pid <$> k_procs k !! me) = Some pid -> (forall j, (j < Z.to_nat NPROC)%nat -> lock_free k (LProc j)) ->
  thread k me pid.
Proof.
  intros OC Hp Hn Hlen Hpid Hf. split; [split; try done; by exists i, c|].
  intros j d OD. by destruct (on_cpu_fun _ _ _ _ _ OC OD) as [_ <-].
Qed.

Lemma running_cpu_ok k me pid : running k me pid -> cpu_ok k.
Proof. intros [(i & c & OC & _) _ _ _]. by exists i, c. Qed.

Lemma thread_cpu_ok k me pid : thread k me pid -> cpu_ok k.
Proof. intros T. apply (running_cpu_ok k me pid), T. Qed.

Lemma running_ext k k' me pid :
  k_hart k' = k_hart k -> k_cpus k' = k_cpus k -> k_locks k' = k_locks k ->
  k_ptable k' = k_ptable k -> running k me pid -> running k' me pid.
Proof.
  intros Hh Hc Hl Hp [(i & c & OC & E) Hlen Hpid Hf]. split.
  - exists i, c. split; [by apply (on_cpu_ext k)|done].
  - unfold k_procs. by rewrite Hp.
  - unfold k_procs. by rewrite Hp.
  - intros j Hj. unfold lock_free. rewrite Hl. by apply Hf.
Qed.

Lemma unlocked_ext k k' : k_hart k' = k_hart k -> k_cpus k' = k_cpus k -> unlocked k -> unlocked k'.
Proof. intros Hh Hc U i c OC. apply (U i c). by apply (on_cpu_ext k'). Qed.

Lemma thread_ext k k' me pid :
  k_hart k' = k_hart k -> k_cpus k' = k_cpus k -> k_locks k' = k_locks k ->
  k_ptable k' = k_ptable k -> thread k me pid -> thread k' me pid.
Proof. intros Hh Hc Hl Hp [R U]. split; [by apply (running_ext k)|by apply (unlocked_ext k)]. Qed.

Lemma running_relax k me pid : running k me pid -> running (relax k) me pid.
Proof.
  intros [(i & c & OC & E) Hlen Hpid Hf]. split; try done.
  exists i, (cpu_relax (intr k) c). split; [by apply relax_on_cpu|by rewrite cpu_relax_proc].
Qed.

Lemma unlocked_relax k : cpu_ok k -> unlocked k -> unlocked (relax k).
Proof.
  intros (i & c & OC) U j d OD. destruct (on_cpu_fun _ _ _ _ _ (relax_on_cpu _ _ _ OC) OD) as [_ <-].
  unfold cpu_relax. pose proof (U i c OC) as Hn. by case_if.
Qed.

Lemma thread_relax k me pid : thread k me pid -> thread (relax k) me pid.
Proof. intros [R U]. split; [by apply running_relax|]. by eapply unlocked_relax, U; eapply running_cpu_ok. Qed.

Lemma running_wake_ready k me pid : running k me pid -> wake_ready k (Some me).
Proof.
  intros [(i & c & OC & E) Hlen Hpid Hf]. split; [by exists i, c|done|].
  intros j Hj _. by apply Hf.
Qed.

(** Inside the critical section of a lock other than those of the processes. *)
Lemma running_enter k l me pid :
  (forall j, l <> LProc j) -> running k me pid -> running (enter l k) me pid.
Proof.
  intros Hl [(i & c & OC & E) Hlen Hpid Hf]. split; try done.
  - exists i, (cpu_off (intr k) c). split; [by apply (on_cpu_ext (pushed k)), pushed_on_cpu|].
    unfold cpu_off. by destruct (_ =? 0).
  - intros j Hj. destruct (Hf j Hj) as [n Hn]. exists n. simpl. by rewrite lookup_alter_ne.
Qed.

Lemma running_wake k me pid me' chan :
  running k me pid -> running (set_procs (imap (wake me' chan) (k_procs k)) k) me pid.
Proof.
  intros [(i & c & OC & E) Hlen Hpid Hf]. split; try done.
  - exists i, c. split; [by apply (on_cpu_ext k)|done].
  - unfold set_procs, k_procs. simpl. by rewrite length_imap.
  - unfold set_procs, k_procs in *. simpl. rewrite list_lookup_imap. destruct (_ !! me); [|done]. simpl in *.
    rewrite <- Hpid. f_equal. unfold wake. destruct (decide _); [done|]. by destruct (_ && _).
Qed.

Lemma thread_wake k me pid me' chan :
  thread k me pid -> thread (set_procs (imap (wake me' chan) (k_procs k)) k) me pid.
Proof. intros [R U]. split; [by apply running_wake|by apply (unlocked_ext k)]. Qed.

(** The pid of the running process, as the code reads it. *)
Lemma my_pid_run {A} k me pid (f : Z -> K A) :
  running k me pid -> relax k = k ->
  (let! p := curproc in let! pr := get_proc p in f (p_pid pr)) k = f pid k.
Proof.
  intros [(i & c & OC & E) Hlen Hpid Hf] Hr. rewrite (bind_run _ _ _ _ _ (curproc_run _ _ _ _ OC E)), Hr.
  destruct (k_procs k !! me) as [p|] eqn:Ep; [|done].
  rewrite (bind_run _ _ _ _ _ (get_proc_run _ _ _ Ep)). simpl in Hpid. by injection Hpid as ->.
Qed.

(** Total correctness implies that a final state exists. *)
Lemma wp_exists {S A : Type} (env : S -> S -> Prop) (o : outcome S A) (Q : A -> S -> Prop) :
  wp env o Q -> exists a s, Q a s.
Proof.
  induction o as [a s| | | |s r IH|]; simpl; try done; [by exists a, s|].
  intros [[s' He] Hw]. by apply (IH s'), Hw.
Qed.
