(* ===== verification/SchedLive.v ===== *)
(** The scheduler dispatches every runnable process: within one pass over the
    process table, after at most as many other dispatches as there are entries
    before it, whatever the dispatched processes do, as long as each gives the
    CPU back the way sched() does and leaves the other runnable processes alone. *)

From Stdlib Require Import ZArith Lia.
From stdpp Require Import base gmap list_numbers strings numbers list.
From S2P Require Import Prelude Mem Riscv Kernel Spinlock Kalloc Vm Printf Sched SchedSpec Thread.

Open Scope Z_scope.

Implicit Types (k : kernel) (c : cpu) (ci i j : nat) (p : proc).

(** * Inevitability

    [soon n env o P]: the execution [o] leaves the CPU in a state that
    satisfies [P], after at most [n] switches that do not. *)
Fixpoint soon {S A : Type} (n : nat) (env : S -> S -> Prop) (o : outcome S A) (P : S -> Prop) {struct o} : Prop :=
  match o with
  | Switch s r =>
      P s \/
      match n with
      | O => False
      | Datatypes.S n' => (exists s', env s s') /\ forall s', env s s' -> soon n' env (r s') P
      end
  | _ => False
  end.

Lemma soon_obind {S A B : Type} (env : S -> S -> Prop) (o : outcome S A) (f : A -> M S B) P n :
  soon n env o P -> soon n env (obind o f) P.
Proof.
  revert n. induction o as [a s| | | |s r IH|]; intros n; simpl; try done.
  intros [HP|H]; [by left|]. right. destruct n as [|n]; [done|]. destruct H as [He H].
  split; [done|]. intros s' Hs'. by apply IH, H.
Qed.

Lemma soon_bind {S A B : Type} (env : S -> S -> Prop) (m : M S A) (f : A -> M S B) s P n :
  soon n env (m s) P -> soon n env (bind m f s) P.
Proof. apply soon_obind. Qed.

Lemma soon_more {S A : Type} (env : S -> S -> Prop) (o : outcome S A) P n n' :
  (n <= n')%nat -> soon n env o P -> soon n' env o P.
Proof.
  revert n n'. induction o as [a s| | | |s r IH|]; intros n n' Hn; simpl; try done.
  intros [HP|H]; [by left|]. right. destruct n as [|n]; [done|]. destruct n' as [|n']; [lia|].
  destruct H as [He H]. split; [done|]. intros s' Hs'. apply (IH s' n); [lia|]. by apply H.
Qed.

(** * The states the scheduler and the processes hand to each other *)

(** Between two turns of the loop: no lock held, no process lock taken. *)
Definition idle k ci : Prop :=
  exists c, on_cpu k ci c /\ c_noff c = 0 /\ length (k_procs k) = Z.to_nat NPROC /\ procs_free k None.

(** The CPU changes hands between the scheduler and process [j]: its lock is
    the only one held. *)
Definition lent k ci j : Prop :=
  exists c name, sole_lock k ci j c name /\
    length (k_procs k) = Z.to_nat NPROC /\ procs_free k (Some j).

(** The scheduler gives the CPU to process [j], [p] in the table until now. *)
Record dispatched k ci j p : Prop := {
  d_lent : lent k ci j;
  d_proc : k_procs k !! j = Some (set_p_state RUNNING p);
  d_cpu : c_proc <$> k_cpus k !! ci = Some (Some j);
  d_satp : h_satp (k_hart k) = MAKE_SATP (p_kpagetable p);
}.

Definition runnable k i (pt : Z) : Prop :=
  exists p, k_procs k !! i = Some p /\ p_state p = RUNNABLE /\ p_kpagetable p = pt.

(** What a dispatched process does before the scheduler has the CPU again. *)
Class Dispatch (env : kernel -> kernel -> Prop) ci : Prop := {
  dispatch_back : forall k j p, dispatched k ci j p -> exists k', env k k';
  dispatch_lent : forall k k' j p, dispatched k ci j p -> env k k' -> lent k' ci j;
  dispatch_others : forall k k' j p i pt,
    dispatched k ci j p -> env k k' -> i <> j -> runnable k i pt -> runnable k' i pt;
}.

(** * One turn of the loop *)

Lemma on_cpu_satp k i c x : on_cpu k i c -> on_cpu (set_k_hart (set_h_satp x (k_hart k)) k) i c.
Proof. intros [H1 H2 H3 H4 H5 H6]. by split. Qed.

Lemma on_cpu_proc k i c o :
  on_cpu k i c -> on_cpu (set_k_cpus (alter (set_c_proc o) i (k_cpus k)) k) i (set_c_proc o c).
Proof.
  intros [H1 H2 H3 H4 H5 H6]. split; try done. simpl. rewrite list_lookup_alter, H3. by case_decide.
Qed.

Lemma idle_enter k ci j :
  idle k ci -> In j procs ->
  acquire (LProc j) k = Ret tt (enter (LProc j) k) /\ lent (enter (LProc j) k) ci j.
Proof.
  intros (c & OC & Hn & Hlen & Hf) Hj. destruct (Hf j Hj) as [name Hl]; [done|].
  split; [apply acquire_run; [by exists ci, c|by exists name]|].
  exists (cpu_off (intr k) c), name. split; [split|].
  - by apply (on_cpu_ext (pushed k)), pushed_on_cpu.
  - unfold cpu_off. simpl. lia.
  - simpl. rewrite lookup_alter, Hl, (this_cpu_on _ _ _ OC). by case_decide.
  - split; [done|]. intros i Hi Hne. destruct (Hf i Hi) as [n Hfi]; [done|]. exists n.
    simpl. rewrite lookup_alter_ne by congruence. done.
Qed.

Lemma lent_release k ci j :
  lent k ci j -> exists k', release (LProc j) k = Ret tt k' /\ idle k' ci /\ k_procs k' = k_procs k /\
    c_proc <$> k_cpus k' !! ci = c_proc <$> k_cpus k !! ci.
Proof.
  intros (c & name & [OC Hn Hl] & Hlen & Hf).
  destruct (release_inner_run k (LProc j) ci c name OC Hn Hl) as (E & OC' & _).
  eexists. split; [exact E|]. split.
  2: { split; [done|]. simpl. rewrite list_lookup_alter_eq. by destruct (k_cpus k !! ci). }
  eexists. split; [exact OC'|]. split; [done|].
  split; [done|]. intros i Hi _. unfold lock_free. simpl.
  destruct (decide (i = j)) as [->|Hne]; [exists name; by rewrite lookup_insert_eq|].
  rewrite lookup_insert_ne by congruence. apply Hf; congruence.
Qed.

(** A change of satp or of the CPU's process keeps the hand-over state. *)
Lemma lent_satp k ci j x : lent k ci j -> lent (set_k_hart (set_h_satp x (k_hart k)) k) ci j.
Proof.
  intros (c & name & [OC Hn Hl] & Hlen & Hf). exists c, name.
  split; [split; [by apply on_cpu_satp|done|done]|done].
Qed.

Lemma lent_proc k ci j o : lent k ci j -> lent (set_k_cpus (alter (set_c_proc o) ci (k_cpus k)) k) ci j.
Proof.
  intros (c & name & [OC Hn Hl] & Hlen & Hf). exists (set_c_proc o c), name.
  split; [split; [by apply on_cpu_proc|done|done]|done].
Qed.

Lemma lent_alter k ci j i f : lent k ci j -> lent (alter_proc i f k) ci j.
Proof.
  intros (c & name & [OC Hn Hl] & Hlen & Hf). exists c, name.
  split; [split; [by apply (on_cpu_ext k)|done|done]|].
  split; [|done]. unfold alter_proc. by rewrite k_procs_set, length_alter.
Qed.

(** A process that is not runnable is passed over. *)
Lemma schedule_one_skip k ci j p :
  idle k ci -> In j procs -> k_procs k !! j = Some p -> p_state p <> RUNNABLE ->
  exists k', schedule_one ci j k = Ret tt k' /\ idle k' ci /\ k_procs k' = k_procs k.
Proof.
  intros Hk Hj Hp Hs. destruct (idle_enter k ci j Hk Hj) as [E HL].
  destruct (lent_release _ _ _ HL) as (k' & E' & Hk' & Hprocs & _). exists k'. split; [|done].
  unfold schedule_one. rewrite (bind_run _ _ _ _ _ E).
  rewrite (bind_run _ _ _ _ _ (get_proc_run (enter (LProc j) k) j p Hp)). by rewrite decide_False.
Qed.

(** A runnable one is dispatched, and the loop goes on when the CPU is back. *)
Lemma schedule_one_switch k ci j p :
  idle k ci -> In j procs -> k_procs k !! j = Some p -> p_state p = RUNNABLE ->
  exists s r, schedule_one ci j k = Switch s r /\ dispatched s ci j p /\
    k_procs s = alter (set_p_state RUNNING) j (k_procs k) /\
    forall s', lent s' ci j -> exists k', r s' = Ret tt k' /\ idle k' ci /\ k_procs k' = k_procs s'.
Proof.
  intros Hk Hj Hp Hs. destruct (idle_enter k ci j Hk Hj) as [E HL].
  unfold schedule_one. rewrite (bind_run _ _ _ _ _ E).
  rewrite (bind_run _ _ _ _ _ (get_proc_run (enter (LProc j) k) j p Hp)).
  rewrite decide_True by done. eexists _, _. split; [reflexivity|].
  assert (HL2 := lent_alter _ _ _ j (set_p_state RUNNING) HL).
  destruct (lent_proc _ _ _ (Some j) HL2) as (c & name & [OC Hn Hl] & Hlen & Hf).
  split; [split|split].
  - by apply lent_satp, lent_proc.
  - change (alter (set_p_state RUNNING) j (k_procs k) !! j = Some (set_p_state RUNNING p)).
    by rewrite list_lookup_alter_eq, Hp.
  - destruct Hk as (c0 & OC0 & _). simpl. rewrite list_lookup_alter_eq, (this_cpu_on _ _ _ OC0), list_lookup_alter_eq.
    by rewrite (oc_cpu _ _ _ OC0).
  - done.
  - done.
  - intros s' Hs'.
    assert (H := lent_proc _ _ _ None (lent_satp _ _ _ (MAKE_SATP (k_kernel_pagetable s')) Hs')).
    destruct (lent_release _ _ _ H) as (k' & E' & Hk' & Hprocs & _). exists k'. split; [exact E'|]. by split.
Qed.

(** * A pass over the table *)

Section Pass.
Context (env : kernel -> kernel -> Prop) (ci : nat) `{!Dispatch env ci}.

Lemma runnable_procs k k' i pt : k_procs k' = k_procs k -> runnable k i pt -> runnable k' i pt.
Proof. unfold runnable. by intros ->. Qed.

(** Process [i], runnable, is dispatched in a pass over [l] before which the
    entries [l1] have their turn. *)
Lemma pass_soon i pt l1 l2 : forall k,
  idle k ci -> runnable k i pt -> (forall j, In j (l1 ++ i :: l2) -> In j procs) -> ~ In i l1 ->
  soon (length l1) env (each (l1 ++ i :: l2) (schedule_one ci) k)
    (fun k' => exists p, dispatched k' ci i p /\ p_kpagetable p = pt).
Proof.
  induction l1 as [|j l1 IH]; intros k Hk Hr Hin Hni; simpl app; simpl each.
  - destruct Hr as (p & Hp & Hs & Hpt).
    destruct (schedule_one_switch k ci i p Hk (Hin i (or_introl eq_refl)) Hp Hs) as (s & r & E & Hd & _).
    apply soon_bind. rewrite E. left. by exists p.
  - assert (Hj : In j procs) by (apply Hin; by left).
    assert (Hrest : forall j', In j' (l1 ++ i :: l2) -> In j' procs) by (intros j' Hj'; apply Hin; by right).
    assert (Hne : i <> j) by (intros ->; apply Hni; by left).
    assert (Hni' : ~ In i l1) by (intros H; apply Hni; by right).
    assert (exists p, k_procs k !! j = Some p) as [p Hp].
    { destruct Hk as (c & _ & _ & Hlen & _). apply lookup_lt_is_Some. apply in_seq in Hj. lia. }
    destruct (decide (p_state p = RUNNABLE)) as [Hs|Hs].
    + destruct (schedule_one_switch k ci j p Hk Hj Hp Hs) as (s & r & E & Hd & Hpr & Hres).
      assert (Hrs : runnable s i pt).
      { destruct Hr as (q & Hq & Hqs). exists q. split; [|done]. rewrite Hpr. by rewrite list_lookup_alter_ne. }
      unfold bind. rewrite E. simpl. right. split; [by eapply dispatch_back|]. intros s' Hs'.
      destruct (Hres s') as (k' & E' & Hk' & Hpr'); [by eapply dispatch_lent|]. rewrite E'. simpl.
      apply IH; [done| |done|done]. apply (runnable_procs s'); [done|]. by eapply dispatch_others.
    + destruct (schedule_one_skip k ci j p Hk Hj Hp Hs) as (k' & E & Hk' & Hpr).
      rewrite (bind_run _ _ _ _ _ E). apply (soon_more _ _ _ (length l1)); [simpl; lia|].
      apply IH; [done| |done|done]. by apply (runnable_procs k).
Qed.

Lemma intr_on_idle k : idle k ci -> exists k', intr_on k = Ret tt k' /\ idle k' ci /\ k_procs k' = k_procs k.
Proof.
  intros (c & [H1 H2 H3 H4 H5 H6] & Hn & Hlen & Hf). eexists. split; [reflexivity|]. split; [|done].
  exists c. split; [split; try done|done].
  - by apply lor_u64_range.
  - lia.
Qed.
End Pass.

Lemma procs_split i : In i procs -> procs = seq 0 i ++ i :: seq (S i) (Z.to_nat NPROC - S i).
Proof.
  intros [_ Hi]%in_seq. unfold procs. change (i :: seq (S i) (Z.to_nat NPROC - S i)) with (seq i (S (Z.to_nat NPROC - S i))).
  rewrite <- (seq_app i _ 0). f_equal. lia.
Qed.


(** * sched() gives the CPU back as the scheduler expects *)

(** yield(), called with no lock held: the state it leaves the CPU in is one
    the scheduler goes on from. *)
Lemma yield_lends k ci c me :
  idle k ci -> on_cpu k ci c -> c_proc c = Some me -> In me procs ->
  exists s r, yield k = Switch s r /\ lent s ci me /\ k_procs s = alter (set_p_state RUNNABLE) me (k_procs k).
Proof.
  intros Hk OC Hc Hme. unfold yield. rewrite (bind_run _ _ _ _ _ (curproc_run _ _ _ _ OC Hc)).
  pose proof (relax_on_cpu _ _ _ OC) as OCr.
  assert (Hkr : idle (relax k) ci).
  { destruct Hk as (c0 & OC0 & Hn & Hlen & Hf). destruct (on_cpu_fun _ _ _ _ _ OC OC0) as [_ <-].
    exists (cpu_relax (intr k) c). split; [done|]. split; [unfold cpu_relax; by case_if|done]. }
  destruct (idle_enter _ _ _ Hkr Hme) as [E HL]. rewrite (bind_run _ _ _ _ _ E).
  rewrite (bind_run _ _ _ _ _ (upd_proc_run _ _ _)).
  destruct (lent_alter _ _ _ me (set_p_state RUNNABLE) HL) as (c1 & name & HS & Hlen & Hf).
  assert (Hc1 : c_proc c1 = Some me).
  { pose proof (oc_cpu _ _ _ (so_cpu _ _ _ _ _ HS)) as H1.
    pose proof (oc_cpu _ _ _ (pushed_on_cpu _ _ _ OCr)) as H2. change (k_cpus (pushed (relax k)) !! ci = Some c1) in H1.
    rewrite H2 in H1. injection H1 as <-. unfold cpu_off. simpl. case_if; simpl; by rewrite cpu_relax_proc. }
  destruct (k_procs k !! me) as [p|] eqn:Ep.
  2: { apply lookup_ge_None in Ep. apply in_seq in Hme. destruct Hk as (? & _ & _ & Hl & _). lia. }
  assert (Hp : k_procs (alter_proc me (set_p_state RUNNABLE) (enter (LProc me) (relax k))) !! me
               = Some (set_p_state RUNNABLE p)).
  { change (alter (set_p_state RUNNABLE) me (k_procs k) !! me = Some (set_p_state RUNNABLE p)).
    by rewrite list_lookup_alter_eq, Ep. }
  unfold bind. rewrite (sched_run _ ci c1 me _ name HS Hc1 Hp) by done.
  eexists _, _. split; [reflexivity|]. split; [by exists c1, name|done].
Qed.

(** A process that comes back from sched() in yield() and, once it has
    released its lock, calls yield() again. *)
Definition turn ci (k k' : kernel) : Prop :=
  exists me v r, c_proc <$> k_cpus k !! ci = Some (Some me) /\
    (do! (let! c := mycpu in upd_cpu c (set_c_intena v)); do! release (LProc me); yield) k = Switch k' r.

Lemma turn_run ci k j p v : dispatched k ci j p -> exists k' r,
  (do! (let! c := mycpu in upd_cpu c (set_c_intena v)); do! release (LProc j); yield) k = Switch k' r /\
  lent k' ci j /\ k_procs k' = alter (set_p_state RUNNABLE) j (k_procs k).
Proof.
  intros [(c & name & [OC Hn Hl] & Hlen & Hf) Hp Hc Hs].
  rewrite (bind_run _ _ _ _ _ (set_intena_run _ _ _ v OC)).
  set (k1 := set_k_cpus (alter (set_c_intena v) ci (k_cpus k)) k).
  assert (OC1 : on_cpu k1 ci (set_c_intena v c)).
  { destruct OC. split; try done. simpl. by rewrite list_lookup_alter_eq, oc_cpu. }
  destruct (lent_release k1 ci j) as (k2 & E & Hk2 & Hpr & Hcp).
  { exists (set_c_intena v c), name. by split; [split|]. }
  rewrite (bind_run _ _ _ _ _ E). pose proof Hk2 as (c2 & OC2 & _).
  rewrite (oc_cpu _ _ _ OC1), (oc_cpu _ _ _ OC2) in Hcp. rewrite (oc_cpu _ _ _ OC) in Hc.
  assert (Hc2 : c_proc c2 = Some j) by (simpl in Hc, Hcp; congruence).
  destruct (yield_lends k2 ci c2 j Hk2 OC2 Hc2) as (s & r & Es & HLs & Hps).
  { apply in_seq. apply lookup_lt_Some in Hp. lia. }
  exists s, r. split; [done|]. split; [done|]. by rewrite Hps, Hpr.
Qed.

(** Processes that only yield meet the scheduler's expectations. *)
#[global] Instance turn_dispatch ci : Dispatch (turn ci) ci.
Proof.
  assert (Hjk : forall k j p me, dispatched k ci j p -> c_proc <$> k_cpus k !! ci = Some (Some me) -> me = j).
  { intros k j p me [_ _ Hc _] Hm. rewrite Hc in Hm. by injection Hm. }
  split.
  - intros k j p Hd. destruct (turn_run ci k j p 0 Hd) as (k' & r & E & _).
    exists k', j, 0, r. split; [by destruct Hd|done].
  - intros k k' j p Hd (me & v & r & Hm & E). rewrite (Hjk _ _ _ _ Hd Hm) in E.
    destruct (turn_run ci k j p v Hd) as (k2 & r2 & E2 & HL & _). rewrite E2 in E. by injection E as <- _.
  - intros k k' j p i pt Hd (me & v & r & Hm & E) Hne (q & Hq & Hqs). rewrite (Hjk _ _ _ _ Hd Hm) in E.
    destruct (turn_run ci k j p v Hd) as (k2 & r2 & E2 & _ & Hpr). rewrite E2 in E. injection E as <- _.
    exists q. split; [|done]. rewrite Hpr. by rewrite list_lookup_alter_ne.
Qed.

(** Processes 2, 5 and 9 are runnable. *)
Definition ready_sample : kernel :=
  alter_proc 9 (set_p_state RUNNABLE) (alter_proc 5 (set_p_state RUNNABLE) (alter_proc 2 (set_p_state RUNNABLE)
    (set_k_locks proc_locks boot))).

Lemma ready_sample_idle : idle ready_sample 0.
Proof.
  exists (mkCpu None no_context 0 0). split; [by split|]. split; [done|]. split; [done|].
  intros j [_ Hj]%in_seq _. exists "proc". by apply proc_locks_lookup.
Qed.

