(* ===== verification/Sv39.v ===== *)
(** The walk of the hardware agrees with the page tables that the kernel
    builds, so that copyin() and copyinstr(), which read user memory through the
    process's kernel page table, read what the user page table maps. *)

From Stdlib Require Import ZArith Lia.
From stdpp Require Import base gmap list_numbers strings numbers list.
From S2P Require Import Prelude Mem Riscv Kernel Spinlock Kalloc Vm VmTree VmMap Printf Sched SchedSpec.

Open Scope Z_scope.

Section Sv39.
Context `{LinkerSymbols} `{!Layout}.

Implicit Types (m : mem) (k : kernel) (sh : shape).

(** * The walk of the hardware in a page-table tree *)

(** The permission bits that make an entry a leaf. *)
Definition PTE_RWX : Z := Z.lor (Z.lor PTE_R PTE_W) PTE_X.

Lemma table_pte_no_leaf q : ram_page q -> has (Z.lor (PA2PTE q) PTE_V) PTE_RWX = false.
Proof.
  intros Hq. unfold has. rewrite land_pte_flag; [done|by apply ram_page_is_page| |]; by vm_compute.
Qed.

Lemma walk_table level m table va q :
  ram_page q -> ld64 m (table + 8 * PX (Z.of_nat (S level)) va) = Z.lor (PA2PTE q) PTE_V ->
  sv39_walk (S level) m table va = sv39_walk level m q va.
Proof.
  intros Hq E. cbn [sv39_walk]. rewrite E, (table_pte_valid q Hq). fold PTE_RWX.
  by rewrite (table_pte_no_leaf q Hq), (table_pte_addr q Hq).
Qed.

Lemma tree_walk m root sh va :
  tree_wf m root sh -> has (pte_at m sh va) PTE_V = true -> has (pte_at m sh va) PTE_RWX = true ->
  sv39_walk 2 m root va = Some (pte_at m sh va, 0%nat).
Proof.
  intros W HV HL. unfold pte_at, pte_addr in *.
  destruct (sh (L0 (PX 2 va) (PX 1 va))) as [p0|] eqn:E0; [|done].
  destruct (tw_parent _ _ _ W (L1 (PX 2 va)) (PX 1 va) _ _ E0 eq_refl) as [_ [p1 E1]].
  pose proof (tw_entry _ _ _ W Root root (PX 2 va) _ (tw_root _ _ _ W) eq_refl (PX_range 2 va ltac:(lia))) as H2.
  pose proof (tw_entry _ _ _ W _ p1 (PX 1 va) _ E1 eq_refl (PX_range 1 va ltac:(lia))) as H1.
  rewrite E1 in H2. rewrite E0 in H1. simpl in H1, H2.
  rewrite (walk_table 1 m root va p1 (tw_page _ _ _ W _ _ E1) H2).
  rewrite (walk_table 0 m p1 va p0 (tw_page _ _ _ W _ _ E0) H1).
  cbn [sv39_walk]. change (Z.of_nat 0) with 0. rewrite HV. fold PTE_RWX. by rewrite HL.
Qed.

(** MAKE_SATP and its inverse. *)
Lemma satp_make root : ram_page root ->
  satp_root (MAKE_SATP root) = root /\ Z.shiftr (MAKE_SATP root) 60 = 8.
Proof.
  intros Hr. pose proof (ram_page_is_page _ Hr) as [Hp Hb].
  assert (Hq : 0 <= root / 4096 < 2 ^ 44).
  { split; [apply Z.div_pos; lia|]. apply Z.div_lt_upper_bound; lia. }
  assert (E : MAKE_SATP root = 8 * 2 ^ 60 + root / 4096).
  { unfold MAKE_SATP. change SATP_SV39 with (8 * 2 ^ 60). rewrite Z.shiftr_div_pow2 by lia.
    change (2 ^ 12) with 4096. rewrite Z.add_nocarry_lxor, Z.lxor_lor; [done| |].
    all: apply Z.bits_inj'; intros i Hi; rewrite Z.land_spec, Z.bits_0.
    all: destruct (Z_lt_ge_dec i 44); [rewrite (Z.mul_pow2_bits_low 8 60) by lia; done|].
    all: rewrite (Z.bits_above_log2 (root / 4096)); [by rewrite andb_false_r|lia|].
    all: destruct (decide (root / 4096 = 0)) as [->|]; [simpl; lia|].
    all: apply Z.lt_le_trans with 44; [apply Z.log2_lt_pow2; lia|lia]. }
  rewrite E. split.
  - unfold satp_root. rewrite Z.add_mod by lia. change ((8 * 2 ^ 60) mod 2 ^ 44) with 0.
    rewrite Z.add_0_l, Z.mod_mod by lia. rewrite Z.mod_small by lia. Z.div_mod_to_equations. lia.
  - rewrite Z.shiftr_div_pow2 by lia. rewrite Z.div_add_l by lia. rewrite Z.div_small by lia. done.
Qed.

(** * The kernel page table of a process mirrors its user memory *)

(** Below [sz] every page is present and readable, and the kernel table [shk]
    has it without U: what u2kvmcopy() establishes. *)
Definition mirrored m shu shk (sz : Z) : Prop :=
  forall va, 0 <= va < sz ->
    ram_page (PTE2PA (pte_at m shu va)) /\
    has (pte_at m shu va) PTE_V = true /\ has (pte_at m shu va) PTE_R = true /\
    PTE2PA (pte_at m shk va) = PTE2PA (pte_at m shu va) /\ has (pte_at m shk va) PTE_U = false /\
    has (pte_at m shk va) PTE_V = has (pte_at m shu va) PTE_V /\
    has (pte_at m shk va) PTE_R = has (pte_at m shu va) PTE_R.

Lemma has_RWX x : has x PTE_R = true -> has x PTE_RWX = true.
Proof.
  intros HR%has_spec. apply has_spec. intros E. apply HR.
  replace PTE_R with (Z.land PTE_RWX PTE_R) by done. by rewrite Z.land_assoc, E.
Qed.

Lemma translate_mirrored k kroot shu shk sz va :
  h_satp (k_hart k) = MAKE_SATP kroot -> tree_wf (k_mem k) kroot shk ->
  mirrored (k_mem k) shu shk sz -> 0 <= va < sz ->
  translate k va = Some (PTE2PA (pte_at (k_mem k) shu va) + va mod 4096) /\
  in_ram (PTE2PA (pte_at (k_mem k) shu va) + va mod 4096) 1 = true.
Proof.
  intros Hs W HM Hva. destruct (HM va Hva) as (Hpg & HV & HR & EP & EU & EV & ER).
  destruct (satp_make kroot (tw_page _ _ _ W _ _ (tw_root _ _ _ W))) as [Hroot H60].
  split.
  - unfold translate. rewrite Hs, H60, Hroot. simpl (negb _). cbv iota.
    rewrite (tree_walk _ _ _ va W) by (try apply has_RWX; congruence).
    rewrite ER, HR, EU, EP. simpl. destruct Hpg as [Hal _].
    change (4096 * 1) with 4096. by rewrite (Z.mul_comm _ 4096), <- Z_div_exact_full_2.
  - eapply in_ram_sub; [by apply ram_page_in_ram| |]; pose proof (Z.mod_pos_bound va 4096 ltac:(lia)); lia.
Qed.
(** * copyin() and copyinstr() *)

(** The user memory at [va], as the user page table maps it. *)
Definition user_bytes m shu (va : Z) (n : nat) : list Z := (vbyte m shu) <$> seqZ va (Z.of_nat n).

Lemma user_bytes_S m shu va n : user_bytes m shu va (S n) = vbyte m shu va :: user_bytes m shu (va + 1) n.
Proof.
  unfold user_bytes. rewrite seqZ_cons by lia. simpl. f_equal. f_equal. f_equal; lia.
Qed.

(** The process [me], with [p] in the table, runs on its kernel page table,
    which mirrors its user memory. *)
Record user_space k me p shu shk : Prop := {
  us_cpu : exists i c, on_cpu k i c /\ c_proc c = Some me;
  us_proc : k_procs k !! me = Some p;
  us_satp : h_satp (k_hart k) = MAKE_SATP (p_kpagetable p);
  us_tree : tree_wf (k_mem k) (p_kpagetable p) shk;
  us_sz : 0 <= p_sz p <= USER_TOP;
  us_mirror : mirrored (k_mem k) shu shk (p_sz p);
}.

Section Copyin.
Context (k : kernel) (me : nat) (p : proc) (shu shk : shape) (HU : user_space k me p shu shk).

Lemma curproc_user : curproc k = Ret me (relax k).
Proof. destruct (us_cpu _ _ _ _ _ HU) as (i & c & OC & Hc). by apply (curproc_run k i c). Qed.

Lemma vload8_user va : 0 <= va < p_sz p -> vload8 va (relax k) = Ret (vbyte (k_mem k) shu va) (relax k).
Proof.
  intros Hva.
  destruct (translate_mirrored k _ shu shk _ va (us_satp _ _ _ _ _ HU) (us_tree _ _ _ _ _ HU)
    (us_mirror _ _ _ _ _ HU) Hva) as [E Hin].
  unfold vload8, bind, gets. cbn [obind]. change (translate (relax k) va) with (translate k va). rewrite E.
  rewrite kload_run by done. f_equal. apply Z.add_0_r.
Qed.

Lemma vload_bytes_user n : forall va,
  0 <= va -> va + Z.of_nat n <= p_sz p ->
  vload_bytes n va (relax k) = Ret (user_bytes (k_mem k) shu va n) (relax k).
Proof.
  induction n as [|n IH]; intros va Hva Hn; [done|]. cbn [vload_bytes].
  rewrite (bind_run _ _ _ _ _ (vload8_user va ltac:(lia))).
  rewrite (bind_run _ _ _ _ _ (IH (va + 1) ltac:(lia) ltac:(lia))). by rewrite user_bytes_S.
Qed.

Lemma copyin_run pt srcva len :
  0 <= srcva < 2 ^ 64 -> 0 <= len < 2 ^ 64 ->
  copyin pt srcva len k =
    Ret (if decide (srcva < p_sz p /\ srcva + len <= p_sz p)
         then (0, user_bytes (k_mem k) shu srcva (Z.to_nat len)) else (-1, [])) (relax k).
Proof.
  intros Hs Hl. unfold copyin, copyin_new. rewrite (bind_run _ _ _ _ _ curproc_user).
  rewrite (bind_run _ _ _ _ _ (get_proc_run (relax k) me p (us_proc _ _ _ _ _ HU))).
  pose proof (us_sz _ _ _ _ _ HU) as Hsz. change USER_TOP with (2 ^ 31) in Hsz.
  assert (Hsum : u64 (srcva + len) = srcva + len \/ u64 (srcva + len) = srcva + len - 2 ^ 64).
  { unfold u64. destruct (decide (srcva + len < 2 ^ 64)); [left; apply Z.mod_small; lia|right].
    symmetry. apply (Z.mod_unique_pos _ _ 1); lia. }
  case_decide as Hd.
  - rewrite (u64_small (srcva + len)), (u32_small len) by lia.
    rewrite (proj2 (Z.leb_gt _ _)), !(proj2 (Z.ltb_ge _ _)) by lia. cbn [orb].
    rewrite (bind_run _ _ _ _ _ (vload_bytes_user (Z.to_nat len) srcva ltac:(lia) ltac:(lia))). done.
  - replace (_ || _) with true; [done|]. symmetry. rewrite !orb_true_iff, Z.leb_le, !Z.ltb_lt. lia.
Qed.

(** The string at [va], with its terminating nul, if it ends within [n] bytes
    and below [sz]; otherwise the bytes up to there. *)
Fixpoint user_string m shu (n : nat) (va sz : Z) : bool * list Z :=
  match n with
  | O => (false, [])
  | S n' =>
      if sz <=? va then (false, []) else
      let c := vbyte m shu va in
      if c =? 0 then (true, [0]) else
      let '(b, s) := user_string m shu n' (va + 1) sz in (b, c :: s)
  end.

Lemma copyinstr_loop_run srcva max : 0 <= srcva -> forall fuel n dst,
  (Z.to_nat (max - n) < fuel)%nat -> 0 <= n -> srcva + n <= p_sz p ->
  copyinstr_loop fuel me srcva n max dst (relax k) =
    Ret (let '(b, s) := user_string (k_mem k) shu (Z.to_nat (max - n)) (srcva + n) (p_sz p) in
         (if b then 0 else -1, dst ++ s)) (relax k).
Proof.
  intros Hs. pose proof (us_sz _ _ _ _ _ HU) as Hsz. change USER_TOP with (2 ^ 31) in Hsz.
  induction fuel as [|fuel IH]; intros n dst Hf Hn Hle; [lia|]. cbn [copyinstr_loop].
  destruct (Z.ltb_spec n max) as [Hlt|Hge].
  2: { replace (Z.to_nat (max - n)) with 0%nat by lia. simpl. by rewrite app_nil_r. }
  rewrite (bind_run _ _ _ _ _ (get_proc_run (relax k) me p (us_proc _ _ _ _ _ HU))).
  rewrite u64_small by lia.
  replace (Z.to_nat (max - n)) with (S (Z.to_nat (max - (n + 1)))) by lia. cbn [user_string].
  destruct (Z.leb_spec (p_sz p) (srcva + n)) as [Hout|Hin]; [by rewrite app_nil_r|].
  rewrite (bind_run _ _ _ _ _ (vload8_user (srcva + n) ltac:(lia))).
  destruct (Z.eqb_spec (vbyte (k_mem k) shu (srcva + n)) 0) as [->|Hc]; [done|].
  rewrite IH by lia. rewrite Z.add_assoc. by destruct (user_string _ _ _ _ _) as [b s]; rewrite <- app_assoc.
Qed.

Lemma copyinstr_run pt srcva max :
  0 <= srcva ->
  copyinstr pt srcva max k =
    Ret (let '(b, s) := user_string (k_mem k) shu (Z.to_nat max) srcva (p_sz p) in (if b then 0 else -1, s)) (relax k).
Proof.
  intros Hs. unfold copyinstr, copyinstr_new. rewrite (bind_run _ _ _ _ _ curproc_user).
  rewrite (bind_run _ _ _ _ _ (get_proc_run (relax k) me p (us_proc _ _ _ _ _ HU))).
  destruct (Z.leb_spec (p_sz p) srcva) as [Hout|Hin].
  - destruct (Z.to_nat max); simpl; [done|]. by rewrite (proj2 (Z.leb_le _ _)) by done.
  - rewrite copyinstr_loop_run by lia. rewrite Z.sub_0_r, Z.add_0_r. by destruct (user_string _ _ _ _ _).
Qed.
End Copyin.

(** [l] is the length of the string at [va], which ends before [n] bytes and below [sz]. *)
Definition string_length m shu (n : nat) (va sz : Z) (l : nat) : Prop :=
  (l < n)%nat /\ va + Z.of_nat l < sz /\ vbyte m shu (va + Z.of_nat l) = 0 /\
  forall j, (j < l)%nat -> vbyte m shu (va + Z.of_nat j) <> 0.

Lemma user_string_spec m shu sz n : forall va,
  match user_string m shu n va sz with
  | (true, s) => exists l, string_length m shu n va sz l /\ s = user_bytes m shu va (S l)
  | (false, _) => forall l, ~ string_length m shu n va sz l
  end.
Proof.
  induction n as [|n IH]; intros va; [intros l (Hl & _); lia|]. cbn [user_string].
  destruct (Z.leb_spec sz va) as [Hout|Hin]; [intros l (_ & Hl & _); lia|].
  destruct (Z.eqb_spec (vbyte m shu va) 0) as [E|E].
  - exists 0%nat. rewrite user_bytes_S, E. split; [|done]. unfold string_length. rewrite Z.add_0_r. repeat split; [lia..|done|lia].
  - specialize (IH (va + 1)). destruct (user_string m shu n (va + 1) sz) as [[|] s].
    + destruct IH as (l & (Hl & Hs & Hz & Hnz) & ->). exists (S l). rewrite (user_bytes_S _ _ va). split; [|done].
      replace (va + 1 + Z.of_nat l) with (va + Z.of_nat (S l)) in * by lia.
      split; [lia|]. split; [done|]. split; [done|]. intros [|j] Hj; [by rewrite Z.add_0_r|].
      replace (va + Z.of_nat (S j)) with (va + 1 + Z.of_nat j) by lia. apply Hnz. lia.
    + intros [|l] (Hl & Hs & Hz & Hnz); [rewrite Z.add_0_r in Hz; done|]. apply (IH l).
      replace (va + Z.of_nat (S l)) with (va + 1 + Z.of_nat l) in * by lia.
      split; [lia|]. split; [done|]. split; [done|]. intros j Hj.
      replace (va + 1 + Z.of_nat j) with (va + Z.of_nat (S j)) by lia. apply Hnz. lia.
Qed.

(** C9. copyin() and copyinstr(), which dereference the user's address through
    the process's kernel page table, agree with the user page table when the
    kernel table mirrors it (what u2kvmcopy() establishes).  copyin() of a range
    that starts below p->sz and does not pass it returns 0 with the bytes that
    the user table maps there; of any other range, also one that wraps around,
    -1.  copyinstr() returns 0 with the string and its nul exactly when a
    nul comes within max bytes and below p->sz, and -1 otherwise.  Neither
    faults. *)
Theorem copyin_correct k me p shu shk pt srcva len max :
  user_space k me p shu shk -> 0 <= srcva < 2 ^ 64 -> 0 <= len < 2 ^ 64 ->
  copyin pt srcva len k =
    Ret (if decide (srcva < p_sz p /\ srcva + len <= p_sz p)
         then (0, user_bytes (k_mem k) shu srcva (Z.to_nat len)) else (-1, [])) (relax k) /\
  exists r s, copyinstr pt srcva max k = Ret (r, s) (relax k) /\
    (r = 0 /\ (exists l, string_length (k_mem k) shu (Z.to_nat max) srcva (p_sz p) l /\
                         s = user_bytes (k_mem k) shu srcva (S l)) \/
     r = -1 /\ forall l, ~ string_length (k_mem k) shu (Z.to_nat max) srcva (p_sz p) l).
Proof.
  intros HU Hs Hl. split; [by apply (copyin_run k me p shu shk)|].
  pose proof (copyinstr_run k me p shu shk HU pt srcva max ltac:(lia)) as E.
  pose proof (user_string_spec (k_mem k) shu (p_sz p) (Z.to_nat max) srcva) as HS.
  destruct (user_string _ _ _ _ _) as [[|] s]; eexists _, s; (split; [exact E|]); [by left|by right].
Qed.

(** * A page table with one mapping *)

Definition path_shape (root p1 p0 i j : Z) : shape := fun r =>
  match r with
  | Root => Some root
  | L1 x => if x =? i then Some p1 else None
  | L0 x y => if (x =? i) && (y =? j) then Some p0 else None
  end.

Lemma path_wf m root p1 p0 i j :
  ram_page root -> ram_page p1 -> ram_page p0 -> NoDup [root; p1; p0] -> 0 <= i < 512 -> 0 <= j < 512 ->
  (forall x, 0 <= x < 512 -> ld64 m (root + 8 * x) = if x =? i then Z.lor (PA2PTE p1) PTE_V else 0) ->
  (forall x, 0 <= x < 512 -> ld64 m (p1 + 8 * x) = if x =? j then Z.lor (PA2PTE p0) PTE_V else 0) ->
  tree_wf m root (path_shape root p1 p0 i j).
Proof.
  intros Hr Hp1 Hp0 HN Hi Hj E1 E0.
  assert (root <> p1 /\ root <> p0 /\ p1 <> p0) as (N1 & N2 & N3).
  { apply NoDup_cons in HN as [Ha HN]. apply NoDup_cons in HN as [Hb _]. set_solver. }
  split; [done|..]; unfold path_shape.
  - intros [|x|x y] q Hq; repeat case_match; simplify_eq; done.
  - intros [|x|x y] [|x'|x' y'] q Hq Hq'; repeat case_match; simplify_eq; bool_prop; destruct_and?; subst; try done.
  - intros [|x|x y] q idx c Hq Hc Hidx; simpl in Hc; simplify_eq.
    + pose proof (E1 idx Hidx) as E. by destruct (idx =? i); simpl; rewrite E.
    + destruct (Z.eqb_spec x i) as [->|]; [|done]. simplify_eq. simpl.
      pose proof (E0 idx Hidx) as E. by destruct (idx =? j); simpl; rewrite E.
  - intros [|x|x y] idx c q Hq Hc; simpl in Hc; simplify_eq.
    + destruct (Z.eqb_spec idx i) as [->|]; [|done]. split; [done|by eexists].
    + destruct (Z.eqb_spec x i) as [->|]; [|done]. simpl in Hq. destruct (Z.eqb_spec idx j) as [->|]; [|done].
      split; [done|by eexists].
Qed.
End Sv39.

(** * A concrete user space

    Process 3 runs on CPU 0 with one page of memory, at 0x80033000, that holds
    "hi"; its user table is at 0x80030000, its kernel table at 0x80034000. *)

Definition copy_mem : mem :=
  st64 (st64 (st64 (st64 (st64 (st64 (st64 ∅
    0x80030000 (Z.lor (PA2PTE 0x80031000) PTE_V)) 0x80031000 (Z.lor (PA2PTE 0x80032000) PTE_V))
    0x80032000 (Z.lor (PA2PTE 0x80033000) 0x17))
    0x80034000 (Z.lor (PA2PTE 0x80035000) PTE_V)) 0x80035000 (Z.lor (PA2PTE 0x80036000) PTE_V))
    0x80036000 (Z.lor (PA2PTE 0x80033000) 0x7))
    0x80033000 (104 + 256 * 105).

Definition copy_proc : proc := set_p_sz 4096 (set_p_kpagetable 0x80034000 no_proc).

Definition copy_k : kernel :=
  set_mem copy_mem
    (set_k_hart (set_h_satp (MAKE_SATP 0x80034000) (k_hart proc_sample))
      (alter_proc 3 (fun _ => copy_proc) proc_sample)).

Definition copy_shu : shape := path_shape 0x80030000 0x80031000 0x80032000 0 0.
Definition copy_shk : shape := path_shape 0x80034000 0x80035000 0x80036000 0 0.

Lemma copy_ld64_other a :
  (forall b, b ∈ [0x80030000; 0x80031000; 0x80032000; 0x80034000; 0x80035000; 0x80036000; 0x80033000] ->
     a + 8 <= b \/ b + 8 <= a) ->
  ld64 copy_mem a = 0.
Proof.
  intros Ha. unfold copy_mem. rewrite !ld64_st64_ne by (apply Ha; set_solver). unfold ld64. by vm_compute.
Qed.

Lemma copy_entry q p x :
  q ∈ [0x80030000; 0x80031000; 0x80034000; 0x80035000] -> ld64 copy_mem q = p -> 0 <= x < 512 ->
  ld64 copy_mem (q + 8 * x) = if x =? 0 then p else 0.
Proof.
  intros Hq E Hx. destruct (Z.eqb_spec x 0) as [->|Hne]; [by rewrite Z.mul_0_r, Z.add_0_r|].
  apply copy_ld64_other. set_unfold in Hq. intros b Hb. set_unfold in Hb. lia.
Qed.

Lemma copy_wf_u : tree_wf copy_mem 0x80030000 copy_shu.
Proof.
  apply path_wf; try (split; by vm_compute); [decided..| |]; intros x Hx; apply copy_entry;
    (set_solver || done || by vm_compute).
Qed.

Lemma copy_wf_k : tree_wf copy_mem 0x80034000 copy_shk.
Proof.
  apply path_wf; try (split; by vm_compute); [decided..| |]; intros x Hx; apply copy_entry;
    (set_solver || done || by vm_compute).
Qed.

Lemma copy_mirrored : mirrored copy_mem copy_shu copy_shk 4096.
Proof.
  intros va Hva.
  assert (Eu : forall sh, pte_at copy_mem sh va = pte_at copy_mem sh 0).
  { intros sh. symmetry. apply same_vpage_pte; [lia|lia|]. apply same_vpage_range; [done|lia]. }
  rewrite !Eu. split; [split; by vm_compute|]. by vm_compute.
Qed.

Lemma copy_user_space : user_space copy_k 3 copy_proc copy_shu copy_shk.
Proof.
  split; [|done|done|apply copy_wf_k|done|apply copy_mirrored].
  exists 0%nat, (mkCpu (Some 3%nat) no_context 0 0). by split; [split|].
Qed.

Lemma copyin_correct_witness :
  copyin 0x80030000 0 2 copy_k = Ret (0, [104; 105]) (relax copy_k) /\
  copyin 0x80030000 4095 2 copy_k = Ret (-1, []) (relax copy_k) /\
  copyin 0x80030000 1 (2 ^ 64 - 1) copy_k = Ret (-1, []) (relax copy_k) /\
  exists r s, copyinstr 0x80030000 0 10 copy_k = Ret (r, s) (relax copy_k).
Proof.
  pose proof (fun va len H => copyin_correct copy_k 3 copy_proc copy_shu copy_shk 0x80030000 va len 10 copy_user_space H) as T.
  split; [destruct (T 0 2 ltac:(lia) ltac:(lia)) as [E _]; exact E|].
  split; [destruct (T 4095 2 ltac:(lia) ltac:(lia)) as [E _]; exact E|].
  split; [destruct (T 1 (2 ^ 64 - 1) ltac:(lia) ltac:(lia)) as [E _]; exact E|].
  destruct (T 0 2 ltac:(lia) ltac:(lia)) as [_ (r & s & E & _)]. exists r, s. exact E.
Defined.
