(* ===== verification/Asm.v ===== *)
(** The assembly code of the kernel: trampoline.S (uservec, userret),
    kernelvec.S (kernelvec, timervec), swtch.S and entry.S, as lists of
    instructions, and the instructions of the machine that they use.

    A load or store goes through the page table that satp names, read from the
    memory as the hardware reads it ([sv39_walk]); machine mode uses physical
    addresses.  The TLB and the accessed and dirty bits are not part of the
    machine.  The theorems are in AsmSpec.v. *)

From Stdlib Require Import ZArith Lia.
From stdpp Require Import base gmap list_numbers strings numbers functions list.
From S2P Require Import Prelude Mem Riscv Kernel Spinlock Kalloc Vm Printf Sched.

Open Scope Z_scope.

(** * The machine *)

Inductive reg : Type :=
  | zero | ra | sp | gp | tp | t0 | t1 | t2 | s0 | s1
  | a0 | a1 | a2 | a3 | a4 | a5 | a6 | a7
  | s2 | s3 | s4 | s5 | s6 | s7 | s8 | s9 | s10 | s11
  | t3 | t4 | t5 | t6.

#[global] Instance reg_eq_dec : EqDecision reg.
Proof. solve_decision. Defined.

Inductive csr : Type :=
  | sscratch | satp | sip | sepc | sstatus | sie
  | mscratch | mhartid | mepc | mstatus | mtvec | mie | medeleg | mideleg | pmpaddr0 | pmpcfg0.

#[global] Instance csr_eq_dec : EqDecision csr.
Proof. solve_decision. Defined.

Inductive mode : Type := MachineMode | SupervisorMode | UserMode.

#[global] Instance mode_eq_dec : EqDecision mode.
Proof. solve_decision. Defined.

Record machine : Type := mkMachine {
  regs : reg -> Z;
  csrs : csr -> Z;
  memory : mem;
  pc : Z;
  priv : mode;
}.

Definition set_reg (r : reg) (v : Z) (s : machine) : machine :=
  mkMachine (if decide (r = zero) then regs s else <[r := v]> (regs s)) (csrs s) (memory s) (pc s) (priv s).
Definition set_csr (c : csr) (v : Z) (s : machine) : machine :=
  mkMachine (regs s) (<[c := v]> (csrs s)) (memory s) (pc s) (priv s).
Definition set_memory (m : mem) (s : machine) : machine :=
  mkMachine (regs s) (csrs s) m (pc s) (priv s).
Definition set_pc (a : Z) (s : machine) : machine :=
  mkMachine (regs s) (csrs s) (memory s) a (priv s).
Definition set_priv (p : mode) (s : machine) : machine :=
  mkMachine (regs s) (csrs s) (memory s) (pc s) p.

Definition get_reg (r : reg) (s : machine) : Z := if decide (r = zero) then 0 else regs s r.

(** The physical address of a load ([w] false) or a store ([w] true) in mode
    [p].  In supervisor mode (sstatus.SUM is 0) the leaf must not have U. *)
Definition physical (p : mode) (m : mem) (root : Z) (w : bool) (va : Z) : option Z :=
  if decide (p = MachineMode) then Some va else
  if negb (Z.shiftr root 60 =? 8) then Some va else
  match sv39_walk 2 m (satp_root root) va with
  | Some (pte, level) =>
      if has pte (if w then PTE_W else PTE_R) &&
         eqb (has pte PTE_U) (bool_decide (p = UserMode)) then
        let size := 4096 * 512 ^ Z.of_nat level in
        Some (PTE2PA pte / size * size + va mod size)
      else None
  | None => None
  end.

(** * Instructions *)

Inductive instr : Type :=
  | sd (rs : reg) (off : Z) (rb : reg)
  | ld (rd : reg) (off : Z) (rb : reg)
  | li (rd : reg) (v : Z)
  | la (rd : reg) (symbol : Z)
  | addi (rd rs : reg) (imm : Z)
  | add (rd rs1 rs2 : reg)
  | mul (rd rs1 rs2 : reg)
  | csrr (rd : reg) (c : csr)
  | csrw (c : csr) (rs : reg)
  | csrrw (rd : reg) (c : csr) (rs : reg)
  | sfence_vma_zero
  | call (f next : Z)
  | jr (rs : reg)
  | sret
  | mret.

(** sret: the mode in sstatus.SPP, the interrupt flag from SPIE. *)
Definition sret_status (x : Z) : Z :=
  let off := Z.land x (u64 (Z.lnot (Z.lor SSTATUS_SPP SSTATUS_SIE))) in
  Z.lor SSTATUS_SPIE (if has x SSTATUS_SPIE then Z.lor off SSTATUS_SIE else off).

(** * riscv.h: the bits of mstatus *)
Definition MSTATUS_MPP_MASK : Z := Z.shiftl 3 11.
Definition MSTATUS_MPP_S : Z := Z.shiftl 1 11.
Definition MSTATUS_MIE : Z := Z.shiftl 1 3.
Definition MSTATUS_MPIE : Z := Z.shiftl 1 7.

(** mret: the mode in mstatus.MPP, the interrupt flag from MPIE. *)
Definition mret_mode (x : Z) : mode :=
  if Z.land x MSTATUS_MPP_MASK =? MSTATUS_MPP_MASK then MachineMode
  else if Z.land x MSTATUS_MPP_MASK =? MSTATUS_MPP_S then SupervisorMode else UserMode.
Definition mret_status (x : Z) : Z :=
  let off := Z.land x (u64 (Z.lnot (Z.lor MSTATUS_MPP_MASK MSTATUS_MIE))) in
  Z.lor MSTATUS_MPIE (if has x MSTATUS_MPIE then Z.lor off MSTATUS_MIE else off).

(** The registers that machine mode alone may use. *)
Definition machine_csr (c : csr) : bool :=
  match c with
  | sscratch | satp | sip | sepc | sstatus | sie => false
  | _ => true
  end.
Definition csr_allowed (p : mode) (c : csr) : bool :=
  match p with
  | MachineMode => true
  | SupervisorMode => negb (machine_csr c)
  | UserMode => false
  end.

(** What a write of [x] leaves in the register: of sip only SSIP is writable. *)
Definition csr_write (c : csr) (old x : Z) : Z :=
  match c with
  | sip => Z.lor (Z.land old (u64 (Z.lnot 2))) (Z.land x 2)
  | mhartid => old
  | _ => x
  end.

(** One instruction; [None] is a page fault or an instruction that the mode
    does not allow. *)
Definition step (i : instr) (s : machine) : option machine :=
  match i with
  | sd rs off rb =>
      a ← physical (priv s) (memory s) (csrs s satp) true (u64 (get_reg rb s + off));
      Some (set_memory (st64 (memory s) a (get_reg rs s)) s)
  | ld rd off rb =>
      a ← physical (priv s) (memory s) (csrs s satp) false (u64 (get_reg rb s + off));
      Some (set_reg rd (ld64 (memory s) a) s)
  | li rd v => Some (set_reg rd (u64 v) s)
  | la rd v => Some (set_reg rd v s)
  | addi rd rs imm => Some (set_reg rd (u64 (get_reg rs s + imm)) s)
  | add rd rs1 rs2 => Some (set_reg rd (u64 (get_reg rs1 s + get_reg rs2 s)) s)
  | mul rd rs1 rs2 => Some (set_reg rd (u64 (get_reg rs1 s * get_reg rs2 s)) s)
  | csrr rd c => if csr_allowed (priv s) c then Some (set_reg rd (csrs s c) s) else None
  | csrw c rs =>
      if csr_allowed (priv s) c then Some (set_csr c (csr_write c (csrs s c) (get_reg rs s)) s) else None
  | csrrw rd c rs =>
      if csr_allowed (priv s) c then
        Some (set_reg rd (csrs s c) (set_csr c (csr_write c (csrs s c) (get_reg rs s)) s))
      else None
  | sfence_vma_zero => Some s
  | call f next => Some (set_pc f (set_reg ra next s))
  | jr rs => Some (set_pc (get_reg rs s) s)
  | sret =>
      if decide (priv s = UserMode) then None else
      Some (set_pc (csrs s sepc)
             (set_priv (if has (csrs s sstatus) SSTATUS_SPP then SupervisorMode else UserMode)
                (set_csr sstatus (sret_status (csrs s sstatus)) s)))
  | mret =>
      if decide (priv s = MachineMode) then
        Some (set_pc (csrs s mepc)
               (set_priv (mret_mode (csrs s mstatus)) (set_csr mstatus (mret_status (csrs s mstatus)) s)))
      else None
  end.

(** Straight-line code; a jump is its last instruction. *)
Fixpoint exec_code (l : list instr) (s : machine) : option machine :=
  match l with
  | [] => Some s
  | i :: l' => s' ← step i s; exec_code l' s'
  end.

(** * trampoline.S *)

Definition uservec_code : list instr :=
  [csrw sscratch a0; li a0 TRAPFRAME; sd ra 40 a0; sd sp 48 a0; sd gp 56 a0; sd tp 64 a0;
   sd t0 72 a0; sd t1 80 a0; sd t2 88 a0; sd s0 96 a0; sd s1 104 a0; sd a1 120 a0; sd a2 128 a0;
   sd a3 136 a0; sd a4 144 a0; sd a5 152 a0; sd a6 160 a0; sd a7 168 a0; sd s2 176 a0; sd s3 184 a0;
   sd s4 192 a0; sd s5 200 a0; sd s6 208 a0; sd s7 216 a0; sd s8 224 a0; sd s9 232 a0; sd s10 240 a0;
   sd s11 248 a0; sd t3 256 a0; sd t4 264 a0; sd t5 272 a0; sd t6 280 a0; csrr t0 sscratch;
   sd t0 112 a0; ld sp 8 a0; ld tp 32 a0; ld t0 16 a0; ld t1 0 a0; sfence_vma_zero; csrw satp t1;
   sfence_vma_zero; jr t0].

Definition userret_code : list instr :=
  [sfence_vma_zero; csrw satp a0; sfence_vma_zero; li a0 TRAPFRAME; ld ra 40 a0; ld sp 48 a0;
   ld gp 56 a0; ld tp 64 a0; ld t0 72 a0; ld t1 80 a0; ld t2 88 a0; ld s0 96 a0; ld s1 104 a0;
   ld a1 120 a0; ld a2 128 a0; ld a3 136 a0; ld a4 144 a0; ld a5 152 a0; ld a6 160 a0; ld a7 168 a0;
   ld s2 176 a0; ld s3 184 a0; ld s4 192 a0; ld s5 200 a0; ld s6 208 a0; ld s7 216 a0; ld s8 224 a0;
   ld s9 232 a0; ld s10 240 a0; ld s11 248 a0; ld t3 256 a0; ld t4 264 a0; ld t5 272 a0;
   ld t6 280 a0; ld a0 112 a0; sret].

(** * kernelvec.S

    kernelvec calls kerneltrap(), a C function: the code before and after the
    call; [next] is the address after the call. *)

Definition kernelvec_save (kerneltrap next : Z) : list instr :=
  [addi sp sp (-256); sd ra 0 sp; sd sp 8 sp; sd gp 16 sp; sd tp 24 sp; sd t0 32 sp; sd t1 40 sp;
   sd t2 48 sp; sd s0 56 sp; sd s1 64 sp; sd a0 72 sp; sd a1 80 sp; sd a2 88 sp; sd a3 96 sp;
   sd a4 104 sp; sd a5 112 sp; sd a6 120 sp; sd a7 128 sp; sd s2 136 sp; sd s3 144 sp; sd s4 152 sp;
   sd s5 160 sp; sd s6 168 sp; sd s7 176 sp; sd s8 184 sp; sd s9 192 sp; sd s10 200 sp;
   sd s11 208 sp; sd t3 216 sp; sd t4 224 sp; sd t5 232 sp; sd t6 240 sp; call kerneltrap next].

Definition kernelvec_restore : list instr :=
  [ld ra 0 sp; ld sp 8 sp; ld gp 16 sp; ld t0 32 sp; ld t1 40 sp; ld t2 48 sp; ld s0 56 sp;
   ld s1 64 sp; ld a0 72 sp; ld a1 80 sp; ld a2 88 sp; ld a3 96 sp; ld a4 104 sp; ld a5 112 sp;
   ld a6 120 sp; ld a7 128 sp; ld s2 136 sp; ld s3 144 sp; ld s4 152 sp; ld s5 160 sp; ld s6 168 sp;
   ld s7 176 sp; ld s8 184 sp; ld s9 192 sp; ld s10 200 sp; ld s11 208 sp; ld t3 216 sp;
   ld t4 224 sp; ld t5 232 sp; ld t6 240 sp; addi sp sp 256; sret].

Definition timervec_code : list instr :=
  [csrrw a0 mscratch a0; sd a1 0 a0; sd a2 8 a0; sd a3 16 a0; ld a1 24 a0; ld a2 32 a0; ld a3 0 a1;
   add a3 a3 a2; sd a3 0 a1; li a1 2; csrw sip a1; ld a3 16 a0; ld a2 8 a0; ld a1 0 a0;
   csrrw a0 mscratch a0; mret].

(** * swtch.S *)

Definition swtch_code : list instr :=
  [sd ra 0 a0; sd sp 8 a0; sd s0 16 a0; sd s1 24 a0; sd s2 32 a0; sd s3 40 a0; sd s4 48 a0;
   sd s5 56 a0; sd s6 64 a0; sd s7 72 a0; sd s8 80 a0; sd s9 88 a0; sd s10 96 a0; sd s11 104 a0;
   ld ra 0 a1; ld sp 8 a1; ld s0 16 a1; ld s1 24 a1; ld s2 32 a1; ld s3 40 a1; ld s4 48 a1;
   ld s5 56 a1; ld s6 64 a1; ld s7 72 a1; ld s8 80 a1; ld s9 88 a1; ld s10 96 a1; ld s11 104 a1;
   jr ra].

(** * entry.S: [stack0] and [start] are addresses, [spin] the address of the
    loop after the call. *)
Definition entry_code (stack0 start spin : Z) : list instr :=
  [la sp stack0; li a0 (1024 * 4); csrr a1 mhartid; addi a1 a1 1; mul a0 a0 a1; add sp sp a0; call start spin].
