(* ===== verification/AsmSpec.v ===== *)
(** The assembly code is transparent: a trap from user code and the return from
    it, a trap in the kernel, a timer interrupt and a pair of context switches give back
    the registers as they were. *)

From Stdlib Require Import ZArith Lia.
From stdpp Require Import base gmap list_numbers strings numbers functions list.
From S2P Require Import Prelude Mem Riscv Kernel Spinlock Kalloc Vm VmTree VmMap Printf Sched Sv39 Asm.

Open Scope Z_scope.

Implicit Types (s : machine) (r : reg) (m : mem).

(** * struct trapframe and struct context: the saved registers and their offsets *)

Definition trapframe_fields : list (reg * Z) :=
  [(ra, 40); (sp, 48); (gp, 56); (tp, 64); (t0, 72); (t1, 80); (t2, 88); (s0, 96); (s1, 104);
   (a0, 112); (a1, 120); (a2, 128); (a3, 136); (a4, 144); (a5, 152); (a6, 160); (a7, 168);
   (s2, 176); (s3, 184); (s4, 192); (s5, 200); (s6, 208); (s7, 216); (s8, 224); (s9, 232);
   (s10, 240); (s11, 248); (t3, 256); (t4, 264); (t5, 272); (t6, 280)].

Definition context_fields : list (reg * Z) :=
  [(ra, 0); (sp, 8); (s0, 16); (s1, 24); (s2, 32); (s3, 40); (s4, 48); (s5, 56); (s6, 64);
   (s7, 72); (s8, 80); (s9, 88); (s10, 96); (s11, 104)].

(** * A window of the address space

    [n] bytes at the virtual address [va] lie at the physical address [pa],
    readable and writable, whatever is written into them. *)

Definition agree_outside (pa n : Z) m m' : Prop :=
  forall a, a + 8 <= pa \/ pa + n <= a -> ld64 m' a = ld64 m a.

Definition window (p : mode) m (root va pa n : Z) : Prop :=
  forall m' d w, agree_outside pa n m m' -> 0 <= d -> d + 8 <= n ->
    physical p m' root w (u64 (va + d)) = Some (pa + d).

Lemma window_agree p m m' root va pa n :
  window p m root va pa n -> agree_outside pa n m m' -> window p m' root va pa n.
Proof. intros H Hm m2 d w H2 Hd Hn. apply H; [|done|done]. intros a Ha. by rewrite (H2 a Ha), (Hm a Ha). Qed.

Lemma window_u64 p m root va va' pa n : u64 va = u64 va' -> window p m root va pa n -> window p m root va' pa n.
Proof.
  intros E H m' d w Hm Hd Hn. rewrite <- (H m' d w Hm Hd Hn). f_equal. revert E. unfold u64. intros E.
  by rewrite <- Zplus_mod_idemp_l, <- E, Zplus_mod_idemp_l.
Qed.

(** Machine mode sees the physical memory. *)
Lemma window_machine m root a n : 0 <= a -> a + n <= 2 ^ 64 -> window MachineMode m root a a n.
Proof. intros Ha Hn m' d w _ Hd Hd'. unfold physical. rewrite u64_small by lia. done. Qed.

(** In supervisor mode: a page of a page-table tree that is mapped readable and
    writable, without U, at a page that is not one of the tree. *)
Lemma window_tree `{Layout} m root sh va pte n :
  tree_wf m root sh -> va mod 4096 = 0 -> 0 <= va < MAXVA -> 0 <= n <= 4096 ->
  pte_at m sh va = pte -> ram_page (PTE2PA pte) -> (forall ro p, sh ro = Some p -> p <> PTE2PA pte) ->
  has pte PTE_V = true -> has pte PTE_R = true -> has pte PTE_W = true -> has pte PTE_U = false ->
  window SupervisorMode m (MAKE_SATP root) va (PTE2PA pte) n.
Proof.
  intros W Hva Hv Hn Hpte Hpg Hsep HV HR HW HU m' d w Hm Hd Hdn. change MAXVA with (2 ^ 38) in Hv.
  assert (Hv' : va + 4096 <= 2 ^ 38) by (Z.div_mod_to_equations; lia).
  destruct (satp_make root (tw_page _ _ _ W _ _ (tw_root _ _ _ W))) as [Eroot E60].
  assert (Hld : forall ro p x, sh ro = Some p -> 0 <= x < 512 -> ld64 m' (p + 8 * x) = ld64 m (p + 8 * x)).
  { intros ro p x Hp Hx. apply Hm.
    pose proof (ram_page_disjoint p (PTE2PA pte) (tw_page _ _ _ W _ _ Hp) Hpg (Hsep _ _ Hp)). lia. }
  assert (W' : tree_wf m' root sh).
  { destruct W as [T1 T2 T3 T4 T5]. split; try done. intros ro p idx c Hp Hc Hi.
    specialize (T4 ro p idx c Hp Hc Hi). unfold entry_ok in *. by rewrite (Hld ro p idx Hp Hi). }
  assert (E : pte_at m' sh (va + d) = pte).
  { rewrite <- Hpte. rewrite (same_vpage_pte m sh va (va + d)); [|lia|lia|apply same_vpage_range; [done|lia]].
    unfold pte_at, pte_addr. destruct (sh (L0 _ _)) as [q|] eqn:Eq; [|done].
    apply (Hld _ _ _ Eq). apply PX_range. lia. }
  unfold physical. rewrite decide_False by done. rewrite u64_small by lia. rewrite E60, Eroot. simpl (negb _). cbv iota.
  rewrite (tree_walk m' root sh (va + d) W') by (rewrite E; try apply has_RWX; done).
  rewrite E, HU. rewrite (bool_decide_false) by done.
  replace (has pte (if w then PTE_W else PTE_R)) with true by by destruct w. simpl.
  change (4096 * 1) with 4096. f_equal. destruct Hpg as [Hal _].
  rewrite (Z.mul_comm _ 4096), <- Z_div_exact_full_2 by done. f_equal.
  change (4096 * 512 ^ Z.of_nat 0) with 4096. Z.div_mod_to_equations. lia.
Qed.

(** * Saving and restoring a list of registers *)

Definition fields_ok (n : Z) (fr : list (reg * Z)) : Prop :=
  Forall (fun f => f.1 <> zero /\ 0 <= f.2 /\ f.2 + 8 <= n /\ f.2 mod 8 = 0) fr /\
  NoDup fr.*1 /\ NoDup fr.*2.

#[global] Instance fields_ok_dec n fr : Decision (fields_ok n fr).
Proof. unfold fields_ok. apply _. Defined.

Definition saved (fr : list (reg * Z)) (f : reg -> Z) (pa : Z) m : mem :=
  foldl (fun m x => st64 m (pa + x.2) (f x.1)) m fr.

Lemma fields_ok_cons n x fr : fields_ok n (x :: fr) ->
  x.1 <> zero /\ 0 <= x.2 /\ x.2 + 8 <= n /\ x.2 mod 8 = 0 /\ x.1 ∉ fr.*1 /\ x.2 ∉ fr.*2 /\ fields_ok n fr.
Proof.
  intros ([(H1 & H2 & H3 & H4) HF]%Forall_cons & [Hr HNr]%NoDup_cons & [Ho HNo]%NoDup_cons).
  split_and!; done.
Qed.

(** Offsets of eight-byte slots are equal or apart. *)
Lemma slots_apart o o' : o mod 8 = 0 -> o' mod 8 = 0 -> o <> o' -> o + 8 <= o' \/ o' + 8 <= o.
Proof. intros H H' Hne. pose proof (Z.div_mod o 8). pose proof (Z.div_mod o' 8). lia. Qed.

Lemma saved_apart lo hi fr f pa m a :
  Forall (fun x => lo <= x.2 /\ x.2 + 8 <= hi) fr -> a + 8 <= pa + lo \/ pa + hi <= a ->
  ld64 (saved fr f pa m) a = ld64 m a.
Proof.
  revert m. induction fr as [|x fr IH]; intros m Hf Ha; [done|].
  apply Forall_cons in Hf as [[H1 H2] Hf]. simpl. rewrite (IH _ Hf Ha). apply ld64_st64_ne. lia.
Qed.

Lemma saved_outside n fr f pa m : fields_ok n fr -> agree_outside pa n m (saved fr f pa m).
Proof.
  intros [HF _] a Ha. apply (saved_apart 0 n); [|lia]. eapply Forall_impl; [exact HF|]. naive_solver.
Qed.

Lemma saved_other n fr f pa m o : fields_ok n fr -> o mod 8 = 0 -> o ∉ fr.*2 ->
  ld64 (saved fr f pa m) (pa + o) = ld64 m (pa + o).
Proof.
  revert m. induction fr as [|x fr IH]; intros m Hf Ho Hin; [done|].
  apply fields_ok_cons in Hf as (_ & _ & _ & H3 & _ & _ & Hf). apply not_elem_of_cons in Hin as [Hne Hin].
  simpl. rewrite (IH _ Hf Ho Hin). apply ld64_st64_ne. destruct (slots_apart o x.2 Ho H3 Hne); lia.
Qed.

Lemma saved_lookup n fr f pa m r o : fields_ok n fr -> (r, o) ∈ fr -> 0 <= f r < 2 ^ 64 ->
  ld64 (saved fr f pa m) (pa + o) = f r.
Proof.
  revert m. induction fr as [|x fr IH]; intros m Hf Hin Hr; [by apply not_elem_of_nil in Hin|].
  apply fields_ok_cons in Hf as (_ & _ & _ & H3 & _ & Ho & Hf). simpl.
  apply elem_of_cons in Hin as [<-|Hin]; [|by apply IH].
  rewrite (saved_other n _ _ _ _ _ Hf H3 Ho). by apply ld64_st64_eq.
Qed.

Lemma exec_app l l' s : exec_code (l ++ l') s = (s' ← exec_code l s; exec_code l' s').
Proof. revert s. induction l as [|i l IH]; intros s; [done|]. simpl. destruct (step i s); [apply IH|done]. Qed.

Definition saves (rb : reg) (fr : list (reg * Z)) : list instr := (fun x => sd x.1 x.2 rb) <$> fr.
Definition loads (rb : reg) (fr : list (reg * Z)) : list instr := (fun x => ld x.1 x.2 rb) <$> fr.

Lemma exec_saves rb fr : forall s n pa,
  window (priv s) (memory s) (csrs s satp) (get_reg rb s) pa n -> fields_ok n fr ->
  exec_code (saves rb fr) s = Some (set_memory (saved fr (regs s) pa (memory s)) s).
Proof.
  induction fr as [|x fr IH]; intros s n pa HW Hf; [by destruct s|].
  apply fields_ok_cons in Hf as (Hz & H1 & H2 & H3 & _ & _ & Hf). simpl.
  rewrite (HW (memory s)) by (done || lia). simpl.
  unfold get_reg at 1. rewrite decide_False by done.
  rewrite (IH (set_memory _ s) n pa); [done| |done].
  simpl. eapply window_agree; [exact HW|]. intros a Ha. apply ld64_st64_ne. lia.
Qed.

(** The registers after loading [fr] from [pa]. *)
Definition restored (fr : list (reg * Z)) (pa : Z) m (f : reg -> Z) : reg -> Z :=
  foldl (fun f x => <[x.1 := ld64 m (pa + x.2)]> f) f fr.

Definition set_regs (f : reg -> Z) s : machine := mkMachine f (csrs s) (memory s) (pc s) (priv s).

Lemma exec_loads rb fr : forall s n pa,
  window (priv s) (memory s) (csrs s satp) (get_reg rb s) pa n -> fields_ok n fr -> rb ∉ fr.*1 ->
  exec_code (loads rb fr) s = Some (set_regs (restored fr pa (memory s) (regs s)) s).
Proof.
  induction fr as [|x fr IH]; intros s n pa HW Hf Hrb; [by destruct s|].
  apply fields_ok_cons in Hf as (Hz & H1 & H2 & H3 & _ & _ & Hf). apply not_elem_of_cons in Hrb as [Hne Hrb].
  simpl. rewrite (HW (memory s)) by (done || lia). simpl.
  rewrite (IH _ n pa); [|simpl|done|done].
  - unfold set_reg. simpl. by rewrite decide_False.
  - unfold get_reg in *. simpl. rewrite (decide_False (P := x.1 = zero)) by done. rewrite fn_lookup_insert_ne by done. done.
Qed.

Lemma restored_other fr pa m f r : r ∉ fr.*1 -> restored fr pa m f r = f r.
Proof.
  revert f. induction fr as [|x fr IH]; intros f Hr; [done|]. apply not_elem_of_cons in Hr as [Hne Hr].
  simpl. rewrite (IH _ Hr). by apply fn_lookup_insert_ne.
Qed.

Lemma restored_lookup n fr pa m f r o :
  fields_ok n fr -> (r, o) ∈ fr -> restored fr pa m f r = ld64 m (pa + o).
Proof.
  revert f. induction fr as [|x fr IH]; intros f Hf Hin; [by apply not_elem_of_nil in Hin|].
  apply fields_ok_cons in Hf as (_ & _ & _ & _ & Hr & _ & Hf). simpl.
  apply elem_of_cons in Hin as [<-|Hin]; [|by apply IH].
  rewrite restored_other by done. apply fn_lookup_insert.
Qed.

(** * trampoline.S *)

(** The registers but a0, which uservec saves through sscratch. *)
Definition user_fields : list (reg * Z) := filter (fun f => f.1 <> a0) trapframe_fields.

Lemma trapframe_fields_ok : fields_ok 288 trapframe_fields.
Proof. decided. Qed.

Lemma user_fields_ok : fields_ok 288 user_fields.
Proof. decided. Qed.

Lemma trapframe_a0 : Forall (fun f => f.1 <> a0 \/ f.2 = 112) trapframe_fields.
Proof. decided. Qed.

Lemma trapframe_field_cases r o : (r, o) ∈ trapframe_fields -> (r, o) ∈ user_fields \/ r = a0 /\ o = 112.
Proof.
  intros H. pose proof (proj1 (Forall_forall _ _) trapframe_a0 _ H) as [Hne|E]; simpl in *.
  - left. by apply list_elem_of_filter.
  - destruct (decide (r = a0)); [by right|]. left. by apply list_elem_of_filter.
Qed.

(** The field of a register. *)
Definition field_of (fr : list (reg * Z)) r : Z := default 0 (snd ∘ snd <$> list_find (fun f => f.1 = r) fr).

(** Every register but zero has its field. *)
Lemma trapframe_complete r : r <> zero -> (r, field_of trapframe_fields r) ∈ trapframe_fields.
Proof. intros H. destruct r; try done; decided. Qed.

Lemma user_fields_slot r o : (r, o) ∈ user_fields -> o <> 112 /\ o mod 8 = 0 /\ r <> a0.
Proof.
  intros H. assert (HF : Forall (fun f => f.2 <> 112 /\ f.2 mod 8 = 0 /\ f.1 <> a0) user_fields) by decided.
  exact (proj1 (Forall_forall _ _) HF _ H).
Qed.

Definition in_range s : Prop := forall r, 0 <= regs s r < 2 ^ 64.

(** A register, a control register or the memory after an update. *)
Lemma get_set_reg r v s : r <> zero -> get_reg r (set_reg r v s) = v.
Proof. intros H. unfold get_reg, set_reg. simpl. rewrite !decide_False by done. apply fn_lookup_insert. Qed.

Lemma get_set_reg_ne r r' v s : r <> r' -> get_reg r (set_reg r' v s) = get_reg r s.
Proof. intros H. unfold get_reg, set_reg. simpl. repeat case_decide; try done. by apply fn_lookup_insert_ne. Qed.

Lemma exec_step i l s s' : step i s = Some s' -> exec_code (i :: l) s = exec_code l s'.
Proof. intros E. simpl. by rewrite E. Qed.

Section Access.
Context (s : machine) (r : reg) (o : Z) (rb : reg) (m : mem) (root va pa n : Z).
Context (HW : window (priv s) m root va pa n) (HA : agree_outside pa n m (memory s)).
Context (Hroot : csrs s satp = root) (Hrb : get_reg rb s = va) (Ho : 0 <= o) (Hn : o + 8 <= n).

Lemma step_sd : step (sd r o rb) s = Some (set_memory (st64 (memory s) (pa + o) (get_reg r s)) s).
Proof. unfold step. by rewrite Hroot, Hrb, (HW _ o true HA Ho Hn). Qed.

Lemma step_ld : step (ld r o rb) s = Some (set_reg r (ld64 (memory s) (pa + o)) s).
Proof. unfold step. by rewrite Hroot, Hrb, (HW _ o false HA Ho Hn). Qed.
End Access.

(** Run one load or store through the window [HW]; [HA]: the memory agrees outside it. *)
Ltac ld_step HW HA :=
  match goal with |- context [exec_code (ld ?r ?o ?rb :: _) ?s] =>
    rewrite (exec_step _ _ _ _ (step_ld s r o rb _ _ _ _ _ HW HA eq_refl eq_refl ltac:(lia) ltac:(lia)))
  end.
Ltac sd_step HW HA :=
  match goal with |- context [exec_code (sd ?r ?o ?rb :: _) ?s] =>
    rewrite (exec_step _ _ _ _ (step_sd s r o rb _ _ _ _ _ HW HA eq_refl eq_refl ltac:(lia) ltac:(lia)))
  end.

Lemma uservec_run s tf :
  priv s = SupervisorMode -> in_range s ->
  window SupervisorMode (memory s) (csrs s satp) TRAPFRAME tf 288 ->
  exists s', exec_code uservec_code s = Some s' /\
    (forall r o, (r, o) ∈ trapframe_fields -> ld64 (memory s') (tf + o) = regs s r) /\
    agree_outside (tf + 40) 248 (memory s) (memory s') /\
    get_reg sp s' = ld64 (memory s) (tf + 8) /\ get_reg tp s' = ld64 (memory s) (tf + 32) /\
    csrs s' satp = ld64 (memory s) (tf + 0) /\ pc s' = ld64 (memory s) (tf + 16) /\ priv s' = SupervisorMode /\
    (forall c, c <> satp -> c <> sscratch -> csrs s' c = csrs s c).
Proof.
  intros Hp Hr HW. rewrite <- Hp in HW.
  set (sA := set_reg a0 TRAPFRAME (set_csr sscratch (regs s a0) s)).
  assert (EA : exec_code [csrw sscratch a0; li a0 TRAPFRAME] s = Some sA).
  { simpl. rewrite Hp. simpl. done. }
  set (m1 := saved user_fields (regs sA) tf (memory s)).
  set (sB := set_reg t0 (regs s a0) (set_memory m1 sA)).
  set (m2 := st64 m1 (tf + 112) (regs s a0)).
  assert (HA1 : agree_outside tf 288 (memory s) m1) by apply saved_outside, user_fields_ok.
  assert (HA2 : agree_outside tf 288 (memory s) m2).
  { intros a Ha. rewrite <- (HA1 a Ha). apply ld64_st64_ne. lia. }
  assert (Hlow : forall o, o mod 8 = 0 -> o < 40 -> ld64 m2 (tf + o) = ld64 (memory s) (tf + o)).
  { intros o Ho Hlt. unfold m2. rewrite ld64_st64_ne by lia.
    apply (saved_other 288); [apply user_fields_ok|done|]. 
    intros Hin. assert (HF : Forall (fun o => 40 <= o) user_fields.*2) by decided.
    pose proof (proj1 (Forall_forall _ _) HF _ Hin). simpl in *. lia. }
  assert (EB : exec_code (saves a0 user_fields ++ [csrr t0 sscratch; sd t0 112 a0]) sA = Some (set_memory m2 sB)).
  { rewrite exec_app, (exec_saves a0 user_fields sA 288 tf); [|exact HW|apply user_fields_ok].
    cbn [mbind option_bind]. fold m1.
    rewrite (exec_step _ _ _ sB) by (simpl; by rewrite Hp).
    sd_step HW HA1. done. }
  set (sC := set_reg t1 (ld64 m2 (tf + 0)) (set_reg t0 (ld64 m2 (tf + 16))
               (set_reg tp (ld64 m2 (tf + 32)) (set_reg sp (ld64 m2 (tf + 8)) (set_memory m2 sB))))).
  assert (EC : exec_code [ld sp 8 a0; ld tp 32 a0; ld t0 16 a0; ld t1 0 a0] (set_memory m2 sB) = Some sC).
  { repeat ld_step HW HA2. done. }
  assert (ED : exec_code [sfence_vma_zero; csrw satp t1; sfence_vma_zero; jr t0] sC
               = Some (set_pc (ld64 m2 (tf + 16)) (set_csr satp (ld64 m2 (tf + 0)) sC))).
  { simpl. rewrite Hp. done. }
  eexists. split.
  - change uservec_code with ([csrw sscratch a0; li a0 TRAPFRAME] ++
      ((saves a0 user_fields ++ [csrr t0 sscratch; sd t0 112 a0]) ++
       ([ld sp 8 a0; ld tp 32 a0; ld t0 16 a0; ld t1 0 a0] ++ [sfence_vma_zero; csrw satp t1; sfence_vma_zero; jr t0]))).
    rewrite exec_app, EA. cbn [mbind option_bind]. rewrite exec_app, EB. cbn [mbind option_bind].
    rewrite exec_app, EC. cbn [mbind option_bind]. exact ED.
  - split_and!.
    + intros r o Hin. change (ld64 m2 (tf + o) = regs s r). unfold m2.
      destruct (trapframe_field_cases r o Hin) as [Hu|[-> ->]]; [|apply ld64_st64_eq, Hr].
      pose proof (user_fields_slot r o Hu) as (Hne & Ho & Hr0).
      rewrite ld64_st64_ne by (destruct (slots_apart o 112 Ho eq_refl Hne); lia).
      unfold m1. rewrite (saved_lookup 288 _ _ _ _ r o user_fields_ok Hu); unfold sA; simpl;
        rewrite fn_lookup_insert_ne by done; [done|apply Hr].
    + intros a Ha. change (ld64 m2 a = ld64 (memory s) a). unfold m2, m1. rewrite ld64_st64_ne by lia.
      apply (saved_apart 40 288); [decided|lia].
    + by rewrite <- (Hlow 8).
    + by rewrite <- (Hlow 32).
    + by rewrite <- (Hlow 0).
    + by rewrite <- (Hlow 16).
    + done.
    + intros c H1 H2. change (<[satp := ld64 m2 (tf + 0)]> (<[sscratch := regs s a0]> (csrs s)) c = csrs s c).
      by rewrite !fn_lookup_insert_ne.
Qed.

Lemma userret_run s tf root :
  priv s = SupervisorMode -> get_reg a0 s = root ->
  window SupervisorMode (memory s) root TRAPFRAME tf 288 ->
  exists s', exec_code userret_code s = Some s' /\
    (forall r o, (r, o) ∈ trapframe_fields -> regs s' r = ld64 (memory s) (tf + o)) /\
    memory s' = memory s /\ csrs s' satp = root /\ pc s' = csrs s sepc /\
    priv s' = (if has (csrs s sstatus) SSTATUS_SPP then SupervisorMode else UserMode).
Proof.
  intros Hp Ha HW. rewrite <- Hp in HW.
  set (sA := set_reg a0 TRAPFRAME (set_csr satp root s)).
  assert (EA : exec_code [sfence_vma_zero; csrw satp a0; sfence_vma_zero; li a0 TRAPFRAME] s = Some sA).
  { simpl. rewrite Hp, Ha. done. }
  set (sB := set_regs (restored user_fields tf (memory s) (regs sA)) sA).
  assert (EB : exec_code (loads a0 user_fields) sA = Some sB).
  { apply (exec_loads a0 user_fields sA 288 tf); [exact HW|apply user_fields_ok|].
    apply (bool_decide_unpack _). by vm_compute. }
  assert (Ha0 : get_reg a0 sB = TRAPFRAME).
  { change (restored user_fields tf (memory s) (regs sA) a0 = TRAPFRAME). rewrite restored_other; [done|].
    apply (bool_decide_unpack _). by vm_compute. }
  eexists. split.
  - change userret_code with ([sfence_vma_zero; csrw satp a0; sfence_vma_zero; li a0 TRAPFRAME] ++
      (loads a0 user_fields ++ [ld a0 112 a0; sret])).
    rewrite exec_app, EA. cbn [mbind option_bind]. rewrite exec_app, EB. cbn [mbind option_bind].
    rewrite (exec_step _ _ _ _ (step_ld sB a0 112 a0 _ _ _ tf 288 HW (fun _ _ => eq_refl) eq_refl Ha0 ltac:(lia) ltac:(lia))).
    simpl. rewrite Hp. simpl. reflexivity.
  - split_and!; [|done|done|done|done]. intros r o Hin. simpl.
    destruct (trapframe_field_cases r o Hin) as [Hu|[-> ->]]; [|apply fn_lookup_insert].
    pose proof (user_fields_slot r o Hu) as (_ & _ & Hne). rewrite fn_lookup_insert_ne by done.
    exact (restored_lookup 288 user_fields tf (memory s) (regs sA) r o user_fields_ok Hu).
Qed.

(** C13. A trap from user code is transparent.  uservec, entered with the user page
    table in satp, saves every register in the process's trap frame, writes no
    other memory, and jumps to the kernel_trap of the frame on the kernel
    stack, with the hart number in tp and the kernel page table in satp.  When
    the kernel later calls userret with the same page table, and the frame is
    as uservec left it, every register of the user program has its old
    value, and the program goes on at sepc in user mode. *)
Theorem user_trap_roundtrip s tf :
  priv s = SupervisorMode -> in_range s ->
  window SupervisorMode (memory s) (csrs s satp) TRAPFRAME tf 288 ->
  exists s1, exec_code uservec_code s = Some s1 /\
    agree_outside (tf + 40) 248 (memory s) (memory s1) /\
    get_reg sp s1 = ld64 (memory s) (tf + 8) /\ get_reg tp s1 = ld64 (memory s) (tf + 32) /\
    csrs s1 satp = ld64 (memory s) tf /\ pc s1 = ld64 (memory s) (tf + 16) /\ priv s1 = SupervisorMode /\
    (forall c, c <> satp -> c <> sscratch -> csrs s1 c = csrs s c) /\
    forall s2,
      priv s2 = SupervisorMode -> get_reg a0 s2 = csrs s satp -> has (csrs s2 sstatus) SSTATUS_SPP = false ->
      window SupervisorMode (memory s2) (csrs s satp) TRAPFRAME tf 288 ->
      (forall r o, (r, o) ∈ trapframe_fields -> ld64 (memory s2) (tf + o) = ld64 (memory s1) (tf + o)) ->
      exists s3, exec_code userret_code s2 = Some s3 /\
        (forall r, r <> zero -> regs s3 r = regs s r) /\
        memory s3 = memory s2 /\ csrs s3 satp = csrs s satp /\ pc s3 = csrs s2 sepc /\ priv s3 = UserMode.
Proof.
  intros Hp Hr HW. destruct (uservec_run s tf Hp Hr HW) as (s1 & E & Hf & HA & H1 & H2 & H3 & H4 & H5 & H6).
  rewrite Z.add_0_r in H3. exists s1. split_and!; try done.
  intros s2 Hp2 Ha2 Hspp HW2 Hsame. destruct (userret_run s2 tf _ Hp2 Ha2 HW2) as (s3 & E3 & Hr3 & Hm & Hs & Hpc & Hpr).
  exists s3. split_and!; try done; [|by rewrite Hpr, Hspp].
  intros r Hz. pose proof (trapframe_complete r Hz) as Hin. rewrite (Hr3 _ _ Hin), (Hsame _ _ Hin). by apply Hf.
Qed.

(** * kernelvec.S: traps in the kernel *)

Definition kernel_fields : list (reg * Z) :=
  [(ra, 0); (sp, 8); (gp, 16); (tp, 24); (t0, 32); (t1, 40); (t2, 48); (s0, 56); (s1, 64);
   (a0, 72); (a1, 80); (a2, 88); (a3, 96); (a4, 104); (a5, 112); (a6, 120); (a7, 128);
   (s2, 136); (s3, 144); (s4, 152); (s5, 160); (s6, 168); (s7, 176); (s8, 184); (s9, 192);
   (s10, 200); (s11, 208); (t3, 216); (t4, 224); (t5, 232); (t6, 240)].

(** What is loaded after sp. *)
Definition kernel_rest : list (reg * Z) := filter (fun f => f.1 <> tp) (drop 2 kernel_fields).

Lemma kernel_fields_ok : fields_ok 256 kernel_fields.
Proof. decided. Qed.
Lemma kernel_rest_ok : fields_ok 256 kernel_rest.
Proof. decided. Qed.

Lemma kernel_fields_slot r o : (r, o) ∈ kernel_fields -> 0 <= o /\ o + 8 <= 256.
Proof.
  intros H. pose proof (proj1 (Forall_forall _ _) (proj1 kernel_fields_ok) _ H) as (_ & H1 & H2 & _). done.
Qed.

(** The registers that kernelvec gives back: all but tp, which names the CPU. *)
Lemma kernel_fields_cases r : r <> zero -> r <> tp ->
  r = ra \/ r = sp \/ (r, field_of kernel_fields r) ∈ kernel_rest.
Proof. intros Hz Ht. destruct r; try done; try (by left); try (by right; left); right; right; decided. Qed.

Lemma kernel_rest_fields r o : (r, o) ∈ kernel_rest -> (r, o) ∈ kernel_fields.
Proof.
  intros [_ H]%list_elem_of_filter. rewrite <- (take_drop 2 kernel_fields). apply elem_of_app. by right.
Qed.

Lemma kernelvec_restore_run s fp pa :
  get_reg sp s = fp -> priv s <> UserMode -> 0 <= fp -> fp + 256 < 2 ^ 64 ->
  window (priv s) (memory s) (csrs s satp) fp pa 256 -> ld64 (memory s) (pa + 8) = fp ->
  exists s', exec_code kernelvec_restore s = Some s' /\
    regs s' ra = ld64 (memory s) (pa + 0) /\ regs s' sp = fp + 256 /\ regs s' tp = regs s tp /\
    (forall r o, (r, o) ∈ kernel_rest -> regs s' r = ld64 (memory s) (pa + o)) /\
    memory s' = memory s /\ pc s' = csrs s sepc /\
    priv s' = (if has (csrs s sstatus) SSTATUS_SPP then SupervisorMode else UserMode).
Proof.
  intros Hsp Hp Hfp Hfp' HW Hsaved.
  set (sA := set_reg sp fp (set_reg ra (ld64 (memory s) (pa + 0)) s)).
  assert (EA : exec_code [ld ra 0 sp; ld sp 8 sp] s = Some sA).
  { rewrite (exec_step _ _ _ _ (step_ld s ra 0 sp _ _ _ pa 256 HW (fun _ _ => eq_refl) eq_refl Hsp ltac:(lia) ltac:(lia))).
    rewrite (exec_step _ _ _ _ (step_ld (set_reg ra (ld64 (memory s) (pa + 0)) s) sp 8 sp _ _ _ pa 256
      HW (fun _ _ => eq_refl) eq_refl Hsp ltac:(lia) ltac:(lia))).
    simpl. by rewrite Hsaved. }
  set (rB := restored kernel_rest pa (memory s) (regs sA)).
  assert (EB : exec_code (loads sp kernel_rest) sA = Some (set_regs rB sA)).
  { apply (exec_loads sp kernel_rest sA 256 pa); [exact HW|apply kernel_rest_ok|decided]. }
  assert (HsB : rB sp = fp) by done.
  set (sC := set_reg sp (fp + 256) (set_regs rB sA)).
  exists (set_pc (csrs s sepc) (set_priv (if has (csrs s sstatus) SSTATUS_SPP then SupervisorMode else UserMode)
           (set_csr sstatus (sret_status (csrs s sstatus)) sC))).
  assert (HC : forall r, regs sC r = <[sp := fp + 256]> rB r) by done.
  split.
  - change kernelvec_restore with ([ld ra 0 sp; ld sp 8 sp] ++ (loads sp kernel_rest ++ [addi sp sp 256; sret])).
    rewrite exec_app, EA. cbn [mbind option_bind]. rewrite exec_app, EB. cbn [mbind option_bind].
    rewrite (exec_step _ _ _ sC).
    2: { unfold step. change (get_reg sp (set_regs rB sA)) with (rB sp). by rewrite HsB, u64_small by lia. }
    unfold exec_code, step. change (priv sC) with (priv s). by rewrite decide_False.
  - split_and!; try done. intros r o Hin. assert (Hne : sp <> r).
    { intros <-. apply (list_elem_of_fmap_2 fst) in Hin. revert Hin. change (sp ∉ kernel_rest.*1). decided. }
    change (regs sC r = ld64 (memory s) (pa + o)). rewrite HC, fn_lookup_insert_ne by done.
    exact (restored_lookup 256 kernel_rest pa (memory s) (regs sA) r o kernel_rest_ok Hin).
Qed.

(** C14. A trap in the kernel is transparent.  kernelvec pushes a frame of 256
    bytes, writes nothing outside it and calls kerneltrap().  When that
    returns with the stack pointer it was called with and with the frame
    intact, possibly on another CPU, every register but tp has the value it had
    before the trap, and execution goes on at sepc. *)
Theorem kernelvec_transparent s kerneltrap next pa :
  priv s = SupervisorMode -> in_range s -> 256 <= regs s sp ->
  window SupervisorMode (memory s) (csrs s satp) (regs s sp - 256) pa 256 ->
  exists s1, exec_code (kernelvec_save kerneltrap next) s = Some s1 /\
    pc s1 = kerneltrap /\ get_reg ra s1 = next /\ get_reg sp s1 = regs s sp - 256 /\
    agree_outside pa 256 (memory s) (memory s1) /\ csrs s1 = csrs s /\ priv s1 = priv s /\
    forall s2,
      priv s2 = SupervisorMode -> get_reg sp s2 = get_reg sp s1 ->
      window SupervisorMode (memory s2) (csrs s2 satp) (regs s sp - 256) pa 256 ->
      (forall o, 0 <= o -> o + 8 <= 256 -> ld64 (memory s2) (pa + o) = ld64 (memory s1) (pa + o)) ->
      exists s3, exec_code kernelvec_restore s2 = Some s3 /\
        (forall r, r <> zero -> r <> tp -> regs s3 r = regs s r) /\ regs s3 tp = regs s2 tp /\
        memory s3 = memory s2 /\ pc s3 = csrs s2 sepc /\
        priv s3 = (if has (csrs s2 sstatus) SSTATUS_SPP then SupervisorMode else UserMode).
Proof.
  intros Hp Hr Hsp HW. rewrite <- Hp in HW. set (fp := regs s sp - 256) in *.
  assert (Hfp : u64 (regs s sp + -256) = fp) by (unfold fp; rewrite u64_small; [lia|]; pose proof (Hr sp); lia).
  set (sA := set_reg sp fp s). set (m1 := saved kernel_fields (regs sA) pa (memory s)).
  exists (set_pc kerneltrap (set_reg ra next (set_memory m1 sA))). split.
  - change (kernelvec_save kerneltrap next) with (addi sp sp (-256) :: saves sp kernel_fields ++ [call kerneltrap next]).
    rewrite (exec_step _ _ _ sA) by (simpl; unfold get_reg; simpl; by rewrite Hfp).
    rewrite exec_app, (exec_saves sp kernel_fields sA 256 pa); [done|exact HW|apply kernel_fields_ok].
  - split_and!; [done|done|done|apply saved_outside, kernel_fields_ok|done|done|].
    intros s2 Hp2 Hsp2 HW2 Hsame. change (get_reg sp s2 = fp) in Hsp2. rewrite <- Hp2 in HW2.
    assert (Hm1 : forall r o, (r, o) ∈ kernel_fields -> ld64 (memory s2) (pa + o) = regs sA r).
    { intros r o Hin. pose proof (kernel_fields_slot r o Hin) as (Ho & Ho'). rewrite Hsame by done.
      apply (saved_lookup 256 kernel_fields (regs sA) pa (memory s) r o kernel_fields_ok Hin).
      unfold sA, set_reg. simpl. unfold insert, fn_insert. case_decide; [pose proof (Hr sp); unfold fp; lia|apply Hr]. }
    assert (HA : forall r, r <> sp -> regs sA r = regs s r) by (intros r Hne; by apply fn_lookup_insert_ne).
    pose proof (Hr sp) as Hrsp.
    destruct (kernelvec_restore_run s2 fp pa Hsp2) as (s3 & E3 & Hra & Hsp3 & Htp & Hrest & Hm3 & Hpc & Hpr);
      [by rewrite Hp2|unfold fp; lia|unfold fp; lia|exact HW2|exact (Hm1 sp 8 ltac:(decided))|].
    exists s3. split_and!; try done.
    intros r Hz Ht. destruct (kernel_fields_cases r Hz Ht) as [->|[->|Hin]].
    + rewrite Hra, (Hm1 ra 0 ltac:(decided)). by apply HA.
    + rewrite Hsp3. unfold fp. lia.
    + rewrite (Hrest _ _ Hin), (Hm1 _ _ (kernel_rest_fields _ _ Hin)). apply HA. intros ->.
      revert Hin. change ((sp, 8) ∉ kernel_rest). decided.
Qed.

(** * swtch.S: context switches *)

Lemma context_fields_ok : fields_ok 112 context_fields.
Proof. decided. Qed.

Definition disjoint_from (po pn n : Z) : Prop := po + n <= pn \/ pn + n <= po.

Lemma swtch_run s po pn :
  in_range s ->
  window (priv s) (memory s) (csrs s satp) (get_reg a0 s) po 112 ->
  (forall m', agree_outside po 112 (memory s) m' -> window (priv s) m' (csrs s satp) (get_reg a1 s) pn 112) ->
  disjoint_from po pn 112 ->
  exists s', exec_code swtch_code s = Some s' /\
    (forall r o, (r, o) ∈ context_fields ->
       ld64 (memory s') (po + o) = regs s r /\ regs s' r = ld64 (memory s) (pn + o)) /\
    (forall r, r ∉ context_fields.*1 -> regs s' r = regs s r) /\
    pc s' = ld64 (memory s) (pn + 0) /\ agree_outside po 112 (memory s) (memory s') /\
    csrs s' = csrs s /\ priv s' = priv s.
Proof.
  intros Hr HWo HWn Hd. set (m1 := saved context_fields (regs s) po (memory s)).
  assert (HA : agree_outside po 112 (memory s) m1) by apply saved_outside, context_fields_ok.
  set (f := restored context_fields pn m1 (regs s)).
  exists (set_pc (f ra) (set_regs f (set_memory m1 s))). split.
  - change swtch_code with (saves a0 context_fields ++ (loads a1 context_fields ++ [jr ra])).
    rewrite exec_app, (exec_saves a0 _ s 112 po HWo context_fields_ok). cbn [mbind option_bind]. fold m1.
    rewrite exec_app, (exec_loads a1 _ (set_memory m1 s) 112 pn (HWn m1 HA) context_fields_ok) by decided. done.
  - assert (Hf : forall r o, (r, o) ∈ context_fields -> f r = ld64 (memory s) (pn + o)).
    { intros r o Hin. unfold f. rewrite (restored_lookup 112 _ _ _ _ r o context_fields_ok Hin).
      pose proof (proj1 (Forall_forall _ _) (proj1 context_fields_ok) _ Hin) as (_ & H1 & H2 & _). simpl in H1, H2.
      apply HA. unfold disjoint_from in Hd. lia. }
    split_and!; try done.
    + intros r o Hin. split; [|by apply Hf]. exact (saved_lookup 112 _ _ _ _ r o context_fields_ok Hin (Hr r)).
    + intros r Hin. by apply restored_other.
    + apply (Hf ra 0). decided.
Qed.

(** C15. swtch(old, new) is a coroutine switch.  It saves ra, sp and s0 to s11 in
    [old], takes them from [new], and returns to the ra of [new]; it writes nothing else
    and keeps every other register.  A later swtch(old2, old), on any CPU, with
    the context in [old] intact, returns to where the first call was made, with
    sp and s0 to s11 as they were there. *)
Theorem swtch_coroutine s po pn :
  in_range s ->
  window (priv s) (memory s) (csrs s satp) (get_reg a0 s) po 112 ->
  (forall m', agree_outside po 112 (memory s) m' -> window (priv s) m' (csrs s satp) (get_reg a1 s) pn 112) ->
  disjoint_from po pn 112 ->
  exists s1, exec_code swtch_code s = Some s1 /\
    (forall r o, (r, o) ∈ context_fields -> regs s1 r = ld64 (memory s) (pn + o)) /\
    (forall r, r ∉ context_fields.*1 -> regs s1 r = regs s r) /\
    pc s1 = ld64 (memory s) pn /\ agree_outside po 112 (memory s) (memory s1) /\
    csrs s1 = csrs s /\ priv s1 = priv s /\
    forall s2 po2,
      in_range s2 ->
      window (priv s2) (memory s2) (csrs s2 satp) (get_reg a0 s2) po2 112 ->
      (forall m', agree_outside po2 112 (memory s2) m' -> window (priv s2) m' (csrs s2 satp) (get_reg a1 s2) po 112) ->
      disjoint_from po2 po 112 ->
      (forall o, 0 <= o -> o + 8 <= 112 -> ld64 (memory s2) (po + o) = ld64 (memory s1) (po + o)) ->
      exists s3, exec_code swtch_code s2 = Some s3 /\ pc s3 = regs s ra /\
        forall r, r ∈ context_fields.*1 -> regs s3 r = regs s r.
Proof.
  intros Hr HWo HWn Hd. destruct (swtch_run s po pn Hr HWo HWn Hd) as (s1 & E & Hf & Ho & Hpc & HA & Hcs & Hpv).
  rewrite Z.add_0_r in Hpc. exists s1. split_and!; try done; [by intros r o Hin; apply Hf|].
  intros s2 po2 Hr2 HWo2 HWn2 Hd2 Hsame.
  destruct (swtch_run s2 po2 po Hr2 HWo2 HWn2 Hd2) as (s3 & E3 & Hf3 & _ & Hpc3 & _). exists s3.
  split; [done|]. split; [rewrite Hpc3, Hsame by lia; apply Hf; decided|].
  intros r ([r' o] & Er & Hin)%list_elem_of_fmap. simpl in Er. subst r'. destruct (Hf3 _ _ Hin) as [_ ->].
  pose proof (proj1 (Forall_forall _ _) (proj1 context_fields_ok) _ Hin) as (_ & H1 & H2 & _).
  rewrite Hsame by done. by apply Hf.
Qed.

(** * Machine mode: timervec and _entry *)

Section MachineAccess.
Context (s : machine) (r : reg) (o : Z) (rb : reg) (b : Z).
Context (Hp : priv s = MachineMode) (Hb : get_reg rb s = b) (Hbo : 0 <= b + o < 2 ^ 64).

Lemma step_sd_m : step (sd r o rb) s = Some (set_memory (st64 (memory s) (b + o) (get_reg r s)) s).
Proof. unfold step, physical. by rewrite Hp, Hb, decide_True, u64_small. Qed.

Lemma step_ld_m : step (ld r o rb) s = Some (set_reg r (ld64 (memory s) (b + o)) s).
Proof. unfold step, physical. by rewrite Hp, Hb, decide_True, u64_small. Qed.
End MachineAccess.

(** Run a load or store of machine mode whose base register holds [b]. *)
Ltac machine_step Hp b :=
  match goal with
  | |- context [exec_code (ld ?r ?o ?rb :: _) ?s] =>
      rewrite (exec_step _ _ _ _ (step_ld_m s r o rb b Hp eq_refl ltac:(lia)))
  | |- context [exec_code (sd ?r ?o ?rb :: _) ?s] =>
      rewrite (exec_step _ _ _ _ (step_sd_m s r o rb b Hp eq_refl ltac:(lia)))
  end.

(** A timer interrupt is transparent.  timervec, entered in machine mode with the
    scratch area that start() set up, adds the interval to the hart's
    mtimecmp, raises the supervisor's software interrupt, and returns by mret with every
    register as it was; it writes only the three save slots and mtimecmp. *)
Lemma timervec_run s sc cmp :
  priv s = MachineMode -> in_range s -> csrs s mscratch = sc -> 0 <= sc -> sc + 40 <= 2 ^ 64 ->
  ld64 (memory s) (sc + 24) = cmp -> cmp + 8 <= 2 ^ 64 -> cmp + 8 <= sc \/ sc + 40 <= cmp ->
  exists s', exec_code timervec_code s = Some s' /\
    (forall r, r <> zero -> regs s' r = regs s r) /\
    ld64 (memory s') cmp = u64 (ld64 (memory s) cmp + ld64 (memory s) (sc + 32)) /\
    (forall a, a + 8 <= sc \/ sc + 24 <= a -> a + 8 <= cmp \/ cmp + 8 <= a -> ld64 (memory s') a = ld64 (memory s) a) /\
    has (csrs s' sip) 2 = true /\ csrs s' mscratch = sc /\
    pc s' = csrs s mepc /\ priv s' = mret_mode (csrs s mstatus).
Proof.
  intros Hp Hr Hsc Hsc0 Hsc1 Ecmp Hc Hd. pose proof (ld64_range (memory s) (sc + 24)) as Hcmp. rewrite Ecmp in Hcmp.
  set (m1 := st64 (st64 (st64 (memory s) (sc + 0) (regs s a1)) (sc + 8) (regs s a2)) (sc + 16) (regs s a3)).
  set (v := u64 (ld64 m1 (cmp + 0) + ld64 m1 (sc + 32))). set (m2 := st64 m1 (cmp + 0) v).
  assert (E24 : ld64 m1 (sc + 24) = cmp) by (unfold m1; by rewrite !ld64_st64_ne by lia).
  set (sA := set_memory m1 (set_reg a0 sc (set_csr mscratch (regs s a0) s))).
  assert (EA : exec_code [csrrw a0 mscratch a0; sd a1 0 a0; sd a2 8 a0; sd a3 16 a0] s = Some sA).
  { rewrite (exec_step _ _ _ (set_reg a0 sc (set_csr mscratch (regs s a0) s)))
      by (unfold step; rewrite Hp; simpl; by rewrite Hsc).
    do 3 machine_step Hp sc. done. }
  set (sB := set_memory m2 (set_reg a3 v (set_reg a3 (ld64 m1 (cmp + 0)) (set_reg a2 (ld64 m1 (sc + 32)) (set_reg a1 cmp sA))))).
  assert (EB : exec_code [ld a1 24 a0; ld a2 32 a0; ld a3 0 a1; add a3 a3 a2; sd a3 0 a1] sA = Some sB).
  { machine_step Hp sc. change (memory sA) with m1. rewrite E24. machine_step Hp sc. machine_step Hp cmp.
    erewrite exec_step by reflexivity. machine_step Hp cmp. done. }
  set (sC := set_csr sip (csr_write sip (csrs s sip) 2) (set_reg a1 2 sB)).
  assert (EC : exec_code [li a1 2; csrw sip a1] sB = Some sC) by (simpl; by rewrite Hp).
  set (sD := set_reg a1 (ld64 m2 (sc + 0)) (set_reg a2 (ld64 m2 (sc + 8)) (set_reg a3 (ld64 m2 (sc + 16)) sC))).
  assert (ED : exec_code [ld a3 16 a0; ld a2 8 a0; ld a1 0 a0] sC = Some sD) by (do 3 machine_step Hp sc; done).
  set (sE := set_reg a0 (regs s a0) (set_csr mscratch sc sD)).
  exists (set_pc (csrs s mepc) (set_priv (mret_mode (csrs s mstatus)) (set_csr mstatus (mret_status (csrs s mstatus)) sE))).
  assert (Hm2 : forall a, a + 8 <= sc \/ sc + 24 <= a -> a + 8 <= cmp \/ cmp + 8 <= a -> ld64 m2 a = ld64 (memory s) a).
  { intros a Ha Ha'. unfold m2, m1. by rewrite !ld64_st64_ne by lia. }
  assert (Hsave : ld64 m2 (sc + 0) = regs s a1 /\ ld64 m2 (sc + 8) = regs s a2 /\ ld64 m2 (sc + 16) = regs s a3).
  { unfold m2. rewrite !(ld64_st64_ne m1) by lia. unfold m1. split; [|split].
    - rewrite !ld64_st64_ne by lia. apply ld64_st64_eq, Hr.
    - rewrite ld64_st64_ne by lia. apply ld64_st64_eq, Hr.
    - apply ld64_st64_eq, Hr. }
  destruct Hsave as (S1 & S2 & S3). split; [|split_and!; try done].
  - change timervec_code with ([csrrw a0 mscratch a0; sd a1 0 a0; sd a2 8 a0; sd a3 16 a0] ++
      ([ld a1 24 a0; ld a2 32 a0; ld a3 0 a1; add a3 a3 a2; sd a3 0 a1] ++ ([li a1 2; csrw sip a1] ++
       ([ld a3 16 a0; ld a2 8 a0; ld a1 0 a0] ++ [csrrw a0 mscratch a0; mret])))).
    do 4 (rewrite exec_app, ?EA, ?EB, ?EC, ?ED; cbn [mbind option_bind]).
    rewrite (exec_step _ _ _ sE) by (unfold step; change (priv sD) with (priv s); by rewrite Hp).
    unfold exec_code, step. change (priv sE) with (priv s). by rewrite Hp.
  - intros r Hz. destruct r; try done.
  - change (ld64 m2 cmp = u64 (ld64 (memory s) cmp + ld64 (memory s) (sc + 32))).
    unfold m2, v. rewrite Z.add_0_r, ld64_st64_eq by apply u64_range. unfold m1. by rewrite !ld64_st64_ne by lia.
  - change (has (csr_write sip (csrs s sip) 2) 2 = true). apply has_spec. unfold csr_write.
    rewrite Z.land_lor_distr_l. intros E. apply Z.lor_eq_0_iff in E as [_ E]. done.
Qed.

(** _entry gives each hart its own 4096 bytes of stack0. *)
Lemma entry_run s stack0 start spin :
  priv s = MachineMode -> 0 <= csrs s mhartid < NCPU -> 0 <= stack0 -> stack0 + 4096 * NCPU < 2 ^ 64 ->
  exists s', exec_code (entry_code stack0 start spin) s = Some s' /\
    get_reg sp s' = stack0 + 4096 * (csrs s mhartid + 1) /\ pc s' = start /\
    csrs s' = csrs s /\ memory s' = memory s /\ priv s' = MachineMode /\ get_reg ra s' = spin.
Proof.
  intros Hp Hh Hs0 Hs1. change NCPU with 8 in *. eexists. split; [simpl; rewrite Hp; reflexivity|]. split_and!; try done.
  change (u64 (stack0 + u64 (u64 (1024 * 4) * u64 (csrs s mhartid + 1))) = stack0 + 4096 * (csrs s mhartid + 1)).
  rewrite (u64_small (csrs s mhartid + 1)) by lia. change (u64 (1024 * 4)) with 4096.
  rewrite (u64_small (4096 * _)) by lia. by rewrite u64_small by lia.
Qed.

(** * Concrete machines *)

Lemma in_range_set r v s : in_range s -> 0 <= v < 2 ^ 64 -> in_range (set_reg r v s).
Proof.
  intros Hr Hv r'. unfold set_reg. simpl. case_decide; [apply Hr|]. unfold insert, fn_insert.
  case_decide; [done|apply Hr].
Qed.

Lemma swtch_in_range s s1 pn :
  in_range s -> (forall r o, (r, o) ∈ context_fields -> regs s1 r = ld64 (memory s) (pn + o)) ->
  (forall r, r ∉ context_fields.*1 -> regs s1 r = regs s r) -> in_range s1.
Proof.
  intros Hr Hn Ho r. destruct (decide (r ∈ context_fields.*1)) as [([r' o] & Er & Hin)%list_elem_of_fmap|Hne].
  - simpl in Er. subst r'. rewrite (Hn _ _ Hin). apply ld64_range.
  - rewrite (Ho r Hne). apply Hr.
Qed.

Lemma window_bare p m root a n :
  Z.shiftr root 60 <> 8 -> 0 <= a -> a + n <= 2 ^ 64 -> window p m root a a n.
Proof.
  intros Hr Ha Hn m' d w _ Hd Hd'. unfold physical. rewrite u64_small by lia.
  rewrite (proj2 (Z.eqb_neq _ _) Hr). by case_decide.
Qed.

(** A process whose trap frame, at 0x80040000, is mapped at TRAPFRAME by the page
    table at 0x80030000. *)
Definition trap_mem : mem :=
  st64 (st64 (st64 (st64 ∅ (0x80030000 + 8 * 255) (Z.lor (PA2PTE 0x80031000) PTE_V))
    (0x80031000 + 8 * 511) (Z.lor (PA2PTE 0x80032000) PTE_V))
    (0x80032000 + 8 * 510) (Z.lor (PA2PTE 0x80040000) 0x7))
    (0x80040000 + 16) 0x80001000.

Definition trap_shape : shape := path_shape 0x80030000 0x80031000 0x80032000 255 511.

Definition trap_machine : machine :=
  mkMachine (fun r => if decide (r = a0) then 7 else if decide (r = s11) then 11 else 5)
    (fun c => if decide (c = satp) then MAKE_SATP 0x80030000 else 0) trap_mem 0 SupervisorMode.

Lemma trap_entry q o p x :
  (q, o) ∈ [(0x80030000, 255); (0x80031000, 511)] -> ld64 trap_mem (q + 8 * o) = p -> 0 <= x < 512 ->
  ld64 trap_mem (q + 8 * x) = if x =? o then p else 0.
Proof.
  intros Hq E Hx. destruct (Z.eqb_spec x o) as [->|Hne]; [done|]. set_unfold in Hq.
  assert (Hld : forall a, ld64 (∅ : mem) a = 0) by done.
  unfold trap_mem. rewrite !ld64_st64_ne, Hld by (destruct Hq as [[= -> ->]|[[= -> ->]|]]; [lia|lia|done]). done.
Qed.

Lemma trap_window : window SupervisorMode trap_mem (MAKE_SATP 0x80030000) TRAPFRAME 0x80040000 288.
Proof.
  change 0x80040000 with (PTE2PA (Z.lor (PA2PTE 0x80040000) 0x7)).
  apply (window_tree trap_mem 0x80030000 trap_shape); try by vm_compute.
  - apply path_wf; try (split; by vm_compute); [decided| |];
      intros x Hx; apply trap_entry; (set_solver || done || by vm_compute).
  - intros ro q. unfold trap_shape, path_shape. destruct ro; repeat case_match; intros ?; simplify_eq; by vm_compute.
Qed.

Lemma trap_in_range : in_range trap_machine.
Proof. intros r. simpl. repeat case_decide; lia. Qed.

(** The user's registers survive a trap that the kernel returns from at once. *)
Lemma user_trap_roundtrip_witness :
  exists s1 s3, exec_code uservec_code trap_machine = Some s1 /\ pc s1 = 0x80001000 /\
    exec_code userret_code (set_reg a0 (MAKE_SATP 0x80030000) s1) = Some s3 /\
    regs s3 a0 = 7 /\ regs s3 s11 = 11 /\ regs s3 t0 = 5 /\ priv s3 = UserMode.
Proof.
  destruct (user_trap_roundtrip trap_machine 0x80040000 eq_refl trap_in_range trap_window)
    as (s1 & E & HA & _ & _ & _ & Hpc & Hp & Hcs & Hret).
  assert (Ec : csrs s1 sstatus = 0) by (by rewrite Hcs).
  destruct (Hret (set_reg a0 (MAKE_SATP 0x80030000) s1)) as (s3 & E3 & Hr & _ & _ & _ & Hp3).
  - exact Hp.
  - reflexivity.
  - change (has (csrs s1 sstatus) SSTATUS_SPP = false). by rewrite Ec.
  - apply (window_agree _ trap_mem); [exact trap_window|]. intros a Ha. apply HA. lia.
  - reflexivity.
  - exists s1, s3. split; [exact E|]. split; [exact Hpc|]. split; [exact E3|].
    split; [exact (Hr a0 ltac:(done))|]. split; [exact (Hr s11 ltac:(done))|].
    split; [exact (Hr t0 ltac:(done))|exact Hp3].
Defined.

(** A kernel thread on a stack that ends at 0x80050000, with paging off. *)
Definition kernel_machine : machine :=
  mkMachine (fun r => if decide (r = sp) then 0x80050000 else if decide (r = a1) then 0x80060000 else
                      if decide (r = a0) then 0x80061000 else 9) (fun _ => 0) ∅ 0 SupervisorMode.

Lemma kernel_in_range : in_range kernel_machine.
Proof. intros r. simpl. repeat case_decide; lia. Qed.

Lemma kernelvec_transparent_witness :
  exists s1 s3, exec_code (kernelvec_save 0x80001000 0x80002000) kernel_machine = Some s1 /\
    exec_code kernelvec_restore (set_reg tp 1 (set_reg a0 77 s1)) = Some s3 /\
    regs s3 sp = 0x80050000 /\ regs s3 a0 = 0x80061000 /\ regs s3 tp = 1.
Proof.
  assert (HW : forall m, window SupervisorMode m 0 (0x80050000 - 256) (0x80050000 - 256) 256)
    by (intros m; by apply window_bare).
  destruct (kernelvec_transparent kernel_machine 0x80001000 0x80002000 (0x80050000 - 256) eq_refl kernel_in_range
    ltac:(by vm_compute) (HW _)) as (s1 & E & _ & _ & _ & _ & Ec & Ep & Hret).
  destruct (Hret (set_reg tp 1 (set_reg a0 77 s1))) as (s3 & E3 & Hr & Ht & _).
  - exact Ep.
  - reflexivity.
  - simpl. rewrite Ec. apply HW.
  - reflexivity.
  - exists s1, s3. split; [exact E|]. split; [exact E3|].
    split; [exact (Hr sp ltac:(done) ltac:(done))|]. split; [exact (Hr a0 ltac:(done) ltac:(done))|exact Ht].
Defined.

Lemma swtch_coroutine_witness :
  exists s1 s3, exec_code swtch_code kernel_machine = Some s1 /\
    exec_code swtch_code (set_reg a0 0x80060000 (set_reg a1 0x80061000 s1)) = Some s3 /\
    regs s3 sp = 0x80050000 /\ pc s3 = 9.
Proof.
  assert (HW : forall p m a, 0 <= a -> a + 112 <= 2 ^ 64 -> window p m 0 a a 112)
    by (intros p m a; by apply window_bare).
  destruct (swtch_coroutine kernel_machine 0x80061000 0x80060000 kernel_in_range
    (HW _ _ 0x80061000 ltac:(lia) ltac:(lia)) (fun m' _ => HW _ m' 0x80060000 ltac:(lia) ltac:(lia)) ltac:(by right))
    as (s1 & E & Hn & Ho & _ & _ & Ec & _ & Hret).
  set (s2 := set_reg a0 0x80060000 (set_reg a1 0x80061000 s1)).
  assert (Hs2 : forall p m a, 0 <= a -> a + 112 <= 2 ^ 64 -> window p m (csrs s2 satp) a a 112)
    by (change (csrs s2) with (csrs s1); rewrite Ec; exact HW).
  destruct (Hret s2 0x80060000) as (s3 & E3 & Hpc & Hr).
  - apply in_range_set; [|lia]. apply in_range_set; [|lia]. exact (swtch_in_range kernel_machine s1 0x80060000 kernel_in_range Hn Ho).
  - by apply Hs2.
  - intros m' _. by apply Hs2.
  - by left.
  - reflexivity.
  - exists s1, s3. split; [exact E|]. split; [exact E3|]. split; [exact (Hr sp ltac:(decided))|exact Hpc].
Defined.
