(* ===== verification/Start.v ===== *)
(** kernel/start.c: what a hart does in machine mode between _entry and main(),
    with the accessors of kernel/riscv.h that it uses, and the boot of a
    hart up to the first timer interrupt. *)

From Stdlib Require Import ZArith Lia.
From stdpp Require Import base gmap list_numbers strings numbers functions list.
From S2P Require Import Prelude Mem Riscv Kernel Spinlock Kalloc Vm VmTree VmMap Printf Sched Sv39 Asm AsmSpec.

Open Scope Z_scope.

Implicit Types (s : machine) (x : Z).

(** * riscv.h *)

Definition rcsr (c : csr) : M machine Z := gets (fun s => csrs s c).
Definition wcsr (c : csr) (x : Z) : M machine unit :=
  modify (fun s => set_csr c (csr_write c (csrs s c) x) s).

Definition r_mhartid : M machine Z := rcsr mhartid.
Definition r_mstatus : M machine Z := rcsr mstatus.
Definition w_mstatus (x : Z) : M machine unit := wcsr mstatus x.
Definition w_mepc (x : Z) : M machine unit := wcsr mepc x.
Definition w_satp (x : Z) : M machine unit := wcsr satp x.
Definition w_medeleg (x : Z) : M machine unit := wcsr medeleg x.
Definition w_mideleg (x : Z) : M machine unit := wcsr mideleg x.
Definition r_sie : M machine Z := rcsr sie.
Definition w_sie (x : Z) : M machine unit := wcsr sie x.
Definition r_mie : M machine Z := rcsr mie.
Definition w_mie (x : Z) : M machine unit := wcsr mie x.
Definition w_pmpaddr0 (x : Z) : M machine unit := wcsr pmpaddr0 x.
Definition w_pmpcfg0 (x : Z) : M machine unit := wcsr pmpcfg0 x.
Definition w_mscratch (x : Z) : M machine unit := wcsr mscratch x.
Definition w_mtvec (x : Z) : M machine unit := wcsr mtvec x.
Definition w_tp (x : Z) : M machine unit := modify (set_reg tp x).

Definition SIE_SEIE : Z := Z.shiftl 1 9.
Definition SIE_STIE : Z := Z.shiftl 1 5.
Definition SIE_SSIE : Z := Z.shiftl 1 1.
Definition MIE_MTIE : Z := Z.shiftl 1 7.

(** * memlayout.h *)

Definition CLINT_MTIMECMP (hartid : Z) : Z := CLINT + 0x4000 + 8 * hartid.
Definition CLINT_MTIME : Z := CLINT + 0xBFF8.

(** A load and a store of a uint64; machine mode uses physical addresses. *)
Definition load_u64 (a : Z) : M machine Z := gets (fun s => ld64 (memory s) a).
Definition store_u64 (a v : Z) : M machine unit := modify (fun s => set_memory (st64 (memory s) a v) s).

(** The asm statement of start(). *)
Definition asm_mret : M machine unit :=
  fun s => match step mret s with Some s' => Ret tt s' | None => Fault "mret" s end.

(** * start.c: the addresses of timervec, of main() and of timer_scratch[][] are arguments *)

Definition timerinit (timervec timer_scratch : Z) : M machine unit :=
  let! h := r_mhartid in
  let id := i32 h in
  let interval := 1000000 in
  let! t := load_u64 CLINT_MTIME in
  do! store_u64 (CLINT_MTIMECMP id) (u64 (t + interval));
  let scratch := timer_scratch + 40 * id in
  do! store_u64 (scratch + 8 * 3) (CLINT_MTIMECMP id);
  do! store_u64 (scratch + 8 * 4) interval;
  do! w_mscratch scratch;
  do! w_mtvec timervec;
  let! m := r_mstatus in
  do! w_mstatus (Z.lor m MSTATUS_MIE);
  let! e := r_mie in
  w_mie (Z.lor e MIE_MTIE).

Definition start (main timervec timer_scratch : Z) : M machine unit :=
  let! x := r_mstatus in
  let x := Z.land x (u64 (Z.lnot MSTATUS_MPP_MASK)) in
  let x := Z.lor x MSTATUS_MPP_S in
  do! w_mstatus x;
  do! w_mepc main;
  do! w_satp 0;
  do! w_medeleg 0xffff;
  do! w_mideleg 0xffff;
  let! e := r_sie in
  do! w_sie (Z.lor (Z.lor (Z.lor e SIE_SEIE) SIE_STIE) SIE_SSIE);
  do! w_pmpaddr0 0x3fffffffffffff;
  do! w_pmpcfg0 0xf;
  do! timerinit timervec timer_scratch;
  let! h := r_mhartid in
  do! w_tp (u64 (i32 h));
  asm_mret.

(** * Boot of a hart *)

Lemma mret_supervisor x :
  mret_mode (Z.lor (Z.lor (Z.land x (u64 (Z.lnot MSTATUS_MPP_MASK))) MSTATUS_MPP_S) MSTATUS_MIE) = SupervisorMode.
Proof.
  unfold mret_mode.
  assert (E : Z.land (Z.lor (Z.lor (Z.land x (u64 (Z.lnot MSTATUS_MPP_MASK))) MSTATUS_MPP_S) MSTATUS_MIE) MSTATUS_MPP_MASK
              = MSTATUS_MPP_S).
  { rewrite !Z.land_lor_distr_l, <- Z.land_assoc.
    change (Z.land (u64 (Z.lnot MSTATUS_MPP_MASK)) MSTATUS_MPP_MASK) with 0. by rewrite Z.land_0_r. }
  by rewrite E.
Qed.

Lemma has_lor x f : f <> 0 -> has (Z.lor x f) f = true.
Proof.
  intros Hf. apply has_spec. rewrite Z.land_lor_distr_l, Z.land_diag. intros E. by apply Z.lor_eq_0_iff in E as [_ E].
Qed.

(** The timer registers lie below RAM. *)
Lemma CLINT_apart id : 0 <= id < NCPU ->
  CLINT_MTIMECMP id + 8 <= CLINT_MTIME /\ 0 <= CLINT_MTIMECMP id /\ CLINT_MTIME + 8 <= KERNBASE.
Proof.
  intros Hid. unfold CLINT_MTIMECMP, CLINT_MTIME, NCPU, CLINT, KERNBASE in *. lia.
Qed.

(** The memory after timerinit() on hart [id]. *)
Definition timer_mem (m : mem) (timer_scratch id : Z) : mem :=
  let scratch := timer_scratch + 40 * id in
  st64 (st64 (st64 m (CLINT_MTIMECMP id) (u64 (ld64 m CLINT_MTIME + 1000000)))
    (scratch + 24) (CLINT_MTIMECMP id)) (scratch + 32) 1000000.

Lemma rcsr_bind {A} c v s (f : Z -> M machine A) : csrs s c = v -> bind (rcsr c) f s = f v s.
Proof. by intros <-. Qed.

Lemma wcsr_bind {A} c x s (m : M machine A) :
  csr_write c (csrs s c) x = x -> (do! wcsr c x; m) s = m (set_csr c x s).
Proof. intros E. unfold wcsr, bind, modify. cbn [obind]. by rewrite E. Qed.

(** The control registers after timerinit() and after start(). *)
Definition timer_csrs (timervec scratch : Z) (f : csr -> Z) : csr -> Z :=
  <[mie := Z.lor (f mie) MIE_MTIE]> (<[mstatus := Z.lor (f mstatus) MSTATUS_MIE]>
    (<[mtvec := timervec]> (<[mscratch := scratch]> f))).

Lemma timerinit_run s timervec timer_scratch id :
  i32 (csrs s mhartid) = id ->
  timerinit timervec timer_scratch s =
    Ret tt (mkMachine (regs s) (timer_csrs timervec (timer_scratch + 40 * id) (csrs s))
      (timer_mem (memory s) timer_scratch id) (pc s) (priv s)).
Proof. intros <-. reflexivity. Qed.

Definition start_csrs (main : Z) (f : csr -> Z) : csr -> Z :=
  <[pmpcfg0 := 0xf]> (<[pmpaddr0 := 0x3fffffffffffff]>
    (<[sie := Z.lor (Z.lor (Z.lor (f sie) SIE_SEIE) SIE_STIE) SIE_SSIE]>
    (<[mideleg := 0xffff]> (<[medeleg := 0xffff]> (<[satp := 0]> (<[mepc := main]>
    (<[mstatus := Z.lor (Z.land (f mstatus) (u64 (Z.lnot MSTATUS_MPP_MASK))) MSTATUS_MPP_S]> f))))))).

Lemma start_run s main timervec timer_scratch id :
  priv s = MachineMode -> csrs s mhartid = id -> 0 <= id < NCPU ->
  exists s', start main timervec timer_scratch s = Ret tt s' /\
    priv s' = SupervisorMode /\ pc s' = main /\ memory s' = timer_mem (memory s) timer_scratch id /\
    get_reg tp s' = id /\ (forall r, r <> tp -> regs s' r = regs s r) /\
    forall c, c <> mstatus -> csrs s' c = timer_csrs timervec (timer_scratch + 40 * id) (start_csrs main (csrs s)) c.
Proof.
  intros Hp Hh Hid. change NCPU with 8 in Hid. assert (Hi : i32 id = id) by (apply i32_small; lia).
  set (sA := mkMachine (regs s) (start_csrs main (csrs s)) (memory s) (pc s) (priv s)).
  set (fB := timer_csrs timervec (timer_scratch + 40 * id) (start_csrs main (csrs s))).
  set (sB := mkMachine (regs s) fB (timer_mem (memory s) timer_scratch id) (pc s) (priv s)).
  assert (EB : timerinit timervec timer_scratch sA = Ret tt sB) 
    by exact (timerinit_run sA timervec timer_scratch id (eq_trans (f_equal i32 Hh) Hi)).
  assert (Hmode : mret_mode (fB mstatus) = SupervisorMode) by exact (mret_supervisor (csrs s mstatus)).
  assert (Hepc : fB mepc = main) by reflexivity. assert (HhB : csrs sB mhartid = id) by exact Hh.
  exists (set_pc main (set_priv SupervisorMode (set_csr mstatus (mret_status (fB mstatus)) (set_reg tp id sB)))). split.
  - unfold start, r_mstatus, r_sie, r_mhartid. rewrite (rcsr_bind _ _ _ _ eq_refl).
    unfold w_mstatus, w_mepc, w_satp, w_medeleg, w_mideleg, w_sie, w_pmpaddr0, w_pmpcfg0.
    rewrite !wcsr_bind by reflexivity. rewrite (rcsr_bind sie (csrs s sie)) by reflexivity.
    rewrite !wcsr_bind by reflexivity.
    rewrite (bind_run _ _ _ _ _ EB), (rcsr_bind _ _ _ _ HhB), Hi, u64_small by lia.
    unfold w_tp, bind, modify, asm_mret. cbn [obind]. unfold step.
    change (priv (set_reg tp id sB)) with (priv s). rewrite Hp. rewrite decide_True by done.
    change (csrs (set_reg tp id sB)) with fB. by rewrite Hmode, Hepc.
  - split_and!; try done; [intros r Hr; by apply fn_lookup_insert_ne|].
    intros c Hc. by apply fn_lookup_insert_ne.
Qed.

(** C36. The boot of a hart.  _entry gives hart [id] the last of the first id + 1
    pages of stack0 as its stack and calls start(), which enters main() in
    supervisor mode by mret with the hart number in tp, paging off, traps
    delegated to the supervisor, all of physical memory accessible and the
    first timer interrupt due 1000000 cycles on.  Every timer interrupt from
    then on, in whatever state, moves mtimecmp on by 1000000, raises a software interrupt
    and goes back with all registers unchanged. *)
Theorem boot_correct s stack0 start_addr spin main timervec timer_scratch :
  let id := csrs s mhartid in
  let scratch := timer_scratch + 40 * id in
  priv s = MachineMode -> 0 <= id < NCPU -> 0 <= stack0 -> stack0 + 4096 * NCPU < 2 ^ 64 ->
  KERNBASE <= timer_scratch -> timer_scratch + 40 * NCPU <= 2 ^ 64 ->
  exists s1 s2,
    exec_code (entry_code stack0 start_addr spin) s = Some s1 /\
    pc s1 = start_addr /\ get_reg sp s1 = stack0 + 4096 * (id + 1) /\
    start main timervec timer_scratch s1 = Ret tt s2 /\
    priv s2 = SupervisorMode /\ pc s2 = main /\ get_reg tp s2 = id /\ get_reg sp s2 = get_reg sp s1 /\
    csrs s2 satp = 0 /\ csrs s2 medeleg = 0xffff /\ csrs s2 mideleg = 0xffff /\
    csrs s2 pmpaddr0 = 0x3fffffffffffff /\ csrs s2 pmpcfg0 = 0xf /\ csrs s2 mtvec = timervec /\
    has (csrs s2 mie) MIE_MTIE = true /\ has (csrs s2 sie) SIE_SSIE = true /\
    ld64 (memory s2) (CLINT_MTIMECMP id) = u64 (ld64 (memory s) CLINT_MTIME + 1000000) /\
    (forall a, a + 8 <= CLINT_MTIMECMP id \/ CLINT_MTIMECMP id + 8 <= a ->
       a + 8 <= scratch + 24 \/ scratch + 40 <= a -> ld64 (memory s2) a = ld64 (memory s) a) /\
    forall s3,
      priv s3 = MachineMode -> in_range s3 -> csrs s3 mscratch = csrs s2 mscratch ->
      ld64 (memory s3) (scratch + 24) = ld64 (memory s2) (scratch + 24) ->
      ld64 (memory s3) (scratch + 32) = ld64 (memory s2) (scratch + 32) ->
      exists s4, exec_code timervec_code s3 = Some s4 /\
        (forall r, r <> zero -> regs s4 r = regs s3 r) /\
        ld64 (memory s4) (CLINT_MTIMECMP id) = u64 (ld64 (memory s3) (CLINT_MTIMECMP id) + 1000000) /\
        has (csrs s4 sip) 2 = true /\ pc s4 = csrs s3 mepc /\ priv s4 = mret_mode (csrs s3 mstatus).
Proof.
  intros id scratch Hp Hid Hs0 Hs1 Ht0 Ht1.
  destruct (entry_run s stack0 start_addr spin Hp Hid Hs0 Hs1) as (s1 & E1 & Hsp & Hpc & Hc & Hm & Hp1 & _).
  destruct (start_run s1 main timervec timer_scratch id Hp1 ltac:(by rewrite Hc) Hid)
    as (s2 & E2 & P2 & Pc2 & M2 & Tp2 & R2 & C2).
  rewrite Hm in M2. pose proof (CLINT_apart id Hid) as (Hcmp & Hcmp0 & Htime).
  change NCPU with 8 in *. change KERNBASE with 0x80000000 in *.
  assert (E24 : ld64 (memory s2) (scratch + 24) = CLINT_MTIMECMP id).
  { rewrite M2. unfold timer_mem. fold scratch. rewrite ld64_st64_ne by lia. apply ld64_st64_eq. lia. }
  assert (E32 : ld64 (memory s2) (scratch + 32) = 1000000).
  { rewrite M2. unfold timer_mem. fold scratch. apply ld64_st64_eq. lia. }
  exists s1, s2. split_and!; try done; try (by rewrite C2).
  - unfold get_reg. simpl. by apply R2.
  - rewrite C2 by done. by apply has_lor.
  - rewrite C2 by done. by apply has_lor.
  - rewrite M2. unfold timer_mem. fold scratch. rewrite !ld64_st64_ne by lia. apply ld64_st64_eq, u64_range.
  - intros a Ha Ha'. rewrite M2. unfold timer_mem. fold scratch. by rewrite !ld64_st64_ne by lia.
  - intros s3 P3 Hr3 Hsc H24 H32. rewrite C2 in Hsc by done.
    destruct (timervec_run s3 scratch (CLINT_MTIMECMP id) P3 Hr3 Hsc ltac:(lia) ltac:(lia) ltac:(congruence)
      ltac:(lia) ltac:(lia)) as (s4 & E4 & Hr4 & Hc4 & _ & Hsip & _ & Hpc4 & Hp4).
    exists s4. rewrite H32, E32 in Hc4. done.
Qed.

(** Hart 2 at reset. *)
Definition reset_machine : machine :=
  mkMachine (fun _ => 0) (fun c => if decide (c = mhartid) then 2 else 0) ∅ 0x80000000 MachineMode.

Lemma boot_correct_witness :
  exists s1 s2, exec_code (entry_code 0x80009000 0x80000100 0x8000001a) reset_machine = Some s1 /\
    get_reg sp s1 = 0x8000c000 /\ start 0x80000200 0x80000300 0x80020000 s1 = Ret tt s2 /\
    pc s2 = 0x80000200 /\ get_reg tp s2 = 2 /\ priv s2 = SupervisorMode /\
    exists s4, exec_code timervec_code (mkMachine (fun _ => 7) (csrs s2) (memory s2) 0 MachineMode) = Some s4 /\
      ld64 (memory s4) (CLINT_MTIMECMP 2) = 2000000.
Proof.
  destruct (boot_correct reset_machine 0x80009000 0x80000100 0x8000001a 0x80000200 0x80000300 0x80020000
    eq_refl ltac:(by vm_compute) ltac:(lia) ltac:(by vm_compute) ltac:(by vm_compute) ltac:(by vm_compute))
    as (s1 & s2 & E1 & _ & Hsp & E2 & Hp & Hpc & Htp & Hsp2 & _ & _ & _ & _ & _ & _ & _ & _ & Hcmp & _ & Ht).
  exists s1, s2. split; [exact E1|]. split; [exact Hsp|]. split; [exact E2|]. split; [exact Hpc|].
  split; [exact Htp|]. split; [exact Hp|].
  destruct (Ht (mkMachine (fun _ => 7) (csrs s2) (memory s2) 0 MachineMode)) as (s4 & E4 & _ & Hc4 & _).
  - reflexivity.
  - intros r. simpl. lia.
  - reflexivity.
  - reflexivity.
  - reflexivity.
  - exists s4. split; [exact E4|]. cbn [memory] in Hc4. rewrite Hcmp in Hc4. exact Hc4.
Defined.
