(* ===== verification/Sleeplock.v ===== *)
(** kernel/sleeplock.c: long-term locks.  The struct sits in a buffer or an
    inode; [sleeper] names it. *)

From Stdlib Require Import ZArith Lia.
From stdpp Require Import base gmap list_numbers strings numbers list.
From S2P Require Import Prelude Mem Riscv Kernel Spinlock Kalloc Vm Printf Sched.

Open Scope Z_scope.

(** The sleeplock of bcache.buf[i] or of itable.inode[i]. *)
Inductive sleeper : Type := SBuf (i : nat) | SInode (i : nat).

(** &lk->lk, and the channel &lk. *)
Definition sl_spin (s : sleeper) : lockid := match s with SBuf i => LBuf i | SInode i => LInode i end.
Definition sl_chan (s : sleeper) : chanid :=
  match s with SBuf i => ChBufLock i | SInode i => ChInodeLock i end.

Definition upd_buf (i : nat) (f : buf -> buf) : K unit :=
  modify (fun k => set_k_bcache (set_bc_buf (alter f i (bc_buf (k_bcache k))) (k_bcache k)) k).
Definition get_buf (i : nat) : K buf :=
  let! o := gets (fun k => bc_buf (k_bcache k) !! i) in need "bcache.buf[]" o.
Definition upd_inode (i : nat) (f : inode -> inode) : K unit :=
  modify (fun k => set_k_itable (alter f i (k_itable k)) k).
Definition get_inode (i : nat) : K inode :=
  let! o := gets (fun k => k_itable k !! i) in need "itable.inode[]" o.

Definition get_sl (s : sleeper) : K sleeplock :=
  match s with
  | SBuf i => let! b := get_buf i in ret (b_lock b)
  | SInode i => let! ip := get_inode i in ret (i_lock ip)
  end.
Definition upd_sl (s : sleeper) (f : sleeplock -> sleeplock) : K unit :=
  match s with
  | SBuf i => upd_buf i (fun b => set_b_lock (f (b_lock b)) b)
  | SInode i => upd_inode i (fun ip => set_i_lock (f (i_lock ip)) ip)
  end.

Definition initsleeplock (s : sleeper) (name : string) : K unit :=
  do! initlock (sl_spin s) "sleep lock";
  upd_sl s (fun _ => mkSleeplock 0 name 0).

(** while (lk->locked) sleep(lk, &lk->lk);  [fuel] bounds the wakeups that find
    the lock taken again. *)
Fixpoint acquiresleep_loop (fuel : nat) (s : sleeper) : K unit :=
  match fuel with
  | O => nofuel
  | S f =>
      let! lk := get_sl s in
      if negb (sl_locked lk =? 0) then do! sleep (sl_chan s) (sl_spin s); acquiresleep_loop f s
      else ret tt
  end.

Definition sleep_rounds : nat := 1000.

Definition acquiresleep (s : sleeper) : K unit :=
  do! acquire (sl_spin s);
  do! acquiresleep_loop sleep_rounds s;
  do! upd_sl s (set_sl_locked 1);
  let! p := curproc in
  let! pr := get_proc p in
  do! upd_sl s (set_sl_pid (p_pid pr));
  release (sl_spin s).

Definition releasesleep (s : sleeper) : K unit :=
  do! acquire (sl_spin s);
  do! upd_sl s (set_sl_locked 0);
  do! upd_sl s (set_sl_pid 0);
  do! wakeup (sl_chan s);
  release (sl_spin s).

Definition holdingsleep (s : sleeper) : K bool :=
  do! acquire (sl_spin s);
  let! lk := get_sl s in
  let! r := (if negb (sl_locked lk =? 0) then
               let! p := curproc in
               let! pr := get_proc p in
               ret (sl_pid lk =? p_pid pr)
             else ret false) in
  do! release (sl_spin s);
  ret r.
