(* ===== verification/SleeplockSpec.v ===== *)
(** Correctness of kernel/sleeplock.c: a free sleeplock is taken at once and
    carries the pid of its holder, a taken one puts the caller to sleep on the
    lock, and releasing it frees it and wakes exactly those who wait for it. *)

From Stdlib Require Import ZArith Lia.
From stdpp Require Import base gmap list_numbers strings numbers list.
From S2P Require Import Prelude Mem Riscv Kernel Spinlock Kalloc Vm Printf Sched SchedSpec Thread Sleeplock.

Open Scope Z_scope.

Implicit Types (k : kernel) (s : sleeper).

(** * Buffers and inodes as components of the state *)

Definition k_bufs (k : kernel) : list buf := bc_buf (k_bcache k).
Definition alter_buf (i : nat) (f : buf -> buf) (k : kernel) : kernel :=
  set_k_bcache (set_bc_buf (alter f i (k_bufs k)) (k_bcache k)) k.
Definition alter_inode (i : nat) (f : inode -> inode) (k : kernel) : kernel :=
  set_k_itable (alter f i (k_itable k)) k.

Lemma get_buf_run k i x : k_bufs k !! i = Some x -> get_buf i k = Ret x k.
Proof. intros E. unfold get_buf, bind, gets. cbn [obind]. unfold k_bufs in E. by rewrite E. Qed.

Lemma get_inode_run k i x : k_itable k !! i = Some x -> get_inode i k = Ret x k.
Proof. intros E. unfold get_inode, bind, gets. cbn [obind]. by rewrite E. Qed.

Lemma upd_buf_run k i f : upd_buf i f k = Ret tt (alter_buf i f k).
Proof. done. Qed.

Lemma upd_inode_run k i f : upd_inode i f k = Ret tt (alter_inode i f k).
Proof. done. Qed.

Lemma alter_buf_alter i f g k : alter_buf i g (alter_buf i f k) = alter_buf i (g ∘ f) k.
Proof. unfold alter_buf, k_bufs. simpl. by rewrite list_alter_alter_eq. Qed.

Lemma alter_inode_alter i f g k : alter_inode i g (alter_inode i f k) = alter_inode i (g ∘ f) k.
Proof. unfold alter_inode. simpl. by rewrite list_alter_alter_eq. Qed.

Lemma alter_buf_ext i f g k :
  (forall x, k_bufs k !! i = Some x -> f x = g x) -> alter_buf i f k = alter_buf i g k.
Proof. intros E. unfold alter_buf. by rewrite (list_alter_ext f g (k_bufs k) (k_bufs k) i E). Qed.

Lemma alter_buf_lookup i j f k :
  k_bufs (alter_buf i f k) !! j = if decide (i = j) then f <$> k_bufs k !! j else k_bufs k !! j.
Proof. unfold alter_buf, k_bufs. simpl. rewrite list_lookup_alter. by case_decide; subst. Qed.

Lemma alter_buf_data i f : data_only (alter_buf i f).
Proof. done. Qed.

(** * The sleeplock of a buffer or an inode *)

Definition sl_of (s : sleeper) (k : kernel) : option sleeplock :=
  match s with
  | SBuf i => b_lock <$> k_bufs k !! i
  | SInode i => i_lock <$> k_itable k !! i
  end.

Definition alter_sl (s : sleeper) (f : sleeplock -> sleeplock) (k : kernel) : kernel :=
  match s with
  | SBuf i => alter_buf i (fun b => set_b_lock (f (b_lock b)) b) k
  | SInode i => alter_inode i (fun ip => set_i_lock (f (i_lock ip)) ip) k
  end.

Lemma get_sl_run k s lk : sl_of s k = Some lk -> get_sl s k = Ret lk k.
Proof.
  destruct s as [i|i]; simpl; intros E.
  - destruct (k_bufs k !! i) eqn:Eb; [|done]. simpl in E. injection E as <-.
    by rewrite (bind_run _ _ _ _ _ (get_buf_run _ _ _ Eb)).
  - destruct (k_itable k !! i) eqn:Eb; [|done]. simpl in E. injection E as <-.
    by rewrite (bind_run _ _ _ _ _ (get_inode_run _ _ _ Eb)).
Qed.

Lemma upd_sl_run k s f : upd_sl s f k = Ret tt (alter_sl s f k).
Proof. by destruct s. Qed.

Lemma alter_sl_alter s f g k : alter_sl s g (alter_sl s f k) = alter_sl s (g ∘ f) k.
Proof. destruct s; simpl; [by rewrite alter_buf_alter|by rewrite alter_inode_alter]. Qed.

Lemma alter_sl_data s f : data_only (alter_sl s f).
Proof. by destruct s. Qed.

Lemma alter_sl_of s f k : sl_of s (alter_sl s f k) = f <$> sl_of s k.
Proof.
  destruct s; simpl; unfold alter_buf, alter_inode, k_bufs; simpl;
    rewrite list_lookup_alter_eq, <- !option_fmap_compose; by destruct (_ !! _).
Qed.

Lemma sl_of_enter s l k : sl_of s (enter l k) = sl_of s k.
Proof. by destruct s. Qed.

Lemma sl_spin_ne s j : sl_spin s <> LProc j.
Proof. by destruct s. Qed.

(** * The operations *)

Section Ops.
Context (k : kernel) (me : nat) (pid : Z) (s : sleeper) (lk : sleeplock).
Context (T : thread k me pid) (Hf : lock_free k (sl_spin s)) (Hs : sl_of s k = Some lk).

Lemma sl_enter_running : running (enter (sl_spin s) k) me pid.
Proof. apply running_enter; [apply sl_spin_ne|apply T]. Qed.

Lemma sl_enter_relax : relax (enter (sl_spin s) k) = enter (sl_spin s) k.
Proof. apply relax_enter. by eapply thread_cpu_ok. Qed.

Lemma acquiresleep_run :
  sl_locked lk = 0 ->
  acquiresleep s k = Ret tt (alter_sl s (fun x => mkSleeplock 1 (sl_name x) pid) (relax k)).
Proof.
  intros Hfree. unfold acquiresleep. pose proof (thread_cpu_ok _ _ _ T) as Hk.
  rewrite (bind_run _ _ _ _ _ (acquire_run _ _ Hk Hf)).
  set (k1 := enter (sl_spin s) k).
  assert (E1 : acquiresleep_loop sleep_rounds s k1 = Ret tt k1).
  { change sleep_rounds with (S 999). cbn [acquiresleep_loop].
    rewrite (bind_run _ _ _ _ _ (get_sl_run k1 s lk Hs)). by rewrite Hfree. }
  rewrite (bind_run _ _ _ _ _ E1), (bind_run _ _ _ _ _ (upd_sl_run _ _ _)).
  set (k2 := alter_sl s (set_sl_locked 1) k1).
  assert (T2 : running k2 me pid) by (apply (running_ext k1); try (by destruct s); apply sl_enter_running).
  assert (R2 : relax k2 = k2).
  { unfold k2. rewrite data_only_relax by apply alter_sl_data. f_equal. apply sl_enter_relax. }
  rewrite (my_pid_run k2 me pid (fun pid => do! upd_sl s (set_sl_pid pid); release (sl_spin s)) T2 R2).
  rewrite (bind_run _ _ _ _ _ (upd_sl_run _ _ _)). unfold k2, k1. rewrite alter_sl_alter.
  rewrite (release_upd k _ _ Hk Hf (alter_sl_data _ _)). done.
Qed.

Lemma releasesleep_run :
  releasesleep s k = Ret tt (set_procs (imap (wake (Some me) (Some (sl_chan s))) (k_procs k))
                              (alter_sl s (fun x => mkSleeplock 0 (sl_name x) 0) (relax k))).
Proof.
  unfold releasesleep. pose proof (thread_cpu_ok _ _ _ T) as Hk.
  rewrite (bind_run _ _ _ _ _ (acquire_run _ _ Hk Hf)). set (k1 := enter (sl_spin s) k).
  rewrite (bind_run _ _ _ _ _ (upd_sl_run _ _ _)), (bind_run _ _ _ _ _ (upd_sl_run _ _ _)), alter_sl_alter.
  set (k2 := alter_sl s _ k1).
  assert (T2 : running k2 me pid) by (apply (running_ext k1); try (by destruct s); apply sl_enter_running).
  pose proof (wakeup_run k2 (Some me) (Some (sl_chan s)) (running_wake_ready _ _ _ T2)) as Ew.
  unfold wakeup. rewrite (bind_run _ _ _ _ _ Ew).
  assert (R2 : relax k2 = k2).
  { unfold k2. rewrite data_only_relax by apply alter_sl_data. f_equal. apply sl_enter_relax. }
  rewrite R2. replace (k_procs k2) with (k_procs k) by (by destruct s).
  unfold k2, k1. rewrite (release_upd k _ (fun k' => set_procs (imap (wake (Some me) (Some (sl_chan s))) (k_procs k))
             (alter_sl s (set_sl_pid 0 ∘ set_sl_locked 0) k')) Hk Hf); [done|].
  intros h cs ls k'. by destruct s.
Qed.

Lemma holdingsleep_run :
  holdingsleep s k = Ret (negb (sl_locked lk =? 0) && (sl_pid lk =? pid)) (relax k).
Proof.
  unfold holdingsleep. pose proof (thread_cpu_ok _ _ _ T) as Hk.
  rewrite (bind_run _ _ _ _ _ (acquire_run _ _ Hk Hf)). set (k1 := enter (sl_spin s) k).
  rewrite (bind_run _ _ _ _ _ (get_sl_run k1 s lk Hs)).
  set (m := if negb (sl_locked lk =? 0) then _ else _).
  assert (Em : m k1 = Ret (negb (sl_locked lk =? 0) && (sl_pid lk =? pid)) k1).
  { unfold m. destruct (sl_locked lk =? 0); [done|]. simpl.
    by rewrite (my_pid_run k1 me pid (fun pid => ret (sl_pid lk =? pid)) sl_enter_running sl_enter_relax). }
  rewrite (bind_run _ _ _ _ _ Em).
  by rewrite (bind_run _ _ _ _ _ (release_upd k _ (fun k => k) Hk Hf data_only_id)).
Qed.
End Ops.

Lemma acquiresleep_wait k me pid s lk i c :
  thread k me pid -> lock_free k (sl_spin s) -> sl_of s k = Some lk ->
  on_cpu k i c -> c_proc c = Some me -> c_noff c = 0 -> sl_locked lk <> 0 ->
  exists k' resume lkname pname, acquiresleep s k = Switch k' resume /\
    k' = asleep me i (sl_spin s) lkname pname (sl_chan s) (enter (sl_spin s) k).
Proof.
  intros T Hf Hs OC Hme Hn Hl. unfold acquiresleep. pose proof (thread_cpu_ok _ _ _ T) as Hk.
  rewrite (bind_run _ _ _ _ _ (acquire_run _ _ Hk Hf)). set (k1 := enter (sl_spin s) k).
  change sleep_rounds with (S 999). cbn [acquiresleep_loop].
  assert (OC1 : on_cpu k1 i (cpu_off (intr k) c)) by (by apply (on_cpu_ext (pushed k)), pushed_on_cpu).
  destruct Hf as [lkname El], T as [[_ Hlen Hpid Hfree] _].
  destruct (k_procs k !! me) as [p|] eqn:Ep; [|done].
  assert (Hlt : (me < Z.to_nat NPROC)%nat) by (rewrite <- Hlen; by eapply lookup_lt_Some).
  destruct (Hfree me Hlt) as [pname Epl].
  eexists _, _, lkname, pname. unfold bind at 1 2. rewrite (get_sl_run k1 s lk Hs). cbn [obind].
  rewrite (proj2 (Z.eqb_neq _ _) Hl). cbn [negb]. unfold bind at 1.
  rewrite (sleep_run k1 i _ me p (sl_spin s) lkname pname (sl_chan s) OC1).
  - cbn [obind]. split; [reflexivity|done].
  - unfold cpu_off. simpl. lia.
  - unfold cpu_off. by destruct (_ =? 0).
  - apply sl_spin_ne.
  - unfold k1. simpl. rewrite (this_cpu_on _ _ _ OC). by rewrite (locks_alter _ _ _ _ El), lookup_insert_eq.
  - unfold k1. simpl. rewrite lookup_alter_ne by apply sl_spin_ne. done.
  - done.
Qed.

(** A sleeplock: when it is free, acquiresleep() takes it in the name of the
    running process, holdingsleep() is then true, and releasesleep() frees it,
    makes RUNNABLE every other process that waits for it, and leaves the rest of the state
    as it was before; when it is taken, acquiresleep() puts the process to sleep on it with
    the inner spinlock free again. *)
Theorem sleeplock_correct k me pid s lk i c :
  thread k me pid -> lock_free k (sl_spin s) -> sl_of s k = Some lk ->
  on_cpu k i c -> c_proc c = Some me -> c_noff c = 0 ->
  (sl_locked lk = 0 -> exists k1 k2,
     acquiresleep s k = Ret tt k1 /\ sl_of s k1 = Some (mkSleeplock 1 (sl_name lk) pid) /\
     holdingsleep s k1 = Ret true (relax k1) /\ releasesleep s k1 = Ret tt k2 /\
     core k2 = core (alter_sl s (fun _ => mkSleeplock 0 (sl_name lk) 0) k) /\
     forall j p, k_procs k !! j = Some p -> j <> me -> p_state p = SLEEPING ->
       p_chan p = Some (sl_chan s) -> k_procs k2 !! j = Some (set_p_state RUNNABLE p)) /\
  (sl_locked lk <> 0 -> exists k' resume,
     acquiresleep s k = Switch k' resume /\ lock_free k' (sl_spin s) /\
     exists p, k_procs k' !! me = Some p /\ p_state p = SLEEPING /\ p_chan p = Some (sl_chan s)).
Proof.
  intros T Hf Hs OC Hme Hn. split.
  - intros Hl. eexists _, _. split; [by eapply acquiresleep_run|]. set (k1 := alter_sl s _ (relax k)).
    assert (T1 : thread k1 me pid) by (apply (thread_ext (relax k)); try (by destruct s); by apply thread_relax).
    assert (S1 : sl_of s k1 = Some (mkSleeplock 1 (sl_name lk) pid)).
    { unfold k1. rewrite alter_sl_of. replace (sl_of s (relax k)) with (sl_of s k) by (by destruct s). by rewrite Hs. }
    assert (F1 : lock_free k1 (sl_spin s)).
    { destruct Hf as [n En]. exists n. unfold k1. rewrite data_only_locks by apply alter_sl_data. done. }
    split; [done|]. split; [rewrite (holdingsleep_run k1 me pid s _ T1 F1 S1); simpl; by rewrite Z.eqb_refl|].
    split; [by eapply releasesleep_run|]. split.
    + rewrite core_set_procs. unfold k1. rewrite data_only_relax, alter_sl_alter, relax_idem by apply alter_sl_data.
      destruct s as [b|b]; simpl in Hs |- *;
        [destruct (k_bufs k !! b) as [x|] eqn:Ex|destruct (k_itable k !! b) as [x|] eqn:Ex]; try done;
        injection Hs as <-; unfold alter_buf, alter_inode, core, k_bufs in *; simpl.
      * erewrite list_alter_ext; [done| |done]. intros y Ey. simpl. by replace y with x by congruence.
      * erewrite list_alter_ext; [done| |done]. intros y Ey. simpl. by replace y with x by congruence.
    + intros j p Hp Hj Hsl Hch. rewrite k_procs_set, list_lookup_imap.
      assert (Ep : k_procs k1 = k_procs k) by (by destruct s). unfold k1 in Ep. rewrite Ep, Hp. simpl. f_equal. unfold wake.
      rewrite decide_False by congruence. by rewrite !bool_decide_true.
  - intros Hl. destruct (acquiresleep_wait k me pid s lk i c T Hf Hs OC Hme Hn Hl) as (k' & r & ln & pn & E & ->).
    eexists _, r. split; [exact E|]. split.
    + exists ln. simpl. by rewrite lookup_insert_eq.
    + destruct T as [[_ _ Hpid _] _]. destruct (k_procs k !! me) as [p|] eqn:Ep; [|done].
      eexists. split; [|split].
      * unfold asleep, alter_proc, set_procs, k_procs in *. simpl. by rewrite list_lookup_alter_eq, Ep.
      * done.
      * done.
Qed.

(** Process 3 waits for no one: buffer 2 is free, buffer 4 is held by process 8. *)
Definition sleeplock_sample : kernel :=
  set_k_locks (<[LBuf 4 := mkSpinlock 0 "sleep lock" None]>
                (<[LBuf 2 := mkSpinlock 0 "sleep lock" None]> proc_locks))
    (alter_buf 4 (set_b_lock (mkSleeplock 1 "buffer" 8)) proc_sample).

Lemma sleeplock_sample_thread : thread sleeplock_sample 3 0.
Proof.
  apply (thread_intro _ 3 0 0 (mkCpu (Some 3%nat) no_context 0 0)); [by split|done|done|done|done|].
  intros j Hj. exists "proc". unfold sleeplock_sample, set_k_locks. cbn [k_locks]. rewrite !lookup_insert_ne by done. by apply proc_locks_lookup.
Qed.

Lemma sleeplock_correct_witness :
  (exists k1, acquiresleep (SBuf 2) sleeplock_sample = Ret tt k1 /\ holdingsleep (SBuf 2) k1 = Ret true (relax k1)) /\
  (exists k' r, acquiresleep (SBuf 4) sleeplock_sample = Switch k' r).
Proof.
  split.
  - destruct (sleeplock_correct sleeplock_sample 3 0 (SBuf 2) (b_lock no_buf) 0 (mkCpu (Some 3%nat) no_context 0 0)
                sleeplock_sample_thread) as [H _].
    + by exists "sleep lock".
    + reflexivity.
    + by split.
    + reflexivity.
    + reflexivity.
    + destruct (H eq_refl) as (k1 & k2 & E1 & _ & E2 & _). exists k1. split; [exact E1|exact E2].
  - destruct (sleeplock_correct sleeplock_sample 3 0 (SBuf 4) (mkSleeplock 1 "buffer" 8) 0
                (mkCpu (Some 3%nat) no_context 0 0) sleeplock_sample_thread) as [_ H].
    + by exists "sleep lock".
    + reflexivity.
    + by split.
    + reflexivity.
    + reflexivity.
    + destruct H as (k' & r & E & _); [discriminate|]. exists k', r. exact E.
Defined.
