(* ===== verification/Virtio.v ===== *)
(** kernel/virtio_disk.c and kernel/virtio.h: the driver of the virtio disk.

    The driver shares three pages with the device: descriptors, the ring of available requests
    and the ring of used ones.  The device itself is a parameter, the class
    [VirtioDevice]. *)

From Stdlib Require Import ZArith Lia.
From stdpp Require Import base gmap list_numbers strings numbers list.
From S2P Require Import Prelude Mem Riscv Kernel Spinlock Kalloc Vm Printf Sched Sleeplock.

Open Scope Z_scope.

Definition BSIZE : Z := 1024.

(** Block [bno] of the disk. *)
Definition disk_block (d : disk) (bno : Z) : list Z :=
  default (replicate (Z.to_nat BSIZE) 0) (dk_blocks d !! bno).

Definition disk_write (bno : Z) (data : list Z) (d : disk) : disk :=
  mkDisk (<[bno := data]> (dk_blocks d)) (dk_writes d ++ [(bno, data)]).

(** * kernel/virtio.h *)

Definition VIRTIO_MMIO_MAGIC_VALUE : Z := 0x000.
Definition VIRTIO_MMIO_VERSION : Z := 0x004.
Definition VIRTIO_MMIO_DEVICE_ID : Z := 0x008.
Definition VIRTIO_MMIO_VENDOR_ID : Z := 0x00c.
Definition VIRTIO_MMIO_DEVICE_FEATURES : Z := 0x010.
Definition VIRTIO_MMIO_DRIVER_FEATURES : Z := 0x020.
Definition VIRTIO_MMIO_QUEUE_SEL : Z := 0x030.
Definition VIRTIO_MMIO_QUEUE_NUM_MAX : Z := 0x034.
Definition VIRTIO_MMIO_QUEUE_NUM : Z := 0x038.
Definition VIRTIO_MMIO_QUEUE_READY : Z := 0x044.
Definition VIRTIO_MMIO_QUEUE_NOTIFY : Z := 0x050.
Definition VIRTIO_MMIO_INTERRUPT_STATUS : Z := 0x060.
Definition VIRTIO_MMIO_INTERRUPT_ACK : Z := 0x064.
Definition VIRTIO_MMIO_STATUS : Z := 0x070.
Definition VIRTIO_MMIO_QUEUE_DESC_LOW : Z := 0x080.
Definition VIRTIO_MMIO_QUEUE_DESC_HIGH : Z := 0x084.
Definition VIRTIO_MMIO_DRIVER_DESC_LOW : Z := 0x090.
Definition VIRTIO_MMIO_DRIVER_DESC_HIGH : Z := 0x094.
Definition VIRTIO_MMIO_DEVICE_DESC_LOW : Z := 0x0a0.
Definition VIRTIO_MMIO_DEVICE_DESC_HIGH : Z := 0x0a4.

Definition VIRTIO_CONFIG_S_ACKNOWLEDGE : Z := 1.
Definition VIRTIO_CONFIG_S_DRIVER : Z := 2.
Definition VIRTIO_CONFIG_S_DRIVER_OK : Z := 4.
Definition VIRTIO_CONFIG_S_FEATURES_OK : Z := 8.

Definition VIRTIO_BLK_F_RO : Z := 5.
Definition VIRTIO_BLK_F_SCSI : Z := 7.
Definition VIRTIO_BLK_F_CONFIG_WCE : Z := 11.
Definition VIRTIO_BLK_F_MQ : Z := 12.
Definition VIRTIO_F_ANY_LAYOUT : Z := 27.
Definition VIRTIO_RING_F_INDIRECT_DESC : Z := 28.
Definition VIRTIO_RING_F_EVENT_IDX : Z := 29.

Definition NUM : Z := 8.
Definition VRING_DESC_F_NEXT : Z := 1.
Definition VRING_DESC_F_WRITE : Z := 2.
Definition VIRTIO_BLK_T_IN : Z := 0.
Definition VIRTIO_BLK_T_OUT : Z := 1.

(** sizeof(struct virtio_blk_req) *)
Definition blk_req_size : Z := 16.

(** * The device

    [mmio_read r k]: what a read of register [r] gives; [serve k k']: the device has worked off
    the available requests of [k], by direct access to memory, which gives [k']. *)
Class VirtioDevice := {
  mmio_read : Z -> kernel -> Z;
  serve : kernel -> kernel -> Prop;
}.

Section Virtio.
Context `{VirtioDevice}.

Definition upd_vdisk (f : vdisk -> vdisk) : K unit := modify (fun k => set_k_vdisk (f (k_vdisk k)) k).

(** *R(r), and the assignment to it. *)
Definition read_reg (r : Z) : K Z := gets (fun k => u32 (mmio_read r k)).
Definition write_reg (r v : Z) : K unit := upd_vdisk (fun d => set_vd_mmio (vd_mmio d ++ [(r, u32 v)]) d).

(** features &= ~(1 << bit) *)
Definition clear_feature (features bit : Z) : Z := Z.land features (u64 (Z.lnot (Z.shiftl 1 bit))).

(** The last part of virtio_disk_init(): the memory of the queue is cleared and made known to the device. *)
Definition init_pages (status desc avail used : Z) : K unit :=
  if (desc =? 0) || (avail =? 0) || (used =? 0) then panic "virtio disk kalloc" else
  do! kmemset desc 0 PGSIZE;
  do! upd_vdisk (set_vd_desc (replicate (Z.to_nat NUM) no_desc));
  do! kmemset avail 0 PGSIZE;
  do! upd_vdisk (set_vd_avail (mkVirtqAvail 0 0 (replicate (Z.to_nat NUM) 0) 0));
  do! kmemset used 0 PGSIZE;
  do! upd_vdisk (set_vd_used (mkVirtqUsed 0 0 (replicate (Z.to_nat NUM) (mkUsedElem 0 0))));
  do! write_reg VIRTIO_MMIO_QUEUE_NUM NUM;
  do! write_reg VIRTIO_MMIO_QUEUE_DESC_LOW desc;
  do! write_reg VIRTIO_MMIO_QUEUE_DESC_HIGH (Z.shiftr desc 32);
  do! write_reg VIRTIO_MMIO_DRIVER_DESC_LOW avail;
  do! write_reg VIRTIO_MMIO_DRIVER_DESC_HIGH (Z.shiftr avail 32);
  do! write_reg VIRTIO_MMIO_DEVICE_DESC_LOW used;
  do! write_reg VIRTIO_MMIO_DEVICE_DESC_HIGH (Z.shiftr used 32);
  do! write_reg VIRTIO_MMIO_QUEUE_READY 1;
  do! each (seq 0 (Z.to_nat NUM)) (fun i => upd_vdisk (fun d => set_vd_free (<[i := 1]> (vd_free d)) d));
  let status := Z.lor status VIRTIO_CONFIG_S_DRIVER_OK in
  write_reg VIRTIO_MMIO_STATUS status.

(** disk.desc = kalloc(); disk.avail = kalloc(); disk.used = kalloc(); and on. *)
Definition init_queue (status : Z) : K unit :=
  let! desc := kalloc in
  do! upd_vdisk (set_vd_desc_pa desc);
  let! avail := kalloc in
  do! upd_vdisk (set_vd_avail_pa avail);
  let! used := kalloc in
  do! upd_vdisk (set_vd_used_pa used);
  init_pages status desc avail used.

Definition virtio_disk_init : K unit :=
  let status := 0 in
  do! initlock LVdisk "virtio_disk";
  let! magic := read_reg VIRTIO_MMIO_MAGIC_VALUE in
  let! version := read_reg VIRTIO_MMIO_VERSION in
  let! device := read_reg VIRTIO_MMIO_DEVICE_ID in
  let! vendor := read_reg VIRTIO_MMIO_VENDOR_ID in
  if negb (magic =? 0x74726976) || negb (version =? 2) || negb (device =? 2) || negb (vendor =? 0x554d4551)
  then panic "could not find virtio disk" else
  do! write_reg VIRTIO_MMIO_STATUS status;
  let status := Z.lor status VIRTIO_CONFIG_S_ACKNOWLEDGE in
  do! write_reg VIRTIO_MMIO_STATUS status;
  let status := Z.lor status VIRTIO_CONFIG_S_DRIVER in
  do! write_reg VIRTIO_MMIO_STATUS status;
  let! features := read_reg VIRTIO_MMIO_DEVICE_FEATURES in
  let features := clear_feature features VIRTIO_BLK_F_RO in
  let features := clear_feature features VIRTIO_BLK_F_SCSI in
  let features := clear_feature features VIRTIO_BLK_F_CONFIG_WCE in
  let features := clear_feature features VIRTIO_BLK_F_MQ in
  let features := clear_feature features VIRTIO_F_ANY_LAYOUT in
  let features := clear_feature features VIRTIO_RING_F_EVENT_IDX in
  let features := clear_feature features VIRTIO_RING_F_INDIRECT_DESC in
  do! write_reg VIRTIO_MMIO_DRIVER_FEATURES features;
  let status := Z.lor status VIRTIO_CONFIG_S_FEATURES_OK in
  do! write_reg VIRTIO_MMIO_STATUS status;
  let! status := read_reg VIRTIO_MMIO_STATUS in
  if Z.land status VIRTIO_CONFIG_S_FEATURES_OK =? 0 then panic "virtio disk FEATURES_OK unset" else
  do! write_reg VIRTIO_MMIO_QUEUE_SEL 0;
  let! ready := read_reg VIRTIO_MMIO_QUEUE_READY in
  if negb (ready =? 0) then panic "virtio disk should not be ready" else
  let! max := read_reg VIRTIO_MMIO_QUEUE_NUM_MAX in
  if max =? 0 then panic "virtio disk has no queue 0" else
  if max <? NUM then panic "virtio disk max queue too short" else
  init_queue status.

(** * Descriptors *)

(** a[i] *)
Definition at_idx {A : Type} (why : string) (l : list A) (i : Z) : K A :=
  if 0 <=? i then need why (l !! Z.to_nat i) else fault why.

(** for(int i = 0; i < NUM; i++), from [i] on *)
Fixpoint alloc_desc_loop (n : nat) (i : Z) : K Z :=
  match n with
  | O => ret (-1)
  | S n =>
      let! d := gets k_vdisk in
      let! f := at_idx "disk.free[]" (vd_free d) i in
      if negb (f =? 0) then
        do! upd_vdisk (fun d => set_vd_free (<[Z.to_nat i := 0]> (vd_free d)) d);
        ret i
      else alloc_desc_loop n (i + 1)
  end.

Definition alloc_desc : K Z := alloc_desc_loop (Z.to_nat NUM) 0.

Definition get_desc (i : Z) : K virtq_desc :=
  let! d := gets k_vdisk in at_idx "disk.desc[]" (vd_desc d) i.

(** disk.desc[i].field = ... *)
Definition upd_desc (i : Z) (f : virtq_desc -> virtq_desc) : K unit :=
  let! x := get_desc i in
  upd_vdisk (fun d => set_vd_desc (<[Z.to_nat i := f x]> (vd_desc d)) d).

Definition free_desc (i : Z) : K unit :=
  if NUM <=? i then panic "free_desc 1" else
  let! d := gets k_vdisk in
  let! f := at_idx "disk.free[]" (vd_free d) i in
  if negb (f =? 0) then panic "free_desc 2" else
  do! upd_desc i (set_vd_addr DmaNull);
  do! upd_desc i (set_vd_len 0);
  do! upd_desc i (set_vd_flags 0);
  do! upd_desc i (set_vd_next 0);
  do! upd_vdisk (fun d => set_vd_free (<[Z.to_nat i := 1]> (vd_free d)) d);
  wakeup ChDiskFree.

(** while(1); every round frees a descriptor that was not free, so at most NUM
    of them return. *)
Fixpoint free_chain_loop (fuel : nat) (i : Z) : K unit :=
  match fuel with
  | O => nofuel
  | S f =>
      let! x := get_desc i in
      let flag := vd_flags x in
      let nxt := vd_next x in
      do! free_desc i;
      if negb (Z.land flag VRING_DESC_F_NEXT =? 0) then free_chain_loop f nxt else ret tt
  end.

Definition free_chain (i : Z) : K unit := free_chain_loop (S (Z.to_nat NUM)) i.

(** for(int i = 0; i < 3; i++), with the entries of idx[] so far. *)
Fixpoint alloc3_desc_loop (n : nat) (idx : list Z) : K (Z * list Z) :=
  match n with
  | O => ret (0, idx)
  | S n =>
      let! i := alloc_desc in
      if i <? 0 then
        do! each idx free_desc;
        ret (-1, idx)
      else alloc3_desc_loop n (idx ++ [i])
  end.

(** The result of the C function, and the array that it fills. *)
Definition alloc3_desc : K (Z * list Z) := alloc3_desc_loop 3 [].

(** while(1){ if(alloc3_desc(idx) == 0) break; sleep(&disk.free[0], &disk.vdisk_lock); } *)
Fixpoint rw_alloc (fuel : nat) : K (list Z) :=
  match fuel with
  | O => nofuel
  | S f =>
      let! '(r, idx) := alloc3_desc in
      if r =? 0 then ret idx else
      do! sleep ChDiskFree LVdisk;
      rw_alloc f
  end.

(** while(b->disk == 1) sleep(b, &disk.vdisk_lock); *)
Fixpoint rw_wait (fuel : nat) (b : nat) : K unit :=
  match fuel with
  | O => nofuel
  | S f =>
      let! x := get_buf b in
      if b_disk x =? 1 then do! sleep (ChBuf b) LVdisk; rw_wait f b else ret tt
  end.

(** disk.ops[i] = ..., disk.info[i] = ... *)
Definition upd_ops (i : Z) (f : virtio_blk_req -> virtio_blk_req) : K unit :=
  let! d := gets k_vdisk in
  let! x := at_idx "disk.ops[]" (vd_ops d) i in
  upd_vdisk (fun d => set_vd_ops (<[Z.to_nat i := f x]> (vd_ops d)) d).
Definition upd_info (i : Z) (f : disk_info -> disk_info) : K unit :=
  let! d := gets k_vdisk in
  let! x := at_idx "disk.info[]" (vd_info d) i in
  upd_vdisk (fun d => set_vd_info (<[Z.to_nat i := f x]> (vd_info d)) d).

(** From the request header to the status descriptor. *)
Definition format_request (b : nat) (write : bool) (sector i0 i1 i2 : Z) : K unit :=
  do! upd_ops i0 (set_rq_type (if write then VIRTIO_BLK_T_OUT else VIRTIO_BLK_T_IN));
  do! upd_ops i0 (set_rq_reserved 0);
  do! upd_ops i0 (set_rq_sector sector);
  do! upd_desc i0 (set_vd_addr (DmaReq (Z.to_nat i0)));
  do! upd_desc i0 (set_vd_len blk_req_size);
  do! upd_desc i0 (set_vd_flags VRING_DESC_F_NEXT);
  do! upd_desc i0 (set_vd_next (u16 i1));
  do! upd_desc i1 (set_vd_addr (DmaData b));
  do! upd_desc i1 (set_vd_len BSIZE);
  do! upd_desc i1 (set_vd_flags (if write then 0 else VRING_DESC_F_WRITE));
  do! upd_desc i1 (fun x => set_vd_flags (Z.lor (vd_flags x) VRING_DESC_F_NEXT) x);
  do! upd_desc i1 (set_vd_next (u16 i2));
  do! upd_info i0 (set_di_status 0xff);
  do! upd_desc i2 (set_vd_addr (DmaStatus (Z.to_nat i0)));
  do! upd_desc i2 (set_vd_len 1);
  do! upd_desc i2 (set_vd_flags VRING_DESC_F_WRITE);
  upd_desc i2 (set_vd_next 0).

(** disk.avail->ring[disk.avail->idx % NUM] = idx[0]; disk.avail->idx += 1; and the
    notification. *)
Definition submit (i0 : Z) : K unit :=
  do! upd_vdisk (fun d => set_vd_avail
        (set_va_ring (<[Z.to_nat (va_idx (vd_avail d) mod NUM) := u16 i0]> (va_ring (vd_avail d))) (vd_avail d)) d);
  do! upd_vdisk (fun d => set_vd_avail (set_va_idx (u16 (va_idx (vd_avail d) + 1)) (vd_avail d)) d);
  write_reg VIRTIO_MMIO_QUEUE_NOTIFY 0.

Definition virtio_disk_rw (b : nat) (write : bool) : K unit :=
  let! x := get_buf b in
  let sector := u32 (b_blockno x * (BSIZE / 512)) in
  do! acquire LVdisk;
  let! idx := rw_alloc sleep_rounds in
  let! i0 := at_idx "idx[]" idx 0 in
  let! i1 := at_idx "idx[]" idx 1 in
  let! i2 := at_idx "idx[]" idx 2 in
  do! format_request b write sector i0 i1 i2;
  do! upd_buf b (set_b_disk 1);
  do! upd_info i0 (set_di_b (Some b));
  do! submit i0;
  do! rw_wait sleep_rounds b;
  do! upd_info i0 (set_di_b None);
  do! free_chain i0;
  release LVdisk.

(** while(disk.used_idx != disk.used->idx); the counters are 16 bits wide. *)
Fixpoint intr_loop (fuel : nat) : K unit :=
  match fuel with
  | O => nofuel
  | S f =>
      let! d := gets k_vdisk in
      if vd_used_idx d =? vu_idx (vd_used d) then ret tt else
      let! e := at_idx "disk.used->ring[]" (vu_ring (vd_used d)) (vd_used_idx d mod NUM) in
      let id := i32 (ue_id e) in
      let! info := at_idx "disk.info[]" (vd_info d) id in
      if negb (di_status info =? 0) then panic "virtio_disk_intr status" else
      let! b := need "b" (di_b info) in
      do! upd_buf b (set_b_disk 0);
      do! wakeup (ChBuf b);
      do! upd_vdisk (fun d => set_vd_used_idx (u16 (vd_used_idx d + 1)) d);
      intr_loop f
  end.

Definition virtio_disk_intr : K unit :=
  do! acquire LVdisk;
  let! s := read_reg VIRTIO_MMIO_INTERRUPT_STATUS in
  do! write_reg VIRTIO_MMIO_INTERRUPT_ACK (Z.land s 3);
  let! d := gets k_vdisk in
  do! intr_loop (S (Z.to_nat (u16 (vu_idx (vd_used d) - vd_used_idx d))));
  release LVdisk.
End Virtio.

(** * The driver between requests *)

(** The device knows the queue and has been told to go on. *)
Definition configured (d : vdisk) : Prop :=
  (VIRTIO_MMIO_QUEUE_NUM, NUM) ∈ vd_mmio d /\
  (VIRTIO_MMIO_QUEUE_DESC_LOW, u32 (vd_desc_pa d)) ∈ vd_mmio d /\
  (VIRTIO_MMIO_DRIVER_DESC_LOW, u32 (vd_avail_pa d)) ∈ vd_mmio d /\
  (VIRTIO_MMIO_DEVICE_DESC_LOW, u32 (vd_used_pa d)) ∈ vd_mmio d /\
  (VIRTIO_MMIO_QUEUE_READY, 1) ∈ vd_mmio d.

(** All descriptors are free and every request has been seen to its end. *)
Record vd_idle (d : vdisk) : Prop := {
  vi_desc : length (vd_desc d) = Z.to_nat NUM;
  vi_ring : length (va_ring (vd_avail d)) = Z.to_nat NUM;
  vi_used : length (vu_ring (vd_used d)) = Z.to_nat NUM;
  vi_free : vd_free d = replicate (Z.to_nat NUM) 1;
  vi_info : length (vd_info d) = Z.to_nat NUM;
  vi_ops : length (vd_ops d) = Z.to_nat NUM;
  vi_idx : va_idx (vd_avail d) = vu_idx (vd_used d);
  vi_seen : vd_used_idx d = vu_idx (vd_used d);
  vi_range : 0 <= vd_used_idx d < 2 ^ 16;
  vi_config : configured d;
}.

Definition disk_ready (k : kernel) : Prop := lock_free k LVdisk /\ vd_idle (k_vdisk k).

(** * What the device promises (the virtio specification, section 5.2) *)

(** The request that the chain of descriptors from [head] describes: its header, the buffer
    for the data, whether the device writes that buffer, and the place of the status. *)
Definition chain (d : vdisk) (head : Z) : option (virtio_blk_req * nat * bool * nat) :=
  match vd_desc d !! Z.to_nat head with
  | Some (mkVirtqDesc (DmaReq j) l0 f0 n0) =>
      match vd_desc d !! Z.to_nat n0 with
      | Some (mkVirtqDesc (DmaData b) l1 f1 n1) =>
          match vd_desc d !! Z.to_nat n1, vd_ops d !! j with
          | Some (mkVirtqDesc (DmaStatus s) l2 f2 _), Some req =>
              if (l0 =? blk_req_size) && (l1 =? BSIZE) && (l2 =? 1) &&
                 (f0 =? VRING_DESC_F_NEXT) && (Z.land f1 VRING_DESC_F_NEXT =? VRING_DESC_F_NEXT) && (f2 =? VRING_DESC_F_WRITE)
              then Some (req, b, negb (Z.land f1 VRING_DESC_F_WRITE =? 0), s)
              else None
          | _, _ => None
          end
      | _ => None
      end
  | _ => None
  end.

(** One request is available, and the device has been notified. *)
Record pending (d : vdisk) (head : Z) : Prop := {
  pe_config : configured d;
  pe_idx : va_idx (vd_avail d) = u16 (vu_idx (vd_used d) + 1);
  pe_ring : va_ring (vd_avail d) !! Z.to_nat (vu_idx (vd_used d) mod NUM) = Some head;
  pe_notify : last (vd_mmio d) = Some (VIRTIO_MMIO_QUEUE_NOTIFY, 0);
}.

(** What the driver sees of a request that the device has carried out: status 0, and an entry of the used ring
    (the length in it is not used). *)
Definition finish (head : Z) (s : nat) (len : Z) (d : vdisk) : vdisk :=
  let u := vd_used d in
  set_vd_info (alter (set_di_status 0) s (vd_info d))
    (set_vd_used (mkVirtqUsed (vu_flags u) (u16 (vu_idx u + 1))
       (<[Z.to_nat (vu_idx u mod NUM) := mkUsedElem head len]> (vu_ring u))) d).

Definition alter_data (b : nat) (data : list Z) (k : kernel) : kernel :=
  set_k_bcache (set_bc_buf (alter (set_b_data data) b (bc_buf (k_bcache k))) (k_bcache k)) k.

(** A device that has a request for one block carries it out: it reads the data of a write from the buffer, puts
    the data of a read into it, and touches nothing else but the status and the used ring.  A sector has
    512 bytes. *)
Class VirtioLaws `{VirtioDevice} : Prop := {
  serve_in : forall k head req b s,
    pending (k_vdisk k) head -> chain (k_vdisk k) head = Some (req, b, true, s) ->
    rq_type req = VIRTIO_BLK_T_IN -> rq_sector req mod 2 = 0 ->
    (exists k', serve k k') /\
    forall k', serve k k' -> exists len,
      k' = set_k_vdisk (finish head s len (k_vdisk k)) (alter_data b (disk_block (k_disk k) (rq_sector req / 2)) k);
  serve_out : forall k head req b s x,
    pending (k_vdisk k) head -> chain (k_vdisk k) head = Some (req, b, false, s) -> bc_buf (k_bcache k) !! b = Some x ->
    rq_type req = VIRTIO_BLK_T_OUT -> rq_sector req mod 2 = 0 ->
    (exists k', serve k k') /\
    forall k', serve k k' -> exists len,
      k' = set_k_vdisk (finish head s len (k_vdisk k)) (set_k_disk (disk_write (rq_sector req / 2) (b_data x) (k_disk k)) k);
}.
