(* ===== verification/Bio.v ===== *)
(** kernel/bio.c: the buffer cache, a fixed set of buffers on a doubly linked
    list in order of last use. *)

From Stdlib Require Import ZArith Lia.
From stdpp Require Import base gmap list_numbers strings numbers list.
From S2P Require Import Prelude Mem Riscv Kernel Spinlock Kalloc Vm Printf Sched Sleeplock Virtio.

Open Scope Z_scope.

(** What the kernel uses of the disk driver: virtio_disk_rw(b, write) exchanges the data of
    buffer [b] with its block on the disk; the trap handler calls virtio_disk_intr(), main()
    virtio_disk_init(). *)
Class BlockDevice := {
  disk_rw : nat -> bool -> K unit;
  disk_intr : K unit;
  disk_init : K unit;
}.

Section Bio.
Context `{BlockDevice}.

Definition upd_bcache (f : bcache -> bcache) : K unit :=
  modify (fun k => set_k_bcache (f (k_bcache k)) k).

(** b->next, b->prev and their assignment, where [None] is &bcache.head. *)
Definition next_of (b : option nat) : K (option nat) :=
  match b with
  | None => gets (fun k => bc_head_next (k_bcache k))
  | Some i => let! x := get_buf i in ret (b_next x)
  end.
Definition prev_of (b : option nat) : K (option nat) :=
  match b with
  | None => gets (fun k => bc_head_prev (k_bcache k))
  | Some i => let! x := get_buf i in ret (b_prev x)
  end.
Definition set_next (b v : option nat) : K unit :=
  match b with
  | None => upd_bcache (set_bc_head_next v)
  | Some i => upd_buf i (set_b_next v)
  end.
Definition set_prev (b v : option nat) : K unit :=
  match b with
  | None => upd_bcache (set_bc_head_prev v)
  | Some i => upd_buf i (set_b_prev v)
  end.

(** b->next = bcache.head.next; b->prev = &bcache.head;
    bcache.head.next->prev = b; bcache.head.next = b; *)
Definition push_front (b : nat) : K unit :=
  let! h := next_of None in
  do! set_next (Some b) h;
  do! set_prev (Some b) None;
  let! h := next_of None in
  do! set_prev h (Some b);
  set_next None (Some b).

Definition binit : K unit :=
  do! initlock LBcache "bcache";
  do! set_prev None None;
  do! set_next None None;
  each (seq 0 (Z.to_nat NBUF)) (fun b =>
    let! h := next_of None in
    do! set_next (Some b) h;
    do! set_prev (Some b) None;
    do! initsleeplock (SBuf b) "buffer";
    let! h := next_of None in
    do! set_prev h (Some b);
    set_next None (Some b)).

(** for(b = bcache.head.next; b != &bcache.head; b = b->next) *)
Fixpoint bget_cached (fuel : nat) (b : option nat) (dev blockno : Z) : K (option nat) :=
  match fuel with
  | O => nofuel
  | S f =>
      match b with
      | None => ret None
      | Some i =>
          let! x := get_buf i in
          if (b_dev x =? dev) && (b_blockno x =? blockno) then ret (Some i)
          else bget_cached f (b_next x) dev blockno
      end
  end.

(** for(b = bcache.head.prev; b != &bcache.head; b = b->prev) *)
Fixpoint bget_unused (fuel : nat) (b : option nat) : K (option nat) :=
  match fuel with
  | O => nofuel
  | S f =>
      match b with
      | None => ret None
      | Some i =>
          let! x := get_buf i in
          if b_refcnt x =? 0 then ret (Some i) else bget_unused f (b_prev x)
      end
  end.

(** The list has NBUF elements. *)
Definition list_fuel : nat := S (Z.to_nat NBUF).

Definition bget (dev blockno : Z) : K nat :=
  do! acquire LBcache;
  let! first := next_of None in
  let! hit := bget_cached list_fuel first dev blockno in
  match hit with
  | Some b =>
      do! upd_buf b (fun x => set_b_refcnt (u32 (b_refcnt x + 1)) x);
      do! release LBcache;
      do! acquiresleep (SBuf b);
      ret b
  | None =>
      let! last := prev_of None in
      let! free := bget_unused list_fuel last in
      match free with
      | Some b =>
          do! upd_buf b (set_b_dev dev);
          do! upd_buf b (set_b_blockno blockno);
          do! upd_buf b (set_b_valid 0);
          do! upd_buf b (set_b_refcnt 1);
          do! release LBcache;
          do! acquiresleep (SBuf b);
          ret b
      | None => panic "bget: no buffers"
      end
  end.

Definition bread (dev blockno : Z) : K nat :=
  let! b := bget dev blockno in
  let! x := get_buf b in
  do! when (b_valid x =? 0)
        (do! disk_rw b false; upd_buf b (set_b_valid 1));
  ret b.

Definition bwrite (b : nat) : K unit :=
  let! h := holdingsleep (SBuf b) in
  if negb h then panic "bwrite" else
  disk_rw b true.

Definition brelse (b : nat) : K unit :=
  let! h := holdingsleep (SBuf b) in
  if negb h then panic "brelse" else
  do! releasesleep (SBuf b);
  do! acquire LBcache;
  do! upd_buf b (fun x => set_b_refcnt (u32 (b_refcnt x - 1)) x);
  let! x := get_buf b in
  do! when (b_refcnt x =? 0)
        (let! n := next_of (Some b) in
         let! p := prev_of (Some b) in
         do! set_prev n p;
         let! p := prev_of (Some b) in
         let! n := next_of (Some b) in
         do! set_next p n;
         push_front b);
  release LBcache.

Definition bpin (b : nat) : K unit :=
  do! acquire LBcache;
  do! upd_buf b (fun x => set_b_refcnt (u32 (b_refcnt x + 1)) x);
  release LBcache.

Definition bunpin (b : nat) : K unit :=
  do! acquire LBcache;
  do! upd_buf b (fun x => set_b_refcnt (u32 (b_refcnt x - 1)) x);
  release LBcache.

End Bio.
