(* ===== verification/BioSpec.v ===== *)
(** The buffer list of kernel/bio.c: it stays a doubly linked ring in order of
    last use; bget() finds the buffer of the block or the least recently used
    unused one; brelse() makes a buffer that is no longer used the most
    recently used one. *)

From Stdlib Require Import ZArith Lia.
From stdpp Require Import base gmap list_numbers strings numbers functions list.
From S2P Require Import Prelude Mem Riscv Kernel Spinlock Kalloc Vm Printf Sched SchedSpec Thread.
From S2P Require Import Sleeplock SleeplockSpec Virtio Bio.

Open Scope Z_scope.

Implicit Types (k : kernel).

Lemma list_alter_at {A} (f : A -> A) (l : list A) i x : l !! i = Some x -> alter f i l = <[i := f x]> l.
Proof.
  intros E. apply list_eq. intros j. destruct (decide (i = j)) as [<-|Hne].
  - rewrite list_lookup_alter_eq, E. symmetry. by eapply list_lookup_insert_eq, lookup_lt_Some.
  - by rewrite list_lookup_alter_ne, list_lookup_insert_ne.
Qed.

(** * Doubly linked rings

    [seg nx pv x l y]: the links lead from [x] through the buffers of [l] to [y],
    and back.  [None] is the list head. *)
Fixpoint seg (nx pv : option nat -> option nat) (x : option nat) (l : list nat) (y : option nat) : Prop :=
  match l with
  | [] => nx x = y /\ pv y = x
  | i :: l' => nx x = Some i /\ pv (Some i) = x /\ seg nx pv (Some i) l' y
  end.

Lemma seg_app nx pv l1 b l2 : forall x y,
  seg nx pv x (l1 ++ b :: l2) y <-> seg nx pv x l1 (Some b) /\ seg nx pv (Some b) l2 y.
Proof. induction l1 as [|i l1 IH]; intros x y; simpl; [tauto|]. rewrite IH. tauto. Qed.

Lemma seg_frame nx pv nx' pv' l : forall x y,
  (forall z, z = x \/ z ∈ Some <$> l -> nx' z = nx z) ->
  (forall z, z = y \/ z ∈ Some <$> l -> pv' z = pv z) ->
  seg nx pv x l y -> seg nx' pv' x l y.
Proof.
  induction l as [|i l IH]; intros x y Hn Hp; simpl.
  - rewrite Hn, Hp by auto. done.
  - intros (E1 & E2 & E3). rewrite Hn, Hp by (auto; set_solver). split_and!; try done.
    apply IH; [intros z Hz; apply Hn; set_solver|intros z Hz; apply Hp; set_solver|done].
Qed.

(** The ring of the list [l]. *)
Definition ring (nx pv : option nat -> option nat) (l : list nat) : Prop := seg nx pv None l None.

Lemma elem_Some (i : nat) (l : list nat) : Some i ∈ Some <$> l <-> i ∈ l.
Proof. rewrite list_elem_of_fmap. naive_solver. Qed.

Lemma None_Some (l : list nat) : None ∉ Some <$> l.
Proof. rewrite list_elem_of_fmap. naive_solver. Qed.

(** Solves the side conditions of [seg_frame] for updated links. *)
Ltac ring_frame :=
  let z := fresh "z" in let Hz := fresh "Hz" in
  intros z Hz; rewrite ?fn_lookup_insert_ne; try done;
  intros <-; rewrite ?elem_Some in Hz; 
    (destruct Hz as [Hz|Hz]; [naive_solver|first [by apply None_Some in Hz|naive_solver]]).

Lemma ring_unlink nx pv l1 b l2 :
  NoDup (l1 ++ b :: l2) -> ring nx pv (l1 ++ b :: l2) ->
  ring (<[pv (Some b) := nx (Some b)]> nx) (<[nx (Some b) := pv (Some b)]> pv) (l1 ++ l2).
Proof.
  unfold ring. intros Hnd [H1 H2]%seg_app.
  destruct l2 as [|c l2]; destruct l1 as [|a l1 _] using rev_ind; simpl in *.
  - destruct H1 as [E1 E2], H2 as [E3 E4]. rewrite E2, E3. by rewrite !fn_lookup_insert.
  - apply seg_app in H1 as [H1 [E1 E2]]. destruct H2 as [E3 E4]. rewrite E2, E3, app_nil_r.
    apply seg_app. simpl. rewrite !fn_lookup_insert. split; [|done]. revert H1.
    rewrite <- app_assoc, NoDup_app in Hnd. destruct Hnd as (_ & Hd & _).
    assert (a ∉ l1) by set_solver. apply seg_frame; ring_frame.
  - destruct H1 as [E1 E2], H2 as (E3 & E4 & H2). rewrite E2, E3, !fn_lookup_insert. split_and!; try done.
    revert H2. rewrite !NoDup_cons in Hnd. destruct Hnd as (_ & Hc & _). apply seg_frame; ring_frame.
  - apply seg_app in H1 as [H1 [E1 E2]]. destruct H2 as (E3 & E4 & H2). rewrite E2, E3.
    rewrite <- app_assoc. apply seg_app. simpl. rewrite !fn_lookup_insert.
    rewrite <- app_assoc in Hnd. simpl in Hnd. apply NoDup_app in Hnd as (Hn1 & Hd & Hn2).
    rewrite !NoDup_cons in Hn2. destruct Hn2 as (Ha & Hb & Hc & Hn2).
    assert (a ∉ l1 /\ c ∉ l1 /\ a <> c /\ a ∉ l2) as (? & ? & ? & ?) by set_solver.
    split; [|split_and!; try done].
    + revert H1. apply seg_frame; ring_frame.
    + revert H2. apply seg_frame; ring_frame.
Qed.

Lemma ring_push nx pv b l :
  b ∉ l -> NoDup l -> ring nx pv l ->
  ring (<[None := Some b]> (<[Some b := nx None]> nx)) (<[nx None := Some b]> (<[Some b := None]> pv)) (b :: l).
Proof.
  unfold ring. intros Hb Hnd Hr. simpl. rewrite fn_lookup_insert. split; [done|].
  assert (Hne : nx None <> Some b).
  { destruct l as [|i l]; simpl in Hr; [destruct Hr as [-> _]; done|]. destruct Hr as (-> & _). set_solver. }
  rewrite (fn_lookup_insert_ne _ (nx None) (Some b)) by done. rewrite fn_lookup_insert. split; [done|].
  destruct l as [|i l]; simpl in *.
  - destruct Hr as [E1 E2]. rewrite E1. rewrite fn_lookup_insert_ne by done. by rewrite !fn_lookup_insert.
  - destruct Hr as (E1 & E2 & Hr). rewrite E1. rewrite fn_lookup_insert_ne by done. rewrite !fn_lookup_insert.
    split_and!; try done. assert (b <> i) by set_solver. assert (b ∉ l) by set_solver.
    apply NoDup_cons in Hnd as [Hi Hnd].
    revert Hr. apply seg_frame; ring_frame.
Qed.

(** * The links and the contents of the buffers *)

Definition nx (k : kernel) (x : option nat) : option nat :=
  match x with
  | None => bc_head_next (k_bcache k)
  | Some i => default None (b_next <$> k_bufs k !! i)
  end.
Definition pv (k : kernel) (x : option nat) : option nat :=
  match x with
  | None => bc_head_prev (k_bcache k)
  | Some i => default None (b_prev <$> k_bufs k !! i)
  end.
Definition set_nx (x v : option nat) (k : kernel) : kernel :=
  match x with
  | None => set_k_bcache (set_bc_head_next v (k_bcache k)) k
  | Some i => alter_buf i (set_b_next v) k
  end.
Definition set_pv (x v : option nat) (k : kernel) : kernel :=
  match x with
  | None => set_k_bcache (set_bc_head_prev v (k_bcache k)) k
  | Some i => alter_buf i (set_b_prev v) k
  end.

(** [x] is the list head or a buffer of the cache. *)
Definition known (k : kernel) (x : option nat) : Prop :=
  match x with None => True | Some i => (i < length (k_bufs k))%nat end.

(** The buffers without their links. *)
Definition nolinks (b : buf) : buf := set_b_next None (set_b_prev None b).
Definition view (k : kernel) : list buf := nolinks <$> k_bufs k.

Lemma view_lookup k i b : view k !! i = Some b <-> exists c, k_bufs k !! i = Some c /\ b = nolinks c.
Proof. unfold view. rewrite list_lookup_fmap_Some. naive_solver. Qed.

Lemma view_length k : length (view k) = length (k_bufs k).
Proof. apply length_fmap. Qed.

Lemma alter_buf_length i f k : length (k_bufs (alter_buf i f k)) = length (k_bufs k).
Proof. unfold alter_buf, k_bufs. simpl. apply length_alter. Qed.

Lemma next_of_run k x : known k x -> next_of x k = Ret (nx k x) k.
Proof.
  destruct x as [i|]; [|done]. intros [b Eb]%lookup_lt_is_Some. simpl.
  rewrite (bind_run _ _ _ _ _ (get_buf_run _ _ _ Eb)). by rewrite Eb.
Qed.

Lemma prev_of_run k x : known k x -> prev_of x k = Ret (pv k x) k.
Proof.
  destruct x as [i|]; [|done]. intros [b Eb]%lookup_lt_is_Some. simpl.
  rewrite (bind_run _ _ _ _ _ (get_buf_run _ _ _ Eb)). by rewrite Eb.
Qed.

Lemma set_next_run k x v : set_next x v k = Ret tt (set_nx x v k).
Proof. by destruct x. Qed.

Lemma set_prev_run k x v : set_prev x v k = Ret tt (set_pv x v k).
Proof. by destruct x. Qed.

Lemma known_set_nx k x v y : known (set_nx x v k) y <-> known k y.
Proof. destruct y; [|done]. destruct x; simpl; [by rewrite alter_buf_length|done]. Qed.

Lemma known_set_pv k x v y : known (set_pv x v k) y <-> known k y.
Proof. destruct y; [|done]. destruct x; simpl; [by rewrite alter_buf_length|done]. Qed.

Lemma nx_set_nx k x v y : known k x -> nx (set_nx x v k) y = (<[x := v]> (nx k)) y.
Proof.
  intros Hx. destruct (decide (x = y)) as [<-|Hne].
  - rewrite fn_lookup_insert. destruct x as [i|]; simpl; [|done].
    apply lookup_lt_is_Some in Hx as [b Eb]. by rewrite alter_buf_lookup, decide_True, Eb.
  - rewrite fn_lookup_insert_ne by done. destruct x as [i|], y as [j|]; simpl; try done.
    rewrite alter_buf_lookup, decide_False; congruence.
Qed.

Lemma pv_set_pv k x v y : known k x -> pv (set_pv x v k) y = (<[x := v]> (pv k)) y.
Proof.
  intros Hx. destruct (decide (x = y)) as [<-|Hne].
  - rewrite fn_lookup_insert. destruct x as [i|]; simpl; [|done].
    apply lookup_lt_is_Some in Hx as [b Eb]. by rewrite alter_buf_lookup, decide_True, Eb.
  - rewrite fn_lookup_insert_ne by done. destruct x as [i|], y as [j|]; simpl; try done.
    rewrite alter_buf_lookup, decide_False; congruence.
Qed.

Lemma pv_set_nx k x v y : pv (set_nx x v k) y = pv k y.
Proof.
  destruct x as [i|], y as [j|]; simpl; try done.
  rewrite alter_buf_lookup. case_decide; [|done]. by destruct (k_bufs k !! j).
Qed.

Lemma nx_set_pv k x v y : nx (set_pv x v k) y = nx k y.
Proof.
  destruct x as [i|], y as [j|]; simpl; try done.
  rewrite alter_buf_lookup. case_decide; [|done]. by destruct (k_bufs k !! j).
Qed.

Lemma view_alter i f k :
  (forall b, nolinks (f b) = f (nolinks b)) -> view (alter_buf i f k) = alter f i (view k).
Proof.
  intros Hf. unfold view, alter_buf, k_bufs. simpl. apply list_eq. intros j.
  rewrite list_lookup_fmap, !list_lookup_alter, !list_lookup_fmap. case_decide; [|done].
  destruct (_ !! _); simpl; [by rewrite Hf|done].
Qed.

Lemma view_alter_links i f k : (forall b, nolinks (f b) = nolinks b) -> view (alter_buf i f k) = view k.
Proof.
  intros Hf. unfold view, alter_buf, k_bufs. simpl. apply list_eq. intros j.
  rewrite !list_lookup_fmap, list_lookup_alter. case_decide; [subst|done].
  destruct (_ !! _); simpl; [by rewrite Hf|done].
Qed.

Lemma view_set_nx x v k : view (set_nx x v k) = view k.
Proof. destruct x; [|done]. by apply view_alter_links. Qed.

Lemma view_set_pv x v k : view (set_pv x v k) = view k.
Proof. destruct x; [|done]. by apply view_alter_links. Qed.

(** Fields other than the links leave the ring alone. *)
Definition keeps_links (f : buf -> buf) : Prop := forall b, b_next (f b) = b_next b /\ b_prev (f b) = b_prev b.

Lemma nx_alter k i f x : keeps_links f -> nx (alter_buf i f k) x = nx k x.
Proof.
  intros Hf. destruct x as [j|]; simpl; [|done]. rewrite alter_buf_lookup. case_decide; [|done].
  destruct (k_bufs k !! j) as [b|]; simpl; [|done]. apply Hf.
Qed.

Lemma pv_alter k i f x : keeps_links f -> pv (alter_buf i f k) x = pv k x.
Proof.
  intros Hf. destruct x as [j|]; simpl; [|done]. rewrite alter_buf_lookup. case_decide; [|done].
  destruct (k_bufs k !! j) as [b|]; simpl; [|done]. apply Hf.
Qed.

(** * The list operations of brelse() *)

Definition all_known (k : kernel) (l : list nat) : Prop := forall i, i ∈ l -> known k (Some i).

Lemma seg_next nx pv l : forall x y z,
  seg nx pv x l y -> z = x \/ z ∈ Some <$> l -> nx z = y \/ nx z ∈ Some <$> l.
Proof.
  induction l as [|i l IH]; intros x y z; simpl.
  - intros [E _] [->|Hz]; [by left|]. by apply not_elem_of_nil in Hz.
  - intros (E1 & E2 & E3) [->|Hz]; [rewrite E1; right; set_solver|].
    destruct (IH (Some i) y z E3) as [H|H]; [set_solver|by left|right; set_solver].
Qed.

Lemma seg_prev nx pv l : forall x y z,
  seg nx pv x l y -> z = y \/ z ∈ Some <$> l -> pv z = x \/ pv z ∈ Some <$> l.
Proof.
  induction l as [|i l IH]; intros x y z; simpl.
  - intros [_ E] [->|Hz]; [by left|]. by apply not_elem_of_nil in Hz.
  - intros (E1 & E2 & E3) Hz. destruct (decide (z = Some i)) as [->|Hne]; [by left|].
    destruct (IH (Some i) y z E3) as [H|H]; [set_solver|rewrite H; right; set_solver|right; set_solver].
Qed.

Lemma known_in k x l : all_known k l -> x = None \/ x ∈ Some <$> l -> known k x.
Proof. intros Hl [->|(i & -> & Hi)%list_elem_of_fmap]; [done|]. by apply Hl. Qed.

(** A step of a list operation: the links may change, nothing else. *)
Definition links_only (k k' : kernel) : Prop :=
  view k' = view k /\ k' = set_k_bcache (k_bcache k') k.

Lemma links_only_nx k x v : links_only k (set_nx x v k).
Proof. split; [apply view_set_nx|by destruct x, k]. Qed.

Lemma links_only_pv k x v : links_only k (set_pv x v k).
Proof. split; [apply view_set_pv|by destruct x, k]. Qed.

Lemma links_only_trans k1 k2 k3 : links_only k1 k2 -> links_only k2 k3 -> links_only k1 k3.
Proof. intros [E1 E2] [E3 E4]. split; [by rewrite E3|]. rewrite E4, E2 at 1. by destruct k1. Qed.

Lemma push_front_run k b l :
  b ∉ l -> NoDup l -> all_known k (b :: l) -> ring (nx k) (pv k) l ->
  exists k', push_front b k = Ret tt k' /\ ring (nx k') (pv k') (b :: l) /\ links_only k k'.
Proof.
  intros Hb Hnd Hk Hr. unfold push_front. rewrite (bind_run _ _ _ _ _ (next_of_run k None I)).
  set (h := nx k None). assert (Hh : known k h).
  { apply (known_in k h l); [intros i Hi; apply Hk; set_solver|]. apply (seg_next _ _ _ _ _ None Hr). by left. }
  assert (Hkb : known k (Some b)) by (apply Hk; set_solver).
  rewrite (bind_run _ _ _ _ _ (set_next_run _ _ _)), (bind_run _ _ _ _ _ (set_prev_run _ _ _)).
  set (k1 := set_nx (Some b) h k). set (k2 := set_pv (Some b) None k1).
  rewrite (bind_run _ _ _ _ _ (next_of_run k2 None I)).
  assert (Eh : nx k2 None = h) by done. rewrite Eh.
  rewrite (bind_run _ _ _ _ _ (set_prev_run _ _ _)), set_next_run.
  eexists. split; [done|]. split.
  - eapply seg_frame; [| |exact (ring_push _ _ b l Hb Hnd Hr)].
    + intros z _. rewrite nx_set_nx by done. unfold insert, fn_insert. rewrite nx_set_pv. unfold k2. rewrite nx_set_pv.
      unfold k1. rewrite nx_set_nx by done. done.
    + intros z _. rewrite pv_set_nx, pv_set_pv by (unfold k2, k1; by rewrite known_set_pv, known_set_nx).
      unfold insert, fn_insert. unfold k2. rewrite pv_set_pv by (unfold k1; by rewrite known_set_nx).
      unfold insert, fn_insert, k1. by rewrite pv_set_nx.
  - unfold k2, k1. eauto using links_only_trans, links_only_nx, links_only_pv.
Qed.

(** b->next->prev = b->prev; b->prev->next = b->next; *)
Lemma unlink_run {A} k b l1 l2 (rest : K A) :
  NoDup (l1 ++ b :: l2) -> all_known k (l1 ++ b :: l2) -> ring (nx k) (pv k) (l1 ++ b :: l2) ->
  exists k', (let! n := next_of (Some b) in
              let! p := prev_of (Some b) in
              do! set_prev n p;
              let! p := prev_of (Some b) in
              let! n := next_of (Some b) in
              do! set_next p n;
              rest) k = rest k' /\ ring (nx k') (pv k') (l1 ++ l2) /\ links_only k k'.
Proof.
  intros Hnd Hk Hr. assert (Hkb : known k (Some b)) by (apply Hk; set_solver).
  rewrite (bind_run _ _ _ _ _ (next_of_run k _ Hkb)), (bind_run _ _ _ _ _ (prev_of_run k _ Hkb)).
  set (n := nx k (Some b)). set (p := pv k (Some b)). rewrite (bind_run _ _ _ _ _ (set_prev_run _ _ _)).
  set (k1 := set_pv n p k). assert (Hkb1 : known k1 (Some b)) by (unfold k1; by rewrite known_set_pv).
  rewrite (bind_run _ _ _ _ _ (prev_of_run k1 _ Hkb1)), (bind_run _ _ _ _ _ (next_of_run k1 _ Hkb1)).
  assert (Hn : n = None \/ n ∈ Some <$> (l1 ++ b :: l2)).
  { apply (seg_next _ _ _ _ _ (Some b) Hr). right. rewrite elem_Some. set_solver. }
  assert (Hp : p = None \/ p ∈ Some <$> (l1 ++ b :: l2)).
  { apply (seg_prev _ _ _ _ _ (Some b) Hr). right. rewrite elem_Some. set_solver. }
  apply (known_in _ _ _ Hk) in Hn. apply (known_in _ _ _ Hk) in Hp.
  assert (Hnb : n <> Some b).
  { apply seg_app in Hr as [_ Hr]. apply NoDup_app in Hnd as (_ & _ & [Hb2 _]%NoDup_cons).
    destruct l2 as [|c l2]; cbn [seg] in Hr; destruct Hr as [E _]; unfold n; rewrite E; [done|set_solver]. }
  assert (Ep : pv k1 (Some b) = p) by (unfold k1; rewrite pv_set_pv, fn_lookup_insert_ne by done; done).
  assert (En : nx k1 (Some b) = n) by (unfold k1; by rewrite nx_set_pv).
  rewrite Ep, En. rewrite (bind_run _ _ _ _ _ (set_next_run _ _ _)). eexists. split; [done|]. split.
  - eapply seg_frame; [| |exact (ring_unlink _ _ l1 b l2 Hnd Hr)].
    + intros z _. rewrite nx_set_nx by (unfold k1; by rewrite known_set_pv). fold n p.
      unfold insert, fn_insert, k1. by rewrite nx_set_pv.
    + intros z _. rewrite pv_set_nx. unfold k1. by rewrite pv_set_pv.
  - unfold k1. eauto using links_only_trans, links_only_nx, links_only_pv.
Qed.

(** * The two scans of bget() *)

Definition holds_block (k : kernel) (dev bno : Z) (i : nat) : Prop :=
  exists b, k_bufs k !! i = Some b /\ b_dev b = dev /\ b_blockno b = bno.
Definition in_use (k : kernel) (i : nat) : Prop :=
  exists b, k_bufs k !! i = Some b /\ b_refcnt b <> 0.

Lemma bget_cached_run k dev bno l : forall fuel x,
  seg (nx k) (pv k) x l None -> all_known k l -> (length l < fuel)%nat ->
  exists r, bget_cached fuel (nx k x) dev bno k = Ret r k /\
    match r with
    | Some i => i ∈ l /\ holds_block k dev bno i
    | None => forall i, i ∈ l -> ~ holds_block k dev bno i
    end.
Proof.
  induction l as [|i l IH]; intros fuel x Hs Hk Hf; (destruct fuel as [|fuel]; [simpl in Hf; lia|]).
  - destruct Hs as [-> _]. exists None. split; [done|]. intros i Hi. by apply not_elem_of_nil in Hi.
  - destruct Hs as (-> & _ & Hs). cbn [bget_cached].
    destruct (proj2 (lookup_lt_is_Some (k_bufs k) i)) as [b Eb]; [apply Hk; set_solver|].
    rewrite (bind_run _ _ _ _ _ (get_buf_run _ _ _ Eb)).
    destruct (decide (b_dev b = dev /\ b_blockno b = bno)) as [[E1 E2]|Hne].
    + rewrite (proj2 (Z.eqb_eq _ _) E1), (proj2 (Z.eqb_eq _ _) E2). exists (Some i).
      split; [done|]. split; [set_solver|by exists b].
    + replace ((b_dev b =? dev) && (b_blockno b =? bno)) with false.
      2:{ symmetry. apply andb_false_iff. rewrite !Z.eqb_neq. destruct (decide (b_dev b = dev)); tauto. }
      replace (b_next b) with (nx k (Some i)) by (simpl; by rewrite Eb).
      destruct (IH fuel (Some i) Hs) as (r & Er & Hr); [intros j Hj; apply Hk; set_solver|simpl in Hf; lia|].
      exists r. split; [done|]. destruct r as [j|]; [split; [set_solver|]; apply Hr|].
      intros j [->|Hj]%elem_of_cons; [|by apply Hr]. intros (b' & Eb' & ?). simplify_eq. tauto.
Qed.

Lemma bget_unused_run k l : forall fuel y,
  seg (nx k) (pv k) None l y -> all_known k l -> (length l < fuel)%nat ->
  exists r, bget_unused fuel (pv k y) k = Ret r k /\
    match r with
    | Some i => ~ in_use k i /\ exists l1 l2, l = l1 ++ i :: l2 /\ forall j, j ∈ l2 -> in_use k j
    | None => forall i, i ∈ l -> in_use k i
    end.
Proof.
  induction l as [|i l IH] using rev_ind; intros fuel y Hs Hk Hf;
    rewrite ?length_app in Hf; (destruct fuel as [|fuel]; [simpl in Hf; lia|]).
  - destruct Hs as [_ ->]. exists None. split; [done|]. intros i Hi. by apply not_elem_of_nil in Hi.
  - apply seg_app in Hs as [Hs [_ Ey]]. rewrite Ey. cbn [bget_unused].
    destruct (proj2 (lookup_lt_is_Some (k_bufs k) i)) as [b Eb]; [apply Hk; set_solver|].
    rewrite (bind_run _ _ _ _ _ (get_buf_run _ _ _ Eb)). destruct (b_refcnt b =? 0) eqn:E; bool_prop.
    + exists (Some i). split; [done|]. split; [intros (b' & Eb' & ?); congruence|].
      exists l, []. split; [done|]. intros j Hj. by apply not_elem_of_nil in Hj.
    + replace (b_prev b) with (pv k (Some i)) by (simpl; by rewrite Eb).
      destruct (IH fuel (Some i) Hs) as (r & Er & Hr); [intros j Hj; apply Hk; set_solver|simpl in Hf; lia|].
      exists r. split; [done|]. assert (Hi : in_use k i) by (exists b; done). destruct r as [j|].
      * destruct Hr as [H1 (l1 & l2 & -> & H2)]. split; [done|]. exists l1, (l2 ++ [i]).
        split; [by rewrite <- app_assoc|]. set_solver.
      * set_solver.
Qed.

(** * bget() *)

(** The locks that the buffer cache uses are free; the buffers are on the list. *)
Record cache_ready (k : kernel) (me : nat) (pid : Z) (l : list nat) : Prop := {
  cr_thread : thread k me pid;
  cr_lock : lock_free k LBcache;
  cr_locks : forall i, i ∈ l -> lock_free k (LBuf i);
  cr_len : (length l < list_fuel)%nat;
  cr_known : all_known k l;
  cr_ring : ring (nx k) (pv k) l;
}.

(** The updates of a buffer that bget() makes on a hit and on a miss. *)
Definition grab (pid : Z) (b : buf) : buf := set_b_lock (mkSleeplock 1 (sl_name (b_lock b)) pid) b.
Definition bget_hit (pid : Z) (b : buf) : buf := grab pid (set_b_refcnt (u32 (b_refcnt b + 1)) b).
Definition bget_miss (pid dev bno : Z) (b : buf) : buf :=
  grab pid (set_b_refcnt 1 (set_b_valid 0 (set_b_blockno bno (set_b_dev dev b)))).

Lemma grab_run k me pid b (x : buf) f :
  thread k me pid -> lock_free k (LBuf b) -> k_bufs k !! b = Some x ->
  sl_locked (b_lock (f x)) = 0 ->
  acquiresleep (SBuf b) (alter_buf b f (relax k)) = Ret tt (alter_buf b (grab pid ∘ f) (relax k)).
Proof.
  intros T Hl Ex Hx. set (k1 := alter_buf b f (relax k)).
  assert (T1 : thread k1 me pid) by (apply (thread_ext (relax k)); try done; by apply thread_relax).
  rewrite (acquiresleep_run k1 me pid (SBuf b) (b_lock (f x)) T1); [|exact Hl| |exact Hx].
  - unfold k1. rewrite data_only_relax, relax_idem by done. simpl. by rewrite alter_buf_alter.
  - unfold sl_of, k1. rewrite alter_buf_lookup, decide_True by done.
    change (k_bufs (relax k)) with (k_bufs k). by rewrite Ex.
Qed.

Lemma bget_run k me pid l dev bno :
  cache_ready k me pid l ->
  (forall i b, i ∈ l -> k_bufs k !! i = Some b -> holds_block k dev bno i \/ ~ in_use k i ->
     sl_locked (b_lock b) = 0) ->
  (exists i, i ∈ l /\ (holds_block k dev bno i \/ ~ in_use k i)) ->
  exists i g, bget dev bno k = Ret i (alter_buf i g (relax k)) /\
    ((i ∈ l /\ holds_block k dev bno i /\ g = bget_hit pid) \/
     ((forall j, j ∈ l -> ~ holds_block k dev bno j) /\ ~ in_use k i /\
      (exists l1 l2, l = l1 ++ i :: l2 /\ forall j, j ∈ l2 -> in_use k j) /\ g = bget_miss pid dev bno)).
Proof.
  intros [T Hl Hls Hlen Hk Hr] Hfree Hex. unfold bget. pose proof (thread_cpu_ok _ _ _ T) as Hok.
  rewrite (bind_run _ _ _ _ _ (acquire_run _ _ Hok Hl)). set (k1 := enter LBcache k).
  rewrite (bind_run _ _ _ _ _ (next_of_run k1 None I)).
  destruct (bget_cached_run k1 dev bno l list_fuel None Hr Hk Hlen) as (r & Er & Hr1).
  rewrite (bind_run _ _ _ _ _ Er). destruct r as [i|].
  - destruct Hr1 as [Hi Hb]. exists i, (bget_hit pid). split; [|by left].
    destruct Hb as (b & Eb & Hb). rewrite (bind_run _ _ _ _ _ (upd_buf_run _ _ _)). unfold k1.
    rewrite (bind_run _ _ _ _ _ (release_upd k LBcache _ Hok Hl (alter_buf_data _ _))).
    rewrite bind_run with (a := tt) (s' := alter_buf i (bget_hit pid) (relax k)); [done|].
    apply (grab_run k me pid i b); [done|by apply Hls|done|]. apply (Hfree i b Hi Eb). left. by exists b.
  - rewrite (bind_run _ _ _ _ _ (prev_of_run k1 None I)).
    destruct (bget_unused_run k1 l list_fuel None Hr Hk Hlen) as (r & Er2 & Hr2).
    rewrite (bind_run _ _ _ _ _ Er2). destruct r as [i|].
    + destruct Hr2 as [Hu (l1 & l2 & El & H2)]. exists i, (bget_miss pid dev bno).
      split; [|right; split_and!; try done; by exists l1, l2].
      assert (Hi : i ∈ l) by (rewrite El; set_solver).
      destruct (proj2 (lookup_lt_is_Some (k_bufs k) i)) as [b Eb]; [by apply Hk|].
      rewrite !(bind_run _ _ _ _ _ (upd_buf_run _ _ _)), !alter_buf_alter. unfold k1.
      rewrite (bind_run _ _ _ _ _ (release_upd k LBcache _ Hok Hl (alter_buf_data _ _))).
      rewrite bind_run with (a := tt) (s' := alter_buf i (bget_miss pid dev bno) (relax k)); [done|].
      apply (grab_run k me pid i b); [done|by apply Hls|done|]. apply (Hfree i b Hi Eb). by right.
    + destruct Hex as (i & Hi & [Hh|Hu]); [by apply Hr1 in Hh|]. by destruct Hu; apply Hr2.
Qed.

(** * brelse() *)

(** Only the cache, the disk and what scheduling changes may differ. *)
Definition bio_frame (k k' : kernel) : Prop :=
  core k' = set_k_disk (k_disk k') (set_k_bcache (k_bcache k') (core k)).

Lemma bio_frame_refl k : bio_frame k k.
Proof. by destruct k. Qed.

Lemma bio_frame_trans k1 k2 k3 : bio_frame k1 k2 -> bio_frame k2 k3 -> bio_frame k1 k3.
Proof. unfold bio_frame. intros E1 E2. rewrite E2, E1. by destruct k1. Qed.

Lemma bio_frame_locks k k' : bio_frame k k' -> k_locks k' = k_locks k.
Proof. intros E. apply (f_equal k_locks) in E. exact E. Qed.

Lemma core_eq_frame k k' : core k' = core k -> bio_frame k k'.
Proof.
  intros E. unfold bio_frame. pose proof (f_equal k_disk E) as E1. pose proof (f_equal k_bcache E) as E2.
  simpl in E1, E2. rewrite E, E1, E2. by destruct k.
Qed.

Definition drop_lock (b : buf) : buf := set_b_lock (mkSleeplock 0 (sl_name (b_lock b)) 0) b.
Definition drop_ref (b : buf) : buf := set_b_refcnt (u32 (b_refcnt b - 1)) b.

(** The state of the critical section in which brelse() drops the reference. *)
Lemma drop_run {A} k b l1 l2 (x : buf) (rest : K A) :
  NoDup (l1 ++ b :: l2) -> all_known k (l1 ++ b :: l2) -> ring (nx k) (pv k) (l1 ++ b :: l2) ->
  k_bufs k !! b = Some x ->
  exists k', (do! upd_buf b (fun x => set_b_refcnt (u32 (b_refcnt x - 1)) x);
              let! x := get_buf b in
              do! when (b_refcnt x =? 0)
                    (let! n := next_of (Some b) in
                     let! p := prev_of (Some b) in
                     do! set_prev n p;
                     let! p := prev_of (Some b) in
                     let! n := next_of (Some b) in
                     do! set_next p n;
                     push_front b);
              rest) k = rest k' /\
    ring (nx k') (pv k') (if u32 (b_refcnt x - 1) =? 0 then b :: l1 ++ l2 else l1 ++ b :: l2) /\
    view k' = alter drop_ref b (view k) /\ k' = set_k_bcache (k_bcache k') k.
Proof.
  intros Hnd Hk Hr Ex. rewrite (bind_run _ _ _ _ _ (upd_buf_run _ _ _)). fold drop_ref.
  set (k1 := alter_buf b drop_ref k).
  assert (E1 : k_bufs k1 !! b = Some (drop_ref x)) by (unfold k1; by rewrite alter_buf_lookup, decide_True, Ex).
  rewrite (bind_run _ _ _ _ _ (get_buf_run _ _ _ E1)). change (b_refcnt (drop_ref x)) with (u32 (b_refcnt x - 1)).
  assert (V1 : view k1 = alter drop_ref b (view k)) by (by apply view_alter).
  assert (R1 : ring (nx k1) (pv k1) (l1 ++ b :: l2)).
  { revert Hr. apply seg_frame; intros z _; unfold k1; [by rewrite nx_alter|by rewrite pv_alter]. }
  assert (K1 : all_known k1 (l1 ++ b :: l2)).
  { intros i Hi. simpl. unfold k1. rewrite alter_buf_length. by apply Hk. }
  destruct (u32 (b_refcnt x - 1) =? 0); cbn [when].
  - destruct (unlink_run k1 b l1 l2 (push_front b) Hnd K1 R1) as (k2 & E' & R2 & [V2 E2]).
    apply NoDup_app in Hnd as (Hn1 & Hd & [Hb Hn2]%NoDup_cons).
    destruct (push_front_run k2 b (l1 ++ l2)) as (k3 & E3 & R3 & [V3 E3']).
    + set_solver.
    + apply NoDup_app. set_solver.
    + intros i Hi. simpl. rewrite <- view_length, V2, view_length. apply K1. set_solver.
    + done.
    + exists k3. split_and!; [unfold bind at 1; rewrite E', E3; done|done|by rewrite V3, V2|]. rewrite E3', E2. by destruct k.
  - exists k1. split_and!; done.
Qed.

Lemma brelse_run k me pid l1 b l2 (x : buf) :
  cache_ready k me pid (l1 ++ b :: l2) -> NoDup (l1 ++ b :: l2) -> k_bufs k !! b = Some x ->
  sl_locked (b_lock x) <> 0 -> sl_pid (b_lock x) = pid ->
  exists k', brelse b k = Ret tt k' /\ thread k' me pid /\ bio_frame k k' /\ (k_disk k' = k_disk k /\ k_vdisk k' = k_vdisk k) /\
    ring (nx k') (pv k') (if u32 (b_refcnt x - 1) =? 0 then b :: l1 ++ l2 else l1 ++ b :: l2) /\
    view k' = alter (drop_ref ∘ drop_lock) b (view k).
Proof.
  intros [T Hl Hls Hlen Hk Hr] Hnd Ex Hlk Hpid. unfold brelse.
  assert (Hs : sl_of (SBuf b) k = Some (b_lock x)) by (simpl; by rewrite Ex).
  assert (Hf : lock_free k (LBuf b)) by (apply Hls; set_solver).
  rewrite (bind_run _ _ _ _ _ (holdingsleep_run k me pid (SBuf b) _ T Hf Hs)).
  rewrite (proj2 (Z.eqb_neq _ _) Hlk), (proj2 (Z.eqb_eq _ _) Hpid). simpl (negb _). cbv iota.
  pose proof (thread_relax _ _ _ T) as T1.
  rewrite (bind_run _ _ _ _ _ (releasesleep_run (relax k) me pid (SBuf b) _ T1 Hf Hs)). rewrite relax_idem.
  set (k2 := set_procs _ _).
  assert (T2 : thread k2 me pid).
  { apply (thread_ext (set_procs (imap (wake (Some me) (Some (sl_chan (SBuf b)))) (k_procs (relax k))) (relax k)));
      try done. by apply thread_wake. }
  pose proof (thread_cpu_ok _ _ _ T2) as Hok2.
  rewrite (bind_run _ _ _ _ _ (acquire_run k2 LBcache Hok2 Hl)). set (k3 := enter LBcache k2).
  set (k0 := alter_buf b drop_lock (relax k)).
  assert (Ev : forall z, nx k3 z = nx k z /\ pv k3 z = pv k z).
  { intros z. split; [exact (nx_alter (relax k) b drop_lock z ltac:(done))|exact (pv_alter (relax k) b drop_lock z ltac:(done))]. }
  assert (Ex3 : k_bufs k3 !! b = Some (drop_lock x)).
  { change (k_bufs k3) with (k_bufs (alter_buf b drop_lock k)). by rewrite alter_buf_lookup, decide_True, Ex. }
  destruct (drop_run k3 b l1 l2 (drop_lock x) (release LBcache) Hnd) as (k4 & -> & R4 & V4 & E4); [| |done|].
  - intros i Hi. simpl. change (k_bufs k3) with (k_bufs (alter_buf b drop_lock k)). rewrite alter_buf_length. by apply Hk.
  - revert Hr. apply seg_frame; intros z _; apply Ev.
  - rewrite E4. unfold k3.
    rewrite (release_upd k2 LBcache (set_k_bcache (k_bcache k4)) Hok2 Hl) by done. eexists. split; [done|].
    split; [by apply (thread_ext (relax k2)); try done; apply thread_relax|].
    split; [by destruct k|]. split; [done|]. split.
    + exact R4.
    + change (view (set_k_bcache (k_bcache k4) (relax k2))) with (view k4). rewrite V4.
      change (view k3) with (view (alter_buf b drop_lock k)). rewrite (view_alter b drop_lock k) by done.
      by rewrite list_alter_alter_eq.
Qed.

(** * Which buffer is recycled *)

Lemma bget_full k me pid l dev bno :
  cache_ready k me pid l ->
  (forall i, i ∈ l -> ~ holds_block k dev bno i /\ in_use k i) ->
  exists k', bget dev bno k = Panic "bget: no buffers" k'.
Proof.
  intros [T Hl Hls Hlen Hk Hr] Hall. exists (enter LBcache k). unfold bget.
  pose proof (thread_cpu_ok _ _ _ T) as Hok.
  rewrite (bind_run _ _ _ _ _ (acquire_run _ _ Hok Hl)). set (k1 := enter LBcache k).
  rewrite (bind_run _ _ _ _ _ (next_of_run k1 None I)).
  destruct (bget_cached_run k1 dev bno l list_fuel None Hr Hk Hlen) as (r & Er & Hr1).
  rewrite (bind_run _ _ _ _ _ Er). destruct r as [i|]; [destruct Hr1 as [Hi Hh]; by destruct (Hall i Hi)|].
  rewrite (bind_run _ _ _ _ _ (prev_of_run k1 None I)).
  destruct (bget_unused_run k1 l list_fuel None Hr Hk Hlen) as (r & Er2 & Hr2).
  rewrite (bind_run _ _ _ _ _ Er2). destruct r as [i|]; [|done].
  destruct Hr2 as (Hu & l1 & l2 & -> & _). destruct Hu. apply Hall. set_solver.
Qed.

(** bget(dev, bno) on the buffer list [l]: it returns, locked, the buffer of
    the block when there is one, counting one more reference; otherwise the
    least recently used buffer that nobody references (every buffer behind it on
    the list is in use), which becomes that of the block, invalid and with one
    reference; no other buffer changes.  It panics exactly when the block has no buffer and all
    buffers are in use. *)
Theorem bget_correct k me pid l dev bno :
  cache_ready k me pid l ->
  (forall i b, i ∈ l -> k_bufs k !! i = Some b -> holds_block k dev bno i \/ ~ in_use k i ->
     sl_locked (b_lock b) = 0) ->
  ((exists i, i ∈ l /\ (holds_block k dev bno i \/ ~ in_use k i)) ->
   exists i g, bget dev bno k = Ret i (alter_buf i g (relax k)) /\
     ((i ∈ l /\ holds_block k dev bno i /\ g = bget_hit pid) \/
      ((forall j, j ∈ l -> ~ holds_block k dev bno j) /\ ~ in_use k i /\
       (exists l1 l2, l = l1 ++ i :: l2 /\ forall j, j ∈ l2 -> in_use k j) /\ g = bget_miss pid dev bno))) /\
  ((forall i, i ∈ l -> ~ holds_block k dev bno i /\ in_use k i) ->
   exists k', bget dev bno k = Panic "bget: no buffers" k').
Proof.
  intros R Hf. split; [exact (bget_run k me pid l dev bno R Hf)|exact (bget_full k me pid l dev bno R)].
Qed.

(** brelse() of a buffer that the process holds frees its sleeplock and drops
    its reference; when that was the last one the buffer moves to the front of
    the list and the others keep their order; no other buffer changes. *)
Theorem brelse_correct k me pid l1 b l2 (x : buf) :
  cache_ready k me pid (l1 ++ b :: l2) -> NoDup (l1 ++ b :: l2) -> k_bufs k !! b = Some x ->
  sl_locked (b_lock x) <> 0 -> sl_pid (b_lock x) = pid -> 0 < b_refcnt x < 2 ^ 32 ->
  exists k', brelse b k = Ret tt k' /\
    ring (nx k') (pv k') (if decide (b_refcnt x = 1) then b :: l1 ++ l2 else l1 ++ b :: l2) /\
    (forall i, i <> b -> view k' !! i = view k !! i) /\
    view k' !! b = Some (set_b_refcnt (b_refcnt x - 1) (drop_lock (nolinks x))) /\
    k_disk k' = k_disk k /\ bio_frame k k'.
Proof.
  intros R Hnd Ex Hl Hp Hr. destruct (brelse_run k me pid l1 b l2 x R Hnd Ex Hl Hp) as (k' & E & _ & F & [D _] & Rg & V).
  assert (Hu : u32 (b_refcnt x - 1) = b_refcnt x - 1) by (apply u32_small; lia).
  exists k'. split; [done|]. rewrite Hu in Rg. split; [|split; [|split; [|done]]].
  - destruct (decide (b_refcnt x = 1)) as [H1|H1]; [by rewrite H1 in Rg|].
    by rewrite (proj2 (Z.eqb_neq _ 0)) in Rg by lia.
  - intros i Hi. by rewrite V, list_lookup_alter_ne.
  - rewrite V, list_lookup_alter_eq. unfold view. rewrite list_lookup_fmap, Ex. simpl. f_equal.
    unfold drop_ref. simpl. by rewrite Hu.
Qed.
