(* ===== verification/BioInv.v ===== *)
(** The buffer cache as a function from block numbers to contents: the invariant
    [bio] (no block has two buffers, what is not pinned or held is unreferenced
    and as on the disk), and what bread(), bwrite(), brelse(), bpin() and
    bunpin() do to it, over any disk that completes its requests. *)

From Stdlib Require Import ZArith Lia.
From stdpp Require Import base gmap list_numbers strings numbers functions list.
From S2P Require Import Prelude Mem Riscv Kernel Spinlock Kalloc Vm Printf Sched SchedSpec Thread.
From S2P Require Import Sleeplock SleeplockSpec Virtio Bio BioSpec.

Open Scope Z_scope.

Implicit Types (k : kernel).

(** * The disk, as the buffer cache relies on it

    [env] is what the rest of the system does while the thread waits.  A request
    completes: a read fills the buffer with the block, a write stores the
    buffer in the block; nothing else that the file system uses has changed when
    virtio_disk_rw() returns.  The sector numbers of the blocks have to fit in 32 bits. *)
Class DiskLaws `{BlockDevice} (env : kernel -> kernel -> Prop) : Prop := {
  disk_read_ok : forall k me pid i b,
    thread k me pid -> disk_ready k -> k_bufs k !! i = Some b -> 0 <= b_blockno b < 2 ^ 31 ->
    wp env (disk_rw i false k) (fun _ k' => thread k' me pid /\ vd_idle (k_vdisk k') /\
      core k' = core (alter_buf i (set_b_disk 0 ∘ set_b_data (disk_block (k_disk k) (b_blockno b))) k));
  disk_write_ok : forall k me pid i b,
    thread k me pid -> disk_ready k -> k_bufs k !! i = Some b -> 0 <= b_blockno b < 2 ^ 31 ->
    wp env (disk_rw i true k) (fun _ k' => thread k' me pid /\ vd_idle (k_vdisk k') /\
      core k' = core (set_k_disk (disk_write (b_blockno b) (b_data b) (k_disk k)) (alter_buf i (set_b_disk 0) k)));
}.

Lemma disk_block_write bno d dk z :
  disk_block (disk_write bno d dk) z = if decide (z = bno) then d else disk_block dk z.
Proof. unfold disk_block, disk_write. simpl. rewrite lookup_insert. by repeat case_decide; subst. Qed.

(** * The cache as a function from block numbers to contents *)

Section Cache.
Context (dev : Z).

(** The buffer of block [bno], among those of [v]. *)
Definition cached (v : list buf) (bno : Z) : option buf :=
  snd <$> list_find (fun b => b_dev b = dev /\ b_blockno b = bno) v.

(** What a reader of block [bno] sees. *)
Definition content (k : kernel) (bno : Z) : list Z :=
  match cached (view k) bno with
  | Some b => if b_valid b =? 0 then disk_block (k_disk k) bno else b_data b
  | None => disk_block (k_disk k) bno
  end.

(** The blocks in [D] are pinned; the running process holds the buffers [H], each with its
    block number.  Everything else is unlocked, unreferenced and as on the disk. *)
Record bio (k : kernel) (me : nat) (pid : Z) (D : gset Z) (H : list (nat * Z)) : Prop := {
  bi_thread : thread k me pid;
  bi_lock : lock_free k LBcache;
  bi_locks : forall i, (i < Z.to_nat NBUF)%nat -> lock_free k (LBuf i);
  bi_vdisk : disk_ready k;
  bi_ring : exists l, l ≡ₚ seq 0 (Z.to_nat NBUF) /\ ring (nx k) (pv k) l;
  bi_len : length (view k) = Z.to_nat NBUF;
  bi_uniq : forall i j b c, view k !! i = Some b -> view k !! j = Some c ->
    b_dev b = dev -> b_dev c = dev -> b_blockno b = b_blockno c -> i = j;
  bi_nodup : NoDup H.*1;
  bi_held : forall i bno, (i, bno) ∈ H -> exists b, view k !! i = Some b /\ b_dev b = dev /\
    b_blockno b = bno /\ b_valid b <> 0 /\ sl_locked (b_lock b) = 1 /\ sl_pid (b_lock b) = pid;
  bi_range : forall i bno, (i, bno) ∈ H -> 0 <= bno < 2 ^ 31;
  bi_free : forall i b, view k !! i = Some b -> i ∉ H.*1 -> sl_locked (b_lock b) = 0;
  bi_ref : forall i b, view k !! i = Some b ->
    b_refcnt b = b2z (bool_decide (b_dev b = dev /\ b_blockno b ∈ D)) + b2z (bool_decide (i ∈ H.*1));
  bi_pin : forall bno, bno ∈ D -> exists i b, view k !! i = Some b /\ b_dev b = dev /\
    b_blockno b = bno /\ b_valid b <> 0;
  bi_clean : forall i b, view k !! i = Some b -> b_dev b = dev -> b_valid b <> 0 ->
    b_blockno b ∉ D -> i ∉ H.*1 -> b_data b = disk_block (k_disk k) (b_blockno b);
}.

Lemma cached_Some v i b :
  v !! i = Some b -> b_dev b = dev ->
  (forall j c, v !! j = Some c -> b_dev c = dev -> b_blockno c = b_blockno b -> i = j) ->
  cached v (b_blockno b) = Some b.
Proof.
  intros Ei Hd Hu. unfold cached.
  destruct (list_find_elem_of (fun c => b_dev c = dev /\ b_blockno c = b_blockno b) v b) as [[j c] E].
  - by eapply list_elem_of_lookup_2.
  - done.
  - rewrite E. apply list_find_Some in E as (Ej & [H1 H2] & _). simpl. by rewrite (Hu j c Ej H1 H2), Ej in Ei.
Qed.

Lemma cached_None v bno :
  (forall j c, v !! j = Some c -> ~ (b_dev c = dev /\ b_blockno c = bno)) -> cached v bno = None.
Proof.
  intros Hn. unfold cached. destruct (list_find _ v) as [[j c]|] eqn:E; [|done].
  apply list_find_Some in E as (Ej & Hc & _). by destruct (Hn j c Ej).
Qed.

Lemma cached_inv v bno b : cached v bno = Some b -> exists i, v !! i = Some b /\ b_dev b = dev /\ b_blockno b = bno.
Proof.
  unfold cached. destruct (list_find _ v) as [[j c]|] eqn:E; [|done]. intros [= ->].
  apply list_find_Some in E as (Ej & Hc & _). exists j. tauto.
Qed.

Lemma content_buf k me pid D H i b :
  bio k me pid D H -> view k !! i = Some b -> b_dev b = dev -> b_valid b <> 0 ->
  content k (b_blockno b) = b_data b.
Proof.
  intros B Ei Hd Hv. unfold content. rewrite (cached_Some (view k) i b Ei Hd).
  - by rewrite (proj2 (Z.eqb_neq _ _) Hv).
  - intros j c Ej Hc Hb. by apply (bi_uniq _ _ _ _ _ B i j b c).
Qed.

Lemma content_clean k me pid D H bno :
  bio k me pid D H -> bno ∉ D -> bno ∉ H.*2 -> content k bno = disk_block (k_disk k) bno.
Proof.
  intros B HD HH. unfold content. destruct (cached (view k) bno) as [b|] eqn:E; [|done].
  destruct (b_valid b =? 0) eqn:Ev; bool_prop; [done|]. apply cached_inv in E as (i & Ei & Hd & <-).
  apply (bi_clean _ _ _ _ _ B i b Ei Hd Ev HD). intros ([j z] & -> & Hj)%list_elem_of_fmap. simpl in *.
  destruct (bi_held _ _ _ _ _ B j z Hj) as (c & Ec & _ & <- & _). simplify_eq.
  apply HH, list_elem_of_fmap. by exists (j, b_blockno b).
Qed.

Lemma bio_ready k me pid D H l :
  bio k me pid D H -> l ≡ₚ seq 0 (Z.to_nat NBUF) -> ring (nx k) (pv k) l -> cache_ready k me pid l.
Proof.
  intros B Hl Hr. assert (Hin : forall i, i ∈ l -> (i < Z.to_nat NBUF)%nat).
  { intros i Hi. rewrite Hl in Hi. apply elem_of_seq in Hi. lia. }
  split; try apply B; try done.
  - intros i Hi. by apply (bi_locks _ _ _ _ _ B), Hin.
  - rewrite Hl, length_seq. unfold list_fuel. lia.
  - intros i Hi. simpl. rewrite <- view_length, (bi_len _ _ _ _ _ B). by apply Hin.
Qed.

(** While fewer than NBUF blocks are pinned or held, a buffer is unused. *)
Lemma bio_unused k me pid D H :
  bio k me pid D H -> (size D + length H < Z.to_nat NBUF)%nat ->
  exists i b, view k !! i = Some b /\ b_refcnt b = 0.
Proof.
  intros B Hsz. destruct (list_find (fun b => b_refcnt b = 0) (view k)) as [[i b]|] eqn:E.
  { apply list_find_Some in E as (Ei & Hb & _). by exists i, b. }
  exfalso. rewrite list_find_None, Forall_lookup in E.
  assert (Hall : forall i b, view k !! i = Some b -> b_dev b = dev /\ b_blockno b ∈ D ∪ list_to_set H.*2).
  { intros i b Ei. pose proof (E i b Ei) as Hne. simpl in Hne. rewrite (bi_ref _ _ _ _ _ B i b Ei) in Hne.
    destruct (decide (b_dev b = dev /\ b_blockno b ∈ D)) as [[? ?]|Hn]; [set_solver|].
    rewrite (bool_decide_false _ Hn) in Hne. case_bool_decide as Hi; [|done].
    apply list_elem_of_fmap in Hi as ([i' bno] & -> & Hi). simpl in *.
    destruct (bi_held _ _ _ _ _ B i' bno Hi) as (c & Ec & Hd & Hb & _). simplify_eq. split; [done|].
    apply elem_of_union_r, elem_of_list_to_set, list_elem_of_fmap. by exists (i', b_blockno b). }
  assert (Hnd : NoDup (b_blockno <$> view k)).
  { apply NoDup_alt. intros i j bno Ei Ej. apply list_lookup_fmap_Some in Ei as (b & -> & Ei).
    apply list_lookup_fmap_Some in Ej as (c & Hbc & Ej).
    apply (bi_uniq _ _ _ _ _ B i j b c); try done; by eapply Hall. }
  assert (Hsub : list_to_set (b_blockno <$> view k) ⊆ D ∪ list_to_set H.*2).
  { intros bno Hb. apply elem_of_list_to_set, list_elem_of_fmap in Hb as (b & -> & Hb).
    apply list_elem_of_lookup in Hb as [i Ei]. by eapply Hall. }
  apply subseteq_size in Hsub. rewrite size_list_to_set in Hsub by done.
  rewrite length_fmap, (bi_len _ _ _ _ _ B) in Hsub.
  pose proof (size_union_alt D (list_to_set H.*2)).
  assert (size (list_to_set H.*2 ∖ D) <= length H)%nat; [|lia].
  transitivity (size (list_to_set (C := gset Z) H.*2)); [apply subseteq_size; set_solver|].
  rewrite <- (length_fmap snd). clear. induction (H.*2) as [|z l IH]; [done|].
  simpl. rewrite size_union_alt, size_singleton.
  assert (size (list_to_set l ∖ {[z]}) <= size (list_to_set (C := gset Z) l))%nat by (apply subseteq_size; set_solver).
  lia.
Qed.

(** The conditions under which the replacement of buffer [i], now [c], takes the
    cache from pinned blocks [D] and held buffers [H] to [D'] and [H']. *)
Record replaces (k k' : kernel) (pid : Z) (D D' : gset Z) (H H' : list (nat * Z)) (i : nat) (b c : buf) : Prop := {
  rp_view : view k' = <[i := c]> (view k);
  rp_locks : k_locks k' = k_locks k;
  rp_vdisk : vd_idle (k_vdisk k');
  rp_disk : forall z, z <> b_blockno c -> disk_block (k_disk k') z = disk_block (k_disk k) z;
  rp_uniq : forall j d, j <> i -> view k !! j = Some d -> b_dev d = dev -> b_dev c = dev ->
    b_blockno d <> b_blockno c;
  rp_nodup : NoDup H'.*1;
  rp_held : forall j bno, (j, bno) ∈ H' -> (j, bno) ∈ H /\ j <> i \/
    j = i /\ b_blockno c = bno /\ b_dev c = dev /\ b_valid c <> 0 /\
    sl_locked (b_lock c) = 1 /\ sl_pid (b_lock c) = pid;
  rp_range : forall j bno, (j, bno) ∈ H' -> 0 <= bno < 2 ^ 31;
  rp_hold : forall j, j <> i -> j ∈ H'.*1 <-> j ∈ H.*1;
  rp_free : i ∉ H'.*1 -> sl_locked (b_lock c) = 0;
  rp_ref : b_refcnt c = b2z (bool_decide (b_dev c = dev /\ b_blockno c ∈ D')) + b2z (bool_decide (i ∈ H'.*1));
  rp_pins : forall z, z <> b_blockno c -> z ∈ D' <-> z ∈ D;
  rp_pin : b_blockno c ∈ D' -> b_dev c = dev /\ b_valid c <> 0;
  rp_old : b_dev b = dev -> b_blockno b <> b_blockno c -> b_blockno b ∉ D /\ i ∉ H.*1;
  rp_clean : b_dev c = dev -> b_valid c <> 0 -> b_blockno c ∉ D' -> i ∉ H'.*1 ->
    b_data c = disk_block (k_disk k') (b_blockno c);
  rp_dev : b_dev c = dev;
}.

Section Replace.
Context (k k' : kernel) (me : nat) (pid : Z) (D D' : gset Z) (H H' : list (nat * Z)) (i : nat) (b c : buf).
Context (B : bio k me pid D H) (Ei : view k !! i = Some b) (R : replaces k k' pid D D' H H' i b c).

Lemma replaced_lookup j d :
  view k' !! j = Some d <-> (j = i /\ d = c) \/ (j <> i /\ view k !! j = Some d).
Proof.
  assert (Hlt : (i < length (view k))%nat) by (by eapply lookup_lt_Some).
  rewrite (rp_view _ _ _ _ _ _ _ _ _ _ R), list_lookup_insert. case_decide; naive_solver.
Qed.

Lemma bio_replace :
  thread k' me pid -> (exists l, l ≡ₚ seq 0 (Z.to_nat NBUF) /\ ring (nx k') (pv k') l) ->
  bio k' me pid D' H'.
Proof.
  intros T' Hr'. pose proof replaced_lookup as Hlook. destruct R as [V Hls Hvd Hdk U N Hh Hrg Hho Hf Hrf Hps Hp Ho Hc Hdev].
  split; try done; unfold lock_free; rewrite ?Hls; try apply B.
  - split; [unfold lock_free; rewrite Hls; apply B|done].
  - rewrite V, length_insert. apply B.
  - intros j1 j2 d1 d2 [[-> ->]|[Hj1 E1]]%Hlook [[-> ->]|[Hj2 E2]]%Hlook Hd1 Hd2 Hbb; try done.
    + by destruct (U j2 d2 Hj2 E2 Hd2 Hd1).
    + by destruct (U j1 d1 Hj1 E1 Hd1 Hd2).
    + by apply (bi_uniq _ _ _ _ _ B j1 j2 d1 d2).
  - intros j bno [[Hj Hne]|(-> & <- & Hd & Hv & Hl & Hp')]%Hh.
    + destruct (bi_held _ _ _ _ _ B j bno Hj) as (d & Ed & Hd). exists d. rewrite Hlook. naive_solver.
    + exists c. rewrite Hlook. naive_solver.
  - intros j d [[-> ->]|[Hj E]]%Hlook Hn; [by apply Hf|].
    apply (bi_free _ _ _ _ _ B j d E). by rewrite <- Hho.
  - intros j d [[-> ->]|[Hj E]]%Hlook; [done|]. rewrite (bi_ref _ _ _ _ _ B j d E). f_equal; f_equal.
    + apply bool_decide_ext. split; intros [Hd Hb]; (split; [done|]); apply Hps; eauto.
    + apply bool_decide_ext. by rewrite Hho.
  - intros bno Hb. destruct (decide (bno = b_blockno c)) as [->|Hne].
    + exists i, c. rewrite Hlook. naive_solver.
    + apply Hps in Hb; [|done]. destruct (bi_pin _ _ _ _ _ B bno Hb) as (j & d & Ed & Hd & Hbd & Hv).
      exists j, d. rewrite Hlook. split; [right|done]. split; [|done]. intros ->. simplify_eq.
      destruct Ho; done.
  - intros j d [[-> ->]|[Hj E]]%Hlook Hd Hv Hb Hn; [by apply Hc|].
    assert (Hne : b_blockno d <> b_blockno c) by eauto.
    rewrite Hdk by done. apply (bi_clean _ _ _ _ _ B j d E Hd Hv).
    + by rewrite <- Hps.
    + by rewrite <- Hho.
Qed.

Lemma content_replace z :
  z <> b_blockno c -> content k' z = content k z.
Proof.
  intros Hz. pose proof replaced_lookup as Hlook. destruct R as [V Hls Hvd Hdk U N Hh Hrg Hho Hf Hrf Hps Hp Ho Hc Hdev].
  destruct (cached (view k) z) as [d|] eqn:E.
  - pose proof (cached_inv _ _ _ E) as (j & Ej & Hd & <-). unfold content at 2. rewrite E.
    destruct (decide (j = i)) as [->|Hj].
    + simplify_eq. destruct Ho as [Ho1 Ho2]; [done|done|]. unfold content. rewrite cached_None.
      * rewrite Hdk by done. destruct (b_valid b =? 0) eqn:Ev; bool_prop; [done|].
        symmetry. by apply (bi_clean _ _ _ _ _ B i b).
      * intros j' d' [[-> ->]|[Hj' E']]%Hlook [Hd' Hb']; [congruence|].
        destruct Hj'. by apply (bi_uniq _ _ _ _ _ B j' i d' b).
    + unfold content. rewrite (cached_Some (view k') j d).
      * by rewrite Hdk.
      * apply Hlook. by right.
      * done.
      * intros j' d' [[-> ->]|[Hj' E']]%Hlook Hd' Hb'; [congruence|]. by apply (bi_uniq _ _ _ _ _ B j j' d d').
  - unfold content at 2. rewrite E. unfold content. rewrite cached_None; [by apply Hdk|].
    intros j d [[-> ->]|[Hj Ej]]%Hlook [Hd Hb]; [congruence|].
    rewrite <- Hb, (cached_Some (view k) j d Ej Hd) in E; [done|].
    intros j' d' Ej' Hd' Hb'. by apply (bi_uniq _ _ _ _ _ B j j' d d').
Qed.
End Replace.

Lemma core_bcache k k' : core k' = core k -> k_bcache k' = k_bcache k.
Proof. intros E. exact (f_equal k_bcache E). Qed.

Lemma bcache_view k k' : k_bcache k' = k_bcache k -> view k' = view k.
Proof. unfold view, k_bufs. by intros ->. Qed.

Lemma bcache_links k k' z : k_bcache k' = k_bcache k -> nx k' z = nx k z /\ pv k' z = pv k z.
Proof. unfold nx, pv, k_bufs. by intros ->. Qed.

(** The buffer that bget() has given to the running process, once it is valid. *)
Record got (k : kernel) (pid : Z) (D : gset Z) (bno : Z) (c : buf) : Prop := {
  got_dev : b_dev c = dev;
  got_bno : b_blockno c = bno;
  got_valid : b_valid c <> 0;
  got_lock : sl_locked (b_lock c) = 1 /\ sl_pid (b_lock c) = pid;
  got_ref : b_refcnt c = b2z (bool_decide (bno ∈ D)) + 1;
  got_data : b_data c = content k bno;
}.

Lemma bio_got k k' me pid D H i bno b c :
  bio k me pid D H -> view k !! i = Some b -> i ∉ H.*1 ->
  (b_dev b = dev /\ b_blockno b = bno) \/
    (b_refcnt b = 0 /\ forall j d, view k !! j = Some d -> ~ (b_dev d = dev /\ b_blockno d = bno)) ->
  got k pid D bno c -> view k' = <[i := c]> (view k) ->
  thread k' me pid -> k_locks k' = k_locks k -> k_disk k' = k_disk k -> vd_idle (k_vdisk k') -> 0 <= bno < 2 ^ 31 ->
  (forall z, nx k' z = nx k z /\ pv k' z = pv k z) ->
  bio k' me pid D ((i, bno) :: H) /\ forall z, content k' z = content k z.
Proof.
  intros B Ei Hi Hcase [G1 G2 G3 [G4 G5] G6 G7] V T' Hls Hdk Hvd Hrg Hlinks. subst bno.
  assert (R : replaces k k' pid D D H ((i, b_blockno c) :: H) i b c).
  { split; try done.
    - by rewrite Hdk.
    - intros j d Hj Ej Hd _ Hb. destruct Hcase as [[H1 H2]|[_ H2]]; [|by destruct (H2 j d Ej)].
      apply Hj. apply (bi_uniq _ _ _ _ _ B j i d b); congruence.
    - simpl. apply NoDup_cons. split; [done|apply B].
    - intros j z [[= -> ->]|Hj]%elem_of_cons; [naive_solver|]. left. split; [done|]. intros ->.
      apply Hi, list_elem_of_fmap. by exists (i, z).
    - intros j z [[= -> ->]|Hj]%elem_of_cons; [done|]. by apply (bi_range _ _ _ _ _ B j).
    - intros j Hj. simpl. set_solver.
    - intros Hn. destruct Hn. simpl. set_solver.
    - rewrite G6. f_equal; f_equal; [apply bool_decide_ext; tauto|]. rewrite bool_decide_true; [done|]. simpl. set_solver.
    - intros Hd Hb. split; [|done]. destruct Hcase as [[H1 H2]|[H1 H2]]; [done|]. intros Hin.
      rewrite (bi_ref _ _ _ _ _ B i b Ei) in H1. rewrite bool_decide_true in H1 by done.
      revert H1. unfold b2z. destruct (bool_decide (i ∈ H.*1)); lia.
    - intros _ _ _ Hn. destruct Hn. simpl. set_solver. }
  assert (B' : bio k' me pid D ((i, b_blockno c) :: H)).
  { apply (bio_replace k k' me pid D D H _ i b c B Ei R T'). destruct (bi_ring _ _ _ _ _ B) as (l & Hl & Hr).
    exists l. split; [done|]. revert Hr. apply seg_frame; intros z _; apply Hlinks. }
  split; [done|]. intros z. destruct (decide (z = b_blockno c)) as [->|Hz].
  - rewrite <- G7. apply (content_buf k' me pid D _ i c B'); try done.
    apply (replaced_lookup k k' pid D D H _ i b c Ei R). by left.
  - by apply (content_replace k k' me pid D D H _ i b c B Ei R).
Qed.

(** What bget() does to the view of the buffer. *)
Lemma bget_spec k me pid D H bno :
  bio k me pid D H -> bno ∉ H.*2 -> bno ∈ D \/ (size D + length H < Z.to_nat NBUF)%nat ->
  exists i g b, bget dev bno k = Ret i (alter_buf i g (relax k)) /\ k_bufs k !! i = Some b /\ i ∉ H.*1 /\
    ((g = bget_hit pid /\ b_dev b = dev /\ b_blockno b = bno) \/
     (g = bget_miss pid dev bno /\ b_refcnt b = 0 /\
      forall j d, view k !! j = Some d -> ~ (b_dev d = dev /\ b_blockno d = bno))).
Proof.
  intros B Hbno Hsz. destruct (bi_ring _ _ _ _ _ B) as (l & Hl & Hr).
  pose proof (bio_ready _ _ _ _ _ _ B Hl Hr) as Rd.
  assert (Hin : forall i b, k_bufs k !! i = Some b -> i ∈ l).
  { intros i b Eb%lookup_lt_Some. rewrite Hl. apply elem_of_seq. rewrite <- view_length, (bi_len _ _ _ _ _ B) in Eb. lia. }
  assert (Hnh : forall i b, k_bufs k !! i = Some b -> holds_block k dev bno i \/ ~ in_use k i -> i ∉ H.*1).
  { intros i b Eb Hor ([i' z] & -> & Hi)%list_elem_of_fmap. simpl in *.
    destruct (bi_held _ _ _ _ _ B i' z Hi) as (v & Ev & Hd & Hb & _).
    pose proof (proj1 (view_lookup _ _ _) Ev) as (b' & Eb' & ->).
    assert (b' = b) as -> by congruence. destruct Hor as [(b'' & E'' & H1 & H2)|Hu].
    - assert (b'' = b) as -> by congruence. apply Hbno, list_elem_of_fmap. exists (i', z). naive_solver.
    - apply Hu. exists b. split; [done|]. change (b_refcnt (nolinks b) <> 0). rewrite (bi_ref _ _ _ _ _ B i' _ Ev).
      rewrite (bool_decide_true (i' ∈ H.*1)); [|apply list_elem_of_fmap; by exists (i', z)].
      unfold b2z. destruct (bool_decide (b_dev (nolinks b) = dev /\ _)); lia. }
  destruct (bget_run k me pid l dev bno Rd) as (i & g & E & Hcase).
  - intros i b Hi Eb Hor. apply (bi_free _ _ _ _ _ B i (nolinks b)); [|by eapply Hnh].
    apply view_lookup. by exists b.
  - destruct Hsz as [HD|Hsz].
    { destruct (bi_pin _ _ _ _ _ B bno HD) as (i & v & Ev & Hd & Hb & _). apply view_lookup in Ev as (b & Eb & ->).
      exists i. split; [by eapply Hin|]. left. by exists b. }
    destruct (bio_unused k me pid D H B Hsz) as (i & v & Ev & Hv). apply view_lookup in Ev as (b & Eb & ->).
    exists i. split; [by eapply Hin|]. right. intros (b' & Eb' & ?). by simplify_eq.
  - destruct Hcase as [(Hi & Hh & ->)|(Hno & Hu & (l1 & l2 & El & _) & ->)].
    + pose proof Hh as (b & Eb & H1 & H2). exists i, (bget_hit pid), b. split_and!; [done|done|eauto|naive_solver].
    + assert (Hi : i ∈ l) by (rewrite El; set_solver).
      destruct (proj2 (lookup_lt_is_Some (k_bufs k) i)) as [b Eb]; [by apply (cr_known _ _ _ _ Rd)|].
      exists i, (bget_miss pid dev bno), b. split_and!; [done|done|eauto|]. right. split; [done|]. split.
      * destruct (decide (b_refcnt b = 0)); [done|]. destruct Hu. by exists b.
      * intros j v (d & Ed & ->)%view_lookup Hd. apply (Hno j); [by eapply Hin|]. by exists d.
Qed.

Context {BD : BlockDevice} {env : kernel -> kernel -> Prop} {DL : DiskLaws env}.

Lemma view_relax k : view (relax k) = view k.
Proof. done. Qed.

Lemma alter_view k i g b :
  (forall d, nolinks (g d) = g (nolinks d)) -> k_bufs k !! i = Some b ->
  view (alter_buf i g k) = <[i := nolinks (g b)]> (view k).
Proof.
  intros Hg Eb. rewrite view_alter, Hg by done. apply list_alter_at.
  apply view_lookup. by exists b.
Qed.

(** The read of an invalid buffer, and what it leaves. *)
Lemma fill_spec k me pid i b :
  thread k me pid -> disk_ready k -> k_bufs k !! i = Some b -> 0 <= b_blockno b < 2 ^ 31 ->
  wp env ((do! disk_rw i false; upd_buf i (set_b_valid 1)) k) (fun _ k' => thread k' me pid /\ vd_idle (k_vdisk k') /\
    view k' = <[i := nolinks (set_b_valid 1 (set_b_disk 0 (set_b_data (disk_block (k_disk k) (b_blockno b)) b)))]> (view k) /\
    (forall z, nx k' z = nx k z /\ pv k' z = pv k z) /\ k_disk k' = k_disk k /\ bio_frame k k').
Proof.
  intros T Hl Eb Hr. apply wp_bind. eapply wp_mono; [exact (disk_read_ok k me pid i b T Hl Eb Hr)|].
  intros _ k2 (T2 & V2 & C2). rewrite upd_buf_run. simpl. set (d := disk_block _ _) in *.
  set (k' := alter_buf i (set_b_valid 1) k2).
  assert (Ek : k_bcache k' = k_bcache (alter_buf i (set_b_valid 1 ∘ (set_b_disk 0 ∘ set_b_data d)) k)).
  { rewrite <- alter_buf_alter. unfold k', alter_buf, k_bufs. simpl. by rewrite (core_bcache _ _ C2). }
  split; [by apply (thread_ext k2)|]. split; [exact V2|]. split; [|split; [|split]].
  - rewrite (bcache_view _ _ Ek). by apply (alter_view k i (set_b_valid 1 ∘ (set_b_disk 0 ∘ set_b_data d)) b).
  - intros z. destruct (bcache_links _ _ z Ek) as [-> ->]. split; [by apply nx_alter|by apply pv_alter].
  - exact (f_equal k_disk C2).
  - unfold bio_frame. transitivity (set_k_bcache (k_bcache k') (core k2)); [by destruct k2|].
    rewrite C2. pose proof (f_equal k_disk C2) as Hd. simpl in Hd. simpl (k_disk k'). rewrite Hd. by destruct k.
Qed.

(** bread() of a block that the process does not hold: the buffer has the
    contents of the block, and is now held; no contents change. *)
Lemma bread_spec k me pid D H bno :
  bio k me pid D H -> bno ∉ H.*2 -> bno ∈ D \/ (size D + length H < Z.to_nat NBUF)%nat -> 0 <= bno < 2 ^ 31 ->
  wp env (bread dev bno k) (fun i k' => bio k' me pid D ((i, bno) :: H) /\
    (forall z, content k' z = content k z) /\ k_disk k' = k_disk k /\ bio_frame k k').
Proof.
  intros B Hbno Hsz Hrg. destruct (bget_spec k me pid D H bno B Hbno Hsz) as (i & g & b & E & Eb & Hi & Hcase).
  unfold bread. eapply wp_bind_run; [exact E|]. set (k1 := alter_buf i g (relax k)).
  assert (Eb1 : k_bufs k1 !! i = Some (g b)).
  { unfold k1. rewrite alter_buf_lookup, decide_True by done. change (k_bufs (relax k)) with (k_bufs k). by rewrite Eb. }
  assert (T1 : thread k1 me pid) by (apply (thread_ext (relax k)); try done; apply thread_relax, B).
  assert (Hg : forall d, nolinks (g d) = g (nolinks d)) by (destruct Hcase as [[-> _]|[-> _]]; done).
  assert (Hkl : keeps_links g) by (destruct Hcase as [[-> _]|[-> _]]; done).
  assert (Ev : view k !! i = Some (nolinks b)) by (apply view_lookup; by exists b).
  assert (V1 : view k1 = <[i := nolinks (g b)]> (view k)) by exact (alter_view (relax k) i g b Hg Eb).
  assert (L1 : forall z, nx k1 z = nx k z /\ pv k1 z = pv k z)
    by (intros z; split; [by apply (nx_alter (relax k))|by apply (pv_alter (relax k))]).
  assert (Hc0 : b_dev (nolinks b) = dev /\ b_blockno (nolinks b) = bno \/ b_refcnt (nolinks b) = 0 /\
    forall j d, view k !! j = Some d -> ~ (b_dev d = dev /\ b_blockno d = bno)) by naive_solver.
  assert (Href : b_refcnt (g b) = b2z (bool_decide (bno ∈ D)) + 1).
  { pose proof (bi_ref _ _ _ _ _ B i _ Ev) as Hr. rewrite (bool_decide_false (i ∈ H.*1)) in Hr by done.
    destruct Hcase as [(-> & Hd & Hb)|(-> & Hr0 & Hno)]; simpl in *.
    - rewrite Hr. rewrite Hd, Hb. rewrite (bool_decide_ext (dev = dev /\ bno ∈ D) (bno ∈ D)) by tauto.
      by destruct (bool_decide (bno ∈ D)).
    - rewrite bool_decide_false; [done|]. intros Hin.
      destruct (bi_pin _ _ _ _ _ B bno Hin) as (j & d & Ed & H1 & H2 & _). by destruct (Hno j d Ed). }
  eapply wp_bind_run; [exact (get_buf_run _ _ _ Eb1)|].
  destruct (b_valid (g b) =? 0) eqn:Hval; bool_prop; cbn [when].
  - assert (Hbno' : b_blockno (g b) = bno) by (destruct Hcase as [(-> & _ & ?)|(-> & _)]; done).
    apply wp_bind. eapply wp_mono; [apply (fill_spec k1 me pid i (g b) T1 (bi_vdisk _ _ _ _ _ B) Eb1); by rewrite Hbno'|].
    intros _ k2 (T2 & VD2 & V2 & L2 & Dk2 & F2). simpl. set (c := nolinks _) in V2.
    edestruct (bio_got k k2 me pid D H i bno (nolinks b) c) as [B1 C1]; try done.
    + split; try done.
      * by destruct Hcase as [(-> & ? & _)|(-> & _)].
      * by destruct Hcase as [(-> & _)|(-> & _)].
      * unfold c. simpl. rewrite Hbno'. change (k_disk k1) with (k_disk k). unfold content.
        destruct Hcase as [(-> & Hd & <-)|(-> & _ & Hno)]; [|by rewrite cached_None].
        change (b_blockno b) with (b_blockno (nolinks b)).
        rewrite (cached_Some (view k) i (nolinks b) Ev Hd); [by rewrite (proj2 (Z.eqb_eq (b_valid (nolinks b)) 0) Hval)|].
        intros j d Ej Hdd Hbb. by apply (bi_uniq _ _ _ _ _ B i j (nolinks b) d).
    + by rewrite V2, V1, list_insert_insert_eq.
    + by rewrite (bio_frame_locks _ _ F2).
    + intros z. destruct (L1 z), (L2 z). by split; etrans.
  - eapply wp_bind_run; [done|]. simpl.
    destruct Hcase as [(-> & Hd & Hb)|(-> & _)]; [|done].
    edestruct (bio_got k k1 me pid D H i bno (nolinks b) (nolinks (bget_hit pid b))) as [B1 C1]; try done.
    + split; try done. simpl. rewrite <- Hb. symmetry. exact (content_buf k me pid D H i (nolinks b) B Ev Hd Hval).
    + apply B.
Qed.

(** * The operations on a buffer that the process holds *)

Lemma bio_perm k me pid D H H' : H ≡ₚ H' -> bio k me pid D H -> bio k me pid D H'.
Proof.
  intros Hp B. assert (Hin : forall i, i ∈ H'.*1 <-> i ∈ H.*1) by (intros i; by rewrite Hp).
  destruct B. split; try done.
  - by rewrite <- Hp.
  - intros i bno. rewrite <- Hp. apply bi_held0.
  - intros i bno. rewrite <- Hp. apply bi_range0.
  - intros i b Eb. rewrite Hin. by apply bi_free0.
  - intros i b Eb. rewrite (bi_ref0 i b Eb). do 2 f_equal. apply bool_decide_ext. by rewrite Hin.
  - intros i b Eb. rewrite Hin. by apply bi_clean0.
Qed.

Section Held.
Context (k : kernel) (me : nat) (pid : Z) (D : gset Z) (H : list (nat * Z)) (i : nat) (bno : Z).
Context (B : bio k me pid D H) (Hin : (i, bno) ∈ H).

Lemma held_in : i ∈ H.*1.
Proof. apply list_elem_of_fmap. by exists (i, bno). Qed.

(** The buffer behind a held block. *)
Lemma held_buf :
  exists b, k_bufs k !! i = Some b /\ view k !! i = Some (nolinks b) /\ b_dev b = dev /\ b_blockno b = bno /\
    b_valid b <> 0 /\ sl_locked (b_lock b) = 1 /\ sl_pid (b_lock b) = pid /\ b_data b = content k bno /\
    b_refcnt b = b2z (bool_decide (bno ∈ D)) + 1.
Proof.
  destruct (bi_held _ _ _ _ _ B i bno Hin) as (v & Ev & Hd & Hb & Hv & Hl & Hp).
  pose proof (content_buf k me pid D H i v B Ev Hd Hv) as Hc.
  pose proof (bi_ref _ _ _ _ _ B i v Ev) as Hr. rewrite (bool_decide_true _ held_in) in Hr.
  rewrite (bool_decide_ext _ (bno ∈ D)) in Hr by naive_solver.
  pose proof (proj1 (view_lookup _ _ _) Ev) as (b & Eb & ->). exists b. rewrite <- Hb in *. split_and!; done.
Qed.

(** Buffer [i] replaced by [c], which is still held. *)
Lemma held_replace k' b c :
  view k !! i = Some b -> view k' = <[i := c]> (view k) -> k_locks k' = k_locks k -> vd_idle (k_vdisk k') ->
  (forall z, z <> bno -> disk_block (k_disk k') z = disk_block (k_disk k) z) ->
  b_dev c = dev -> b_blockno c = bno -> b_valid c <> 0 -> b_lock c = b_lock b ->
  b_refcnt c = b2z (bool_decide (bno ∈ D)) + 1 ->
  replaces k k' pid D D H H i b c.
Proof.
  intros Ei V Hls Hvd Hdk Hd Hb Hv Hlk Hr. destruct (bi_held _ _ _ _ _ B i bno Hin) as (b0 & E0 & Hd0 & Hb0 & Hv0 & Hl0 & Hp0).
  assert (b0 = b) as -> by congruence. split; try done.
  - by rewrite Hb.
  - intros j d Hj Ej Hdd _ Hbb. apply Hj. apply (bi_uniq _ _ _ _ _ B j i d b); congruence.
  - apply B.
  - intros j z Hj. destruct (decide (j = i)) as [->|Hne]; [|by left]. right.
    destruct (bi_held _ _ _ _ _ B i z Hj) as (b1 & E1 & _ & <- & _). assert (b1 = b) as -> by congruence.
    rewrite Hlk. split_and!; congruence.
  - apply B.
  - intros Hn. by destruct Hn; apply held_in.
  - rewrite Hr, (bool_decide_true _ held_in), Hb. do 2 f_equal. apply bool_decide_ext. tauto.
  - intros _ Hne. congruence.
  - intros _ _ _ Hn. by destruct Hn; apply held_in.
Qed.

Lemma ring_same k' :
  (forall z, nx k' z = nx k z /\ pv k' z = pv k z) ->
  exists l, l ≡ₚ seq 0 (Z.to_nat NBUF) /\ ring (nx k') (pv k') l.
Proof.
  intros Hl. destruct (bi_ring _ _ _ _ _ B) as (l & Hp & Hr). exists l. split; [done|].
  revert Hr. apply seg_frame; intros z _; apply Hl.
Qed.

Lemma set_data_spec d :
  exists k', upd_buf i (set_b_data d) k = Ret tt k' /\ bio k' me pid D H /\
    (forall z, content k' z = if decide (z = bno) then d else content k z) /\
    k_disk k' = k_disk k /\ bio_frame k k'.
Proof.
  destruct held_buf as (b & Eb & Ev & Hd & Hb & Hv & Hl & Hp & Hc & Hr). eexists. split; [apply upd_buf_run|].
  set (k' := alter_buf i (set_b_data d) k). set (c := nolinks (set_b_data d b)).
  assert (V : view k' = <[i := c]> (view k)) by (by apply alter_view).
  assert (R : replaces k k' pid D D H H i (nolinks b) c) by (apply held_replace; try done; apply B).
  assert (B' : bio k' me pid D H).
  { apply (bio_replace k k' me pid D D H H i (nolinks b) c B Ev R).
    - apply (thread_ext k); try done. apply B.
    - apply ring_same. intros z. split; [by apply nx_alter|by apply pv_alter]. }
  split; [done|]. split; [|split; [done|by destruct k]]. intros z. destruct (decide (z = bno)) as [->|Hz].
  - rewrite <- Hb. apply (content_buf k' me pid D H i c B'); try done.
    apply (replaced_lookup k k' pid D D H H i (nolinks b) c Ev R). by left.
  - apply (content_replace k k' me pid D D H H i (nolinks b) c B Ev R). simpl. congruence.
Qed.

Lemma bwrite_spec :
  wp env (bwrite i k) (fun _ k' => bio k' me pid D H /\ (forall z, content k' z = content k z) /\
    k_disk k' = disk_write bno (content k bno) (k_disk k) /\ bio_frame k k').
Proof.
  destruct held_buf as (b & Eb & Ev & Hd & Hb & Hv & Hl & Hp & Hc & Hr). unfold bwrite.
  assert (Hlt : (i < Z.to_nat NBUF)%nat).
  { rewrite <- (bi_len _ _ _ _ _ B), view_length. by eapply lookup_lt_Some. }
  eapply wp_bind_run.
  { apply (holdingsleep_run k me pid (SBuf i) (b_lock b)); [apply B|by apply (bi_locks _ _ _ _ _ B)|]. simpl. by rewrite Eb. }
  rewrite Hl, Hp, Z.eqb_refl. simpl (negb _). cbv iota.
  eapply wp_mono; [apply (disk_write_ok (relax k) me pid i b); [apply thread_relax, B|apply (bi_vdisk _ _ _ _ _ B)|exact Eb|rewrite Hb; by apply (bi_range _ _ _ _ _ B i)]|].
  intros _ k' (T' & V' & C'). rewrite Hb, Hc in C'. pose proof (core_bcache _ _ C') as Ek.
  set (c := nolinks (set_b_disk 0 b)).
  assert (V : view k' = <[i := c]> (view k)) by (rewrite (bcache_view _ _ Ek); by apply (alter_view k i (set_b_disk 0) b)).
  assert (Dk : k_disk k' = disk_write bno (content k bno) (k_disk k)) by exact (f_equal k_disk C').
  assert (R : replaces k k' pid D D H H i (nolinks b) c).
  { apply held_replace; try done; [exact (f_equal k_locks C')|]. intros z Hz. rewrite Dk, disk_block_write.
    by rewrite decide_False. }
  assert (B' : bio k' me pid D H).
  { apply (bio_replace k k' me pid D D H H i _ _ B Ev R T'). apply ring_same. intros z. destruct (bcache_links _ _ z Ek) as [-> ->]. split; [by apply (nx_alter (relax k))|by apply (pv_alter (relax k))]. }
  split; [done|]. split; [|split; [done|]].
  - intros z. destruct (decide (z = bno)) as [->|Hz].
    + rewrite <- Hc, <- Hb. apply (content_buf k' me pid D H i c B'); try done.
      apply (replaced_lookup k k' pid D D H H i _ _ Ev R). by left.
    + apply (content_replace k k' me pid D D H H i _ _ B Ev R). simpl. congruence.
  - unfold bio_frame. rewrite C', Dk. pose proof (core_bcache _ _ C') as Ekk. rewrite Ekk. by destruct k.
Qed.
End Held.

(** brelse() of a buffer that is pinned or as on the disk. *)
Lemma brelse_spec k me pid D H i bno :
  bio k me pid D ((i, bno) :: H) -> bno ∈ D \/ content k bno = disk_block (k_disk k) bno ->
  exists k', brelse i k = Ret tt k' /\ bio k' me pid D H /\
    (forall z, content k' z = content k z) /\ k_disk k' = k_disk k /\ bio_frame k k'.
Proof.
  intros B Hclean. assert (Hin : (i, bno) ∈ (i, bno) :: H) by set_solver.
  destruct (held_buf k me pid D _ i bno B Hin) as (b & Eb & Ev & Hd & Hb & Hv & Hl & Hp & Hc & Hr).
  destruct (bi_ring _ _ _ _ _ B) as (l & Hpm & Hrg).
  pose proof (bio_ready _ _ _ _ _ _ B Hpm Hrg) as Rd.
  assert (Hi : i ∈ l).
  { rewrite Hpm. apply elem_of_seq. apply lookup_lt_Some in Eb. rewrite <- view_length, (bi_len _ _ _ _ _ B) in Eb. lia. }
  apply list_elem_of_split in Hi as (l1 & l2 & ->).
  assert (Hnd : NoDup (l1 ++ i :: l2)) by (rewrite Hpm; apply NoDup_seq).
  destruct (brelse_run k me pid l1 i l2 b Rd Hnd Eb) as (k' & E & T' & F & [Dk Vd] & Rg & V); [lia|done|].
  exists k'. split; [done|]. set (c := drop_ref (drop_lock (nolinks b))).
  pose proof (bi_nodup _ _ _ _ _ B) as [HiH HndH]%NoDup_cons.
  assert (V' : view k' = <[i := c]> (view k)).
  { rewrite V. exact (list_alter_at _ _ _ _ Ev). }
  assert (Hrc : b_refcnt c = b2z (bool_decide (bno ∈ D))).
  { unfold c. simpl. rewrite Hr. by destruct (bool_decide (bno ∈ D)). }
  assert (R : replaces k k' pid D D ((i, bno) :: H) H i (nolinks b) c).
  { split; try done.
    - by apply bio_frame_locks.
    - rewrite Vd. apply B.
    - intros z _. by rewrite Dk.
    - intros j d Hj Ej Hdd _ Hbb. apply Hj. apply (bi_uniq _ _ _ _ _ B j i d (nolinks b)); done.
    - intros j z Hj. left. split; [set_solver|]. intros ->. apply HiH, list_elem_of_fmap. by exists (i, z).
    - intros j z Hj. apply (bi_range _ _ _ _ _ B j). set_solver.
    - intros j Hj. simpl. set_solver.
    - rewrite Hrc. rewrite (bool_decide_false _ HiH). change (b_blockno c) with (b_blockno b). rewrite Hb.
      rewrite (bool_decide_ext (b_dev c = dev /\ bno ∈ D) (bno ∈ D)) by (change (b_dev c) with (b_dev b); tauto).
      unfold b2z. lia.
    - intros _ _ HD _. change (b_blockno c) with (b_blockno b) in *. rewrite Hb in *.
      change (b_data c) with (b_data b). rewrite Dk, Hc. by destruct Hclean. }
  assert (B' : bio k' me pid D H).
  { apply (bio_replace k k' me pid D D _ H i _ _ B Ev R T').
    eexists. split; [|exact Rg]. destruct (_ =? 0); [|done]. by rewrite <- Hpm, Permutation_middle. }
  split; [done|]. split; [|done]. intros z. destruct (decide (z = bno)) as [->|Hz].
  - rewrite <- Hc, <- Hb. apply (content_buf k' me pid D H i c B'); try done.
    apply (replaced_lookup k k' pid D D _ H i _ _ Ev R). by left.
  - apply (content_replace k k' me pid D D _ H i _ _ B Ev R). simpl. congruence.
Qed.

(** A change of the number of pins of a held block. *)
Lemma repin_spec k me pid D D' H i bno f :
  bio k me pid D H -> (i, bno) ∈ H ->
  (forall z, z <> bno -> z ∈ D' <-> z ∈ D) ->
  (forall b, keeps_links f /\ nolinks (f b) = f (nolinks b) /\ b_dev (f b) = b_dev b /\ b_blockno (f b) = b_blockno b /\
     b_valid (f b) = b_valid b /\ b_lock (f b) = b_lock b /\ b_data (f b) = b_data b) ->
  (forall b, b_refcnt b = b2z (bool_decide (bno ∈ D)) + 1 -> b_refcnt (f b) = b2z (bool_decide (bno ∈ D')) + 1) ->
  exists k', (do! acquire LBcache; do! upd_buf i f; release LBcache) k = Ret tt k' /\ bio k' me pid D' H /\
    (forall z, content k' z = content k z) /\ k_disk k' = k_disk k /\ bio_frame k k'.
Proof.
  intros B Hin HD Hf Hrf.
  destruct (held_buf k me pid D _ i bno B Hin) as (b & Eb & Ev & Hd & Hb & Hv & Hl & Hp & Hc & Hr).
  destruct (Hf b) as (Hkl & Hnl & Fd & Fb & Fv & Fl & Fda).
  eexists. split.
  { apply (critical_unit_run k LBcache (upd_buf i f) (alter_buf i f)); try done; [|apply B].
    eapply thread_cpu_ok, B. }
  set (k' := alter_buf i f (relax k)).
  assert (V : view k' = <[i := nolinks (f b)]> (view k)) by (apply (alter_view (relax k)); [apply Hf|done]).
  assert (Hi : i ∈ H.*1) by (by eapply held_in).
  assert (R : replaces k k' pid D D' H H i (nolinks b) (nolinks (f b))).
  { split; try done; simpl; rewrite ?Fd, ?Fb, ?Fv, ?Fl, ?Hb; try done.
    - apply B.
    - intros j d Hj Ej Hdd _ Hbb. apply Hj. apply (bi_uniq _ _ _ _ _ B j i d (nolinks b)); simpl; congruence.
    - apply B.
    - intros j z Hj. destruct (decide (j = i)) as [->|Hne]; [right|by left].
      destruct (bi_held _ _ _ _ _ B i z Hj) as (b1 & E1 & _ & <- & _). assert (b1 = nolinks b) as -> by congruence.
      simpl. split_and!; congruence.
    - apply B.
    - rewrite (Hrf b Hr), (bool_decide_true _ Hi). do 2 f_equal. apply bool_decide_ext. tauto. }
  assert (B' : bio k' me pid D' H).
  { apply (bio_replace k k' me pid D D' H H i _ _ B Ev R).
    - apply (thread_ext (relax k)); try done. apply thread_relax, B.
    - apply (ring_same k me pid D H B). intros z. split; [apply (nx_alter (relax k)), Hkl|apply (pv_alter (relax k)), Hkl]. }
  split; [done|]. split; [|split; [done|by destruct k]]. intros z. destruct (decide (z = bno)) as [->|Hz].
  - rewrite <- Hc, <- Fda, <- Hb, <- Fb. apply (content_buf k' me pid D' H i (nolinks (f b)) B'); simpl; try congruence.
    apply (replaced_lookup k k' pid D D' H H i _ _ Ev R). by left.
  - apply (content_replace k k' me pid D D' H H i _ _ B Ev R). simpl. congruence.
Qed.

Lemma bpin_spec k me pid D H i bno :
  bio k me pid D H -> (i, bno) ∈ H -> bno ∉ D ->
  exists k', bpin i k = Ret tt k' /\ bio k' me pid ({[bno]} ∪ D) H /\
    (forall z, content k' z = content k z) /\ k_disk k' = k_disk k /\ bio_frame k k'.
Proof.
  intros B Hin Hn. apply (repin_spec k me pid D _ H i bno); try done.
  - set_solver.
  - intros b Hr. simpl. rewrite Hr, (bool_decide_false _ Hn), bool_decide_true by set_solver. done.
Qed.

Lemma bunpin_spec k me pid D H i bno :
  bio k me pid D H -> (i, bno) ∈ H -> bno ∈ D ->
  exists k', bunpin i k = Ret tt k' /\ bio k' me pid (D ∖ {[bno]}) H /\
    (forall z, content k' z = content k z) /\ k_disk k' = k_disk k /\ bio_frame k k'.
Proof.
  intros B Hin Hy. apply (repin_spec k me pid D _ H i bno); try done.
  - set_solver.
  - intros b Hr. simpl. rewrite Hr, (bool_decide_true _ Hy), bool_decide_false by set_solver. done.
Qed.
End Cache.
