(* ===== verification/VirtioSpec.v ===== *)
(** The disk driver (kernel/virtio_disk.c) keeps what the buffer cache relies on: a request
    goes to the device, the process sleeps, the interrupt handler wakes it, and the
    block has been read or written. *)

From Stdlib Require Import ZArith Lia.
From stdpp Require Import base gmap list_numbers strings numbers list.
From S2P Require Import Prelude Mem Riscv Kernel Spinlock Kalloc Vm Printf Sched SchedSpec Thread.
From S2P Require Import Sleeplock SleeplockSpec Virtio Bio BioSpec BioInv.

Open Scope Z_scope.

Implicit Types (k : kernel) (d : vdisk).

Section Driver.
Context {VD : VirtioDevice}.

(** * The descriptors of a request *)

(** The driver's state when the request is with the device. *)
Definition submitted (b : nat) (w : bool) (sector : Z) (d : vdisk) : vdisk :=
  let a := vd_avail d in
  mkVdisk (vd_desc_pa d) (vd_avail_pa d) (vd_used_pa d)
    (mkVirtqDesc (DmaReq 0) blk_req_size VRING_DESC_F_NEXT 1 ::
     mkVirtqDesc (DmaData b) BSIZE (if w then 1 else 3) 2 ::
     mkVirtqDesc (DmaStatus 0) 1 VRING_DESC_F_WRITE 0 :: drop 3 (vd_desc d))
    (mkVirtqAvail (va_flags a) (u16 (va_idx a + 1)) (<[Z.to_nat (va_idx a mod NUM) := 0]> (va_ring a)) (va_unused a))
    (vd_used d) [0; 0; 0; 1; 1; 1; 1; 1] (vd_used_idx d)
    (mkDiskInfo (Some b) 0xff :: drop 1 (vd_info d))
    (mkBlkReq (if w then VIRTIO_BLK_T_OUT else VIRTIO_BLK_T_IN) 0 sector :: drop 1 (vd_ops d))
    (vd_mmio d ++ [(VIRTIO_MMIO_QUEUE_NOTIFY, 0)]).

Lemma at_idx_run {A} why (l : list A) (i : nat) x k : l !! i = Some x -> at_idx why l (Z.of_nat i) k = Ret x k.
Proof. intros E. unfold at_idx. rewrite (proj2 (Z.leb_le _ _)) by lia. by rewrite Nat2Z.id, E. Qed.

(** alloc_desc() takes the first free descriptor. *)
Lemma alloc_desc_run k i fs :
  vd_free (k_vdisk k) = replicate i 0 ++ 1 :: fs -> (i < Z.to_nat NUM)%nat ->
  alloc_desc k = Ret (Z.of_nat i) (set_k_vdisk (set_vd_free (replicate i 0 ++ 0 :: fs) (k_vdisk k)) k).
Proof.
  intros Hf Hi. unfold alloc_desc.
  assert (G : forall m n j, (j + m = i)%nat -> (m < n)%nat -> alloc_desc_loop n (Z.of_nat j) k =
    Ret (Z.of_nat i) (set_k_vdisk (set_vd_free (replicate i 0 ++ 0 :: fs) (k_vdisk k)) k)).
  { induction m as [|m IH]; intros n j Hj Hn; (destruct n as [|n]; [lia|]); cbn [alloc_desc_loop];
      rewrite bind_run with (a := k_vdisk k) (s' := k) by done.
    - assert (j = i) as -> by lia. rewrite (bind_run _ _ _ _ _ (at_idx_run _ (vd_free (k_vdisk k)) i 1 k ltac:(rewrite Hf, lookup_app_r, length_replicate, Nat.sub_diag by (rewrite length_replicate; lia); done))).
      simpl (negb _). cbv iota. unfold bind, upd_vdisk, modify, ret. cbn [obind]. rewrite Nat2Z.id, Hf.
      by rewrite insert_app_r_alt, length_replicate, Nat.sub_diag by (rewrite length_replicate; lia).
    - rewrite (bind_run _ _ _ _ _ (at_idx_run _ (vd_free (k_vdisk k)) j 0 k ltac:(rewrite Hf, lookup_app_l, lookup_replicate_2 by (rewrite ?length_replicate; lia); done))).
      simpl (negb _). cbv iota. rewrite <- (IH n (S j)) by lia. f_equal. lia. }
  by apply (G i _ 0%nat).
Qed.

Lemma alloc3_run k :
  vd_idle (k_vdisk k) ->
  alloc3_desc k = Ret (0, [0; 1; 2]) (set_k_vdisk (set_vd_free [0; 0; 0; 1; 1; 1; 1; 1] (k_vdisk k)) k).
Proof.
  intros V. pose proof (vi_free _ V) as Hf. unfold alloc3_desc. cbn [alloc3_desc_loop].
  set (k1 := set_k_vdisk (set_vd_free (replicate 0 0 ++ 0 :: replicate 7 1) (k_vdisk k)) k).
  set (k2 := set_k_vdisk (set_vd_free (replicate 1 0 ++ 0 :: replicate 6 1) (k_vdisk k1)) k1).
  assert (E1 : alloc_desc k = Ret 0 k1) by exact (alloc_desc_run k 0 (replicate 7 1) Hf ltac:(change NUM with 8; lia)).
  assert (E2 : alloc_desc k1 = Ret 1 k2) by exact (alloc_desc_run k1 1 (replicate 6 1) eq_refl ltac:(change NUM with 8; lia)).
  pose proof (alloc_desc_run k2 2 (replicate 5 1) eq_refl ltac:(change NUM with 8; lia)) as E3.
  rewrite (bind_run _ _ _ _ _ E1). cbn [Z.ltb Z.compare]. rewrite (bind_run _ _ _ _ _ E2). cbn [Z.ltb Z.compare].
  by rewrite (bind_run _ _ _ _ _ E3).
Qed.

Lemma alloc_run k :
  vd_idle (k_vdisk k) ->
  rw_alloc sleep_rounds k = Ret [0; 1; 2] (set_k_vdisk (set_vd_free [0; 0; 0; 1; 1; 1; 1; 1] (k_vdisk k)) k).
Proof.
  intros V. change sleep_rounds with (S 999). generalize 999%nat as n. intros n. cbn [rw_alloc].
  by rewrite (bind_run _ _ _ _ _ (alloc3_run k V)).
Qed.

Lemma format_run k b w sector (e0 e1 e2 : virtq_desc) es o os n ns :
  vd_desc (k_vdisk k) = e0 :: e1 :: e2 :: es -> vd_ops (k_vdisk k) = o :: os -> vd_info (k_vdisk k) = n :: ns ->
  format_request b w sector 0 1 2 k =
    Ret tt (set_k_vdisk (set_vd_desc (mkVirtqDesc (DmaReq 0) blk_req_size VRING_DESC_F_NEXT 1 ::
       mkVirtqDesc (DmaData b) BSIZE (if w then 1 else 3) 2 :: mkVirtqDesc (DmaStatus 0) 1 VRING_DESC_F_WRITE 0 :: es)
       (set_vd_ops (mkBlkReq (if w then VIRTIO_BLK_T_OUT else VIRTIO_BLK_T_IN) 0 sector :: os)
       (set_vd_info (set_di_status 0xff n :: ns) (k_vdisk k)))) k).
Proof.
  intros Hd Ho Hn. destruct k as [? ? ? ? ? ? ? ? ? ? ? ? ? ? ? ? ? ? ? ? ? []]. simpl in *. subst. by destruct w.
Qed.

(** The part of virtio_disk_rw() before the wait. *)
Lemma request_run {A} k b w sector (f : Z -> K A) :
  vd_idle (k_vdisk k) ->
  (let! idx := rw_alloc sleep_rounds in
   let! i0 := at_idx "idx[]" idx 0 in
   let! i1 := at_idx "idx[]" idx 1 in
   let! i2 := at_idx "idx[]" idx 2 in
   do! format_request b w sector i0 i1 i2;
   do! upd_buf b (set_b_disk 1);
   do! upd_info i0 (set_di_b (Some b));
   do! submit i0;
   f i0) k = f 0 (set_k_vdisk (submitted b w sector (k_vdisk k)) (alter_buf b (set_b_disk 1) k)).
Proof.
  intros V. rewrite (bind_run _ _ _ _ _ (alloc_run k V)). set (k1 := set_k_vdisk _ k).
  destruct V as [Vd _ _ _ Vi Vo _ _ _ _].
  destruct (vd_desc (k_vdisk k)) as [|e0 [|e1 [|e2 es]]] eqn:Ed; try done.
  destruct (vd_ops (k_vdisk k)) as [|o os] eqn:Eo; [done|]. destruct (vd_info (k_vdisk k)) as [|n ns] eqn:En; [done|].
  rewrite bind_run with (a := 0) (s' := k1) by reflexivity. rewrite bind_run with (a := 1) (s' := k1) by reflexivity.
  rewrite bind_run with (a := 2) (s' := k1) by reflexivity.
  rewrite (bind_run _ _ _ _ _ (format_run k1 b w sector e0 e1 e2 es o os n ns Ed Eo En)).
  unfold submitted. rewrite Ed, Eo, En. reflexivity.
Qed.

(** * Freeing the descriptors *)

Definition freed (i : nat) (d : vdisk) : vdisk :=
  set_vd_free (<[i := 1]> (vd_free d)) (set_vd_desc (<[i := no_desc]> (vd_desc d)) d).

(** The state with another process table and another state of the driver. *)
Definition with_driver (l : list proc) (d : vdisk) (k : kernel) : kernel := set_procs l (set_k_vdisk d k).

Lemma with_driver_again l d l' d' k : with_driver l' d' (with_driver l d k) = with_driver l' d' k.
Proof. done. Qed.

Lemma with_driver_relax l d k : relax (with_driver l d k) = with_driver l d (relax k).
Proof. by apply (data_only_relax (with_driver l d)). Qed.

Lemma upd_desc_run k (i : nat) f e :
  vd_desc (k_vdisk k) !! i = Some e ->
  upd_desc (Z.of_nat i) f k = Ret tt (set_k_vdisk (set_vd_desc (<[i := f e]> (vd_desc (k_vdisk k))) (k_vdisk k)) k).
Proof.
  intros E. unfold upd_desc, get_desc. rewrite bind_run with (a := e) (s' := k).
  - unfold upd_vdisk, modify. by rewrite Nat2Z.id.
  - rewrite bind_run with (a := k_vdisk k) (s' := k) by done. by apply at_idx_run.
Qed.

Lemma free_desc_run k me pid i e :
  running k me pid -> relax k = k -> (i < Z.to_nat NUM)%nat ->
  vd_free (k_vdisk k) !! i = Some 0 -> vd_desc (k_vdisk k) !! i = Some e ->
  exists l, free_desc (Z.of_nat i) k = Ret tt (with_driver l (freed i (k_vdisk k)) k) /\
    running (with_driver l (freed i (k_vdisk k)) k) me pid.
Proof.
  intros R Hr Hi Hf He. unfold free_desc. rewrite (proj2 (Z.leb_gt _ _)) by lia.
  rewrite bind_run with (a := k_vdisk k) (s' := k) by done.
  rewrite (bind_run _ _ _ _ _ (at_idx_run _ _ _ _ k Hf)). cbn [Z.eqb negb]. cbv iota.
  assert (Hlt : (i < length (vd_desc (k_vdisk k)))%nat) by (by eapply lookup_lt_Some).
  do 4 (erewrite bind_run; [|apply upd_desc_run; simpl; rewrite ?list_lookup_insert_eq by (rewrite ?length_insert; done); reflexivity || exact He]).
  rewrite bind_run with (a := tt) (s' := set_k_vdisk (freed i (k_vdisk k)) k).
  - set (k1 := set_k_vdisk _ k). assert (R1 : running k1 me pid) by (by apply (running_ext k)).
    exists (imap (wake (Some me) (Some ChDiskFree)) (k_procs k1)).
    pose proof (wakeup_run k1 (Some me) (Some ChDiskFree) (running_wake_ready _ _ _ R1)) as E.
    unfold wakeup. rewrite E. unfold k1. rewrite (data_only_relax (set_k_vdisk (freed i (k_vdisk k)))), Hr by done.
    split; [reflexivity|by apply running_wake].
  - unfold upd_vdisk, modify, freed. simpl. rewrite Nat2Z.id, !list_insert_insert_eq. done.
Qed.

Lemma free_chain_run k me pid e0 e1 e2 es fs :
  running k me pid -> relax k = k ->
  vd_desc (k_vdisk k) = e0 :: e1 :: e2 :: es -> vd_free (k_vdisk k) = 0 :: 0 :: 0 :: fs ->
  vd_flags e0 = 1 -> vd_next e0 = 1 -> Z.land (vd_flags e1) 1 = 1 -> vd_next e1 = 2 -> vd_flags e2 = 2 ->
  exists l d, free_chain 0 k = Ret tt (with_driver l d k) /\ running (with_driver l d k) me pid /\
    d = set_vd_free (1 :: 1 :: 1 :: fs) (set_vd_desc (no_desc :: no_desc :: no_desc :: es) (k_vdisk k)).
Proof.
  intros R Hr Hd Hf F0 N0 F1 N1 F2. unfold free_chain. change (S (Z.to_nat NUM)) with 9%nat. cbn [free_chain_loop].
  assert (HN : forall i, (i < 3)%nat -> (i < Z.to_nat NUM)%nat) by (change NUM with 8; lia).
  destruct (free_desc_run k me pid 0 e0 R Hr ltac:(apply HN; lia)) as (l1 & E1 & R1); [by rewrite Hf|by rewrite Hd|].
  set (k1 := with_driver l1 _ k) in *. assert (Hr1 : relax k1 = k1) by (unfold k1; by rewrite with_driver_relax, Hr).
  destruct (free_desc_run k1 me pid 1 e1 R1 Hr1 ltac:(apply HN; lia)) as (l2 & E2 & R2);
    [unfold k1; simpl; by rewrite Hf|unfold k1; simpl; by rewrite Hd|].
  set (k2 := with_driver l2 _ k1) in *. assert (Hr2 : relax k2 = k2) by (unfold k2; by rewrite with_driver_relax, Hr1).
  destruct (free_desc_run k2 me pid 2 e2 R2 Hr2 ltac:(apply HN; lia)) as (l3 & E3 & R3);
    [unfold k2, k1; simpl; by rewrite Hf|unfold k2, k1; simpl; by rewrite Hd|].
  set (k3 := with_driver l3 _ k2) in *.
  assert (G0 : get_desc 0 k = Ret e0 k) by (unfold get_desc; rewrite bind_run with (a := k_vdisk k) (s' := k) by done; by rewrite Hd).
  assert (G1 : get_desc 1 k1 = Ret e1 k1).
  { unfold get_desc. rewrite bind_run with (a := k_vdisk k1) (s' := k1) by done. unfold k1. simpl. by rewrite Hd. }
  assert (G2 : get_desc 2 k2 = Ret e2 k2).
  { unfold get_desc. rewrite bind_run with (a := k_vdisk k2) (s' := k2) by done. unfold k2, k1. simpl. by rewrite Hd. }
  unfold VRING_DESC_F_NEXT. rewrite (bind_run _ _ _ _ _ G0), (bind_run _ _ _ _ _ E1), F0, N0.
  change (negb (Z.land 1 1 =? 0)) with true. cbv iota.
  rewrite (bind_run _ _ _ _ _ G1), (bind_run _ _ _ _ _ E2), F1, N1. change (negb (1 =? 0)) with true. cbv iota.
  rewrite (bind_run _ _ _ _ _ G2), (bind_run _ _ _ _ _ E3), F2. change (negb (Z.land 2 1 =? 0)) with false. cbv iota.
  exists l3, (freed 2 (k_vdisk k2)). split; [done|]. split; [done|].
  unfold k2, k1, freed. simpl. rewrite Hd, Hf. reflexivity.
Qed.

(** * While the process sleeps

    The CPU goes back to the scheduler; the device carries out the request and
    raises its interrupt; the handler makes the process RUNNABLE; the
    scheduler switches to it. *)

(** What scheduler() does after swtch() has returned to it. *)
Definition switched_back (c me : nat) : K unit :=
  do! kvminithart;
  do! upd_cpu c (set_c_proc None);
  release (LProc me).

Definition disk_round (k k' : kernel) : Prop :=
  exists me c k1 k2 k3 r, k_cpus k !! this_cpu k = Some c /\ c_proc c = Some me /\
    switched_back (this_cpu k) me k = Ret tt k1 /\ serve k1 k2 /\ virtio_disk_intr k2 = Ret tt k3 /\
    schedule_one (this_cpu k) me k3 = Switch k' r.

Lemma switched_back_run k i c me name :
  on_cpu k i c -> c_noff c = 1 -> k_locks k !! LProc me = Some (mkSpinlock 1 name (Some i)) ->
  exists h cs c', switched_back i me k = Ret tt (with_cpu h cs (<[LProc me := mkSpinlock 0 name None]> (k_locks k)) k) /\
    on_cpu (with_cpu h cs (<[LProc me := mkSpinlock 0 name None]> (k_locks k)) k) i c' /\ c_noff c' = 0 /\ c_proc c' = None.
Proof.
  intros OC Hn Hl. unfold switched_back.
  set (k1 := set_k_hart (set_h_satp (MAKE_SATP (k_kernel_pagetable k)) (k_hart k)) k).
  rewrite bind_run with (a := tt) (s' := k1) by done.
  set (k2 := set_k_cpus (alter (set_c_proc None) i (k_cpus k)) k1).
  rewrite bind_run with (a := tt) (s' := k2) by done.
  assert (OC2 : on_cpu k2 i (set_c_proc None c)).
  { destruct OC. split; try done. simpl. by rewrite list_lookup_alter_eq, oc_cpu. }
  destruct (release_inner_run k2 (LProc me) i _ name OC2 Hn Hl) as (E & O & _).
  eexists _, _, _. split; [exact E|]. split; [exact O|]. done.
Qed.

(** The scheduler gives the CPU to a RUNNABLE process. *)
Lemma schedule_one_run k i c me name p :
  on_cpu k i c -> c_noff c = 0 -> k_locks k !! LProc me = Some (mkSpinlock 0 name None) ->
  k_procs k !! me = Some p -> p_state p = RUNNABLE ->
  exists h cs c' r,
    let k' := alter_proc me (set_p_state RUNNING) (with_cpu h cs (<[LProc me := mkSpinlock 1 name (Some i)]> (k_locks k)) k) in
    schedule_one i me k = Switch k' r /\ on_cpu k' i c' /\ c_noff c' = 1 /\ c_proc c' = Some me.
Proof.
  intros OC Hn Hl Hp Hs. unfold schedule_one.
  assert (Hk : cpu_ok k) by (by exists i, c).
  rewrite (bind_run _ _ _ _ _ (acquire_run k (LProc me) Hk (ex_intro _ name Hl))). set (k1 := enter (LProc me) k).
  rewrite (bind_run _ _ _ _ _ (get_proc_run k1 me p Hp)). rewrite decide_True by done.
  assert (O1 : on_cpu k1 i (cpu_off (intr k) c)) by (by apply (on_cpu_ext (pushed k)), pushed_on_cpu).
  exists (set_h_satp (MAKE_SATP (p_kpagetable p)) (k_hart k1)), (alter (set_c_proc (Some me)) i (k_cpus k1)).
  eexists (set_c_proc (Some me) (cpu_off (intr k) c)), _. split; [|split; [|split]].
  - unfold bind at 1 2 3 4 5 6, upd_proc, upd_cpu, w_satp, sfence_vma, modify, ret, swtch. cbn [obind].
    unfold k1, enter. rewrite (locks_alter _ _ _ _ Hl), (this_cpu_on _ _ _ OC). reflexivity.
  - destruct O1. split; try done. unfold with_cpu. cbn [k_cpus alter_proc set_procs set_k_ptable set_k_hart set_k_cpus].
    by rewrite list_lookup_alter_eq, oc_cpu.
  - unfold cpu_off. simpl. lia.
  - done.
Qed.

(** The driver's state after the handler has seen the one completed request; [v] is
    what it has written to the register for the acknowledgement. *)
Definition seen (v : Z) (d : vdisk) : vdisk :=
  set_vd_used_idx (u16 (vd_used_idx d + 1)) (set_vd_mmio (vd_mmio d ++ [(VIRTIO_MMIO_INTERRUPT_ACK, v)]) d).

(** The ring of used requests has one entry that the driver has not seen, the request of buffer [b] with
    the descriptors from 0. *)
Record completed (d : vdisk) (b : nat) : Prop := {
  co_range : 0 <= vd_used_idx d < 2 ^ 16;
  co_idx : vu_idx (vd_used d) = u16 (vd_used_idx d + 1);
  co_ring : exists len, vu_ring (vd_used d) !! Z.to_nat (vd_used_idx d mod NUM) = Some (mkUsedElem 0 len);
  co_info : vd_info d !! 0%nat = Some (mkDiskInfo (Some b) 0);
}.

Lemma u16_step x : 0 <= x < 2 ^ 16 -> u16 (x + 1) <> x /\ u16 (u16 (x + 1) - x) = 1.
Proof.
  intros Hx. unfold u16. destruct (decide (x + 1 < 2 ^ 16)) as [H|H].
  - rewrite (Z.mod_small (x + 1)) by lia. split; [lia|]. by replace (x + 1 - x) with 1 by lia.
  - assert (x = 65535) as -> by lia. done.
Qed.

Lemma intr_loop_run k me b :
  wake_ready k me -> relax k = k -> completed (k_vdisk k) b ->
  intr_loop 2 k = Ret tt (with_driver (imap (wake me (Some (ChBuf b))) (k_procs k))
    (set_vd_used_idx (u16 (vd_used_idx (k_vdisk k) + 1)) (k_vdisk k)) (alter_buf b (set_b_disk 0) k)).
Proof.
  intros W Hr [Hrg Hi (len & Hu) Hn]. cbn [intr_loop].
  rewrite bind_run with (a := k_vdisk k) (s' := k) by done.
  rewrite (proj2 (Z.eqb_neq _ _)) by (rewrite Hi; destruct (u16_step _ Hrg); lia).
  assert (Hm : 0 <= vd_used_idx (k_vdisk k) mod NUM) by (apply Z.mod_pos_bound; done).
  rewrite bind_run with (a := mkUsedElem 0 len) (s' := k).
  2: { unfold at_idx. by rewrite (proj2 (Z.leb_le _ _) Hm), Hu. }
  cbn [ue_id]. change (i32 0) with 0. rewrite bind_run with (a := mkDiskInfo (Some b) 0) (s' := k).
  2: exact (at_idx_run _ _ 0 _ k Hn).
  cbn [di_status di_b need Z.eqb negb]. cbv iota. rewrite bind_run with (a := b) (s' := k) by done.
  rewrite (bind_run _ _ _ _ _ (upd_buf_run _ _ _)). set (k1 := alter_buf b (set_b_disk 0) k).
  assert (W1 : wake_ready k1 me).
  { destruct W as [(i & c & OC & E) Hlen Hf]. split; [|done|done]. exists i, c. split; [by apply (on_cpu_ext k)|done]. }
  pose proof (wakeup_run k1 me (Some (ChBuf b)) W1) as E. unfold wakeup. rewrite (bind_run _ _ _ _ _ E).
  assert (Hr1 : relax k1 = k1) by (unfold k1; by rewrite (data_only_relax (alter_buf b (set_b_disk 0))), Hr).
  rewrite Hr1. unfold upd_vdisk at 1, modify at 1. unfold bind at 1. cbn [obind].
  unfold bind at 1, gets. cbn [obind]. cbn [k_vdisk set_k_vdisk vd_used_idx set_vd_used_idx vd_used].
  change (k_vdisk (set_procs _ _)) with (k_vdisk k). rewrite (proj2 (Z.eqb_eq _ _)) by done. done.
Qed.

Lemma wake_ready_enter k l me :
  (forall j, l <> LProc j) -> wake_ready k me -> wake_ready (enter l k) me.
Proof.
  intros Hl [(i & c & OC & E) Hlen Hf]. split; [|done|].
  - exists i, (cpu_off (intr k) c). split; [by apply (on_cpu_ext (pushed k)), pushed_on_cpu|].
    unfold cpu_off. by destruct (_ =? 0).
  - intros j Hj Hne. destruct (Hf j Hj Hne) as [n Hn]. exists n. simpl. by rewrite lookup_alter_ne.
Qed.

Lemma virtio_disk_intr_run k me b :
  wake_ready k me -> lock_free k LVdisk -> completed (k_vdisk k) b ->
  exists v, virtio_disk_intr k = Ret tt (with_driver (imap (wake me (Some (ChBuf b))) (k_procs k)) (seen v (k_vdisk k))
    (alter_buf b (set_b_disk 0) (relax k))).
Proof.
  intros W Hl Hc. assert (Hk : cpu_ok k) by (destruct W as [(i & c & OC & _) _ _]; by exists i, c).
  set (v := u32 (Z.land (u32 (mmio_read VIRTIO_MMIO_INTERRUPT_STATUS (enter LVdisk k))) 3)). exists v.
  unfold virtio_disk_intr. rewrite (bind_run _ _ _ _ _ (acquire_run _ _ Hk Hl)). set (k1 := enter LVdisk k).
  unfold read_reg. erewrite bind_run by reflexivity.
  set (d := set_vd_mmio (vd_mmio (k_vdisk k) ++ [(VIRTIO_MMIO_INTERRUPT_ACK, v)]) (k_vdisk k)).
  rewrite bind_run with (a := tt) (s' := set_k_vdisk d k1) by done. set (k2 := set_k_vdisk d k1).
  rewrite bind_run with (a := d) (s' := k2) by done.
  assert (Ef : Z.to_nat (u16 (vu_idx (vd_used d) - vd_used_idx d)) = 1%nat).
  { change (vu_idx (vd_used d)) with (vu_idx (vd_used (k_vdisk k))). change (vd_used_idx d) with (vd_used_idx (k_vdisk k)).
    rewrite (co_idx _ _ Hc). by rewrite (proj2 (u16_step _ (co_range _ _ Hc))). }
  rewrite Ef.
  assert (W2 : wake_ready k2 me).
  { destruct (wake_ready_enter k LVdisk me ltac:(done) W) as [(i & c & OC & E) Hlen Hf]. split; [|done|done].
    exists i, c. split; [by apply (on_cpu_ext k1)|done]. }
  assert (Hr2 : relax k2 = k2) by (unfold k2, k1; by rewrite (data_only_relax (set_k_vdisk d)), relax_enter).
  assert (Hc2 : completed (k_vdisk k2) b) by (by destruct Hc; split).
  rewrite (bind_run _ _ _ _ _ (intr_loop_run k2 me b W2 Hr2 Hc2)).
  pose proof (release_upd k LVdisk (fun k => with_driver (imap (wake me (Some (ChBuf b))) (k_procs k)) (seen v (k_vdisk k))
    (alter_buf b (set_b_disk 0) k)) Hk Hl ltac:(done)) as E. exact E.
Qed.

(** * A request from beginning to end *)

(** What the request does to the disk or to the buffer. *)
Definition transfer (b : nat) (w : bool) (bno : Z) (data : list Z) (k : kernel) : kernel :=
  if w then set_k_disk (disk_write bno data (k_disk k)) k else alter_data b (disk_block (k_disk k) bno) k.

Lemma transfer_data b w bno data : data_only (transfer b w bno data).
Proof. by destruct w. Qed.

Context {VL : VirtioLaws}.

Lemma mod_num x : (Z.to_nat (x mod NUM) < Z.to_nat NUM)%nat.
Proof. pose proof (Z.mod_pos_bound x NUM ltac:(done)). lia. Qed.

Lemma serve_run k b w bno d x :
  k_vdisk k = submitted b w (bno * 2) d -> vd_idle d -> k_bufs k !! b = Some x ->
  (exists k', serve k k') /\
  forall k', serve k k' -> exists len, k' = set_k_vdisk (finish 0 0 len (k_vdisk k)) (transfer b w bno (b_data x) k).
Proof.
  intros Ed V Ex.
  assert (P : pending (k_vdisk k) 0).
  { rewrite Ed. split.
    - destruct (vi_config _ V) as (H1 & H2 & H3 & H4 & H5). unfold configured, submitted. simpl. set_solver.
    - simpl. by rewrite (vi_idx _ V).
    - simpl. rewrite (vi_idx _ V), list_lookup_insert_eq; [done|]. rewrite (vi_ring _ V). apply mod_num.
    - simpl. apply last_snoc. }
  assert (Hq : bno * 2 / 2 = bno) by (by rewrite Z.div_mul).
  destruct w.
  - pose proof (serve_out k 0 (mkBlkReq VIRTIO_BLK_T_OUT 0 (bno * 2)) b 0 x P ltac:(by rewrite Ed) Ex eq_refl) as H.
    simpl (rq_sector _) in H. rewrite Hq in H. apply H. by apply Z.mod_mul.
  - pose proof (serve_in k 0 (mkBlkReq VIRTIO_BLK_T_IN 0 (bno * 2)) b 0 P ltac:(by rewrite Ed) eq_refl) as H.
    simpl (rq_sector _) in H. rewrite Hq in H. apply H. by apply Z.mod_mul.
Qed.

(** The process waits for its request. *)
Record waiting (k : kernel) (i me : nat) (c : cpu) (pname : string) (p : proc) (b : nat) (w : bool) (bno : Z) (d : vdisk) (x : buf) : Prop := {
  wt_sole : sole_lock k i me c pname;
  wt_cproc : c_proc c = Some me;
  wt_vdisk : lock_free k LVdisk;
  wt_len : length (k_procs k) = Z.to_nat NPROC;
  wt_free : forall j, (j < Z.to_nat NPROC)%nat -> j <> me -> lock_free k (LProc j);
  wt_proc : k_procs k !! me = Some p;
  wt_state : p_state p = SLEEPING;
  wt_chan : p_chan p = Some (ChBuf b);
  wt_driver : k_vdisk k = submitted b w (bno * 2) d;
  wt_idle : vd_idle d;
  wt_buf : k_bufs k !! b = Some x;
}.

(** The state in which the process goes on. *)
Record served (k k' : kernel) (i me : nat) (b : nat) (w : bool) (bno : Z) (pid : Z) (data : list Z) : Prop := {
  sv_state : exists h cs l v len, k' = with_cpu h cs (k_locks k)
    (with_driver l (seen v (finish 0 0 len (k_vdisk k))) (alter_buf b (set_b_disk 0) (transfer b w bno data k))) /\
    length l = Z.to_nat NPROC /\ (p_pid <$> l !! me) = Some pid;
  sv_cpu : exists c, on_cpu k' i c /\ c_noff c = 1 /\ c_proc c = Some me;
}.

Lemma finish_completed b w sector d len :
  vd_idle d -> completed (finish 0 0 len (submitted b w sector d)) b.
Proof.
  intros V. pose proof (vi_range _ V). split.
  - done.
  - simpl. by rewrite (vi_seen _ V).
  - exists len. simpl. rewrite (vi_seen _ V), list_lookup_insert_eq; [done|]. rewrite (vi_used _ V). apply mod_num.
  - done.
Qed.

(** From the end of the request to the switch back to the process. *)
Lemma served_run k i me c1 pname p b w bno d x h1 cs1 len :
  let ls1 := <[LProc me := mkSpinlock 0 pname None]> (k_locks k) in
  let k1 := with_cpu h1 cs1 ls1 k in
  k_locks k !! LProc me = Some (mkSpinlock 1 pname (Some i)) ->
  waiting k i me c1 pname p b w bno d x ->
  forall c, on_cpu k1 i c -> c_noff c = 0 -> c_proc c = None ->
  exists k3 k' r,
    virtio_disk_intr (set_k_vdisk (finish 0 0 len (k_vdisk k1)) (transfer b w bno (b_data x) k1)) = Ret tt k3 /\
    schedule_one i me k3 = Switch k' r /\ served k k' i me b w bno (p_pid p) (b_data x).
Proof.
  intros ls1 k1 Hl [_ Hcp Hvd Hlen Hfree Hp Hs Hch Hd V Hx] c O1 N1 P1. set (f := finish 0 0 len (k_vdisk k1)).
  assert (Ek : set_k_vdisk f (transfer b w bno (b_data x) k1) = with_cpu h1 cs1 ls1 (set_k_vdisk f (transfer b w bno (b_data x) k)))
    by (unfold k1; by rewrite transfer_data).
  rewrite Ek. set (kt := set_k_vdisk f (transfer b w bno (b_data x) k)). set (k2 := with_cpu h1 cs1 ls1 kt).
  assert (Ept : k_procs k2 = k_procs k) by (unfold k2, kt; by destruct w).
  assert (O2 : on_cpu k2 i c) by (by apply (on_cpu_ext k1)).
  assert (W2 : wake_ready k2 None).
  { split; [by exists i, c|by rewrite Ept|]. intros j Hj _. unfold lock_free. simpl. unfold ls1.
    destruct (decide (j = me)) as [->|Hne]; [exists pname; apply lookup_insert_eq|].
    rewrite lookup_insert_ne by congruence. by apply Hfree. }
  destruct (virtio_disk_intr_run k2 None b W2) as (v & E3).
  { destruct Hvd as [n Hv]. exists n. simpl. unfold ls1. by rewrite lookup_insert_ne. }
  { simpl. unfold f. change (k_vdisk k1) with (k_vdisk k). rewrite Hd. by apply finish_completed. }
  set (k3 := with_driver _ _ _) in E3.
  assert (Ep3 : k_procs k3 = imap (wake None (Some (ChBuf b))) (k_procs k)) by (by rewrite <- Ept).
  assert (Hp3 : k_procs k3 !! me = Some (set_p_state RUNNABLE p)).
  { rewrite Ep3, list_lookup_imap, Hp. simpl. f_equal. unfold wake. by rewrite decide_False, !bool_decide_true by done. }
  destruct (schedule_one_run k3 i (cpu_relax (intr k2) c) me pname (set_p_state RUNNABLE p)) as (h & cs & c' & r & E4 & O4 & N4 & P4); [..|done|done|].
  { apply (on_cpu_ext (relax k2)); [done|done|by apply relax_on_cpu]. }
  { unfold cpu_relax. by case_if. }
  { simpl. apply lookup_insert_eq. }
  set (k' := alter_proc me _ _) in *. exists k3, k', r. split; [exact E3|]. split; [exact E4|]. split; [|by exists c'].
  exists h, cs, (alter (set_p_state RUNNING) me (k_procs k3)), v, len. split; [|split].
  - unfold k'. change (k_locks k3) with ls1. unfold ls1. rewrite insert_insert_eq, (insert_id (k_locks k)) by done.
    unfold k3, k2, kt, f. by destruct w.
  - by rewrite length_alter, Ep3, length_imap.
  - by rewrite list_lookup_alter_eq, Hp3.
Qed.

Lemma disk_round_run k i me c pname p b w bno d x :
  waiting k i me c pname p b w bno d x ->
  (exists k', disk_round k k') /\ forall k', disk_round k k' -> served k k' i me b w bno (p_pid p) (b_data x).
Proof.
  intros W. pose proof W as [[OC Hn Hl] Hcp _ _ _ _ _ _ Hd V Hx].
  destruct (switched_back_run k i c me pname OC Hn Hl) as (h1 & cs1 & c1 & E1 & O1 & N1 & P1).
  set (k1 := with_cpu h1 cs1 (<[LProc me := mkSpinlock 0 pname None]> (k_locks k)) k) in *.
  destruct (serve_run k1 b w bno d x Hd V Hx) as [Hex Hall].
  assert (G : forall k2, serve k1 k2 -> exists k3 k' r, virtio_disk_intr k2 = Ret tt k3 /\
    schedule_one i me k3 = Switch k' r /\ served k k' i me b w bno (p_pid p) (b_data x)).
  { intros k2 [len ->]%Hall. exact (served_run k i me c pname p b w bno d x h1 cs1 len Hl W c1 O1 N1 P1). }
  assert (Et : this_cpu k = i) by (by eapply this_cpu_on). pose proof (oc_cpu _ _ _ OC) as Hcc.
  split.
  - destruct Hex as [k2 Hk2]. destruct (G k2 Hk2) as (k3 & k' & r & E3 & E4 & _). exists k', me, c, k1, k2, k3, r. by rewrite Et.
  - intros k' (me' & c0 & k1' & k2 & k3 & r & F1 & F2 & F3 & F4 & F5 & F6). rewrite Et in *.
    assert (c0 = c) as -> by congruence. assert (me' = me) as -> by congruence. rewrite E1 in F3. injection F3 as <-.
    destruct (G k2 F4) as (k3' & k'' & r' & E3 & E4 & S). rewrite E3 in F5. injection F5 as <-.
    rewrite E4 in F6. by injection F6 as <- _.
Qed.

Lemma asleep_on_cpu k i c me j lk lkname pname chan :
  on_cpu k i c -> on_cpu (asleep me j lk lkname pname chan k) i c.
Proof. by apply on_cpu_ext. Qed.

(** The process has gone to sleep. *)
Lemma asleep_waiting k i c me pid vname pname p b w bno x :
  running k me pid -> on_cpu k i c -> c_proc c = Some me -> c_noff c = 0 -> vd_idle (k_vdisk k) ->
  k_locks k !! LVdisk = Some (mkSpinlock 0 vname None) -> k_locks k !! LProc me = Some (mkSpinlock 0 pname None) ->
  k_procs k !! me = Some p -> k_bufs k !! b = Some x ->
  let k4 := set_k_vdisk (submitted b w (bno * 2) (k_vdisk k)) (alter_buf b (set_b_disk 1) (enter LVdisk k)) in
  waiting (asleep me i LVdisk vname pname (ChBuf b) k4) i me (cpu_off (intr k) c) pname
    (set_p_state SLEEPING (set_p_chan (Some (ChBuf b)) p)) b w bno (k_vdisk k) (set_b_disk 1 x).
Proof.
  intros R OC Hcp Hn V Hv Hl Hp Hx k4.
  assert (O4 : on_cpu k4 i (cpu_off (intr k) c)) by (by apply (on_cpu_ext (pushed k)), pushed_on_cpu).
  set (ks := asleep _ _ _ _ _ _ _). split.
  - split; [by apply asleep_on_cpu|unfold cpu_off; cbn [c_noff set_c_noff]; lia|].
    cbn. rewrite lookup_insert_ne by discriminate. apply lookup_insert_eq.
  - unfold cpu_off. destruct (_ =? 0); exact Hcp.
  - exists vname. cbn. apply lookup_insert_eq.
  - change (length (alter (fun q => set_p_state SLEEPING (set_p_chan (Some (ChBuf b)) q)) me (k_procs k)) = Z.to_nat NPROC).
    rewrite length_alter. apply R.
  - intros j Hj Hne. destruct (ru_free _ _ _ R j Hj) as [n Hf]. exists n. cbn.
    rewrite lookup_insert_ne by discriminate. rewrite lookup_insert_ne by congruence. rewrite lookup_alter_ne by discriminate. exact Hf.
  - change (alter (fun q => set_p_state SLEEPING (set_p_chan (Some (ChBuf b)) q)) me (k_procs k) !! me =
      Some (set_p_state SLEEPING (set_p_chan (Some (ChBuf b)) p))). by rewrite list_lookup_alter_eq, Hp.
  - reflexivity.
  - reflexivity.
  - reflexivity.
  - exact V.
  - change (k_bufs ks) with (k_bufs (alter_buf b (set_b_disk 1) k)). by rewrite alter_buf_lookup, decide_True, Hx.
Qed.

(** The driver's state at the end of the request. *)
Definition done_with (b : nat) (w : bool) (sector v len : Z) (d : vdisk) : vdisk :=
  let e := seen v (finish 0 0 len (submitted b w sector d)) in
  set_vd_free (replicate (Z.to_nat NUM) 1) (set_vd_desc (no_desc :: no_desc :: no_desc :: drop 3 (vd_desc d))
    (set_vd_info (mkDiskInfo None 0 :: drop 1 (vd_info d)) e)).

Lemma done_idle b w sector v len d : vd_idle d -> vd_idle (done_with b w sector v len d).
Proof.
  intros [Hd Hr Hu Hf Hi Ho Hx Hs Hrg (C1 & C2 & C3 & C4 & C5)]. split; simpl; try done.
  - rewrite length_drop, Hd. done.
  - by rewrite length_insert.
  - by rewrite length_insert.
  - rewrite length_drop, Hi. done.
  - rewrite length_drop, Ho. done.
  - by rewrite Hx.
  - by rewrite Hs.
  - apply Z.mod_pos_bound. done.
  - unfold configured. simpl. set_solver.
Qed.

Lemma upd_info_run k f n ns :
  vd_info (k_vdisk k) = n :: ns -> upd_info 0 f k = Ret tt (set_k_vdisk (set_vd_info (f n :: ns) (k_vdisk k)) k).
Proof.
  intros E. unfold upd_info. rewrite bind_run with (a := k_vdisk k) (s' := k) by done.
  rewrite bind_run with (a := n) (s' := k) by (by rewrite E). unfold upd_vdisk, modify. by rewrite E.
Qed.

Lemma awake_driver me i lk lkname pname v k : k_vdisk (awake me i lk lkname pname v k) = k_vdisk k.
Proof. done. Qed.

Lemma awake_running k i c me pid vname pname v :
  on_cpu k i c -> c_proc c = Some me -> length (k_procs k) = Z.to_nat NPROC -> (p_pid <$> k_procs k !! me) = Some pid ->
  (forall j, (j < Z.to_nat NPROC)%nat -> j <> me -> lock_free k (LProc j)) ->
  on_cpu (awake me i LVdisk vname pname v k) i (set_c_intena v c) /\ running (awake me i LVdisk vname pname v k) me pid.
Proof.
  intros O P Hlen Hpid Hf. assert (O9 : on_cpu (awake me i LVdisk vname pname v k) i (set_c_intena v c)).
  { destruct O. split; try done. cbn. by rewrite list_lookup_alter_eq, oc_cpu. }
  split; [done|]. split.
  - by exists i, (set_c_intena v c).
  - unfold awake, alter_proc, set_procs, k_procs in *. simpl. by rewrite length_alter.
  - unfold awake, alter_proc, set_procs, k_procs in *. simpl. rewrite list_lookup_alter_eq. by destruct (_ !! me).
  - intros j Hj. unfold lock_free. cbn. rewrite lookup_insert_ne by done. destruct (decide (j = me)) as [->|Hne].
    + exists pname. apply lookup_insert_eq.
    + rewrite lookup_insert_ne by congruence. by apply Hf.
Qed.

(** virtio_disk_rw() after the wait. *)
Lemma rw_finish ks k' i me c vname pname p b w bno d x v :
  waiting ks i me c pname p b w bno d x -> served ks k' i me b w bno (p_pid p) (b_data x) ->
  k_locks ks !! LVdisk = Some (mkSpinlock 0 vname None) ->
  exists kf, (do! upd_info 0 (set_di_b None); do! free_chain 0; release LVdisk) (awake me i LVdisk vname pname v k') = Ret tt kf /\
    thread kf me (p_pid p) /\ vd_idle (k_vdisk kf) /\
    core kf = core (set_k_locks (<[LProc me := mkSpinlock 0 pname None]> (k_locks ks)) (alter_buf b (set_b_disk 0) (transfer b w bno (b_data x) ks))).
Proof.
  intros W [(h & cs & l & va & len & Ek & Hll & Hlp) (c' & O' & N' & P')] Hv.
  assert (El : k_locks k' = k_locks ks) by (by rewrite Ek). assert (Ed : k_vdisk k' = seen va (finish 0 0 len (submitted b w (bno * 2) d))).
  { rewrite Ek. unfold with_cpu, with_driver. simpl. by rewrite (wt_driver _ _ _ _ _ _ _ _ _ _ _ W). }
  assert (Ep : k_procs k' = l) by (by rewrite Ek).
  destruct (awake_running k' i c' me (p_pid p) vname pname v O' P') as [O9 R9]; [by rewrite Ep|by rewrite Ep| |].
  { intros j Hj Hne. unfold lock_free. rewrite El. by apply (wt_free _ _ _ _ _ _ _ _ _ _ _ W). }
  pose proof (awake_driver me i LVdisk vname pname v k') as V9. set (k9 := awake me i LVdisk vname pname v k') in *.
  rewrite (bind_run _ _ _ _ _ (upd_info_run k9 _ (mkDiskInfo (Some b) 0) (drop 1 (vd_info d)) ltac:(by rewrite V9, Ed))).
  rewrite V9. set (k10 := set_k_vdisk _ k9).
  assert (O10 : on_cpu k10 i (set_c_intena v c')) by (by apply (on_cpu_ext k9)).
  destruct (free_chain_run k10 me (p_pid p) (mkVirtqDesc (DmaReq 0) blk_req_size VRING_DESC_F_NEXT 1)
    (mkVirtqDesc (DmaData b) BSIZE (if w then 1 else 3) 2) (mkVirtqDesc (DmaStatus 0) 1 VRING_DESC_F_WRITE 0)
    (drop 3 (vd_desc d)) [1; 1; 1; 1; 1]) as (l' & d' & E11 & R11 & ->).
  { by apply (running_ext k9). }
  { apply (relax_in _ i _ O10). simpl. lia. }
  { unfold k10. simpl. by rewrite Ed. }
  { unfold k10. simpl. by rewrite Ed. }
  1-5: by destruct w.
  rewrite (bind_run _ _ _ _ _ E11). set (k11 := with_driver l' _ k10) in *.
  assert (O11 : on_cpu k11 i (set_c_intena v c')) by (by apply (on_cpu_ext k10)).
  assert (L11 : k_locks k11 = <[LVdisk := mkSpinlock 1 vname (Some i)]> (<[LProc me := mkSpinlock 0 pname None]> (k_locks ks)))
    by (by rewrite <- El).
  destruct (release_inner_run k11 LVdisk i _ vname O11 N' ltac:(rewrite L11; apply lookup_insert_eq)) as (E12 & O12 & _).
  rewrite E12. eexists. split; [reflexivity|]. rewrite L11 in *. rewrite insert_insert_eq in *.
  rewrite (insert_id _ LVdisk) in * by (by rewrite lookup_insert_ne).
  split; [|split].
  - eapply thread_intro; [exact O12|done|done|apply R11|apply R11|]. intros j Hj. unfold lock_free. cbn.
    destruct (decide (j = me)) as [->|Hne]; [exists pname; apply lookup_insert_eq|].
    rewrite lookup_insert_ne by congruence. by apply (wt_free _ _ _ _ _ _ _ _ _ _ _ W).
  - assert (k_vdisk k11 = done_with b w (bno * 2) va len d) as Ev by (unfold k11, k10; simpl; by rewrite Ed).
    change (vd_idle (k_vdisk k11)). rewrite Ev. apply done_idle, (wt_idle _ _ _ _ _ _ _ _ _ _ _ W).
  - unfold k11, k10, k9. rewrite Ek. by destruct w.
Qed.

Lemma rw_core k i me vname pname b w bno data d :
  k_locks k !! LVdisk = Some (mkSpinlock 0 vname None) -> k_locks k !! LProc me = Some (mkSpinlock 0 pname None) ->
  let ks := asleep me i LVdisk vname pname (ChBuf b) (set_k_vdisk d (alter_buf b (set_b_disk 1) (enter LVdisk k))) in
  core (set_k_locks (<[LProc me := mkSpinlock 0 pname None]> (k_locks ks)) (alter_buf b (set_b_disk 0) (transfer b w bno data ks))) =
  core (alter_buf b (set_b_disk 0) (transfer b w bno data k)).
Proof.
  intros Hv Hl ks.
  assert (E : <[LProc me := mkSpinlock 0 pname None]> (k_locks ks) = k_locks k).
  { unfold ks. cbn. apply map_eq. intros l. rewrite !lookup_insert, lookup_alter. repeat case_decide; subst; try done. }
  rewrite E. unfold ks. clear. set (ls := k_locks k).
  transitivity (core (alter_buf b (set_b_disk 0) (transfer b w bno data (alter_buf b (set_b_disk 1) k)))); [by destruct w|].
  f_equal. destruct w; unfold transfer.
  - change (alter_buf b (set_b_disk 0) (alter_buf b (set_b_disk 1) (set_k_disk (disk_write bno data (k_disk k)) k)) =
      alter_buf b (set_b_disk 0) (set_k_disk (disk_write bno data (k_disk k)) k)). by rewrite alter_buf_alter.
  - change (alter_buf b (set_b_disk 0) (alter_buf b (set_b_data (disk_block (k_disk k) bno)) (alter_buf b (set_b_disk 1) k)) =
      alter_buf b (set_b_disk 0) (alter_buf b (set_b_data (disk_block (k_disk k) bno)) k)). by rewrite !alter_buf_alter.
Qed.

(** The wait for the interrupt, when it comes. *)
Lemma rw_wait_spec {A} k i c me p vname pname b x n (f : K A) Q :
  on_cpu k i c -> c_noff c = 1 -> c_intena c = 0 \/ c_intena c = 1 -> c_proc c = Some me ->
  k_locks k !! LVdisk = Some (mkSpinlock 1 vname (Some i)) -> k_locks k !! LProc me = Some (mkSpinlock 0 pname None) ->
  k_procs k !! me = Some p -> k_bufs k !! b = Some x -> b_disk x = 1 ->
  let ks := asleep me i LVdisk vname pname (ChBuf b) k in
  (exists k', disk_round ks k') ->
  (forall k', disk_round ks k' -> exists c' y, sole_lock k' i me c' pname /\ lock_free k' LVdisk /\
     k_locks k' !! LVdisk = Some (mkSpinlock 0 vname None) /\ k_bufs k' !! b = Some y /\ b_disk y = 0 /\
     wp disk_round (f (awake me i LVdisk vname pname (c_intena c) k')) Q) ->
  wp disk_round ((do! rw_wait (S (S n)) b; f) k) Q.
Proof.
  intros OC Hn Hi Hcp Hv Hl Hp Hx Hd ks Hex Hall.
  assert (E : rw_wait (S (S n)) b k = Switch ks (fun k' => obind ((do! (let! c' := mycpu in upd_cpu c' (set_c_intena (c_intena c)));
     do! upd_proc me (set_p_chan None); do! release (LProc me); acquire LVdisk) k') (fun _ => rw_wait (S n) b))).
  { change (rw_wait (S (S n)) b) with (let! x := get_buf b in if b_disk x =? 1 then do! sleep (ChBuf b) LVdisk; rw_wait (S n) b else ret tt).
    rewrite (bind_run _ _ _ _ _ (get_buf_run _ _ _ Hx)), Hd. change (1 =? 1) with true. cbv iota. unfold bind at 1.
    by rewrite (sleep_run k i c me p LVdisk vname pname (ChBuf b) OC Hn Hcp ltac:(done) Hv Hl Hp). }
  unfold bind at 1. rewrite E. cbn [obind wp]. split; [exact Hex|]. intros k' Hk'.
  destruct (Hall k' Hk') as (c' & y & Hs & Hf & Hvd & Hy & Hyd & Hw).
  rewrite (resume_run k' i c' me LVdisk vname pname (c_intena c) Hs Hi ltac:(done) Hvd). cbn [obind].
  set (k9 := awake _ _ _ _ _ _ _) in *.
  assert (E9 : rw_wait (S n) b k9 = Ret tt k9).
  { change (rw_wait (S n) b) with (let! x := get_buf b in if b_disk x =? 1 then do! sleep (ChBuf b) LVdisk; rw_wait n b else ret tt).
    by rewrite (bind_run _ _ _ _ _ (get_buf_run k9 b y Hy)), Hyd. }
  by rewrite E9.
Qed.

Lemma rw_spec k me pid b w x :
  thread k me pid -> disk_ready k -> k_bufs k !! b = Some x -> 0 <= b_blockno x < 2 ^ 31 ->
  wp disk_round (virtio_disk_rw b w k) (fun _ k' => thread k' me pid /\ vd_idle (k_vdisk k') /\
    core k' = core (alter_buf b (set_b_disk 0) (transfer b w (b_blockno x) (b_data x) k))).
Proof.
  intros T [Hf V] Hx Hr. unfold virtio_disk_rw. eapply wp_bind_run; [exact (get_buf_run _ _ _ Hx)|].
  change (BSIZE / 512) with 2. rewrite (u32_small (b_blockno x * 2)) by lia. set (bno := b_blockno x) in *.
  pose proof (thread_cpu_ok _ _ _ T) as Hk. eapply wp_bind_run; [exact (acquire_run k LVdisk Hk Hf)|].
  pose proof T as [R U]. pose proof R as [(i & c & OC & Hcp) Hlen Hpid Hfree]. pose proof (U i c OC) as Hn.
  destruct Hf as [vname Hv]. destruct (k_procs k !! me) as [p|] eqn:Hp; [|done]. simpl in Hpid. injection Hpid as Hpid.
  destruct (Hfree me) as [pname Hpl]; [rewrite <- Hlen; by eapply lookup_lt_Some|].
  pose proof (asleep_waiting k i c me pid vname pname p b w bno x R OC Hcp Hn V Hv Hpl Hp Hx) as W. cbv zeta in W.
  set (k4 := set_k_vdisk (submitted b w (bno * 2) (k_vdisk k)) (alter_buf b (set_b_disk 1) (enter LVdisk k))) in *.
  set (ks := asleep me i LVdisk vname pname (ChBuf b) k4) in *.
  destruct (disk_round_run ks i me _ pname _ b w bno _ _ W) as [Hex Hall].
  match goal with |- wp _ ?m _ => replace m with
    ((do! rw_wait sleep_rounds b; do! upd_info 0 (set_di_b None); do! free_chain 0; release LVdisk) k4) end.
  2: symmetry; exact (request_run (enter LVdisk k) b w (bno * 2) (fun i0 => do! rw_wait sleep_rounds b;
       do! upd_info i0 (set_di_b None); do! free_chain i0; release LVdisk) V).
  change sleep_rounds with (S (S 998)). generalize 998%nat as n. intros n.
  assert (O4 : on_cpu k4 i (cpu_off (intr k) c)) by (by apply (on_cpu_ext (pushed k)), pushed_on_cpu).
  apply (rw_wait_spec k4 i (cpu_off (intr k) c) me p vname pname b (set_b_disk 1 x) n).
  - exact O4.
  - unfold cpu_off. cbn. lia.
  - unfold cpu_off. rewrite Hn. cbn. destruct (intr k); auto.
  - unfold cpu_off. destruct (_ =? 0); exact Hcp.
  - cbn. rewrite lookup_alter_eq, Hv. cbn. by rewrite (this_cpu_on _ _ _ OC).
  - cbn. rewrite lookup_alter_ne by discriminate. exact Hpl.
  - exact Hp.
  - change (k_bufs k4) with (k_bufs (alter_buf b (set_b_disk 1) k)). by rewrite alter_buf_lookup, decide_True, Hx.
  - reflexivity.
  - exact Hex.
  - intros k' Hk'. pose proof (Hall k' Hk') as S'. pose proof S' as [(h & cs & l & va & len & Ek & _) (c' & O' & N' & P')].
    assert (El : k_locks k' = k_locks ks) by (by rewrite Ek).
    assert (Hvs : k_locks ks !! LVdisk = Some (mkSpinlock 0 vname None)) by apply lookup_insert_eq.
    assert (Hb : exists y, k_bufs k' !! b = Some y /\ b_disk y = 0).
    { rewrite Ek. change (k_bufs (with_cpu _ _ _ _)) with (k_bufs (alter_buf b (set_b_disk 0) (transfer b w bno (b_data x) ks))).
      rewrite alter_buf_lookup, decide_True by done. destruct w; unfold transfer.
      - change (k_bufs (set_k_disk _ ks)) with (k_bufs (alter_buf b (set_b_disk 1) k)). rewrite alter_buf_lookup, decide_True, Hx by done. by eexists.
      - change (k_bufs (alter_data b _ ks)) with (k_bufs (alter_buf b (set_b_data (disk_block (k_disk ks) bno)) (alter_buf b (set_b_disk 1) k))).
        rewrite !alter_buf_lookup, !decide_True, Hx by done. by eexists. }
    destruct Hb as (y & Hy & Hyd). exists c', y.
    split; [split; [done|done|rewrite El; apply (wt_sole _ _ _ _ _ _ _ _ _ _ _ W)]|].
    split; [exists vname; by rewrite El|]. split; [by rewrite El|]. split; [done|]. split; [done|].
    destruct (rw_finish ks k' i me _ vname pname _ b w bno _ _ (c_intena (cpu_off (intr k) c)) W S' Hvs) as (kf & E & Tf & Vf & Cf).
    rewrite E. split; [by rewrite <- Hpid|]. split; [done|]. rewrite Cf. by apply rw_core.
Qed.

(** C32. virtio_disk_rw(), from the request to the wakeup by the interrupt handler, over any device that carries out its
    requests: it terminates; a read leaves the contents of the block in the buffer, a write
    leaves the contents of the buffer in the block and changes no other block; nothing else has changed, no lock is held,
    and the driver has all its descriptors back. *)
Theorem virtio_disk_rw_correct k me pid b x :
  thread k me pid -> disk_ready k -> k_bufs k !! b = Some x -> 0 <= b_blockno x < 2 ^ 31 ->
  wp disk_round (virtio_disk_rw b false k) (fun _ k' => thread k' me pid /\ disk_ready k' /\
    core k' = core (alter_buf b (set_b_disk 0 ∘ set_b_data (disk_block (k_disk k) (b_blockno x))) k)) /\
  wp disk_round (virtio_disk_rw b true k) (fun _ k' => thread k' me pid /\ disk_ready k' /\
    disk_block (k_disk k') (b_blockno x) = b_data x /\
    (forall z, z <> b_blockno x -> disk_block (k_disk k') z = disk_block (k_disk k) z) /\
    core k' = core (set_k_disk (k_disk k') (alter_buf b (set_b_disk 0) k))).
Proof.
  intros T Hd Hx Hr.
  assert (Hl : forall w k', core k' = core (alter_buf b (set_b_disk 0) (transfer b w (b_blockno x) (b_data x) k)) -> lock_free k' LVdisk).
  { intros w k' C. destruct Hd as [[n Hn] _]. exists n. rewrite (f_equal k_locks C : k_locks k' = _). by destruct w. }
  split; (eapply wp_mono; [exact (rw_spec k me pid b _ x T Hd Hx Hr)|]); intros _ k' (T' & V' & C');
    (split; [done|]); (split; [by split; [eapply Hl|]|]).
  - rewrite C'. f_equal. change (transfer b false (b_blockno x) (b_data x) k) with (alter_buf b (set_b_data (disk_block (k_disk k) (b_blockno x))) k).
    by rewrite alter_buf_alter.
  - pose proof (f_equal k_disk C' : k_disk k' = disk_write (b_blockno x) (b_data x) (k_disk k)) as Dk.
    rewrite Dk. split; [by rewrite disk_block_write, decide_True|]. split; [|by rewrite C'].
    intros z Hz. by rewrite disk_block_write, decide_False.
Qed.

End Driver.

(** * The driver is a disk for the buffer cache *)

#[export] Instance virtio_driver `{VirtioDevice} : BlockDevice := {|
  disk_rw := virtio_disk_rw;
  disk_intr := virtio_disk_intr;
  disk_init := virtio_disk_init;
|}.

#[export] Instance virtio_laws `{VirtioLaws} : DiskLaws (H := virtio_driver) disk_round.
Proof.
  split; intros k me pid i b T Hd Hb Hr; (eapply wp_mono; [exact (rw_spec k me pid i _ b T Hd Hb Hr)|]);
    intros _ k' (T' & V' & C'); (split; [done|]); (split; [done|]); [|exact C'].
  rewrite C'. f_equal. change (transfer i false (b_blockno b) (b_data b) k) with (alter_buf i (set_b_data (disk_block (k_disk k) (b_blockno b))) k).
  by rewrite alter_buf_alter.
Qed.

(** * A device that keeps the laws *)

(** The device takes the oldest available request, if it is one, and carries it out. *)
Definition run_queue (k : kernel) : kernel :=
  let d := k_vdisk k in
  match va_ring (vd_avail d) !! Z.to_nat (vu_idx (vd_used d) mod NUM) with
  | Some head =>
      match chain d head with
      | Some (req, b, w, s) =>
          let k' := match bc_buf (k_bcache k) !! b with
                    | Some x =>
                        if rq_type req =? VIRTIO_BLK_T_OUT then set_k_disk (disk_write (rq_sector req / 2) (b_data x) (k_disk k)) k
                        else alter_data b (disk_block (k_disk k) (rq_sector req / 2)) k
                    | None => alter_data b (disk_block (k_disk k) (rq_sector req / 2)) k
                    end in
          set_k_vdisk (finish head s 0 d) k'
      | None => k
      end
  | None => k
  end.

(** The registers of qemu's device; the status is the last one written. *)
Definition qemu_reg (r : Z) (k : kernel) : Z :=
  if r =? VIRTIO_MMIO_MAGIC_VALUE then 0x74726976 else
  if r =? VIRTIO_MMIO_VERSION then 2 else
  if r =? VIRTIO_MMIO_DEVICE_ID then 2 else
  if r =? VIRTIO_MMIO_VENDOR_ID then 0x554d4551 else
  if r =? VIRTIO_MMIO_QUEUE_NUM_MAX then 1024 else
  if r =? VIRTIO_MMIO_INTERRUPT_STATUS then 1 else
  if r =? VIRTIO_MMIO_STATUS then default 0 (snd <$> last (vd_mmio (k_vdisk k))) else 0.

#[export] Instance qemu_disk : VirtioDevice := {|
  mmio_read := qemu_reg;
  serve k k' := k' = run_queue k;
|}.

#[export] Instance qemu_laws : VirtioLaws.
Proof.
  split.
  - intros k head req b s [_ _ Hr _] Hc Ht _. split; [by eexists|]. intros k' ->. exists 0. unfold run_queue. rewrite Hr, Hc, Ht.
    by destruct (bc_buf (k_bcache k) !! b).
  - intros k head req b s x [_ _ Hr _] Hc Hx Ht _. split; [by eexists|]. intros k' ->. exists 0. unfold run_queue. by rewrite Hr, Hc, Ht, Hx.
Qed.

(** * Initialisation *)

Section Init.
Context {LS : LinkerSymbols} {LY : Layout} {VD : VirtioDevice}.

(** The device behind the registers is a virtio disk, whose queue 0 is large enough and not in use, and accepts the features
    that the driver asks for. *)
Record present : Prop := {
  pr_id : forall k, u32 (mmio_read VIRTIO_MMIO_MAGIC_VALUE k) = 0x74726976 /\ u32 (mmio_read VIRTIO_MMIO_VERSION k) = 2 /\
    u32 (mmio_read VIRTIO_MMIO_DEVICE_ID k) = 2 /\ u32 (mmio_read VIRTIO_MMIO_VENDOR_ID k) = 0x554d4551;
  pr_features : forall k s, last (vd_mmio (k_vdisk k)) = Some (VIRTIO_MMIO_STATUS, s) ->
    Z.land s VIRTIO_CONFIG_S_FEATURES_OK <> 0 -> Z.land (u32 (mmio_read VIRTIO_MMIO_STATUS k)) VIRTIO_CONFIG_S_FEATURES_OK <> 0;
  pr_ready : forall k, (VIRTIO_MMIO_QUEUE_READY, 1) ∉ vd_mmio (k_vdisk k) -> u32 (mmio_read VIRTIO_MMIO_QUEUE_READY k) = 0;
  pr_max : forall k, NUM <= u32 (mmio_read VIRTIO_MMIO_QUEUE_NUM_MAX k);
}.

(** The driver's variables before virtio_disk_init(). *)
Record vd_fresh (d : vdisk) : Prop := {
  vf_free : length (vd_free d) = Z.to_nat NUM;
  vf_info : length (vd_info d) = Z.to_nat NUM;
  vf_ops : length (vd_ops d) = Z.to_nat NUM;
  vf_seen : vd_used_idx d = 0;
  vf_mmio : (VIRTIO_MMIO_QUEUE_READY, 1) ∉ vd_mmio d;
}.

Definition mmio_add (r v : Z) (d : vdisk) : vdisk := set_vd_mmio (vd_mmio d ++ [(r, u32 v)]) d.

Lemma read_bind {A} r (c : Z -> K A) k : (let! x := read_reg r in c x) k = c (u32 (mmio_read r k)) k.
Proof. done. Qed.

Lemma write_bind {A} r v (c : K A) d k :
  (do! write_reg r v; c) (set_k_vdisk d k) = c (set_k_vdisk (mmio_add r v d) k).
Proof. done. Qed.

Lemma vdisk_bind {A} f (c : K A) d k : (do! upd_vdisk f; c) (set_k_vdisk d k) = c (set_k_vdisk (f d) k).
Proof. done. Qed.

(** The allocation of a page, or its failure, in the state that the driver works in. *)
Lemma kalloc_bind {A} (c : Z -> K A) d k l :
  mm_ready k -> free_pages k l ->
  exists m h, (let! x := kalloc in c x) (set_k_vdisk d k) = c (default 0 (head l)) (set_k_vdisk d (set_mm m h (relax k))) /\
    mm_ready (set_mm m h (relax k)) /\ free_pages (set_mm m h (relax k)) (tail l) /\ Forall ram_page (take 1 l).
Proof.
  intros Hk Hl. assert (Hk' : mm_ready (set_k_vdisk d k)).
  { destruct Hk as [(i & c' & OC) H]. split; [exists i, c'; by apply (on_cpu_ext k)|done]. }
  assert (Er : relax (set_k_vdisk d k) = set_k_vdisk d (relax k)) by (by apply (data_only_relax (set_k_vdisk d))).
  destruct l as [|p l].
  - exists (k_mem k), (mm_freelist (k_mm k)). rewrite (bind_run _ _ _ _ _ (kalloc_empty_run (set_k_vdisk d k) Hk' Hl)), Er.
    assert (E : set_mm (k_mem k) (mm_freelist (k_mm k)) (relax k) = relax k) by (by destruct k as [? ? ? []]).
    rewrite E. split; [done|]. split; [by apply mm_ready_relax|]. split; [exact Hl|done].
  - destruct (kalloc_run (set_k_vdisk d k) p l Hk' Hl) as (E & Hl' & Hp). rewrite Er in E, Hl'.
    exists (memset (k_mem k) p 5 4096), (ld64 (k_mem k) p). rewrite (bind_run _ _ _ _ _ E). simpl. split; [done|].
    split; [by apply mm_ready_set_mm, mm_ready_relax|]. split; [exact Hl'|by constructor].
Qed.

Lemma relax_mm_idem m h k : relax (set_mm m h (relax k)) = set_mm m h (relax k).
Proof. change (relax (set_mm m h (relax k))) with (set_mm m h (relax (relax k))). by rewrite relax_idem. Qed.

(** Three pages in a row. *)
Lemma kalloc3_bind {A} (c : Z -> Z -> Z -> K A) d k l :
  mm_ready k -> free_pages k l ->
  exists m h, (let! x := kalloc in do! upd_vdisk (set_vd_desc_pa x);
               let! y := kalloc in do! upd_vdisk (set_vd_avail_pa y);
               let! z := kalloc in do! upd_vdisk (set_vd_used_pa z); c x y z) (set_k_vdisk d k) =
    (let x := default 0 (head l) in let y := default 0 (head (tail l)) in let z := default 0 (head (tail (tail l))) in
     c x y z (set_k_vdisk (set_vd_used_pa z (set_vd_avail_pa y (set_vd_desc_pa x d))) (set_mm m h (relax k)))) /\
    free_pages (set_mm m h (relax k)) (drop 3 l) /\ Forall ram_page (take 3 l).
Proof.
  intros Hk Hl.
  destruct (kalloc_bind (fun x => do! upd_vdisk (set_vd_desc_pa x);
    let! y := kalloc in do! upd_vdisk (set_vd_avail_pa y); let! z := kalloc in do! upd_vdisk (set_vd_used_pa z); c x y z) d k l Hk Hl)
    as (m1 & h1 & E1 & K1 & F1 & R1). cbv zeta. set (x := default 0 (head l)) in *. rewrite E1, vdisk_bind. clear E1.
  set (k1 := set_mm m1 h1 (relax k)) in *.
  destruct (kalloc_bind (fun y => do! upd_vdisk (set_vd_avail_pa y); let! z := kalloc in do! upd_vdisk (set_vd_used_pa z); c x y z)
    (set_vd_desc_pa x d) k1 (tail l) K1 F1) as (m2 & h2 & E2 & K2 & F2 & R2).
  set (y := default 0 (head (tail l))) in *. rewrite E2, vdisk_bind. clear E2.
  unfold k1 in K2, F2 |- *. rewrite relax_mm_idem in K2, F2 |- *. set (k2 := set_mm m2 h2 (set_mm m1 h1 (relax k))) in *.
  destruct (kalloc_bind (fun z => do! upd_vdisk (set_vd_used_pa z); c x y z) (set_vd_avail_pa y (set_vd_desc_pa x d)) k2 (tail (tail l)) K2 F2)
    as (m3 & h3 & E3 & K3 & F3 & R3). rewrite E3, vdisk_bind. clear E3.
  unfold k2 in F3 |- *. change (set_mm m2 h2 (set_mm m1 h1 (relax k))) with (set_mm m2 h2 (relax k)) in *. rewrite relax_mm_idem in *.
  exists m3, h3. split; [done|]. split.
  - by destruct l as [|? [|? [|? ?]]].
  - destruct l as [|? [|? [|? ?]]]; simpl in *; decompose_Forall_hyps; auto.
Qed.

Lemma kmemset_driver d m h k p n :
  in_ram p n = true -> kmemset p 0 n (set_k_vdisk d (set_mm m h k)) = Ret tt (set_k_vdisk d (set_mm (memset m p 0 n) h k)).
Proof. intros Hp. unfold kmemset. by rewrite Hp. Qed.

Lemma kmemset_bind {A} (c : K A) d m h k p :
  ram_page p -> (do! kmemset p 0 PGSIZE; c) (set_k_vdisk d (set_mm m h k)) = c (set_k_vdisk d (set_mm (memset m p 0 PGSIZE) h k)).
Proof. intros Hp. exact (bind_run _ _ _ _ _ (kmemset_driver d m h k p PGSIZE (ram_page_in_ram p Hp))). Qed.

Lemma init_free {A} (c : K A) d k :
  length (vd_free d) = Z.to_nat NUM ->
  (do! each (seq 0 (Z.to_nat NUM)) (fun i => upd_vdisk (fun d => set_vd_free (<[i := 1]> (vd_free d)) d)); c) (set_k_vdisk d k) =
    c (set_k_vdisk (set_vd_free (replicate (Z.to_nat NUM) 1) d) k).
Proof.
  intros Hl. rewrite bind_run with (a := tt) (s' := set_k_vdisk (set_vd_free (replicate (Z.to_nat NUM) 1) d) k); [reflexivity|].
  change (Z.to_nat NUM) with 8%nat in *.
  destruct (vd_free d) as [|? [|? [|? [|? [|? [|? [|? [|? [|? ?]]]]]]]]] eqn:E; try done.
  cbn [seq each]. do 8 rewrite vdisk_bind. cbn [vd_free set_vd_free]. rewrite E. reflexivity.
Qed.

(** Memory in which the pages at [p1], [p2] and [p3] have been cleared. *)
Definition cleared (p1 p2 p3 : Z) (m : mem) : mem :=
  memset (memset (memset m p1 0 PGSIZE) p2 0 PGSIZE) p3 0 PGSIZE.

Lemma cleared_free p1 p2 p3 l m h k :
  ram_page p1 -> ram_page p2 -> ram_page p3 -> p1 ∉ l -> p2 ∉ l -> p3 ∉ l ->
  free_pages (set_mm m h k) l -> free_pages (set_mm (cleared p1 p2 p3 m) h k) l.
Proof.
  intros R1 R2 R3 H1 H2 H3 [Hf Hn]. split; [|done]. unfold cleared. cbn in *.
  eapply (freelist_rep_frame p3); [apply memset_page_frame|done|done|].
  eapply (freelist_rep_frame p2); [apply memset_page_frame|done|done|].
  by eapply (freelist_rep_frame p1); [apply memset_page_frame|done|done|].
Qed.

(** Either three pages, or a panic. *)
Lemma init_queue_run status d k l :
  mm_ready k -> free_pages k l -> vd_fresh d ->
  match l with
  | p1 :: p2 :: p3 :: l' => exists d' m h,
      init_queue status (set_k_vdisk d k) = Ret tt (set_k_vdisk d' (set_mm (cleared p1 p2 p3 m) h (relax k))) /\ vd_idle d' /\
      free_pages (set_mm (cleared p1 p2 p3 m) h (relax k)) l' /\
      vd_desc_pa d' = p1 /\ vd_avail_pa d' = p2 /\ vd_used_pa d' = p3 /\
      last (vd_mmio d') = Some (VIRTIO_MMIO_STATUS, u32 (Z.lor status VIRTIO_CONFIG_S_DRIVER_OK))
  | _ => exists k', init_queue status (set_k_vdisk d k) = Panic "virtio disk kalloc" k'
  end.
Proof.
  intros Hk Hl [F1 F2 F3 F4 F5]. unfold init_queue.
  destruct (kalloc3_bind (init_pages status) d k l Hk Hl) as (m & h & E & Fp & Rp). cbv zeta in E. rewrite E. clear E.
  pose proof (proj2 Hl) as Hnd.
  destruct l as [|p1 [|p2 [|p3 l']]]; unfold init_pages; cbn [head tail default drop take] in *.
  - by eexists.
  - eexists. cbn [Z.eqb]. rewrite orb_true_r. reflexivity.
  - eexists. cbn [Z.eqb]. rewrite !orb_true_r. reflexivity.
  - decompose_Forall_hyps. rewrite !(proj2 (Z.eqb_neq _ 0)) by (by apply ram_page_nonzero). cbn [orb].
    rewrite kmemset_bind, vdisk_bind, kmemset_bind, vdisk_bind, kmemset_bind, vdisk_bind by done. do 8 rewrite write_bind.
    rewrite init_free by exact F1. eexists _, m, h. split; [reflexivity|]. split; [|split].
    + split; try done; try (by apply Z.mod_pos_bound); try (cbn; lia). split_and!; cbn; set_solver.
    + rewrite !NoDup_cons in Hnd. apply cleared_free; try done; set_solver.
    + split_and!; try done. apply last_snoc.
Qed.

Definition disk_lock (k : kernel) : kernel :=
  set_k_locks (<[LVdisk := mkSpinlock 0 "virtio_disk" None]> (k_locks k)) k.

Lemma initlock_bind {A} (c : K A) k :
  (do! initlock LVdisk "virtio_disk"; c) k = c (set_k_vdisk (k_vdisk k) (disk_lock k)).
Proof. by destruct k. Qed.

(** The device is recognised and the features are agreed on: what is left is the queue. *)
Lemma negotiated k :
  present -> (VIRTIO_MMIO_QUEUE_READY, 1) ∉ vd_mmio (k_vdisk k) ->
  exists ms status, virtio_disk_init k = init_queue status (set_k_vdisk (set_vd_mmio ms (k_vdisk k)) (disk_lock k)) /\
    (VIRTIO_MMIO_QUEUE_READY, 1) ∉ ms.
Proof.
  intros [P1 P2 P3 P4] F. unfold virtio_disk_init. cbv zeta. rewrite initlock_bind. do 4 (rewrite read_bind; cbv beta).
  set (kl := disk_lock k).
  destruct (P1 (set_k_vdisk (k_vdisk k) kl)) as (-> & -> & -> & ->). cbn [Z.eqb Pos.eqb negb orb].
  do 3 rewrite write_bind. rewrite read_bind. cbv beta. do 2 rewrite write_bind. rewrite read_bind. cbv beta.
  set (f := clear_feature _ _). set (d1 := mmio_add _ _ (mmio_add VIRTIO_MMIO_DRIVER_FEATURES _ _)).
  rewrite (proj2 (Z.eqb_neq _ 0) (P2 (set_k_vdisk d1 kl) _ (last_snoc _ _) ltac:(done))). rewrite write_bind, read_bind. cbv beta.
  set (d2 := mmio_add _ _ d1). assert (Hn : (VIRTIO_MMIO_QUEUE_READY, 1) ∉ vd_mmio d2).
  { unfold d2, d1, mmio_add. cbn [vd_mmio set_vd_mmio]. repeat (apply not_elem_of_app; split); [exact F|..];
      intros Hin%list_elem_of_singleton; apply (f_equal fst) in Hin; by vm_compute in Hin. }
  rewrite (P3 (set_k_vdisk d2 kl) Hn). cbn [Z.eqb negb]. rewrite read_bind. cbv beta.
  pose proof (P4 (set_k_vdisk d2 kl)) as Hm. unfold NUM in *. rewrite (proj2 (Z.eqb_neq _ 0)), (proj2 (Z.ltb_ge _ 8)) by lia.
  exists (vd_mmio d2), (u32 (mmio_read VIRTIO_MMIO_STATUS (set_k_vdisk d1 kl))). split; [reflexivity|exact Hn].
Qed.

(** virtio_disk_init(), when the device is there and three pages are free: it returns with the driver ready for
    requests (disk_ready), the three pages taken from the free list, cleared and made known to
    the device, which has been told DRIVER_OK; but for that only the lock is new.  Without three free pages, and without a virtio disk, it
    panics. *)
Theorem virtio_disk_init_correct k l :
  mm_ready k -> free_pages k l -> vd_fresh (k_vdisk k) ->
  (present -> match l with
   | p1 :: p2 :: p3 :: l' => exists d m h,
       let k' := set_k_vdisk d (set_mm (cleared p1 p2 p3 m) h
         (relax (disk_lock k))) in
       virtio_disk_init k = Ret tt k' /\ disk_ready k' /\ free_pages k' l' /\
       vd_desc_pa d = p1 /\ vd_avail_pa d = p2 /\ vd_used_pa d = p3 /\
       exists s, last (vd_mmio d) = Some (VIRTIO_MMIO_STATUS, s) /\ Z.testbit s 2 = true
   | _ => exists k', virtio_disk_init k = Panic "virtio disk kalloc" k'
   end) /\
  ((forall k, u32 (mmio_read VIRTIO_MMIO_DEVICE_ID k) <> 2) -> exists k', virtio_disk_init k = Panic "could not find virtio disk" k').
Proof.
  intros Hk Hl F. set (kl := disk_lock k).
  assert (Hkl : mm_ready kl).
  { destruct Hk as [(i & c & OC) [n Hn]]. split; [exists i, c; by apply (on_cpu_ext k)|]. exists n. simpl. by rewrite lookup_insert_ne. }
  split.
  - intros Hp.
    destruct (negotiated k Hp (vf_mmio _ F)) as (ms & status & E & Hn). fold kl in E.
    assert (F' : vd_fresh (set_vd_mmio ms (k_vdisk k))) by (by destruct F).
    pose proof (init_queue_run status (set_vd_mmio ms (k_vdisk k)) kl l Hkl Hl F') as Q. rewrite E.
    destruct l as [|p1 [|p2 [|p3 l']]]; try exact Q. destruct Q as (d & m & h & E' & V & Fr & H1 & H2 & H3 & H4).
    exists d, m, h. cbv zeta. split; [exact E'|]. split; [split; [|exact V]|].
    { exists "virtio_disk". cbn. apply lookup_insert_eq. }
    split; [exact Fr|]. split_and!; [done..|]. eexists. split; [exact H4|].
    unfold u32. rewrite Z.mod_pow2_bits_low, Z.lor_spec by lia. apply orb_true_r.
  - intros Hd. unfold virtio_disk_init. cbv zeta. rewrite initlock_bind. do 4 (rewrite read_bind; cbv beta).
    rewrite (proj2 (Z.eqb_neq _ 2) (Hd _)). eexists. cbn [negb]. rewrite orb_true_r. reflexivity.
Qed.
End Init.

(** The driver after virtio_disk_init(). *)
Definition vdisk_sample : vdisk :=
  mkVdisk 0x87fff000 0x87ffe000 0x87ffd000 (replicate 8 no_desc) (mkVirtqAvail 0 0 (replicate 8 0) 0)
    (mkVirtqUsed 0 0 (replicate 8 (mkUsedElem 0 0))) (replicate 8 1) 0 (replicate 8 (mkDiskInfo None 0)) (replicate 8 (mkBlkReq 0 0 0))
    [(VIRTIO_MMIO_QUEUE_NUM, NUM); (VIRTIO_MMIO_QUEUE_DESC_LOW, 0x87fff000); (VIRTIO_MMIO_DRIVER_DESC_LOW, 0x87ffe000);
     (VIRTIO_MMIO_DEVICE_DESC_LOW, 0x87ffd000); (VIRTIO_MMIO_QUEUE_READY, 1); (VIRTIO_MMIO_STATUS, 15)].

Lemma vdisk_sample_idle : vd_idle vdisk_sample.
Proof. split; try done. split_and!; unfold vdisk_sample; cbn [vd_mmio]; [..|do 4 right; left]; try (by left); [by right; left|by do 2 right; left|by do 3 right; left]. Qed.

(** qemu's disk is one that virtio_disk_init() accepts. *)
Lemma qemu_present : present.
Proof.
  split.
  - intros k. by vm_compute.
  - intros k s Hs Hf. change (mmio_read VIRTIO_MMIO_STATUS k) with (default 0 (snd <$> last (vd_mmio (k_vdisk k)))).
    rewrite Hs. cbn. unfold u32. rewrite <- Z.land_ones, <- Z.land_assoc by lia. exact Hf.
  - intros k _. reflexivity.
  - intros k. by vm_compute.
Qed.

(** The boot state with three free pages. *)
Definition three_pages : kernel :=
  set_k_locks {[LKmem := mkSpinlock 0 "kmem" None]}
    (set_mm (st64 (st64 ∅ 0x80023000 0x80024000) 0x80024000 0x80025000) 0x80023000 boot).

Lemma three_pages_ready : mm_ready three_pages.
Proof.
  split; [eexists _, _; apply (on_cpu_ext boot); [done|done|apply boot_on_cpu]|].
  exists "kmem". reflexivity.
Qed.

Lemma three_pages_free : free_pages three_pages [0x80023000; 0x80024000; 0x80025000].
Proof.
  split; [|apply (bool_decide_unpack _); by vm_compute].
  simpl. unfold ram_page. repeat split; by vm_compute.
Qed.

Lemma boot_vdisk_fresh : vd_fresh (k_vdisk boot).
Proof. split; try done. cbn. apply not_elem_of_nil. Qed.

Lemma virtio_disk_init_correct_witness :
  (exists k', virtio_disk_init three_pages = Ret tt k' /\ disk_ready k') /\
  exists k', virtio_disk_init two_pages = Panic "virtio disk kalloc" k'.
Proof.
  split.
  - destruct (proj1 (virtio_disk_init_correct three_pages _ three_pages_ready three_pages_free boot_vdisk_fresh) qemu_present)
      as (d & m & h & E & D & _).
    eexists. split; [exact E|exact D].
  - exact (proj1 (virtio_disk_init_correct two_pages _ two_pages_ready two_pages_free boot_vdisk_fresh) qemu_present).
Defined.
