(* ===== verification/BioProps.v ===== *)
(** The properties of the buffer cache: binit() establishes the invariant, a
    reader gets the contents of the block and changes none, a writer changes
    one block in the cache and on the disk, and the buffer that is recycled is
    the least recently used one that nobody uses. *)

From Stdlib Require Import ZArith Lia.
From stdpp Require Import base gmap list_numbers strings numbers functions list.
From S2P Require Import Prelude Mem Riscv Kernel Spinlock Kalloc Vm Printf Sched SchedSpec Thread.
From S2P Require Import Sleeplock SleeplockSpec Virtio Bio BioSpec BioInv VirtioSpec.

Open Scope Z_scope.

Implicit Types (k : kernel).

(** * binit() *)

(** What binit() does to the lock of a buffer. *)
Definition fresh_lock (b : buf) : buf := set_b_lock (mkSleeplock 0 "buffer" 0) b.

(** binit() has put the buffers of [l] on the list. *)
Record inited (k0 k : kernel) (l : list nat) : Prop := {
  in_ring : ring (nx k) (pv k) l;
  in_view : forall i, view k !! i = (if decide (i ∈ l) then fresh_lock else id) <$> view k0 !! i;
  in_lock : lock_free k LBcache;
  in_locks : forall i, i ∈ l -> lock_free k (LBuf i);
  in_other : forall lk, lk <> LBcache -> (forall i, i ∈ l -> lk <> LBuf i) -> k_locks k !! lk = k_locks k0 !! lk;
  in_only : k = set_k_bcache (k_bcache k) (set_k_locks (k_locks k) k0);
}.

Lemma binit_step k0 k l b :
  inited k0 k l -> b ∉ l -> NoDup l -> all_known k (b :: l) ->
  exists k', (let! h := next_of None in
              do! set_next (Some b) h;
              do! set_prev (Some b) None;
              do! initsleeplock (SBuf b) "buffer";
              let! h := next_of None in
              do! set_prev h (Some b);
              set_next None (Some b)) k = Ret tt k' /\ inited k0 k' (b :: l).
Proof.
  intros [Hr Hv Hl Hls Hot Hon] Hb Hnd Hk.
  set (ls := <[LBuf b := mkSpinlock 0 "sleep lock" None]> (k_locks k)).
  set (k1 := alter_buf b fresh_lock (set_k_locks ls k)).
  assert (R1 : ring (nx k1) (pv k1) l).
  { revert Hr. apply seg_frame; intros z _; [by apply (nx_alter (set_k_locks ls k))|by apply (pv_alter (set_k_locks ls k))]. }
  assert (K1 : all_known k1 (b :: l)).
  { intros i Hi. simpl. unfold k1. rewrite alter_buf_length. by apply Hk. }
  destruct (push_front_run k1 b l Hb Hnd K1 R1) as (k' & E & Rg & [V F]). exists k'. split.
  - rewrite <- E. unfold push_front.
    rewrite (bind_run _ _ _ _ _ (next_of_run k None I)), (bind_run _ _ _ _ _ (next_of_run k1 None I)).
    rewrite !(bind_run _ _ _ _ _ (set_next_run _ _ _)), !(bind_run _ _ _ _ _ (set_prev_run _ _ _)).
    change (nx k1 None) with (nx k None). set (h := nx k None).
    rewrite bind_run with (a := tt) (s' := set_pv (Some b) None (set_nx (Some b) h k1)); [done|].
    unfold initsleeplock. rewrite bind_run with (a := tt)
      (s' := set_k_locks ls (set_pv (Some b) None (set_nx (Some b) h k))); [|done].
    rewrite upd_sl_run. f_equal. unfold k1, alter_sl, set_pv, set_nx, alter_buf, k_bufs. simpl.
    by rewrite !list_alter_alter_eq.
  - assert (Ls : k_locks k' = ls) by (rewrite F; done). split.
    + done.
    + intros i. rewrite V. unfold k1. rewrite view_alter by done. change (view (set_k_locks ls k)) with (view k).
      rewrite list_lookup_alter, !Hv. destruct (decide (b = i)) as [<-|Hne].
      * rewrite (decide_False (P := b ∈ l)), (decide_True (P := b ∈ b :: l)) by set_solver. by destruct (view k0 !! b).
      * destruct (decide (i ∈ l)); [rewrite (decide_True (P := i ∈ b :: l)) by set_solver
          |rewrite (decide_False (P := i ∈ b :: l)) by set_solver]; done.
    + unfold lock_free. rewrite Ls. unfold ls. by rewrite lookup_insert_ne.
    + intros i [->|Hi]%elem_of_cons; unfold lock_free; rewrite Ls; unfold ls.
      * rewrite lookup_insert_eq. by eexists.
      * rewrite lookup_insert_ne by set_solver. by apply Hls.
    + intros lk H1 H2. rewrite Ls. unfold ls. rewrite lookup_insert_ne by (symmetry; apply H2; set_solver).
      apply Hot; [done|]. intros i Hi. apply H2. set_solver.
    + rewrite Ls. transitivity (set_k_bcache (k_bcache k') (set_k_locks ls k)); [rewrite F at 1; by destruct k|].
      generalize (k_bcache k') ls. intros bc ls'. rewrite Hon. by destruct k0.
Qed.

(** The buffers as binit() finds them: unused, of no device. *)
Definition unused_bufs (k : kernel) : Prop :=
  length (k_bufs k) = Z.to_nat NBUF /\
  forall i b, k_bufs k !! i = Some b -> b_dev b = 0 /\ b_refcnt b = 0.

Lemma binit_loop k0 : forall n k,
  inited k0 k (reverse (seq 0 n)) -> (n <= Z.to_nat NBUF)%nat -> length (k_bufs k0) = Z.to_nat NBUF ->
  exists k', each (seq n (Z.to_nat NBUF - n)) (fun b =>
    let! h := next_of None in
    do! set_next (Some b) h;
    do! set_prev (Some b) None;
    do! initsleeplock (SBuf b) "buffer";
    let! h := next_of None in
    do! set_prev h (Some b);
    set_next None (Some b)) k = Ret tt k' /\ inited k0 k' (reverse (seq 0 (Z.to_nat NBUF))).
Proof.
  intros n. remember (Z.to_nat NBUF - n)%nat as m eqn:Em. revert n Em.
  induction m as [|m IH]; intros n Em k Hi Hn Hlen.
  - exists k. split; [done|]. by replace (Z.to_nat NBUF) with n by lia.
  - cbn [seq each]. assert (Hr : reverse (seq 0 (S n)) = n :: reverse (seq 0 n)) by (by rewrite seq_S, reverse_snoc).
    destruct (binit_step k0 k (reverse (seq 0 n)) n Hi) as (k1 & E1 & I1).
    + rewrite elem_of_reverse, elem_of_seq. lia.
    + rewrite reverse_Permutation. apply NoDup_seq.
    + intros i Hin. simpl. assert (Ei : view k !! i = (if decide (i ∈ reverse (seq 0 n)) then fresh_lock else id) <$> view k0 !! i) by apply Hi.
      assert (Hlt : (i < length (view k0))%nat).
      { rewrite view_length, Hlen. rewrite <- Hr in Hin. rewrite elem_of_reverse, elem_of_seq in Hin. lia. }
      apply lookup_lt_is_Some in Hlt as [b Eb]. rewrite <- view_length. apply lookup_lt_is_Some. rewrite Ei, Eb. by eexists.
    + rewrite (bind_run _ _ _ _ _ E1). apply IH; [lia|by rewrite Hr|lia|done].
Qed.

(** A cache whose buffers are on the list and unused, under a process. *)
Lemma inited_bio dev k0 k me pid l :
  inited k0 k l -> l ≡ₚ seq 0 (Z.to_nat NBUF) -> unused_bufs k0 -> dev <> 0 ->
  thread k me pid -> disk_ready k -> bio dev k me pid ∅ [].
Proof.
  intros [Hr Hv Hl Hls Hot Hon] Hp [Hlen Hun] Hdev T Hvd.
  assert (Hin : forall i, i ∈ l <-> (i < Z.to_nat NBUF)%nat) by (intros i; rewrite Hp, elem_of_seq; lia).
  assert (Hvl : length (view k) = Z.to_nat NBUF).
  { rewrite <- Hlen, <- view_length. apply Nat.le_antisymm; apply Nat.nlt_ge; intros Hlt;
      apply lookup_lt_is_Some in Hlt as [b Eb].
    - rewrite Hv in Eb. rewrite lookup_ge_None_2 in Eb; done.
    - pose proof (Hv (length (view k))) as E. rewrite Eb in E. by rewrite lookup_ge_None_2 in E. }
  assert (Hb : forall i b, view k !! i = Some b -> b_dev b = 0 /\ b_refcnt b = 0 /\ sl_locked (b_lock b) = 0).
  { intros i b Eb. assert (i ∈ l) as Hi by (rewrite Hin, <- Hvl; by eapply lookup_lt_Some).
    rewrite Hv, decide_True in Eb by done. destruct (view k0 !! i) as [v|] eqn:E; [|done]. simpl in Eb. injection Eb as <-.
    apply view_lookup in E as (c & Ec & ->). by destruct (Hun i c Ec). }
  split; try done.
  - intros i Hi. by apply Hls, Hin.
  - by exists l.
  - intros i j b c Ei Ej Hd. destruct (Hb i b Ei). congruence.
  - constructor.
  - intros i z Hz. by apply not_elem_of_nil in Hz.
  - intros i z Hz. by apply not_elem_of_nil in Hz.
  - intros i b Eb _. by apply (Hb i b).
  - intros i b Eb. destruct (Hb i b Eb) as (H1 & H2 & _). rewrite H2, !bool_decide_false by set_solver. done.
  - intros i b Eb Hd. destruct (Hb i b Eb). congruence.
Qed.

Lemma binit_run k :
  unused_bufs k -> exists k', binit k = Ret tt k' /\ inited k k' (reverse (seq 0 (Z.to_nat NBUF))).
Proof.
  intros [Hlen Hun]. unfold binit.
  set (k1 := set_nx None None (set_pv None None (set_k_locks (<[LBcache := mkSpinlock 0 "bcache" None]> (k_locks k)) k))).
  assert (I1 : inited k k1 (reverse (seq 0 0))).
  { split.
    - by split.
    - intros i. change (view k1) with (view k). rewrite decide_False by apply not_elem_of_nil. by destruct (view k !! i).
    - exists "bcache". simpl. by rewrite lookup_insert_eq.
    - intros i Hi. by apply not_elem_of_nil in Hi.
    - intros lk H1 _. simpl. by rewrite lookup_insert_ne.
    - done. }
  destruct (binit_loop k 0 k1 I1) as (k' & E & I'); [lia|done|]. exists k'. split; [|done].
  rewrite bind_run with (a := tt) (s' := set_k_locks (<[LBcache := mkSpinlock 0 "bcache" None]> (k_locks k)) k) by done.
  rewrite (bind_run _ _ _ _ _ (set_prev_run _ _ _)), (bind_run _ _ _ _ _ (set_next_run _ _ _)). exact E.
Qed.

(** binit() builds the buffer list, the last buffer first, with every buffer
    unlocked, and with the cache empty: under any process the invariant of the
    cache holds with nothing pinned and nothing held. *)
Theorem binit_correct k :
  unused_bufs k -> exists k', binit k = Ret tt k' /\
    ring (nx k') (pv k') (reverse (seq 0 (Z.to_nat NBUF))) /\
    (forall dev me pid, dev <> 0 -> thread k' me pid -> disk_ready k' -> bio dev k' me pid ∅ []).
Proof.
  intros Hu. destruct (binit_run k Hu) as (k' & E & I'). exists k'. split; [done|]. split; [apply I'|].
  intros dev me pid Hd T Hv. exact (inited_bio dev k k' me pid _ I' (reverse_Permutation _) Hu Hd T Hv).
Qed.

(** * Readers and writers *)

Section Users.
Context (dev : Z) {BD : BlockDevice} {env : kernel -> kernel -> Prop} {DL : DiskLaws env}.

(** A reader: bread(), a look at the data, brelse(). *)
Definition read_block (bno : Z) : K (list Z) :=
  let! b := bread dev bno in
  let! x := get_buf b in
  do! brelse b;
  ret (b_data x).

(** A writer: bread(), new data, bwrite(), brelse(). *)
Definition write_block (bno : Z) (d : list Z) : K unit :=
  let! b := bread dev bno in
  do! upd_buf b (set_b_data d);
  do! bwrite b;
  brelse b.

(** A process that reads a block it does not hold gets its current contents:
    the data of the buffer that has the block, or that of the disk.  Neither the
    contents of any block nor the disk change, nothing else of the file system's
    state does, and the invariant of the cache is kept; a pinned block is always in the
    cache, and for the others there is a buffer to recycle while fewer than NBUF
    blocks are pinned or held. *)
Theorem bread_correct k me pid D H bno :
  bio dev k me pid D H -> bno ∉ H.*2 -> bno ∈ D \/ (size D + length H < Z.to_nat NBUF)%nat -> 0 <= bno < 2 ^ 31 ->
  wp env (read_block bno k) (fun d k' => d = content dev k bno /\ bio dev k' me pid D H /\
    (forall z, content dev k' z = content dev k z) /\ k_disk k' = k_disk k /\ bio_frame k k').
Proof.
  intros B Hb Hsz Hr. apply wp_bind. eapply wp_mono; [by apply (bread_spec dev k me pid D H bno)|].
  intros i k1 (B1 & C1 & D1 & F1). assert (Hin : (i, bno) ∈ (i, bno) :: H) by set_solver.
  destruct (held_buf dev k1 me pid D _ i bno B1 Hin) as (b & Eb & _ & _ & _ & _ & _ & _ & Hc & _).
  eapply wp_bind_run; [exact (get_buf_run _ _ _ Eb)|].
  destruct (brelse_spec dev k1 me pid D H i bno B1) as (k2 & E2 & B2 & C2 & D2 & F2).
  - destruct (decide (bno ∈ D)) as [|HD]; [by left|right]. rewrite C1, D1. by eapply (content_clean dev).
  - eapply wp_bind_run; [exact E2|]. simpl. split; [by rewrite Hc, C1|]. split; [done|].
    split; [intros z; by rewrite C2, C1|]. split; [by rewrite D2|]. by eapply bio_frame_trans.
Qed.

(** A process that overwrites an unpinned block with [d] through bread(),
    bwrite() and brelse() changes the contents of exactly that block, makes
    exactly one write to the disk, of that block, and keeps the invariant. *)
Theorem bwrite_correct k me pid D bno d :
  bio dev k me pid D [] -> bno ∉ D -> (size D < Z.to_nat NBUF)%nat -> 0 <= bno < 2 ^ 31 ->
  wp env (write_block bno d k) (fun _ k' => bio dev k' me pid D [] /\
    (forall z, content dev k' z = if decide (z = bno) then d else content dev k z) /\
    k_disk k' = disk_write bno d (k_disk k) /\ bio_frame k k').
Proof.
  intros B HD Hsz Hr. apply wp_bind.
  eapply wp_mono; [apply (bread_spec dev k me pid D [] bno B); [by apply not_elem_of_nil|right; simpl; lia|done]|].
  intros i k1 (B1 & C1 & D1 & F1). assert (Hin : (i, bno) ∈ [(i, bno)]) by set_solver.
  destruct (set_data_spec dev k1 me pid D _ i bno B1 Hin d) as (k2 & E2 & B2 & C2 & D2 & F2).
  eapply wp_bind_run; [exact E2|]. apply wp_bind. eapply wp_mono; [exact (bwrite_spec dev k2 me pid D _ i bno B2 Hin)|].
  intros _ k3 (B3 & C3 & D3 & F3). rewrite C2, decide_True in D3 by done.
  destruct (brelse_spec dev k3 me pid D [] i bno B3) as (k4 & E4 & B4 & C4 & D4 & F4).
  - right. rewrite C3, C2, D3, disk_block_write. by rewrite !decide_True.
  - rewrite E4. simpl. split; [done|]. split.
    + intros z. rewrite C4, C3, C2. case_decide; [done|]. apply C1.
    + split; [by rewrite D4, D3, D2, D1|]. eauto using bio_frame_trans.
Qed.
End Users.

(** * Concrete instances *)

(** The state before binit(), with process 3 on the CPU, the locks of the
    process table and of the disk initialised, and the driver ready. *)
Definition bio_sample : kernel :=
  set_k_vdisk vdisk_sample (set_k_locks (<[LVdisk := mkSpinlock 0 "virtio_disk" None]> proc_locks)
    (set_k_cpus (alter (set_c_proc (Some 3%nat)) 0%nat (k_cpus boot)) boot)).

Lemma bio_sample_unused : unused_bufs bio_sample.
Proof.
  split; [done|]. intros i b Eb. change (k_bufs bio_sample) with (replicate (Z.to_nat NBUF) no_buf) in Eb.
  apply lookup_replicate in Eb as [-> _]. done.
Qed.

Lemma bio_sample_thread : thread bio_sample 3 0.
Proof.
  apply (thread_intro _ 3 0 0 (mkCpu (Some 3%nat) no_context 0 0)); [by split|done|done|done|done|].
  intros j Hj. exists "proc". unfold bio_sample, set_k_vdisk, set_k_locks. cbn [k_locks].
  rewrite lookup_insert_ne by done. by apply proc_locks_lookup.
Qed.

Lemma inited_thread k0 k l me pid : inited k0 k l -> thread k0 me pid -> thread k me pid.
Proof.
  intros [_ _ _ _ Hot Hon] T. apply (thread_ext (set_k_locks (k_locks k) k0)); try (by rewrite Hon).
  destruct T as [[(i & c & OC & E) Hlen Hpid Hf] U]. apply (thread_intro _ me pid i c); try done; [by apply (on_cpu_ext k0)|by apply (U i)|].
  intros j Hj. unfold lock_free. simpl. rewrite Hot by done. by apply Hf.
Qed.

Lemma bio_sample_bio :
  exists k, binit bio_sample = Ret tt k /\ bio 1 k 3 0 ∅ [] /\ k_disk k = k_disk bio_sample /\
    inited bio_sample k (reverse (seq 0 (Z.to_nat NBUF))).
Proof.
  destruct (binit_run bio_sample bio_sample_unused) as (k & E & I'). exists k. split; [done|].
  assert (Hv : disk_ready k).
  { split; [|rewrite (in_only _ _ _ I'); exact vdisk_sample_idle].
    exists "virtio_disk". rewrite (in_other _ _ _ I') by done. unfold bio_sample, set_k_vdisk, set_k_locks. cbn [k_locks].
    by rewrite lookup_insert_eq. }
  split; [|split; [by rewrite (in_only _ _ _ I')|done]].
  apply (inited_bio 1 bio_sample k 3 0 _ I' (reverse_Permutation _) bio_sample_unused); [done| |done].
  exact (inited_thread _ _ _ _ _ I' bio_sample_thread).
Qed.

Lemma binit_correct_witness : exists k', binit bio_sample = Ret tt k' /\ (thread k' 3 0 -> disk_ready k' -> bio 1 k' 3 0 ∅ []).
Proof.
  destruct (binit_correct bio_sample bio_sample_unused) as (k' & E & _ & H). exists k'. split; [exact E|].
  by apply H.
Defined.

Lemma bread_correct_witness :
  exists k, binit bio_sample = Ret tt k /\
    wp disk_round (read_block 1 7 k) (fun d k' => d = content 1 k 7 /\ k_disk k' = k_disk k).
Proof.
  destruct bio_sample_bio as (k & E & B & _). exists k. split; [exact E|].
  eapply wp_mono; [apply (bread_correct 1 k 3 0 ∅ [] 7 B)|].
  - by apply not_elem_of_nil.
  - right. rewrite size_empty. change NBUF with 30. simpl. lia.
  - lia.
  - intros d k' (H1 & _ & _ & H2 & _). split; [exact H1|exact H2].
Defined.

Lemma bwrite_correct_witness :
  exists k, binit bio_sample = Ret tt k /\
    wp disk_round (write_block 1 7 [1; 2] k) (fun _ k' => k_disk k' = disk_write 7 [1; 2] (k_disk k)).
Proof.
  destruct bio_sample_bio as (k & E & B & _). exists k. split; [exact E|].
  eapply wp_mono; [apply (bwrite_correct 1 k 3 0 ∅ 7 [1; 2] B)|].
  - apply not_elem_of_empty.
  - rewrite size_empty. change NBUF with 30. simpl. lia.
  - lia.
  - intros d k' (_ & _ & H & _). exact H.
Defined.

Lemma bget_correct_witness :
  exists k i g, binit bio_sample = Ret tt k /\ bget 1 7 k = Ret i (alter_buf i g (relax k)).
Proof.
  destruct bio_sample_bio as (k & E & B & _ & I'). pose proof (in_ring _ _ _ I') as Hr.
  pose proof (bio_ready 1 k 3 0 ∅ [] _ B (reverse_Permutation _) Hr) as R.
  destruct (bio_unused 1 k 3 0 ∅ [] B) as (j & v & Ev & Hv); [rewrite size_empty; change NBUF with 30; simpl; lia|].
  assert (Hj : j ∈ reverse (seq 0 (Z.to_nat NBUF))).
  { rewrite elem_of_reverse, elem_of_seq. apply lookup_lt_Some in Ev. rewrite (bi_len _ _ _ _ _ _ B) in Ev. lia. }
  destruct (bget_correct k 3 0 _ 1 7 R) as [H _].
  - intros i b Hi Eb _. apply (bi_free _ _ _ _ _ _ B i (nolinks b)); [|apply not_elem_of_nil].
    apply view_lookup. exists b. split; [exact Eb|reflexivity].
  - destruct H as (i & g & Eg & _); [|exists k, i, g; split; [exact E|exact Eg]].
    exists j. split; [exact Hj|]. right. intros (b & Eb & Hb). apply view_lookup in Ev as (b' & Eb' & ->).
    apply Hb. replace b with b' by congruence. exact Hv.
Defined.

(** Buffer 4 as bget(1, 7) would leave it. *)
Definition held_sample (k : kernel) : kernel := alter_buf 4 (bget_miss 0 1 7) k.

Lemma held_sample_ready k l : cache_ready k 3 0 l -> cache_ready (held_sample k) 3 0 l.
Proof.
  intros [T Hl Hls Hlen Hk Hr]. split; try done.
  - by apply (thread_ext k).
  - intros i Hi. simpl. unfold held_sample. rewrite alter_buf_length. by apply Hk.
  - revert Hr. apply seg_frame; intros z _; [by apply nx_alter|by apply pv_alter].
Qed.

Lemma brelse_correct_witness :
  exists k k', binit bio_sample = Ret tt k /\ brelse 4 (held_sample k) = Ret tt k' /\
    ring (nx k') (pv k') (4%nat :: reverse (seq 5 25) ++ reverse (seq 0 4)).
Proof.
  destruct bio_sample_bio as (k & E & B & _ & I').
  assert (Hr : ring (nx k) (pv k) (reverse (seq 5 25) ++ 4%nat :: reverse (seq 0 4))) by exact (in_ring _ _ _ I').
  destruct (proj2 (lookup_lt_is_Some (k_bufs k) 4)) as [b Eb].
  { rewrite <- view_length, (bi_len _ _ _ _ _ _ B). change NBUF with 30. lia. }
  pose proof (held_sample_ready k _ (bio_ready 1 k 3 0 ∅ [] _ B (reverse_Permutation _) Hr)) as R.
  destruct (brelse_correct (held_sample k) 3 0 (reverse (seq 5 25)) 4 (reverse (seq 0 4)) (bget_miss 0 1 7 b) R)
    as (k' & E' & Hr' & _).
  - change (NoDup (reverse (seq 0 30))). rewrite reverse_Permutation. apply NoDup_seq.
  - unfold held_sample. by rewrite alter_buf_lookup, decide_True, Eb.
  - discriminate.
  - reflexivity.
  - simpl. lia.
  - exists k, k'. split; [exact E|]. split; [exact E'|exact Hr'].
Defined.

Lemma bio_sample_disk : disk_ready bio_sample.
Proof.
  split; [|exact vdisk_sample_idle]. exists "virtio_disk". unfold bio_sample, set_k_vdisk, set_k_locks. cbn [k_locks].
  by rewrite lookup_insert_eq.
Qed.

Lemma bio_sample_buf : k_bufs bio_sample !! 4%nat = Some no_buf.
Proof. change (k_bufs bio_sample) with (replicate 30 no_buf). reflexivity. Qed.

Lemma virtio_disk_rw_correct_witness :
  wp disk_round (virtio_disk_rw 4 false bio_sample) (fun _ k' => disk_ready k') /\
  wp disk_round (virtio_disk_rw 4 true bio_sample) (fun _ k' => disk_block (k_disk k') 0 = replicate 1024 0).
Proof.
  assert (Hr : 0 <= b_blockno no_buf < 2 ^ 31) by (simpl; lia).
  destruct (virtio_disk_rw_correct bio_sample 3 0 4 no_buf bio_sample_thread bio_sample_disk bio_sample_buf Hr) as [H1 H2].
  split.
  - eapply wp_mono; [exact H1|]. intros _ k' (_ & H & _). exact H.
  - eapply wp_mono; [exact H2|]. intros _ k' (_ & _ & H & _). exact H.
Defined.
