(* ===== verification/Log.v ===== *)
(** kernel/log.c: the write-ahead log. *)

From Stdlib Require Import ZArith Lia.
From stdpp Require Import base gmap list_numbers strings numbers list.
From S2P Require Import Prelude Mem Riscv Kernel Spinlock Kalloc Vm Printf Sched Sleeplock Virtio Bio.

Open Scope Z_scope.

Section Log.
Context `{BlockDevice}.

Definition get_log : K logst := gets k_log.
Definition upd_log (f : logst -> logst) : K unit := modify (fun k => set_k_log (f (k_log k)) k).
Definition upd_lh (f : logheader -> logheader) : K unit :=
  upd_log (fun l => set_l_lh (f (l_lh l)) l).

(** log.lh.block[i] and its assignment *)
Definition lh_get (i : Z) : K Z :=
  let! l := get_log in
  if i <? 0 then fault "log.lh.block[]" else need "log.lh.block[]" (lh_block (l_lh l) !! Z.to_nat i).
Definition lh_set (i v : Z) : K unit :=
  let! l := get_log in
  if (0 <=? i) && (i <? Z.of_nat (length (lh_block (l_lh l))))
  then upd_lh (fun lh => set_lh_block (<[Z.to_nat i := v]> (lh_block lh)) lh)
  else fault "log.lh.block[]".

(** b->data and its assignment; memmove(to->data, from->data, BSIZE) *)
Definition get_data (b : nat) : K (list Z) := let! x := get_buf b in ret (b_data x).
Definition set_data (b : nat) (d : list Z) : K unit := upd_buf b (set_b_data d).

(** A loop for (i = 0; i < log.lh.n; i++) *)
Fixpoint for_lh (fuel : nat) (i : Z) (body : Z -> K unit) : K unit :=
  match fuel with
  | O => nofuel
  | S f =>
      let! l := get_log in
      if i <? lh_n (l_lh l) then do! body i; for_lh f (i + 1) body else ret tt
  end.

Definition each_lh (body : Z -> K unit) : K unit :=
  let! l := get_log in for_lh (S (Z.to_nat (lh_n (l_lh l)))) 0 body.

Definition install_trans (recovering : bool) : K unit :=
  each_lh (fun tail =>
    let! l := get_log in
    let! lbuf := bread (u32 (l_dev l)) (u32 (l_start l + tail + 1)) in
    let! home := lh_get tail in
    let! dbuf := bread (u32 (l_dev l)) (u32 home) in
    let! d := get_data lbuf in
    do! set_data dbuf d;
    do! bwrite dbuf;
    do! when (negb recovering) (bunpin dbuf);
    do! brelse lbuf;
    brelse dbuf).

(** struct logheader in a block: n at offset 0, block[i] at 4 + 4*i. *)
Definition read_head : K unit :=
  let! l := get_log in
  let! b := bread (u32 (l_dev l)) (u32 (l_start l)) in
  let! d := get_data b in
  let! n := need "lh->n" (getn 4 0 d) in
  do! upd_lh (set_lh_n (i32 n));
  do! each_lh (fun i =>
    let! v := need "lh->block[]" (getn 4 (Z.to_nat (4 + 4 * i)) d) in
    lh_set i (i32 v));
  brelse b.

Definition write_head : K unit :=
  let! l := get_log in
  let! b := bread (u32 (l_dev l)) (u32 (l_start l)) in
  let! d := get_data b in
  let! d := need "hb->n" (putn 4 0 (u32 (lh_n (l_lh l))) d) in
  do! set_data b d;
  do! each_lh (fun i =>
    let! v := lh_get i in
    let! d := get_data b in
    let! d := need "hb->block[]" (putn 4 (Z.to_nat (4 + 4 * i)) (u32 v) d) in
    set_data b d);
  do! bwrite b;
  brelse b.

Definition recover_from_log : K unit :=
  do! read_head;
  do! install_trans true;
  do! upd_lh (set_lh_n 0);
  write_head.

(** sizeof(struct logheader) *)
Definition logheader_size : Z := 4 + 4 * LOGSIZE.

Definition initlog (dev : Z) (sb : superblock) : K unit :=
  if BSIZE <=? logheader_size then panic "initlog: too big logheader" else
  do! initlock LLog "log";
  do! upd_log (set_l_start (i32 (sb_logstart sb)));
  do! upd_log (set_l_size (i32 (sb_nlog sb)));
  do! upd_log (set_l_dev dev);
  recover_from_log.

(** while(1); [fuel] bounds the wakeups that find no room. *)
Fixpoint begin_op_loop (fuel : nat) : K unit :=
  match fuel with
  | O => nofuel
  | S f =>
      let! l := get_log in
      if negb (l_committing l =? 0) then do! sleep ChLog LLog; begin_op_loop f
      else if LOGSIZE <? lh_n (l_lh l) + (l_outstanding l + 1) * MAXOPBLOCKS
      then do! sleep ChLog LLog; begin_op_loop f
      else
        do! upd_log (set_l_outstanding (l_outstanding l + 1));
        release LLog
  end.

Definition begin_op : K unit :=
  do! acquire LLog;
  begin_op_loop sleep_rounds.

Definition write_log : K unit :=
  each_lh (fun tail =>
    let! l := get_log in
    let! to := bread (u32 (l_dev l)) (u32 (l_start l + tail + 1)) in
    let! home := lh_get tail in
    let! from := bread (u32 (l_dev l)) (u32 home) in
    let! d := get_data from in
    do! set_data to d;
    do! bwrite to;
    do! brelse from;
    brelse to).

Definition commit : K unit :=
  let! l := get_log in
  when (0 <? lh_n (l_lh l))
    (do! write_log;
     do! write_head;
     do! install_trans false;
     do! upd_lh (set_lh_n 0);
     write_head).

Definition end_op : K unit :=
  do! acquire LLog;
  do! upd_log (fun l => set_l_outstanding (l_outstanding l - 1) l);
  let! l := get_log in
  if negb (l_committing l =? 0) then panic "log.committing" else
  let! do_commit :=
    (if l_outstanding l =? 0 then do! upd_log (set_l_committing 1); ret true
     else do! wakeup ChLog; ret false) in
  do! release LLog;
  when do_commit
    (do! commit;
     do! acquire LLog;
     do! upd_log (set_l_committing 0);
     do! wakeup ChLog;
     release LLog).

(** for (i = 0; i < log.lh.n; i++) if (log.lh.block[i] == b->blockno) break; *)
Fixpoint log_find (fuel : nat) (i blockno : Z) : K Z :=
  match fuel with
  | O => nofuel
  | S f =>
      let! l := get_log in
      if i <? lh_n (l_lh l) then
        let! v := lh_get i in
        if u32 v =? blockno then ret i else log_find f (i + 1) blockno
      else ret i
  end.

Definition log_write (b : nat) : K unit :=
  do! acquire LLog;
  let! l := get_log in
  if (LOGSIZE <=? lh_n (l_lh l)) || (l_size l - 1 <=? lh_n (l_lh l))
  then panic "too big a transaction" else
  if l_outstanding l <? 1 then panic "log_write outside of trans" else
  let! x := get_buf b in
  let! i := log_find (S (Z.to_nat (lh_n (l_lh l)))) 0 (b_blockno x) in
  do! lh_set i (i32 (b_blockno x));
  do! when (i =? lh_n (l_lh l))
        (do! bpin b; upd_lh (fun lh => set_lh_n (lh_n lh + 1) lh));
  release LLog.

End Log.
