(* ===== verification/LogSpec.v ===== *)
(** The write-ahead log (kernel/log.c): the writes that commit() and the recovery
    make to the disk, in order. *)

From Stdlib Require Import ZArith Lia.
From stdpp Require Import base gmap list_numbers strings numbers functions list.
From S2P Require Import Prelude Mem Bytes Riscv Kernel Spinlock Kalloc Vm Printf Sched SchedSpec Thread.
From S2P Require Import Sleeplock SleeplockSpec Virtio Bio BioSpec BioInv Log.

Open Scope Z_scope.

Implicit Types (k : kernel).

(** The blocks that the log owns when it starts at [ls]. *)
Definition log_area (ls z : Z) : Prop := ls <= z < ls + LOGSIZE.

(** Writes to the disk, in order. *)
Definition apply_writes (ws : list (Z * list Z)) (d : disk) : disk :=
  foldl (fun d w => disk_write w.1 w.2 d) d ws.

(** The header block for the logged blocks [bs], over the bytes [h] it had. *)
Definition enc_head (bs h : list Z) : list Z :=
  le_bytes 4 (Z.of_nat (length bs)) ++ words bs ++ drop (4 + 4 * length bs) h.

(** The in-memory log header lists [bs]; the log is on device [dev] from block [ls]. *)
Record log_is (dev ls : Z) (k : kernel) (bs : list Z) : Prop := {
  li_dev : l_dev (k_log k) = dev;
  li_start : l_start (k_log k) = ls;
  li_n : lh_n (l_lh (k_log k)) = Z.of_nat (length bs);
  li_blocks : exists rest, lh_block (l_lh (k_log k)) = bs ++ rest /\ Z.of_nat (length (bs ++ rest)) = LOGSIZE;
}.

(** Blocks that a transaction can log: distinct, outside the log, and few enough
    for the log and for the buffer cache. *)
Record loggable (ls : Z) (bs : list Z) : Prop := {
  lg_range : forall b, b ∈ bs -> 0 <= b < 2 ^ 31 /\ ~ log_area ls b;
  lg_nodup : NoDup bs;
  lg_len : Z.of_nat (length bs) <= LOGSIZE - 1;
}.

Lemma log_frame k k' : bio_frame k k' -> k_log k' = k_log k.
Proof. intros E. exact (f_equal k_log E). Qed.

Section Log.
Context (dev ls : Z) {BD : BlockDevice} {env : kernel -> kernel -> Prop} {DL : DiskLaws env}.
Context (Hdev : 0 < dev < 2 ^ 31) (Hls : 0 <= ls < 2 ^ 30).

Lemma log_is_frame k k' bs : bio_frame k k' -> log_is dev ls k bs -> log_is dev ls k' bs.
Proof. intros F [H1 H2 H3 H4]. rewrite <- (log_frame _ _ F) in *. by split. Qed.

Lemma get_log_run k : get_log k = Ret (k_log k) k.
Proof. done. Qed.

Lemma lh_get_run k bs i b :
  log_is dev ls k bs -> bs !! i = Some b -> lh_get (Z.of_nat i) k = Ret b k.
Proof.
  intros [_ _ _ (rest & E & _)] Eb. unfold lh_get. rewrite (bind_run _ _ _ _ _ (get_log_run k)).
  destruct (Z.ltb_spec (Z.of_nat i) 0); [lia|]. rewrite Nat2Z.id, E.
  by rewrite lookup_app_l, Eb by (by eapply lookup_lt_Some).
Qed.

(** A loop over the logged blocks. *)
Lemma for_lh_spec (I : nat -> kernel -> Prop) body n :
  (forall i k, I i k -> lh_n (l_lh (k_log k)) = Z.of_nat n) ->
  (forall i k, (i < n)%nat -> I i k -> wp env (body (Z.of_nat i) k) (fun _ k' => I (S i) k')) ->
  forall m i k fuel, (i + m = n)%nat -> (m < fuel)%nat -> I i k ->
    wp env (for_lh fuel (Z.of_nat i) body k) (fun _ k' => I n k').
Proof.
  intros Hn Hb. induction m as [|m IH]; intros i k fuel Him Hf Hi; (destruct fuel as [|fuel]; [lia|]); cbn [for_lh].
  - eapply wp_bind_run; [exact (get_log_run k)|]. rewrite (Hn i k Hi), (proj2 (Z.ltb_ge _ _)) by lia.
    simpl. by replace n with i by lia.
  - eapply wp_bind_run; [exact (get_log_run k)|]. rewrite (Hn i k Hi), (proj2 (Z.ltb_lt _ _)) by lia.
    apply wp_bind. eapply wp_mono; [apply Hb; [lia|done]|]. intros [] k' Hi'.
    replace (Z.of_nat i + 1) with (Z.of_nat (S i)) by lia. apply IH; [lia|lia|done].
Qed.

Lemma each_lh_spec (I : nat -> kernel -> Prop) body n k :
  (forall i k, I i k -> lh_n (l_lh (k_log k)) = Z.of_nat n) ->
  (forall i k, (i < n)%nat -> I i k -> wp env (body (Z.of_nat i) k) (fun _ k' => I (S i) k')) ->
  I O k -> wp env (each_lh body k) (fun _ k' => I n k').
Proof.
  intros Hn Hb Hi. unfold each_lh. eapply wp_bind_run; [exact (get_log_run k)|].
  apply (for_lh_spec I body n Hn Hb n 0%nat k); [lia| |done]. rewrite (Hn _ _ Hi). lia.
Qed.

Lemma bread_log k bs :
  log_is dev ls k bs -> forall z, 0 <= z < 2 ^ 32 ->
  forall {A} (f : nat -> K A) Q,
  wp env (bread dev z k) (fun i k' => wp env (f i k') Q) ->
  wp env ((let! b := bread (u32 (l_dev (k_log k))) (u32 z) in f b) k) Q.
Proof. intros L z Hz A f Q Hw. rewrite (li_dev _ _ _ _ L), !u32_small by lia. by apply wp_bind. Qed.

(** * write_log() *)

Lemma get_data_run k me pid D H i bno :
  bio dev k me pid D H -> (i, bno) ∈ H -> get_data i k = Ret (content dev k bno) k.
Proof.
  intros B Hin. destruct (held_buf dev k me pid D H i bno B Hin) as (b & Eb & _ & _ & _ & _ & _ & _ & Hc & _).
  unfold get_data. rewrite (bind_run _ _ _ _ _ (get_buf_run _ _ _ Eb)). by rewrite Hc.
Qed.

Section Blocks.
Context (me : nat) (pid : Z) (bs : list Z) (Hbs : loggable ls bs).

Lemma size_logged : (size (list_to_set (C := gset Z) bs) < Z.to_nat NBUF)%nat.
Proof.
  rewrite size_list_to_set by apply Hbs. pose proof (lg_len _ _ Hbs). unfold LOGSIZE, NBUF, MAXOPBLOCKS in *. lia.
Qed.

Lemma log_block_fresh i b :
  bs !! i = Some b -> log_area ls (ls + Z.of_nat i + 1) /\ ls + Z.of_nat i + 1 ∉ (list_to_set bs : gset Z) /\
    0 <= ls + Z.of_nat i + 1 < 2 ^ 31 /\ b <> ls + Z.of_nat i + 1 /\ 0 <= b < 2 ^ 31.
Proof.
  intros Eb. pose proof (lookup_lt_Some _ _ _ Eb) as Hi. pose proof (lg_len _ _ Hbs) as Hl.
  assert (Ha : log_area ls (ls + Z.of_nat i + 1)) by (unfold log_area; lia).
  destruct (lg_range _ _ Hbs b) as [Hr Hn]; [by eapply list_elem_of_lookup_2|].
  unfold LOGSIZE, MAXOPBLOCKS in *. split; [done|]. split; [|split; [lia|split; [by intros ->|done]]].
  intros Hin%elem_of_list_to_set. by destruct (lg_range _ _ Hbs _ Hin).
Qed.

Lemma write_log_step k i b :
  bio dev k me pid (list_to_set bs) [] -> log_is dev ls k bs -> bs !! i = Some b ->
  wp env ((let! l := get_log in
           let! to := bread (u32 (l_dev l)) (u32 (l_start l + Z.of_nat i + 1)) in
           let! home := lh_get (Z.of_nat i) in
           let! from := bread (u32 (l_dev l)) (u32 home) in
           let! d := get_data from in
           do! set_data to d;
           do! bwrite to;
           do! brelse from;
           brelse to) k) (fun _ k' =>
    bio dev k' me pid (list_to_set bs) [] /\
    (forall z, content dev k' z = if decide (z = ls + Z.of_nat i + 1) then content dev k b else content dev k z) /\
    k_disk k' = disk_write (ls + Z.of_nat i + 1) (content dev k b) (k_disk k) /\ bio_frame k k').
Proof.
  intros B L Eb. destruct (log_block_fresh i b Eb) as (Ha & HnD & Hr & Hne & Hbr).
  set (t := ls + Z.of_nat i + 1) in *. pose proof size_logged as Hsz.
  eapply wp_bind_run; [exact (get_log_run k)|]. rewrite (li_start _ _ _ _ L). fold t.
  eapply (bread_log k bs L t ltac:(lia)).
  eapply wp_mono; [apply (bread_spec dev k me pid _ [] t B); [by apply not_elem_of_nil|right; simpl; lia|done]|].
  intros j1 k1 (B1 & C1 & D1 & F1). pose proof (log_is_frame _ _ _ F1 L) as L1.
  eapply wp_bind_run; [exact (lh_get_run k1 bs i b L1 Eb)|].
  rewrite <- (log_frame _ _ F1). eapply (bread_log k1 bs L1 b ltac:(lia)).
  assert (HbD : b ∈ (list_to_set bs : gset Z)) by (apply elem_of_list_to_set; by eapply list_elem_of_lookup_2).
  eapply wp_mono; [apply (bread_spec dev k1 me pid _ _ b B1); [simpl; set_solver|by left|done]|].
  intros j2 k2 (B2 & C2 & D2 & F2).
  eapply wp_bind_run; [apply (get_data_run k2 me pid _ _ j2 b B2); set_solver|].
  destruct (set_data_spec dev k2 me pid _ _ j1 t B2 ltac:(set_solver) (content dev k2 b)) as (k3 & E3 & B3 & C3 & D3 & F3).
  eapply wp_bind_run; [exact E3|]. apply wp_bind.
  eapply wp_mono; [exact (bwrite_spec dev k3 me pid _ _ j1 t B3 ltac:(set_solver))|].
  intros _ k4 (B4 & C4 & D4 & F4). rewrite C3, decide_True, C2, C1 in D4 by done.
  destruct (brelse_spec dev k4 me pid _ _ j2 b B4) as (k5 & E5 & B5 & C5 & D5 & F5); [by left|].
  eapply wp_bind_run; [exact E5|].
  assert (Cf : forall z, content dev k5 z = if decide (z = t) then content dev k b else content dev k z).
  { intros z. rewrite C5, C4, C3, C2, C1. case_decide; [done|]. by rewrite C2, C1. }
  destruct (brelse_spec dev k5 me pid _ _ j1 t B5) as (k6 & E6 & B6 & C6 & D6 & F6).
  - right. rewrite Cf, D5, D4, disk_block_write. by rewrite !decide_True.
  - rewrite E6. simpl. split; [done|]. split; [intros z; by rewrite C6, Cf|].
    split; [by rewrite D6, D5, D4, D3, D2, D1|]. eauto 10 using bio_frame_trans.
Qed.
End Blocks.

(** * Lists of writes *)

Lemma apply_writes_snoc ws w d : apply_writes (ws ++ [w]) d = disk_write w.1 w.2 (apply_writes ws d).
Proof. unfold apply_writes. by rewrite foldl_app. Qed.

Lemma apply_writes_app ws1 ws2 d : apply_writes (ws1 ++ ws2) d = apply_writes ws2 (apply_writes ws1 d).
Proof. unfold apply_writes. by rewrite foldl_app. Qed.

(** The copies of the blocks into the log, and of the log into the blocks; [f]
    says what the blocks hold. *)
Definition log_writes (f : Z -> list Z) (bs : list Z) : list (Z * list Z) :=
  imap (fun i b => (ls + Z.of_nat i + 1, f b)) bs.
Definition home_writes (f : Z -> list Z) (bs : list Z) : list (Z * list Z) :=
  imap (fun i b => (b, f (ls + Z.of_nat i + 1))) bs.

Lemma take_imap_S {A B} (f : nat -> A -> B) (l : list A) i x :
  l !! i = Some x -> take (S i) (imap f l) = take i (imap f l) ++ [f i x].
Proof. intros E. apply take_S_r. by rewrite list_lookup_imap, E. Qed.

Lemma write_log_spec k me pid bs :
  loggable ls bs -> bio dev k me pid (list_to_set bs) [] -> log_is dev ls k bs ->
  wp env (write_log k) (fun _ k' => bio dev k' me pid (list_to_set bs) [] /\
    (forall j b, bs !! j = Some b -> content dev k' (ls + Z.of_nat j + 1) = content dev k b) /\
    (forall z, (forall j, (j < length bs)%nat -> z <> ls + Z.of_nat j + 1) -> content dev k' z = content dev k z) /\
    k_disk k' = apply_writes (log_writes (content dev k) bs) (k_disk k) /\ bio_frame k k').
Proof.
  intros Hbs B L.
  set (Inv := fun (i : nat) (k' : kernel) => bio dev k' me pid (list_to_set bs) [] /\
    (forall j b, (j < i)%nat -> bs !! j = Some b -> content dev k' (ls + Z.of_nat j + 1) = content dev k b) /\
    (forall z, (forall j, (j < i)%nat -> z <> ls + Z.of_nat j + 1) -> content dev k' z = content dev k z) /\
    k_disk k' = apply_writes (take i (log_writes (content dev k) bs)) (k_disk k) /\ bio_frame k k').
  eapply wp_mono; [apply (each_lh_spec Inv _ (length bs))|].
  - intros i k' (_ & _ & _ & _ & F). by rewrite (log_frame _ _ F), (li_n _ _ _ _ L).
  - intros i k' Hi (B' & C1 & C2 & D' & F). destruct (proj2 (lookup_lt_is_Some bs i) Hi) as [b Eb].
    eapply wp_mono; [exact (write_log_step me pid bs Hbs k' i b B' (log_is_frame _ _ _ F L) Eb)|].
    intros [] k2 (B2 & C3 & D2 & F2). destruct (log_block_fresh bs Hbs i b Eb) as (_ & _ & _ & _ & Hb).
    assert (Hcb : content dev k' b = content dev k b).
    { apply C2. intros j Hj ->. destruct (proj2 (lookup_lt_is_Some bs j)) as [b' Eb']; [lia|].
      destruct (log_block_fresh bs Hbs j b' Eb') as (_ & Hn & _). apply Hn, elem_of_list_to_set.
      by eapply list_elem_of_lookup_2. }
    unfold Inv. split; [done|]. split; [|split; [|split]].
    + intros j b' Hj Eb'. rewrite C3. case_decide as Hd.
      * assert (j = i) as -> by lia. by simplify_eq.
      * apply C1; [|done]. assert (j <> i) by (intros ->; done). lia.
    + intros z Hz. rewrite C3. rewrite decide_False by (apply Hz; lia). apply C2. intros j Hj. apply Hz. lia.
    + unfold log_writes. rewrite D2, Hcb, (take_imap_S _ _ _ _ Eb), apply_writes_snoc. by rewrite D'.
    + by eapply bio_frame_trans.
  - split; [done|]. split; [intros; lia|]. split; [done|]. split; [done|apply bio_frame_refl].
  - intros [] k' (B' & C1 & C2 & D' & F). split; [done|]. split; [|split; [done|split; [|done]]].
    + intros j b Eb. apply C1; [by eapply lookup_lt_Some|done].
    + rewrite D'. f_equal. apply take_ge. unfold log_writes. by rewrite length_imap.
Qed.

(** * write_head() *)

(** The header block after the first [i] entries are written. *)
Definition part_head (bs h : list Z) (i : nat) : list Z :=
  (le_bytes 4 (Z.of_nat (length bs)) ++ words (take i bs)) ++ drop (4 + 4 * i) h.

Lemma part_head_0 (bs h : list Z) :
  (4 <= length h)%nat ->
  putn 4 0 (u32 (Z.of_nat (length bs))) h = Some (le_bytes 4 (u32 (Z.of_nat (length bs))) ++ drop 4 h).
Proof. intros Hh. exact (putn_at 4 0 (u32 (Z.of_nat (length bs))) [] h eq_refl Hh ltac:(simpl; lia)). Qed.

Lemma part_head_S bs h i b :
  bs !! i = Some b -> (4 + 4 * length bs <= length h)%nat ->
  putn 4 (Z.to_nat (4 + 4 * Z.of_nat i)) b (part_head bs h i) = Some (part_head bs h (S i)).
Proof.
  intros Eb Hh. apply lookup_lt_Some in Eb as Hi. unfold part_head.
  replace (Z.to_nat (4 + 4 * Z.of_nat i)) with (4 + 4 * i)%nat by lia.
  assert (Hl : length (le_bytes 4 (Z.of_nat (length bs)) ++ words (take i bs)) = (4 + 4 * i)%nat).
  { rewrite length_app, le_bytes_length, words_length, length_take. lia. }
  rewrite putn_at; [|done|rewrite length_app, length_drop, Hl; lia|lia].
  rewrite (take_S_r bs i b Eb), words_snoc, !app_assoc. do 3 f_equal. lia.
Qed.

Lemma part_head_full bs h : part_head bs h (length bs) = enc_head bs h.
Proof. unfold part_head, enc_head. by rewrite take_ge, <- app_assoc. Qed.

(** The blocks of the list fit the header. *)
Definition fits (bs : list Z) : Prop :=
  (forall b, b ∈ bs -> 0 <= b < 2 ^ 31) /\ Z.of_nat (length bs) <= LOGSIZE.

Lemma log_write_head_loop k me pid D bs j h :
  fits bs -> length h = Z.to_nat BSIZE ->
  bio dev k me pid D [(j, ls)] -> log_is dev ls k bs -> content dev k ls = part_head bs h 0 ->
  wp env (each_lh (fun i =>
      let! v := lh_get i in
      let! d := get_data j in
      let! d := need "hb->block[]" (putn 4 (Z.to_nat (4 + 4 * i)) (u32 v) d) in
      set_data j d) k) (fun _ k' => bio dev k' me pid D [(j, ls)] /\
    (forall z, content dev k' z = if decide (z = ls) then enc_head bs h else content dev k z) /\
    k_disk k' = k_disk k /\ bio_frame k k').
Proof.
  intros [Hr Hlen] Hh B L Hc0.
  set (Inv := fun (i : nat) (k' : kernel) => bio dev k' me pid D [(j, ls)] /\
    (forall z, content dev k' z = if decide (z = ls) then part_head bs h i else content dev k z) /\
    k_disk k' = k_disk k /\ bio_frame k k').
  eapply wp_mono; [apply (each_lh_spec Inv _ (length bs))|].
  - intros i k' (_ & _ & _ & F). by rewrite (log_frame _ _ F), (li_n _ _ _ _ L).
  - intros i k' Hi (B' & C' & D' & F). destruct (proj2 (lookup_lt_is_Some bs i) Hi) as [b Eb].
    assert (Hin : (j, ls) ∈ [(j, ls)]) by set_solver.
    eapply wp_bind_run; [exact (lh_get_run k' bs i b (log_is_frame _ _ _ F L) Eb)|].
    eapply wp_bind_run; [exact (get_data_run k' me pid D _ j ls B' Hin)|].
    rewrite u32_small by (pose proof (Hr b ltac:(by eapply list_elem_of_lookup_2)); lia).
    rewrite C', decide_True by done. rewrite (part_head_S bs h i b Eb) by (rewrite Hh; unfold LOGSIZE, MAXOPBLOCKS, BSIZE in *; lia).
    eapply wp_bind_run; [done|].
    destruct (set_data_spec dev k' me pid D _ j ls B' Hin (part_head bs h (S i))) as (k2 & E2 & B2 & C2 & D2 & F2).
    unfold set_data. rewrite E2. split; [done|]. split; [|split; [by rewrite D2|by eapply bio_frame_trans]].
    intros z. rewrite C2, C'. by case_decide.
  - split; [done|]. split; [|split; [done|apply bio_frame_refl]]. intros z. case_decide as Hz; [by subst|done].
  - intros [] k' (B' & C' & D' & F). split_and!; try done. intros z. by rewrite C', part_head_full.
Qed.

Lemma write_head_spec k me pid D bs :
  fits bs -> length (content dev k ls) = Z.to_nat BSIZE -> ls ∉ D -> (size D < Z.to_nat NBUF)%nat ->
  bio dev k me pid D [] -> log_is dev ls k bs ->
  let h := enc_head bs (content dev k ls) in
  wp env (write_head k) (fun _ k' => bio dev k' me pid D [] /\
    (forall z, content dev k' z = if decide (z = ls) then h else content dev k z) /\
    k_disk k' = disk_write ls h (k_disk k) /\ bio_frame k k').
Proof.
  intros Hf Hh HD Hsz B L h. unfold write_head.
  eapply wp_bind_run; [exact (get_log_run k)|]. rewrite (li_start _ _ _ _ L).
  eapply (bread_log k bs L ls ltac:(lia)).
  eapply wp_mono; [apply (bread_spec dev k me pid D [] ls B); [by apply not_elem_of_nil|right; simpl; lia|lia]|].
  intros j k1 (B1 & C1 & D1 & F1). assert (Hin : (j, ls) ∈ [(j, ls)]) by set_solver.
  eapply wp_bind_run; [exact (get_data_run k1 me pid D _ j ls B1 Hin)|].
  rewrite (li_n _ _ _ _ L), C1. rewrite part_head_0 by (rewrite Hh; unfold BSIZE; lia). eapply wp_bind_run; [done|].
  set (d1 := _ ++ _). destruct (set_data_spec dev k1 me pid D _ j ls B1 Hin d1) as (k2 & E2 & B2 & C2 & D2 & F2).
  eapply wp_bind_run; [exact E2|]. apply wp_bind.
  assert (Hn : u32 (Z.of_nat (length bs)) = Z.of_nat (length bs)).
  { apply u32_small. destruct Hf. unfold LOGSIZE, MAXOPBLOCKS in *. lia. }
  pose proof (bio_frame_trans _ _ _ F1 F2) as F12.
  eapply wp_mono; [apply (log_write_head_loop k2 me pid D bs j (content dev k ls) Hf Hh B2 (log_is_frame _ _ _ F12 L))|].
  - rewrite C2, decide_True by done. unfold d1, part_head. rewrite Hn. simpl (words _). by rewrite app_nil_r.
  - intros [] k3 (B3 & C3 & D3 & F3). fold h in C3. apply wp_bind.
    eapply wp_mono; [exact (bwrite_spec dev k3 me pid D _ j ls B3 Hin)|].
    intros [] k4 (B4 & C4 & D4 & F4). rewrite C3, decide_True in D4 by done.
    destruct (brelse_spec dev k4 me pid D [] j ls B4) as (k5 & E5 & B5 & C5 & D5 & F5).
    + right. rewrite C4, C3, D4, disk_block_write. by rewrite !decide_True.
    + rewrite E5. simpl. split; [done|]. split; [|split; [by rewrite D5, D4, D3, D2, D1|eauto 10 using bio_frame_trans]].
      intros z. rewrite C5, C4, C3. case_decide; [done|]. rewrite C2. rewrite decide_False by done. apply C1.
Qed.

(** * install_trans() *)

(** The blocks still pinned when [i] of the blocks have been installed; the
    recovery pins nothing. *)
Definition to_install (recovering : bool) (bs : list Z) (i : nat) : gset Z :=
  if recovering then ∅ else list_to_set (drop i bs).

Lemma to_install_S r bs i b :
  NoDup bs -> bs !! i = Some b ->
  (r = false -> b ∈ to_install r bs i) /\ to_install r bs (S i) = to_install r bs i ∖ {[b]}.
Proof.
  intros Hnd Eb. unfold to_install. rewrite (drop_S bs b i Eb). destruct r; [set_solver|].
  split; [intros _; set_solver|]. rewrite <- (take_drop_middle bs i b Eb) in Hnd.
  apply NoDup_app in Hnd as (_ & _ & [Hb _]%NoDup_cons). apply set_eq. intros z.
  rewrite elem_of_difference, elem_of_singleton, !elem_of_list_to_set. set_solver.
Qed.

Lemma to_install_sub r bs i : to_install r bs i ⊆ list_to_set bs.
Proof.
  unfold to_install. destruct r; [set_solver|]. intros z. rewrite !elem_of_list_to_set.
  intros (j & Ej)%list_elem_of_lookup. rewrite lookup_drop in Ej. by eapply list_elem_of_lookup_2.
Qed.

Lemma install_step r k me pid bs i b :
  loggable ls bs -> bio dev k me pid (to_install r bs i) [] -> log_is dev ls k bs -> bs !! i = Some b ->
  let t := ls + Z.of_nat i + 1 in
  wp env ((let! l := get_log in
           let! lbuf := bread (u32 (l_dev l)) (u32 (l_start l + Z.of_nat i + 1)) in
           let! home := lh_get (Z.of_nat i) in
           let! dbuf := bread (u32 (l_dev l)) (u32 home) in
           let! d := get_data lbuf in
           do! set_data dbuf d;
           do! bwrite dbuf;
           do! when (negb r) (bunpin dbuf);
           do! brelse lbuf;
           brelse dbuf) k) (fun _ k' =>
    bio dev k' me pid (to_install r bs (S i)) [] /\
    (forall z, content dev k' z = if decide (z = b) then content dev k t else content dev k z) /\
    k_disk k' = disk_write b (content dev k t) (k_disk k) /\ bio_frame k k').
Proof.
  intros Hbs B L Eb t. destruct (log_block_fresh bs Hbs i b Eb) as (Ha & HnD & Hr & Hne & Hbr). fold t in Ha, HnD, Hr, Hne.
  destruct (to_install_S r bs i b (lg_nodup _ _ Hbs) Eb) as [HbD HS]. pose proof (to_install_sub r bs i) as Hsub.
  set (D := to_install r bs i) in *. assert (HtD : t ∉ D) by set_solver.
  assert (Hsz : (size D < Z.to_nat NBUF)%nat).
  { apply subseteq_size in Hsub. pose proof (size_logged bs Hbs). lia. }
  pose proof (content_clean dev k me pid D [] t B HtD (not_elem_of_nil _)) as Hclean.
  eapply wp_bind_run; [exact (get_log_run k)|]. rewrite (li_start _ _ _ _ L). fold t.
  eapply (bread_log k bs L t ltac:(lia)).
  eapply wp_mono; [apply (bread_spec dev k me pid D [] t B); [by apply not_elem_of_nil|right; simpl; lia|done]|].
  intros j1 k1 (B1 & C1 & D1 & F1). pose proof (log_is_frame _ _ _ F1 L) as L1.
  eapply wp_bind_run; [exact (lh_get_run k1 bs i b L1 Eb)|].
  rewrite <- (log_frame _ _ F1). eapply (bread_log k1 bs L1 b ltac:(lia)).
  eapply wp_mono; [apply (bread_spec dev k1 me pid D _ b B1); [simpl; set_solver| |done]|].
  { destruct r; [right|left; by apply HbD]. unfold D, to_install. rewrite size_empty. change NBUF with 30. simpl. lia. }
  intros j2 k2 (B2 & C2 & D2 & F2).
  eapply wp_bind_run; [apply (get_data_run k2 me pid _ _ j1 t B2); set_solver|].
  destruct (set_data_spec dev k2 me pid _ _ j2 b B2 ltac:(set_solver) (content dev k2 t)) as (k3 & E3 & B3 & C3 & D3 & F3).
  eapply wp_bind_run; [exact E3|]. apply wp_bind.
  eapply wp_mono; [exact (bwrite_spec dev k3 me pid _ _ j2 b B3 ltac:(set_solver))|].
  intros [] k4 (B4 & C4 & D4 & F4). rewrite C3, decide_True, C2, C1 in D4 by done.
  assert (Cf : forall z, content dev k4 z = if decide (z = b) then content dev k t else content dev k z).
  { intros z. rewrite C4, C3, C2, C1. case_decide; [done|]. by rewrite C2, C1. }
  assert (Hu : exists k5, when (negb r) (bunpin j2) k4 = Ret tt k5 /\
    bio dev k5 me pid (to_install r bs (S i)) [(j2, b); (j1, t)] /\
    (forall z, content dev k5 z = content dev k4 z) /\ k_disk k5 = k_disk k4 /\ bio_frame k4 k5).
  { rewrite HS. destruct r; simpl.
    - exists k4. replace (D ∖ {[b]}) with D by (unfold D; simpl; set_solver). by split_and!; try apply bio_frame_refl.
    - apply (bunpin_spec dev k4 me pid D _ j2 b B4); [set_solver|by apply HbD]. }
  destruct Hu as (k5 & E5 & B5 & C5 & D5 & F5). eapply wp_bind_run; [exact E5|].
  assert (B5' : bio dev k5 me pid (to_install r bs (S i)) [(j1, t); (j2, b)]) by (eapply bio_perm; [|exact B5]; apply perm_swap).
  destruct (brelse_spec dev k5 me pid _ _ j1 t B5') as (k6 & E6 & B6 & C6 & D6 & F6).
  { right. rewrite C5, Cf, decide_False by done. rewrite D5, D4, disk_block_write, decide_False by done.
    by rewrite D3, D2, D1. }
  eapply wp_bind_run; [exact E6|].
  destruct (brelse_spec dev k6 me pid _ _ j2 b B6) as (k7 & E7 & B7 & C7 & D7 & F7).
  { right. rewrite C6, C5, Cf, D6, D5, D4, disk_block_write. by rewrite !decide_True. }
  rewrite E7. simpl. split; [done|]. split; [intros z; by rewrite C7, C6, C5, Cf|].
  split; [by rewrite D7, D6, D5, D4, D3, D2, D1|]. eauto 15 using bio_frame_trans.
Qed.

Lemma install_trans_spec r k me pid bs :
  loggable ls bs -> bio dev k me pid (to_install r bs 0) [] -> log_is dev ls k bs ->
  wp env (install_trans r k) (fun _ k' => bio dev k' me pid ∅ [] /\
    (forall j b, bs !! j = Some b -> content dev k' b = content dev k (ls + Z.of_nat j + 1)) /\
    (forall z, z ∉ bs -> content dev k' z = content dev k z) /\
    k_disk k' = apply_writes (home_writes (content dev k) bs) (k_disk k) /\ bio_frame k k').
Proof.
  intros Hbs B L.
  set (Inv := fun (i : nat) (k' : kernel) => bio dev k' me pid (to_install r bs i) [] /\
    (forall j b, (j < i)%nat -> bs !! j = Some b -> content dev k' b = content dev k (ls + Z.of_nat j + 1)) /\
    (forall z, z ∉ take i bs -> content dev k' z = content dev k z) /\
    k_disk k' = apply_writes (take i (home_writes (content dev k) bs)) (k_disk k) /\ bio_frame k k').
  eapply wp_mono; [apply (each_lh_spec Inv _ (length bs))|].
  - intros i k' (_ & _ & _ & _ & F). by rewrite (log_frame _ _ F), (li_n _ _ _ _ L).
  - intros i k' Hi (B' & C1 & C2 & D' & F). destruct (proj2 (lookup_lt_is_Some bs i) Hi) as [b Eb].
    eapply wp_mono; [exact (install_step r k' me pid bs i b Hbs B' (log_is_frame _ _ _ F L) Eb)|].
    intros [] k2 (B2 & C3 & D2 & F2). destruct (log_block_fresh bs Hbs i b Eb) as (_ & Hn & _).
    assert (Hct : content dev k' (ls + Z.of_nat i + 1) = content dev k (ls + Z.of_nat i + 1)).
    { apply C2. intros Hin. apply Hn, elem_of_list_to_set. by apply (subseteq_take i). }
    unfold Inv. split; [done|]. split; [|split; [|split]].
    + intros j b' Hj Eb'. rewrite C3. case_decide as Hd.
      * subst b'. by rewrite (NoDup_lookup bs j i b (lg_nodup _ _ Hbs) Eb' Eb).
      * apply C1; [|done]. assert (j <> i) by (intros ->; congruence). lia.
    + intros z Hz. rewrite (take_S_r bs i b Eb) in Hz. rewrite C3, decide_False by set_solver. apply C2. set_solver.
    + unfold home_writes. rewrite D2, Hct, (take_imap_S _ _ _ _ Eb), apply_writes_snoc. by rewrite D'.
    + by eapply bio_frame_trans.
  - split; [done|]. split; [intros; lia|]. split; [done|]. split; [done|apply bio_frame_refl].
  - intros [] k' (B' & C1 & C2 & D' & F). split; [|split; [|split; [|split; [|done]]]].
    + unfold to_install in B'. rewrite drop_ge in B' by done. by destruct r.
    + intros j b Eb. apply C1; [by eapply lookup_lt_Some|done].
    + intros z Hz. apply C2. by rewrite take_ge.
    + rewrite D'. f_equal. apply take_ge. unfold home_writes. by rewrite length_imap.
Qed.

(** * commit() *)

(** Only the cache, the disk, the log and what scheduling changes may differ. *)
Definition fs_frame (k k' : kernel) : Prop :=
  core k' = set_k_log (k_log k') (set_k_disk (k_disk k') (set_k_bcache (k_bcache k') (core k))).

Lemma fs_frame_trans k1 k2 k3 : fs_frame k1 k2 -> fs_frame k2 k3 -> fs_frame k1 k3.
Proof. unfold fs_frame. intros E1 E2. rewrite E2, E1. by destruct k1. Qed.

Lemma bio_fs_frame k k' : bio_frame k k' -> fs_frame k k'.
Proof.
  intros F. pose proof (log_frame _ _ F) as E. unfold fs_frame. rewrite E. rewrite F. by destruct k.
Qed.

Lemma log_fs_frame l k : fs_frame k (set_k_log l k).
Proof. by destruct k. Qed.

Lemma bio_set_log l k me pid D H : bio dev k me pid D H -> bio dev (set_k_log l k) me pid D H.
Proof. intros []. split; try done. by apply (thread_ext k). Qed.

Lemma clear_lh_run k bs :
  log_is dev ls k bs -> exists l, upd_lh (set_lh_n 0) k = Ret tt (set_k_log l k) /\
    log_is dev ls (set_k_log l k) [] /\ exists lh, l = set_l_lh lh (k_log k).
Proof.
  intros [H1 H2 H3 (rest & H4 & H5)]. eexists. split; [done|]. split; [|by eexists]. split; simpl; try done.
  exists (bs ++ rest). by rewrite H4.
Qed.

(** The writes of a commit of the blocks [bs] with contents [f] over the header [h]. *)
Definition commit_writes (f : Z -> list Z) (h bs : list Z) : list (Z * list Z) :=
  log_writes f bs ++ [(ls, enc_head bs h)] ++ ((fun b => (b, f b)) <$> bs) ++ [(ls, enc_head [] (enc_head bs h))].

Lemma enc_head_length bs h :
  (4 + 4 * length bs <= length h)%nat -> length (enc_head bs h) = length h.
Proof. intros Hh. unfold enc_head. rewrite !length_app, le_bytes_length, words_length, length_drop. lia. Qed.

Lemma loggable_fits bs : loggable ls bs -> fits bs.
Proof. intros [H1 _ H3]. split; [intros b Hb; by apply H1|lia]. Qed.

Lemma ls_not_logged bs : loggable ls bs -> ls ∉ (list_to_set bs : gset Z).
Proof.
  intros Hbs Hin%elem_of_list_to_set. destruct (lg_range _ _ Hbs ls Hin) as [_ Hn]. apply Hn.
  unfold log_area, LOGSIZE, MAXOPBLOCKS. lia.
Qed.

Lemma commit_spec k me pid bs :
  loggable ls bs -> bs <> [] -> length (content dev k ls) = Z.to_nat BSIZE ->
  bio dev k me pid (list_to_set bs) [] -> log_is dev ls k bs ->
  wp env (commit k) (fun _ k' => bio dev k' me pid ∅ [] /\ log_is dev ls k' [] /\
    (forall z, ~ log_area ls z -> content dev k' z = content dev k z) /\
    k_disk k' = apply_writes (commit_writes (content dev k) (content dev k ls) bs) (k_disk k) /\ fs_frame k k' /\
    exists lh, k_log k' = set_l_lh lh (k_log k)).
Proof.
  intros Hbs Hne Hh B L. pose proof (lg_len _ _ Hbs) as Hlen. pose proof (loggable_fits bs Hbs) as Hfit.
  assert (Hpos : (0 < length bs)%nat) by (destruct bs; [done|simpl; lia]).
  assert (Hn : forall bs' : list Z, (length bs' <= length bs)%nat -> (4 + 4 * length bs' <= Z.to_nat BSIZE)%nat).
  { intros bs' Hl. unfold LOGSIZE, MAXOPBLOCKS, BSIZE in *. lia. }
  unfold commit. eapply wp_bind_run; [exact (get_log_run k)|]. rewrite (li_n _ _ _ _ L).
  rewrite (proj2 (Z.ltb_lt _ _)) by lia. cbn [when].
  apply wp_bind. eapply wp_mono; [exact (write_log_spec k me pid bs Hbs B L)|].
  intros [] k1 (B1 & C1 & C1' & D1 & F1). pose proof (log_is_frame _ _ _ F1 L) as L1.
  assert (Hls1 : content dev k1 ls = content dev k ls) by (apply C1'; intros j _; lia).
  apply wp_bind. eapply wp_mono; [apply (write_head_spec k1 me pid (list_to_set bs) bs Hfit); [by rewrite Hls1|by apply ls_not_logged|by apply size_logged|done|done]|].
  intros [] k2 (B2 & C2 & D2 & F2). pose proof (log_is_frame _ _ _ F2 L1) as L2. rewrite Hls1 in C2, D2.
  set (h1 := enc_head bs (content dev k ls)) in *.
  apply wp_bind. eapply wp_mono; [apply (install_trans_spec false k2 me pid bs Hbs B2 L2)|].
  intros [] k3 (B3 & C3 & C3' & D3 & F3). pose proof (log_is_frame _ _ _ F3 L2) as L3.
  destruct (clear_lh_run k3 bs L3) as (l & E4 & L4 & lh & El). eapply wp_bind_run; [exact E4|].
  set (k4 := set_k_log l k3) in *.
  assert (Hls4 : content dev k4 ls = h1).
  { change (content dev k3 ls = h1). rewrite C3', C2, decide_True; [done|done|].
    intros Hin. apply (ls_not_logged bs Hbs). by apply elem_of_list_to_set. }
  eapply wp_mono; [apply (write_head_spec k4 me pid ∅ [])|].
  { split; [intros b Hb; by apply not_elem_of_nil in Hb|done]. }
  { rewrite Hls4. unfold h1. rewrite enc_head_length; [done|]. rewrite Hh. by apply Hn. }
  { set_solver. } { by vm_compute; lia. } { by apply bio_set_log. } { done. }
  intros [] k5 (B5 & C5 & D5 & F5). rewrite Hls4 in C5, D5.
  assert (Hhome : forall j b, bs !! j = Some b -> content dev k2 (ls + Z.of_nat j + 1) = content dev k b).
  { intros j b Eb. rewrite C2, decide_False by lia. by apply C1. }
  split; [done|]. split; [by eapply log_is_frame|]. split; [|split; [|split]].
  - intros z Hz. rewrite C5, decide_False by (intros ->; apply Hz; unfold log_area, LOGSIZE, MAXOPBLOCKS; lia).
    change (content dev k4 z) with (content dev k3 z). destruct (decide (z ∈ bs)) as [(j & Ej)%list_elem_of_lookup|Hn'].
    + by rewrite (C3 j z Ej), (Hhome j z Ej).
    + rewrite C3', C2 by done. rewrite decide_False by (intros ->; apply Hz; unfold log_area, LOGSIZE, MAXOPBLOCKS; lia).
      apply C1'. intros j Hj ->. apply Hz. unfold log_area. lia.
  - rewrite D5. change (k_disk k4) with (k_disk k3). rewrite D3, D2, D1. unfold commit_writes.
    rewrite !apply_writes_app. simpl. do 2 f_equal. unfold home_writes.
    apply list_eq. intros j. rewrite list_lookup_imap, list_lookup_fmap. destruct (bs !! j) as [b|] eqn:Eb; [|done].
    simpl. by rewrite (Hhome j b Eb).
  - eapply fs_frame_trans; [|exact (bio_fs_frame _ _ F5)]. eapply fs_frame_trans; [|apply log_fs_frame].
    apply bio_fs_frame. eauto using bio_frame_trans.
  - exists lh. rewrite (log_frame _ _ F5). change (k_log k4) with l. rewrite El.
    by rewrite (log_frame _ _ F3), (log_frame _ _ F2), (log_frame _ _ F1).
Qed.

(** * Recovery *)

Lemma getn_head_n bs h : fits bs -> getn 4 0 (enc_head bs h) = Some (Z.of_nat (length bs)).
Proof.
  intros [_ Hl]. unfold enc_head.
  etrans; [exact (getn_app [] 4 (Z.of_nat (length bs)) _ 0 eq_refl)|]. f_equal. apply Z.mod_small.
  unfold LOGSIZE, MAXOPBLOCKS in Hl. simpl. lia.
Qed.

Lemma getn_head_block bs h i b :
  fits bs -> bs !! i = Some b -> getn 4 (Z.to_nat (4 + 4 * Z.of_nat i)) (enc_head bs h) = Some b.
Proof.
  intros [Hr _] Eb. unfold enc_head. apply (getn_words _ bs _ i b); [done| |].
  - pose proof (Hr b ltac:(by eapply list_elem_of_lookup_2)). lia.
  - rewrite le_bytes_length. lia.
Qed.

(** The log structure before read_head(): where the log is, not what is in it. *)
Record log_found (k : kernel) : Prop := {
  lf_dev : l_dev (k_log k) = dev;
  lf_start : l_start (k_log k) = ls;
  lf_len : Z.of_nat (length (lh_block (l_lh (k_log k)))) = LOGSIZE;
}.

Lemma read_head_loop k me pid D bs j h :
  fits bs -> bio dev k me pid D [(j, ls)] ->
  log_found k -> lh_n (l_lh (k_log k)) = Z.of_nat (length bs) ->
  wp env (each_lh (fun i =>
      let! v := need "lh->block[]" (getn 4 (Z.to_nat (4 + 4 * i)) (enc_head bs h)) in
      lh_set i (i32 v)) k) (fun _ k' => exists l, k' = set_k_log l k /\ log_is dev ls k' bs).
Proof.
  intros Hf B [Hd Hs Hlen] Hn. set (old := lh_block (l_lh (k_log k))) in *.
  set (st := fun i : nat => set_l_lh (mkLogheader (Z.of_nat (length bs)) (take i bs ++ drop i old)) (k_log k)).
  set (Inv := fun (i : nat) (k' : kernel) => k' = set_k_log (st i) k).
  destruct Hf as [Hr Hl]. eapply wp_mono; [apply (each_lh_spec Inv _ (length bs))|].
  - by intros i k' ->.
  - intros i k' Hi ->. destruct (proj2 (lookup_lt_is_Some bs i) Hi) as [b Eb].
    rewrite (getn_head_block bs h i b) by done. eapply wp_bind_run; [done|].
    rewrite i32_small by (pose proof (Hr b ltac:(by eapply list_elem_of_lookup_2)); lia).
    assert (Hlen2 : length (take i bs ++ drop i old) = length old) by (rewrite length_app, length_take, length_drop; lia).
    unfold lh_set. eapply wp_bind_run; [exact (get_log_run _)|]. cbn [k_log set_k_log st set_l_lh l_lh lh_block].
    rewrite Hlen2, (proj2 (Z.leb_le _ _)), (proj2 (Z.ltb_lt _ _)) by lia. cbn [andb].
    unfold Inv, upd_lh, upd_log, modify. simpl. unfold st, set_k_log, set_l_lh, set_lh_block. simpl. do 4 f_equal.
    rewrite Nat2Z.id, (take_S_r bs i b Eb), <- app_assoc.
    rewrite insert_app_r_alt by (rewrite length_take; lia). f_equal.
    destruct (drop i old) as [|x rest] eqn:E; [apply (f_equal length) in E; rewrite length_drop in E; simpl in E; lia|].
    replace (i - length (take i bs))%nat with 0%nat by (rewrite length_take; lia). simpl. f_equal.
    replace (S i) with (i + 1)%nat by lia. by rewrite <- drop_drop, E.
  - unfold Inv, st. simpl. unfold old. destruct k as [? ? ? ? ? ? ? ? [? ? ? ? ? []]]. simpl in *. by subst.
  - intros [] k' ->. exists (st (length bs)). split; [done|]. split; simpl; try done.
    exists (drop (length bs) old). rewrite take_ge by done. split; [done|]. rewrite length_app, length_drop. lia.
Qed.

Lemma read_head_spec k me pid bs h :
  fits bs -> bio dev k me pid ∅ [] -> log_found k -> content dev k ls = enc_head bs h ->
  wp env (read_head k) (fun _ k' => bio dev k' me pid ∅ [] /\ log_is dev ls k' bs /\
    (forall z, content dev k' z = content dev k z) /\ k_disk k' = k_disk k /\ fs_frame k k').
Proof.
  intros Hf B [Hd Hs Hlen] Hc. unfold read_head. eapply wp_bind_run; [exact (get_log_run k)|].
  rewrite Hd, Hs, !u32_small by lia. apply wp_bind.
  eapply wp_mono; [apply (bread_spec dev k me pid ∅ [] ls B); [by apply not_elem_of_nil|right; rewrite size_empty; by vm_compute; lia|lia]|].
  intros j k1 (B1 & C1 & D1 & F1). eapply wp_bind_run; [apply (get_data_run k1 me pid _ _ j ls B1); set_solver|].
  rewrite C1, Hc, getn_head_n by done. eapply wp_bind_run; [done|].
  rewrite i32_small by (destruct Hf; unfold LOGSIZE, MAXOPBLOCKS in *; lia).
  set (l1 := set_l_lh (set_lh_n (Z.of_nat (length bs)) (l_lh (k_log k1))) (k_log k1)).
  eapply wp_bind_run; [exact (eq_refl : upd_lh _ k1 = Ret tt (set_k_log l1 k1))|].
  pose proof (bio_set_log l1 _ _ _ _ _ B1) as B2. apply wp_bind.
  eapply wp_mono; [apply (read_head_loop _ me pid ∅ bs j h Hf B2); [|done]|].
  { unfold l1. split; simpl; rewrite (log_frame _ _ F1); done. }
  intros [] k3 (l2 & -> & L3). change (set_k_log l2 (set_k_log l1 k1)) with (set_k_log l2 k1) in *.
  destruct (brelse_spec dev (set_k_log l2 k1) me pid ∅ [] j ls) as (k4 & E4 & B4 & C4 & D4 & F4).
  - by apply bio_set_log.
  - right. change (content dev k1 ls = disk_block (k_disk k1) ls). rewrite C1, D1.
    by apply (content_clean dev k me pid ∅ [] ls B); [apply not_elem_of_empty|apply not_elem_of_nil].
  - rewrite E4. simpl. split; [done|]. split; [by eapply log_is_frame|].
    split; [intros z; rewrite C4; apply C1|]. split; [by rewrite D4|].
    eapply fs_frame_trans; [|exact (bio_fs_frame _ _ F4)]. eapply fs_frame_trans; [exact (bio_fs_frame _ _ F1)|apply log_fs_frame].
Qed.

(** The writes of a recovery that finds the blocks [bs] in the header [enc_head bs h]. *)
Definition recover_writes (f : Z -> list Z) (h bs : list Z) : list (Z * list Z) :=
  home_writes f bs ++ [(ls, enc_head [] (enc_head bs h))].

Lemma recover_spec k me pid bs h :
  loggable ls bs -> length h = Z.to_nat BSIZE -> bio dev k me pid ∅ [] -> log_found k ->
  content dev k ls = enc_head bs h ->
  wp env (recover_from_log k) (fun _ k' => bio dev k' me pid ∅ [] /\ log_is dev ls k' [] /\
    k_disk k' = apply_writes (recover_writes (content dev k) h bs) (k_disk k) /\ fs_frame k k').
Proof.
  intros Hbs Hh B Lf Hc. pose proof (loggable_fits bs Hbs) as Hfit. unfold recover_from_log.
  apply wp_bind. eapply wp_mono; [exact (read_head_spec k me pid bs h Hfit B Lf Hc)|].
  intros [] k1 (B1 & L1 & C1 & D1 & F1). apply wp_bind.
  eapply wp_mono; [exact (install_trans_spec true k1 me pid bs Hbs B1 L1)|].
  intros [] k2 (B2 & C2 & C2' & D2 & F2). destruct (clear_lh_run k2 bs (log_is_frame _ _ _ F2 L1)) as (l & E3 & L3 & _).
  eapply wp_bind_run; [exact E3|]. set (k3 := set_k_log l k2) in *.
  assert (Hls3 : content dev k3 ls = enc_head bs h).
  { change (content dev k2 ls = enc_head bs h). rewrite C2', C1; [done|].
    intros Hin. apply (ls_not_logged bs Hbs). by apply elem_of_list_to_set. }
  eapply wp_mono; [apply (write_head_spec k3 me pid ∅ [])|].
  { split; [intros b Hb; by apply not_elem_of_nil in Hb|done]. }
  { rewrite Hls3, enc_head_length; [done|]. rewrite Hh. pose proof (lg_len _ _ Hbs).
    unfold LOGSIZE, MAXOPBLOCKS, BSIZE in *. lia. }
  { apply not_elem_of_empty. } { by vm_compute; lia. } { by apply bio_set_log. } { done. }
  intros [] k4 (B4 & C4 & D4 & F4). rewrite Hls3 in D4. split; [done|]. split; [by eapply log_is_frame|]. split.
  - rewrite D4. change (k_disk k3) with (k_disk k2). rewrite D2, D1. unfold recover_writes, home_writes.
    rewrite apply_writes_app. simpl. do 2 f_equal. apply list_eq. intros i.
    rewrite !list_lookup_imap. destruct (bs !! i); [|done]. simpl. by rewrite C1.
  - eapply fs_frame_trans; [exact F1|]. eapply fs_frame_trans; [exact (bio_fs_frame _ _ F2)|].
    eapply fs_frame_trans; [apply log_fs_frame|exact (bio_fs_frame _ _ F4)].
Qed.
End Log.
