(* ===== verification/LogCrash.v ===== *)
(** Crash safety of the log: wherever a crash cuts off the writes of commit(), or
    those of a recovery, the next recovery brings the file system either to the
    state before the transaction or to the state after it. *)

From Stdlib Require Import ZArith Lia.
From stdpp Require Import base gmap list_numbers strings numbers functions list.
From S2P Require Import Prelude Mem Bytes Riscv Kernel Spinlock Kalloc Vm Printf Sched SchedSpec Thread.
From S2P Require Import Sleeplock SleeplockSpec Virtio Bio BioSpec BioInv VirtioSpec BioProps Log LogSpec.

Open Scope Z_scope.

Implicit Types (k : kernel).

(** * What a list of writes leaves on the disk *)

Lemma apply_writes_notin ws : forall d z, z ∉ ws.*1 -> disk_block (apply_writes ws d) z = disk_block d z.
Proof.
  induction ws as [|w ws IH] using rev_ind; intros d z Hz; [done|].
  rewrite fmap_app in Hz. rewrite apply_writes_snoc, disk_block_write, decide_False by set_solver.
  apply IH. set_solver.
Qed.

Lemma apply_writes_in ws : forall d z x,
  NoDup ws.*1 -> (z, x) ∈ ws -> disk_block (apply_writes ws d) z = x.
Proof.
  induction ws as [|w ws IH] using rev_ind; intros d z x Hnd Hin; [by apply not_elem_of_nil in Hin|].
  rewrite fmap_app in Hnd. apply NoDup_app in Hnd as (Hn1 & Hd & _).
  rewrite apply_writes_snoc, disk_block_write. case_decide as E.
  - apply elem_of_app in Hin as [Hin|Hin]; [|by apply list_elem_of_singleton in Hin as <-].
    destruct (Hd z); [apply list_elem_of_fmap; by exists (z, x)|]. simpl. rewrite E. set_solver.
  - apply IH; [done|]. apply elem_of_app in Hin as [Hin|Hin]; [done|].
    apply list_elem_of_singleton in Hin as <-. done.
Qed.

Lemma apply_writes_log ws d : dk_writes (apply_writes ws d) = dk_writes d ++ ws.
Proof.
  induction ws as [|w ws IH] using rev_ind; [by rewrite app_nil_r|].
  rewrite apply_writes_snoc. simpl. rewrite IH, <- app_assoc. by destruct w.
Qed.

(** The disk after the first [n] of the writes. *)
Definition crashed (n : nat) (ws : list (Z * list Z)) (d : disk) : disk := apply_writes (take n ws) d.

Section Crash.
Context (dev ls : Z) {BD : BlockDevice} {env : kernel -> kernel -> Prop} {DL : DiskLaws env}.
Context (Hdev : 0 < dev < 2 ^ 31) (Hls : 0 <= ls < 2 ^ 30).

(** The header block on the disk lists the blocks [bs]. *)
Definition header_is (bs : list Z) (d : disk) : Prop :=
  exists h, length h = Z.to_nat BSIZE /\ disk_block d ls = enc_head bs h.

(** A kernel that has just booted on the disk [d]: the cache is empty. *)
Definition booted (k : kernel) (d : disk) : Prop :=
  exists me pid, bio dev k me pid ∅ [] /\ Z.of_nat (length (lh_block (l_lh (k_log k)))) = LOGSIZE /\
    forall z, disk_block (k_disk k) z = disk_block d z.

(** The disk [d] recovers to the blocks [f]: initlog() on it ends, with [f]
    outside the log, and with an empty log. *)
Definition recovers (d : disk) (f : Z -> list Z) : Prop :=
  forall k sb, booted k d -> sb_logstart sb = ls -> wp env (initlog dev sb k) (fun _ k' =>
    header_is [] (k_disk k') /\ forall z, ~ log_area ls z -> disk_block (k_disk k') z = f z).

Lemma bio_init_lock k me pid D H x :
  bio dev k me pid D H -> bio dev (set_k_locks (<[LLog := x]> (k_locks k)) k) me pid D H.
Proof.
  intros B. assert (Hl : forall l, l <> LLog -> lock_free k l -> lock_free (set_k_locks (<[LLog := x]> (k_locks k)) k) l).
  { intros l Hl [n E]. exists n. simpl. by rewrite lookup_insert_ne. }
  destruct B as [T ? ? Hvd ? ? ? ? ? ? ? ? ? ?]. split; try done; try (by apply Hl).
  - destruct T as [[(i & c & OC & E) Hlen Hpid Hfr] U]. apply (thread_intro _ me pid i c); try done; [by apply (on_cpu_ext k)|by apply (U i)|].
    intros j Hj. by apply Hl; [|apply Hfr].
  - intros i Hi. apply Hl; [done|]. by auto.
  - split; [by apply Hl, Hvd|apply Hvd].
Qed.

(** initlog() locates the log and then recovers. *)
Lemma initlog_run k me pid D H sb :
  bio dev k me pid D H -> Z.of_nat (length (lh_block (l_lh (k_log k)))) = LOGSIZE -> sb_logstart sb = ls ->
  exists k1, initlog dev sb k = recover_from_log k1 /\ bio dev k1 me pid D H /\ log_found dev ls k1 /\
    (forall z, content dev k1 z = content dev k z) /\ k_disk k1 = k_disk k.
Proof.
  intros B Hl Hs. eexists. split; [reflexivity|]. split; [|split; [|done]].
  - unfold upd_log, modify. simpl. repeat apply bio_set_log. by apply bio_init_lock.
  - split; simpl; [done| |done]. rewrite Hs. apply i32_small. lia.
Qed.

Lemma content_empty k me pid z : bio dev k me pid ∅ [] -> content dev k z = disk_block (k_disk k) z.
Proof. intros B. by apply (content_clean dev k me pid ∅ [] z B); [apply not_elem_of_empty|apply not_elem_of_nil]. Qed.

Section Recover.
Context (bs : list Z) (Hbs : loggable ls bs).

Lemma home_writes_fst f : (home_writes ls f bs).*1 = bs.
Proof.
  unfold home_writes. apply list_eq. intros i. rewrite list_lookup_fmap, list_lookup_imap. by destruct (bs !! i).
Qed.

Lemma home_writes_at f i b : bs !! i = Some b -> (b, f (ls + Z.of_nat i + 1)) ∈ home_writes ls f bs.
Proof. intros E. apply list_elem_of_lookup. exists i. unfold home_writes. by rewrite list_lookup_imap, E. Qed.

Lemma log_writes_fst f z : z ∈ (log_writes ls f bs).*1 -> log_area ls z /\ z <> ls.
Proof.
  intros (w & -> & Hw)%list_elem_of_fmap. apply list_elem_of_lookup in Hw as [i E]. unfold log_writes in E.
  rewrite list_lookup_imap in E. destruct (bs !! i) as [b|] eqn:Eb; [|done]. simpl in E. injection E as <-. simpl.
  destruct (log_block_fresh ls Hls bs Hbs i b Eb) as [Ha _]. split; [done|lia].
Qed.

Lemma log_writes_nodup f : NoDup (log_writes ls f bs).*1.
Proof.
  apply NoDup_alt. intros i j z Ei Ej. unfold log_writes in *. rewrite !list_lookup_fmap, !list_lookup_imap in *.
  destruct (bs !! i), (bs !! j); simpl in *; try done. simplify_eq. lia.
Qed.

(** What a disk recovers to when its header lists [bs]. *)
Lemma recovers_header d f :
  header_is bs d ->
  (forall i b, bs !! i = Some b -> disk_block d (ls + Z.of_nat i + 1) = f b) ->
  (forall z, ~ log_area ls z -> z ∉ bs -> disk_block d z = f z) ->
  recovers d f.
Proof.
  intros (h & Hh & Hd) Hlog Hoth k0 sb (me & pid & B0 & Hl & Ek0) Hsb.
  destruct (initlog_run k0 me pid ∅ [] sb B0 Hl Hsb) as (k & -> & B & Lf & _ & Dk).
  assert (Ek : forall z, disk_block (k_disk k) z = disk_block d z) by (intros z; rewrite Dk; apply Ek0).
  assert (Hc : forall z, content dev k z = disk_block d z) by (intros z; by rewrite (content_empty k me pid z B)).
  eapply wp_mono; [apply (recover_spec dev ls Hdev Hls k me pid bs h Hbs Hh B Lf)|]; [by rewrite Hc|].
  intros [] k' (B' & L' & D' & F'). rewrite D'. unfold recover_writes. rewrite apply_writes_app. simpl. split.
  - exists (enc_head bs h). rewrite disk_block_write, decide_True by done. split; [|done].
    rewrite enc_head_length; [done|]. rewrite Hh. pose proof (lg_len _ _ Hbs). unfold LOGSIZE, MAXOPBLOCKS, BSIZE in *. lia.
  - intros z Hz. rewrite disk_block_write, decide_False.
    2:{ intros ->. apply Hz. unfold log_area, LOGSIZE, MAXOPBLOCKS. lia. }
    destruct (decide (z ∈ bs)) as [(i & Ei)%list_elem_of_lookup|Hn].
    + erewrite apply_writes_in; [|rewrite home_writes_fst; apply Hbs|exact (home_writes_at _ i z Ei)].
      rewrite Hc. by apply Hlog.
    + rewrite apply_writes_notin by (by rewrite home_writes_fst). rewrite Ek. by apply Hoth.
Qed.
End Recover.

Lemma recovers_ext d f g :
  (forall z, ~ log_area ls z -> f z = g z) -> recovers d f -> recovers d g.
Proof.
  intros Hfg Hr k sb Hb Hs. eapply wp_mono; [exact (Hr k sb Hb Hs)|]. intros [] k' [H1 H2].
  split; [done|]. intros z Hz. rewrite <- Hfg by done. by apply H2.
Qed.

Lemma loggable_nil : loggable ls [].
Proof. split; [intros b Hb; by apply not_elem_of_nil in Hb|constructor|done]. Qed.

(** * Crashes during commit() *)

Section Commit.
Context (bs : list Z) (Hbs : loggable ls bs) (f : Z -> list Z) (d : disk) (h : list Z).
Context (Hh : length h = Z.to_nat BSIZE) (Hd : disk_block d ls = h).
Context (Hempty : header_is [] d) (Hf : forall z, z ∉ bs -> f z = disk_block d z).

Let W1 : list (Z * list Z) := log_writes ls f bs.
Let home : list (Z * list Z) := (fun b => (b, f b)) <$> bs.
Let W : list (Z * list Z) := commit_writes ls f h bs.

Lemma fits_block (l : list Z) : (length l <= length bs)%nat -> (4 + 4 * length l <= length h)%nat.
Proof. intros Hl. rewrite Hh. pose proof (lg_len _ _ Hbs). unfold LOGSIZE, MAXOPBLOCKS, BSIZE in *. lia. Qed.

Lemma home_fst : home.*1 = bs.
Proof. unfold home. rewrite <- list_fmap_compose. apply list_fmap_id. Qed.

Lemma log_write_at i b : bs !! i = Some b -> (ls + Z.of_nat i + 1, f b) ∈ W1.
Proof. intros E. apply list_elem_of_lookup. exists i. unfold W1, log_writes. by rewrite list_lookup_imap, E. Qed.

(** Before the header is written, the old blocks are still there. *)
Lemma crash_before n : (n <= length bs)%nat -> recovers (crashed n W d) (disk_block d).
Proof.
  intros Hn. assert (E : take n W = take n W1).
  { unfold W, commit_writes. rewrite take_app_le; [done|]. unfold log_writes. by rewrite length_imap. }
  assert (Hsame : forall z, ~ log_area ls z \/ z = ls -> disk_block (crashed n W d) z = disk_block d z).
  { intros z Hz. unfold crashed. rewrite E. apply apply_writes_notin. rewrite fmap_take. intros Hin%(subseteq_take n).
    destruct (log_writes_fst bs Hbs f z Hin). tauto. }
  apply (recovers_header [] loggable_nil).
  - destruct Hempty as (h0 & Hh0 & E0). exists h0. split; [done|]. by rewrite Hsame by auto.
  - done.
  - intros z Hz _. by apply Hsame; left.
Qed.

(** The state of the disk from the header write on. *)
Lemma after_header ws :
  (forall w, w ∈ ws -> w ∈ home) ->
  let d' := apply_writes ws (apply_writes [(ls, enc_head bs h)] (apply_writes W1 d)) in
  disk_block d' ls = enc_head bs h /\
  (forall i b, bs !! i = Some b -> disk_block d' (ls + Z.of_nat i + 1) = f b) /\
  (forall z, ~ log_area ls z -> z ∉ bs -> disk_block d' z = f z).
Proof.
  intros Hsub d'. assert (Hfst : forall z, z ∈ ws.*1 -> z ∈ bs).
  { intros z (w & -> & Hw)%list_elem_of_fmap. rewrite <- home_fst. apply list_elem_of_fmap. eauto. }
  assert (Hlsbs : ls ∉ bs).
  { intros Hin. apply (ls_not_logged ls bs Hbs). by apply elem_of_list_to_set. }
  assert (Hwhere : forall z, z ∉ bs -> disk_block d' z =
    if decide (z = ls) then enc_head bs h else disk_block (apply_writes W1 d) z).
  { intros z Hz. unfold d'. rewrite apply_writes_notin by eauto. simpl. by rewrite disk_block_write. }
  split; [|split].
  - rewrite Hwhere by done. by rewrite decide_True.
  - intros i b Eb. destruct (log_block_fresh ls Hls bs Hbs i b Eb) as (_ & Hn & _).
    rewrite Hwhere by (intros Hin; by apply Hn, elem_of_list_to_set). rewrite decide_False by lia.
    apply apply_writes_in; [apply log_writes_nodup|by apply log_write_at].
  - intros z Hz Hn. rewrite Hwhere, decide_False; [|intros ->; apply Hz; unfold log_area, LOGSIZE, MAXOPBLOCKS; lia|done].
    rewrite apply_writes_notin; [by rewrite Hf|]. intros Hin. by destruct (log_writes_fst bs Hbs f z Hin).
Qed.

(** All home blocks installed and the header cleared. *)
Lemma after_commit :
  header_is [] (apply_writes W d) /\ forall z, ~ log_area ls z -> disk_block (apply_writes W d) z = f z.
Proof.
  unfold W, commit_writes. rewrite !apply_writes_app. fold W1 home. cbn [apply_writes foldl fst snd].
  destruct (after_header home ltac:(done)) as (H1 & H2 & H3). simpl in H1, H3. split.
  - exists (enc_head bs h). rewrite disk_block_write, decide_True by done. split; [|done].
    rewrite enc_head_length; [done|]. by apply fits_block.
  - intros z Hz. rewrite disk_block_write, decide_False by (intros ->; apply Hz; unfold log_area, LOGSIZE, MAXOPBLOCKS; lia).
    destruct (decide (z ∈ bs)) as [Hin|Hn]; [|by apply H3].
    apply apply_writes_in; [rewrite home_fst; apply Hbs|]. apply list_elem_of_fmap. by exists z.
Qed.

Lemma crash_after n : (length bs < n)%nat -> recovers (crashed n W d) f.
Proof.
  intros Hn. assert (Hl1 : length W1 = length bs) by (unfold W1, log_writes; apply length_imap).
  assert (Hl2 : length home = length bs) by (unfold home; apply length_fmap).
  destruct (decide (n <= 2 * length bs + 1)%nat) as [Hle|Hgt].
  - assert (E : take n W = W1 ++ [(ls, enc_head bs h)] ++ take (n - length bs - 1) home).
    { unfold W, commit_writes. fold W1 home. rewrite take_app_ge, Hl1 by lia. f_equal.
      replace (n - length bs)%nat with (S (n - length bs - 1)) by lia. simpl. f_equal.
      rewrite take_app_le; [f_equal; lia|]. lia. }
    unfold crashed. rewrite E, !apply_writes_app.
    destruct (after_header (take (n - length bs - 1) home)) as (H1 & H2 & H3); [intros w Hw; by eapply subseteq_take|].
    apply (recovers_header bs Hbs); [by exists h|done|done].
  - assert (E : take n W = W).
    { apply take_ge. unfold W, commit_writes. fold W1 home. rewrite !length_app, Hl1, Hl2. simpl. lia. }
    unfold crashed. rewrite E. destruct after_commit as [H1 H2].
    apply (recovers_header [] loggable_nil); [done|done|]. intros z Hz _. by apply H2.
Qed.
End Commit.

(** C2. commit() is atomic with respect to crashes.  It performs a sequence [ws] of
    disk writes; if the machine stops after any number [n] of them, recovery on
    the disk of that moment yields, outside the log, exactly the blocks from before
    the transaction when the header has not been written (n at most the number of
    logged blocks), and exactly the contents that the transaction gave them
    otherwise; after all of them the log is empty and the disk holds the transaction. *)
Theorem commit_crash_safe k me pid bs :
  loggable ls bs -> bs <> [] -> length (disk_block (k_disk k) ls) = Z.to_nat BSIZE ->
  header_is [] (k_disk k) -> bio dev k me pid (list_to_set bs) [] -> log_is dev ls k bs ->
  wp env (commit k) (fun _ k' => exists ws,
    dk_writes (k_disk k') = dk_writes (k_disk k) ++ ws /\ k_disk k' = apply_writes ws (k_disk k) /\
    (forall n, recovers (crashed n ws (k_disk k))
       (if decide (n <= length bs)%nat then disk_block (k_disk k) else content dev k)) /\
    header_is [] (k_disk k') /\ forall z, ~ log_area ls z -> disk_block (k_disk k') z = content dev k z).
Proof.
  intros Hbs Hne Hh He B L.
  assert (Hc : forall z, z ∉ bs -> content dev k z = disk_block (k_disk k) z).
  { intros z Hz. apply (content_clean dev k me pid _ [] z B); [by rewrite elem_of_list_to_set|apply not_elem_of_nil]. }
  assert (Hls0 : content dev k ls = disk_block (k_disk k) ls).
  { apply Hc. intros Hin. apply (ls_not_logged ls bs Hbs). by apply elem_of_list_to_set. }
  eapply wp_mono; [apply (commit_spec dev ls Hdev Hls k me pid bs Hbs Hne); [by rewrite Hls0|done|done]|].
  intros [] k' (B' & L' & C' & D' & F'). exists (commit_writes ls (content dev k) (content dev k ls) bs).
  rewrite Hls0 in D' |- *. rewrite D'. split; [apply apply_writes_log|]. split; [done|]. split.
  - intros n. case_decide as Hn.
    + by apply (crash_before bs Hbs (content dev k) (k_disk k)).
    + apply (crash_after bs Hbs (content dev k) (k_disk k)); try done. lia.
  - by apply after_commit.
Qed.

(** * Crashes during the recovery *)

(** The blocks that the log of [d], with the header [bs], describes. *)
Definition installed (bs : list Z) (d : disk) (z : Z) : list Z :=
  match list_find (eq z) bs with
  | Some (i, _) => disk_block d (ls + Z.of_nat i + 1)
  | None => disk_block d z
  end.

Lemma installed_in bs d i b :
  NoDup bs -> bs !! i = Some b -> installed bs d b = disk_block d (ls + Z.of_nat i + 1).
Proof.
  intros Hnd E. unfold installed. destruct (list_find (eq b) bs) as [[j c]|] eqn:Ef.
  - apply list_find_Some in Ef as (Ej & <- & _). by rewrite (NoDup_lookup bs i j b Hnd E Ej).
  - apply list_find_None in Ef. rewrite Forall_lookup in Ef. by destruct (Ef i b E).
Qed.

Lemma installed_out bs d z : z ∉ bs -> installed bs d z = disk_block d z.
Proof.
  intros Hz. unfold installed. destruct (list_find (eq z) bs) as [[j c]|] eqn:Ef; [|done].
  apply list_find_Some in Ef as (Ej & <- & _). destruct Hz. by eapply list_elem_of_lookup_2.
Qed.

(** C3. A recovery that is itself cut off by a crash loses nothing: the writes of
    recover_from_log(), cut after any number of them, leave a disk that recovers
    to the same blocks, those that the log describes, and a recovery
    that is not cut off installs them and empties the log. *)
Theorem recovery_crash_safe k me pid bs :
  loggable ls bs -> header_is bs (k_disk k) -> bio dev k me pid ∅ [] -> log_found dev ls k ->
  wp env (recover_from_log k) (fun _ k' => exists ws,
    dk_writes (k_disk k') = dk_writes (k_disk k) ++ ws /\ k_disk k' = apply_writes ws (k_disk k) /\
    (forall n, recovers (crashed n ws (k_disk k)) (installed bs (k_disk k))) /\
    header_is [] (k_disk k') /\
    forall z, ~ log_area ls z -> disk_block (k_disk k') z = installed bs (k_disk k) z).
Proof.
  intros Hbs (h & Hh & Hd) B Lf. pose proof (lg_len _ _ Hbs) as Hlen. set (d := k_disk k) in *.
  assert (Hc : forall z, content dev k z = disk_block d z) by (intros z; by apply (content_empty k me pid z)).
  eapply wp_mono; [apply (recover_spec dev ls Hdev Hls k me pid bs h Hbs Hh B Lf); by rewrite Hc|].
  intros [] k' (_ & _ & D' & _). fold d in D'. set (ws := recover_writes ls (content dev k) h bs) in *. exists ws. rewrite D'.
  set (hw := home_writes ls (content dev k) bs). assert (Hlw : length hw = length bs) by apply length_imap.
  assert (Hkeep : forall n z, z ∉ bs -> disk_block (apply_writes (take n hw) d) z = disk_block d z).
  { intros n z Hz. apply apply_writes_notin. rewrite fmap_take. unfold hw. rewrite home_writes_fst.
    intros Hin. by apply Hz, (subseteq_take n). }
  assert (Hend : header_is [] (apply_writes ws d) /\
    forall z, ~ log_area ls z -> disk_block (apply_writes ws d) z = installed bs d z).
  { unfold ws, recover_writes. rewrite apply_writes_app. fold hw. simpl. split.
    - exists (enc_head bs h). rewrite disk_block_write, decide_True by done. split; [|done].
      rewrite enc_head_length; [done|]. rewrite Hh. unfold LOGSIZE, MAXOPBLOCKS, BSIZE in *. lia.
    - intros z Hz. rewrite disk_block_write, decide_False by (intros ->; apply Hz; unfold log_area, LOGSIZE, MAXOPBLOCKS; lia).
      destruct (decide (z ∈ bs)) as [(i & Ei)%list_elem_of_lookup|Hn].
      + rewrite (installed_in bs d i z (lg_nodup _ _ Hbs) Ei).
        erewrite apply_writes_in; [|unfold hw; rewrite home_writes_fst; apply Hbs|exact (home_writes_at bs _ i z Ei)]. apply Hc.
      + rewrite installed_out by done. rewrite <- (take_ge hw (length bs)) by lia. by apply Hkeep. }
  split; [apply apply_writes_log|]. split; [done|]. split; [|done]. intros n. unfold crashed.
  destruct (decide (n <= length bs)%nat) as [Hle|Hgt].
  - assert (E : take n ws = take n hw) by (unfold ws, recover_writes; fold hw; apply take_app_le; lia). rewrite E.
    assert (Hlsbs : ls ∉ bs) by (intros Hin; apply (ls_not_logged ls bs Hbs); by apply elem_of_list_to_set).
    apply (recovers_header bs Hbs).
    + exists h. split; [done|]. by rewrite Hkeep.
    + intros i b Eb. destruct (log_block_fresh ls Hls bs Hbs i b Eb) as (_ & Hn & _).
      rewrite Hkeep by (intros Hin; by apply Hn, elem_of_list_to_set). symmetry. by apply installed_in; [apply Hbs|].
    + intros z Hz Hn. by rewrite Hkeep, installed_out.
  - rewrite take_ge by (unfold ws, recover_writes; fold hw; rewrite length_app, Hlw; simpl; lia).
    apply (recovers_header [] loggable_nil); [apply Hend|done|]. intros z Hz _. by apply Hend.
Qed.
End Crash.
