(* ===== verification/LogTxn.v ===== *)
(** Transactions (kernel/log.c): begin_op(), log_write() and end_op(), and what a
    whole transaction through the buffer cache and the log guarantees. *)

From Stdlib Require Import ZArith Lia.
From stdpp Require Import base gmap list_numbers strings numbers functions list.
From S2P Require Import Prelude Mem Bytes Riscv Kernel Spinlock Kalloc Vm Printf Sched SchedSpec Thread.
From S2P Require Import Sleeplock SleeplockSpec Virtio Bio BioSpec BioInv VirtioSpec BioProps Log LogSpec LogCrash.

Open Scope Z_scope.

Implicit Types (k : kernel).

(** * log_write() *)

(** The logged blocks after log_write() of block [bno]: absorbed if it is there already. *)
Definition log_add (bno : Z) (bs : list Z) : list Z := if decide (bno ∈ bs) then bs else bs ++ [bno].

Definition incref (b : buf) : buf := set_b_refcnt (u32 (b_refcnt b + 1)) b.

Section Txn.
Context (dev ls : Z) (Hdev : 0 < dev < 2 ^ 31) (Hls : 0 <= ls < 2 ^ 30).

(** Position of [bno] in [bs], its length when it is not there. *)
Definition pos (bno : Z) (bs : list Z) : nat :=
  match list_find (eq bno) bs with Some (i, _) => i | None => length bs end.

Lemma log_find_run k bs bno : forall m i fuel,
  log_is dev ls k bs -> (forall b, b ∈ bs -> 0 <= b < 2 ^ 31) ->
  (i + m = length bs)%nat -> (m < fuel)%nat ->
  (forall j b, (j < i)%nat -> bs !! j = Some b -> b <> bno) ->
  log_find fuel (Z.of_nat i) bno k = Ret (Z.of_nat (pos bno bs)) k.
Proof.
  induction m as [|m IH]; intros i fuel L Hr Him Hf Hbefore; (destruct fuel as [|fuel]; [lia|]); cbn [log_find];
    rewrite (bind_run _ _ _ _ _ (get_log_run k)), (li_n _ _ _ _ L).
  - rewrite (proj2 (Z.ltb_ge _ _)) by lia. unfold ret, pos. f_equal. f_equal.
    destruct (list_find (eq bno) bs) as [[j b]|] eqn:E; [|lia].
    apply list_find_Some in E as (Ej & <- & _). destruct (Hbefore j bno); [|done|done].
    apply lookup_lt_Some in Ej. lia.
  - rewrite (proj2 (Z.ltb_lt _ _)) by lia. destruct (proj2 (lookup_lt_is_Some bs i)) as [b Eb]; [lia|].
    rewrite (bind_run _ _ _ _ _ (lh_get_run dev ls k bs i b L Eb)).
    rewrite u32_small by (pose proof (Hr b ltac:(by eapply list_elem_of_lookup_2)); lia).
    destruct (Z.eqb_spec b bno) as [->|Hne].
    + unfold ret, pos. f_equal. f_equal. destruct (list_find (eq bno) bs) as [[j c]|] eqn:E.
      * apply list_find_Some in E as (Ej & <- & Hmin). destruct (Nat.lt_trichotomy i j) as [Hlt|[->|Hgt]]; [|done|].
        -- by destruct (Hmin i bno Eb Hlt).
        -- by destruct (Hbefore j bno Hgt Ej).
      * apply list_find_None in E. rewrite Forall_lookup in E. by destruct (E i bno Eb).
    + replace (Z.of_nat i + 1) with (Z.of_nat (S i)) by lia. apply IH; try done; [lia|lia|].
      intros j c Hj Ej. destruct (decide (j = i)) as [->|]; [congruence|]. apply (Hbefore j c); [lia|done].
Qed.

Lemma pos_in bno bs : bno ∈ bs -> bs !! pos bno bs = Some bno /\ (pos bno bs < length bs)%nat.
Proof.
  intros Hin. unfold pos. destruct (list_find (eq bno) bs) as [[j b]|] eqn:E.
  - apply list_find_Some in E as (Ej & <- & _). split; [done|by eapply lookup_lt_Some].
  - apply list_find_None in E. rewrite Forall_forall in E. by destruct (E bno Hin).
Qed.

Lemma pos_out bno bs : bno ∉ bs -> pos bno bs = length bs.
Proof.
  intros Hn. unfold pos. destruct (list_find (eq bno) bs) as [[j b]|] eqn:E; [|done].
  apply list_find_Some in E as (Ej & <- & _). destruct Hn. by eapply list_elem_of_lookup_2.
Qed.

(** The log structure after log_write() of [bno]. *)
Definition log_added (bno : Z) (bs : list Z) (l : logst) : logst :=
  set_l_lh (mkLogheader (Z.of_nat (length (log_add bno bs)))
              (<[pos bno bs := bno]> (lh_block (l_lh l)))) l.

Lemma log_added_is k bno bs :
  log_is dev ls k bs -> Z.of_nat (length bs) < LOGSIZE ->
  log_is dev ls (set_k_log (log_added bno bs (k_log k)) k) (log_add bno bs).
Proof.
  intros [H1 H2 H3 (rest & H4 & H5)] Hlt. split; simpl; try done. rewrite H4. unfold log_add.
  rewrite length_app in H5. case_decide as Hin.
  - exists rest. destruct (pos_in bno bs Hin) as [Ep Hp]. rewrite insert_app_l by done.
    by rewrite (list_insert_id _ _ _ Ep), length_app.
  - rewrite (pos_out bno bs Hin). destruct rest as [|x rest]; [simpl in H5; lia|]. exists rest.
    rewrite insert_app_r_alt, Nat.sub_diag by done. simpl. rewrite <- !app_assoc. split; [done|].
    rewrite !length_app in *. simpl in *. lia.
Qed.

(** The calls of log_write() that the code accepts. *)
Record loggable_now (k : kernel) (bs : list Z) : Prop := {
  ln_lock : lock_free k LLog;
  ln_room : Z.of_nat (length bs) < LOGSIZE - 1 /\ Z.of_nat (length bs) < l_size (k_log k) - 1;
  ln_op : 1 <= l_outstanding (k_log k);
}.

Lemma log_write_run k me pid D H i bno bs :
  bio dev k me pid D H -> (i, bno) ∈ H -> log_is dev ls k bs -> (forall b, b ∈ bs -> 0 <= b < 2 ^ 31) ->
  0 <= bno < 2 ^ 31 -> loggable_now k bs ->
  log_write i k = Ret tt (set_k_log (log_added bno bs (k_log k))
    (if decide (bno ∈ bs) then relax k else alter_buf i incref (relax k))).
Proof.
  intros B Hin L Hr Hb [Hl [Hn1 Hn2] Ho]. pose proof (thread_cpu_ok _ _ _ (bi_thread _ _ _ _ _ _ B)) as Hok.
  unfold log_write. rewrite (bind_run _ _ _ _ _ (acquire_run k LLog Hok Hl)). set (k1 := enter LLog k).
  assert (L1 : log_is dev ls k1 bs) by exact (let '(Build_log_is _ _ _ _ a b c d) := L in Build_log_is dev ls k1 bs a b c d).
  rewrite (bind_run _ _ _ _ _ (get_log_run k1)), (li_n _ _ _ _ L1).
  change (k_log k1) with (k_log k).
  rewrite (proj2 (Z.leb_gt LOGSIZE _)), (proj2 (Z.leb_gt (l_size _ - 1) _)) by lia. cbn [orb].
  rewrite (proj2 (Z.ltb_ge (l_outstanding _) 1)) by lia.
  destruct (held_buf dev k me pid D H i bno B Hin) as (b & Eb & _ & _ & Ebno & _).
  rewrite (bind_run _ _ _ _ _ (get_buf_run k1 i b Eb)), Ebno.
  assert (Ef : log_find (S (Z.to_nat (Z.of_nat (length bs)))) 0 bno k1 = Ret (Z.of_nat (pos bno bs)) k1).
  { apply (log_find_run k1 bs bno (length bs) 0); [done|done|done|lia|intros; lia]. }
  rewrite (bind_run _ _ _ _ _ Ef). rewrite i32_small by lia.
  destruct L1 as [_ _ H3 (rest & H4 & H5)].
  assert (Hpl : (pos bno bs < length (bs ++ rest))%nat).
  { destruct (decide (bno ∈ bs)) as [Hi|Hi]; rewrite length_app.
    - destruct (pos_in bno bs Hi). lia.
    - rewrite (pos_out bno bs Hi). rewrite length_app in H5. lia. }
  set (l1 := set_l_lh (set_lh_block (<[pos bno bs := bno]> (lh_block (l_lh (k_log k)))) (l_lh (k_log k))) (k_log k)).
  assert (Es : lh_set (Z.of_nat (pos bno bs)) bno k1 = Ret tt (set_k_log l1 k1)).
  { unfold lh_set. rewrite (bind_run _ _ _ _ _ (get_log_run k1)), H4.
    rewrite (proj2 (Z.leb_le _ _)), (proj2 (Z.ltb_lt _ _)) by lia. cbn [andb].
    unfold upd_lh, upd_log, modify. by rewrite Nat2Z.id. }
  rewrite (bind_run _ _ _ _ _ Es).
  assert (Ha : log_added bno bs (k_log k) = set_l_lh (set_lh_n (Z.of_nat (length (log_add bno bs))) (l_lh l1)) l1) by done.
  unfold log_add in Ha. destruct (decide (bno ∈ bs)) as [Hi|Hi].
  - destruct (pos_in bno bs Hi). rewrite (proj2 (Z.eqb_neq _ _)) by lia. cbn [when]. rewrite bind_ret.
    unfold k1. rewrite (release_upd k LLog (set_k_log l1) Hok Hl) by done. f_equal. rewrite Ha, <- H3.
    change (k_log (enter LLog k)) with (k_log k). by destruct k as [? ? ? ? ? ? ? ? [? ? ? ? ? []]].
  - rewrite (pos_out bno bs Hi), Z.eqb_refl. cbn [when].
    assert (Ep : bpin i (set_k_log l1 k1) = Ret tt (alter_buf i incref (set_k_log l1 k1))).
    { unfold bpin. rewrite (critical_unit_run (set_k_log l1 k1) LBcache _ (alter_buf i incref)).
      - f_equal. rewrite data_only_relax by done. f_equal. change (relax (set_k_log l1 k1)) with (set_k_log l1 (relax k1)).
        unfold k1. by rewrite relax_enter.
      - destruct Hok as (ci & c & OC). eexists _, _. apply (on_cpu_ext (pushed k)); [done|done|]. by apply pushed_on_cpu.
      - destruct (bi_lock _ _ _ _ _ _ B) as [n En]. exists n. simpl. by rewrite lookup_alter_ne.
      - done.
      - done. }
    unfold bind at 1. rewrite (bind_run _ _ _ _ _ Ep). unfold upd_lh, upd_log, modify. cbn [obind].
    set (kf := set_k_log _ (alter_buf _ _ _)).
    assert (Ek : kf = set_k_log (log_added bno bs (k_log k)) (alter_buf i incref (enter LLog k))).
    { transitivity (set_k_log (log_added bno bs (k_log k)) (alter_buf i incref (set_k_log l1 k1))); [|done].
      unfold kf. f_equal. rewrite Ha, length_app. change (lh_n (l_lh (k_log k)) = Z.of_nat (length bs)) in H3.
      unfold set_l_lh, set_lh_n, l1. simpl. rewrite H3. do 2 f_equal. lia. }
    rewrite Ek. rewrite (release_upd k LLog (fun k' => set_k_log (log_added bno bs (k_log k)) (alter_buf i incref k')) Hok Hl) by done.
    done.
Qed.

Lemma bio_relax k me pid D H : bio dev k me pid D H -> bio dev (relax k) me pid D H.
Proof. intros []. split; try done. by apply thread_relax. Qed.

Lemma log_write_spec k me pid H i bno bs :
  bio dev k me pid (list_to_set bs) H -> (i, bno) ∈ H -> log_is dev ls k bs ->
  (forall b, b ∈ bs -> 0 <= b < 2 ^ 31) -> 0 <= bno < 2 ^ 31 -> loggable_now k bs ->
  exists k', log_write i k = Ret tt k' /\ bio dev k' me pid (list_to_set (log_add bno bs)) H /\
    log_is dev ls k' (log_add bno bs) /\ (forall z, content dev k' z = content dev k z) /\
    k_disk k' = k_disk k /\ fs_frame k k' /\ k_log k' = log_added bno bs (k_log k).
Proof.
  intros B Hin L Hr Hb Hnow. eexists. split; [by eapply log_write_run|].
  assert (Hlt : Z.of_nat (length bs) < LOGSIZE) by (destruct Hnow as [_ [? _] _]; lia).
  destruct (log_added_is k bno bs L Hlt) as [L1 L2 L3 L4]. unfold log_add in *.
  destruct (decide (bno ∈ bs)) as [Hi|Hi].
  - split; [by apply bio_set_log, bio_relax|]. split; [by split|]. by destruct k.
  - destruct (bpin_spec dev k me pid _ H i bno B Hin) as (k2 & E2 & B2 & C2 & D2 & F2); [by rewrite elem_of_list_to_set|].
    assert (Ek : bpin i k = Ret tt (alter_buf i incref (relax k))).
    { apply (critical_unit_run k LBcache _ (alter_buf i incref)); [eapply thread_cpu_ok, B|apply B|done|done]. }
    rewrite Ek in E2. injection E2 as <-.
    split; [|split; [by split|split; [done|by destruct k]]]. apply bio_set_log.
    rewrite list_to_set_app_L. simpl. by rewrite (union_comm_L _ ({[bno]} ∪ ∅)), union_empty_r_L.
Qed.
End Txn.

(** * begin_op() and end_op() *)

(** No system call is in a transaction, and the log is not being committed. *)
Record idle_log (k : kernel) : Prop := {
  il_lock : lock_free k LLog;
  il_size : l_size (k_log k) = LOGSIZE;
  il_out : l_outstanding (k_log k) = 0;
  il_commit : l_committing (k_log k) = 0;
}.

Definition upd_log_of (f : logst -> logst) (k : kernel) : kernel := set_k_log (f (k_log k)) k.

Lemma upd_log_run f k : upd_log f k = Ret tt (upd_log_of f k).
Proof. done. Qed.

(** begin_op() when there is room. *)
Lemma begin_op_run k :
  cpu_ok k -> lock_free k LLog -> l_committing (k_log k) = 0 ->
  lh_n (l_lh (k_log k)) + (l_outstanding (k_log k) + 1) * MAXOPBLOCKS <= LOGSIZE ->
  begin_op k = Ret tt (upd_log_of (fun l => set_l_outstanding (l_outstanding l + 1) l) (relax k)).
Proof.
  intros Hok Hl Hc Hroom. unfold begin_op. rewrite (bind_run _ _ _ _ _ (acquire_run k LLog Hok Hl)).
  change sleep_rounds with (S 999). generalize 999%nat as fuel. intros fuel. cbn [begin_op_loop]. rewrite (bind_run _ _ _ _ _ (get_log_run _)).
  change (k_log (enter LLog k)) with (k_log k). rewrite Hc. cbn [Z.eqb negb].
  rewrite (proj2 (Z.ltb_ge _ _)) by exact Hroom. rewrite (bind_run _ _ _ _ _ (upd_log_run _ _)).
  exact (release_upd k LLog (upd_log_of (fun l => set_l_outstanding (l_outstanding (k_log k) + 1) l)) Hok Hl ltac:(done)).
Qed.

Lemma log_add_loggable ls u bs :
  0 <= u < 2 ^ 31 -> ~ log_area ls u -> Z.of_nat (length bs) < LOGSIZE - 1 -> loggable ls bs ->
  loggable ls (log_add u bs).
Proof.
  intros Hu Ha Hn [H1 H2 H3]. unfold log_add. case_decide as Hin; [done|]. split.
  - intros b [Hb|Hb]%elem_of_app; [by apply H1|]. by apply list_elem_of_singleton in Hb as ->.
  - apply NoDup_app. split; [done|]. split; [set_solver|apply NoDup_singleton].
  - rewrite length_app. simpl. lia.
Qed.

Lemma log_add_length u bs : (length bs <= length (log_add u bs) <= S (length bs))%nat.
Proof. unfold log_add. case_decide; rewrite ?length_app; simpl; lia. Qed.

Section EndOp.
Context (dev ls : Z) {BD : BlockDevice} {env : kernel -> kernel -> Prop} {DL : DiskLaws env}.
Context (Hdev : 0 < dev < 2 ^ 31) (Hls : 0 <= ls < 2 ^ 30).

Lemma fs_frame_locks k k' : fs_frame k k' -> k_locks k' = k_locks k.
Proof. intros E. exact (f_equal k_locks E). Qed.

Lemma bio_procs k me pid D H me' chan :
  bio dev k me pid D H -> bio dev (set_procs (imap (wake me' chan) (k_procs k)) k) me pid D H.
Proof. intros []. split; try done. by apply thread_wake. Qed.

(** The writes that the end of the last transaction makes. *)
Definition end_writes (f : Z -> list Z) (h bs : list Z) : list (Z * list Z) :=
  match bs with [] => [] | _ => commit_writes ls f h bs end.

Lemma end_op_spec k me pid bs :
  loggable ls bs -> length (content dev k ls) = Z.to_nat BSIZE ->
  bio dev k me pid (list_to_set bs) [] -> log_is dev ls k bs ->
  lock_free k LLog -> l_outstanding (k_log k) = 1 -> l_committing (k_log k) = 0 -> l_size (k_log k) = LOGSIZE ->
  wp env (end_op k) (fun _ k' => bio dev k' me pid ∅ [] /\ log_is dev ls k' [] /\ idle_log k' /\
    k_disk k' = apply_writes (end_writes (content dev k) (content dev k ls) bs) (k_disk k)).
Proof.
  intros Hbs Hh B L Hl Ho Hc Hsz. pose proof (thread_cpu_ok _ _ _ (bi_thread _ _ _ _ _ _ B)) as Hok.
  unfold end_op. eapply wp_bind_run; [exact (acquire_run k LLog Hok Hl)|].
  eapply wp_bind_run; [exact (upd_log_run _ _)|]. eapply wp_bind_run; [exact (get_log_run _)|].
  cbn [upd_log_of k_log set_k_log set_l_outstanding l_committing l_outstanding]. change (k_log (enter LLog k)) with (k_log k).
  rewrite Hc, Ho. cbn [Z.eqb negb]. change (1 - 1 =? 0) with true. cbv iota.
  set (l1 := set_l_committing 1 (set_l_outstanding (l_outstanding (k_log k) - 1) (k_log k))).
  eapply wp_bind_run.
  { etrans; [eapply bind_run; exact (upd_log_run _ _)|reflexivity]. }
  set (k1 := set_k_log l1 (relax k)).
  eapply wp_bind_run.
  { etrans; [exact (release_upd k LLog (set_k_log l1) Hok Hl ltac:(done))|reflexivity]. }
  fold k1. cbn [when].
  assert (B1 : bio dev k1 me pid (list_to_set bs) []) by (by apply bio_set_log, bio_relax).
  assert (L1 : log_is dev ls k1 bs) by (destruct L; by split).
  assert (Hcm : wp env (commit k1) (fun _ k' => bio dev k' me pid ∅ [] /\ log_is dev ls k' [] /\
    k_disk k' = apply_writes (end_writes (content dev k) (content dev k ls) bs) (k_disk k) /\
    k_locks k' = k_locks k /\ exists lh, k_log k' = set_l_lh lh l1)).
  { destruct bs as [|b bs'].
    - unfold commit. eapply wp_bind_run; [exact (get_log_run _)|]. rewrite (li_n _ _ _ _ L1). simpl.
      split_and!; try done. exists (l_lh l1). by destruct (k_log k).
    - eapply wp_mono; [by apply (commit_spec dev ls Hdev Hls k1 me pid (b :: bs') Hbs)|].
      intros [] k' (B' & L' & _ & D' & F' & lh & El). split_and!; try done; [by rewrite (fs_frame_locks _ _ F')|by exists lh]. }
  apply wp_bind. eapply wp_mono; [exact Hcm|]. intros [] k2 (B2 & L2 & D2 & Hlk & lh & El).
  assert (Hl2 : lock_free k2 LLog) by (unfold lock_free; by rewrite Hlk).
  pose proof (thread_cpu_ok _ _ _ (bi_thread _ _ _ _ _ _ B2)) as Hok2.
  eapply wp_bind_run; [exact (acquire_run k2 LLog Hok2 Hl2)|]. eapply wp_bind_run; [exact (upd_log_run _ _)|].
  set (l3 := set_l_committing 0 (k_log k2)). set (k3 := enter LLog k2).
  change (upd_log_of (set_l_committing 0) k3) with (set_k_log l3 k3).
  assert (T3 : running (set_k_log l3 k3) me pid).
  { apply (running_ext k3); try done. apply running_enter; [done|apply B2]. }
  eapply wp_bind_run; [exact (wakeup_run (set_k_log l3 k3) (Some me) (Some ChLog) (running_wake_ready _ _ _ T3))|].
  assert (R3 : relax (set_k_log l3 k3) = set_k_log l3 k3).
  { change (relax (set_k_log l3 k3)) with (set_k_log l3 (relax k3)). unfold k3. by rewrite relax_enter. }
  rewrite R3. change (k_procs (set_k_log l3 k3)) with (k_procs k2). unfold k3.
  eapply wp_run.
  { exact (release_upd k2 LLog (fun k' => set_procs (imap (wake (Some me) (Some ChLog)) (k_procs k2)) (set_k_log l3 k'))
             Hok2 Hl2 ltac:(done)). }
  assert (L3' : log_is dev ls (set_k_log l3 k2) []) by (unfold l3; destruct L2; by split).
  split; [|split; [destruct L3'; by split|split; [|done]]].
  - exact (bio_procs _ me pid ∅ [] (Some me) (Some ChLog) (bio_set_log dev l3 (relax k2) me pid ∅ [] (bio_relax dev k2 me pid ∅ [] B2))).
  - destruct Hl2 as [n En]. split; simpl; rewrite ?El; simpl; [by exists n|done|lia|done].
Qed.

(** * A whole transaction *)

(** A system call that updates the blocks of [us], each with new contents, as
    fs.c does: begin_op(); bread(), change, log_write(), brelse() for each block; end_op(). *)
Definition txn (us : list (Z * list Z)) : K unit :=
  do! begin_op;
  do! each us (fun u =>
    let! b := bread dev u.1 in
    do! upd_buf b (set_b_data u.2);
    do! log_write b;
    brelse b);
  end_op.

(** The blocks [f] after the updates. *)
Definition updated (us : list (Z * list Z)) (f : Z -> list Z) : Z -> list Z :=
  foldl (fun f u z => if decide (z = u.1) then u.2 else f z) f us.

Lemma updated_ext us : forall f g, (forall z, f z = g z) -> forall z, updated us f z = updated us g z.
Proof.
  induction us as [|u us IH]; intros f g E z; [done|]. cbn [updated foldl]. apply IH. intros z'.
  by case_decide.
Qed.

Definition logged (us : list (Z * list Z)) (bs : list Z) : list Z := foldl (fun bs u => log_add u.1 bs) bs us.

(** The state inside a transaction in which nobody else takes part. *)
Record in_op (k : kernel) (me : nat) (pid : Z) (bs : list Z) : Prop := {
  io_bio : bio dev k me pid (list_to_set bs) [];
  io_log : log_is dev ls k bs;
  io_ok : loggable ls bs;
  io_lock : lock_free k LLog;
  io_size : l_size (k_log k) = LOGSIZE;
  io_out : l_outstanding (k_log k) = 1;
  io_com : l_committing (k_log k) = 0;
}.

Lemma size_logged_lt bs : loggable ls bs -> (size (list_to_set (C := gset Z) bs) < Z.to_nat NBUF)%nat.
Proof. intros Hbs. exact (size_logged ls bs Hbs). Qed.

Lemma txn_update k me pid bs u :
  in_op k me pid bs -> 0 <= u.1 < 2 ^ 31 -> ~ log_area ls u.1 -> Z.of_nat (length bs) < LOGSIZE - 1 ->
  wp env ((let! b := bread dev u.1 in
           do! upd_buf b (set_b_data u.2);
           do! log_write b;
           brelse b) k) (fun _ k' => in_op k' me pid (log_add u.1 bs) /\
    (forall z, content dev k' z = if decide (z = u.1) then u.2 else content dev k z) /\ k_disk k' = k_disk k).
Proof.
  intros [B L Hbs Hl Hsz Ho Hc] Hu Ha Hn. apply wp_bind.
  eapply wp_mono; [apply (bread_spec dev k me pid _ [] u.1 B);
    [apply not_elem_of_nil|right; pose proof (size_logged_lt bs Hbs); simpl; lia|done]|].
  intros i k1 (B1 & C1 & D1 & F1). assert (Hin : (i, u.1) ∈ [(i, u.1)]) by set_solver.
  destruct (set_data_spec dev k1 me pid _ _ i u.1 B1 Hin u.2) as (k2 & E2 & B2 & C2 & D2 & F2).
  eapply wp_bind_run; [exact E2|]. pose proof (bio_frame_trans _ _ _ F1 F2) as F12.
  pose proof (log_is_frame dev ls _ _ _ F12 L) as L2. pose proof (log_frame _ _ F12) as El.
  assert (Hnow : loggable_now k2 bs).
  { split; rewrite ?El, ?Hsz, ?Ho; [|done|lia]. unfold lock_free. by rewrite (bio_frame_locks _ _ F12). }
  destruct (log_write_spec dev ls k2 me pid _ i u.1 bs B2 Hin L2 ltac:(intros b Hb; by apply (lg_range _ _ Hbs)) Hu Hnow)
    as (k3 & E3 & B3 & L3 & C3 & D3 & F3 & El3).
  eapply wp_bind_run; [exact E3|].
  destruct (brelse_spec dev k3 me pid _ [] i u.1 B3) as (k4 & E4 & B4 & C4 & D4 & F4).
  { left. rewrite elem_of_list_to_set. unfold log_add. case_decide; [done|set_solver]. }
  rewrite E4. simpl. split; [|split].
  - split; rewrite ?(log_frame _ _ F4), ?El3, ?El; try done.
    + by eapply log_is_frame.
    + by apply log_add_loggable.
    + unfold lock_free. by rewrite (bio_frame_locks _ _ F4), (fs_frame_locks _ _ F3), (bio_frame_locks _ _ F12).
  - intros z. rewrite C4, C3, C2. case_decide; [done|]. apply C1.
  - by rewrite D4, D3, D2, D1.
Qed.

Lemma txn_updates me pid us : forall k bs,
  in_op k me pid bs -> (forall u, u ∈ us -> 0 <= u.1 < 2 ^ 31 /\ ~ log_area ls u.1) ->
  Z.of_nat (length bs + length us) <= LOGSIZE - 1 ->
  wp env (each us (fun u =>
    let! b := bread dev u.1 in
    do! upd_buf b (set_b_data u.2);
    do! log_write b;
    brelse b) k) (fun _ k' => in_op k' me pid (logged us bs) /\
      (forall z, content dev k' z = updated us (content dev k) z) /\ k_disk k' = k_disk k).
Proof.
  induction us as [|u us IH]; intros k bs Hop Hus Hlen; [done|]. cbn [each].
  simpl in Hlen. destruct (Hus u) as [Hu Ha]; [set_solver|]. pose proof (log_add_length u.1 bs).
  apply wp_bind. eapply wp_mono; [apply (txn_update k me pid bs u Hop Hu Ha); lia|].
  intros [] k1 (Hop1 & C1 & D1). eapply wp_mono; [apply (IH k1 (log_add u.1 bs) Hop1)|].
  - intros v Hv. apply Hus. set_solver.
  - lia.
  - intros [] k2 (Hop2 & C2 & D2). split; [done|]. split; [|by rewrite D2].
    intros z. rewrite C2. by apply (updated_ext us).
Qed.

Lemma end_writes_safe bs f d :
  loggable ls bs -> length (disk_block d ls) = Z.to_nat BSIZE -> header_is ls [] d ->
  (forall z, z ∉ bs -> f z = disk_block d z) ->
  let ws := end_writes f (disk_block d ls) bs in
  (forall n, recovers dev ls (env := env) (crashed n ws d) (disk_block d) \/
             recovers dev ls (env := env) (crashed n ws d) f) /\
  header_is ls [] (apply_writes ws d) /\ forall z, ~ log_area ls z -> disk_block (apply_writes ws d) z = f z.
Proof.
  intros Hbs Hh He Hf ws. destruct bs as [|b bs'] eqn:Eb.
  - split; [|split; [done|]].
    + intros n. left. unfold crashed, ws. cbn [end_writes]. rewrite take_nil. apply (recovers_header dev ls Hdev Hls [] (loggable_nil ls)); try done.
    + intros z _. symmetry. apply Hf, not_elem_of_nil.
  - split; [|by apply (after_commit ls Hls (b :: bs'))]. intros n. destruct (decide (n <= length (b :: bs'))%nat).
    + left. by apply (crash_before dev ls Hdev Hls (b :: bs') Hbs f d).
    + right. apply (crash_after dev ls Hdev Hls (b :: bs') Hbs f d); try done. lia.
Qed.

(** The state between transactions. *)
Record quiescent (k : kernel) (me : nat) (pid : Z) : Prop := {
  qu_bio : bio dev k me pid ∅ [];
  qu_log : log_is dev ls k [];
  qu_idle : idle_log k;
  qu_head : header_is ls [] (k_disk k);
}.

(** begin_op() between transactions opens one. *)
Lemma begin_op_quiescent k me pid :
  quiescent k me pid -> exists k1, begin_op k = Ret tt k1 /\ in_op k1 me pid [] /\
    (forall z, content dev k1 z = disk_block (k_disk k) z) /\ k_disk k1 = k_disk k /\
    k1 = set_k_log (k_log k1) (relax k).
Proof.
  intros [B L [Hl Hsz Ho Hc] He]. eexists. split.
  { apply begin_op_run; [eapply thread_cpu_ok, B|done|done|].
    rewrite Ho, (li_n _ _ _ _ L). unfold LOGSIZE, MAXOPBLOCKS. simpl. lia. }
  split; [|split; [intros z; exact (content_empty dev k me pid z B)|split; done]].
  split; try done; [by apply bio_set_log, bio_relax|destruct L; by split|apply loggable_nil|simpl; lia].
Qed.

(** end_op() of the only call in the transaction: its updates, [f], are on the disk, and a crash on the way recovers
    to the old blocks or to [f]. *)
Lemma end_op_atomic k me pid bs f :
  in_op k me pid bs -> (forall z, content dev k z = f z) -> header_is ls [] (k_disk k) ->
  (forall z, z ∉ bs -> f z = disk_block (k_disk k) z) ->
  wp env (end_op k) (fun _ k' => quiescent k' me pid /\ (forall z, ~ log_area ls z -> disk_block (k_disk k') z = f z) /\
    exists ws, dk_writes (k_disk k') = dk_writes (k_disk k) ++ ws /\ k_disk k' = apply_writes ws (k_disk k) /\
      forall n, recovers dev ls (env := env) (crashed n ws (k_disk k)) (disk_block (k_disk k)) \/
                recovers dev ls (env := env) (crashed n ws (k_disk k)) f).
Proof.
  intros [B L Hbs Hl Hsz Ho Hc] HC He Hf. pose proof He as (h0 & Hh0 & Eh0).
  assert (Hlsf : content dev k ls = disk_block (k_disk k) ls).
  { rewrite HC. apply Hf. intros Hin. apply (ls_not_logged ls bs Hbs). by apply elem_of_list_to_set. }
  assert (Hh : length (disk_block (k_disk k) ls) = Z.to_nat BSIZE).
  { rewrite Eh0, enc_head_length; [done|]. rewrite Hh0. by vm_compute; lia. }
  assert (Hf' : forall z, z ∉ bs -> content dev k z = disk_block (k_disk k) z) by (intros z Hz; rewrite HC; by apply Hf).
  eapply wp_mono; [apply (end_op_spec k me pid bs); try done; by rewrite Hlsf|].
  intros [] k' (B' & L' & I' & D'). rewrite Hlsf in D'.
  destruct (end_writes_safe bs (content dev k) (k_disk k) Hbs Hh He Hf') as (H1 & H2 & H3). rewrite D'.
  split; [split; try done; by rewrite D'|]. split; [intros z Hz; rewrite H3 by done; apply HC|].
  eexists. split; [apply apply_writes_log|]. split; [done|]. intros n.
  destruct (H1 n) as [Hr|Hr]; [by left|right]. by apply (recovers_ext dev ls _ (content dev k)).
Qed.

(** C1. A file-system transaction is atomic and durable.  A system call that updates at most
    MAXOPBLOCKS blocks between begin_op() and end_op() ends with the disk holding all its
    updates outside the log and the log empty, ready for the next transaction;
    and if the machine stops after any number of the disk writes that it makes, the recovery brings
    the disk to the blocks before the transaction or to those after all its updates. *)
Theorem transaction_atomic k me pid us :
  quiescent k me pid -> (forall u, u ∈ us -> 0 <= u.1 < 2 ^ 31 /\ ~ log_area ls u.1) ->
  Z.of_nat (length us) <= MAXOPBLOCKS ->
  let old := disk_block (k_disk k) in
  wp env (txn us k) (fun _ k' => quiescent k' me pid /\
    (forall z, ~ log_area ls z -> disk_block (k_disk k') z = updated us old z) /\
    exists ws, dk_writes (k_disk k') = dk_writes (k_disk k) ++ ws /\ k_disk k' = apply_writes ws (k_disk k) /\
      forall n, recovers dev ls (env := env) (crashed n ws (k_disk k)) old \/
                recovers dev ls (env := env) (crashed n ws (k_disk k)) (updated us old)).
Proof.
  intros Q Hus Hlen old. pose proof (qu_head _ _ _ Q) as He.
  destruct (begin_op_quiescent k me pid Q) as (k1 & E1 & Hop1 & C1 & D1 & _). eapply wp_bind_run; [exact E1|].
  apply wp_bind. eapply wp_mono; [apply (txn_updates me pid us k1 [] Hop1 Hus)|].
  { unfold LOGSIZE, MAXOPBLOCKS in *. simpl. lia. }
  intros [] k2 (Hop2 & C2 & D2). rewrite D1 in D2.
  assert (Hnew : forall z, content dev k2 z = updated us old z) by (intros z; rewrite C2; by apply updated_ext).
  assert (Hf : forall z, z ∉ logged us [] -> updated us old z = disk_block (k_disk k2) z).
  { intros z Hz. rewrite <- Hnew. apply (content_clean dev k2 me pid _ [] z (io_bio _ _ _ _ Hop2)); [by rewrite elem_of_list_to_set|apply not_elem_of_nil]. }
  eapply wp_mono; [apply (end_op_atomic k2 me pid (logged us []) (updated us old) Hop2 Hnew); [by rewrite D2|done]|].
  intros [] k3 H. rewrite D2 in H. exact H.
Qed.
End EndOp.

(** * log_write() as a property of its own *)

(** log_write() of a buffer that the process holds, inside a transaction and with
    room in the log: the block is in the log afterwards, once, however often it
    is written (absorption), pinned in the cache until the commit; the contents of
    the blocks and the disk are as before.  Outside a transaction it panics, and so it
    does when the log is full. *)
Theorem log_write_correct dev ls k me pid H i bno bs :
  0 <= ls < 2 ^ 30 -> bio dev k me pid (list_to_set bs) H -> (i, bno) ∈ H -> log_is dev ls k bs ->
  loggable ls bs -> 0 <= bno < 2 ^ 31 -> ~ log_area ls bno -> lock_free k LLog ->
  let room := Z.of_nat (length bs) < LOGSIZE - 1 /\ Z.of_nat (length bs) < l_size (k_log k) - 1 in
  (room -> 1 <= l_outstanding (k_log k) -> exists k', log_write i k = Ret tt k' /\
     log_is dev ls k' (log_add bno bs) /\ loggable ls (log_add bno bs) /\
     bio dev k' me pid (list_to_set (log_add bno bs)) H /\
     (forall z, content dev k' z = content dev k z) /\ k_disk k' = k_disk k) /\
  (room -> l_outstanding (k_log k) < 1 -> exists k', log_write i k = Panic "log_write outside of trans" k') /\
  (l_size (k_log k) - 1 <= Z.of_nat (length bs) -> exists k', log_write i k = Panic "too big a transaction" k').
Proof.
  intros Hls B Hin L Hbs Hb Ha Hl room.
  pose proof (thread_cpu_ok _ _ _ (bi_thread _ _ _ _ _ _ B)) as Hok. split; [|split].
  - intros Hr Ho. destruct (log_write_spec dev ls k me pid H i bno bs B Hin L) as (k' & E & B' & L' & C' & D' & _).
    + intros b Hb'. by apply (lg_range _ _ Hbs).
    + done.
    + by split.
    + exists k'. split_and!; try done. apply log_add_loggable; try done. apply Hr.
  - intros Hr Ho. eexists. unfold log_write. rewrite (bind_run _ _ _ _ _ (acquire_run k LLog Hok Hl)).
    rewrite (bind_run _ _ _ _ _ (get_log_run _)). change (k_log (enter LLog k)) with (k_log k). rewrite (li_n _ _ _ _ L).
    rewrite (proj2 (Z.leb_gt LOGSIZE _)), (proj2 (Z.leb_gt (l_size _ - 1) _)) by (destruct Hr; lia). cbn [orb].
    by rewrite (proj2 (Z.ltb_lt _ 1)) by lia.
  - intros Hr. eexists. unfold log_write. rewrite (bind_run _ _ _ _ _ (acquire_run k LLog Hok Hl)).
    rewrite (bind_run _ _ _ _ _ (get_log_run _)). change (k_log (enter LLog k)) with (k_log k). rewrite (li_n _ _ _ _ L).
    by rewrite (proj2 (Z.leb_le (l_size _ - 1) _)), orb_true_r by lia.
Qed.

(** * The log is one block smaller than begin_op() assumes *)

(** C33. begin_op() lets a third system call into an empty log (its reservation
    of 3 * MAXOPBLOCKS = LOGSIZE blocks fits), but in the log that mkfs makes, with nlog = LOGSIZE
    blocks of which one is the header, log_write() panics once LOGSIZE - 1 blocks are
    logged: the last block that the three calls have reserved cannot be written. *)
Theorem log_reservation_gap dev ls k :
  cpu_ok k -> lock_free k LLog -> log_is dev ls k [] -> l_committing (k_log k) = 0 ->
  l_outstanding (k_log k) = 2 -> l_size (k_log k) = LOGSIZE ->
  begin_op k = Ret tt (upd_log_of (set_l_outstanding 3) (relax k)) /\
  (forall k' bs i, cpu_ok k' -> lock_free k' LLog -> log_is dev ls k' bs -> l_size (k_log k') = LOGSIZE ->
     Z.of_nat (length bs) = 3 * MAXOPBLOCKS - 1 -> exists k2, log_write i k' = Panic "too big a transaction" k2).
Proof.
  intros Hok Hl L Hc Ho Hsz. split.
  - rewrite begin_op_run; try done.
    + unfold upd_log_of. simpl. by rewrite Ho.
    + rewrite Ho, (li_n _ _ _ _ L). unfold LOGSIZE, MAXOPBLOCKS. simpl. lia.
  - intros k' bs i Hok' Hl' L' Hsz' Hn. eexists. unfold log_write.
    rewrite (bind_run _ _ _ _ _ (acquire_run k' LLog Hok' Hl')), (bind_run _ _ _ _ _ (get_log_run _)).
    change (k_log (enter LLog k')) with (k_log k'). rewrite (li_n _ _ _ _ L'), Hsz', Hn.
    by unfold LOGSIZE, MAXOPBLOCKS.
Qed.

(** * Concrete instances *)

(** The log of a file system whose log starts at block 2, before a transaction. *)
Definition log_sample : logst := mkLog 2 LOGSIZE 0 0 1 (mkLogheader 0 (replicate (Z.to_nat LOGSIZE) 0)).

(** The superblock of the image that mkfs makes. *)
Definition sb_sample : superblock := mkSuperblock 0x10203040 2000 1954 200 30 2 32 45.

(** A state with that log and superblock, [o] calls in a transaction, and the disk [d]. *)
Definition with_log (o : Z) (d : disk) (k : kernel) : kernel :=
  set_k_pr_locking 1 (set_k_sb sb_sample (set_k_disk d (set_k_log (set_l_outstanding o log_sample)
    (set_k_locks (<[LInode 0 := mkSpinlock 0 "sleep lock" None]>
      (<[LPr := mkSpinlock 0 "pr" None]> (<[LLog := mkSpinlock 0 "log" None]> (k_locks k)))) k)))).

Lemma with_log_locks o d k : k_locks (with_log o d k) =
  <[LInode 0 := mkSpinlock 0 "sleep lock" None]> (<[LPr := mkSpinlock 0 "pr" None]>
    (<[LLog := mkSpinlock 0 "log" None]> (k_locks k))).
Proof. done. Qed.

Lemma with_log_lock o d k l : l <> LInode 0 -> l <> LPr -> l <> LLog -> k_locks (with_log o d k) !! l = k_locks k !! l.
Proof. intros H1 H2 H3. by rewrite with_log_locks, !lookup_insert_ne. Qed.

Lemma with_log_inited o d k0 k l : inited k0 k l -> inited (with_log o d k0) (with_log o d k) l.
Proof.
  intros [Hr Hv Hl Hls Hot Hon]. split; try done.
  - destruct Hl as [n E]. exists n. by rewrite with_log_lock.
  - intros i Hi. destruct (Hls i Hi) as [n E]. exists n. by rewrite with_log_lock.
  - intros lk H1 H2. destruct (decide (lk = LInode 0)) as [->|Hn0]; [by rewrite !with_log_locks, !lookup_insert_eq|].
    destruct (decide (lk = LPr)) as [->|Hn]; [by rewrite !with_log_locks, !(lookup_insert_ne _ (LInode 0)), !lookup_insert_eq by done|].
    destruct (decide (lk = LLog)) as [->|Hn']; [by rewrite !with_log_locks, !(lookup_insert_ne _ (LInode 0)), !(lookup_insert_ne _ LPr), !lookup_insert_eq by done|].
    rewrite !with_log_lock by done. by apply Hot.
  - rewrite Hon. done.
Qed.

(** Process 3 runs, the cache is empty, no lock is held. *)
Lemma with_log_bio o d :
  exists k, bio 1 (with_log o d k) 3 0 ∅ [] /\ lock_free (with_log o d k) LLog /\
    lock_free (with_log o d k) LPr /\ k_panicked (with_log o d k) = 0 /\ lock_free (with_log o d k) (LInode 0).
Proof.
  destruct (binit_run bio_sample bio_sample_unused) as (k & E & I'). exists k. clear E.
  pose proof (with_log_inited o d _ _ _ I') as I2. split.
  - assert (T : thread (with_log o d bio_sample) 3 0).
    { destruct bio_sample_thread as [[(i & c & H1 & E1) H2 H3 H4] U].
      apply (thread_intro _ 3 0 i c); [by apply (on_cpu_ext bio_sample)|exact E1|exact (U i c H1)|exact H2|exact H3|].
      intros j Hj. destruct (H4 j Hj) as [n En]. exists n. by rewrite with_log_lock. }
    apply (inited_bio 1 (with_log o d bio_sample) _ 3 0 _ I2 (reverse_Permutation _)).
    + exact bio_sample_unused.
    + lia.
    + exact (inited_thread _ _ _ _ _ I2 T).
    + split; [|rewrite (in_only _ _ _ I'); exact vdisk_sample_idle].
      exists "virtio_disk". rewrite (in_other _ _ _ I2) by done. rewrite with_log_lock by done. apply lookup_insert_eq.
  - split; [exists "log"; by rewrite with_log_locks, (lookup_insert_ne _ (LInode 0)), (lookup_insert_ne _ LPr), lookup_insert_eq|].
    split; [exists "pr"; by rewrite with_log_locks, (lookup_insert_ne _ (LInode 0)), lookup_insert_eq|].
    split; [by rewrite (in_only _ _ _ I')|]. exists "sleep lock". apply lookup_insert_eq.
Qed.

Lemma log_sample_is o d k : log_is 1 2 (with_log o d k) [].
Proof. split; try done. by exists (replicate (Z.to_nat LOGSIZE) 0). Qed.

Definition blank_disk : disk := mkDisk ∅ [].

Lemma blank_header : header_is 2 [] blank_disk.
Proof. exists (replicate (Z.to_nat BSIZE) 0). split; [by vm_compute|]. by vm_compute. Qed.

(** Block 50 updated in a transaction: in the log, not yet on the disk. *)
Lemma in_op_sample : exists k, in_op 1 2 k 3 0 [50] /\ k_disk k = blank_disk.
Proof.
  destruct (with_log_bio 1 blank_disk) as (k & B & Hl & _).
  assert (Hop : in_op 1 2 (with_log 1 blank_disk k) 3 0 []).
  { split; [exact B|apply log_sample_is|apply loggable_nil|exact Hl|reflexivity|reflexivity|reflexivity]. }
  pose proof (txn_updates (env := disk_round) 1 2 ltac:(lia) ltac:(lia) 3 0 [(50, replicate 1024 7)] _ [] Hop) as Hw.
  destruct (wp_exists _ _ _ (Hw ltac:(intros u ->%list_elem_of_singleton; unfold log_area, LOGSIZE, MAXOPBLOCKS; simpl; lia)
    ltac:(by vm_compute))) as ([] & k' & Hop' & _ & Hd).
  exists k'. split; [exact Hop'|exact Hd].
Qed.

Lemma commit_crash_safe_witness : exists k, log_is 1 2 k [50] /\
  wp disk_round (commit k) (fun _ k' => exists ws, dk_writes (k_disk k') = ws /\
    forall n, recovers 1 2 (env := disk_round) (crashed n ws blank_disk)
       (if decide (n <= 1)%nat then disk_block blank_disk else content 1 k)).
Proof.
  destruct in_op_sample as (k & [B L Hbs Hl Hsz Ho Hc] & Hd). exists k. split; [exact L|].
  eapply wp_mono; [apply (commit_crash_safe (env := disk_round) 1 2 ltac:(lia) ltac:(lia) k 3 0 [50])|].
  - exact Hbs.
  - discriminate.
  - rewrite Hd. reflexivity.
  - rewrite Hd. exact blank_header.
  - exact B.
  - exact L.
  - intros [] k' (ws & H1 & _ & H3 & _). rewrite Hd in H1, H3. exists ws. split; [exact H1|exact H3].
Defined.

(** A disk whose log holds a new version of block 50. *)
Definition log_disk : disk :=
  mkDisk {[2 := enc_head [50] (replicate 1024 0); 3 := replicate 1024 7]} [].

Lemma recovery_crash_safe_witness : exists k, k_disk k = log_disk /\
  wp disk_round (recover_from_log k) (fun _ k' =>
    header_is 2 [] (k_disk k') /\ disk_block (k_disk k') 50 = replicate 1024 7).
Proof.
  destruct (with_log_bio 0 log_disk) as (k & B & _). exists (with_log 0 log_disk k). split; [reflexivity|].
  eapply wp_mono; [apply (recovery_crash_safe (env := disk_round) 1 2 ltac:(lia) ltac:(lia) _ 3 0 [50])|].
  - split; [|apply NoDup_singleton|by vm_compute].
    intros b ->%list_elem_of_singleton. unfold log_area, LOGSIZE, MAXOPBLOCKS. lia.
  - exists (replicate 1024 0). split; reflexivity.
  - exact B.
  - split; reflexivity.
  - intros [] k' (ws & _ & _ & _ & H1 & H2). split; [exact H1|].
    rewrite H2 by (unfold log_area, LOGSIZE, MAXOPBLOCKS; lia). reflexivity.
Defined.

Lemma transaction_atomic_witness : exists k, k_disk k = blank_disk /\
  wp disk_round (txn 1 [(50, [1]); (51, [2]); (50, [3])] k) (fun _ k' =>
    disk_block (k_disk k') 50 = [3] /\ disk_block (k_disk k') 51 = [2]).
Proof.
  destruct (with_log_bio 0 blank_disk) as (k & B & Hl & _). exists (with_log 0 blank_disk k). split; [reflexivity|].
  eapply wp_mono; [apply (transaction_atomic (env := disk_round) 1 2 ltac:(lia) ltac:(lia) _ 3 0)|].
  - split; [exact B|apply log_sample_is|split; [exact Hl|reflexivity..]|exact blank_header].
  - intros u Hu. repeat (apply elem_of_cons in Hu as [->|Hu]; [unfold log_area, LOGSIZE, MAXOPBLOCKS; simpl; lia|]).
    by apply not_elem_of_nil in Hu.
  - by vm_compute.
  - intros [] k' (_ & H & _). split; rewrite H by (unfold log_area, LOGSIZE, MAXOPBLOCKS; lia); reflexivity.
Defined.

Lemma log_write_correct_witness : exists k i, exists k', log_write i k = Ret tt k' /\ log_is 1 2 k' [50].
Proof.
  destruct in_op_sample as (k0 & [B0 L0 Hbs Hl0 Hsz Ho _] & _).
  pose proof (bread_spec (env := disk_round) 1 k0 3 0 _ [] 50 B0 (not_elem_of_nil _)) as Hw.
  destruct (wp_exists _ _ _ (Hw ltac:(right; by vm_compute; lia) ltac:(lia))) as (i & k & B & _ & _ & F). exists k, i. clear Hw.
  pose proof (log_frame _ _ F) as El.
  destruct (log_write_correct 1 2 k 3 0 [(i, 50)] i 50 [50] ltac:(lia) B) as (H & _ & _).
  - apply list_elem_of_here.
  - exact (log_is_frame 1 2 _ _ _ F L0).
  - exact Hbs.
  - lia.
  - unfold log_area, LOGSIZE, MAXOPBLOCKS. lia.
  - unfold lock_free. by rewrite (bio_frame_locks _ _ F).
  - destruct H as (k' & H1 & H2 & _).
    + rewrite El, Hsz. by vm_compute.
    + by rewrite El, Ho.
    + exists k'. split; [exact H1|exact H2].
Defined.

Lemma log_reservation_gap_witness : exists k k', begin_op k = Ret tt k' /\ l_outstanding (k_log k') = 3.
Proof.
  destruct (with_log_bio 2 blank_disk) as (k & B & Hl & _). exists (with_log 2 blank_disk k).
  destruct (log_reservation_gap 1 2 (with_log 2 blank_disk k)) as (H1 & _).
  - exact (thread_cpu_ok _ _ _ (bi_thread _ _ _ _ _ _ B)).
  - exact Hl.
  - apply log_sample_is.
  - reflexivity.
  - reflexivity.
  - reflexivity.
  - eexists. split; [exact H1|reflexivity].
Defined.
