(* ===== verification/Fs.v ===== *)
(** kernel/fs.c: blocks, inodes, file contents, directories and path names. *)

From Stdlib Require Import ZArith Lia.
From stdpp Require Import base gmap list_numbers strings numbers list.
From S2P Require Import Prelude Mem Riscv Kernel Spinlock Kalloc Vm Printf Sched Sleeplock Virtio Bio Log.

Open Scope Z_scope.

(** * kernel/fs.h, kernel/stat.h *)

Definition ROOTINO : Z := 1.
Definition FSMAGIC : Z := 0x10203040.
Definition NDIRECT : Z := 12.
Definition NINDIRECT : Z := BSIZE / 4.
Definition MAXFILE : Z := NDIRECT + NINDIRECT.
Definition DIRSIZ : Z := 14.

(** sizeof(struct dinode), sizeof(struct dirent) *)
Definition dinode_size : Z := 64.
Definition dirent_size : Z := 16.

Definition IPB : Z := BSIZE / dinode_size.
Definition IBLOCK (i : Z) (sb : superblock) : Z := u32 (i / IPB + sb_inodestart sb).
Definition BPB : Z := BSIZE * 8.
Definition BBLOCK (b : Z) (sb : superblock) : Z := u32 (b / BPB + sb_bmapstart sb).

Definition T_DIR : Z := 1.
Definition T_FILE : Z := 2.
Definition T_DEVICE : Z := 3.

(** struct superblock at the start of block 1 *)
Definition superblock_of (d : list Z) : option superblock :=
  magic ← getn 4 0 d; size ← getn 4 4 d; nblocks ← getn 4 8 d; ninodes ← getn 4 12 d;
  nlog ← getn 4 16 d; logstart ← getn 4 20 d; inodestart ← getn 4 24 d; bmapstart ← getn 4 28 d;
  Some (mkSuperblock magic size nblocks ninodes nlog logstart inodestart bmapstart).

(** struct dinode: type, major, minor, nlink, size, addrs *)
Record dinode : Type := mkDinode {
  di_type : Z;
  di_major : Z;
  di_minor : Z;
  di_nlink : Z;
  di_size : Z;
  di_addrs : list Z;
}.

Fixpoint words_of (n off : nat) (d : list Z) : option (list Z) :=
  match n with
  | O => Some []
  | S n' => w ← getn 4 off d; ws ← words_of n' (off + 4) d; Some (w :: ws)
  end.

Definition dinode_of (off : nat) (d : list Z) : option dinode :=
  ty ← getn 2 off d; major ← getn 2 (off + 2) d; minor ← getn 2 (off + 4) d;
  nlink ← getn 2 (off + 6) d; size ← getn 4 (off + 8) d; addrs ← words_of 13 (off + 12) d;
  Some (mkDinode (i16 ty) (i16 major) (i16 minor) (i16 nlink) size addrs).

Definition dinode_bytes (x : dinode) : list Z :=
  le_bytes 2 (di_type x) ++ le_bytes 2 (di_major x) ++ le_bytes 2 (di_minor x) ++
  le_bytes 2 (di_nlink x) ++ le_bytes 4 (di_size x) ++ mjoin (le_bytes 4 <$> di_addrs x).

Section Fs.
Context `{LinkerSymbols} `{BlockDevice}.

Definition readsb (dev : Z) : K unit :=
  let! bp := bread dev 1 in
  let! d := get_data bp in
  let! sb := need "superblock" (superblock_of d) in
  do! modify (set_k_sb sb);
  brelse bp.

Definition fsinit (dev : Z) : K unit :=
  do! readsb dev;
  let! sb := gets k_sb in
  if negb (sb_magic sb =? FSMAGIC) then panic "invalid file system" else
  initlog dev sb.

(** * Blocks *)

Definition bzero (dev bno : Z) : K unit :=
  let! bp := bread dev (u32 bno) in
  do! set_data bp (replicate (Z.to_nat BSIZE) 0);
  do! log_write bp;
  brelse bp.

(** for(bi = 0; bi < BPB && b + bi < sb.size; bi++): the first free bit *)
Fixpoint find_free (fuel : nat) (d : list Z) (b bi size : Z) : option Z :=
  match fuel with
  | O => None
  | S f =>
      if (bi <? BPB) && (b + bi <? size) then
        let m := Z.shiftl 1 (bi mod 8) in
        if Z.land (default 0 (d !! Z.to_nat (bi / 8))) m =? 0 then Some bi
        else find_free f d b (bi + 1) size
      else None
  end.

(** bp->data[bi/8] = f(bp->data[bi/8]) *)
Definition upd_byte (bp : nat) (bi : Z) (f : Z -> Z) : K unit :=
  let! d := get_data bp in
  set_data bp (alter f (Z.to_nat (bi / 8)) d).

(** for(b = 0; b < sb.size; b += BPB) *)
Fixpoint balloc_loop (fuel : nat) (dev b : Z) : K Z :=
  match fuel with
  | O => nofuel
  | S f =>
      let! sb := gets k_sb in
      if b <? sb_size sb then
        let! bp := bread dev (BBLOCK b sb) in
        let! d := get_data bp in
        match find_free (Z.to_nat BPB) d b 0 (sb_size sb) with
        | Some bi =>
            do! upd_byte bp bi (fun x => Z.lor x (Z.shiftl 1 (bi mod 8)));
            do! log_write bp;
            do! brelse bp;
            do! bzero dev (b + bi);
            ret (b + bi)
        | None =>
            do! brelse bp;
            balloc_loop f dev (b + BPB)
        end
      else
        do! printf (Some (str "balloc: out of blocks" ++ [NL])) [];
        ret 0
  end.

Definition balloc (dev : Z) : K Z :=
  let! sb := gets k_sb in
  balloc_loop (S (Z.to_nat (sb_size sb / BPB + 1))) dev 0.

Definition bfree (dev b : Z) : K unit :=
  let! sb := gets k_sb in
  let! bp := bread dev (BBLOCK b sb) in
  let bi := b mod BPB in
  let m := Z.shiftl 1 (bi mod 8) in
  let! d := get_data bp in
  if Z.land (default 0 (d !! Z.to_nat (bi / 8))) m =? 0 then panic "freeing free block" else
  do! upd_byte bp bi (fun x => Z.land x (Z.lnot m));
  do! log_write bp;
  brelse bp.

(** * Inodes *)

Definition iinit : K unit :=
  do! initlock LItable "itable";
  each (seq 0 (Z.to_nat NINODE)) (fun i => initsleeplock (SInode i) "inode").

(** for(ip = &itable.inode[0]; ...): the entry of (dev, inum), or else the
    first entry with ref == 0. *)
Fixpoint iget_scan (l : list inode) (i : nat) (empty : option nat) (dev inum : Z)
    : nat + option nat :=
  match l with
  | [] => inr empty
  | ip :: l' =>
      if (0 <? i_ref ip) && (i_dev ip =? dev) && (i_inum ip =? inum) then inl i else
      let empty := match empty with
                   | None => if i_ref ip =? 0 then Some i else None
                   | Some e => Some e
                   end in
      iget_scan l' (S i) empty dev inum
  end.

Definition iget (dev inum : Z) : K nat :=
  do! acquire LItable;
  let! t := gets k_itable in
  match iget_scan t 0 None dev inum with
  | inl ip =>
      do! upd_inode ip (fun x => set_i_ref (i_ref x + 1) x);
      do! release LItable;
      ret ip
  | inr None => panic "iget: no inodes"
  | inr (Some ip) =>
      do! upd_inode ip (set_i_dev dev);
      do! upd_inode ip (set_i_inum inum);
      do! upd_inode ip (set_i_ref 1);
      do! upd_inode ip (set_i_valid 0);
      do! release LItable;
      ret ip
  end.

(** The offset of inode [inum] in its block. *)
Definition dinode_off (inum : Z) : nat := Z.to_nat (inum mod IPB * dinode_size).

(** for(inum = 1; inum < sb.ninodes; inum++) *)
Fixpoint ialloc_loop (fuel : nat) (dev type inum : Z) : K (option nat) :=
  match fuel with
  | O => nofuel
  | S f =>
      let! sb := gets k_sb in
      if inum <? sb_ninodes sb then
        let! bp := bread dev (IBLOCK inum sb) in
        let! d := get_data bp in
        let! dip := need "dinode" (dinode_of (dinode_off inum) d) in
        if di_type dip =? 0 then
          let! d := need "dinode" (put_bytes (dinode_off inum) (replicate (Z.to_nat dinode_size) 0) d) in
          let! d := need "dinode" (putn 2 (dinode_off inum) type d) in
          do! set_data bp d;
          do! log_write bp;
          do! brelse bp;
          let! ip := iget dev inum in
          ret (Some ip)
        else
          do! brelse bp;
          ialloc_loop f dev type (inum + 1)
      else
        do! printf (Some (str "ialloc: no inodes" ++ [NL])) [];
        ret None
  end.

Definition ialloc (dev type : Z) : K (option nat) :=
  let! sb := gets k_sb in
  ialloc_loop (S (Z.to_nat (sb_ninodes sb))) dev type 1.

Definition iupdate (ip : nat) : K unit :=
  let! x := get_inode ip in
  let! sb := gets k_sb in
  let! bp := bread (i_dev x) (IBLOCK (i_inum x) sb) in
  let! d := get_data bp in
  let! x := get_inode ip in
  let! d := need "dinode" (put_bytes (dinode_off (i_inum x))
              (dinode_bytes (mkDinode (i_type x) (i_major x) (i_minor x) (i_nlink x)
                 (i_size x) (i_addrs x))) d) in
  do! set_data bp d;
  do! log_write bp;
  brelse bp.

Definition idup (ip : nat) : K nat :=
  do! acquire LItable;
  do! upd_inode ip (fun x => set_i_ref (i_ref x + 1) x);
  do! release LItable;
  ret ip.

Definition ilock (ip : option nat) : K unit :=
  match ip with
  | None => panic "ilock"
  | Some ip =>
      let! x := get_inode ip in
      if i_ref x <? 1 then panic "ilock" else
      do! acquiresleep (SInode ip);
      let! x := get_inode ip in
      if i_valid x =? 0 then
        let! sb := gets k_sb in
        let! bp := bread (i_dev x) (IBLOCK (i_inum x) sb) in
        let! d := get_data bp in
        let! dip := need "dinode" (dinode_of (dinode_off (i_inum x)) d) in
        do! upd_inode ip (set_i_type (di_type dip));
        do! upd_inode ip (set_i_major (di_major dip));
        do! upd_inode ip (set_i_minor (di_minor dip));
        do! upd_inode ip (set_i_nlink (di_nlink dip));
        do! upd_inode ip (set_i_size (di_size dip));
        do! upd_inode ip (set_i_addrs (di_addrs dip));
        do! brelse bp;
        do! upd_inode ip (set_i_valid 1);
        let! x := get_inode ip in
        if i_type x =? 0 then panic "ilock: no type" else ret tt
      else ret tt
  end.

Definition iunlock (ip : option nat) : K unit :=
  match ip with
  | None => panic "iunlock"
  | Some ip =>
      let! h := holdingsleep (SInode ip) in
      if negb h then panic "iunlock" else
      let! x := get_inode ip in
      if i_ref x <? 1 then panic "iunlock" else
      releasesleep (SInode ip)
  end.

(** ip->addrs[i] and its assignment *)
Definition addr_get (ip : nat) (i : Z) : K Z :=
  let! x := get_inode ip in need "ip->addrs[]" (i_addrs x !! Z.to_nat i).
Definition addr_set (ip : nat) (i v : Z) : K unit :=
  upd_inode ip (fun x => set_i_addrs (<[Z.to_nat i := v]> (i_addrs x)) x).

Definition itrunc (ip : nat) : K unit :=
  let! x := get_inode ip in
  let dev := i_dev x in
  do! each (seqZ 0 NDIRECT) (fun i =>
    let! a := addr_get ip i in
    when (negb (a =? 0)) (do! bfree dev a; addr_set ip i 0));
  let! a := addr_get ip NDIRECT in
  do! when (negb (a =? 0))
        (let! bp := bread dev a in
         do! each (seqZ 0 NINDIRECT) (fun j =>
           let! d := get_data bp in
           let! aj := need "a[]" (getn 4 (Z.to_nat (4 * j)) d) in
           when (negb (aj =? 0)) (bfree dev aj));
         do! brelse bp;
         let! a := addr_get ip NDIRECT in
         do! bfree dev a;
         addr_set ip NDIRECT 0);
  do! upd_inode ip (set_i_size 0);
  iupdate ip.

Definition iput (ip : nat) : K unit :=
  do! acquire LItable;
  let! x := get_inode ip in
  do! when ((i_ref x =? 1) && negb (i_valid x =? 0) && (i_nlink x =? 0))
        (do! acquiresleep (SInode ip);
         do! release LItable;
         do! itrunc ip;
         do! upd_inode ip (set_i_type 0);
         do! iupdate ip;
         do! upd_inode ip (set_i_valid 0);
         do! releasesleep (SInode ip);
         acquire LItable);
  do! upd_inode ip (fun x => set_i_ref (i_ref x - 1) x);
  release LItable.

Definition iunlockput (ip : nat) : K unit :=
  do! iunlock (Some ip);
  iput ip.

(** * Contents *)

Definition bmap (ip : nat) (bn : Z) : K Z :=
  let! x := get_inode ip in
  let dev := i_dev x in
  if bn <? NDIRECT then
    let! addr := addr_get ip bn in
    if addr =? 0 then
      let! addr := balloc dev in
      if addr =? 0 then ret 0 else
      do! addr_set ip bn addr;
      ret addr
    else ret addr
  else
  let bn := bn - NDIRECT in
  if bn <? NINDIRECT then
    let! addr := addr_get ip NDIRECT in
    let! addr :=
      (if addr =? 0 then
         let! addr := balloc dev in
         if addr =? 0 then ret 0 else
         do! addr_set ip NDIRECT addr;
         ret addr
       else ret addr) in
    if addr =? 0 then ret 0 else
    let! bp := bread dev addr in
    let! d := get_data bp in
    let! addr := need "a[]" (getn 4 (Z.to_nat (4 * bn)) d) in
    let! addr :=
      (if addr =? 0 then
         let! addr := balloc dev in
         if negb (addr =? 0) then
           let! d := get_data bp in
           let! d := need "a[]" (putn 4 (Z.to_nat (4 * bn)) addr d) in
           do! set_data bp d;
           do! log_write bp;
           ret addr
         else ret addr
       else ret addr) in
    do! brelse bp;
    ret addr
  else panic "bmap: out of range".

(** struct stat *)
Record stat : Type := mkStat {
  st_dev : Z;
  st_ino : Z;
  st_type : Z;
  st_nlink : Z;
  st_size : Z;
}.

Definition stati (ip : nat) : K stat :=
  let! x := get_inode ip in
  ret (mkStat (i_dev x) (i_inum x) (i_type x) (i_nlink x) (i_size x)).

(** for(tot=0; tot<n; tot+=m, off+=m, dst+=m); [got] are the bytes copied out
    so far. *)
Fixpoint readi_loop (fuel : nat) (ip : nat) (dst : dest) (off n tot : Z) (got : list Z)
    : K (Z * list Z) :=
  match fuel with
  | O => nofuel
  | S f =>
      if tot <? n then
        let! addr := bmap ip (off / BSIZE) in
        if addr =? 0 then ret (tot, got) else
        let! x := get_inode ip in
        let! bp := bread (i_dev x) addr in
        let m := Z.min (n - tot) (BSIZE - off mod BSIZE) in
        let! d := get_data bp in
        let! r := either_copyout dst (drop (Z.to_nat (off mod BSIZE)) d) m in
        if r =? -1 then
          do! brelse bp;
          ret (-1, got)
        else
          do! brelse bp;
          readi_loop f ip (dest_add dst m) (u32 (off + m)) n (tot + m)
            (got ++ take (Z.to_nat m) (drop (Z.to_nat (off mod BSIZE)) d))
      else ret (tot, got)
  end.

Definition readi (ip : nat) (dst : dest) (off n : Z) : K (Z * list Z) :=
  let! x := get_inode ip in
  if (i_size x <? off) || (u32 (off + n) <? off) then ret (0, []) else
  let n := if i_size x <? u32 (off + n) then u32 (i_size x - off) else n in
  readi_loop (S (S (Z.to_nat (n / BSIZE + 1)))) ip dst off n 0 [].

(** for(tot=0; tot<n; tot+=m, off+=m, src+=m); the result is (tot, off). *)
Fixpoint writei_loop (fuel : nat) (ip : nat) (src : source) (off n tot : Z) : K (Z * Z) :=
  match fuel with
  | O => nofuel
  | S f =>
      if tot <? n then
        let! addr := bmap ip (off / BSIZE) in
        if addr =? 0 then ret (tot, off) else
        let! x := get_inode ip in
        let! bp := bread (i_dev x) addr in
        let m := Z.min (n - tot) (BSIZE - off mod BSIZE) in
        let! '(r, bytes) := either_copyin src m in
        if r =? -1 then
          do! brelse bp;
          ret (tot, off)
        else
          let! d := get_data bp in
          let! d := need "bp->data" (put_bytes (Z.to_nat (off mod BSIZE)) bytes d) in
          do! set_data bp d;
          do! log_write bp;
          do! brelse bp;
          writei_loop f ip (source_add src m) (u32 (off + m)) n (tot + m)
      else ret (tot, off)
  end.

Definition writei (ip : nat) (src : source) (off n : Z) : K Z :=
  let! x := get_inode ip in
  if (i_size x <? off) || (u32 (off + n) <? off) then ret (-1) else
  if MAXFILE * BSIZE <? u32 (off + n) then ret (-1) else
  let! '(tot, off) := writei_loop (S (S (Z.to_nat (n / BSIZE + 1)))) ip src off n 0 in
  let! x := get_inode ip in
  do! when (i_size x <? off) (upd_inode ip (set_i_size off));
  do! iupdate ip;
  ret tot.

(** * Directories *)

Definition namecmp (s t : cstr) : Z := strncmp s t DIRSIZ.

(** One struct dirent: inum at 0, name at 2. *)
Definition dirent_inum (de : list Z) : Z := default 0 (getn 2 0 de).
Definition dirent_name (de : list Z) : list Z := take (Z.to_nat DIRSIZ) (drop 2 de).

(** for(off = 0; off < dp->size; off += sizeof(de)) *)
Fixpoint dirlookup_loop (fuel : nat) (dp : nat) (name : cstr) (off : Z) : K (option (nat * Z)) :=
  match fuel with
  | O => nofuel
  | S f =>
      let! x := get_inode dp in
      if off <? i_size x then
        let! '(r, de) := readi dp ToVar off dirent_size in
        if negb (r =? dirent_size) then panic "dirlookup read" else
        if dirent_inum de =? 0 then dirlookup_loop f dp name (off + dirent_size) else
        if namecmp name (str_of (dirent_name de)) =? 0 then
          let! ip := iget (i_dev x) (dirent_inum de) in
          ret (Some (ip, off))
        else dirlookup_loop f dp name (off + dirent_size)
      else ret None
  end.

Definition dirlookup (dp : nat) (name : cstr) : K (option (nat * Z)) :=
  let! x := get_inode dp in
  if negb (i_type x =? T_DIR) then panic "dirlookup not DIR" else
  dirlookup_loop (S (Z.to_nat (i_size x / dirent_size + 1))) dp name 0.

(** The loop that looks for an empty dirent; the result is its offset. *)
Fixpoint dirlink_loop (fuel : nat) (dp : nat) (off : Z) : K Z :=
  match fuel with
  | O => nofuel
  | S f =>
      let! x := get_inode dp in
      if off <? i_size x then
        let! '(r, de) := readi dp ToVar off dirent_size in
        if negb (r =? dirent_size) then panic "dirlink read" else
        if dirent_inum de =? 0 then ret off else dirlink_loop f dp (off + dirent_size)
      else ret off
  end.

Definition dirlink (dp : nat) (name : cstr) (inum : Z) : K Z :=
  let! r := dirlookup dp name in
  match r with
  | Some (ip, _) => do! iput ip; ret (-1)
  | None =>
      let! x := get_inode dp in
      let! off := dirlink_loop (S (Z.to_nat (i_size x / dirent_size + 1))) dp 0 in
      let de := le_bytes 2 inum ++ strncpy name DIRSIZ in
      let! w := writei dp (FromVar de) off dirent_size in
      if negb (w =? dirent_size) then ret (-1) else ret 0
  end.

(** * Paths *)

(** while( *path == '/') path++; *)
Fixpoint skip_slashes (path : list Z) : list Z :=
  match path with
  | c :: path' => if c =? 47 then skip_slashes path' else path
  | [] => []
  end.

(** while( *path != '/' && *path != 0) path++;  the element and the rest. *)
Fixpoint take_elem (path : list Z) : list Z * list Z :=
  match path with
  | c :: path' =>
      if negb (c =? 47) && negb (c =? 0) then
        let '(e, rest) := take_elem path' in (c :: e, rest)
      else ([], path)
  | [] => ([], [])
  end.

(** A path is the list of its bytes up to the NUL; [name] is the buffer
    char name[DIRSIZ].  The result is the rest of the path and the buffer. *)
Definition skipelem (path name : list Z) : option (list Z * list Z) :=
  let path := skip_slashes path in
  match path with
  | [] => None
  | c :: _ =>
      if c =? 0 then None else
      let '(s, path) := take_elem path in
      let name :=
        if DIRSIZ <=? Z.of_nat (length s) then take (Z.to_nat DIRSIZ) s
        else s ++ [0] ++ drop (S (length s)) name in
      Some (skip_slashes path, name)
  end.

(** *path == '\0' *)
Definition at_end (path : list Z) : bool :=
  match path with [] => true | c :: _ => c =? 0 end.

(** while((path = skipelem(path, name)) != 0) *)
Fixpoint namex_loop (fuel : nat) (ip : nat) (path name : list Z) (nameiparent : bool)
    : K (option nat * list Z) :=
  match fuel with
  | O => nofuel
  | S f =>
      match skipelem path name with
      | None =>
          if nameiparent then do! iput ip; ret (None, name) else ret (Some ip, name)
      | Some (path, name) =>
          do! ilock (Some ip);
          let! x := get_inode ip in
          if negb (i_type x =? T_DIR) then do! iunlockput ip; ret (None, name) else
          if nameiparent && at_end path then do! iunlock (Some ip); ret (Some ip, name) else
          let! r := dirlookup ip (str_of name) in
          match r with
          | None => do! iunlockput ip; ret (None, name)
          | Some (next, _) => do! iunlockput ip; namex_loop f next path name nameiparent
          end
      end
  end.

Definition namex (path : list Z) (nameiparent : bool) (name : list Z) : K (option nat * list Z) :=
  let! ip :=
    (match path with
     | 47 :: _ => iget ROOTDEV ROOTINO
     | _ =>
         let! p := curproc in
         let! pr := get_proc p in
         let! cwd := need "p->cwd" (p_cwd pr) in
         idup cwd
     end) in
  namex_loop (S (length path)) ip path name nameiparent.

Definition namei (path : list Z) : K (option nat) :=
  let! '(ip, _) := namex path false (replicate (Z.to_nat DIRSIZ) 0) in ret ip.

(** The result has the final path element in [name]. *)
Definition nameiparent (path name : list Z) : K (option nat * list Z) := namex path true name.

End Fs.
