(* ===== verification/FsTx.v ===== *)
(** The file system's view of the layers below it: inside a transaction, the
    blocks of the disk are a function from block numbers to contents, which
    bread(), log_write() and brelse() read and update. *)

From Stdlib Require Import ZArith Lia.
From stdpp Require Import base gmap list_numbers strings numbers functions list.
From S2P Require Import Prelude Mem Bytes Riscv Kernel Spinlock Kalloc Vm Printf PrintfSpec Sched SchedSpec Thread.
From S2P Require Import Sleeplock SleeplockSpec Virtio Bio BioSpec BioInv VirtioSpec BioProps Log LogSpec LogCrash LogTxn Fs.

Open Scope Z_scope.

Implicit Types (k : kernel).

(** * The transaction as seen by its process *)

Section Tx.
Context (dev ls o : Z) {BD : BlockDevice} {env : kernel -> kernel -> Prop} {DL : DiskLaws env}.

(** The current transaction has logged the blocks [bs] and [o] system calls take part in it; process
    [me] holds the buffers [H], and the blocks have the contents [f].  A block that is not
    logged is on the disk as it is in the cache. *)
Record tx (k : kernel) (me : nat) (pid : Z) (bs : list Z) (H : list (nat * Z)) (f : Z -> list Z) : Prop := {
  tx_bio : bio dev k me pid (list_to_set bs) H;
  tx_log : log_is dev ls k bs;
  tx_ok : loggable ls bs;
  tx_lock : lock_free k LLog;
  tx_size : l_size (k_log k) = LOGSIZE;
  tx_out : l_outstanding (k_log k) = o;
  tx_com : l_committing (k_log k) = 0;
  tx_content : forall z, content dev k z = f z;
  tx_clean : forall z, z ∉ bs -> f z = disk_block (k_disk k) z;
}.

(** A step of the process inside the transaction keeps the disk and everything but the cache,
    the log, the output on the console and what scheduling changes. *)
Definition tx_frame (k k' : kernel) : Prop :=
  core k' = set_k_uart (k_uart k') (set_k_log (k_log k') (set_k_bcache (k_bcache k') (core k))).

Lemma tx_frame_refl k : tx_frame k k.
Proof. by destruct k. Qed.

Lemma tx_frame_trans k1 k2 k3 : tx_frame k1 k2 -> tx_frame k2 k3 -> tx_frame k1 k3.
Proof. unfold tx_frame. intros E1 E2. rewrite E2, E1. by destruct k1. Qed.

Lemma fs_tx_frame k k' : fs_frame k k' -> k_disk k' = k_disk k -> tx_frame k k'.
Proof.
  intros F D. unfold tx_frame. pose proof (f_equal k_uart F) as Eu. simpl in Eu.
  rewrite Eu, F, D. by destruct k.
Qed.

Lemma bio_tx_frame k k' : bio_frame k k' -> k_disk k' = k_disk k -> tx_frame k k'.
Proof. intros F D. apply fs_tx_frame; [by apply bio_fs_frame|done]. Qed.

Lemma tx_frame_disk k k' : tx_frame k k' -> k_disk k' = k_disk k.
Proof. intros F. exact (f_equal k_disk F). Qed.
Lemma tx_frame_sb k k' : tx_frame k k' -> k_sb k' = k_sb k.
Proof. intros F. exact (f_equal k_sb F). Qed.
Lemma tx_frame_itable k k' : tx_frame k k' -> k_itable k' = k_itable k.
Proof. intros F. exact (f_equal k_itable F). Qed.
Lemma tx_frame_locks k k' : tx_frame k k' -> k_locks k' = k_locks k.
Proof. intros F. exact (f_equal k_locks F). Qed.
Lemma tx_frame_panicked k k' : tx_frame k k' -> k_panicked k' = k_panicked k.
Proof. intros F. exact (f_equal k_panicked F). Qed.
Lemma tx_frame_pr k k' : tx_frame k k' -> k_pr_locking k' = k_pr_locking k.
Proof. intros F. exact (f_equal k_pr_locking F). Qed.

Lemma tx_in_op k me pid bs f : o = 1 -> tx k me pid bs [] f -> in_op dev ls k me pid bs.
Proof. intros ? []. subst. by split. Qed.

Lemma size_list_to_set (bs : list Z) : (size (list_to_set (C := gset Z) bs) <= length bs)%nat.
Proof.
  induction bs as [|b bs IH]; [done|]. simpl. rewrite size_union_alt, size_singleton.
  pose proof (subseteq_size (list_to_set (C := gset Z) bs ∖ {[b]}) (list_to_set bs) ltac:(set_solver)). lia.
Qed.

Lemma tx_bread k me pid bs H f bno :
  tx k me pid bs H f -> bno ∉ H.*2 -> (length bs + length H < Z.to_nat NBUF)%nat -> 0 <= bno < 2 ^ 31 ->
  wp env (bread dev bno k) (fun i k' => tx k' me pid bs ((i, bno) :: H) f /\ tx_frame k k').
Proof.
  intros T Hn Hm Hr. pose proof (size_list_to_set bs). eapply wp_mono;
    [apply (bread_spec dev k me pid _ H bno (tx_bio _ _ _ _ _ _ T) Hn); [right; lia|done]|].
  intros i k' (B' & C' & D' & F'). destruct T as [B L Hbs Hl Hsz Ho Hc HC Hcl].
  split; [|by apply bio_tx_frame]. pose proof (log_frame _ _ F') as El.
  split; rewrite ?El, ?D'; try done.
  - by eapply log_is_frame.
  - unfold lock_free. by rewrite (bio_frame_locks _ _ F').
  - intros z. by rewrite C'.
Qed.

Lemma tx_get_data k me pid bs H f i bno :
  tx k me pid bs H f -> (i, bno) ∈ H -> get_data i k = Ret (f bno) k.
Proof.
  intros T Hin. destruct (held_buf dev k me pid _ H i bno (tx_bio _ _ _ _ _ _ T) Hin) as (b & Eb & Ev & Hd & Hb & Hv & _ & _ & Hc & _).
  unfold get_data. rewrite (bind_run _ _ _ _ _ (get_buf_run _ _ _ Eb)). unfold ret. f_equal.
  rewrite <- (tx_content _ _ _ _ _ _ T). done.
Qed.

(** What f is after block [bno] has got the contents [d]. *)
Definition upd (f : Z -> list Z) (bno : Z) (d : list Z) : Z -> list Z :=
  fun z => if decide (z = bno) then d else f z.

(** bp->data = d; log_write(bp) *)
Lemma tx_log_data k me pid bs H f i bno d {A} (c : K A) Q :
  1 <= o -> tx k me pid bs H f -> (i, bno) ∈ H -> 0 <= bno < 2 ^ 31 -> ~ log_area ls bno ->
  Z.of_nat (length bs) < LOGSIZE - 1 ->
  (forall k', tx k' me pid (log_add bno bs) H (upd f bno d) -> tx_frame k k' -> wp env (c k') Q) ->
  wp env ((do! set_data i d; do! log_write i; c) k) Q.
Proof.
  intros Ho1 T Hin Hb Ha Hn HQ. destruct T as [B L Hbs Hl Hsz Ho Hc HC Hcl].
  destruct (set_data_spec dev k me pid _ _ i bno B Hin d) as (k2 & E2 & B2 & C2 & D2 & F2).
  eapply wp_bind_run; [exact E2|]. pose proof (log_is_frame dev ls _ _ _ F2 L) as L2. pose proof (log_frame _ _ F2) as El.
  assert (Hnow : loggable_now k2 bs).
  { split; rewrite ?El, ?Hsz, ?Ho; [|done|lia]. unfold lock_free. by rewrite (bio_frame_locks _ _ F2). }
  destruct (log_write_spec dev ls k2 me pid _ i bno bs B2 Hin L2 ltac:(intros b Hb'; by apply (lg_range _ _ Hbs)) Hb Hnow)
    as (k3 & E3 & B3 & L3 & C3 & D3 & F3 & El3).
  eapply wp_bind_run; [exact E3|]. apply HQ.
  - split; rewrite ?El3, ?El, ?D3, ?D2; try done.
    + by apply log_add_loggable.
    + unfold lock_free. by rewrite (fs_frame_locks _ _ F3), (bio_frame_locks _ _ F2).
    + intros z. rewrite C3, C2. unfold upd. case_decide; [done|apply HC].
    + intros z Hz. unfold upd. rewrite decide_False.
      * apply Hcl. intros Hin'. apply Hz. unfold log_add. case_decide; set_solver.
      * intros ->. apply Hz. unfold log_add. case_decide; set_solver.
  - apply fs_tx_frame; [eapply fs_frame_trans; [by apply bio_fs_frame|done]|by rewrite D3].
Qed.

Lemma tx_brelse k me pid bs H f i bno :
  tx k me pid bs ((i, bno) :: H) f -> exists k', brelse i k = Ret tt k' /\ tx k' me pid bs H f /\ tx_frame k k'.
Proof.
  intros [B L Hbs Hl Hsz Ho Hc HC Hcl].
  destruct (brelse_spec dev k me pid _ H i bno B) as (k' & E & B' & C' & D' & F').
  { destruct (decide (bno ∈ bs)); [left; by apply elem_of_list_to_set|right]. rewrite HC. by apply Hcl. }
  exists k'. split; [done|]. pose proof (log_frame _ _ F') as El. split; [|by apply bio_tx_frame].
  split; rewrite ?El, ?D'; try done.
  - by eapply log_is_frame.
  - unfold lock_free. by rewrite (bio_frame_locks _ _ F').
  - intros z. by rewrite C'.
Qed.

(** What printf() does to the state is invisible to the transaction. *)
Lemma tx_emit k me pid bs H f s : tx k me pid bs H f -> tx (emit s (relax k)) me pid bs H f.
Proof.
  intros [B L Hbs Hl Hsz Ho Hc HC Hcl]. split; try done.
  - apply bio_relax in B. destruct B. split; try done. by apply (thread_ext (relax k)).
  - destruct L. by split.
Qed.

Lemma emit_tx_frame s k : tx_frame k (emit s (relax k)).
Proof. by destruct k. Qed.

(** A message without conversions. *)
Definition plain (s : list Z) : bool := forallb (fun c => (0 <? c) && (c <? 256) && negb (c =? 37)) s.

Lemma plain_prints s ap : plain s = true -> prints (printf_loop s ap) s.
Proof.
  induction s as [|c s IH]; intros Hs; [exact prints_ret|]. simpl in Hs. bool_prop. cbn [printf_loop].
  rewrite (proj2 (Z.eqb_neq c 0)), (proj2 (Z.eqb_neq c 37)) by lia. cbn [negb].
  apply (prints_seq _ _ [c] s); [apply byte_prints; unfold is_byte; lia|by apply IH].
Qed.

Record can_print (k : kernel) : Prop := {
  cp_panicked : k_panicked k = 0;
  cp_locking : k_pr_locking k <> 0;
  cp_lock : lock_free k LPr;
}.

Lemma can_print_frame k k' : tx_frame k k' -> can_print k -> can_print k'.
Proof.
  intros F [H1 H2 H3]. split.
  - by rewrite (tx_frame_panicked _ _ F).
  - by rewrite (tx_frame_pr _ _ F).
  - unfold lock_free. by rewrite (tx_frame_locks _ _ F).
Qed.

Lemma tx_message k me pid bs H f s :
  tx k me pid bs H f -> can_print k -> plain s = true ->
  exists k', printf (Some s) [] k = Ret tt k' /\ tx k' me pid bs H f /\ tx_frame k k'.
Proof.
  intros T [H1 H2 H3] Hs. exists (emit s (relax k)). split; [|split; [by apply tx_emit|apply emit_tx_frame]].
  apply printf_run; try done; [|eapply thread_cpu_ok, (bi_thread _ _ _ _ _ _ (tx_bio _ _ _ _ _ _ T))].
  by apply plain_prints.
Qed.
End Tx.
