(* ===== verification/FsAlloc.v ===== *)
(** The block allocator (kernel/fs.c, balloc() and bfree()): the bitmap on the disk
    as a set of used blocks. *)

From Stdlib Require Import ZArith Lia.
From stdpp Require Import base gmap list_numbers strings numbers functions list.
From S2P Require Import Prelude Mem Bytes Riscv Kernel Spinlock Kalloc Vm Printf PrintfSpec Sched SchedSpec Thread.
From S2P Require Import Sleeplock SleeplockSpec Virtio Bio BioSpec BioInv VirtioSpec BioProps Log LogSpec LogCrash LogTxn Fs FsTx.

Open Scope Z_scope.

Implicit Types (k : kernel).

(** * Bits of a block *)

(** Bit [bi] of the block [d]. *)
Definition bit_of (d : list Z) (bi : Z) : bool := Z.testbit (default 0 (d !! Z.to_nat (bi / 8))) (bi mod 8).

Lemma land_bit x i : 0 <= i -> (Z.land x (Z.shiftl 1 i) =? 0) = negb (Z.testbit x i).
Proof.
  intros Hi. rewrite Z.shiftl_1_l. destruct (Z.testbit x i) eqn:E; simpl.
  - apply Z.eqb_neq. intros H0. pose proof (f_equal (fun z => Z.testbit z i) H0) as H1. simpl in H1.
    by rewrite Z.land_spec, E, Z.pow2_bits_true, Z.bits_0 in H1.
  - apply Z.eqb_eq. apply Z.bits_inj'. intros n Hn. rewrite Z.land_spec, Z.bits_0, Z.pow2_bits_eqb by done.
    destruct (Z.eqb_spec i n) as [->|]; [by rewrite E|apply andb_false_r].
Qed.

Lemma find_free_spec d b size : forall fuel bi, 0 <= bi -> BPB - bi <= Z.of_nat fuel -> (0 < fuel)%nat ->
  match find_free fuel d b bi size with
  | Some r => bi <= r < BPB /\ b + r < size /\ bit_of d r = false /\ forall j, bi <= j < r -> bit_of d j = true
  | None => forall j, bi <= j < BPB -> b + j < size -> bit_of d j = true
  end.
Proof.
  induction fuel as [|fuel IH]; intros bi Hbi Hf Hpos; [lia|]. cbn [find_free].
  destruct ((bi <? BPB) && (b + bi <? size)) eqn:E.
  - bool_prop. pose proof (Z.mod_pos_bound bi 8 ltac:(lia)) as Hm. rewrite land_bit by lia.
    fold (bit_of d bi). destruct (bit_of d bi) eqn:Eb; cbn [negb].
    + destruct (decide (fuel = 0%nat)) as [->|Hne].
      { simpl. intros j Hj _. assert (j = bi) as -> by lia. done. }
      specialize (IH (bi + 1) ltac:(lia) ltac:(lia) ltac:(lia)). destruct (find_free fuel d b (bi + 1) size) as [r|].
      * destruct IH as (H1 & H2 & H3 & H4). split; [lia|]. split; [done|]. split; [done|].
        intros j Hj. destruct (decide (j = bi)) as [->|]; [done|]. apply H4. lia.
      * intros j Hj Hs. destruct (decide (j = bi)) as [->|]; [done|]. apply IH; lia.
    + split; [lia|]. split; [lia|]. split; [done|]. intros j Hj. lia.
  - intros j Hj Hs. apply andb_false_iff in E as [E|E]; bool_prop; lia.
Qed.

(** Bit [bi] of the block set or cleared. *)
Definition set_bit (bi : Z) (d : list Z) : list Z := alter (fun x => Z.lor x (Z.shiftl 1 (bi mod 8))) (Z.to_nat (bi / 8)) d.
Definition clear_bit (bi : Z) (d : list Z) : list Z :=
  alter (fun x => Z.land x (Z.lnot (Z.shiftl 1 (bi mod 8)))) (Z.to_nat (bi / 8)) d.

Lemma bit_alter (g : Z -> Z) (v : bool) d bi j :
  0 <= bi -> 0 <= j -> (Z.to_nat (bi / 8) < length d)%nat ->
  (forall x n, 0 <= n < 8 -> Z.testbit (g x) n = if decide (n = bi mod 8) then v else Z.testbit x n) ->
  bit_of (alter g (Z.to_nat (bi / 8)) d) j = if decide (j = bi) then v else bit_of d j.
Proof.
  intros Hbi Hj Hlen Hg. unfold bit_of.
  pose proof (Z.mod_pos_bound bi 8 ltac:(lia)). pose proof (Z.mod_pos_bound j 8 ltac:(lia)).
  pose proof (Z.div_mod bi 8 ltac:(lia)). pose proof (Z.div_mod j 8 ltac:(lia)).
  assert (0 <= bi / 8) by (apply Z.div_pos; lia). assert (0 <= j / 8) by (apply Z.div_pos; lia).
  destruct (decide (j / 8 = bi / 8)) as [E|Hne].
  - rewrite E, list_lookup_alter_eq. destruct (lookup_lt_is_Some_2 _ _ Hlen) as [x ->]. simpl. rewrite Hg by lia.
    destruct (decide (j mod 8 = bi mod 8)), (decide (j = bi)); try done; [lia|subst; lia].
  - rewrite list_lookup_alter_ne by lia. rewrite decide_False; [done|]. by intros ->.
Qed.

Lemma bit_set d bi j : 0 <= bi -> 0 <= j -> (Z.to_nat (bi / 8) < length d)%nat ->
  bit_of (set_bit bi d) j = if decide (j = bi) then true else bit_of d j.
Proof.
  intros Hbi Hj Hlen. apply bit_alter; try done. intros x n Hn.
  pose proof (Z.mod_pos_bound bi 8 ltac:(lia)). rewrite Z.lor_spec, Z.shiftl_1_l, Z.pow2_bits_eqb by lia.
  destruct (decide (n = bi mod 8)) as [->|]; [by rewrite Z.eqb_refl, orb_true_r|].
  rewrite (proj2 (Z.eqb_neq _ _)) by lia. apply orb_false_r.
Qed.

Lemma bit_clear d bi j : 0 <= bi -> 0 <= j -> (Z.to_nat (bi / 8) < length d)%nat ->
  bit_of (clear_bit bi d) j = if decide (j = bi) then false else bit_of d j.
Proof.
  intros Hbi Hj Hlen. apply bit_alter; try done. intros x n Hn.
  pose proof (Z.mod_pos_bound bi 8 ltac:(lia)). rewrite Z.land_spec, Z.lnot_spec, Z.shiftl_1_l, Z.pow2_bits_eqb by lia.
  destruct (decide (n = bi mod 8)) as [->|]; [by rewrite Z.eqb_refl, andb_false_r|].
  rewrite (proj2 (Z.eqb_neq _ _)) by lia. apply andb_true_r.
Qed.

(** * The bitmap *)

(** Block [b] is marked as used. *)
Definition used (sb : superblock) (f : Z -> list Z) (b : Z) : bool := bit_of (f (BBLOCK b sb)) (b mod BPB).

Section Alloc.
Context (dev ls o : Z) (sb : superblock) (Ho : 1 <= o).
Context {LS : LinkerSymbols} {BD : BlockDevice} {env : kernel -> kernel -> Prop} {DL : DiskLaws env}.

(** The bitmap blocks of the file system exist and are outside the log, and the blocks
    that are marked as free are data blocks: not block 0, and neither of the log nor of the bitmap. *)
Record bitmap_ok (f : Z -> list Z) : Prop := {
  bm_size : 0 <= sb_size sb < 2 ^ 31;
  bm_start : 0 <= sb_bmapstart sb < 2 ^ 30;
  bm_log : forall b, 0 <= b < sb_size sb -> ~ log_area ls (BBLOCK b sb);
  bm_len : forall b, 0 <= b < sb_size sb -> length (f (BBLOCK b sb)) = Z.to_nat BSIZE;
  bm_data : forall b, 0 <= b < sb_size sb -> used sb f b = false ->
    b <> 0 /\ ~ log_area ls b /\ forall c, 0 <= c < sb_size sb -> b <> BBLOCK c sb;
}.

Lemma BBLOCK_eq b : 0 <= b < sb_size sb -> sb_size sb < 2 ^ 31 -> 0 <= sb_bmapstart sb < 2 ^ 30 ->
  BBLOCK b sb = b / BPB + sb_bmapstart sb /\ 0 <= BBLOCK b sb < 2 ^ 31.
Proof.
  intros Hb Hs Hm. assert (0 <= b / BPB <= b) by (split; [apply Z.div_pos; unfold BPB, BSIZE; lia|apply Z.div_le_upper_bound; unfold BPB, BSIZE; lia]).
  assert (b / BPB < 2 ^ 30) by (apply Z.div_lt_upper_bound; unfold BPB, BSIZE; lia).
  unfold BBLOCK. rewrite u32_small by lia. lia.
Qed.

(** Marking block [r] as used (or free) in the bitmap. *)
Definition mark (v : bool) (f : Z -> list Z) (r : Z) : Z -> list Z :=
  upd f (BBLOCK r sb) ((if v then set_bit (r mod BPB) else clear_bit (r mod BPB)) (f (BBLOCK r sb))).

Lemma used_mark v f r c : bitmap_ok f -> 0 <= r < sb_size sb -> 0 <= c < sb_size sb ->
  used sb (mark v f r) c = if decide (c = r) then v else used sb f c.
Proof.
  intros [Hs Hm _ Hlen _] Hr Hc. unfold used, mark, upd.
  destruct (BBLOCK_eq r Hr ltac:(lia) Hm) as [Er _]. destruct (BBLOCK_eq c Hc ltac:(lia) Hm) as [Ec _].
  pose proof (Z.div_mod r BPB ltac:(by unfold BPB, BSIZE)) as Dr. pose proof (Z.div_mod c BPB ltac:(by unfold BPB, BSIZE)) as Dc.
  pose proof (Z.mod_pos_bound r BPB ltac:(by unfold BPB, BSIZE)) as Mr. pose proof (Z.mod_pos_bound c BPB ltac:(by unfold BPB, BSIZE)) as Mc.
  destruct (decide (BBLOCK c sb = BBLOCK r sb)) as [E|Hne].
  - assert (Hl : (Z.to_nat (r mod BPB / 8) < length (f (BBLOCK r sb)))%nat).
    { rewrite (Hlen r Hr). assert (0 <= r mod BPB / 8) by (apply Z.div_pos; lia).
      assert (r mod BPB / 8 < BSIZE) by (apply Z.div_lt_upper_bound; unfold BPB in *; lia). unfold BSIZE in *. lia. }
    assert (Hbit : bit_of ((if v then set_bit (r mod BPB) else clear_bit (r mod BPB)) (f (BBLOCK r sb))) (c mod BPB) =
      if decide (c mod BPB = r mod BPB) then v else bit_of (f (BBLOCK r sb)) (c mod BPB)).
    { destruct v; [apply bit_set|apply bit_clear]; lia. }
    rewrite Hbit, E. destruct (decide (c mod BPB = r mod BPB)) as [Em|Em], (decide (c = r)) as [->|Hcr]; try done.
    destruct Hcr. rewrite Er, Ec in E. assert (c / BPB = r / BPB) as Eq by lia. rewrite Eq, Em in Dc. lia.
  - rewrite decide_False; [done|]. by intros ->.
Qed.

Lemma mark_length v f r z : length (mark v f r z) = length (f z).
Proof. unfold mark, upd. case_decide as E; [|done]. rewrite E. destruct v; apply length_alter. Qed.

(** A new contents of a block that is not one of the bitmap's. *)
Lemma used_upd f z d c : z <> BBLOCK c sb -> used sb (upd f z d) c = used sb f c.
Proof. intros Hz. unfold used, upd. by rewrite decide_False. Qed.

Lemma bitmap_ok_upd f z d :
  bitmap_ok f -> (forall c, 0 <= c < sb_size sb -> z <> BBLOCK c sb) -> bitmap_ok (upd f z d).
Proof.
  intros [H1 H2 H3 H4 H5] Hz. split; try done.
  - intros b Hb. unfold upd. rewrite decide_False by (intros E; by apply (Hz b)). by apply H4.
  - intros b Hb. rewrite used_upd by (by apply Hz). by apply H5.
Qed.

(** Marking a free block as used. *)
Lemma bitmap_ok_mark f r : bitmap_ok f -> 0 <= r < sb_size sb -> bitmap_ok (mark true f r).
Proof.
  intros Hok Hr. pose proof Hok as [H1 H2 H3 H4 H5]. split; try done.
  - intros b Hb. rewrite mark_length. by apply H4.
  - intros b Hb. rewrite used_mark by done. case_decide; [done|]. by apply H5.
Qed.

(** Freeing a block that is a data block. *)
Lemma bitmap_ok_free f r :
  bitmap_ok f -> 0 <= r < sb_size sb -> r <> 0 -> ~ log_area ls r -> (forall c, 0 <= c < sb_size sb -> r <> BBLOCK c sb) ->
  bitmap_ok (mark false f r).
Proof.
  intros Hok Hr H0 Hl Hc. pose proof Hok as [H1 H2 H3 H4 H5]. split; try done.
  - intros b Hb. rewrite mark_length. by apply H4.
  - intros b Hb. rewrite used_mark by done. case_decide as E; [by subst|]. by apply H5.
Qed.

(** The block [r] allocated and zeroed. *)
Definition allocated (f : Z -> list Z) (r : Z) : Z -> list Z :=
  upd (mark true f r) r (replicate (Z.to_nat BSIZE) 0).

(** Buffers that a caller of balloc() may hold: of used blocks outside the bitmap. *)
Definition held_ok (H : list (nat * Z)) (f : Z -> list Z) : Prop :=
  forall b, 0 <= b < sb_size sb -> BBLOCK b sb ∉ H.*2 /\ (used sb f b = false -> b ∉ H.*2).

Lemma upd_byte_run i g bi d k :
  get_data i k = Ret d k -> upd_byte i bi g k = set_data i (alter g (Z.to_nat (bi / 8)) d) k.
Proof. intros E. unfold upd_byte. by rewrite (bind_run _ _ _ _ _ E). Qed.

Lemma bzero_spec k me pid bs H f b :
  tx dev ls o k me pid bs H f -> b ∉ H.*2 -> 0 <= b < 2 ^ 31 -> ~ log_area ls b ->
  Z.of_nat (length bs) < LOGSIZE - 1 -> (length bs + length H < Z.to_nat NBUF)%nat ->
  wp env (bzero dev b k) (fun _ k' => tx dev ls o k' me pid (log_add b bs) H (upd f b (replicate (Z.to_nat BSIZE) 0)) /\
    tx_frame k k').
Proof.
  intros T Hh Hb Ha Hn Hm. unfold bzero. rewrite u32_small by lia. apply wp_bind.
  eapply wp_mono; [by apply (tx_bread dev ls o k me pid bs H f b T)|]. intros i k1 [T1 F1].
  assert (Hin : (i, b) ∈ (i, b) :: H) by apply list_elem_of_here.
  apply (tx_log_data dev ls o k1 me pid bs _ f i b _ _ _ Ho T1 Hin Hb Ha Hn). intros k2 T2 F2.
  destruct (tx_brelse dev ls o k2 me pid _ H _ i b T2) as (k3 & E3 & T3 & F3). rewrite E3. simpl.
  split; [done|]. eauto using tx_frame_trans.
Qed.

(** A round of balloc() over the bitmap block of the blocks from [b] on. *)
Lemma chunk_bits f b j : bitmap_ok f -> 0 <= b -> (BPB | b) -> 0 <= j < BPB -> b + j < sb_size sb ->
  BBLOCK (b + j) sb = BBLOCK b sb /\ used sb f (b + j) = bit_of (f (BBLOCK b sb)) j.
Proof.
  intros [H1 H2 _ _ _] Hb [q ->] Hj Hs.
  assert (Hp : 0 < BPB) by (by unfold BPB, BSIZE).
  assert (E : BBLOCK (q * BPB + j) sb = BBLOCK (q * BPB) sb).
  { unfold BBLOCK. rewrite Z.div_add_l, Z.div_mul, (Z.div_small j) by lia. by rewrite Z.add_0_r. }
  split; [done|]. unfold used. rewrite E. f_equal. rewrite (Z.add_comm (q * BPB)), Z.mod_add, Z.mod_small by lia. done.
Qed.

Lemma chunk_mod b j : 0 <= b -> (BPB | b) -> 0 <= j < BPB -> (b + j) mod BPB = j.
Proof. intros Hb [q ->] Hj. rewrite Z.add_comm, Z.mod_add, Z.mod_small by (unfold BPB, BSIZE in *; lia). done. Qed.

Definition balloc_post (k : kernel) (me : nat) (pid : Z) (bs : list Z) (H : list (nat * Z)) (f : Z -> list Z) (r : Z) (k' : kernel) : Prop :=
  tx_frame k k' /\
  ((0 < r < sb_size sb /\ used sb f r = false /\ (forall c, 0 <= c < r -> used sb f c = true) /\
    tx dev ls o k' me pid (log_add r (log_add (BBLOCK r sb) bs)) H (allocated f r)) \/
   (r = 0 /\ (forall c, 0 <= c < sb_size sb -> used sb f c = true) /\ tx dev ls o k' me pid bs H f)).

Lemma balloc_loop_spec k0 me pid bs H f : bitmap_ok f -> held_ok H f ->
  Z.of_nat (length bs) + 1 < LOGSIZE - 1 -> (S (length bs) + length H < Z.to_nat NBUF)%nat ->
  forall fuel k b, tx dev ls o k me pid bs H f -> tx_frame k0 k -> k_sb k = sb -> can_print k ->
  0 <= b -> (BPB | b) -> (forall c, 0 <= c < b -> c < sb_size sb -> used sb f c = true) ->
  sb_size sb <= b + BPB * (Z.of_nat fuel - 1) -> (0 < fuel)%nat ->
  wp env (balloc_loop fuel dev b k) (balloc_post k0 me pid bs H f).
Proof.
  intros Hok Hheld Hn Hm. induction fuel as [|fuel IH]; intros k b T F Esb Hcp Hb Hdiv Hbefore Hfuel Hpos; [lia|]. cbn [balloc_loop].
  eapply wp_bind_run; [done|]. rewrite Esb. destruct (Z.ltb_spec b (sb_size sb)) as [Hlt|Hge].
  - destruct (BBLOCK_eq b ltac:(lia) ltac:(apply (bm_size _ Hok)) (bm_start _ Hok)) as [_ Hbb].
    apply wp_bind. eapply wp_mono; [apply (tx_bread dev ls o k me pid bs H f _ T); [exact (proj1 (Hheld b ltac:(lia)))|lia|exact Hbb]|]. intros i k1 [T1 F1].
    assert (Hin : (i, BBLOCK b sb) ∈ (i, BBLOCK b sb) :: H) by apply list_elem_of_here.
    eapply wp_bind_run; [by eapply tx_get_data|].
    pose proof (find_free_spec (f (BBLOCK b sb)) b (sb_size sb) (Z.to_nat BPB) 0 ltac:(lia) ltac:(unfold BPB, BSIZE; lia) ltac:(unfold BPB, BSIZE; lia)) as Hff.
    destruct (find_free _ _ _ _ _) as [r|].
    + destruct Hff as (Hr & Hrs & Hbit & Hall). destruct (chunk_bits f b r Hok Hb Hdiv Hr Hrs) as [Eb Eu].
      pose proof (bm_data _ Hok (b + r) ltac:(lia)) as Hd. rewrite Eu in Hd. specialize (Hd Hbit) as (Hr0 & Hla & Hbm).
      rewrite <- Eb in Hin, T1, Hbb. erewrite bind_cong; [|by apply upd_byte_run; eapply tx_get_data].
      apply (tx_log_data dev ls o k1 me pid bs _ f i _ _ _ _ Ho T1 Hin Hbb); [apply (bm_log _ Hok); lia|lia|]. intros k2 T2 F2.
      destruct (tx_brelse dev ls o k2 me pid _ H _ i _ T2) as (k3 & E3 & T3 & F3). eapply wp_bind_run; [exact E3|].
      pose proof (log_add_length (BBLOCK (b + r) sb) bs) as Hal.
      apply wp_bind. eapply wp_mono; [apply (bzero_spec k3 me pid _ H _ (b + r) T3)|].
      * exact (proj2 (Hheld (b + r) ltac:(lia)) ltac:(by rewrite Eu)).
      * pose proof (bm_size _ Hok). lia.
      * done.
      * lia.
      * lia.
      * intros [] k4 [T4 F4]. split; [eauto 6 using tx_frame_trans|]. left. split; [lia|]. split; [by rewrite Eu|].
        split; [|by rewrite Eb in T4 |- *; unfold allocated, mark; rewrite Eb, (chunk_mod b r Hb Hdiv Hr)].
        intros c Hc. destruct (Z.lt_ge_cases c b) as [Hcb|Hcb]; [apply Hbefore; lia|].
        replace c with (b + (c - b)) by lia. rewrite (proj2 (chunk_bits f b (c - b) Hok Hb Hdiv ltac:(lia) ltac:(lia))). apply Hall. lia.
    + destruct (tx_brelse dev ls o k1 me pid bs H f i _ T1) as (k2 & E2 & T2 & F2). eapply wp_bind_run; [exact E2|].
      assert (F02 : tx_frame k k2) by eauto using tx_frame_trans.
      assert (Hp : 0 < BPB) by (by unfold BPB, BSIZE).
      apply IH; [done|by eapply tx_frame_trans|by rewrite (tx_frame_sb _ _ F02)|by eapply can_print_frame|lia| | |lia|].
      * apply Z.divide_add_r; [done|apply Z.divide_refl].
      * intros c Hc Hs. destruct (Z.lt_ge_cases c b) as [Hcb|Hcb]; [apply Hbefore; lia|].
        replace c with (b + (c - b)) by lia. rewrite (proj2 (chunk_bits f b (c - b) Hok Hb Hdiv ltac:(lia) ltac:(lia))). apply Hff; lia.
      * destruct fuel; [lia|lia].
  - destruct (tx_message dev ls o k me pid bs H f (str "balloc: out of blocks" ++ [NL]) T Hcp ltac:(by vm_compute)) as (k1 & E1 & T1 & F1).
    eapply wp_bind_run; [exact E1|]. split; [by eapply tx_frame_trans|]. right. split; [done|]. split; [|done].
    intros c Hc. apply Hbefore; lia.
Qed.

Lemma balloc_spec k me pid bs H f :
  tx dev ls o k me pid bs H f -> k_sb k = sb -> can_print k -> bitmap_ok f -> held_ok H f ->
  Z.of_nat (length bs) + 1 < LOGSIZE - 1 -> (S (length bs) + length H < Z.to_nat NBUF)%nat ->
  wp env (balloc dev k) (balloc_post k me pid bs H f).
Proof.
  intros T Esb Hcp Hok Hheld Hn Hm. unfold balloc. eapply wp_bind_run; [done|]. rewrite Esb.
  pose proof (bm_size _ Hok) as Hs. pose proof (Z.div_mod (sb_size sb) BPB ltac:(by unfold BPB, BSIZE)) as Hd.
  pose proof (Z.mod_pos_bound (sb_size sb) BPB ltac:(by unfold BPB, BSIZE)) as Hmod.
  assert (0 <= sb_size sb / BPB) by (apply Z.div_pos; [lia|by unfold BPB, BSIZE]).
  apply (balloc_loop_spec k me pid bs H f Hok Hheld Hn Hm); try done.
  - apply Z.divide_0_r.
  - intros c Hc. lia.
  - rewrite Nat2Z.inj_succ, Z2Nat.id by lia. lia.
  - lia.
Qed.


Lemma bfree_spec k me pid bs H f b :
  tx dev ls o k me pid bs H f -> k_sb k = sb -> bitmap_ok f -> BBLOCK b sb ∉ H.*2 -> 0 <= b < sb_size sb ->
  Z.of_nat (length bs) < LOGSIZE - 1 -> (length bs + length H < Z.to_nat NBUF)%nat ->
  if used sb f b then
    wp env (bfree dev b k) (fun _ k' => tx dev ls o k' me pid (log_add (BBLOCK b sb) bs) H (mark false f b) /\ tx_frame k k')
  else panics env (bfree dev b k) "freeing free block".
Proof.
  intros T Esb Hok Hh Hb Hn Hm. pose proof (bm_size _ Hok) as Hs. pose proof (bm_start _ Hok) as Hst.
  destruct (BBLOCK_eq b Hb ltac:(lia) Hst) as [_ Hbb].
  pose proof (tx_bread dev ls o k me pid bs H f (BBLOCK b sb) T Hh Hm Hbb) as Hr.
  pose proof (Z.mod_pos_bound (b mod BPB) 8 ltac:(lia)) as Hm8.
  assert (Ht : forall d, (Z.land (default 0 (d !! Z.to_nat (b mod BPB / 8))) (Z.shiftl 1 (b mod BPB mod 8)) =? 0) = negb (bit_of d (b mod BPB))).
  { intros d. apply land_bit. lia. }
  unfold bfree. destruct (used sb f b) eqn:Eu.
  - eapply wp_bind_run; [done|]. rewrite Esb. apply wp_bind. eapply wp_mono; [exact Hr|]. intros i k1 [T1 F1].
    assert (Hin : (i, BBLOCK b sb) ∈ (i, BBLOCK b sb) :: H) by apply list_elem_of_here.
    eapply wp_bind_run; [by eapply tx_get_data|]. rewrite Ht. unfold used in Eu. rewrite Eu. cbn [negb].
    erewrite bind_cong; [|by apply upd_byte_run; eapply tx_get_data].
    apply (tx_log_data dev ls o k1 me pid bs _ f i _ _ _ _ Ho T1 Hin Hbb); [by apply (bm_log _ Hok)|done|]. intros k2 T2 F2.
    destruct (tx_brelse dev ls o k2 me pid _ H _ i _ T2) as (k3 & E3 & T3 & F3). rewrite E3. simpl.
    split; [exact T3|]. eauto using tx_frame_trans.
  - apply panics_bind. simpl. rewrite Esb. apply panics_bind. eapply wp_mono; [exact Hr|]. intros i k1 [T1 F1].
    assert (Hin : (i, BBLOCK b sb) ∈ (i, BBLOCK b sb) :: H) by apply list_elem_of_here.
    apply panics_bind. rewrite (tx_get_data dev ls o k1 me pid bs _ f i _ T1 Hin). simpl.
    rewrite Ht. unfold used in Eu. by rewrite Eu.
Qed.

Lemma used_allocated f r c : bitmap_ok f -> 0 <= r < sb_size sb -> used sb f r = false -> 0 <= c < sb_size sb ->
  used sb (allocated f r) c = bool_decide (c = r) || used sb f c.
Proof.
  intros Hok Hr Hu Hc. unfold allocated. rewrite used_upd by (by apply (bm_data _ Hok r)). rewrite used_mark by done.
  case_decide as E; [by rewrite bool_decide_true|by rewrite bool_decide_false].
Qed.

Lemma allocated_other f r z : (forall c, 0 <= c < sb_size sb -> z <> BBLOCK c sb) -> 0 <= r < sb_size sb -> z <> r ->
  allocated f r z = f z.
Proof. intros Hz Hr Hne. unfold allocated, mark, upd. rewrite !decide_False; [done|by apply Hz|done]. Qed.

Lemma bitmap_ok_allocated f r : bitmap_ok f -> 0 <= r < sb_size sb -> used sb f r = false -> bitmap_ok (allocated f r).
Proof.
  intros Hok Hr Hu. apply bitmap_ok_upd; [by apply bitmap_ok_mark|]. by apply (bm_data _ Hok r).
Qed.

(** C28. balloc() inside a transaction returns the first free block, now marked as used and filled with
    zeros; every other block keeps its mark and every other block outside the bitmap its contents.  If every
    block is in use it prints a message, returns 0 and changes nothing.  Either way it
    terminates, and at most two more blocks are in the log. *)
Theorem balloc_correct k me pid bs H f :
  tx dev ls o k me pid bs H f -> k_sb k = sb -> can_print k -> bitmap_ok f -> held_ok H f ->
  Z.of_nat (length bs) + 1 < LOGSIZE - 1 -> (S (length bs) + length H < Z.to_nat NBUF)%nat ->
  wp env (balloc dev k) (fun r k' => tx_frame k k' /\
    ((0 < r < sb_size sb /\ used sb f r = false /\ (forall c, 0 <= c < r -> used sb f c = true) /\
      exists bs' f', tx dev ls o k' me pid bs' H f' /\ (length bs' <= length bs + 2)%nat /\ bitmap_ok f' /\
        f' r = replicate (Z.to_nat BSIZE) 0 /\
        (forall c, 0 <= c < sb_size sb -> used sb f' c = bool_decide (c = r) || used sb f c) /\
        (forall z, (forall c, 0 <= c < sb_size sb -> z <> BBLOCK c sb) -> z <> r -> f' z = f z)) \/
     (r = 0 /\ (forall c, 0 <= c < sb_size sb -> used sb f c = true) /\ tx dev ls o k' me pid bs H f))).
Proof.
  intros T Esb Hcp Hok Hheld Hn Hm. eapply wp_mono; [by apply (balloc_spec k me pid bs H f)|].
  intros r k' (F & [(Hr & Hu & Hmin & T')|(-> & Hall & T')]); (split; [done|]); [left|by right].
  split; [done|]. split; [done|]. split; [done|]. assert (Hr' : 0 <= r < sb_size sb) by lia.
  exists (log_add r (log_add (BBLOCK r sb) bs)), (allocated f r). split; [done|].
  pose proof (log_add_length (BBLOCK r sb) bs). pose proof (log_add_length r (log_add (BBLOCK r sb) bs)).
  split; [lia|]. split; [by apply bitmap_ok_allocated|]. split; [by unfold allocated, upd; rewrite decide_True|].
  split; [intros c Hc; by apply used_allocated|]. intros z Hz Hne. by apply allocated_other.
Qed.

(** bfree() of a block in use clears its mark and changes nothing else; bfree() of a free block
    panics.  A block that balloc() has returned can be freed again, which gives back the bitmap
    from before. *)
Theorem bfree_correct k me pid bs H f b :
  tx dev ls o k me pid bs H f -> k_sb k = sb -> bitmap_ok f -> BBLOCK b sb ∉ H.*2 -> 0 <= b < sb_size sb ->
  Z.of_nat (length bs) < LOGSIZE - 1 -> (length bs + length H < Z.to_nat NBUF)%nat ->
  if used sb f b then
    wp env (bfree dev b k) (fun _ k' => exists bs' f', tx dev ls o k' me pid bs' H f' /\ tx_frame k k' /\
      (length bs' <= length bs + 1)%nat /\
      (forall c, 0 <= c < sb_size sb -> used sb f' c = negb (bool_decide (c = b)) && used sb f c) /\
      (forall g c, bitmap_ok g -> used sb g b = false -> f = allocated g b -> 0 <= c < sb_size sb -> used sb f' c = used sb g c) /\
      (forall z, z <> BBLOCK b sb -> f' z = f z))
  else panics env (bfree dev b k) "freeing free block".
Proof.
  intros T Esb Hok Hh Hb Hn Hm. pose proof (bfree_spec k me pid bs H f b T Esb Hok Hh Hb Hn Hm) as Hs.
  destruct (used sb f b) eqn:Eu; [|done]. eapply wp_mono; [exact Hs|]. intros [] k' [T' F].
  assert (Hmark : forall c, 0 <= c < sb_size sb -> used sb (mark false f b) c = negb (bool_decide (c = b)) && used sb f c).
  { intros c Hc. rewrite used_mark by done. case_decide; [by rewrite bool_decide_true|by rewrite bool_decide_false]. }
  exists (log_add (BBLOCK b sb) bs), (mark false f b). pose proof (log_add_length (BBLOCK b sb) bs).
  split; [done|]. split; [done|]. split; [lia|]. split; [done|]. split.
  - intros g c Hg Hgb Hf Hc. rewrite Hmark, Hf, used_allocated by done.
    destruct (decide (c = b)) as [->|]; [by rewrite bool_decide_true|by rewrite bool_decide_false].
  - intros z Hz. unfold mark, upd. by rewrite decide_False.
Qed.
End Alloc.

(** * A concrete file system *)

(** An image in which the blocks below 47 are in use, and block 46 holds data. *)
Definition bitmap_disk : disk :=
  mkDisk {[45 := [255; 255; 255; 255; 255; 127] ++ replicate 1018 0; 46 := [104; 105; 33] ++ replicate 1021 0]} [].

Lemma bitmap_disk_free b : 0 <= b < 2000 -> used sb_sample (disk_block bitmap_disk) b = false -> 47 <= b.
Proof.
  intros Hb Hu. destruct (Z.lt_ge_cases b 47) as [Hlt|]; [|done].
  assert (Hall : forallb (used sb_sample (disk_block bitmap_disk)) (seqZ 0 47) = true) by (by vm_compute).
  rewrite forallb_forall in Hall. rewrite Hall in Hu; [done|]. apply list_elem_of_In, elem_of_seqZ. lia.
Qed.

Lemma BBLOCK_sample b : 0 <= b < 2000 -> BBLOCK b sb_sample = 45.
Proof. intros Hb. unfold BBLOCK. by rewrite Z.div_small by (unfold BPB, BSIZE; lia). Qed.

Lemma bitmap_sample : bitmap_ok 2 sb_sample (disk_block bitmap_disk).
Proof.
  split; try (cbn; lia).
  - intros b Hb. rewrite BBLOCK_sample by done. unfold log_area, LOGSIZE, MAXOPBLOCKS. lia.
  - intros b Hb. rewrite BBLOCK_sample by done. by vm_compute.
  - intros b Hb Hu. pose proof (bitmap_disk_free b Hb Hu). split; [lia|].
    split; [unfold log_area, LOGSIZE, MAXOPBLOCKS; lia|]. intros c Hc. rewrite BBLOCK_sample by done. lia.
Qed.

(** A process inside a transaction on that file system. *)
Lemma fs_sample : exists k, tx 1 2 1 k 3 0 [] [] (disk_block bitmap_disk) /\ k_sb k = sb_sample /\ can_print k.
Proof.
  destruct (with_log_bio 1 bitmap_disk) as (k & B & Hl & Hp & Hpk & _). exists (with_log 1 bitmap_disk k).
  split; [|split; [reflexivity|by split]].
  split; try reflexivity; [exact B|apply log_sample_is|apply loggable_nil|exact Hl|].
  intros z. apply (content_empty 1 _ 3 0 z B).
Qed.

Lemma balloc_correct_witness : exists k, k_sb k = sb_sample /\ wp disk_round (balloc 1 k) (fun r _ => r = 47).
Proof.
  destruct fs_sample as (k & T & Hsb & Hcp). exists k. split; [exact Hsb|].
  eapply wp_mono; [apply (balloc_correct 1 2 1 sb_sample ltac:(lia) (env := disk_round) k 3 0 [] [] _ T Hsb Hcp bitmap_sample)|].
  - intros b Hb. split; [apply not_elem_of_nil|intros _; apply not_elem_of_nil].
  - by vm_compute.
  - change NBUF with 30. simpl. lia.
  - intros r k' (_ & [(Hr & Hu & Hmin & _)|(-> & Hall & _)]); [|specialize (Hall 47 ltac:(simpl; lia)); by vm_compute in Hall].
    pose proof (bitmap_disk_free r ltac:(simpl in Hr; lia) Hu) as H47.
    destruct (Z.eq_dec r 47) as [|Hne]; [assumption|]. specialize (Hmin 47 ltac:(lia)). by vm_compute in Hmin.
Defined.

Lemma bfree_correct_witness : exists k, panics disk_round (bfree 1 50 k) "freeing free block" /\
  wp disk_round (bfree 1 40 k) (fun _ _ => True).
Proof.
  destruct fs_sample as (k & T & Hsb & Hcp). exists k. split.
  - exact (bfree_correct 1 2 1 sb_sample ltac:(lia) (env := disk_round) k 3 0 [] [] _ 50 T Hsb bitmap_sample
      (not_elem_of_nil _) ltac:(simpl; lia) ltac:(by vm_compute) ltac:(change NBUF with 30; simpl; lia)).
  - eapply wp_mono; [exact (bfree_correct 1 2 1 sb_sample ltac:(lia) (env := disk_round) k 3 0 [] [] _ 40 T Hsb bitmap_sample
      (not_elem_of_nil _) ltac:(simpl; lia) ltac:(by vm_compute) ltac:(change NBUF with 30; simpl; lia))|].
    done.
Defined.
