(* ===== verification/FsFile.v ===== *)
(** Files (kernel/fs.c: bmap(), readi(), writei(), iupdate()): the blocks of an
    inode, and the contents of a file as a sequence of bytes. *)

From Stdlib Require Import ZArith Lia.
From stdpp Require Import base gmap list_numbers strings numbers functions list.
From S2P Require Import Prelude Mem Bytes Riscv Kernel Spinlock Kalloc Vm Printf PrintfSpec Sched SchedSpec Thread.
From S2P Require Import Sleeplock SleeplockSpec Virtio Bio BioSpec BioInv VirtioSpec BioProps Log LogSpec LogCrash LogTxn Fs FsTx FsAlloc.

Open Scope Z_scope.

Implicit Types (k : kernel).

(** * The blocks of an inode *)

(** Block number [n] of the file, 0 if it has none; [n = MAXFILE] is the indirect block. *)
Definition slot (f : Z -> list Z) (x : inode) (n : Z) : Z :=
  if n <? NDIRECT then default 0 (i_addrs x !! Z.to_nat n) else
  let ind := default 0 (i_addrs x !! Z.to_nat NDIRECT) in
  if n =? MAXFILE then ind else
  if ind =? 0 then 0 else default 0 (getn 4 (Z.to_nat (4 * (n - NDIRECT))) (f ind)).

Lemma MAXFILE_eq : MAXFILE = 268.
Proof. by vm_compute. Qed.

Section File.
Context (dev ls o : Z) (sb : superblock) (Ho : 1 <= o) (me : nat) (pid : Z) (ip : nat).
Context {LS : LinkerSymbols} {BD : BlockDevice} {env : kernel -> kernel -> Prop} {DL : DiskLaws env}.

(** A block that holds data of a file. *)
Record data_block (f : Z -> list Z) (z : Z) : Prop := {
  db_range : 0 < z < sb_size sb;
  db_used : used sb f z = true;
  db_log : ~ log_area ls z;
  db_map : forall c, 0 <= c < sb_size sb -> z <> BBLOCK c sb;
  db_len : length (f z) = Z.to_nat BSIZE;
}.

(** The blocks of the inode are data blocks, each of them once. *)
Record file_ok (f : Z -> list Z) (x : inode) : Prop := {
  fo_dev : i_dev x = dev;
  fo_len : length (i_addrs x) = 13%nat;
  fo_data : forall n, 0 <= n <= MAXFILE -> slot f x n <> 0 -> data_block f (slot f x n);
  fo_inj : forall n m, 0 <= n <= MAXFILE -> 0 <= m <= MAXFILE -> slot f x n <> 0 -> slot f x n = slot f x m -> n = m;
}.

Lemma addr_lookup x i : length (i_addrs x) = 13%nat -> 0 <= i <= NDIRECT ->
  i_addrs x !! Z.to_nat i = Some (default 0 (i_addrs x !! Z.to_nat i)).
Proof.
  intros Hlen Hi. destruct (lookup_lt_is_Some_2 (i_addrs x) (Z.to_nat i)) as [a ->]; [|done].
  rewrite Hlen. unfold NDIRECT in *. lia.
Qed.

(** The inode with address [i] (the twelve direct ones, then the indirect block) set to [r]. *)
Definition with_addr (i r : Z) (x : inode) : inode := set_i_addrs (<[Z.to_nat i := r]> (i_addrs x)) x.

Lemma with_addr_lookup i r x j : length (i_addrs x) = 13%nat -> 0 <= i <= NDIRECT -> 0 <= j <= NDIRECT ->
  default 0 (i_addrs (with_addr i r x) !! Z.to_nat j) = if decide (j = i) then r else default 0 (i_addrs x !! Z.to_nat j).
Proof.
  intros Hlen Hi Hj. unfold with_addr. simpl. case_decide as E.
  - subst. rewrite list_lookup_insert_eq; [done|]. rewrite Hlen. unfold NDIRECT in *. lia.
  - rewrite list_lookup_insert_ne by lia. done.
Qed.

(** * A block added to a file *)

(** Between [(f, x)] and [(f', x')] the file got the block [r], which was free, as its block [j]; the bitmap has
    changed accordingly, and no other block of the file system but the file's indirect block. *)
Record grown (f : Z -> list Z) (x : inode) (f' : Z -> list Z) (x' : inode) (j r : Z) : Prop := {
  gr_range : 0 < r < sb_size sb;
  gr_free : used sb f r = false;
  gr_empty : slot f x j = 0;
  gr_slot : forall m, 0 <= m <= MAXFILE -> slot f' x' m = if decide (m = j) then r else slot f x m;
  gr_used : forall c, 0 <= c < sb_size sb -> used sb f' c = bool_decide (c = r) || used sb f c;
  gr_len : forall z, z <> r -> length (f' z) = length (f z);
  gr_zero : length (f' r) = Z.to_nat BSIZE /\ (j <> MAXFILE -> f' r = replicate (Z.to_nat BSIZE) 0);
  gr_keep : forall z, (forall c, 0 <= c < sb_size sb -> z <> BBLOCK c sb) -> z <> r -> z <> slot f' x' MAXFILE -> f' z = f z;
  gr_meta : exists l, x' = set_i_addrs l x /\ length l = 13%nat;
}.

Lemma grown_file_ok f x f' x' j r : bitmap_ok ls sb f -> grown f x f' x' j r -> file_ok f x -> file_ok f' x'.
Proof.
  intros Hbm [Hr Hfree He Hslot Hused Hlen [Hz _] Hkeep (l & Hx & Hl)] [H1 H2 H3 H4].
  destruct (bm_data _ _ _ Hbm r ltac:(lia) Hfree) as (Hr0 & Hrl & Hrb).
  assert (Hnew : forall n, 0 <= n <= MAXFILE -> slot f x n <> r).
  { intros n Hn E. destruct (H3 n Hn) as [_ Hu _ _ _]; [lia|]. congruence. }
  split; try (by subst).
  - intros n Hn. rewrite Hslot by done. case_decide as E; intros Hne.
    + split; try done. rewrite Hused by lia. by rewrite bool_decide_true.
    + destruct (H3 n Hn Hne) as [K1 K2 K3 K4 K5]. split; try done.
      * rewrite Hused by lia. rewrite K2. apply orb_true_r.
      * rewrite Hlen; [done|by apply Hnew].
  - intros n m Hn Hm. rewrite !Hslot by done. repeat case_decide; subst; try done.
    + intros _ E. by destruct (Hnew m Hm).
    + intros _ E. by destruct (Hnew n Hn).
    + by apply H4.
Qed.

(** The file's block that address [i] of the inode is. *)
Definition addr_slot (i : Z) : Z := if i =? NDIRECT then MAXFILE else i.

Lemma slot_addr f x i : 0 <= i <= NDIRECT -> slot f x (addr_slot i) = default 0 (i_addrs x !! Z.to_nat i).
Proof.
  intros Hi. unfold addr_slot, slot. destruct (Z.eqb_spec i NDIRECT) as [->|].
  - by rewrite (proj2 (Z.ltb_ge MAXFILE NDIRECT)), Z.eqb_refl by (by vm_compute).
  - by rewrite (proj2 (Z.ltb_lt i NDIRECT)) by lia.
Qed.

Lemma slot_ind f x n : NDIRECT <= n < MAXFILE -> slot f x n =
  if slot f x MAXFILE =? 0 then 0 else default 0 (getn 4 (Z.to_nat (4 * (n - NDIRECT))) (f (slot f x MAXFILE))).
Proof.
  intros Hn. change (slot f x MAXFILE) with (default 0 (i_addrs x !! Z.to_nat NDIRECT)). unfold slot.
  by rewrite (proj2 (Z.ltb_ge _ _)), (proj2 (Z.eqb_neq _ _)) by lia.
Qed.

Lemma slot_dir f x n : n < NDIRECT -> slot f x n = default 0 (i_addrs x !! Z.to_nat n).
Proof. intros Hn. unfold slot. by rewrite (proj2 (Z.ltb_lt _ _)). Qed.

Lemma data_block_not_free f z r : data_block f z -> used sb f r = false -> z <> r.
Proof. intros D Hf ->. rewrite (db_used _ _ D) in Hf. done. Qed.

(** A free block as address [i] of the inode. *)
Lemma grown_addr f x i r : bitmap_ok ls sb f -> file_ok f x -> 0 <= i <= NDIRECT -> slot f x (addr_slot i) = 0 ->
  0 < r < sb_size sb -> used sb f r = false -> grown f x (allocated sb f r) (with_addr i r x) (addr_slot i) r.
Proof.
  intros Hbm Hfo Hi He Hr Hf. pose proof (fo_len _ _ Hfo) as Hlen. assert (Hr' : 0 <= r < sb_size sb) by lia.
  destruct (bm_data _ _ _ Hbm r Hr' Hf) as (Hr0 & Hrl & Hrb).
  assert (Hz : allocated sb f r r = replicate (Z.to_nat BSIZE) 0) by (unfold allocated, upd; by rewrite decide_True).
  assert (Haddr : forall m, 0 <= m <= NDIRECT -> default 0 (i_addrs (with_addr i r x) !! Z.to_nat m) =
    if decide (m = i) then r else default 0 (i_addrs x !! Z.to_nat m)) by (intros m Hm; by apply with_addr_lookup).
  assert (Hmax : slot (allocated sb f r) (with_addr i r x) MAXFILE = if decide (NDIRECT = i) then r else slot f x MAXFILE).
  { exact (Haddr NDIRECT ltac:(unfold NDIRECT; lia)). }
  split; try done.
  - intros m Hm. unfold addr_slot in *. destruct (Z.lt_ge_cases m NDIRECT) as [Hlt|Hge].
    + rewrite !slot_dir, Haddr by lia. destruct (Z.eqb_spec i NDIRECT); [|done].
      rewrite !decide_False; [done| |lia]. assert (NDIRECT < MAXFILE) by (by vm_compute). lia.
    + destruct (decide (m = MAXFILE)) as [->|Hm'].
      * rewrite Hmax. destruct (Z.eqb_spec i NDIRECT) as [->|]; [by rewrite !decide_True|].
        rewrite !decide_False; [done|rewrite MAXFILE_eq; change NDIRECT with 12 in *; lia|lia].
      * rewrite !(slot_ind _ _ m), Hmax by lia. destruct (Z.eqb_spec i NDIRECT) as [->|Hne].
        -- rewrite He, (decide_True (P := NDIRECT = NDIRECT)) by done. rewrite (proj2 (Z.eqb_neq r 0)), Hz by lia.
           rewrite (decide_False (P := m = MAXFILE)) by done. rewrite getn_zeros; [done|].
           rewrite MAXFILE_eq in Hm, Hm'. change NDIRECT with 12 in *. change BSIZE with 1024. lia.
        -- rewrite (decide_False (P := NDIRECT = i)) by lia. rewrite decide_False by lia.
           destruct (Z.eqb_spec (slot f x MAXFILE) 0); [done|].
           pose proof (fo_data _ _ Hfo MAXFILE ltac:(by vm_compute) ltac:(done)) as D.
           rewrite allocated_other; [done|apply D|done|by eapply data_block_not_free].
  - intros c Hc. by apply (used_allocated ls sb).
  - intros z Hzr. unfold allocated, upd. rewrite decide_False by done. apply mark_length.
  - by rewrite Hz, length_replicate.
  - intros z Hzb Hzr _. by apply allocated_other.
  - eexists. split; [done|]. by rewrite length_insert.
Qed.

(** New contents of the indirect block: a free block as entry [j - NDIRECT]. *)
Lemma grown_entry f x j r d' : bitmap_ok ls sb f -> file_ok f x -> NDIRECT <= j < MAXFILE -> slot f x j = 0 ->
  slot f x MAXFILE <> 0 -> 0 < r < sb_size sb -> used sb f r = false ->
  putn 4 (Z.to_nat (4 * (j - NDIRECT))) r (f (slot f x MAXFILE)) = Some d' ->
  grown f x (upd (allocated sb f r) (slot f x MAXFILE) d') x j r.
Proof.
  intros Hbm Hfo Hj He Hind Hr Hf Hp. set (a := slot f x MAXFILE) in *. set (f' := upd _ a d').
  destruct (bm_data _ _ _ Hbm r ltac:(lia) Hf) as (Hr0 & Hrl & Hrb).
  pose proof (fo_data _ _ Hfo MAXFILE ltac:(by vm_compute) Hind) as D. fold a in D.
  pose proof (data_block_not_free f a r D Hf) as Har.
  destruct (getn_putn _ _ _ _ _ Hp) as (Hlen' & Hget & Hother).
  assert (Ha : f' a = d') by (unfold f', upd; by rewrite decide_True).
  assert (Hmax : slot f' x MAXFILE = a) by done.
  pose proof (bm_size _ _ _ Hbm) as Hs. split; try done.
  - intros m Hm. destruct (Z.lt_ge_cases m NDIRECT) as [Hlt|Hge].
    + rewrite !slot_dir by done. by rewrite decide_False by lia.
    + destruct (decide (m = MAXFILE)) as [->|Hm'].
      { rewrite decide_False; [done|]. lia. }
      rewrite !(slot_ind _ _ m), Hmax, Ha by lia. fold a. rewrite (proj2 (Z.eqb_neq a 0)) by done. case_decide as E.
      * subst m. rewrite Hget. simpl. apply Z.mod_small. simpl. lia.
      * rewrite Hother; [done|]. change NDIRECT with 12 in *. lia.
  - intros c Hc. unfold f'. rewrite used_upd by (by apply D). apply (used_allocated ls sb); try done; lia.
  - intros z Hz. unfold f', upd at 1. case_decide as E; [by rewrite E, Hlen'|].
    unfold allocated, upd. rewrite decide_False by done. apply mark_length.
  - unfold f', upd at 1 2. rewrite !decide_False by done. unfold allocated, upd. rewrite decide_True by done.
    by rewrite length_replicate.
  - intros z Hzb Hzr Hza. rewrite Hmax in Hza. unfold f', upd at 1. rewrite decide_False by done. apply allocated_other; [done|lia|done].
  - exists (i_addrs x). split; [by destruct x|apply Hfo].
Qed.

(** * bmap() *)

(** The state in which the operations on inode [ip] work. *)
Record fs_at (k : kernel) (bs : list Z) (H : list (nat * Z)) (f : Z -> list Z) (x : inode) : Prop := {
  fa_tx : tx dev ls o k me pid bs H f;
  fa_sb : k_sb k = sb;
  fa_print : can_print k;
  fa_bm : bitmap_ok ls sb f;
  fa_ip : k_itable k !! ip = Some x;
  fa_file : file_ok f x;
}.

(** Only inode [ip] and what [tx_frame] names change. *)
Definition ip_frame (k k' : kernel) : Prop :=
  exists x', tx_frame (set_k_itable (<[ip := x']> (k_itable k)) k) k'.

Lemma tx_ip_frame k k' x : k_itable k !! ip = Some x -> tx_frame k k' -> ip_frame k k'.
Proof.
  intros Ex F. exists x. rewrite list_insert_id by done. unfold tx_frame in *. rewrite F. by destruct k.
Qed.

Lemma ip_frame_trans k1 k2 k3 : ip_frame k1 k2 -> ip_frame k2 k3 -> ip_frame k1 k3.
Proof.
  intros [x1 F1] [x2 F2]. exists x2. pose proof (tx_frame_itable _ _ F1) as E. cbn [k_itable set_k_itable] in E.
  rewrite E, list_insert_insert_eq in F2. unfold tx_frame in *. rewrite F2.
  assert (core (set_k_itable (<[ip:=x2]> (k_itable k1)) k2) = set_k_itable (<[ip:=x2]> (k_itable k1)) (core k2)) as -> by done.
  rewrite F1. by destruct k1.
Qed.

Lemma tx_itable k l bs H f : tx dev ls o k me pid bs H f -> tx dev ls o (set_k_itable l k) me pid bs H f.
Proof.
  intros [B L Hbs Hl Hsz Ho' Hc HC Hcl]. split; try done.
  - destruct B. split; try done. by apply (thread_ext k).
  - destruct L. by split.
Qed.

Lemma can_print_itable k l : can_print k -> can_print (set_k_itable l k).
Proof. intros []. by split. Qed.

Lemma addr_get_run k f x i : k_itable k !! ip = Some x -> length (i_addrs x) = 13%nat -> 0 <= i <= NDIRECT ->
  addr_get ip i k = Ret (slot f x (addr_slot i)) k.
Proof.
  intros E Hlen Hi. unfold addr_get. rewrite (bind_run _ _ _ _ _ (get_inode_run k ip x E)).
  rewrite (addr_lookup x i Hlen Hi), slot_addr by done. done.
Qed.

(** The blocks that the file has stay, and so do the contents of every block in use but the bitmap's and
    the file's indirect block; new blocks of the file were free and are zero. *)
Record extends (f : Z -> list Z) (x : inode) (f' : Z -> list Z) (x' : inode) : Prop := {
  ex_slot : forall m, 0 <= m <= MAXFILE -> slot f x m <> 0 -> slot f' x' m = slot f x m;
  ex_new : forall m, 0 <= m <= MAXFILE -> slot f x m = 0 -> slot f' x' m <> 0 ->
    0 < slot f' x' m < sb_size sb /\ used sb f (slot f' x' m) = false /\
    (m <> MAXFILE -> f' (slot f' x' m) = replicate (Z.to_nat BSIZE) 0);
  ex_used : forall c, 0 <= c < sb_size sb -> used sb f c = true -> used sb f' c = true;
  ex_keep : forall z, 0 < z < sb_size sb -> used sb f z = true -> (forall c, 0 <= c < sb_size sb -> z <> BBLOCK c sb) ->
    z <> slot f x MAXFILE -> f' z = f z;
  ex_meta : exists l, x' = set_i_addrs l x;
}.

Lemma extends_refl f x : extends f x f x.
Proof. split; try done. exists (i_addrs x). by destruct x. Qed.

Lemma extends_trans f1 x1 f2 x2 f3 x3 :
  file_ok f2 x2 -> extends f1 x1 f2 x2 -> extends f2 x2 f3 x3 -> extends f1 x1 f3 x3.
Proof.
  intros Hfo [A1 A2 A3 A4 [l1 A5]] [B1 B2 B3 B4 [l2 B5]]. assert (Hmx : 0 <= MAXFILE <= MAXFILE) by (by vm_compute). split.
  - intros m Hm Hne. pose proof (A1 m Hm Hne) as E. rewrite <- E. apply B1; congruence.
  - intros m Hm He Hne. destruct (decide (slot f2 x2 m = 0)) as [E|Hne2].
    + destruct (B2 m Hm E Hne) as (Hr & Hu & Hz). split; [done|]. split; [|done].
      destruct (used sb f1 (slot f3 x3 m)) eqn:Eu; [|done]. rewrite A3 in Hu; [done|lia|done].
    + destruct (A2 m Hm He Hne2) as (Hr & Hu & Hz). rewrite B1 by done. split; [done|]. split; [done|]. intros Hm'.
      destruct (fo_data _ _ Hfo m Hm Hne2) as [_ D2 _ D4 _]. rewrite B4; [by apply Hz|lia|done|done|].
      intros E. apply Hm'. by apply (fo_inj _ _ Hfo).
  - intros c Hc Hu. by apply B3, A3.
  - intros z Hz Hu Hb Hi. rewrite B4; [by apply A4|done|apply A3; [lia|done]|done|].
    destruct (decide (slot f1 x1 MAXFILE = 0)) as [E|Hne]; [|by rewrite A1].
    destruct (decide (slot f2 x2 MAXFILE = 0)) as [E2|Hne2]; [lia|].
    destruct (A2 MAXFILE Hmx E Hne2) as (_ & Hu2 & _). intros ->. congruence.
  - exists l2. rewrite B5, A5. done.
Qed.

Lemma grown_extends f x f' x' j r : 0 <= j <= MAXFILE -> grown f x f' x' j r -> extends f x f' x'.
Proof.
  intros Hj [Hr Hfree He Hslot Hused Hlen [_ Hz] Hkeep (l & Hx & Hl)]. split.
  - intros m Hm Hne. rewrite Hslot by done. case_decide as E; [by subst|done].
  - intros m Hm E. rewrite Hslot by done. case_decide as Em; [|done]. intros _. subst. done.
  - intros c Hc Hu. rewrite Hused, Hu by done. apply orb_true_r.
  - intros z Hz' Hu Hb Hi. assert (z <> r) by (intros ->; congruence). apply Hkeep; try done.
    rewrite Hslot by (by vm_compute). by case_decide.
  - by exists l.
Qed.

(** A step that touches neither the inode nor the file's blocks. *)
Lemma fs_at_step k k' bs bs' H H' f f' x :
  fs_at k bs H f x -> tx dev ls o k' me pid bs' H' f' -> tx_frame k k' -> bitmap_ok ls sb f' -> file_ok f' x ->
  fs_at k' bs' H' f' x.
Proof.
  intros [T Hsb Hcp Hbm Hip Hfo] T' F Hbm' Hfo'. split; try done.
  - by rewrite <- Hsb, <- (tx_frame_sb _ _ F).
  - by eapply can_print_frame.
  - by rewrite (tx_frame_itable _ _ F).
Qed.

(** An assignment to a field of the inode. *)
Lemma upd_ip_frame g k k1 x : k_itable k !! ip = Some x -> tx_frame k k1 ->
  ip_frame k (set_k_itable (alter g ip (k_itable k1)) k1).
Proof.
  intros Ex F. exists (g x). unfold tx_frame in *.
  assert (alter g ip (k_itable k1) = <[ip := g x]> (k_itable k)) as ->.
  { rewrite (tx_frame_itable _ _ F). apply list_eq. intros j. destruct (decide (j = ip)) as [->|].
    - rewrite list_lookup_alter_eq, Ex. simpl. rewrite list_lookup_insert_eq; [done|by eapply lookup_lt_Some].
    - by rewrite list_lookup_alter_ne, list_lookup_insert_ne. }
  change (core (set_k_itable (<[ip := g x]> (k_itable k)) k1)) with (set_k_itable (<[ip := g x]> (k_itable k)) (core k1)).
  rewrite F. by destruct k.
Qed.

(** The blocks that bmap() may add to the file. *)
Definition only_new (f : Z -> list Z) (x : inode) (f' : Z -> list Z) (x' : inode) (bn : Z) : Prop :=
  forall m, 0 <= m < MAXFILE -> m <> bn -> slot f' x' m = slot f x m.

Lemma alloc_addr k bs f x i :
  fs_at k bs [] f x -> 0 <= i <= NDIRECT -> slot f x (addr_slot i) = 0 -> Z.of_nat (length bs) + 1 < LOGSIZE - 1 ->
  wp env ((let! addr := balloc dev in if addr =? 0 then ret 0 else do! addr_set ip i addr; ret addr) k)
    (fun a k' => exists bs' f' x', fs_at k' bs' [] f' x' /\ ip_frame k k' /\ (length bs' <= length bs + 2)%nat /\
      ((a = 0 /\ f' = f /\ x' = x /\ bs' = bs /\ forall c, 0 <= c < sb_size sb -> used sb f c = true) \/
       (a <> 0 /\ a ∈ bs' /\ grown f x f' x' (addr_slot i) a))).
Proof.
  intros A Hi He Hn. pose proof A as [T Hsb Hcp Hbm Hip Hfo]. apply wp_bind.
  eapply wp_mono; [apply (balloc_spec dev ls o sb Ho k me pid bs [] f T Hsb Hcp Hbm)|].
  - intros b Hb. split; [apply not_elem_of_nil|intros _; apply not_elem_of_nil].
  - done.
  - change NBUF with 30. unfold LOGSIZE, MAXOPBLOCKS in Hn. simpl. lia.
  - intros r k1 (F & [(Hr & Hu & _ & T1)|(-> & Hall & T1)]).
    + rewrite (proj2 (Z.eqb_neq r 0)) by lia. unfold addr_set. rewrite (bind_run _ _ _ _ _ (upd_inode_run _ _ _)).
      pose proof (grown_addr f x i r Hbm Hfo Hi He Hr Hu) as G.
      exists (log_add r (log_add (BBLOCK r sb) bs)), (allocated sb f r), (with_addr i r x).
      pose proof (log_add_length (BBLOCK r sb) bs). pose proof (log_add_length r (log_add (BBLOCK r sb) bs)).
      assert (E1 : k_itable k1 !! ip = Some x) by (by rewrite (tx_frame_itable _ _ F)).
      split; [split|split; [|split; [lia|right; split; [lia|split; [|done]]]]].
      * by apply tx_itable.
      * by rewrite <- Hsb, <- (tx_frame_sb _ _ F).
      * apply can_print_itable. by eapply can_print_frame.
      * apply bitmap_ok_allocated; [done|lia|done].
      * simpl. by rewrite list_lookup_alter_eq, E1.
      * by eapply grown_file_ok.
      * exact (upd_ip_frame (with_addr i r) k k1 x Hip F).
      * unfold log_add at 1. case_decide; [done|]. apply elem_of_app. right. by apply list_elem_of_singleton.
    + exists bs, f, x. split; [by eapply fs_at_step|]. split; [by eapply tx_ip_frame|]. split; [lia|]. by left.
Qed.

(** What bmap() does: the block numbers, in the end, are those of [(f', x')]. *)
Definition bmap_post (n : nat) (k : kernel) (bs : list Z) (f : Z -> list Z) (x : inode) (bn a : Z) (k' : kernel) : Prop :=
  exists bs' f' x', fs_at k' bs' [] f' x' /\ ip_frame k k' /\ extends f x f' x' /\ only_new f x f' x' bn /\
    a = slot f' x' bn /\ (a = 0 -> forall c, 0 <= c < sb_size sb -> used sb f' c = true) /\
    (slot f x bn <> 0 -> bs' = bs /\ f' = f /\ x' = x) /\ (length bs' <= length bs + n)%nat.

Lemma bmap_same n k bs f x bn : fs_at k bs [] f x -> slot f x bn <> 0 -> bmap_post n k bs f x bn (slot f x bn) k.
Proof.
  intros A Hne. exists bs, f, x. split; [done|]. split; [eapply tx_ip_frame; [apply A|apply tx_frame_refl]|].
  split; [apply extends_refl|]. split; [done|]. split; [done|]. split; [done|]. split; [done|lia].
Qed.

Lemma bmap_direct k bs f x bn :
  fs_at k bs [] f x -> 0 <= bn < NDIRECT -> Z.of_nat (length bs) + 1 < LOGSIZE - 1 ->
  wp env (bmap ip bn k) (bmap_post 2 k bs f x bn).
Proof.
  intros A Hbn Hn. pose proof A as [T Hsb Hcp Hbm Hip Hfo]. pose proof (fo_len _ _ Hfo) as Hlen.
  assert (Hs : addr_slot bn = bn) by (unfold addr_slot; by rewrite (proj2 (Z.eqb_neq bn NDIRECT)) by lia).
  assert (Hlt : NDIRECT < MAXFILE) by (by vm_compute).
  unfold bmap. eapply wp_bind_run; [by apply get_inode_run|]. rewrite (proj2 (Z.ltb_lt bn NDIRECT)), (fo_dev _ _ Hfo) by lia.
  eapply wp_bind_run; [apply (addr_get_run k f x bn Hip Hlen); lia|]. rewrite Hs.
  destruct (Z.eqb_spec (slot f x bn) 0) as [E|Hne]; [|by apply bmap_same].
  eapply wp_mono; [apply (alloc_addr k bs f x bn A); [lia|by rewrite Hs|done]|].
  intros a k' (bs' & f' & x' & A' & F' & Hl' & [(-> & -> & -> & -> & Hall)|(Ha & _ & G)]).
  - exists bs, f, x. split; [done|]. split; [done|]. split; [apply extends_refl|]. do 3 (split; [done|]). split; [done|lia].
  - rewrite Hs in G. exists bs', f', x'. split; [done|]. split; [done|]. split; [by eapply grown_extends; [|exact G]; lia|].
    split; [intros m Hm Hne; by rewrite (gr_slot _ _ _ _ _ _ G), decide_False by lia|].
    split; [by rewrite (gr_slot _ _ _ _ _ _ G), decide_True by lia|]. split; [done|]. split; [done|lia].
Qed.

Lemma log_add_in b bs : b ∈ bs -> log_add b bs = bs.
Proof. intros Hb. unfold log_add. by rewrite decide_True. Qed.

Lemma elem_of_log_add z b bs : z ∈ bs -> z ∈ log_add b bs.
Proof. intros Hz. unfold log_add. case_decide; [done|]. apply elem_of_app. by left. Qed.

(** Its end, after balloc() with the indirect block held. *)
Lemma bmap_entry_end k k2 bs f x bn i r :
  fs_at k bs [] f x -> NDIRECT <= bn < MAXFILE -> slot f x MAXFILE <> 0 -> Z.of_nat (length bs) + 2 < LOGSIZE - 1 ->
  slot f x bn = 0 -> tx_frame k k2 ->
  (0 < r < sb_size sb /\ used sb f r = false /\ (forall c, 0 <= c < r -> used sb f c = true) /\
    tx dev ls o k2 me pid (log_add r (log_add (BBLOCK r sb) bs)) [(i, slot f x MAXFILE)] (allocated sb f r)) \/
  (r = 0 /\ (forall c, 0 <= c < sb_size sb -> used sb f c = true) /\ tx dev ls o k2 me pid bs [(i, slot f x MAXFILE)] f) ->
  wp env ((if negb (r =? 0) then
             let! d := get_data i in
             let! d := need "a[]" (putn 4 (Z.to_nat (4 * (bn - NDIRECT))) r d) in
             do! set_data i d;
             do! log_write i;
             ret r
           else ret r) k2) (fun addr k' => wp env ((do! brelse i; ret addr) k')
    (bmap_post (if decide (slot f x MAXFILE ∈ bs) then 2 else 3) k bs f x bn)).
Proof.
  intros A Hbn Hind Hn E F Hcase. pose proof A as [T Hsb Hcp Hbm Hip Hfo]. set (a := slot f x MAXFILE) in *.
  assert (Hmx : 0 <= MAXFILE <= MAXFILE) by (by vm_compute). assert (Hb0 : 0 <= bn <= MAXFILE) by (change NDIRECT with 12 in *; lia).
  pose proof (fo_data _ _ Hfo MAXFILE Hmx Hind) as D. fold a in D. pose proof (bm_size _ _ _ Hbm) as Hs.
  assert (Hin : (i, a) ∈ [(i, a)]) by apply list_elem_of_here.
  destruct Hcase as [(Hr & Hu & _ & T2)|(-> & Hall & T2)].
  - rewrite (proj2 (Z.eqb_neq r 0)) by lia. cbn [negb]. pose proof (data_block_not_free f a r D Hu) as Har.
    assert (Hfa : allocated sb f r a = f a) by (apply allocated_other; [apply D|lia|done]).
    eapply wp_bind_run; [by eapply tx_get_data|]. rewrite Hfa.
    assert (Hoff : (Z.to_nat (4 * (bn - NDIRECT)) + 4 <= length (f a))%nat).
    { rewrite (db_len _ _ D), MAXFILE_eq in *. change NDIRECT with 12 in *. change BSIZE with 1024. lia. }
    destruct (putn_ok 4 _ r _ Hoff) as [d' Ed]. rewrite Ed. eapply wp_bind_run; [done|].
    set (bs1 := log_add r (log_add (BBLOCK r sb) bs)) in *.
    pose proof (log_add_length (BBLOCK r sb) bs). pose proof (log_add_length r (log_add (BBLOCK r sb) bs)). fold bs1 in H0.
    apply (tx_log_data dev ls o k2 me pid bs1 _ _ i a d' _ _ Ho T2 Hin); [destruct D; lia|apply D|lia|]. intros k3 T3 F3.
    destruct (tx_brelse dev ls o k3 me pid _ [] _ i a T3) as (k4 & E4 & T4 & F4).
    eapply wp_bind_run; [exact E4|]. simpl. pose proof (grown_entry f x bn r d' Hbm Hfo Hbn E Hind Hr Hu Ed) as G. fold a in G.
    exists (log_add a bs1), (upd (allocated sb f r) a d'), x. assert (F4' : tx_frame k k4) by eauto using tx_frame_trans.
    split; [eapply (fs_at_step k); try done|].
    + apply bitmap_ok_upd; [by apply bitmap_ok_allocated; [|lia|]|apply D].
    + by eapply grown_file_ok.
    + split; [by eapply tx_ip_frame|]. split; [by eapply grown_extends; [|exact G]|].
      split; [intros m Hm Hne; by rewrite (gr_slot _ _ _ _ _ _ G), decide_False by lia|].
      split; [by rewrite (gr_slot _ _ _ _ _ _ G), decide_True by lia|]. split; [lia|]. split; [done|].
      case_decide as Hd; [rewrite log_add_in by (by apply elem_of_log_add, elem_of_log_add); lia|].
      pose proof (log_add_length a bs1). lia.
  - cbn [Z.eqb negb]. destruct (tx_brelse dev ls o k2 me pid bs [] f i a T2) as (k3 & E3 & T3 & F3). simpl.
    eapply wp_bind_run; [exact E3|]. simpl. exists bs, f, x. assert (F' : tx_frame k k3) by eauto using tx_frame_trans.
    split; [by eapply fs_at_step|]. split; [by eapply tx_ip_frame|]. split; [apply extends_refl|].
    do 3 (split; [done|]). split; [done|]. lia.
Qed.

(** The part of bmap() that looks an entry of the indirect block up, or fills it in. *)
Lemma bmap_entry k bs f x bn :
  fs_at k bs [] f x -> NDIRECT <= bn < MAXFILE -> slot f x MAXFILE <> 0 -> Z.of_nat (length bs) + 2 < LOGSIZE - 1 ->
  wp env ((let! bp := bread dev (slot f x MAXFILE) in
    let! d := get_data bp in
    let! addr := need "a[]" (getn 4 (Z.to_nat (4 * (bn - NDIRECT))) d) in
    let! addr :=
      (if addr =? 0 then
         let! addr := balloc dev in
         if negb (addr =? 0) then
           let! d := get_data bp in
           let! d := need "a[]" (putn 4 (Z.to_nat (4 * (bn - NDIRECT))) addr d) in
           do! set_data bp d;
           do! log_write bp;
           ret addr
         else ret addr
       else ret addr) in
    do! brelse bp;
    ret addr) k) (bmap_post (if decide (slot f x MAXFILE ∈ bs) then 2 else 3) k bs f x bn).
Proof.
  intros A Hbn Hind Hn. pose proof A as [T Hsb Hcp Hbm Hip Hfo]. set (a := slot f x MAXFILE) in *.
  assert (Hmx : 0 <= MAXFILE <= MAXFILE) by (by vm_compute). assert (Hb0 : 0 <= bn <= MAXFILE) by (change NDIRECT with 12 in *; lia).
  pose proof (fo_data _ _ Hfo MAXFILE Hmx Hind) as D. fold a in D. pose proof (bm_size _ _ _ Hbm) as Hs.
  assert (Hoff : (Z.to_nat (4 * (bn - NDIRECT)) + 4 <= length (f a))%nat).
  { rewrite (db_len _ _ D), MAXFILE_eq in *. change NDIRECT with 12 in *. change BSIZE with 1024. lia. }
  assert (Hnb : (length bs + 2 < Z.to_nat NBUF)%nat) by (change NBUF with 30; unfold LOGSIZE, MAXOPBLOCKS in Hn; lia).
  apply wp_bind. eapply wp_mono; [apply (tx_bread dev ls o k me pid bs [] f a T (not_elem_of_nil _)); [simpl; lia|pose proof (db_range _ _ D); lia]|]. intros i k1 [T1 F1].
  assert (Hin : (i, a) ∈ [(i, a)]) by apply list_elem_of_here.
  eapply wp_bind_run; [by eapply tx_get_data|].
  destruct (getn_ok 4 _ _ Hoff) as [v Ev]. rewrite Ev. eapply wp_bind_run; [done|].
  assert (Hv : v = slot f x bn).
  { rewrite slot_ind by done. fold a. rewrite (proj2 (Z.eqb_neq a 0)), Ev by done. done. }
  subst v. destruct (Z.eqb_spec (slot f x bn) 0) as [E|Hne].
  - apply wp_bind. apply wp_bind. eapply wp_mono; [apply (balloc_spec dev ls o sb Ho k1 me pid bs [(i, a)] f T1)|].
    + by rewrite (tx_frame_sb _ _ F1).
    + by eapply can_print_frame.
    + done.
    + intros b Hb. split; simpl; rewrite list_elem_of_singleton; [intros E'; by apply (db_map _ _ D b)|].
      intros Hu ->. by eapply data_block_not_free.
    + lia.
    + simpl. lia.
    + intros r k2 (F2 & Hcase). apply (bmap_entry_end k k2 bs f x bn i r A Hbn Hind Hn E).
      * by eapply tx_frame_trans.
      * done.
  - eapply wp_bind_run; [done|]. destruct (tx_brelse dev ls o k1 me pid bs [] f i a T1) as (k2 & E2 & T2 & F2).
    eapply wp_bind_run; [exact E2|]. simpl. exists bs, f, x. assert (F : tx_frame k k2) by eauto using tx_frame_trans.
    split; [by eapply fs_at_step|]. split; [by eapply tx_ip_frame|]. split; [apply extends_refl|].
    do 3 (split; [done|]). split; [done|]. lia.
Qed.

Lemma bmap_post_grown n k k1 k2 bs bs1 f x f1 x1 bn r a :
  0 <= bn < MAXFILE -> slot f x bn = 0 -> fs_at k1 bs1 [] f1 x1 -> ip_frame k k1 -> (length bs1 <= length bs + 2)%nat ->
  grown f x f1 x1 MAXFILE a -> bmap_post n k1 bs1 f1 x1 bn r k2 -> bmap_post (n + 2) k bs f x bn r k2.
Proof.
  intros Hbn E A1 F1 Hl G (bs' & f' & x' & A' & F' & X & O & Ea & H0 & _ & Hl'). exists bs', f', x'.
  split; [done|]. split; [by eapply ip_frame_trans|].
  split; [eapply extends_trans; [apply A1|eapply grown_extends; [|exact G]; by vm_compute|done]|].
  split; [|split; [done|split; [done|split; [done|lia]]]].
  intros m Hm Hne. rewrite (O m Hm Hne), (gr_slot _ _ _ _ _ _ G), decide_False; [done|lia|lia].
Qed.

Lemma bmap_spec k bs f x bn :
  fs_at k bs [] f x -> 0 <= bn < MAXFILE -> Z.of_nat (length bs) + 4 < LOGSIZE - 1 ->
  wp env (bmap ip bn k) (bmap_post 4 k bs f x bn).
Proof.
  intros A Hbn Hn. destruct (Z.lt_ge_cases bn NDIRECT) as [Hlt|Hge].
  { eapply wp_mono; [apply (bmap_direct k bs f x bn A); lia|]. intros a k' (bs' & f' & x' & ?). exists bs', f', x'. naive_solver lia. }
  pose proof A as [T Hsb Hcp Hbm Hip Hfo]. pose proof (fo_len _ _ Hfo) as Hlen.
  unfold bmap. eapply wp_bind_run; [by apply get_inode_run|]. rewrite (proj2 (Z.ltb_ge bn NDIRECT)), (fo_dev _ _ Hfo) by lia.
  rewrite (proj2 (Z.ltb_lt (bn - NDIRECT) NINDIRECT)) by (unfold MAXFILE in Hbn; lia).
  eapply wp_bind_run; [apply (addr_get_run k f x NDIRECT Hip Hlen); by vm_compute|].
  change (addr_slot NDIRECT) with MAXFILE. destruct (Z.eqb_spec (slot f x MAXFILE) 0) as [E|Hne].
  - assert (E0 : slot f x bn = 0) by (rewrite slot_ind, E by lia; done).
    apply wp_bind. eapply wp_mono; [apply (alloc_addr k bs f x NDIRECT A); [by vm_compute|done|lia]|].
    intros a k1 (bs1 & f1 & x1 & A1 & F1 & Hl1 & [(-> & -> & -> & -> & Hall)|(Ha & Hin & G)]).
    + simpl. exists bs, f, x. split; [done|]. split; [done|]. split; [apply extends_refl|]. do 3 (split; [done|]). split; [done|lia].
    + rewrite (proj2 (Z.eqb_neq a 0)) by done. change (addr_slot NDIRECT) with MAXFILE in G.
      assert (Ea : slot f1 x1 MAXFILE = a) by (rewrite (gr_slot _ _ _ _ _ _ G), decide_True; [done|done|by vm_compute]).
      rewrite <- Ea. eapply wp_mono; [apply (bmap_entry k1 bs1 f1 x1 bn A1); [lia|by rewrite Ea|lia]|].
      intros r k2 Hp. rewrite Ea, decide_True in Hp by done. change 4%nat with (2 + 2)%nat. by eapply bmap_post_grown.
  - eapply wp_bind_run; [done|]. rewrite (proj2 (Z.eqb_neq _ _)) by done.
    eapply wp_mono; [apply (bmap_entry k bs f x bn A); [lia|done|lia]|].
    intros a k' (bs' & f' & x' & A' & F' & X & O & Ea & H0 & Hs & Hl). exists bs', f', x'.
    do 7 (split; [done|]). case_decide; lia.
Qed.
End File.
