(* ===== verification/FsRw.v ===== *)
(** Reading and writing files (kernel/fs.c: readi(), writei(), iupdate()): a file is a sequence of bytes. *)

From Stdlib Require Import ZArith Lia.
From stdpp Require Import base gmap list_numbers strings numbers functions list.
From S2P Require Import Prelude Mem Bytes Riscv Kernel Spinlock Kalloc Vm Printf PrintfSpec Sched SchedSpec Thread.
From S2P Require Import Sleeplock SleeplockSpec Virtio Bio BioSpec BioInv VirtioSpec BioProps Log LogSpec LogCrash LogTxn Fs FsTx FsAlloc FsFile.

Open Scope Z_scope.

Implicit Types (k : kernel).

(** * The bytes of a file *)

(** The byte at offset [i]; [None] where the file has no block. *)
Definition byte_at (f : Z -> list Z) (x : inode) (i : Z) : option Z :=
  let a := slot f x (i / BSIZE) in
  if a =? 0 then None else f a !! Z.to_nat (i mod BSIZE).

(** The file holds [data] from offset [off] on. *)
Definition holds (f : Z -> list Z) (x : inode) (off : Z) (data : list Z) : Prop :=
  forall i b, data !! i = Some b -> byte_at f x (off + Z.of_nat i) = Some b.

(** Every block below the size of the file exists. *)
Record no_holes (f : Z -> list Z) (x : inode) : Prop := {
  nh_size : 0 <= i_size x <= MAXFILE * BSIZE;
  nh_slot : forall n, 0 <= n -> n * BSIZE < i_size x -> slot f x n <> 0;
}.

Lemma div_lt_maxfile off n : off < n -> n <= MAXFILE * BSIZE -> off / BSIZE < MAXFILE.
Proof. intros. apply Z.div_lt_upper_bound; [by vm_compute|]. rewrite Z.mul_comm. lia. Qed.

Lemma holds_app f x off d1 d2 : holds f x off d1 -> holds f x (off + Z.of_nat (length d1)) d2 -> holds f x off (d1 ++ d2).
Proof.
  intros H1 H2 i b E. apply lookup_app_Some in E as [E|[Hi E]]; [by apply H1|].
  specialize (H2 _ _ E). rewrite <- H2. f_equal. lia.
Qed.

(** A piece of one block. *)
Lemma holds_block f x off m : 0 <= off -> slot f x (off / BSIZE) <> 0 -> off mod BSIZE + m <= BSIZE ->
  holds f x off (take (Z.to_nat m) (drop (Z.to_nat (off mod BSIZE)) (f (slot f x (off / BSIZE))))).
Proof.
  intros Hoff Hs Hm i b E. assert (Hb : 0 < BSIZE) by (by vm_compute). pose proof (Z.mod_pos_bound off BSIZE Hb) as Hmod.
  assert (Hi : (i < Z.to_nat m)%nat) by (apply lookup_lt_Some in E; rewrite length_take in E; lia).
  rewrite lookup_take_lt, lookup_drop in E by done.
  assert (Hd : (off + Z.of_nat i) / BSIZE = off / BSIZE /\ (off + Z.of_nat i) mod BSIZE = off mod BSIZE + Z.of_nat i).
  { pose proof (Z.div_mod off BSIZE ltac:(lia)) as Ed. split; symmetry.
    - apply (Z.div_unique _ _ _ (off mod BSIZE + Z.of_nat i)); lia.
    - apply (Z.mod_unique _ _ (off / BSIZE)); lia. }
  destruct Hd as [Ed Em]. unfold byte_at. rewrite Ed, Em, (proj2 (Z.eqb_neq _ _)) by done. rewrite <- E. f_equal. lia.
Qed.

(** * bmap() of a block that exists, and readi() *)

Section Read.
Context (dev ls o : Z) (sb : superblock) (me : nat) (pid : Z) (ip : nat).
Context {LS : LinkerSymbols} {BD : BlockDevice} {env : kernel -> kernel -> Prop} {DL : DiskLaws env}.

Lemma bmap_lookup k bs f x bn :
  fs_at dev ls o sb me pid ip k bs [] f x -> 0 <= bn < MAXFILE -> slot f x bn <> 0 -> (length bs < Z.to_nat NBUF)%nat ->
  wp env (bmap ip bn k) (fun a k' => a = slot f x bn /\ fs_at dev ls o sb me pid ip k' bs [] f x /\ tx_frame k k').
Proof.
  intros A Hbn Hs Hn. pose proof A as [T Hsb Hcp Hbm Hip Hfo]. pose proof (fo_len _ _ _ _ _ Hfo) as Hlen.
  unfold bmap. eapply wp_bind_run; [by apply get_inode_run|]. rewrite (fo_dev _ _ _ _ _ Hfo).
  destruct (Z.ltb_spec bn NDIRECT) as [Hlt|Hge].
  - eapply wp_bind_run; [apply (addr_get_run ip k f x bn Hip Hlen); lia|].
    unfold addr_slot. rewrite (proj2 (Z.eqb_neq bn NDIRECT)), (proj2 (Z.eqb_neq _ _) Hs) by lia.
    split; [done|]. split; [done|apply tx_frame_refl].
  - rewrite (proj2 (Z.ltb_lt (bn - NDIRECT) NINDIRECT)) by (unfold MAXFILE in Hbn; lia).
    eapply wp_bind_run; [apply (addr_get_run ip k f x NDIRECT Hip Hlen); by vm_compute|]. change (addr_slot NDIRECT) with MAXFILE.
    rewrite (slot_ind f x bn) in Hs |- * by lia. destruct (Z.eqb_spec (slot f x MAXFILE) 0) as [|Hi]; [done|].
    eapply wp_bind_run; [done|]. rewrite (proj2 (Z.eqb_neq _ _) Hi).
    pose proof (db_range _ _ _ _ (fo_data _ _ _ _ _ Hfo MAXFILE ltac:(by vm_compute) Hi)) as Hdb. pose proof (bm_size _ _ _ Hbm) as Hbs.
    apply wp_bind. eapply wp_mono; [apply (tx_bread dev ls o k me pid bs [] f _ T (not_elem_of_nil _)); [simpl; lia|lia]|]. intros i k1 [T1 F1].
    eapply wp_bind_run; [eapply tx_get_data; [exact T1|apply list_elem_of_here]|].
    destruct (getn _ _ _) as [v|] eqn:Ev; [|done]. eapply wp_bind_run; [done|]. simpl in Hs. rewrite (proj2 (Z.eqb_neq v 0) Hs).
    eapply wp_bind_run; [done|]. destruct (tx_brelse dev ls o k1 me pid bs [] f i _ T1) as (k2 & E2 & T2 & F2).
    eapply wp_bind_run; [exact E2|]. split; [done|]. assert (F : tx_frame k k2) by eauto using tx_frame_trans.
    split; [by eapply fs_at_step|done].
Qed.

Lemma tx_relax k bs H f : tx dev ls o k me pid bs H f -> tx dev ls o (relax k) me pid bs H f.
Proof. intros T. rewrite <- (emit_nil (relax k)). by apply tx_emit. Qed.

Lemma relax_tx_frame k : tx_frame k (relax k).
Proof. rewrite <- (emit_nil (relax k)). apply emit_tx_frame. Qed.

(** Copies to and from variables of the kernel. *)
Lemma copyout_var k bs H f src len : tx dev ls o k me pid bs H f -> either_copyout ToVar src len k = Ret 0 (relax k).
Proof.
  intros T. destruct (ru_cpu _ _ _ (th_run _ _ _ (bi_thread _ _ _ _ _ _ (tx_bio _ _ _ _ _ _ _ _ _ T)))) as (i & c & OC & _).
  unfold either_copyout. by rewrite (bind_run _ _ _ _ _ (myproc_run _ _ _ OC)).
Qed.

Lemma copyin_var k bs H f data len : tx dev ls o k me pid bs H f ->
  either_copyin (FromVar data) len k = Ret (0, take (Z.to_nat len) data) (relax k).
Proof.
  intros T. destruct (ru_cpu _ _ _ (th_run _ _ _ (bi_thread _ _ _ _ _ _ (tx_bio _ _ _ _ _ _ _ _ _ T)))) as (i & c & OC & _).
  unfold either_copyin. by rewrite (bind_run _ _ _ _ _ (myproc_run _ _ _ OC)).
Qed.

(** Enough rounds for the blocks of [rem] bytes from offset [off] on. *)
Definition rounds (fuel : nat) (off rem : Z) : Prop :=
  (0 < fuel)%nat /\ (0 < rem -> off mod BSIZE + rem <= BSIZE * (Z.of_nat fuel - 1)).

Lemma rounds_init off n : 0 <= n -> rounds (S (S (Z.to_nat (n / BSIZE + 1)))) off n.
Proof.
  intros Hn. assert (Hb : 0 < BSIZE) by (by vm_compute). pose proof (Z.mod_pos_bound off BSIZE Hb).
  pose proof (Z.div_mod n BSIZE ltac:(lia)). pose proof (Z.mod_pos_bound n BSIZE Hb).
  assert (0 <= n / BSIZE) by (apply Z.div_pos; lia). split; [lia|]. intros _.
  rewrite !Nat2Z.inj_succ, Z2Nat.id by lia. unfold BSIZE in *. lia.
Qed.

(** One round copies [m] bytes, up to the end of the block or of the request. *)
Lemma rounds_step fuel off rem : 0 <= off -> rounds (S fuel) off rem -> 0 < rem ->
  let m := Z.min rem (BSIZE - off mod BSIZE) in 0 < m <= rem /\ off mod BSIZE + m <= BSIZE /\ rounds fuel (off + m) (rem - m).
Proof.
  intros Hoff [_ Hr] Hpos m. specialize (Hr Hpos). unfold BSIZE in *.
  pose proof (Z.mod_pos_bound off 1024 ltac:(lia)) as Hmod. assert (Hm : 0 < m <= rem) by (unfold m; lia).
  split; [done|]. split; [unfold m; lia|]. split; [lia|]. unfold BSIZE. intros Hrem.
  assert (m = 1024 - off mod 1024) as Em by (unfold m in *; lia).
  assert ((off + m) mod 1024 = 0) as ->; [|lia].
  pose proof (Z.div_mod off 1024 ltac:(lia)). replace (off + m) with ((off / 1024 + 1) * 1024) by lia.
  apply Z.mod_mul. lia.
Qed.

Lemma readi_loop_spec k0 bs f x off0 n :
  no_holes f x -> 0 <= off0 -> off0 + n <= i_size x -> (length bs < Z.to_nat NBUF)%nat ->
  forall fuel k tot got, fs_at dev ls o sb me pid ip k bs [] f x -> tx_frame k0 k -> 0 <= tot <= n -> rounds fuel (off0 + tot) (n - tot) ->
  Z.of_nat (length got) = tot -> holds f x off0 got ->
  wp env (readi_loop fuel ip ToVar (off0 + tot) n tot got k) (fun r k' =>
    fs_at dev ls o sb me pid ip k' bs [] f x /\ tx_frame k0 k' /\
    exists got', r = (n, got') /\ Z.of_nat (length got') = n /\ holds f x off0 got').
Proof.
  intros Hh Hoff Hend Hnb. induction fuel as [|fuel IH]; intros k tot got A F Htot Hf Hlen Hgot; [by destruct Hf; lia|].
  cbn [readi_loop]. destruct (Z.ltb_spec tot n) as [Hlt|Hge].
  - destruct (rounds_step fuel (off0 + tot) (n - tot) ltac:(lia) Hf ltac:(lia)) as (Hm & Hmb & Hf'). set (m := Z.min _ _) in *.
    assert (Hb : 0 < BSIZE) by (by vm_compute). set (off := off0 + tot) in *.
    pose proof (Z.mod_pos_bound off BSIZE Hb) as Hmod. pose proof (Z.div_mod off BSIZE ltac:(lia)) as Hdm.
    assert (Hd0 : 0 <= off / BSIZE) by (apply Z.div_pos; lia).
    destruct Hh as [Hsz Hslot]. assert (Hs : slot f x (off / BSIZE) <> 0) by (apply Hslot; lia).
    assert (Hbn : 0 <= off / BSIZE < MAXFILE) by (split; [done|apply (div_lt_maxfile _ (i_size x)); lia]).
    apply wp_bind. eapply wp_mono; [by apply (bmap_lookup k bs f x _ A Hbn Hs)|]. intros a k1 (-> & A1 & F1).
    rewrite (proj2 (Z.eqb_neq _ _) Hs). eapply wp_bind_run; [by apply get_inode_run, A1|]. pose proof A1 as [T1 _ _ Hbm _ Hfo].
    pose proof (db_range _ _ _ _ (fo_data _ _ _ _ _ Hfo (off / BSIZE) ltac:(lia) Hs)) as Hdb. pose proof (bm_size _ _ _ Hbm) as Hbs.
    rewrite (fo_dev _ _ _ _ _ Hfo). apply wp_bind.
    eapply wp_mono; [apply (tx_bread dev ls o k1 me pid bs [] f _ T1 (not_elem_of_nil _)); [simpl; lia|lia]|]. intros i k2 [T2 F2].
    eapply wp_bind_run; [eapply tx_get_data; [exact T2|apply list_elem_of_here]|].
    eapply wp_bind_run; [by eapply copyout_var|]. change (0 =? -1) with false. cbn iota.
    destruct (tx_brelse dev ls o (relax k2) me pid bs [] f i _ (tx_relax _ _ _ _ T2)) as (k3 & E3 & T3 & F3).
    eapply wp_bind_run; [exact E3|].
    assert (F13 : tx_frame k1 k3) by eauto using tx_frame_trans, relax_tx_frame.
    pose proof (fo_data _ _ _ _ _ Hfo (off / BSIZE) ltac:(lia) Hs) as D.
    rewrite u32_small by (rewrite MAXFILE_eq in Hsz; change BSIZE with 1024 in Hsz; lia).
    replace (off + m) with (off0 + (tot + m)) in Hf' |- * by lia. cbn [dest_add].
    assert (Hl : length (take (Z.to_nat m) (drop (Z.to_nat (off mod BSIZE)) (f (slot f x (off / BSIZE))))) = Z.to_nat m).
    { rewrite length_take, length_drop, (db_len _ _ _ _ D). lia. }
    apply IH.
    + by eapply fs_at_step.
    + eauto using tx_frame_trans.
    + lia.
    + by replace (n - (tot + m)) with (n - tot - m) by lia.
    + rewrite length_app, Hl. lia.
    + apply holds_app; [done|]. rewrite Hlen. by apply holds_block; [lia| |].
  - simpl. split; [done|]. split; [done|]. exists got. assert (tot = n) by lia. by subst.
Qed.

(** The number of bytes that a read of [n] bytes at [off] gives. *)
Definition readable (x : inode) (off n : Z) : Z :=
  if decide (off <= i_size x /\ off + n < 2 ^ 32) then Z.min n (i_size x - off) else 0.

Lemma readi_spec k bs f x off n :
  fs_at dev ls o sb me pid ip k bs [] f x -> no_holes f x -> 0 <= off < 2 ^ 32 -> 0 <= n < 2 ^ 32 -> (length bs < Z.to_nat NBUF)%nat ->
  wp env (readi ip ToVar off n k) (fun r k' => fs_at dev ls o sb me pid ip k' bs [] f x /\ tx_frame k k' /\
    exists got, r = (readable x off n, got) /\ Z.of_nat (length got) = readable x off n /\ holds f x off got).
Proof.
  intros A Hh Hoff Hn Hnb. pose proof (nh_size _ _ Hh) as Hsz. rewrite MAXFILE_eq in Hsz. change BSIZE with 1024 in Hsz.
  unfold readi. eapply wp_bind_run; [by apply get_inode_run, A|]. unfold readable.
  destruct (Z.ltb_spec (i_size x) off) as [Hlt|Hle]; cbn [orb].
  - rewrite decide_False by lia. split; [done|]. split; [apply tx_frame_refl|]. by exists [].
  - destruct (Z.lt_ge_cases (off + n) (2 ^ 32)) as [Hov|Hov].
    + rewrite u32_small by lia. rewrite (proj2 (Z.ltb_ge (off + n) off)) by lia. rewrite decide_True by lia.
      assert (En : (if i_size x <? off + n then u32 (i_size x - off) else n) = Z.min n (i_size x - off)).
      { destruct (Z.ltb_spec (i_size x) (off + n)); [rewrite u32_small by lia|]; lia. }
      cbv zeta. rewrite En. set (len := Z.min n (i_size x - off)).
      pose proof (readi_loop_spec k bs f x off len Hh ltac:(lia) ltac:(lia) Hnb) as Hl.
      specialize (Hl (S (S (Z.to_nat (len / BSIZE + 1)))) k 0 [] A (tx_frame_refl k) ltac:(lia)).
      rewrite Z.add_0_r, Z.sub_0_r in Hl. apply Hl; [apply rounds_init; lia|done|]. intros i b Ei. done.
    + assert (u32 (off + n) = off + n - 2 ^ 32) as -> by (unfold u32; symmetry; apply (Z.mod_unique _ _ 1); lia).
      rewrite (proj2 (Z.ltb_lt _ _)) by lia. rewrite decide_False by lia. split; [done|]. split; [apply tx_frame_refl|]. by exists [].
Qed.
End Read.

(** * iupdate() *)

Lemma mjoin_words l : mjoin (le_bytes 4 <$> l) = words l.
Proof. unfold words. induction (le_bytes 4 <$> l) as [|a l' IH]; [done|]. simpl. by rewrite IH. Qed.

(** The bytes of an inode on the disk. *)
Definition dinode_image (x : inode) : list Z :=
  dinode_bytes (mkDinode (i_type x) (i_major x) (i_minor x) (i_nlink x) (i_size x) (i_addrs x)).

Lemma dinode_image_length x : length (i_addrs x) = 13%nat -> length (dinode_image x) = Z.to_nat dinode_size.
Proof.
  intros Hl. unfold dinode_image, dinode_bytes. rewrite !length_app, !le_bytes_length. cbn [di_addrs].
  rewrite mjoin_words, words_length, Hl. done.
Qed.

Section Write.
Context (dev ls o : Z) (sb : superblock) (Ho : 1 <= o) (me : nat) (pid : Z) (ip : nat).
Context {LS : LinkerSymbols} {BD : BlockDevice} {env : kernel -> kernel -> Prop} {DL : DiskLaws env}.

Lemma slot_upd f x z d n : z <> slot f x MAXFILE -> slot (upd f z d) x n = slot f x n.
Proof.
  intros Hz. change (slot f x MAXFILE) with (default 0 (i_addrs x !! Z.to_nat NDIRECT)) in Hz.
  unfold slot, upd. destruct (n <? NDIRECT); [done|]. destruct (n =? MAXFILE); [done|].
  by rewrite (decide_False (P := _ = z)).
Qed.

(** New contents of a block that is neither of the bitmap nor the file's indirect block. *)
Lemma file_ok_upd f x z d : file_ok dev ls sb f x -> z <> slot f x MAXFILE ->
  (forall c, 0 <= c < sb_size sb -> z <> BBLOCK c sb) -> length d = Z.to_nat BSIZE -> file_ok dev ls sb (upd f z d) x.
Proof.
  intros [H1 H2 H3 H4] Hz Hb Hd. split; try done.
  - intros n Hn. rewrite slot_upd by done. intros Hne. destruct (H3 n Hn Hne) as [K1 K2 K3 K4 K5]. split; try done.
    + by rewrite used_upd by (by apply Hb; lia).
    + unfold upd. by case_decide.
  - intros n m Hn Hm. rewrite !slot_upd by done. by apply H4.
Qed.

(** The block of the inode: a block in use that is not one of the file's. *)
Record inode_block (f : Z -> list Z) (x : inode) : Prop := {
  ib_data : data_block ls sb f (IBLOCK (i_inum x) sb);
  ib_own : forall n, 0 <= n <= MAXFILE -> slot f x n <> IBLOCK (i_inum x) sb;
  ib_inum : 0 <= i_inum x;
}.

Lemma dinode_off_le inum : 0 <= inum -> (dinode_off inum + Z.to_nat dinode_size <= Z.to_nat BSIZE)%nat.
Proof.
  intros Hi. unfold dinode_off. change IPB with 16. change dinode_size with 64. change BSIZE with 1024.
  pose proof (Z.mod_pos_bound inum 16 ltac:(lia)). lia.
Qed.

Lemma iupdate_spec k bs f x :
  fs_at dev ls o sb me pid ip k bs [] f x -> inode_block f x -> Z.of_nat (length bs) < LOGSIZE - 1 ->
  wp env (iupdate ip k) (fun _ k' => exists d', put_bytes (dinode_off (i_inum x)) (dinode_image x) (f (IBLOCK (i_inum x) sb)) = Some d' /\
    fs_at dev ls o sb me pid ip k' (log_add (IBLOCK (i_inum x) sb) bs) [] (upd f (IBLOCK (i_inum x) sb) d') x /\ tx_frame k k').
Proof.
  intros A [D Hown Hinum] Hn. pose proof A as [T Hsb Hcp Hbm Hip Hfo]. set (ib := IBLOCK (i_inum x) sb) in *.
  assert (Hmx : 0 <= MAXFILE <= MAXFILE) by (by vm_compute).
  unfold iupdate. eapply wp_bind_run; [by apply get_inode_run|]. eapply wp_bind_run; [done|].
  rewrite Hsb, (fo_dev _ _ _ _ _ Hfo). fold ib. apply wp_bind.
  eapply wp_mono; [apply (tx_bread dev ls o k me pid bs [] f ib T (not_elem_of_nil _)); [change NBUF with 30; unfold LOGSIZE, MAXOPBLOCKS in Hn; simpl; lia|pose proof (db_range _ _ _ _ D); pose proof (bm_size _ _ _ Hbm); lia]|].
  intros i k1 [T1 F1]. assert (Hin : (i, ib) ∈ [(i, ib)]) by apply list_elem_of_here.
  eapply wp_bind_run; [by eapply tx_get_data|].
  eapply wp_bind_run; [apply get_inode_run; by rewrite (tx_frame_itable _ _ F1)|].
  change (dinode_bytes _) with (dinode_image x).
  assert (exists d', put_bytes (dinode_off (i_inum x)) (dinode_image x) (f ib) = Some d') as [d' Ed].
  { unfold put_bytes. rewrite dinode_image_length, (db_len _ _ _ _ D) by apply Hfo.
    rewrite (proj2 (Nat.leb_le _ _) (dinode_off_le _ Hinum)). by eexists. }
  rewrite Ed. eapply wp_bind_run; [done|].
  apply (tx_log_data dev ls o k1 me pid bs _ f i ib d' _ _ Ho T1 Hin); [pose proof (bm_size _ _ _ Hbm); destruct D; lia|apply D|done|].
  intros k2 T2 F2. destruct (tx_brelse dev ls o k2 me pid _ [] _ i ib T2) as (k3 & E3 & T3 & F3). rewrite E3. simpl.
  assert (F : tx_frame k k3) by eauto using tx_frame_trans. exists d'. split; [done|]. split; [|done].
  eapply (fs_at_step dev ls o sb me pid ip k); try done.
  - apply bitmap_ok_upd; [done|apply D].
  - apply file_ok_upd; [done|intros E; by apply (Hown MAXFILE)|apply D|].
    rewrite (proj1 (put_bytes_lookup _ _ _ _ Ed)). apply D.
Qed.

(** * writei() *)

(** What a write has done so far: between [(f0, x0)] and [(f, x)] the bytes from [off] to [off + tot] may
    have changed, to [data]; the other bytes of the file, its blocks, and the blocks in use outside the file and
    the bitmap are as before; the blocks that the file has got were free. *)
Record written (f0 : Z -> list Z) (x0 : inode) (f : Z -> list Z) (x : inode) (off tot : Z) (data : list Z) : Prop := {
  wr_keep : forall i b, 0 <= i < MAXFILE * BSIZE -> byte_at f0 x0 i = Some b -> ~ off <= i < off + tot -> byte_at f x i = Some b;
  wr_data : holds f x off (take (Z.to_nat tot) data);
  wr_slot : forall m, 0 <= m <= MAXFILE -> slot f0 x0 m <> 0 -> slot f x m = slot f0 x0 m;
  wr_new : forall m, 0 <= m <= MAXFILE -> slot f0 x0 m = 0 -> slot f x m <> 0 -> used sb f0 (slot f x m) = false;
  wr_used : forall c, 0 <= c < sb_size sb -> used sb f0 c = true -> used sb f c = true;
  wr_other : forall z, 0 < z < sb_size sb -> used sb f0 z = true -> (forall c, 0 <= c < sb_size sb -> z <> BBLOCK c sb) ->
    (forall m, 0 <= m <= MAXFILE -> slot f0 x0 m <> z) -> f z = f0 z;
  wr_meta : exists l, x = set_i_addrs l x0;
}.

Lemma byte_at_Some f x i b : byte_at f x i = Some b -> slot f x (i / BSIZE) <> 0 /\ f (slot f x (i / BSIZE)) !! Z.to_nat (i mod BSIZE) = Some b.
Proof. unfold byte_at. destruct (Z.eqb_spec (slot f x (i / BSIZE)) 0); done. Qed.

Lemma off_block i : 0 <= i < MAXFILE * BSIZE -> 0 <= i / BSIZE < MAXFILE.
Proof. intros Hi. split; [apply Z.div_pos; [lia|by vm_compute]|by eapply div_lt_maxfile; [apply Hi|]]. Qed.

Lemma byte_at_extends f x f' x' i b : file_ok dev ls sb f x -> extends sb f x f' x' -> 0 <= i < MAXFILE * BSIZE ->
  byte_at f x i = Some b -> byte_at f' x' i = Some b.
Proof.
  intros Hfo [X1 _ _ X4 _] Hi Hb. apply off_block in Hi. apply byte_at_Some in Hb as [Hne Hl]. unfold byte_at.
  rewrite X1, (proj2 (Z.eqb_neq _ _) Hne) by (done || lia). destruct (fo_data _ _ _ _ _ Hfo (i / BSIZE) ltac:(lia) Hne) as [D1 D2 D3 D4 D5].
  rewrite X4; try done. intros E. assert (i / BSIZE = MAXFILE) by (apply (fo_inj _ _ _ _ _ Hfo); [lia|by vm_compute|done|done]). lia.
Qed.

(** bmap() in the middle of a write. *)
Lemma written_extends f0 x0 f x f' x' off tot data :
  0 <= off -> off + tot <= MAXFILE * BSIZE ->
  file_ok dev ls sb f x -> extends sb f x f' x' -> written f0 x0 f x off tot data -> written f0 x0 f' x' off tot data.
Proof.
  intros Hoff Hend Hfo X [W1 W2 W3 W4 W5 W6 [l W7]]. pose proof X as [X1 X2 X3 X4 [l' X5]]. split.
  - intros i b Hi Hb Hn. eapply byte_at_extends; try done. by apply W1.
  - intros i b E. apply (byte_at_extends f x); try done; [|by apply W2].
    apply lookup_lt_Some in E. rewrite length_take in E. lia.
  - intros m Hm Hne. rewrite X1; [by apply W3|done|by rewrite W3].
  - intros m Hm He Hne. destruct (decide (slot f x m = 0)) as [E|Hne'].
    + destruct (X2 m Hm E Hne) as (Hr & Hu & _). destruct (used sb f0 (slot f' x' m)) eqn:Eu; [|done].
      rewrite W5 in Hu; [done|lia|done].
    + rewrite X1 by done. by apply W4.
  - intros c Hc Hu. by apply X3, W5.
  - intros z Hz Hu Hb Hm. rewrite X4; [by apply W6|done|apply W5; [lia|done]|done|]. intros ->.
    assert (Hmx : 0 <= MAXFILE <= MAXFILE) by (by vm_compute). destruct (decide (slot f0 x0 MAXFILE = 0)) as [E|Hne].
    + rewrite (W4 MAXFILE Hmx E) in Hu by lia. done.
    + apply (Hm MAXFILE Hmx). by rewrite W3.
  - exists l'. by rewrite X5, W7.
Qed.

(** A store of [chunk] at offset [p] of the file, inside one block. *)
Lemma byte_at_put f x p chunk d' i :
  (forall n m, 0 <= n <= MAXFILE -> 0 <= m <= MAXFILE -> slot f x n <> 0 -> slot f x n = slot f x m -> n = m) ->
  0 <= p < MAXFILE * BSIZE -> slot f x (p / BSIZE) <> 0 ->
  p mod BSIZE + Z.of_nat (length chunk) <= BSIZE ->
  put_bytes (Z.to_nat (p mod BSIZE)) chunk (f (slot f x (p / BSIZE))) = Some d' -> 0 <= i < MAXFILE * BSIZE ->
  byte_at (upd f (slot f x (p / BSIZE)) d') x i =
    if decide (p <= i < p + Z.of_nat (length chunk)) then chunk !! Z.to_nat (i - p) else byte_at f x i.
Proof.
  intros Hinj Hp Hs Hm Ed Hi. pose proof (off_block p Hp) as Hpb. pose proof (off_block i Hi) as Hib.
  assert (Hb : 0 < BSIZE) by (by vm_compute). set (a := slot f x (p / BSIZE)) in *.
  assert (Hind : a <> slot f x MAXFILE).
  { intros E. assert (p / BSIZE = MAXFILE) by (apply Hinj; [lia|by vm_compute|done|done]). lia. }
  destruct (put_bytes_lookup _ _ _ _ Ed) as [Hlen Hl].
  pose proof (Z.div_mod p BSIZE ltac:(lia)) as Dp. pose proof (Z.div_mod i BSIZE ltac:(lia)) as Di.
  pose proof (Z.mod_pos_bound p BSIZE Hb) as Mp. pose proof (Z.mod_pos_bound i BSIZE Hb) as Mi.
  unfold byte_at. rewrite slot_upd by done. destruct (decide (i / BSIZE = p / BSIZE)) as [E|Hne].
  - rewrite E. fold a. rewrite (proj2 (Z.eqb_neq a 0) Hs). unfold upd. rewrite (decide_True (P := a = a)) by done. rewrite Hl.
    rewrite E in Di. destruct (decide (p <= i < p + Z.of_nat (length chunk))) as [Hin|Hout].
    + rewrite decide_True by lia. f_equal. lia.
    + rewrite decide_False by lia. done.
  - rewrite decide_False.
    + destruct (Z.eqb_spec (slot f x (i / BSIZE)) 0) as [|Hsi]; [done|]. unfold upd. rewrite decide_False; [done|].
      intros E. apply Hne. apply Hinj; [lia|lia|done|done].
    + intros Hin. apply Hne. unfold BSIZE in *. lia.
Qed.

Lemma written_put f0 x0 f x off tot data m d' :
  0 <= off -> 0 <= tot -> 0 < m -> off + tot + m <= MAXFILE * BSIZE -> Z.of_nat (length data) >= tot + m ->
  file_ok dev ls sb f x -> slot f x ((off + tot) / BSIZE) <> 0 -> (off + tot) mod BSIZE + m <= BSIZE ->
  put_bytes (Z.to_nat ((off + tot) mod BSIZE)) (take (Z.to_nat m) (drop (Z.to_nat tot) data)) (f (slot f x ((off + tot) / BSIZE))) = Some d' ->
  written f0 x0 f x off tot data -> written f0 x0 (upd f (slot f x ((off + tot) / BSIZE)) d') x off (tot + m) data.
Proof.
  intros Hoff Htot Hm Hend Hdata Hfo Hs Hmb Ed [W1 W2 W3 W4 W5 W6 W7]. set (chunk := take (Z.to_nat m) (drop (Z.to_nat tot) data)) in *.
  assert (Hcl : Z.of_nat (length chunk) = m) by (unfold chunk; rewrite length_take, length_drop; lia).
  assert (Hp : 0 <= off + tot < MAXFILE * BSIZE) by lia. pose proof (off_block _ Hp) as Hpb.
  assert (Hput : forall i, 0 <= i < MAXFILE * BSIZE -> byte_at (upd f (slot f x ((off + tot) / BSIZE)) d') x i =
    if decide (off + tot <= i < off + tot + m) then chunk !! Z.to_nat (i - (off + tot)) else byte_at f x i).
  { intros i Hi. rewrite (byte_at_put f x (off + tot) chunk d' i) by (done || lia || by apply (fo_inj _ _ _ _ _ Hfo)). by rewrite Hcl. }
  pose proof (fo_data _ _ _ _ _ Hfo _ ltac:(split; [apply Hpb|lia]) Hs) as D. set (a := slot f x ((off + tot) / BSIZE)) in *.
  assert (Hind : a <> slot f x MAXFILE).
  { intros E. assert ((off + tot) / BSIZE = MAXFILE) by (apply (fo_inj _ _ _ _ _ Hfo); [lia|by vm_compute|done|done]). lia. }
  split.
  - intros i b Hi Hb Hn. rewrite Hput, decide_False by lia. apply W1; [done|done|lia].
  - intros i b E. pose proof E as Hlt. apply lookup_lt_Some in Hlt. rewrite length_take in Hlt.
    rewrite Hput by lia. rewrite lookup_take_lt in E by lia. case_decide as Hin.
    + unfold chunk. rewrite lookup_take_lt, lookup_drop, <- E by lia. f_equal. lia.
    + apply W2. rewrite lookup_take_lt by lia. done.
  - intros n Hn. rewrite slot_upd by done. by apply W3.
  - intros n Hn. rewrite slot_upd by done. by apply W4.
  - intros c Hc Hu. rewrite used_upd by (by apply D). by apply W5.
  - intros z Hz Hu Hb Hz'. unfold upd. rewrite decide_False; [by apply W6|]. intros ->.
    destruct (decide (slot f0 x0 ((off + tot) / BSIZE) = 0)) as [E|Hne].
    + pose proof (W4 ((off + tot) / BSIZE) ltac:(lia) E Hs) as Hx. fold a in Hx. congruence.
    + apply (Hz' ((off + tot) / BSIZE)); [lia|]. symmetry. apply W3; [lia|done].
  - done.
Qed.

(** The state at the top of the loop of writei(). *)
Record writing (k0 : kernel) (f0 : Z -> list Z) (x0 : inode) (off tot : Z) (data : list Z) (bs0 : nat)
    (k : kernel) (bs : list Z) (f : Z -> list Z) (x : inode) : Prop := {
  wi_at : fs_at dev ls o sb me pid ip k bs [] f x;
  wi_frame : ip_frame ip k0 k;
  wi_written : written f0 x0 f x off tot data;
  wi_log : Z.of_nat (length bs) <= Z.of_nat bs0;
}.

(** The end of a round. *)
Lemma writing_put k0 f0 x0 off tot data bs0 k1 bs1 f1 x1 k4 m d' :
  let p := off + tot in let a := slot f1 x1 (p / BSIZE) in
  0 <= off -> 0 <= tot -> 0 < m -> off + tot + m <= MAXFILE * BSIZE -> Z.of_nat (length data) >= tot + m ->
  fs_at dev ls o sb me pid ip k1 bs1 [] f1 x1 -> ip_frame ip k0 k1 -> written f0 x0 f1 x1 off tot data ->
  a <> 0 -> p mod BSIZE + m <= BSIZE ->
  put_bytes (Z.to_nat (p mod BSIZE)) (take (Z.to_nat m) (drop (Z.to_nat tot) data)) (f1 a) = Some d' ->
  tx dev ls o k4 me pid (log_add a bs1) [] (upd f1 a d') -> tx_frame k1 k4 -> (length bs1 <= bs0 + 4)%nat ->
  writing k0 f0 x0 off (tot + m) data (bs0 + 5) k4 (log_add a bs1) (upd f1 a d') x1.
Proof.
  intros p a Hoff Htot Hm Hend Hdata A1 F01 W1 Hne Hmb Ed T4 F14 Hl. pose proof A1 as [_ _ _ Hbm1 Hip1 Hfo1].
  pose proof (off_block p ltac:(lia)) as Hpb. pose proof (fo_data _ _ _ _ _ Hfo1 (p / BSIZE) ltac:(lia) Hne) as D. fold a in D.
  assert (Hind : a <> slot f1 x1 MAXFILE).
  { intros E. assert (p / BSIZE = MAXFILE) by (apply (fo_inj _ _ _ _ _ Hfo1); [lia|by vm_compute|done|done]). lia. }
  pose proof (log_add_length a bs1). split; [|eapply ip_frame_trans; [exact F01|by eapply tx_ip_frame]| |lia].
  - eapply (fs_at_step dev ls o sb me pid ip k1); try done.
    + apply bitmap_ok_upd; [done|apply D].
    + apply file_ok_upd; [done|done|apply D|]. rewrite (proj1 (put_bytes_lookup _ _ _ _ Ed)). apply D.
  - by apply written_put.
Qed.

Lemma writei_loop_spec k0 f0 x0 off n data :
  0 <= off -> off + n <= MAXFILE * BSIZE -> Z.of_nat (length data) = n ->
  forall fuel cnt k bs f x tot bs0, writing k0 f0 x0 off tot data bs0 k bs f x -> 0 <= tot <= n ->
  rounds fuel (off + tot) (n - tot) -> rounds (S cnt) (off + tot) (n - tot) -> Z.of_nat bs0 + 5 * Z.of_nat cnt < LOGSIZE - 1 ->
  wp env (writei_loop fuel ip (FromVar (drop (Z.to_nat tot) data)) (off + tot) n tot k) (fun r k' => exists tot' bs' f' x',
    r = (tot', off + tot') /\ 0 <= tot' <= n /\ writing k0 f0 x0 off tot' data (bs0 + 5 * cnt) k' bs' f' x' /\
    (tot' < n -> forall c, 0 <= c < sb_size sb -> used sb f' c = true)).
Proof.
  intros Hoff Hend Hdata. induction fuel as [|fuel IH]; intros cnt k bs f x tot bs0 W Htot Hf Hcnt Hlog; [by destruct Hf; lia|].
  cbn [writei_loop]. destruct (Z.ltb_spec tot n) as [Hlt|Hge].
  - destruct (rounds_step fuel (off + tot) (n - tot) ltac:(lia) Hf ltac:(lia)) as (Hm & Hmb & Hf'). set (m := Z.min _ _) in *.
    destruct cnt as [|cnt]; [destruct Hcnt as [_ Hcnt]; specialize (Hcnt ltac:(lia)); pose proof (Z.mod_pos_bound (off + tot) BSIZE ltac:(by vm_compute)); lia|].
    destruct (rounds_step (S cnt) (off + tot) (n - tot) ltac:(lia) Hcnt ltac:(lia)) as (_ & _ & Hcnt'). fold m in Hcnt'.
    set (p := off + tot) in *. pose proof (off_block p ltac:(lia)) as Hpb. destruct W as [A F W Hbs].
    apply wp_bind. eapply wp_mono; [apply (bmap_spec dev ls o sb Ho me pid ip k bs f x (p / BSIZE) A Hpb); lia|].
    intros a k1 (bs1 & f1 & x1 & A1 & F1 & X & O & -> & Hfull & _ & Hl1).
    pose proof A1 as [T1 Hsb1 _ Hbm1 Hip1 Hfo1]. assert (F01 : ip_frame ip k0 k1) by (by eapply ip_frame_trans).
    assert (W1 : written f0 x0 f1 x1 off tot data) by (eapply (written_extends _ _ f x); try done; [lia|apply A]).
    destruct (Z.eqb_spec (slot f1 x1 (p / BSIZE)) 0) as [Ea|Hne].
    { simpl. exists tot, bs1, f1, x1. split; [done|]. split; [lia|]. split; [split; try done; lia|]. intros _. by apply Hfull. }
    eapply wp_bind_run; [by apply get_inode_run|]. rewrite (fo_dev _ _ _ _ _ Hfo1). apply wp_bind.
    pose proof (fo_data _ _ _ _ _ Hfo1 (p / BSIZE) ltac:(lia) Hne) as D.
    eapply wp_mono; [apply (tx_bread dev ls o k1 me pid bs1 [] f1 _ T1 (not_elem_of_nil _));
      [change NBUF with 30; unfold LOGSIZE, MAXOPBLOCKS in Hlog; simpl; lia|pose proof (db_range _ _ _ _ D); pose proof (bm_size _ _ _ Hbm1); lia]|].
    intros i k2 [T2 F2]. set (a := slot f1 x1 (p / BSIZE)) in *.
    eapply wp_bind_run; [by eapply copyin_var|]. cbv beta iota. change (0 =? -1) with false. cbn iota.
    pose proof (tx_relax _ _ _ _ _ _ _ _ _ T2) as T2'. assert (Hin : (i, a) ∈ [(i, a)]) by apply list_elem_of_here.
    eapply wp_bind_run; [by eapply tx_get_data|]. set (chunk := take (Z.to_nat m) (drop (Z.to_nat tot) data)).
    assert (Hcl : Z.of_nat (length chunk) = m) by (unfold chunk; rewrite length_take, length_drop; lia).
    assert (exists d', put_bytes (Z.to_nat (p mod BSIZE)) chunk (f1 a) = Some d') as [d' Ed].
    { unfold put_bytes. rewrite (db_len _ _ _ _ D), (proj2 (Nat.leb_le _ _)); [by eexists|].
      pose proof (Z.mod_pos_bound p BSIZE ltac:(by vm_compute)). lia. }
    rewrite Ed. eapply wp_bind_run; [done|]. pose proof (bm_size _ _ _ Hbm1) as Hsz.
    apply (tx_log_data dev ls o (relax k2) me pid bs1 _ f1 i a d' _ _ Ho T2' Hin); [destruct D; lia|apply D|lia|]. intros k3 T3 F3.
    destruct (tx_brelse dev ls o k3 me pid _ [] _ i a T3) as (k4 & E4 & T4 & F4). eapply wp_bind_run; [exact E4|].
    rewrite u32_small by (rewrite MAXFILE_eq in Hend; change BSIZE with 1024 in Hend; lia). cbn [source_add]. rewrite drop_drop.
    replace (Z.to_nat tot + Z.to_nat m)%nat with (Z.to_nat (tot + m)) by lia.
    replace (p + m) with (off + (tot + m)) in Hf', Hcnt' |- * by lia.
    assert (F14 : tx_frame k1 k4) by eauto using tx_frame_trans, relax_tx_frame. pose proof (log_add_length a bs1).
    eapply wp_mono; [apply (IH cnt k4 (log_add a bs1) (upd f1 a d') x1 (tot + m) (bs0 + 5)%nat)|].
    + eapply (writing_put k0 f0 x0 off tot data bs0 k1 bs1 f1 x1 k4 m d'); try done; lia.
    + lia.
    + by replace (n - (tot + m)) with (n - tot - m) by lia.
    + by replace (n - (tot + m)) with (n - tot - m) by lia.
    + lia.
    + intros r k5 (tot' & bs' & f' & x' & -> & Ht' & [V1 V2 V3 V4] & V5). exists tot', bs', f', x'.
      split; [done|]. split; [done|]. split; [split; try done; lia|done].
  - simpl. exists tot, bs, f, x. split; [done|]. split; [lia|]. split; [destruct W; split; try done; lia|lia].
Qed.

Lemma inode_block_written f0 x0 f x off tot data :
  inode_block f0 x0 -> written f0 x0 f x off tot data -> inode_block f x.
Proof.
  intros [D Hown Hi] [_ _ W3 W4 W5 W6 [l ->]]. split; try done.
  - destruct D as [D1 D2 D3 D4 D5]. cbn [i_inum set_i_addrs]. split; try done.
    + apply W5; [lia|done].
    + by rewrite W6.
  - intros n Hn. cbn [i_inum set_i_addrs]. destruct (decide (slot f0 x0 n = 0)) as [E|Hne].
    + intros E'. destruct D as [D1 D2 _ _ _]. rewrite <- E' in D2. rewrite W4 in D2; [done|done|done|]. rewrite E'. lia.
    + rewrite W3 by done. by apply Hown.
Qed.

Lemma no_holes_written f0 x0 f x off tot data size :
  no_holes f0 x0 -> written f0 x0 f x off tot data -> 0 <= off <= i_size x0 -> 0 <= tot <= Z.of_nat (length data) ->
  off + tot <= MAXFILE * BSIZE -> size = Z.max (i_size x0) (off + tot) -> no_holes f (set_i_size size x).
Proof.
  intros [Hs Hh] [_ W2 W3 _ _ _ _] Hoff Htot Hend ->. split; [simpl; lia|]. intros n Hn. cbn [i_size set_i_size]. intros Hlt.
  assert (Hb : 0 < BSIZE) by (by vm_compute). change (slot f (set_i_size _ x) n) with (slot f x n).
  assert (Hnm : n < MAXFILE) by nia.
  destruct (Z.lt_ge_cases (n * BSIZE) (i_size x0)) as [Hl|Hge]; [rewrite W3; [by apply Hh|lia|by apply Hh]|].
  destruct (lookup_lt_is_Some_2 (take (Z.to_nat tot) data) (Z.to_nat (n * BSIZE - off))) as [b Eb].
  { rewrite length_take. lia. }
  pose proof (W2 _ _ Eb) as Hby. rewrite Z2Nat.id in Hby by lia. replace (off + (n * BSIZE - off)) with (n * BSIZE) in Hby by lia.
  apply byte_at_Some in Hby as [Hne _]. by rewrite Z.div_mul in Hne by lia.
Qed.

(** What writei() has done when it returns [tot]. *)
Record write_done (k : kernel) (f : Z -> list Z) (x : inode) (off tot : Z) (data : list Z)
    (k' : kernel) (bs' : list Z) (f' : Z -> list Z) (x' : inode) : Prop := {
  wd_at : fs_at dev ls o sb me pid ip k' bs' [] f' x';
  wd_frame : ip_frame ip k k';
  wd_size : i_size x' = Z.max (i_size x) (off + tot);
  wd_holes : no_holes f' x';
  wd_data : holds f' x' off (take (Z.to_nat tot) data);
  wd_keep : forall i b, 0 <= i < MAXFILE * BSIZE -> byte_at f x i = Some b -> ~ off <= i < off + tot -> byte_at f' x' i = Some b;
  wd_other : forall z, 0 < z < sb_size sb -> used sb f z = true -> (forall c, 0 <= c < sb_size sb -> z <> BBLOCK c sb) ->
    (forall m, 0 <= m <= MAXFILE -> slot f x m <> z) -> z <> IBLOCK (i_inum x) sb -> f' z = f z;
  wd_inode : inode_block f' x' /\ i_inum x' = i_inum x /\
    get_bytes (Z.to_nat dinode_size) (dinode_off (i_inum x)) (f' (IBLOCK (i_inum x) sb)) = Some (dinode_image x');
}.

(** if(off > ip->size) ip->size = off; *)
Lemma set_size_run k bs f x v : fs_at dev ls o sb me pid ip k bs [] f x ->
  exists k1, (when (i_size x <? v) (upd_inode ip (set_i_size v))) k = Ret tt k1 /\
    fs_at dev ls o sb me pid ip k1 bs [] f (set_i_size (Z.max (i_size x) v) x) /\ ip_frame ip k k1.
Proof.
  intros A. pose proof A as [T Hsb Hcp Hbm Hip Hfo]. destruct (Z.ltb_spec (i_size x) v) as [Hlt|Hge].
  - eexists. split; [done|]. replace (Z.max (i_size x) v) with v by lia.
    split; [|exact (upd_ip_frame ip (set_i_size v) k k x Hip (tx_frame_refl k))].
    split; try done; [by apply tx_itable|by apply can_print_itable| |by destruct Hfo].
    simpl. by rewrite list_lookup_alter_eq, Hip.
  - exists k. split; [done|]. replace (set_i_size _ x) with x by (replace (Z.max _ _) with (i_size x) by lia; by destruct x).
    split; [done|]. eapply tx_ip_frame; [done|apply tx_frame_refl].
Qed.

(** The inode written back at the end. *)
Lemma write_done_intro k0 f0 x0 off tot data bs0 k bs f x k2 bs2 d' :
  let ib := IBLOCK (i_inum x0) sb in let x1 := set_i_size (Z.max (i_size x) (off + tot)) x in
  inode_block f0 x0 -> no_holes f0 x0 -> 0 <= off <= i_size x0 -> 0 <= tot <= Z.of_nat (length data) -> off + tot <= MAXFILE * BSIZE ->
  writing k0 f0 x0 off tot data bs0 k bs f x -> put_bytes (dinode_off (i_inum x0)) (dinode_image x1) (f ib) = Some d' ->
  fs_at dev ls o sb me pid ip k2 bs2 [] (upd f ib d') x1 -> ip_frame ip k0 k2 ->
  write_done k0 f0 x0 off tot data k2 bs2 (upd f ib d') x1.
Proof.
  intros ib x1 Hib Hh Hoff Htot Hend [A F W Hbs] Ed A2 F2. pose proof (wr_meta _ _ _ _ _ _ _ W) as [l Hx].
  assert (Hsz : i_size x = i_size x0) by (by rewrite Hx). assert (Hnum : i_inum x = i_inum x0) by (by rewrite Hx).
  pose proof (inode_block_written _ _ _ _ _ _ _ Hib W) as [D Hown Hin]. rewrite Hnum in D, Hown, Hin. fold ib in D, Hown.
  assert (Hind : ib <> slot f x MAXFILE) by (intros E; apply (Hown MAXFILE); [by vm_compute|done]).
  assert (Hslot : forall n, slot (upd f ib d') x1 n = slot f x n) by (intros n; by apply (slot_upd f x)).
  assert (Hby : forall i, 0 <= i < MAXFILE * BSIZE -> byte_at (upd f ib d') x1 i = byte_at f x i).
  { intros i Hi. apply off_block in Hi. unfold byte_at. rewrite Hslot. destruct (_ =? 0); [done|].
    unfold upd. rewrite decide_False; [done|]. apply Hown. lia. }
  pose proof (no_holes_written f0 x0 f x off tot data _ Hh W Hoff Htot Hend eq_refl) as [Hn1 Hn2].
  split; try done.
  - simpl. by rewrite Hsz.
  - rewrite <- Hsz in Hn1, Hn2. split; [done|]. intros n Hn. rewrite Hslot. by apply Hn2.
  - intros i b E. rewrite Hby; [by apply (wr_data _ _ _ _ _ _ _ W)|]. apply lookup_lt_Some in E. rewrite length_take in E. lia.
  - intros i b Hi Hb Hn. rewrite Hby by done. by apply (wr_keep _ _ _ _ _ _ _ W).
  - intros z Hz Hu Hb Hm Hzi. unfold upd. rewrite decide_False by done. by apply (wr_other _ _ _ _ _ _ _ W).
  - split; [|split; [done|]].
    + cbn [i_inum x1 set_i_size]. split; cbn [i_inum x1 set_i_size]; rewrite ?Hnum; fold ib; [|intros n Hn; rewrite Hslot; by apply Hown|done].
      destruct D as [D1 D2 D3 D4 D5]. split; try done; [by rewrite used_upd by (by apply D4; lia)|].
      unfold upd. rewrite decide_True by done. by rewrite (proj1 (put_bytes_lookup _ _ _ _ Ed)).
    + unfold upd. rewrite decide_True by done. pose proof (put_get_bytes _ _ _ _ Ed) as Eg.
      rewrite dinode_image_length in Eg; [done|]. apply A2.
Qed.

Lemma write_finish k0 f0 x0 off tot data bs0 k bs f x :
  inode_block f0 x0 -> no_holes f0 x0 -> 0 <= off <= i_size x0 -> 0 <= tot <= Z.of_nat (length data) -> off + tot <= MAXFILE * BSIZE ->
  writing k0 f0 x0 off tot data bs0 k bs f x -> Z.of_nat bs0 < LOGSIZE - 1 ->
  wp env ((let! y := get_inode ip in
           do! when (i_size y <? off + tot) (upd_inode ip (set_i_size (off + tot)));
           do! iupdate ip;
           ret tot) k) (fun r k' => r = tot /\ exists bs' f' x', write_done k0 f0 x0 off tot data k' bs' f' x' /\
             (length bs' <= bs0 + 1)%nat /\ (forall c, 0 <= c < sb_size sb -> used sb f' c = used sb f c)).
Proof.
  intros Hib Hh Hoff Htot Hend Wi Hlog. pose proof Wi as [A F W Hbs].
  pose proof (inode_block_written _ _ _ _ _ _ _ Hib W) as Hib1. pose proof (wr_meta _ _ _ _ _ _ _ W) as [l Hx].
  assert (Hnum : i_inum x = i_inum x0) by (by rewrite Hx).
  destruct (set_size_run k bs f x (off + tot) A) as (k1 & E1 & A1 & F1).
  eapply wp_bind_run; [by apply get_inode_run, A|]. eapply wp_bind_run; [exact E1|]. apply wp_bind.
  eapply wp_mono; [apply (iupdate_spec k1 bs f _ A1); [by destruct Hib1|lia]|].
  intros [] k2 (d' & Ed & A2 & F2). simpl. split; [done|]. cbn [i_inum set_i_size] in *. rewrite Hnum in *.
  eexists _, _, _. pose proof (log_add_length (IBLOCK (i_inum x0) sb) bs). split; [|split; [|intros c Hc; apply used_upd]].
  - eapply (write_done_intro k0 f0 x0 off tot data bs0 k bs f x); try done. eapply ip_frame_trans; [exact F|].
    eapply ip_frame_trans; [exact F1|]. eapply tx_ip_frame; [apply A1|done].
  - lia.
  - rewrite <- Hnum. by apply (db_map _ _ _ _ (ib_data _ _ Hib1)).
Qed.

(** The requests that writei() accepts. *)
Definition writable (x : inode) (off n : Z) : Prop := off <= i_size x /\ off + n <= MAXFILE * BSIZE.

Lemma writei_spec k bs f x off n data cnt :
  fs_at dev ls o sb me pid ip k bs [] f x -> no_holes f x -> inode_block f x -> 0 <= off < 2 ^ 32 -> 0 <= n < 2 ^ 32 ->
  Z.of_nat (length data) = n -> off mod BSIZE + n <= BSIZE * Z.of_nat cnt -> Z.of_nat (length bs) + 5 * Z.of_nat cnt < LOGSIZE - 1 -> writable x off n ->
  wp env (writei ip (FromVar data) off n k) (fun tot k' => 0 <= tot <= n /\ exists bs' f' x',
    write_done k f x off tot data k' bs' f' x' /\ Z.of_nat (length bs') <= Z.of_nat (length bs) + 5 * Z.of_nat cnt + 1 /\
    (tot < n -> forall c, 0 <= c < sb_size sb -> used sb f' c = true)).
Proof.
  intros A Hh Hib Hoff Hn Hdata Hcnt Hlog [Hsz Hmax]. pose proof (nh_size _ _ Hh) as Hs. assert (Hb : 0 < BSIZE) by (by vm_compute).
  unfold writei. eapply wp_bind_run; [by apply get_inode_run, A|].
  rewrite u32_small by (rewrite MAXFILE_eq in Hmax; change BSIZE with 1024 in Hmax; lia).
  rewrite (proj2 (Z.ltb_ge (i_size x) off)), (proj2 (Z.ltb_ge (off + n) off)), (proj2 (Z.ltb_ge _ (off + n))) by lia. cbn [orb].
  assert (Hd : 0 <= n / BSIZE) by (apply Z.div_pos; lia). apply wp_bind.
  assert (W0 : writing k f x off 0 data (length bs) k bs f x).
  { split; [done|eapply tx_ip_frame; [apply A|apply tx_frame_refl]| |done]. split; try done.
    exists (i_addrs x). by destruct x. }
  pose proof (writei_loop_spec k f x off n data ltac:(lia) Hmax Hdata (S (S (Z.to_nat (n / BSIZE + 1)))) cnt k bs f x 0 (length bs) W0 ltac:(lia)) as Hl.
  rewrite Z.add_0_r, Z.sub_0_r in Hl. eapply wp_mono; [apply Hl; [by apply rounds_init; lia|split; lia|lia]|].
  intros r k1 (tot & bs1 & f1 & x1 & -> & Htot & Wi & Hfull). cbv beta iota.
  eapply wp_mono; [eapply (write_finish k f x off tot data _ k1 bs1 f1 x1 Hib Hh); try done; lia|].
  intros r k' (-> & bs' & f' & x' & Wd & Hl' & Hu). split; [done|]. exists bs', f', x'. split; [done|]. split; [lia|].
  intros Hlt c Hc. rewrite Hu by done. by apply Hfull.
Qed.

Lemma writei_refuses k x off n src : k_itable k !! ip = Some x -> 0 <= i_size x <= MAXFILE * BSIZE -> 0 <= off < 2 ^ 32 -> 0 <= n < 2 ^ 32 ->
  ~ writable x off n -> writei ip src off n k = Ret (-1) k.
Proof.
  intros Hip Hs Hoff Hn Hw. unfold writable in Hw. unfold writei. rewrite (bind_run _ _ _ _ _ (get_inode_run k ip x Hip)).
  destruct (Z.ltb_spec (i_size x) off) as [|Hle]; cbn [orb]; [done|]. destruct (Z.ltb_spec (u32 (off + n)) off) as [|Hov]; [done|].
  rewrite (proj2 (Z.ltb_lt _ _)); [done|]. rewrite MAXFILE_eq in *. change BSIZE with 1024 in *.
  destruct (Z.lt_ge_cases (off + n) (2 ^ 32)) as [Hlt|Hge]; [rewrite u32_small; lia|].
  assert (u32 (off + n) = off + n - 2 ^ 32) as E by (unfold u32; symmetry; apply (Z.mod_unique _ _ 1); lia). lia.
Qed.
End Write.

(** * The properties *)

Section Properties.
Context (dev ls o : Z) (sb : superblock) (Ho : 1 <= o) (me : nat) (pid : Z) (ip : nat).
Context {LS : LinkerSymbols} {BD : BlockDevice} {env : kernel -> kernel -> Prop} {DL : DiskLaws env}.

Lemma holds_unique f x off d1 d2 : holds f x off d1 -> holds f x off d2 -> length d1 = length d2 -> d1 = d2.
Proof.
  intros H1 H2 Hl. apply list_eq_same_length with (n := length d1); [done|done|]. intros i a b Hi Ea Eb.
  specialize (H1 _ _ Ea). specialize (H2 _ _ Eb). congruence.
Qed.


(** C24. readi() returns min(n, size - off) bytes, 0 past the end of the file or when off + n overflows: exactly the bytes of the file
    from [off] on.  It changes neither the file nor any other block. *)
Theorem readi_correct k bs f x off n :
  fs_at dev ls o sb me pid ip k bs [] f x -> no_holes f x -> 0 <= off < 2 ^ 32 -> 0 <= n < 2 ^ 32 -> (length bs < Z.to_nat NBUF)%nat ->
  wp env (readi ip ToVar off n k) (fun r k' => fs_at dev ls o sb me pid ip k' bs [] f x /\ tx_frame k k' /\
    r.1 = (if decide (off <= i_size x /\ off + n < 2 ^ 32) then Z.min n (i_size x - off) else 0) /\
    Z.of_nat (length r.2) = r.1 /\ forall i b, r.2 !! i = Some b -> byte_at f x (off + Z.of_nat i) = Some b).
Proof.
  intros A Hh Hoff Hn Hnb. eapply wp_mono; [by apply (readi_spec dev ls o sb me pid ip k bs f x off n)|].
  intros r k' (A' & F & got & -> & Hl & Hg). split; [done|]. split; [done|]. split; [done|]. split; [done|exact Hg].
Qed.

(** C25. What is written is read back: a writei() followed by a readi() of the same range gives the bytes that were
    written. *)
Theorem writei_readi_roundtrip k bs f x off n data cnt :
  fs_at dev ls o sb me pid ip k bs [] f x -> no_holes f x -> inode_block ls sb f x -> 0 <= off < 2 ^ 32 -> 0 <= n < 2 ^ 32 ->
  Z.of_nat (length data) = n -> off mod BSIZE + n <= BSIZE * Z.of_nat cnt -> Z.of_nat (length bs) + 5 * Z.of_nat cnt < LOGSIZE - 1 -> writable x off n ->
  wp env ((let! tot := writei ip (FromVar data) off n in
           let! r := readi ip ToVar off tot in
           ret (tot, r)) k) (fun r k' => 0 <= r.1 <= n /\ r.2 = (r.1, take (Z.to_nat r.1) data)).
Proof.
  intros A Hh Hib Hoff Hn Hdata Hcnt Hlog Hw. apply wp_bind.
  eapply wp_mono; [by apply (writei_spec dev ls o sb Ho me pid ip k bs f x off n data cnt)|].
  intros tot k1 (Ht & bs1 & f1 & x1 & [A1 _ Hs1 Hh1 Hd1 _ _ _] & Hl1 & _). apply wp_bind.
  destruct Hw as [Hw1 Hw2]. rewrite MAXFILE_eq in Hw2. change BSIZE with 1024 in Hw2.
  eapply wp_mono; [apply (readi_spec dev ls o sb me pid ip k1 bs1 f1 x1 off tot A1 Hh1 Hoff ltac:(lia))|].
  { change NBUF with 30. unfold LOGSIZE, MAXOPBLOCKS in Hlog. lia. }
  intros r k2 (_ & _ & got & -> & Hlen & Hgot). simpl. split; [done|]. unfold readable in *. rewrite decide_True in * by lia.
  assert (Hr : Z.min tot (i_size x1 - off) = tot) by lia. rewrite Hr in *. f_equal.
  apply (holds_unique f1 x1 off); [done|done|]. rewrite length_take. lia.
Qed.
End Properties.

(** * A concrete file *)

(** Inode 1: three bytes, in block 46. *)
Definition file_sample : inode := mkInode 1 1 1 no_sleeplock 1 T_FILE 0 0 1 3 (46 :: replicate 12 0).

Lemma file_sample_slot n : 0 <= n <= MAXFILE -> slot (disk_block bitmap_disk) file_sample n = if decide (n = 0) then 46 else 0.
Proof.
  intros Hn. assert (Hall : forallb (fun n => slot (disk_block bitmap_disk) file_sample n =? if decide (n = 0) then 46 else 0)
    (seqZ 0 (MAXFILE + 1)) = true) by (by vm_compute).
  rewrite forallb_forall in Hall. apply Z.eqb_eq, Hall, list_elem_of_In, elem_of_seqZ. lia.
Qed.

Lemma sample_data_block z : z = 46 \/ z = 32 -> data_block 2 sb_sample (disk_block bitmap_disk) z.
Proof.
  intros Hz. split.
  - simpl. lia.
  - destruct Hz as [-> | ->]; by vm_compute.
  - unfold log_area, LOGSIZE, MAXOPBLOCKS. lia.
  - intros c Hc. rewrite BBLOCK_sample by done. lia.
  - destruct Hz as [-> | ->]; by vm_compute.
Qed.

Lemma file_sample_at : exists k, fs_at 1 2 1 sb_sample 3 0 0 k [] [] (disk_block bitmap_disk) file_sample.
Proof.
  destruct fs_sample as (k & T & Hsb & Hcp). exists (set_k_itable [file_sample] k). split.
  - by apply tx_itable.
  - exact Hsb.
  - by apply can_print_itable.
  - exact bitmap_sample.
  - reflexivity.
  - split; try reflexivity.
    + intros n Hn. rewrite file_sample_slot by done. case_decide; [|done]. intros _. apply sample_data_block. by left.
    + intros n m Hn Hm. rewrite !file_sample_slot by done. repeat case_decide; congruence.
Qed.

Lemma file_sample_holes : no_holes (disk_block bitmap_disk) file_sample.
Proof.
  split; [rewrite MAXFILE_eq; change BSIZE with 1024; simpl; lia|]. intros n Hn Hs. change BSIZE with 1024 in Hs. simpl in Hs.
  rewrite file_sample_slot by (rewrite MAXFILE_eq; lia). rewrite decide_True by lia. done.
Qed.

Lemma file_sample_inode : inode_block 2 sb_sample (disk_block bitmap_disk) file_sample.
Proof.
  split; [apply sample_data_block; by right| |done]. intros n Hn. rewrite file_sample_slot by done. by case_decide.
Qed.


Lemma readi_correct_witness : exists k, k_itable k !! 0%nat = Some file_sample /\
  wp disk_round (readi 0 ToVar 1 100 k) (fun r k' => r = (2, [105; 33])).
Proof.
  destruct file_sample_at as (k & A). exists k. split; [apply A|].
  eapply wp_mono; [apply (readi_correct 1 2 1 sb_sample 3 0 0 k [] _ file_sample 1 100 A file_sample_holes);
    [lia|lia|change NBUF with 30; simpl; lia]|].
  intros [r got] k' (_ & _ & Hr & Hl & Hg). simpl in Hr, Hl, Hg. subst r. f_equal.
  destruct got as [|a [|b [|c got]]]; simpl in Hl; try lia.
  pose proof (Hg 0%nat a eq_refl) as Ha. pose proof (Hg 1%nat b eq_refl) as Hb. vm_compute in Ha, Hb. congruence.
Defined.

Lemma writei_readi_roundtrip_witness : exists k, wp disk_round ((let! tot := writei 0 (FromVar [1; 2]) 3 2 in
    let! r := readi 0 ToVar 3 tot in ret (tot, r)) k) (fun r _ => r.2 = (r.1, take (Z.to_nat r.1) [1; 2])).
Proof.
  destruct file_sample_at as (k & A). exists k.
  eapply wp_mono; [apply (writei_readi_roundtrip 1 2 1 sb_sample ltac:(lia) 3 0 0 k [] _ file_sample 3 2 [1; 2] 1 A
    file_sample_holes file_sample_inode); [lia|lia|reflexivity|by vm_compute|by vm_compute|]|].
  - unfold writable. rewrite MAXFILE_eq. change BSIZE with 1024. simpl. lia.
  - intros r k' [_ H]. exact H.
Defined.
