(* ===== verification/FsInode.v ===== *)
(** Inodes in memory and on the disk (kernel/fs.c: ilock(), iget(), the struct dinode that iupdate() writes). *)

From Stdlib Require Import ZArith Lia.
From stdpp Require Import base gmap list_numbers strings numbers functions list.
From S2P Require Import Prelude Mem Bytes Riscv Kernel Spinlock Kalloc Vm Printf PrintfSpec Sched SchedSpec Thread.
From S2P Require Import Sleeplock SleeplockSpec Virtio Bio BioSpec BioInv VirtioSpec BioProps Log LogSpec LogCrash LogTxn.
From S2P Require Import Fs FsTx FsAlloc FsFile FsRw.

Open Scope Z_scope.

Implicit Types (k : kernel).

(** * struct dinode *)

(** The fields of an inode fit the types that they have on the disk. *)
Record dinode_range (x : inode) : Prop := {
  dr_type : - 2 ^ 15 <= i_type x < 2 ^ 15;
  dr_major : - 2 ^ 15 <= i_major x < 2 ^ 15;
  dr_minor : - 2 ^ 15 <= i_minor x < 2 ^ 15;
  dr_nlink : - 2 ^ 15 <= i_nlink x < 2 ^ 15;
  dr_size : 0 <= i_size x < 2 ^ 32;
  dr_len : length (i_addrs x) = 13%nat;
  dr_addrs : Forall (fun a => 0 <= a < 2 ^ 32) (i_addrs x);
}.

(** Reading inside a piece of a block. *)
Lemma getn_sub m off d img n j : get_bytes m off d = Some img -> (j + n <= m)%nat -> getn n (off + j) d = getn n j img.
Proof.
  unfold getn, get_bytes. intros E Hj. destruct (Nat.leb_spec (off + m) (length d)) as [Hle|]; [|done]. injection E as <-.
  rewrite length_take, length_drop. rewrite !(proj2 (Nat.leb_le _ _)) by lia. do 2 f_equal. apply list_eq. intros i.
  destruct (decide (i < n)%nat); [|by rewrite !lookup_take_ge by lia].
  rewrite !lookup_take_lt, !lookup_drop, lookup_take_lt, lookup_drop by lia. f_equal. lia.
Qed.

Lemma words_of_sub m off d img : get_bytes m off d = Some img -> forall n j, (j + 4 * n <= m)%nat ->
  words_of n (off + j) d = words_of n j img.
Proof.
  intros E. induction n as [|n IH]; intros j Hj; [done|]. cbn [words_of].
  rewrite (getn_sub m off d img) by (done || lia). destruct (getn 4 j img); [|done]. simpl.
  rewrite <- Nat.add_assoc, IH by lia. done.
Qed.

Lemma words_of_words l : forall a c, Forall (fun v => 0 <= v < 2 ^ 32) l ->
  words_of (length l) (length a) (a ++ words l ++ c) = Some l.
Proof.
  induction l as [|v l IH]; intros a c Hl; [done|]. apply Forall_cons in Hl as [Hv Hl]. cbn [words_of length].
  change (words (v :: l)) with (le_bytes 4 v ++ words l). rewrite <- app_assoc, getn_app by done.
  cbn [mbind option_bind]. rewrite Z.mod_small by (simpl; lia). specialize (IH (a ++ le_bytes 4 v) c Hl).
  rewrite length_app, le_bytes_length, <- app_assoc in IH. by rewrite IH.
Qed.

Lemma i16_mod v : - 2 ^ 15 <= v < 2 ^ 15 -> i16 (v mod 2 ^ (8 * Z.of_nat 2)) = v.
Proof.
  intros Hv. change (2 ^ (8 * Z.of_nat 2)) with (2 ^ 16). unfold i16. rewrite Zplus_mod_idemp_l, Z.mod_small by lia. lia.
Qed.

(** What iupdate() writes, ilock() reads. *)
Lemma dinode_of_image off d x : dinode_range x -> get_bytes (Z.to_nat dinode_size) off d = Some (dinode_image x) ->
  dinode_of off d = Some (mkDinode (i_type x) (i_major x) (i_minor x) (i_nlink x) (i_size x) (i_addrs x)).
Proof.
  intros [R1 R2 R3 R4 R5 R6 R7] E. change (Z.to_nat dinode_size) with 64%nat in E.
  unfold dinode_of. rewrite <- (Nat.add_0_r off) at 1. rewrite !(getn_sub 64 off d _ _ _ E) by lia.
  rewrite (words_of_sub 64 off d _ E) by lia. unfold dinode_image, dinode_bytes.
  cbn [di_type di_major di_minor di_nlink di_size di_addrs]. rewrite mjoin_words.
  set (b1 := le_bytes 2 (i_type x)). set (b2 := le_bytes 2 (i_major x)). set (b3 := le_bytes 2 (i_minor x)).
  set (b4 := le_bytes 2 (i_nlink x)). set (b5 := le_bytes 4 (i_size x)). set (w := words (i_addrs x)).
  assert (E1 : getn 2 0 (b1 ++ b2 ++ b3 ++ b4 ++ b5 ++ w) = Some (i_type x mod 2 ^ (8 * Z.of_nat 2))) by (by apply (getn_app [])).
  assert (E2 : getn 2 2 (b1 ++ b2 ++ b3 ++ b4 ++ b5 ++ w) = Some (i_major x mod 2 ^ (8 * Z.of_nat 2))) by (by apply (getn_app b1)).
  assert (E3 : getn 2 4 (b1 ++ b2 ++ b3 ++ b4 ++ b5 ++ w) = Some (i_minor x mod 2 ^ (8 * Z.of_nat 2))).
  { rewrite (app_assoc b1). by apply (getn_app (b1 ++ b2)). }
  assert (E4 : getn 2 6 (b1 ++ b2 ++ b3 ++ b4 ++ b5 ++ w) = Some (i_nlink x mod 2 ^ (8 * Z.of_nat 2))).
  { rewrite (app_assoc b1), (app_assoc (b1 ++ b2)). by apply (getn_app ((b1 ++ b2) ++ b3)). }
  assert (E5 : getn 4 8 (b1 ++ b2 ++ b3 ++ b4 ++ b5 ++ w) = Some (i_size x mod 2 ^ (8 * Z.of_nat 4))).
  { rewrite (app_assoc b1), (app_assoc (b1 ++ b2)), (app_assoc ((b1 ++ b2) ++ b3)). by apply (getn_app (((b1 ++ b2) ++ b3) ++ b4)). }
  assert (E6 : words_of 13 12 (b1 ++ b2 ++ b3 ++ b4 ++ b5 ++ w) = Some (i_addrs x)).
  { rewrite <- R6. pose proof (words_of_words (i_addrs x) (b1 ++ b2 ++ b3 ++ b4 ++ b5) [] R7) as Hw.
    rewrite app_nil_r, <- !app_assoc in Hw. exact Hw. }
  rewrite E1, E2, E3, E4, E5, E6. cbn [mbind option_bind]. rewrite !i16_mod by done.
  change (2 ^ (8 * Z.of_nat 4)) with (2 ^ 32). by rewrite Z.mod_small.
Qed.

(** * ilock() *)

Section Ilock.
Context (dev ls o : Z) (sb : superblock) (me : nat) (pid : Z) (ip : nat).
Context {LS : LinkerSymbols} {BD : BlockDevice} {env : kernel -> kernel -> Prop} {DL : DiskLaws env}.

(** The inode as process [pid] has locked it. *)
Definition locked_by (x : inode) : inode := set_i_lock (mkSleeplock 1 (sl_name (i_lock x)) pid) x.

(** The inode filled in from the disk. *)
Definition loaded (di : dinode) (x : inode) : inode :=
  set_i_valid 1 (set_i_addrs (di_addrs di) (set_i_size (di_size di) (set_i_nlink (di_nlink di)
    (set_i_minor (di_minor di) (set_i_major (di_major di) (set_i_type (di_type di) x)))))).

Lemma alter_inode_insert g k x : k_itable k !! ip = Some x -> alter_inode ip g k = set_k_itable (<[ip := g x]> (k_itable k)) k.
Proof.
  intros E. unfold alter_inode. f_equal. apply list_eq. intros j. destruct (decide (j = ip)) as [->|].
  - rewrite list_lookup_alter_eq, E. rewrite list_lookup_insert_eq; [done|by eapply lookup_lt_Some].
  - by rewrite list_lookup_alter_ne, list_lookup_insert_ne.
Qed.

(** The state once the sleeplock is taken. *)
Lemma ilock_acquire k bs f x :
  tx dev ls o k me pid bs [] f -> k_itable k !! ip = Some x -> sl_locked (i_lock x) = 0 -> lock_free k (LInode ip) ->
  exists k1, acquiresleep (SInode ip) k = Ret tt k1 /\ tx dev ls o k1 me pid bs [] f /\
    k1 = set_k_itable (<[ip := locked_by x]> (k_itable k)) (relax k).
Proof.
  intros T Hip Hl Hf. exists (set_k_itable (<[ip := locked_by x]> (k_itable k)) (relax k)). split; [|split; [|done]].
  - rewrite (acquiresleep_run k me pid (SInode ip) (i_lock x)); [|apply (tx_bio _ _ _ _ _ _ _ _ _ T)|done|by simpl; rewrite Hip|done].
    f_equal. simpl. by rewrite (alter_inode_insert _ _ x).
  - by apply tx_itable, tx_relax.
Qed.

(** Filling the inode in, for any predicate [P] on executions that can be established call by call. *)
Lemma ilock_load (P : outcome kernel unit -> Prop) k1 bs f x di :
  (forall A (m : K A) (c : A -> K unit) s, wp env (m s) (fun a s' => P (c a s')) -> P (bind m c s)) ->
  tx dev ls o k1 me pid bs [] f -> k_sb k1 = sb -> k_itable k1 !! ip = Some x -> i_dev x = dev -> (length bs < Z.to_nat NBUF)%nat -> IBLOCK (i_inum x) sb < 2 ^ 31 ->
  dinode_of (dinode_off (i_inum x)) (f (IBLOCK (i_inum x) sb)) = Some di ->
  (forall k', tx dev ls o k' me pid bs [] f -> k_itable k' !! ip = Some (loaded di x) -> ip_frame ip k1 k' ->
    P ((if di_type di =? 0 then panic "ilock: no type" else ret tt) k')) ->
  P ((let! sb := gets k_sb in
      let! bp := bread (i_dev x) (IBLOCK (i_inum x) sb) in
      let! d := get_data bp in
      let! dip := need "dinode" (dinode_of (dinode_off (i_inum x)) d) in
      do! upd_inode ip (set_i_type (di_type dip));
      do! upd_inode ip (set_i_major (di_major dip));
      do! upd_inode ip (set_i_minor (di_minor dip));
      do! upd_inode ip (set_i_nlink (di_nlink dip));
      do! upd_inode ip (set_i_size (di_size dip));
      do! upd_inode ip (set_i_addrs (di_addrs dip));
      do! brelse bp;
      do! upd_inode ip (set_i_valid 1);
      let! x := get_inode ip in
      if i_type x =? 0 then panic "ilock: no type" else ret tt) k1).
Proof.
  intros HP T Hsb Hip Hd Hn Hib Edi Hend. assert (0 <= IBLOCK (i_inum x) sb) by (apply Z.mod_pos_bound; lia). apply HP. simpl. rewrite Hsb, Hd. apply HP.
  eapply wp_mono; [apply (tx_bread dev ls o k1 me pid bs [] f _ T (not_elem_of_nil _)); [simpl; lia|lia]|]. intros i k2 [T2 F2].
  apply HP. rewrite (tx_get_data dev ls o k2 me pid bs _ f i _ T2 (list_elem_of_here _ _)). simpl.
  rewrite Edi. apply HP. simpl. set (y := set_i_addrs (di_addrs di) (set_i_size (di_size di) (set_i_nlink (di_nlink di)
    (set_i_minor (di_minor di) (set_i_major (di_major di) (set_i_type (di_type di) x)))))).
  assert (E2 : k_itable k2 !! ip = Some x) by (by rewrite (tx_frame_itable _ _ F2)).
  do 6 (apply HP; rewrite upd_inode_run; cbn [wp]). rewrite !alter_inode_alter, (alter_inode_insert _ _ x E2).
  change (_ x) with y at 1. set (k3 := set_k_itable (<[ip := y]> (k_itable k2)) k2).
  pose proof (tx_itable dev ls o me pid k2 (<[ip := y]> (k_itable k2)) bs _ f T2) as T3. fold k3 in T3.
  apply HP. destruct (tx_brelse dev ls o k3 me pid bs [] f i _ T3) as (k4 & E4 & T4 & F4). rewrite E4. cbn [wp].
  apply HP. rewrite upd_inode_run. cbn [wp].
  assert (Hy4 : k_itable k4 !! ip = Some y).
  { rewrite (tx_frame_itable _ _ F4). simpl. rewrite list_lookup_insert_eq; [done|by eapply lookup_lt_Some]. }
  assert (Hy5 : k_itable (alter_inode ip (set_i_valid 1) k4) !! ip = Some (loaded di x)).
  { simpl. by rewrite list_lookup_alter_eq, Hy4. }
  apply HP. rewrite (get_inode_run _ _ _ Hy5). cbn [wp]. apply Hend; [by apply tx_itable|done|].
  eapply ip_frame_trans; [eapply ip_frame_trans; [by eapply (tx_ip_frame ip k1 k2)|]|by eapply (upd_ip_frame ip (set_i_valid 1) k4 k4 y), tx_frame_refl].
  exists y. exact F4.
Qed.

(** ilock() once the preconditions of the lock are met. *)
Lemma ilock_start k bs f x :
  tx dev ls o k me pid bs [] f -> k_itable k !! ip = Some x -> sl_locked (i_lock x) = 0 -> lock_free k (LInode ip) -> 1 <= i_ref x ->
  exists k1, tx dev ls o k1 me pid bs [] f /\ k_sb k1 = k_sb k /\ k_itable k1 !! ip = Some (locked_by x) /\ ip_frame ip k k1 /\
    ilock (Some ip) k = (if i_valid x =? 0 then
        let! sb := gets k_sb in
        let! bp := bread (i_dev x) (IBLOCK (i_inum x) sb) in
        let! d := get_data bp in
        let! dip := need "dinode" (dinode_of (dinode_off (i_inum x)) d) in
        do! upd_inode ip (set_i_type (di_type dip));
        do! upd_inode ip (set_i_major (di_major dip));
        do! upd_inode ip (set_i_minor (di_minor dip));
        do! upd_inode ip (set_i_nlink (di_nlink dip));
        do! upd_inode ip (set_i_size (di_size dip));
        do! upd_inode ip (set_i_addrs (di_addrs dip));
        do! brelse bp;
        do! upd_inode ip (set_i_valid 1);
        let! x := get_inode ip in
        if i_type x =? 0 then panic "ilock: no type" else ret tt
      else ret tt) k1.
Proof.
  intros T Hip Hl Hf Hr. destruct (ilock_acquire k bs f x T Hip Hl Hf) as (k1 & E1 & T1 & ->). eexists.
  assert (Hip1 : k_itable (set_k_itable (<[ip := locked_by x]> (k_itable k)) (relax k)) !! ip = Some (locked_by x)).
  { simpl. rewrite list_lookup_insert_eq; [done|by eapply lookup_lt_Some]. }
  split; [exact T1|]. split; [done|]. split; [done|]. split; [by exists (locked_by x)|].
  cbn [ilock]. rewrite (bind_run _ _ _ _ _ (get_inode_run k ip x Hip)), (proj2 (Z.ltb_ge _ 1)) by lia.
  rewrite (bind_run _ _ _ _ _ E1), (bind_run _ _ _ _ _ (get_inode_run _ _ _ Hip1)). done.
Qed.

(** The fields that the disk gives. *)
Definition same_fields (x y : inode) : Prop :=
  i_type x = i_type y /\ i_major x = i_major y /\ i_minor x = i_minor y /\ i_nlink x = i_nlink y /\
  i_size x = i_size y /\ i_addrs x = i_addrs y.

(** C29. ilock() of an inode whose sleeplock is free.  Without a reference to the inode it panics.  If the entry is valid, it
    takes the lock and does nothing else.  If it is not, it also fills the entry in from the disk, with exactly the fields of the
    inode [y] that iupdate() wrote there last, and panics if that inode is free; no block of the file system changes. *)
Theorem ilock_correct k bs f x :
  tx dev ls o k me pid bs [] f -> k_sb k = sb -> k_itable k !! ip = Some x -> i_dev x = dev ->
  sl_locked (i_lock x) = 0 -> lock_free k (LInode ip) -> (length bs < Z.to_nat NBUF)%nat -> IBLOCK (i_inum x) sb < 2 ^ 31 ->
  ilock None k = Panic "ilock" k /\
  (i_ref x < 1 -> ilock (Some ip) k = Panic "ilock" k) /\
  (1 <= i_ref x -> i_valid x <> 0 -> exists k', ilock (Some ip) k = Ret tt k' /\ tx dev ls o k' me pid bs [] f /\
     k_itable k' !! ip = Some (locked_by x) /\ ip_frame ip k k') /\
  (1 <= i_ref x -> i_valid x = 0 -> forall y, dinode_range y ->
     get_bytes (Z.to_nat dinode_size) (dinode_off (i_inum x)) (f (IBLOCK (i_inum x) sb)) = Some (dinode_image y) ->
     if i_type y =? 0 then panics env (ilock (Some ip) k) "ilock: no type"
     else wp env (ilock (Some ip) k) (fun _ k' => tx dev ls o k' me pid bs [] f /\ ip_frame ip k k' /\
       exists x', k_itable k' !! ip = Some x' /\ same_fields x' y /\ i_valid x' = 1 /\ i_ref x' = i_ref x /\
         i_lock x' = mkSleeplock 1 (sl_name (i_lock x)) pid)).
Proof.
  intros T Hsb Hip Hd Hl Hf Hn Hib. split; [done|]. split; [|split].
  - intros Hr. cbn [ilock]. rewrite (bind_run _ _ _ _ _ (get_inode_run k ip x Hip)). by rewrite (proj2 (Z.ltb_lt _ 1)).
  - intros Hr Hv. destruct (ilock_start k bs f x T Hip Hl Hf Hr) as (k1 & T1 & _ & Hip1 & F1 & E).
    exists k1. rewrite E, (proj2 (Z.eqb_neq _ _) Hv). done.
  - intros Hr Hv y Hy Ey. destruct (ilock_start k bs f x T Hip Hl Hf Hr) as (k1 & T1 & Hsb1 & Hip1 & F1 & E).
    rewrite E, Hv. cbn [Z.eqb]. pose proof (dinode_of_image _ _ _ Hy Ey) as Edi. rewrite Hsb in Hsb1.
    destruct (i_type y =? 0) eqn:Et.
    + apply (ilock_load (fun out => panics env out "ilock: no type") k1 bs f (locked_by x) _ (fun A m c s => panics_bind env m c s _)
        T1 Hsb1 Hip1 Hd Hn Hib Edi). intros k' _ _ _. simpl. by rewrite Et.
    + apply (ilock_load (fun out => wp env out _) k1 bs f (locked_by x) _ (fun A m c s => wp_bind env m c s _) T1 Hsb1 Hip1 Hd Hn Hib Edi).
      intros k' T' Hip' F'. simpl. rewrite Et. simpl. split; [done|]. split; [by eapply ip_frame_trans|].
      eexists. split; [exact Hip'|]. by repeat split.
Qed.
End Ilock.

(** * A concrete instance *)

Definition root_inode : inode := mkInode 1 1 1 no_sleeplock 0 T_DIR 0 0 1 32 (46 :: replicate 12 0).

(** The file system of [bitmap_disk] with an inode written in block 32. *)
Definition inode_disk : disk :=
  set_dk_blocks (<[32 := replicate 64 0 ++ dinode_image root_inode ++ replicate 896 0]> (dk_blocks bitmap_disk)) bitmap_disk.

(** An entry of the inode table that iget() has just set up. *)
Definition fresh_entry : inode := mkInode 1 1 1 no_sleeplock 0 0 0 0 0 0 [].

Lemma root_inode_range : dinode_range root_inode.
Proof.
  split; simpl; try lia; [done|]. repeat (apply Forall_cons_2; [lia|]). apply Forall_nil_2.
Qed.

Lemma inode_sample : exists k, tx 1 2 1 k 3 0 [] [] (disk_block inode_disk) /\ k_sb k = sb_sample /\
  k_itable k !! 0%nat = Some fresh_entry /\ lock_free k (LInode 0).
Proof.
  destruct (with_log_bio 1 inode_disk) as (k & B & Hl & Hp & Hpk & Hi). exists (set_k_itable [fresh_entry] (with_log 1 inode_disk k)).
  split; [|split; [reflexivity|split; [reflexivity|exact Hi]]].
  apply tx_itable. split; [exact B|apply log_sample_is|apply loggable_nil|exact Hl|reflexivity|reflexivity|reflexivity| |reflexivity].
  intros z. apply (content_empty 1 _ 3 0 z B).
Qed.

Lemma root_inode_image :
  get_bytes (Z.to_nat dinode_size) (dinode_off 1) (disk_block inode_disk (IBLOCK 1 sb_sample)) = Some (dinode_image root_inode).
Proof. by vm_compute. Qed.

Lemma ilock_correct_witness : exists k, k_itable k !! 0%nat = Some fresh_entry /\
  wp disk_round (ilock (Some 0%nat) k) (fun _ k' => exists x', k_itable k' !! 0%nat = Some x' /\ i_size x' = 32 /\ i_type x' = T_DIR).
Proof.
  destruct inode_sample as (k & T & Hsb & Hx & Hi). exists k. split; [exact Hx|].
  destruct (ilock_correct 1 2 1 sb_sample 3 0 0 (env := disk_round) k [] _ fresh_entry T Hsb Hx) as (_ & _ & _ & H).
  - reflexivity.
  - reflexivity.
  - exact Hi.
  - change NBUF with 30. simpl. lia.
  - by vm_compute.
  - eapply wp_mono; [exact (H ltac:(simpl; lia) eq_refl root_inode root_inode_range root_inode_image)|].
    intros [] k' (_ & _ & x' & H1 & (H2 & _ & _ & _ & H3 & _) & _). exists x'. split; [exact H1|]. split; [exact H3|exact H2].
Defined.
