(* ===== verification/FsAtomic.v ===== *)
(** A write to a file as one transaction: writei() between begin_op() and end_op(), as filewrite() of
    kernel/file.c does it for each of its pieces, is atomic with respect to crashes. *)

From Stdlib Require Import ZArith Lia.
From stdpp Require Import base gmap list_numbers strings numbers functions list.
From S2P Require Import Prelude Mem Bytes Riscv Kernel Spinlock Kalloc Vm Printf PrintfSpec Sched SchedSpec Thread.
From S2P Require Import Sleeplock SleeplockSpec Virtio Bio BioSpec BioInv VirtioSpec BioProps Log LogSpec LogCrash LogTxn.
From S2P Require Import Fs FsTx FsAlloc FsFile FsRw.

Open Scope Z_scope.

Implicit Types (k : kernel).

Section Atomic.
Context (dev ls : Z) (sb : superblock) (me : nat) (pid : Z) (ip : nat).
Context {LS : LinkerSymbols} {BD : BlockDevice} {env : kernel -> kernel -> Prop} {DL : DiskLaws env}.
Context (Hdev : 0 < dev < 2 ^ 31) (Hls : 0 <= ls < 2 ^ 30).

(** No transaction is open, and inode [ip] is a well-formed file [x] of the file system on the disk. *)
Record file_at_rest (k : kernel) (x : inode) : Prop := {
  fr_quiet : quiescent dev ls k me pid;
  fr_sb : k_sb k = sb;
  fr_print : can_print k;
  fr_bm : bitmap_ok ls sb (disk_block (k_disk k));
  fr_ip : k_itable k !! ip = Some x;
  fr_file : file_ok dev ls sb (disk_block (k_disk k)) x;
  fr_holes : no_holes (disk_block (k_disk k)) x;
  fr_inode : inode_block ls sb (disk_block (k_disk k)) x;
}.

(** A piece of filewrite(): one transaction. *)
Definition write_op (data : list Z) (off : Z) : K Z :=
  do! begin_op;
  let! r := writei ip (FromVar data) off (Z.of_nat (length data)) in
  do! end_op;
  ret r.

(** What the write of [tot] bytes makes of the blocks [f] of the file system. *)
Record write_effect (f : Z -> list Z) (x : inode) (off tot : Z) (data : list Z) (f' : Z -> list Z) (x' : inode) : Prop := {
  we_size : i_size x' = Z.max (i_size x) (off + tot);
  we_data : holds f' x' off (take (Z.to_nat tot) data);
  we_keep : forall i b, 0 <= i < MAXFILE * BSIZE -> byte_at f x i = Some b -> ~ off <= i < off + tot -> byte_at f' x' i = Some b;
  we_other : forall z, 0 < z < sb_size sb -> used sb f z = true -> (forall c, 0 <= c < sb_size sb -> z <> BBLOCK c sb) ->
    (forall m, 0 <= m <= MAXFILE -> slot f x m <> z) -> z <> IBLOCK (i_inum x) sb -> f' z = f z;
  we_inode : get_bytes (Z.to_nat dinode_size) (dinode_off (i_inum x)) (f' (IBLOCK (i_inum x) sb)) = Some (dinode_image x');
}.

(** C4. A write to a file is atomic and durable.  When the transaction around writei() has returned [tot], the disk holds, outside
    the log, the file system with the [tot] bytes written and the inode updated, and no other file changed; if the
    machine stops after any number of the disk writes on the way, recovery gives either that file system or the
    one before the call, never a mixture. *)
Theorem file_write_atomic k x off data :
  file_at_rest k x -> 0 <= off -> writable x off (Z.of_nat (length data)) -> (length data <= 3 * Z.to_nat BSIZE)%nat ->
  wp env (write_op data off k) (fun tot k' => 0 <= tot <= Z.of_nat (length data) /\ quiescent dev ls k' me pid /\
    exists f' x', write_effect (disk_block (k_disk k)) x off tot data f' x' /\
      (forall z, ~ log_area ls z -> disk_block (k_disk k') z = f' z) /\
      exists ws, dk_writes (k_disk k') = dk_writes (k_disk k) ++ ws /\
        forall n, recovers dev ls (env := env) (crashed n ws (k_disk k)) (disk_block (k_disk k)) \/
                  recovers dev ls (env := env) (crashed n ws (k_disk k)) f').
Proof.
  intros [Q Hsb Hcp Hbm Hip Hfo Hh Hib] Hoff Hw Hn. destruct (begin_op_quiescent dev ls k me pid Q) as (k1 & E1 & [] & C1 & D1 & Ek).
  eapply wp_bind_run; [exact E1|]. set (f := disk_block (k_disk k)) in *.
  assert (A1 : fs_at dev ls 1 sb me pid ip k1 [] [] f x).
  { split; [split; try done; intros z _; by rewrite D1| |rewrite Ek; destruct Hcp; by split|done| |done]; by rewrite Ek. }
  pose proof Hw as [Hw1 Hw2]. rewrite MAXFILE_eq in Hw2. change BSIZE with 1024 in Hw2, Hn. apply wp_bind.
  eapply wp_mono; [apply (writei_spec dev ls 1 sb ltac:(lia) me pid ip k1 [] f x off _ data 4 A1 Hh Hib); try done; try lia|].
  { change BSIZE with 1024. pose proof (Z.mod_pos_bound off 1024 ltac:(lia)). lia. }
  intros tot k2 (Ht & bs' & f' & x' & [[T2 _ _ _ _ _] [y F2] W1 _ W2 W3 W4 (_ & _ & W5)] & _).
  pose proof (tx_frame_disk _ _ F2) as D2. cbn [k_disk set_k_itable] in D2. rewrite D1 in D2.
  pose proof (tx_clean _ _ _ _ _ _ _ _ _ T2) as Hcl. apply wp_bind.
  eapply wp_mono; [apply (end_op_atomic dev ls Hdev Hls k2 me pid bs' f');
    [exact (tx_in_op dev ls 1 k2 me pid bs' f' eq_refl T2)|apply T2|rewrite D2; apply Q|done]|].
  intros [] k3 (Q3 & H3 & ws & Hws & _ & Hc). rewrite D2 in Hws, Hc. split; [done|]. split; [done|]. exists f', x'.
  split; [by split|]. split; [done|]. by exists ws.
Qed.
End Atomic.

(** * A concrete instance *)

Lemma quiescent_itable dev ls k me pid l : quiescent dev ls k me pid -> quiescent dev ls (set_k_itable l k) me pid.
Proof.
  intros [B [L1 L2 L3 L4] [] He]. split; try done. destruct B. split; try done. by apply (thread_ext k).
Qed.

Lemma file_write_atomic_witness : exists k, k_itable k !! 0%nat = Some file_sample /\ k_disk k = bitmap_disk /\
  wp disk_round (write_op 0 [1; 2] 1 k) (fun tot k' => exists f' x', holds f' x' 1 (take (Z.to_nat tot) [1; 2]) /\
    byte_at f' x' 0 = Some 104 /\ disk_block (k_disk k') 46 = f' 46).
Proof.
  destruct (with_log_bio 0 bitmap_disk) as (k & B & Hl & Hp & Hpk & _).
  exists (set_k_itable [file_sample] (with_log 0 bitmap_disk k)). split; [reflexivity|]. split; [reflexivity|].
  destruct file_sample_at as (k' & A). pose proof (fa_file _ _ _ _ _ _ _ _ _ _ _ _ A) as Hfo.
  eapply wp_mono; [apply (file_write_atomic 1 2 sb_sample 3 0 0 ltac:(lia) ltac:(lia) _ file_sample 1 [1; 2])|].
  - split; [|reflexivity| | |reflexivity| | |].
    + apply quiescent_itable. split; [exact B|apply log_sample_is|split; [exact Hl|reflexivity..]|].
      exists (replicate (Z.to_nat BSIZE) 0). split; by vm_compute.
    + split; [exact Hpk|discriminate|exact Hp].
    + exact bitmap_sample.
    + exact Hfo.
    + exact file_sample_holes.
    + exact file_sample_inode.
  - lia.
  - unfold writable. rewrite MAXFILE_eq. change BSIZE with 1024. simpl. lia.
  - change BSIZE with 1024. simpl. lia.
  - intros tot k2 (Ht & _ & f' & x' & [_ W1 W2 _ _] & Hd & _). exists f', x'. split; [exact W1|]. split.
    + apply W2; [rewrite MAXFILE_eq; change BSIZE with 1024; lia|by vm_compute|lia].
    + apply Hd. unfold log_area, LOGSIZE, MAXOPBLOCKS. lia.
Defined.
