(* ===== verification/FsDir.v ===== *)
(** Directories (kernel/fs.c: iget(), namecmp(), dirlookup()): a directory as a list of names and inode
    numbers, and the lookup of a name in it. *)

From Stdlib Require Import ZArith Lia.
From stdpp Require Import base gmap list_numbers strings numbers functions list.
From S2P Require Import Prelude Mem Bytes Riscv Kernel Spinlock Kalloc Vm Printf PrintfSpec Sched SchedSpec Thread.
From S2P Require Import Sleeplock SleeplockSpec Virtio Bio BioSpec BioInv VirtioSpec BioProps Log LogSpec LogCrash LogTxn.
From S2P Require Import Fs FsTx FsAlloc FsFile FsRw FsInode.

Open Scope Z_scope.

Implicit Types (k : kernel) (f : Z -> list Z) (x y : inode) (t : list inode) (c : list Z).

(** * Names *)

(** The name that a string stands for: at most DIRSIZ bytes, up to the first NUL. *)
Definition dname (p : cstr) : list Z := str_prefix (Z.to_nat DIRSIZ) p 0.

Lemma strncmp_prefix n : forall (p q : cstr) i, strncmp_loop n p q i = 0 <-> str_prefix n p i = str_prefix n q i.
Proof.
  induction n as [|n IH]; intros p q i; cbn [strncmp_loop str_prefix]; [done|].
  destruct (Z.eqb_spec (p i) 0) as [Ep|Ep]; cbn [negb andb].
  - rewrite Ep. destruct (Z.eqb_spec (q i) 0) as [->|Eq]; [done|]. split; [lia|done].
  - destruct (Z.eqb_spec (p i) (q i)) as [E|E].
    + rewrite <- E, (proj2 (Z.eqb_neq _ _) Ep), IH. split; [by intros ->|by intros [=]].
    + destruct (Z.eqb_spec (q i) 0); split; try lia; intros [=]; lia.
Qed.

Lemma namecmp_eq (p q : cstr) : namecmp p q = 0 <-> dname p = dname q.
Proof. apply strncmp_prefix. Qed.

(** * The entries of a directory *)

(** Entry [i] of the directory with contents [c]: its inode number and its name. *)
Definition dentry c (i : nat) : Z * list Z :=
  let de := take 16 (drop (16 * i) c) in (dirent_inum de, dname (str_of (dirent_name de))).
Definition dentries c : list (Z * list Z) := dentry c <$> seq 0 (length c / 16).

(** The first entry in use with the name. *)
Definition find_name (name : list Z) c : option (nat * Z) :=
  (fun r => (r.1, r.2.1)) <$> list_find (fun e => e.1 <> 0 /\ e.2 = name) (dentries c).

Definition has_name name c i : Prop := (dentry c i).1 <> 0 /\ (dentry c i).2 = name.

Lemma dentries_lookup c i : (i < length c / 16)%nat -> dentries c !! i = Some (dentry c i).
Proof. intros Hi. unfold dentries. by rewrite list_lookup_fmap, lookup_seq_lt by done. Qed.

Lemma find_name_Some name c i : (i < length c / 16)%nat -> has_name name c i ->
  (forall j, (j < i)%nat -> ~ has_name name c j) -> find_name name c = Some (i, (dentry c i).1).
Proof.
  intros Hi Hm Hj. unfold find_name. erewrite (proj2 (list_find_Some _ _ i (dentry c i))); [done|].
  split; [by apply dentries_lookup|]. split; [done|]. intros j y Ey Hlt. rewrite dentries_lookup in Ey by lia.
  injection Ey as <-. by apply Hj.
Qed.

Lemma find_name_None name c : (forall j, (j < length c / 16)%nat -> ~ has_name name c j) -> find_name name c = None.
Proof.
  intros Hj. unfold find_name. rewrite (proj2 (list_find_None _ _)); [done|]. apply Forall_lookup. intros i e E.
  assert (Hi : (i < length c / 16)%nat) by (apply lookup_lt_Some in E; unfold dentries in E; by rewrite length_fmap, length_seq in E).
  rewrite dentries_lookup in E by done. injection E as <-. by apply Hj.
Qed.

(** What readi() gives is a piece of the contents. *)
Lemma holds_piece f x c off got : holds f x 0 c -> holds f x off got -> 0 <= off ->
  off + Z.of_nat (length got) <= Z.of_nat (length c) -> got = take (length got) (drop (Z.to_nat off) c).
Proof.
  intros Hc Hg Hoff Hle. apply list_eq. intros i. destruct (decide (i < length got)%nat) as [Hi|Hi].
  - rewrite lookup_take_lt, lookup_drop by done. destruct (lookup_lt_is_Some_2 got i Hi) as [b Eb]. rewrite Eb.
    destruct (lookup_lt_is_Some_2 c (Z.to_nat off + i)) as [b' Eb']; [lia|]. rewrite Eb'.
    pose proof (Hg i b Eb) as E1. pose proof (Hc _ b' Eb') as E2. rewrite Nat2Z.inj_add, Z2Nat.id in E2 by lia.
    rewrite Z.add_0_l in E2. congruence.
  - rewrite lookup_take_ge by lia. apply lookup_ge_None. lia.
Qed.

(** * iget() *)

(** The entry that iget() sets up for an inode that is not in the table. *)
Definition entered (dev inum : Z) x : inode := set_i_valid 0 (set_i_ref 1 (set_i_inum inum (set_i_dev dev x))).

(** Entry [x] of the table is in use for the inode. *)
Definition in_use_for (dev inum : Z) x : Prop := 0 < i_ref x /\ i_dev x = dev /\ i_inum x = inum.

(** The table [t'] after iget() has returned entry [j]: the entry of the inode with one more reference, or
    an entry that was not in use. *)
Inductive iget_step t (dev inum : Z) (j : nat) : list inode -> Prop :=
  | iget_cached x : t !! j = Some x -> in_use_for dev inum x ->
      iget_step t dev inum j (<[j := set_i_ref (i_ref x + 1) x]> t)
  | iget_new x : t !! j = Some x -> i_ref x = 0 -> Forall (fun y => ~ in_use_for dev inum y) t ->
      iget_step t dev inum j (<[j := entered dev inum x]> t).

Lemma iget_scan_spec dev inum t : forall i empty,
  match iget_scan t i empty dev inum with
  | inl j => exists n x, j = (i + n)%nat /\ t !! n = Some x /\ in_use_for dev inum x
  | inr o => Forall (fun y => ~ in_use_for dev inum y) t /\
      match empty with
      | Some e => o = Some e
      | None => match o with
                | Some j => exists n x, j = (i + n)%nat /\ t !! n = Some x /\ i_ref x = 0
                | None => Forall (fun y => i_ref y <> 0) t
                end
      end
  end.
Proof.
  induction t as [|x t IH]; intros i empty; cbn [iget_scan]; [by destruct empty|].
  destruct ((0 <? i_ref x) && (i_dev x =? dev) && (i_inum x =? inum)) eqn:E.
  { bool_prop. exists 0%nat, x. split; [lia|]. done. }
  assert (Hx : ~ in_use_for dev inum x).
  { intros (H1 & H2 & H3). rewrite (proj2 (Z.ltb_lt _ _) H1), (proj2 (Z.eqb_eq _ _) H2), (proj2 (Z.eqb_eq _ _) H3) in E. done. }
  set (e := match empty with None => _ | Some e => Some e end). specialize (IH (S i) e).
  destruct (iget_scan t (S i) e dev inum) as [j|o].
  - destruct IH as (n & y & -> & Hy). exists (S n), y. split; [lia|done].
  - destruct IH as [Hall Ho]. split; [by constructor|]. subst e. destruct empty as [e|]; [done|].
    destruct (Z.eqb_spec (i_ref x) 0) as [E0|E0].
    + subst o. exists 0%nat, x. split; [lia|]. done.
    + destruct o as [j|]; [|by constructor]. destruct Ho as (n & y & -> & Hy). exists (S n), y. split; [lia|done].
Qed.

Section Table.
Context (dev ls o : Z) (me : nat) (pid : Z).
Context {LS : LinkerSymbols} {BD : BlockDevice} {env : kernel -> kernel -> Prop} {DL : DiskLaws env}.

Lemma data_only_itable (g : list inode -> list inode) : data_only (fun k => set_k_itable (g (k_itable k)) k).
Proof. by intros h cs l []. Qed.

Lemma tx_cpu_ok k bs H f : tx dev ls o k me pid bs H f -> cpu_ok k.
Proof. intros T. eapply thread_cpu_ok, (tx_bio _ _ _ _ _ _ _ _ _ T). Qed.

Lemma iget_run k bs H f inum : tx dev ls o k me pid bs H f -> lock_free k LItable ->
  (exists j t', iget dev inum k = Ret j (set_k_itable t' (relax k)) /\ iget_step (k_itable k) dev inum j t') \/
  (exists k', iget dev inum k = Panic "iget: no inodes" k') /\
    Forall (fun y => i_ref y <> 0 /\ ~ in_use_for dev inum y) (k_itable k).
Proof.
  intros T Hl. pose proof (tx_cpu_ok _ _ _ _ T) as Hok. pose proof (iget_scan_spec dev inum (k_itable k) 0 None) as HS.
  unfold iget. rewrite (bind_run _ _ _ _ _ (acquire_run _ _ Hok Hl)). set (k1 := enter LItable k).
  rewrite (bind_run _ _ k1 (k_itable k) k1) by done.
  destruct (iget_scan (k_itable k) 0 None dev inum) as [j|[j|]].
  - left. destruct HS as (n & x & -> & Hx & Hu). cbn [Nat.add]. rewrite (bind_run _ _ _ _ _ (upd_inode_run _ _ _)).
    rewrite (bind_run _ _ _ _ _ (release_upd k LItable (alter_inode n (fun x => set_i_ref (i_ref x + 1) x)) Hok Hl (data_only_itable _))).
    eexists n, _. split; [unfold ret; by rewrite (alter_inode_insert n _ (relax k) x Hx)|]. by apply iget_cached.
  - left. destruct HS as (Hall & n & x & -> & Hx & Hr). cbn [Nat.add].
    do 4 (rewrite (bind_run _ _ _ _ _ (upd_inode_run _ _ _))). rewrite !alter_inode_alter.
    rewrite (bind_run _ _ _ _ _ (release_upd k LItable (alter_inode n _) Hok Hl (data_only_itable _))).
    eexists n, _. split; [unfold ret; by rewrite (alter_inode_insert n _ (relax k) x Hx)|]. by apply iget_new.
  - right. destruct HS as [H1 H2]. split; [eexists; reflexivity|]. by apply Forall_and.
Qed.
End Table.

(** * dirlookup() *)

(** The file is a directory with contents [c]. *)
Record dir_is f x c : Prop := {
  dr_holes : no_holes f x;
  dr_size_is : Z.of_nat (length c) = i_size x;
  dr_whole : Z.of_nat (length c) mod 16 = 0;
  dr_holds : holds f x 0 c;
}.

Section Lookup.
Context (dev ls o : Z) (sb : superblock) (me : nat) (pid : Z) (dp : nat).
Context {LS : LinkerSymbols} {BD : BlockDevice} {env : kernel -> kernel -> Prop} {DL : DiskLaws env}.

(** One entry is read. *)
Lemma read_entry k bs f x c (i : nat) :
  fs_at dev ls o sb me pid dp k bs [] f x -> dir_is f x c -> (i < length c / 16)%nat -> (length bs < Z.to_nat NBUF)%nat ->
  wp env (readi dp ToVar (16 * Z.of_nat i) dirent_size k) (fun r k' =>
    r = (dirent_size, take 16 (drop (16 * i) c)) /\ fs_at dev ls o sb me pid dp k' bs [] f x /\ tx_frame k k').
Proof.
  intros A [D1 D2 D3 D4] Hi Hn. pose proof (nh_size _ _ D1) as Hsz. rewrite MAXFILE_eq in Hsz. change BSIZE with 1024 in Hsz.
  assert (Hi' : 16 * Z.of_nat i + 16 <= Z.of_nat (length c)).
  { pose proof (Nat.Div0.mul_div_le (length c) 16). nia. }
  change dirent_size with 16. eapply wp_mono; [apply (readi_spec dev ls o sb me pid dp k bs f x (16 * Z.of_nat i) 16 A D1); lia|].
  intros r k' (A' & F & got & -> & Hl & Hg). unfold readable in *. rewrite decide_True in * by lia.
  rewrite Z.min_l in * by lia. split; [|done]. f_equal. assert (El : length got = 16%nat) by lia.
  rewrite (holds_piece f x c _ got D4 Hg), El by lia. f_equal. f_equal. lia.
Qed.

(** The walk through the entries, for any predicate [P] on executions that can be established call by call. *)
Lemma dirlookup_walk (P : outcome kernel (option (nat * Z)) -> Prop) k0 bs f x c name :
  (forall A (m : K A) (g : A -> K (option (nat * Z))) s, wp env (m s) (fun a s' => P (g a s')) -> P (bind m g s)) ->
  dir_is f x c -> (length bs < Z.to_nat NBUF)%nat ->
  (forall k', fs_at dev ls o sb me pid dp k' bs [] f x -> tx_frame k0 k' ->
    match find_name (dname name) c with
    | None => P (Ret None k')
    | Some (i, inum) => P ((let! ip := iget dev inum in ret (Some (ip, 16 * Z.of_nat i))) k')
    end) ->
  forall fuel (i : nat) k, fs_at dev ls o sb me pid dp k bs [] f x -> tx_frame k0 k ->
  (length c / 16 < fuel + i)%nat -> (i <= length c / 16)%nat -> (forall j, (j < i)%nat -> ~ has_name (dname name) c j) ->
  P (dirlookup_loop fuel dp name (16 * Z.of_nat i) k).
Proof.
  intros HP D Hn Hend. induction fuel as [|fuel IH]; intros i k A F Hf Hi Hno; [lia|]. cbn [dirlookup_loop].
  apply HP. rewrite (get_inode_run k dp x) by apply A. cbn [wp].
  pose proof (dr_size_is _ _ _ D) as Hs. pose proof (dr_whole _ _ _ D) as Hw.
  assert (Hdiv : Z.of_nat (length c) = 16 * Z.of_nat (length c / 16)) by (rewrite Nat2Z.inj_div; Z.div_mod_to_equations; lia).
  destruct (Z.ltb_spec (16 * Z.of_nat i) (i_size x)) as [Hlt|Hge].
  2: { specialize (Hend k A F). rewrite find_name_None in Hend; [exact Hend|]. intros j Hj. apply Hno. lia. }
  apply HP. eapply wp_mono; [apply (read_entry k bs f x c i A D); [lia|done]|]. intros r k' (-> & A' & F').
  assert (Fk : tx_frame k0 k') by (by eapply tx_frame_trans). rewrite Z.eqb_refl. cbn [negb].
  replace (16 * Z.of_nat i + dirent_size) with (16 * Z.of_nat (S i)) by (change dirent_size with 16; lia).
  assert (Hskip : ~ has_name (dname name) c i -> P (dirlookup_loop fuel dp name (16 * Z.of_nat (S i)) k')).
  { intros Hne. apply IH; [done|done|lia|lia|]. intros j Hj. destruct (decide (j = i)) as [->|]; [done|]. apply Hno. lia. }
  destruct (Z.eqb_spec (dirent_inum (take 16 (drop (16 * i) c))) 0) as [E|E]; [apply Hskip; by intros [H _]|].
  destruct (Z.eqb_spec (namecmp name (str_of (dirent_name (take 16 (drop (16 * i) c))))) 0) as [En|En].
  - apply namecmp_eq in En. specialize (Hend k' A' Fk). rewrite (find_name_Some _ _ i) in Hend; [|lia|by split|done].
    rewrite (fo_dev _ _ _ _ _ (fa_file _ _ _ _ _ _ _ _ _ _ _ _ A')). exact Hend.
  - apply Hskip. intros [_ H]. apply En, namecmp_eq. by rewrite <- H.
Qed.

(** dirlookup() from the start of a directory, by the walk. *)
Lemma dirlookup_start (P : outcome kernel (option (nat * Z)) -> Prop) k bs f x c name :
  (forall A (m : K A) (g : A -> K (option (nat * Z))) s, wp env (m s) (fun a s' => P (g a s')) -> P (bind m g s)) ->
  fs_at dev ls o sb me pid dp k bs [] f x -> i_type x = T_DIR -> dir_is f x c -> (length bs < Z.to_nat NBUF)%nat ->
  (forall k', fs_at dev ls o sb me pid dp k' bs [] f x -> tx_frame k k' ->
    match find_name (dname name) c with
    | None => P (Ret None k')
    | Some (i, inum) => P ((let! ip := iget dev inum in ret (Some (ip, 16 * Z.of_nat i))) k')
    end) ->
  P (dirlookup dp name k).
Proof.
  intros HP A Ht D Hn Hend. unfold dirlookup. rewrite (bind_run _ _ _ _ _ (get_inode_run k dp x ltac:(apply A))), Ht, Z.eqb_refl. cbn [negb].
  change 0 with (16 * Z.of_nat 0). apply (dirlookup_walk P k bs f x c name HP D Hn Hend); [done|apply tx_frame_refl| |lia|lia].
  rewrite <- (dr_size_is _ _ _ D). change dirent_size with 16. pose proof (Nat2Z.inj_div (length c) 16). lia.
Qed.

Lemma lock_free_frame k k' l : tx_frame k k' -> lock_free k l -> lock_free k' l.
Proof. intros F. unfold lock_free. by rewrite (tx_frame_locks _ _ F). Qed.

Lemma dirlookup_found k bs f x c name i inum :
  fs_at dev ls o sb me pid dp k bs [] f x -> i_type x = T_DIR -> dir_is f x c -> (length bs < Z.to_nat NBUF)%nat ->
  lock_free k LItable -> find_name (dname name) c = Some (i, inum) ->
  Exists (fun y => i_ref y = 0 \/ in_use_for dev inum y) (k_itable k) ->
  wp env (dirlookup dp name k) (fun r k' => exists j t' k1, r = Some (j, 16 * Z.of_nat i) /\
    iget_step (k_itable k) dev inum j t' /\ tx_frame k k1 /\ k' = set_k_itable t' k1 /\ tx dev ls o k1 me pid bs [] f).
Proof.
  intros A Ht D Hn Hl Hfind Hroom. apply (dirlookup_start (fun out => wp env out _) k bs f x c name (fun T m g s => wp_bind env m g s _) A Ht D Hn).
  intros k1 A1 F1. rewrite Hfind. apply (lock_free_frame _ _ _ F1) in Hl. pose proof (fa_tx _ _ _ _ _ _ _ _ _ _ _ _ A1) as T1.
  destruct (iget_run dev ls o me pid k1 bs [] f inum T1 Hl) as [(j & t' & E & S)|[_ Hfull]].
  - eapply wp_bind_run; [exact E|]. rewrite (tx_frame_itable _ _ F1) in S. exists j, t', (relax k1). split; [done|]. split; [done|].
    split; [eauto using tx_frame_trans, relax_tx_frame|]. split; [done|]. by apply tx_relax.
  - rewrite (tx_frame_itable _ _ F1) in Hfull. apply Exists_exists in Hroom as (y & Hy & Hor).
    pose proof (proj1 (Forall_forall _ _) Hfull y Hy) as [H1 H2]. by destruct Hor.
Qed.

Lemma dirlookup_missing k bs f x c name :
  fs_at dev ls o sb me pid dp k bs [] f x -> i_type x = T_DIR -> dir_is f x c -> (length bs < Z.to_nat NBUF)%nat ->
  find_name (dname name) c = None ->
  wp env (dirlookup dp name k) (fun r k' => r = None /\ fs_at dev ls o sb me pid dp k' bs [] f x /\ tx_frame k k').
Proof.
  intros A Ht D Hn Hfind. apply (dirlookup_start (fun out => wp env out _) k bs f x c name (fun T m g s => wp_bind env m g s _) A Ht D Hn).
  intros k1 A1 F1. by rewrite Hfind.
Qed.

(** dirlookup() in a directory with contents [c].  It panics if the inode is not a directory.  If no entry in use has the name, it
    returns 0 and changes nothing.  Otherwise it returns the first such entry: its offset, and an entry of the inode table
    for its inode, with one more reference than before; it panics when the table has no room for it. *)
Theorem dirlookup_correct k bs f x c name :
  fs_at dev ls o sb me pid dp k bs [] f x -> (i_type x = T_DIR -> dir_is f x c) -> (length bs < Z.to_nat NBUF)%nat -> lock_free k LItable ->
  (i_type x <> T_DIR -> dirlookup dp name k = Panic "dirlookup not DIR" k) /\
  (i_type x = T_DIR -> match find_name (dname name) c with
    | None => wp env (dirlookup dp name k) (fun r k' => r = None /\ fs_at dev ls o sb me pid dp k' bs [] f x /\ tx_frame k k')
    | Some (i, inum) =>
        (Exists (fun y => i_ref y = 0 \/ in_use_for dev inum y) (k_itable k) ->
         wp env (dirlookup dp name k) (fun r k' => exists j t' k1, r = Some (j, 16 * Z.of_nat i) /\
           iget_step (k_itable k) dev inum j t' /\ tx_frame k k1 /\ k' = set_k_itable t' k1 /\ tx dev ls o k1 me pid bs [] f)) /\
        (Forall (fun y => i_ref y <> 0 /\ ~ in_use_for dev inum y) (k_itable k) -> panics env (dirlookup dp name k) "iget: no inodes")
    end).
Proof.
  intros A HD Hn Hl. split.
  - intros Ht. unfold dirlookup. rewrite (bind_run _ _ _ _ _ (get_inode_run k dp x ltac:(apply A))). by rewrite (proj2 (Z.eqb_neq _ _) Ht).
  - intros Ht. specialize (HD Ht). destruct (find_name (dname name) c) as [[i inum]|] eqn:E; [split|].
    + intros Hroom. by apply (dirlookup_found k bs f x c name i inum).
    + intros Hfull. apply (dirlookup_start (fun out => panics env out _) k bs f x c name (fun T m g s => panics_bind env m g s _) A Ht HD Hn).
      intros k1 A1 F1. rewrite E. apply (lock_free_frame _ _ _ F1) in Hl.
      destruct (iget_run dev ls o me pid k1 bs [] f inum (fa_tx _ _ _ _ _ _ _ _ _ _ _ _ A1) Hl) as [(j & t' & _ & S)|[[k2 E2] _]].
      * rewrite (tx_frame_itable _ _ F1) in S. exfalso.
        destruct S as [y Hy Hu|y Hy Hr _]; apply list_elem_of_lookup_2 in Hy; pose proof (proj1 (Forall_forall _ _) Hfull y Hy) as [H1 H2]; done.
      * unfold bind. by rewrite E2.
    + by apply (dirlookup_missing k bs f x c name).
Qed.
End Lookup.

(** * A concrete directory *)

(** A kernel with one more lock, which is free. *)
Definition with_lock (l : lockid) (name : string) k : kernel := set_k_locks (<[l := mkSpinlock 0 name None]> (k_locks k)) k.

Lemma with_lock_free l name k l' : lock_free k l' \/ l' = l -> lock_free (with_lock l name k) l'.
Proof.
  intros [Hl| ->]; [|exists name; apply lookup_insert_eq]. destruct (decide (l' = l)) as [->|Hne]; [exists name; apply lookup_insert_eq|].
  destruct Hl as [n E]. exists n. simpl. by rewrite lookup_insert_ne.
Qed.

Lemma with_lock_tx dev ls o me pid k bs f l name : tx dev ls o k me pid bs [] f -> tx dev ls o (with_lock l name k) me pid bs [] f.
Proof.
  intros [B T2 T3 T4 T5 T6 T7 T8 T9]. split; [|by destruct T2|done|apply with_lock_free; by left|done|done|done|done|done].
  destruct B as [[[(i & c & OC & Ec) R1 R2 R3] U] B2 B3 [B4 B4'] B5 B6 B7 B8 B9 B10 B11 B12 B13 B14]. split; try done.
  - split; [split; [exists i, c; split; [by apply (on_cpu_ext k)|done]|done|done|]|].
    + intros j Hj. apply with_lock_free. left. by apply R3.
    + intros i' c' OC'. apply (U i' c'). by apply (on_cpu_ext (with_lock l name k)).
  - apply with_lock_free. by left.
  - intros j Hj. apply with_lock_free. left. by apply B3.
  - split; [apply with_lock_free; by left|done].
Qed.

(** Process 3 inside a transaction, on any disk, with the locks of two entries of the inode table. *)
Lemma itable_sample d : exists k, k_disk k = d /\ tx 1 2 1 k 3 0 [] [] (disk_block d) /\ k_sb k = sb_sample /\ can_print k /\
  lock_free k LItable /\ lock_free k (LInode 0) /\ lock_free k (LInode 1).
Proof.
  destruct (with_log_bio 1 d) as (k & B & Hl & Hp & Hpk & Hi).
  exists (with_lock (LInode 1) "inode" (with_lock LItable "itable" (with_log 1 d k))).
  assert (T : tx 1 2 1 (with_log 1 d k) 3 0 [] [] (disk_block d)).
  { split; try reflexivity; [exact B|apply log_sample_is|apply loggable_nil|exact Hl|]. intros z. apply (content_empty 1 _ 3 0 z B). }
  assert (Hk : forall l, lock_free (with_log 1 d k) l -> lock_free (with_lock (LInode 1) "inode" (with_lock LItable "itable" (with_log 1 d k))) l).
  { intros l Hf. apply with_lock_free. left. apply with_lock_free. by left. }
  split; [reflexivity|]. split; [do 2 apply with_lock_tx; exact T|]. split; [reflexivity|]. split; [split; [exact Hpk|done|exact (Hk _ Hp)]|].
  split; [|split; [exact (Hk _ Hi)|apply with_lock_free; by right]]. apply with_lock_free. left. apply with_lock_free. by right.
Qed.

(** Inode 1 is the root directory, with the entries ".", ".." and "ab", and inode 2 an empty file. *)
Definition dir_inode : inode := mkInode 1 1 1 no_sleeplock 1 T_DIR 0 0 1 48 (46 :: replicate 12 0).
Definition ab_inode : inode := mkInode 1 2 1 no_sleeplock 1 T_FILE 0 0 1 0 (replicate 13 0).
Definition dir_bytes : list Z :=
  [1; 0; 46] ++ replicate 13 0 ++ [1; 0; 46; 46] ++ replicate 12 0 ++ [2; 0; 97; 98] ++ replicate 12 0.

Definition dir_disk : disk :=
  set_dk_blocks (<[46 := dir_bytes ++ replicate 976 0]>
    (<[32 := replicate 64 0 ++ dinode_image dir_inode ++ dinode_image ab_inode ++ replicate 832 0]> (dk_blocks bitmap_disk))) bitmap_disk.

Definition free_entry : inode := mkInode 0 0 0 no_sleeplock 0 0 0 0 0 0 [].

Lemma dir_inode_slot n : 0 <= n <= MAXFILE -> slot (disk_block dir_disk) dir_inode n = if decide (n = 0) then 46 else 0.
Proof.
  intros Hn. assert (Hall : forallb (fun n => slot (disk_block dir_disk) dir_inode n =? if decide (n = 0) then 46 else 0)
    (seqZ 0 (MAXFILE + 1)) = true) by (by vm_compute).
  rewrite forallb_forall in Hall. apply Z.eqb_eq, Hall, list_elem_of_In, elem_of_seqZ. lia.
Qed.

Lemma dir_used b : 0 <= b < 2000 -> used sb_sample (disk_block dir_disk) b = used sb_sample (disk_block bitmap_disk) b.
Proof. intros Hb. unfold used. by rewrite BBLOCK_sample. Qed.

Lemma dir_bitmap : bitmap_ok 2 sb_sample (disk_block dir_disk).
Proof.
  destruct bitmap_sample as [H1 H2 H3 H4 H5]. split; [exact H1|exact H2|exact H3| |].
  - intros b Hb. rewrite BBLOCK_sample by done. by vm_compute.
  - intros b Hb Hu. apply (H5 b Hb). by rewrite <- dir_used.
Qed.

Lemma dir_file_ok : file_ok 1 2 sb_sample (disk_block dir_disk) dir_inode.
Proof.
  split; [reflexivity|reflexivity| |].
  - intros n Hn. rewrite dir_inode_slot by done. case_decide; [|done]. intros _.
    destruct (sample_data_block 46 (or_introl eq_refl)) as [H1 H2 H3 H4 _]. split; [exact H1|by vm_compute|exact H3|exact H4|by vm_compute].
  - intros n m Hn Hm. rewrite !dir_inode_slot by done. repeat case_decide; congruence.
Qed.

Lemma dir_sample_is : dir_is (disk_block dir_disk) dir_inode dir_bytes.
Proof.
  split; [split|reflexivity|reflexivity|].
  - rewrite MAXFILE_eq. change BSIZE with 1024. simpl. lia.
  - intros n Hn Hs. change BSIZE with 1024 in Hs. simpl in Hs. rewrite dir_inode_slot by (rewrite MAXFILE_eq; lia). by rewrite decide_True by lia.
  - intros i b Hi. assert (Hlt : (i < 48)%nat) by (by apply lookup_lt_Some in Hi). revert Hi.
    do 48 (destruct i as [|i]; [intros [= <-]; by vm_compute|]). lia.
Qed.

Definition ab_name : list Z := [97; 98; 0].

Lemma dirlookup_correct_witness : exists k, k_itable k = [dir_inode; free_entry] /\
  wp disk_round (dirlookup 0 (str_of ab_name) k) (fun r k' => r = Some (1%nat, 32) /\ k_itable k' = [dir_inode; entered 1 2 free_entry]).
Proof.
  destruct (itable_sample dir_disk) as (k & _ & T & Hsb & Hcp & Hl & _). exists (set_k_itable [dir_inode; free_entry] k). split; [reflexivity|].
  destruct (dirlookup_correct 1 2 1 sb_sample 3 0 0 (env := disk_round) (set_k_itable [dir_inode; free_entry] k) []
    (disk_block dir_disk) dir_inode dir_bytes (str_of ab_name)) as [_ H].
  - split; [by apply tx_itable|exact Hsb|by apply can_print_itable|exact dir_bitmap|reflexivity|exact dir_file_ok].
  - intros _. exact dir_sample_is.
  - change NBUF with 30. simpl. lia.
  - exact Hl.
  - specialize (H eq_refl). replace (find_name (dname (str_of ab_name)) dir_bytes) with (Some (2%nat, 2)) in H by (by vm_compute).
    destruct H as [H _]. eapply wp_mono; [apply H; right; left; by left|].
    intros r k' (j & t' & k1 & -> & S & _ & -> & _). simpl in S. destruct S as [y Hy (Hu & _ & Hi)|y Hy Hr _].
    + destruct j as [|[|j]]; simpl in Hy; [injection Hy as <-; by vm_compute in Hi|injection Hy as <-; by vm_compute in Hu|done].
    + destruct j as [|[|j]]; simpl in Hy; [injection Hy as <-; by vm_compute in Hr| |done]. by injection Hy as <-.
Defined.
