(* ===== verification/FsPath.v ===== *)
(** Path names (kernel/fs.c: skipelem(), namex(), namei()): the elements of a path, and the inode
    that a path leads to. *)

From Stdlib Require Import ZArith Lia.
From stdpp Require Import base gmap list_numbers strings numbers functions list.
From S2P Require Import Prelude Mem Bytes Riscv Kernel Spinlock Kalloc Vm Printf PrintfSpec Sched SchedSpec Thread.
From S2P Require Import Sleeplock SleeplockSpec Virtio Bio BioSpec BioInv VirtioSpec BioProps Log LogSpec LogCrash LogTxn.
From S2P Require Import Fs FsTx FsAlloc FsFile FsRw FsInode FsDir.

Open Scope Z_scope.

Implicit Types (k : kernel) (f : Z -> list Z) (x y : inode) (t : list inode) (c : list Z) (path : list Z).

(** * The elements of a path *)

(** The parts between slashes; [e] is the part that has been read so far. *)
Fixpoint split_path path (e : list Z) : list (list Z) :=
  match path with
  | [] => if decide (e = []) then [] else [e]
  | ch :: rest =>
      if decide (ch = 47) then (if decide (e = []) then split_path rest [] else e :: split_path rest [])
      else split_path rest (e ++ [ch])
  end.

(** The elements as names of directory entries: a longer one is cut off. *)
Definition elements path : list (list Z) := take (Z.to_nat DIRSIZ) <$> split_path path [].

Lemma skip_slashes_split path : split_path (skip_slashes path) [] = split_path path [].
Proof. induction path as [|ch path IH]; [done|]. simpl. destruct (Z.eqb_spec ch 47); [by rewrite decide_True|done]. Qed.

Lemma skip_slashes_head path : match skip_slashes path with [] => True | ch :: _ => ch <> 47 end.
Proof. induction path as [|ch path IH]; [done|]. simpl. by destruct (Z.eqb_spec ch 47). Qed.

Lemma skip_slashes_le path : (length (skip_slashes path) <= length path)%nat.
Proof. induction path as [|ch path IH]; [done|]. simpl. destruct (ch =? 47); simpl; lia. Qed.

Lemma skip_slashes_in path ch : ch ∈ skip_slashes path -> ch ∈ path.
Proof. induction path as [|a path IH]; [done|]. simpl. destruct (a =? 47); [|done]. intros H. apply list_elem_of_further. by apply IH. Qed.

Lemma take_elem_split path : 0 ∉ path -> forall e, e <> [] \/ (exists ch r, path = ch :: r /\ ch <> 47) ->
  split_path path e = (e ++ (take_elem path).1) :: split_path (take_elem path).2 [].
Proof.
  induction path as [|ch path IH]; intros H0 e He.
  - simpl. destruct He as [He|(? & ? & [=] & _)]. by rewrite decide_False, app_nil_r.
  - simpl. apply not_elem_of_cons in H0 as [H0 H0']. rewrite (proj2 (Z.eqb_neq ch 0)) by done. cbn [negb]. rewrite andb_true_r.
    destruct (Z.eqb_spec ch 47) as [->|Hne]; cbn [negb].
    + destruct He as [He|(a & r & [= <- _] & Hn)]; [|done]. rewrite decide_True, decide_False by done. simpl. by rewrite app_nil_r.
    + rewrite decide_False by done. rewrite IH; [|done|left; by destruct e]. destruct (take_elem path) as [e' r]. simpl. by rewrite <- app_assoc.
Qed.

Lemma take_elem_app path : path = (take_elem path).1 ++ (take_elem path).2.
Proof.
  induction path as [|ch path IH]; [done|]. simpl. destruct (negb (ch =? 47) && negb (ch =? 0)); [|done].
  destruct (take_elem path) as [e r]. simpl in *. by rewrite <- IH.
Qed.

(** The name in the buffer is the element. *)
Lemma str_prefix_app n : forall (s r : list Z) (off : nat) (l : list Z), 0 ∉ s -> (length s = n \/ ((length s < n)%nat /\ exists r', r = 0 :: r')) ->
  l = take off l ++ s ++ r -> (off <= length l)%nat -> str_prefix n (str_of l) (Z.of_nat off) = s.
Proof.
  induction n as [|n IH]; intros s r off l H0 Hn El Hoff.
  - destruct Hn as [Hn|[Hn _]]; [|lia]. by destruct s.
  - cbn [str_prefix]. unfold str_of at 1. rewrite Nat2Z.id.
    assert (Elk : l !! off = (s ++ r) !! 0%nat).
    { rewrite El at 1. rewrite lookup_app_r; rewrite length_take, Nat.min_l by done; [by rewrite Nat.sub_diag|done]. }
    rewrite Elk. destruct s as [|a s].
    + destruct Hn as [Hn|[_ [r' ->]]]; [done|]. done.
    + simpl. apply not_elem_of_cons in H0 as [Ha H0]. rewrite (proj2 (Z.eqb_neq a 0)) by done. unfold str_of at 1. rewrite Nat2Z.id, Elk. simpl. f_equal.
      replace (Z.of_nat off + 1) with (Z.of_nat (S off)) by lia. apply (IH s r); [done| | |].
      * simpl in Hn. destruct Hn as [Hn|[Hn Hr]]; [left; lia|right; split; [lia|done]].
      * rewrite El at 1. replace (take (S off) l) with (take off l ++ [a]); [by rewrite <- app_assoc|].
        symmetry. apply take_S_r. by rewrite Elk.
      * apply lookup_lt_Some with a. by rewrite Elk.
Qed.

Lemma dname_cut (s : list Z) : 0 ∉ s -> length s = Z.to_nat DIRSIZ -> dname (str_of s) = s.
Proof. intros H0 Hl. unfold dname. change 0 with (Z.of_nat 0). apply (str_prefix_app _ s [] 0%nat s); [done|by left|by rewrite app_nil_r|lia]. Qed.

Lemma dname_short (s r : list Z) : 0 ∉ s -> (length s < Z.to_nat DIRSIZ)%nat -> dname (str_of (s ++ [0] ++ r)) = s.
Proof.
  intros H0 Hl. unfold dname. change 0 with (Z.of_nat 0) at 2. apply (str_prefix_app _ s (0 :: r) 0%nat); [done| |done|lia].
  right. split; [done|by exists r].
Qed.

(** skipelem() takes the first element off the path. *)
Lemma skipelem_spec path name : 0 ∉ path ->
  match skipelem path name with
  | None => elements path = []
  | Some (path', name') => elements path = dname (str_of name') :: elements path' /\ (length path' < length path)%nat /\ 0 ∉ path'
  end.
Proof.
  intros H0. unfold skipelem, elements. rewrite <- skip_slashes_split. pose proof (skip_slashes_head path) as Hh.
  pose proof (skip_slashes_le path) as Hle. assert (H1 : 0 ∉ skip_slashes path) by (intros H; by apply skip_slashes_in in H).
  destruct (skip_slashes path) as [|ch r] eqn:Es; [done|]. pose proof H1 as [Hch _]%not_elem_of_cons.
  rewrite (proj2 (Z.eqb_neq ch 0)) by done.
  pose proof (take_elem_split (ch :: r) H1 [] (or_intror (ex_intro _ ch (ex_intro _ r (conj eq_refl Hh))))) as E.
  pose proof (take_elem_app (ch :: r)) as Ea. destruct (take_elem (ch :: r)) as [s p] eqn:Et. cbn [fst snd app] in E, Ea.
  rewrite Ea in H1. apply not_elem_of_app in H1 as [Hs Hp].
  assert (Hne : s <> []).
  { intros ->. simpl in Et. rewrite (proj2 (Z.eqb_neq ch 47)), (proj2 (Z.eqb_neq ch 0)) in Et by done. simpl in Et. by destruct (take_elem r). }
  apply (f_equal length) in Ea. rewrite length_app in Ea. pose proof (skip_slashes_le p) as Hp'.
  split; [|split; [destruct s; simpl in *; [done|lia]|intros H; by apply skip_slashes_in in H]].
  rewrite E, fmap_cons, skip_slashes_split. f_equal. destruct (Z.leb_spec DIRSIZ (Z.of_nat (length s))) as [Hl|Hl].
  - rewrite dname_cut; [done|intros [i [Hi _]%lookup_take_Some]%list_elem_of_lookup; by apply Hs; eapply list_elem_of_lookup_2|]. rewrite length_take. lia.
  - rewrite dname_short by (done || lia). by rewrite take_ge by lia.
Qed.

(** * Inodes on the disk *)

Definition disk_ino (sb : superblock) f (n : Z) : option dinode := dinode_of (dinode_off n) (f (IBLOCK n sb)).

(** The table entry has the fields of the disk inode. *)
Definition filled (di : dinode) x : Prop :=
  i_type x = di_type di /\ i_nlink x = di_nlink di /\ i_size x = di_size di /\ i_addrs x = di_addrs di.

(** The inode of a disk inode, as the table would hold it. *)
Definition inode_of (dev n : Z) (di : dinode) : inode :=
  mkInode dev n 1 no_sleeplock 1 (di_type di) (di_major di) (di_minor di) (di_nlink di) (di_size di) (di_addrs di).

Lemma slot_addrs f x y m : i_addrs y = i_addrs x -> slot f y m = slot f x m.
Proof. intros E. unfold slot. by rewrite E. Qed.

Lemma file_ok_addrs dev ls sb f x y : i_dev y = i_dev x -> i_addrs y = i_addrs x -> file_ok dev ls sb f x -> file_ok dev ls sb f y.
Proof.
  intros Ed Ea [H1 H2 H3 H4]. pose proof (fun m => slot_addrs f x y m Ea) as Es. split; [congruence|congruence| |].
  - intros n Hn. rewrite Es. by apply H3.
  - intros n m Hn Hm. rewrite !Es. by apply H4.
Qed.

Lemma no_holes_addrs f x y : i_size y = i_size x -> i_addrs y = i_addrs x -> no_holes f x -> no_holes f y.
Proof.
  intros Ed Ea [H1 H2]. split; [by rewrite Ed|]. intros n Hn. rewrite Ed, (slot_addrs f x y) by done. by apply H2.
Qed.

Lemma holds_addrs f x y off c : i_addrs y = i_addrs x -> holds f x off c -> holds f y off c.
Proof. intros Ea H i b Hi. unfold byte_at. rewrite (slot_addrs f x y) by done. by apply H. Qed.

Lemma dir_is_addrs f x y c : i_size y = i_size x -> i_addrs y = i_addrs x -> dir_is f x c -> dir_is f y c.
Proof.
  intros Ed Ea [H1 H2 H3 H4]. split; [by apply (no_holes_addrs f x)|congruence|done|by apply (holds_addrs f x)].
Qed.

(** * References *)

Definition sum_of (w : inode -> Z) t : Z := foldr (fun x acc => w x + acc) 0 t.

Lemma sum_of_insert w t j x y : t !! j = Some x -> sum_of w (<[j := y]> t) = sum_of w t + (w y - w x).
Proof.
  revert j. induction t as [|z t IH]; intros [|j]; try done; simpl; [intros [= ->]; lia|].
  intros E. rewrite (IH j E). lia.
Qed.

(** The references to inode [n], and the entries that are not in use. *)
Definition w_ref (dev n : Z) x : Z := if (0 <? i_ref x) && (i_dev x =? dev) && (i_inum x =? n) then i_ref x else 0.
Definition w_free x : Z := if decide (i_ref x = 0) then 1 else 0.
Definition refs (dev n : Z) t : Z := sum_of (w_ref dev n) t.
Definition nfree t : Z := sum_of w_free t.
Definition one (m n : Z) : Z := if decide (m = n) then 1 else 0.

Lemma w_ref_same dev m x y : i_ref y = i_ref x -> i_dev y = i_dev x -> i_inum y = i_inum x -> w_ref dev m y = w_ref dev m x.
Proof. intros E1 E2 E3. unfold w_ref. by rewrite E1, E2, E3. Qed.

Lemma w_free_same x y : i_ref y = i_ref x -> w_free y = w_free x.
Proof. intros E. unfold w_free. by rewrite E. Qed.

Lemma w_ref_add dev n m x y d : in_use_for dev n x -> 0 <= i_ref x + d -> i_ref y = i_ref x + d -> i_dev y = i_dev x -> i_inum y = i_inum x ->
  w_ref dev m y = w_ref dev m x + d * one m n.
Proof.
  intros (H1 & H2 & H3) Hd E1 E2 E3. unfold w_ref, one. rewrite E1, E2, E3, H2, H3, Z.eqb_refl, !andb_true_r.
  destruct (Z.eqb_spec n m) as [->|Hne]; [rewrite decide_True by done|rewrite decide_False by congruence; rewrite !andb_false_r; lia].
  rewrite !andb_true_r. destruct (Z.ltb_spec 0 (i_ref x + d)), (Z.ltb_spec 0 (i_ref x)); lia.
Qed.

Lemma w_ref_new dev n m x : i_ref x = 0 -> w_ref dev m x = 0 /\ w_ref dev m (entered dev n x) = one m n.
Proof.
  intros E. unfold w_ref, one. rewrite E. split; [done|]. simpl. rewrite Z.eqb_refl. cbn [andb].
  destruct (Z.eqb_spec n m) as [->|]; [by rewrite decide_True|]. by rewrite decide_False by congruence.
Qed.

Lemma nfree_exists t : 1 <= nfree t -> Exists (fun y => i_ref y = 0) t.
Proof.
  unfold nfree. induction t as [|x t IH]; simpl; [lia|]. unfold w_free at 1. case_decide; [by left|]. intros Hn. right. by apply IH.
Qed.

Section Walk.
Context (dev ls o : Z) (sb : superblock) (me : nat) (pid : Z).
Context {LS : LinkerSymbols} {BD : BlockDevice} {env : kernel -> kernel -> Prop} {DL : DiskLaws env}.

(** The disk inode is a directory in use with contents [c]. *)
Record disk_dir f (n : Z) (di : dinode) c : Prop := {
  dd_block : IBLOCK n sb < 2 ^ 31;
  dd_inode : disk_ino sb f n = Some di;
  dd_type : di_type di = T_DIR;
  dd_linked : di_nlink di <> 0;
  dd_file : file_ok dev ls sb f (inode_of dev n di);
  dd_dir : dir_is f (inode_of dev n di) c;
}.

(** The path with the elements [es], starting at inode [n], leads to an inode, or to none: a name is not in its directory,
    or an inode that is not a directory is followed by more elements. *)
Inductive resolves f : Z -> list (list Z) -> option Z -> Prop :=
  | resolves_here n : resolves f n [] (Some n)
  | resolves_down n di c name i n1 es r : disk_dir f n di c -> find_name name c = Some (i, n1) ->
      resolves f n1 es r -> resolves f n (name :: es) r
  | resolves_missing n di c name es : disk_dir f n di c -> find_name name c = None -> resolves f n (name :: es) None
  | resolves_file n di name es : IBLOCK n sb < 2 ^ 31 -> disk_ino sb f n = Some di -> di_type di <> T_DIR -> di_type di <> 0 ->
      di_nlink di <> 0 -> resolves f n (name :: es) None.

(** The state [k0] in which the walk starts, and the blocks. *)
Context (k0 : kernel) (bs : list Z) (f : Z -> list Z).
Context (Hsb : k_sb k0 = sb) (Hcp : can_print k0) (Hbm : bitmap_ok ls sb f) (Hnb : (length bs < Z.to_nat NBUF)%nat).
Context (Hit : lock_free k0 LItable) (Hil : forall j, (j < length (k_itable k0))%nat -> lock_free k0 (LInode j)).

(** The state during the walk: only the inode table is [t]. *)
Record at_table k t : Prop := {
  at_tx : tx dev ls o k me pid bs [] f;
  at_frame : tx_frame (set_k_itable t k0) k;
  at_len : length t = length (k_itable k0);
}.

Lemma at_itable k t : at_table k t -> k_itable k = t.
Proof. intros A. by rewrite (tx_frame_itable _ _ (at_frame _ _ A)). Qed.

Lemma at_sb k t : at_table k t -> k_sb k = sb.
Proof. intros A. rewrite (tx_frame_sb _ _ (at_frame _ _ A)). exact Hsb. Qed.

Lemma at_lock k t l : at_table k t -> lock_free k0 l -> lock_free k l.
Proof. intros A. apply (lock_free_frame _ _ _ (at_frame _ _ A)). Qed.

Lemma at_inode_lock k t j : at_table k t -> (j < length t)%nat -> lock_free k (LInode j).
Proof. intros A Hj. apply (at_lock _ _ _ A), Hil. by rewrite <- (at_len _ _ A). Qed.

Lemma frame_table k t t' k' : tx_frame (set_k_itable t k0) k -> tx_frame k k' -> tx_frame (set_k_itable t' k0) (set_k_itable t' k').
Proof.
  intros F1 F2. pose proof (tx_frame_trans _ _ _ F1 F2) as F. unfold tx_frame in *.
  change (core (set_k_itable t' k')) with (set_k_itable t' (core k')). rewrite F. by destruct k0.
Qed.

Lemma at_step k t t' k' : at_table k t -> tx_frame k k' -> tx dev ls o k' me pid bs [] f -> length t' = length t ->
  at_table (set_k_itable t' k') t'.
Proof.
  intros [A1 A2 A3] F T Hl. split; [by apply tx_itable| |congruence]. by eapply frame_table.
Qed.

Lemma at_ip k t k' j y : at_table k t -> ip_frame j k k' -> tx dev ls o k' me pid bs [] f -> k_itable k' !! j = Some y ->
  at_table k' (<[j := y]> t).
Proof.
  intros A [x F] T Ey. pose proof (at_itable _ _ A) as Et. pose proof (tx_frame_itable _ _ F) as Et'.
  change (k_itable (set_k_itable (<[j := x]> (k_itable k)) k)) with (<[j := x]> (k_itable k)) in Et'. rewrite Et in *.
  assert (x = y) as ->.
  { rewrite Et' in Ey. pose proof (lookup_lt_Some _ _ _ Ey) as Hlt. rewrite length_insert in Hlt.
    rewrite list_lookup_insert_eq in Ey by done. by injection Ey. }
  split; [done| |by rewrite length_insert, (at_len _ _ A)].
  eapply tx_frame_trans; [|exact F]. eapply (frame_table k t _ k); [apply A|apply tx_frame_refl].
Qed.

(** iget() for a table with room. *)
Lemma at_iget k t n : at_table k t -> Exists (fun y => i_ref y = 0 \/ in_use_for dev n y) t ->
  exists j t' k', iget dev n k = Ret j k' /\ iget_step t dev n j t' /\ at_table k' t'.
Proof.
  intros A Hroom. pose proof (at_itable _ _ A) as Et. pose proof (at_tx _ _ A) as T.
  destruct (iget_run dev ls o me pid k bs [] f n T (at_lock _ _ _ A Hit)) as [(j & t' & E & S)|[_ Hfull]]; rewrite Et in *.
  - exists j, t', (set_k_itable t' (relax k)). split; [done|]. split; [done|].
    apply (at_step k t); [done|apply relax_tx_frame|by apply tx_relax|]. by destruct S; rewrite length_insert.
  - apply Exists_exists in Hroom as (y & Hy & Hor). pose proof (proj1 (Forall_forall _ _) Hfull y Hy) as [H1 H2]. by destruct Hor.
Qed.

(** An entry that is valid has the fields of its disk inode. *)
Definition coherent x : Prop := i_valid x <> 0 -> exists di, disk_ino sb f (i_inum x) = Some di /\ filled di x.

(** The entry once it has been locked and filled in. *)
Record locked_from (di : dinode) x y : Prop := {
  lf_filled : filled di y;
  lf_valid : i_valid y <> 0;
  lf_ref : i_ref y = i_ref x;
  lf_dev : i_dev y = i_dev x;
  lf_inum : i_inum y = i_inum x;
  lf_lock : i_lock y = mkSleeplock 1 (sl_name (i_lock x)) pid;
}.

Lemma at_ilock k t j x di : at_table k t -> t !! j = Some x -> 1 <= i_ref x -> i_dev x = dev -> sl_locked (i_lock x) = 0 -> coherent x ->
  disk_ino sb f (i_inum x) = Some di -> di_type di <> 0 -> IBLOCK (i_inum x) sb < 2 ^ 31 ->
  wp env (ilock (Some j) k) (fun _ k' => exists y, at_table k' (<[j := y]> t) /\ locked_from di x y).
Proof.
  intros A Hx Hr Hd Hl Hc Hdi Ht Hb. pose proof (at_itable _ _ A) as Et. assert (Hx' : k_itable k !! j = Some x) by (by rewrite Et).
  assert (Hlt : (j < length t)%nat) by (by eapply lookup_lt_Some).
  destruct (ilock_start dev ls o me pid j k bs f x (at_tx _ _ A) Hx' Hl (at_inode_lock _ _ _ A Hlt) Hr) as (k1 & T1 & Hsb1 & Hip1 & F1 & E).
  rewrite E, (at_sb _ _ A) in *. pose proof (at_ip _ _ _ _ _ A F1 T1 Hip1) as A1. destruct (Z.eqb_spec (i_valid x) 0) as [Hv|Hv].
  - apply (ilock_load dev ls o sb me pid j (fun out => wp env out _) k1 bs f (locked_by pid x) di (fun B m g s => wp_bind env m g s _)
      T1 Hsb1 Hip1 Hd Hnb Hb Hdi). intros k' T' Hip' F'. rewrite (proj2 (Z.eqb_neq _ _) Ht). cbn [wp ret].
    exists (loaded di (locked_by pid x)). split; [|by split].
    pose proof (at_ip _ _ _ _ _ A1 F' T' Hip') as A2. by rewrite list_insert_insert_eq in A2.
  - destruct (Hc Hv) as (di' & Hdi' & Hf). rewrite Hdi in Hdi'. injection Hdi' as <-. cbn [wp ret]. exists (locked_by pid x). split; [done|]. by split.
Qed.

Lemma tx_wake k chan : tx dev ls o k me pid bs [] f -> tx dev ls o (set_procs (imap (wake (Some me) chan) (k_procs k)) k) me pid bs [] f.
Proof. intros [T1 T2 T3 T4 T5 T6 T7 T8 T9]. split; try done; [by apply bio_procs|]. by destruct T2. Qed.

(** The entry once it has been unlocked and one reference has been given back. *)
Definition dropped y : inode := set_i_ref (i_ref y - 1) (set_i_lock (mkSleeplock 0 (sl_name (i_lock y)) 0) y).

Lemma at_iunlock k t j y : at_table k t -> t !! j = Some y -> sl_locked (i_lock y) = 1 -> sl_pid (i_lock y) = pid -> 1 <= i_ref y ->
  exists k', iunlock (Some j) k = Ret tt k' /\ at_table k' (<[j := set_i_lock (mkSleeplock 0 (sl_name (i_lock y)) 0) y]> t).
Proof.
  intros A Hy Hl Hp Hr. pose proof (at_itable _ _ A) as Et. assert (Hy' : k_itable k !! j = Some y) by (by rewrite Et).
  assert (Hlt : (j < length t)%nat) by (by eapply lookup_lt_Some). pose proof (at_tx _ _ A) as T.
  pose proof (tx_relax dev ls o me pid k bs [] f T) as Tr. pose proof (at_inode_lock _ _ _ A Hlt) as Hf.
  pose proof (holdingsleep_run k me pid (SInode j) (i_lock y) (bi_thread _ _ _ _ _ _ (tx_bio _ _ _ _ _ _ _ _ _ T)) Hf
    ltac:(simpl; by rewrite Hy')) as Eh. rewrite Hl, Hp, Z.eqb_refl in Eh. cbn [negb Z.eqb andb] in Eh.
  pose proof (releasesleep_run (relax k) me pid (SInode j) (i_lock y) (bi_thread _ _ _ _ _ _ (tx_bio _ _ _ _ _ _ _ _ _ Tr)) Hf
    ltac:(simpl; by rewrite Hy')) as Er.
  eexists. cbn [iunlock]. rewrite (bind_run _ _ _ _ _ Eh). cbn [negb]. rewrite (bind_run _ _ _ _ _ (get_inode_run (relax k) j y Hy')).
  rewrite (proj2 (Z.ltb_ge _ 1)) by lia. rewrite Er, relax_idem. split; [reflexivity|].
  change (alter_sl (SInode j) ?g) with (alter_inode j (fun x => set_i_lock (g (i_lock x)) x)).
  rewrite (alter_inode_insert j _ (relax k) y Hy'). change (k_itable (relax k)) with (k_itable k). rewrite Et.
  set (t' := <[j := _]> t). pose proof (tx_wake _ (Some (sl_chan (SInode j))) Tr) as Tw.
  apply (at_step k t t' _ A) in Tw; [exact Tw| |by unfold t'; rewrite length_insert].
  unfold tx_frame. rewrite core_set_procs, core_relax. by destruct k.
Qed.

Lemma at_iput k t j y : at_table k t -> t !! j = Some y -> i_nlink y <> 0 ->
  exists k', iput j k = Ret tt k' /\ at_table k' (<[j := set_i_ref (i_ref y - 1) y]> t).
Proof.
  intros A Hy Hn. pose proof (at_itable _ _ A) as Et. assert (Hy' : k_itable k !! j = Some y) by (by rewrite Et).
  pose proof (at_tx _ _ A) as T. pose proof (tx_cpu_ok _ _ _ _ _ _ _ _ _ T) as Hok. pose proof (at_lock _ _ _ A Hit) as Hl.
  eexists. unfold iput. rewrite (bind_run _ _ _ _ _ (acquire_run _ _ Hok Hl)), (bind_run _ _ _ _ _ (get_inode_run (enter LItable k) j y Hy')).
  rewrite (proj2 (Z.eqb_neq (i_nlink y) 0)), andb_false_r by done. cbn [when]. rewrite bind_ret.
  rewrite (bind_run _ _ _ _ _ (upd_inode_run _ _ _)).
  rewrite (release_upd k LItable (alter_inode j (fun x => set_i_ref (i_ref x - 1) x)) Hok Hl (data_only_itable _)). split; [reflexivity|].
  rewrite (alter_inode_insert j _ (relax k) y Hy'). change (k_itable (relax k)) with (k_itable k). rewrite Et.
  apply (at_step k t); [done|apply relax_tx_frame|by apply tx_relax|by rewrite length_insert].
Qed.

Lemma at_iunlockput k t j y : at_table k t -> t !! j = Some y -> sl_locked (i_lock y) = 1 -> sl_pid (i_lock y) = pid -> 1 <= i_ref y ->
  i_nlink y <> 0 -> exists k', iunlockput j k = Ret tt k' /\ at_table k' (<[j := dropped y]> t).
Proof.
  intros A Hy Hl Hp Hr Hn. destruct (at_iunlock k t j y A Hy Hl Hp Hr) as (k1 & E1 & A1).
  destruct (at_iput k1 _ j _ A1 ltac:(apply list_lookup_insert_eq; by eapply lookup_lt_Some) Hn) as (k2 & E2 & A2).
  rewrite list_insert_insert_eq in A2. exists k2. split; [|done]. unfold iunlockput. by rewrite (bind_run _ _ _ _ _ E1).
Qed.

(** * One step of the walk, on the table *)

(** No entry is locked, and valid entries agree with the disk. *)
Definition entry_ok x : Prop := 0 <= i_ref x /\ sl_locked (i_lock x) = 0 /\ (0 < i_ref x -> i_dev x = dev -> coherent x).
Definition table_ok t : Prop := Forall entry_ok t.

(** The walk holds a reference to inode [n], in entry [j], and leaves room for one more entry. *)
Definition holding_ref t (j : nat) (n : Z) x : Prop :=
  t !! j = Some x /\ in_use_for dev n x /\ 1 <= nfree t /\ (2 <= i_ref x -> 2 <= nfree t).

Lemma nfree_keep t j x y : t !! j = Some x -> i_ref y = i_ref x -> nfree (<[j := y]> t) = nfree t.
Proof. intros Hx E. unfold nfree. rewrite (sum_of_insert _ _ _ _ _ Hx), (w_free_same x y E). lia. Qed.

(** An entry that is given back. *)
Lemma dropped_ok di x y n : entry_ok x -> in_use_for dev n x -> disk_ino sb f n = Some di -> locked_from di x y ->
  entry_ok (dropped y) /\ (forall m, w_ref dev m (dropped y) = w_ref dev m x - one m n) /\
  w_free (dropped y) = if decide (i_ref x = 1) then 1 else 0.
Proof.
  intros (E1 & E2 & E3) Hu Hdi [L1 L2 L3 L4 L5 L6]. pose proof Hu as (H1 & H2 & H3). split; [|split].
  - split; [simpl; lia|]. split; [done|]. intros _ _ _. exists di. simpl. rewrite L5, H3. done.
  - intros m. rewrite (w_ref_add dev n m x (dropped y) (-1)); simpl; [lia|done|lia|lia|done|done].
  - unfold w_free. simpl. rewrite L3. repeat case_decide; lia.
Qed.

Lemma in_use_ne t j x j1 x1 : t !! j = Some x -> t !! j1 = Some x1 -> 0 < i_ref x -> i_ref x1 = 0 -> j1 <> j.
Proof. intros E1 E2 H1 H2 ->. rewrite E1 in E2. injection E2 as ->. lia. Qed.

Lemma insert_twice t (j j1 : nat) x y z : j1 <> j -> <[j := z]> (<[j1 := y]> (<[j := x]> t)) = <[j := z]> (<[j1 := y]> t).
Proof. intros Hne. by rewrite (list_insert_insert_ne _ j1 j), list_insert_insert_eq. Qed.

(** The next inode is entered in another entry, and this one given back. *)
Lemma step_other t j n x di y j1 n1 x1 z : table_ok t -> holding_ref t j n x -> disk_ino sb f n = Some di -> locked_from di x y ->
  j1 <> j -> t !! j1 = Some x1 -> entry_ok z -> in_use_for dev n1 z ->
  (forall m, w_ref dev m z = w_ref dev m x1 + one m n1) -> (i_ref z = i_ref x1 + 1) -> 0 <= i_ref x1 ->
  let t3 := <[j := dropped y]> (<[j1 := z]> t) in
  table_ok t3 /\ holding_ref t3 j1 n1 z /\ forall m, refs dev m t3 = refs dev m t - one m n + one m n1.
Proof.
  intros HT (Hx & Hu & Hf & Hf2) Hdi HL Hne Hx1 Hz Hzu Hw Hr Hr0 t3. pose proof (Forall_lookup_1 _ _ _ _ HT Hx) as Hex.
  destruct (dropped_ok di x y n Hex Hu Hdi HL) as (D1 & D2 & D3). pose proof Hu as (U1 & _).
  assert (Hx' : (<[j1 := z]> t) !! j = Some x) by (by rewrite list_lookup_insert_ne).
  assert (Hsum : forall w, sum_of w t3 = sum_of w t + (w z - w x1) + (w (dropped y) - w x)).
  { intros w. unfold t3. by rewrite (sum_of_insert _ _ _ _ _ Hx'), (sum_of_insert _ _ _ _ _ Hx1). }
  split; [|split].
  - apply Forall_insert; [|done]. by apply Forall_insert.
  - split; [unfold t3; rewrite list_lookup_insert_ne by done; apply list_lookup_insert_eq; by eapply lookup_lt_Some|]. split; [done|].
    unfold nfree in *. rewrite Hsum, D3. set (F := sum_of w_free t) in *.
    unfold w_free. rewrite !(decide_False (P := i_ref x = 0)), (decide_False (P := i_ref z = 0)) by lia. repeat case_decide; lia.
  - intros m. unfold refs. rewrite Hsum, Hw, D2. lia.
Qed.

(** After dirlookup() has found [n1] in the directory [n] and the directory has been given back. *)
Lemma step_table t j n x di y j1 n1 t2 : table_ok t -> holding_ref t j n x -> disk_ino sb f n = Some di -> locked_from di x y ->
  iget_step (<[j := y]> t) dev n1 j1 t2 ->
  exists y2 z, t2 !! j = Some y2 /\ i_lock y2 = i_lock y /\ 1 <= i_ref y2 /\ i_nlink y2 = i_nlink y /\
    let t3 := <[j := dropped y2]> t2 in
    table_ok t3 /\ holding_ref t3 j1 n1 z /\ forall m, refs dev m t3 = refs dev m t - one m n + one m n1.
Proof.
  intros HT HH Hdi HL HS. pose proof HH as (Hx & Hu & Hf & Hf2). pose proof Hu as (U1 & U2 & U3). pose proof HL as [L1 L2 L3 L4 L5 L6].
  assert (Hlt : (j < length t)%nat) by (by eapply lookup_lt_Some). destruct HS as [x1 Hx1 Hu1|x1 Hx1 Hr1 Hno].
  - destruct (decide (j1 = j)) as [->|Hne].
    + rewrite list_lookup_insert_eq in Hx1 by done. injection Hx1 as <-. destruct Hu1 as (V1 & V2 & V3). assert (n1 = n) as -> by congruence.
      rewrite list_insert_insert_eq. set (y2 := set_i_ref (i_ref y + 1) y). exists y2, (dropped y2).
      split; [by apply list_lookup_insert_eq|]. split; [done|]. split; [simpl; lia|]. split; [done|]. cbv zeta. rewrite list_insert_insert_eq.
      assert (Hrd : i_ref (dropped y2) = i_ref x) by (simpl; lia). split; [|split].
      * apply Forall_insert; [done|]. split; [lia|]. split; [done|]. intros _ _ _. exists di. simpl. by rewrite L5, U3.
      * split; [by apply list_lookup_insert_eq|]. split; [split; [lia|]; simpl; by rewrite L4, L5|]. by rewrite (nfree_keep t j x), Hrd.
      * intros m. unfold refs. rewrite (sum_of_insert _ _ _ _ _ Hx), (w_ref_same dev m x (dropped y2)) by done. lia.
    + rewrite list_lookup_insert_ne in Hx1 by done. exists y, (set_i_ref (i_ref x1 + 1) x1).
      split; [rewrite list_lookup_insert_ne by done; by apply list_lookup_insert_eq|]. split; [done|]. split; [lia|]. split; [done|]. cbv zeta.
      rewrite insert_twice by done.
      pose proof (Forall_lookup_1 _ _ _ _ HT Hx1) as (E1 & E2 & E3). destruct Hu1 as (V1 & V2 & V3).
      apply (step_other t j n x di y j1 n1 x1); try done; [split; [simpl; lia|]; split; [done|]; intros _ Hd; exact (E3 V1 Hd)|split; [simpl; lia|done]|].
      intros m. rewrite (w_ref_add dev n1 m x1 _ 1); simpl; [lia|done|lia|done|done|done].
  - assert (Hne : j1 <> j).
    { apply (in_use_ne (<[j := y]> t) j y j1 x1); [by apply list_lookup_insert_eq|done|lia|done]. }
    rewrite list_lookup_insert_ne in Hx1 by done. exists y, (entered dev n1 x1).
    split; [rewrite list_lookup_insert_ne by done; by apply list_lookup_insert_eq|]. split; [done|]. split; [lia|]. split; [done|]. cbv zeta.
    rewrite insert_twice by done. pose proof (Forall_lookup_1 _ _ _ _ HT Hx1) as (E1 & E2 & E3).
    apply (step_other t j n x di y j1 n1 x1); try done; [split; [simpl; lia|]; split; [done|]; intros _ _ Hv; by destruct Hv| |simpl; lia].
    intros m. destruct (w_ref_new dev n1 m x1 Hr1) as [-> ->]. lia.
Qed.

(** * namex() *)

(** What the walk from a reference to [n] leaves: the reference is exchanged for one to the inode that the path leads to, or given
    back. *)
Definition walked t n (r : option Z) (res : option nat) t' : Prop :=
  table_ok t' /\
  match r with
  | Some m => exists j x, res = Some j /\ holding_ref t' j m x /\ forall i, refs dev i t' = refs dev i t - one i n + one i m
  | None => res = None /\ forall i, refs dev i t' = refs dev i t - one i n
  end.

(** The directory is locked and the inode is looked at. *)
Lemma walk_lock k t j n x di : at_table k t -> table_ok t -> holding_ref t j n x -> disk_ino sb f n = Some di -> di_type di <> 0 ->
  IBLOCK n sb < 2 ^ 31 ->
  wp env (ilock (Some j) k) (fun _ k' => exists y, at_table k' (<[j := y]> t) /\ locked_from di x y /\ (<[j := y]> t) !! j = Some y).
Proof.
  intros A HT (Hx & (U1 & U2 & U3) & _) Hdi Ht Hb. pose proof (Forall_lookup_1 _ _ _ _ HT Hx) as (E1 & E2 & E3).
  eapply wp_mono; [apply (at_ilock k t j x di A Hx ltac:(lia) U2 E2 (E3 U1 U2)); [by rewrite U3|done|by rewrite U3]|].
  intros _ k' (y & A' & L). exists y. split; [done|]. split; [done|]. apply list_lookup_insert_eq. by eapply lookup_lt_Some.
Qed.

(** The walk ends here: the directory or file is given back. *)
Lemma walk_stop k t j n x di y : at_table k (<[j := y]> t) -> table_ok t -> holding_ref t j n x -> disk_ino sb f n = Some di -> di_nlink di <> 0 ->
  locked_from di x y -> exists k' t', iunlockput j k = Ret tt k' /\ at_table k' t' /\ walked t n None None t'.
Proof.
  intros A HT (Hx & Hu & _) Hdi Hn HL. pose proof HL as [L1 L2 L3 L4 L5 L6]. pose proof Hu as (U1 & _).
  destruct (dropped_ok di x y n (Forall_lookup_1 _ _ _ _ HT Hx) Hu Hdi HL) as (D1 & D2 & _). destruct L1 as (_ & F2 & _).
  destruct (at_iunlockput k (<[j := y]> t) j y A) as (k' & E & A'); rewrite ?L6; try done; [apply list_lookup_insert_eq; by eapply lookup_lt_Some|lia|congruence|].
  rewrite list_insert_insert_eq in A'. exists k', (<[j := dropped y]> t). split; [done|]. split; [done|]. split; [by apply Forall_insert|].
  split; [done|]. intros i. unfold refs. rewrite (sum_of_insert _ _ _ _ _ Hx), D2. lia.
Qed.

Lemma at_fs k t j y : at_table k t -> t !! j = Some y -> file_ok dev ls sb f y -> fs_at dev ls o sb me pid j k bs [] f y.
Proof.
  intros A Hy Hf. split; [apply A|by eapply at_sb| |done|by rewrite (at_itable _ _ A)|done].
  apply (can_print_frame _ _ (at_frame _ _ A)). by apply can_print_itable.
Qed.

(** The directory [n] has been locked in entry [j], whose inode is now [y]. *)
Record in_dir k t j n x di c y : Prop := {
  in_at : at_table k (<[j := y]> t);
  in_disk : disk_dir f n di c;
  in_locked : locked_from di x y;
  in_type : i_type y = T_DIR;
  in_fs : fs_at dev ls o sb me pid j k bs [] f y;
  in_contents : dir_is f y c;
}.

Lemma walk_dir {A} k t j n x di c (g : inode -> K A) Q : at_table k t -> table_ok t -> holding_ref t j n x -> disk_dir f n di c ->
  (forall y k1, in_dir k1 t j n x di c y -> wp env (g y k1) Q) ->
  wp env ((do! ilock (Some j); let! y := get_inode j in g y) k) Q.
Proof.
  intros At HT HH D HQ. pose proof D as [D1 D2 D3 D4 D5 D6].
  apply wp_bind. eapply wp_mono; [apply (walk_lock k t j n x di At HT HH D2); [by rewrite D3|done]|].
  intros _ k1 (y & A1 & L & Ey). eapply wp_bind_run; [apply (get_inode_run k1 j y); by rewrite (at_itable _ _ A1)|].
  pose proof L as [(F1 & F2 & F3 & F4) L2 L3 L4 L5 L6]. pose proof HH as (_ & (U1 & U2 & U3) & _).
  apply HQ. split; [done|done|done|congruence| |by apply (dir_is_addrs _ (inode_of dev n di))].
  apply (at_fs k1 _ j y A1 Ey). apply (file_ok_addrs _ _ _ _ (inode_of dev n di)); [simpl; congruence|done|done].
Qed.

(** The name is found, and the walk goes on with its inode. *)
Lemma walk_found {A} k t j n x di c y name i n1 (m : K A) (g : nat -> K A) Q : table_ok t -> holding_ref t j n x -> in_dir k t j n x di c y ->
  find_name (dname name) c = Some (i, n1) ->
  (forall k' j1 t3 z, at_table k' t3 -> table_ok t3 -> holding_ref t3 j1 n1 z ->
    (forall i, refs dev i t3 = refs dev i t - one i n + one i n1) -> wp env (g j1 k') Q) ->
  wp env ((let! r := dirlookup j name in match r with None => m | Some (next, _) => do! iunlockput j; g next end) k) Q.
Proof.
  intros HT HH [A1 [D1 D2 D3 D4 D5 D6] L Ht Hfs Hdir] Hfind HQ. pose proof L as [(F1 & F2 & F3 & F4) L2 L3 L4 L5 L6].
  pose proof HH as (Hx & _ & Hnf & _). apply wp_bind. eapply wp_mono.
  { apply (dirlookup_found dev ls o sb me pid j k bs f y c name i n1 Hfs Ht Hdir Hnb (at_lock _ _ _ A1 Hit) Hfind).
    rewrite (at_itable _ _ A1). rewrite <- (nfree_keep t j x y Hx L3) in Hnf. apply nfree_exists in Hnf.
    eapply Exists_impl; [exact Hnf|]. intros z Hz. by left. }
  intros r k2 (j1 & t2 & k3 & -> & S & F & -> & T3). rewrite (at_itable _ _ A1) in S.
  assert (Hlen : length t2 = length (<[j := y]> t)) by (by destruct S; rewrite length_insert).
  destruct (step_table t j n x di y j1 n1 t2 HT HH D2 L S) as (y2 & z & Ey2 & El & Er & En & T2 & H2 & R2).
  pose proof (at_step k _ t2 k3 A1 F T3 Hlen) as A2. rewrite L6 in El.
  destruct (at_iunlockput _ _ j y2 A2 Ey2) as (k4 & E4 & A4); rewrite ?El, ?En; try done; [congruence|].
  eapply wp_bind_run; [exact E4|]. by apply (HQ k4 j1 (<[j := dropped y2]> t2) z).
Qed.

(** The name is not found, and the directory is given back. *)
Lemma walk_missing {A} k t j n x di c y name (a : A) (g : nat -> K A) : table_ok t -> holding_ref t j n x -> in_dir k t j n x di c y ->
  find_name (dname name) c = None ->
  wp env ((let! r := dirlookup j name in match r with None => do! iunlockput j; ret a | Some (next, _) => do! iunlockput j; g next end) k)
    (fun b k' => b = a /\ exists t', at_table k' t' /\ walked t n None None t').
Proof.
  intros HT HH [A1 D L Ht Hfs Hdir] Hfind. apply wp_bind.
  eapply wp_mono; [apply (dirlookup_missing dev ls o sb me pid j k bs f y c name Hfs Ht Hdir Hnb Hfind)|].
  intros r k1 (-> & Hfs1 & F). assert (A2 : at_table k1 (<[j := y]> t)).
  { destruct A1 as [B1 B2 B3]. split; [apply Hfs1|by eapply tx_frame_trans|done]. }
  destruct (walk_stop k1 t j n x di y A2 HT HH (dd_inode _ _ _ _ D) (dd_linked _ _ _ _ D) L) as (k2 & t2 & E2 & A3 & W).
  eapply wp_bind_run; [exact E2|]. split; [done|]. by exists t2.
Qed.

(** An inode that is not a directory is given back. *)
Lemma walk_file {A} k t j n x di (a : A) (m : K A) : at_table k t -> table_ok t -> holding_ref t j n x -> disk_ino sb f n = Some di ->
  di_type di <> T_DIR -> di_type di <> 0 -> di_nlink di <> 0 -> IBLOCK n sb < 2 ^ 31 ->
  wp env ((do! ilock (Some j); let! y := get_inode j in if negb (i_type y =? T_DIR) then do! iunlockput j; ret a else m) k)
    (fun b k' => b = a /\ exists t', at_table k' t' /\ walked t n None None t').
Proof.
  intros At HT HH Hdi Hd H0 Hl Hb. apply wp_bind. eapply wp_mono; [by apply (walk_lock k t j n x di)|].
  intros _ k1 (y & A1 & L & Ey). eapply wp_bind_run; [apply (get_inode_run k1 j y); by rewrite (at_itable _ _ A1)|].
  destruct (lf_filled _ _ _ L) as (E & _). rewrite E, (proj2 (Z.eqb_neq _ _) Hd). cbn [negb].
  destruct (walk_stop k1 t j n x di y A1 HT HH Hdi Hl L) as (k2 & t2 & E2 & A3 & W).
  eapply wp_bind_run; [exact E2|]. split; [done|]. by exists t2.
Qed.

(** The loop of namex() walks down the path. *)
Lemma namex_loop_walk n es r : resolves f n es r -> forall fuel path name k t j x, elements path = es -> 0 ∉ path -> (length path < fuel)%nat ->
  at_table k t -> table_ok t -> holding_ref t j n x ->
  wp env (namex_loop fuel j path name false k) (fun res k' => exists t', at_table k' t' /\ walked t n r (fst res) t').
Proof.
  induction 1 as [n|n di c e i n1 es r D Hfind _ IH|n di c e es D Hfind|n di e es Hb Hdi Hd H0 Hl];
    intros fuel path name k t j x Hes Hz Hfu A HT HH; (destruct fuel as [|fuel]; [lia|]); cbn [namex_loop];
    pose proof (skipelem_spec path name Hz) as Hs; (destruct (skipelem path name) as [[path' name']|]; [|try by rewrite Hes in Hs]).
  1: { by rewrite Hes in Hs; destruct Hs. }
  2-4: rewrite Hes in Hs; destruct Hs as ([= Ee Ees] & Hlen & Hz').
  - exists t. split; [done|]. split; [done|]. exists j, x. split; [done|]. split; [done|]. intros i. lia.
  - apply (walk_dir k t j n x di c _ _ A HT HH D). intros y k1 HI. rewrite (in_type _ _ _ _ _ _ _ _ HI). cbn [negb Z.eqb andb].
    rewrite Z.eqb_refl. cbn [negb]. rewrite Ee in Hfind. apply (walk_found k1 t j n x di c y _ i n1 _ _ _ HT HH HI Hfind).
    intros k2 j1 t3 z A2 T2 H2 R2. eapply wp_mono; [by eapply (IH fuel path' name' k2 t3 j1 z); [by rewrite Ees|done|lia|..]|].
    intros res k' (t' & A' & T' & W). exists t'. split; [done|]. split; [done|].
    destruct r as [m|]; [destruct W as (j' & x' & -> & H' & R'); exists j', x'; split; [done|]; split; [done|]|destruct W as (-> & R'); split; [done|]];
      intros q; rewrite R', R2; lia.
  - apply (walk_dir k t j n x di c _ _ A HT HH D). intros y k1 HI. rewrite (in_type _ _ _ _ _ _ _ _ HI). cbn [andb].
    rewrite Z.eqb_refl. cbn [negb]. rewrite Ee in Hfind. eapply wp_mono; [apply (walk_missing k1 t j n x di c y _ _ _ HT HH HI Hfind)|].
    by intros res k' (-> & HW).
  - eapply wp_mono; [by apply (walk_file k t j n x di)|]. by intros res k' (-> & HW).
Qed.

(** * namei() *)

Lemma match_slash {A} path (a b : A) : (match path with 47 :: _ => a | _ => b end) = if decide (head path = Some 47) then a else b.
Proof.
  destruct path as [|ch path]; [done|]. simpl. destruct (decide (Some ch = Some 47)) as [[= ->]|Hne]; [done|].
  destruct ch as [|p|p]; [done| |done]. do 6 (destruct p as [p|p|]; try done).
Qed.

(** The inode in which a path starts: the root, or the current directory of the process. *)
Definition starts_at path (n : Z) : Prop :=
  if decide (head path = Some 47) then dev = ROOTDEV /\ n = ROOTINO
  else exists pr j x, k_procs k0 !! me = Some pr /\ p_cwd pr = Some j /\ k_itable k0 !! j = Some x /\ in_use_for dev n x.

Lemma at_start : tx dev ls o k0 me pid bs [] f -> at_table k0 (k_itable k0).
Proof. intros T. split; [done| |done]. unfold tx_frame. by destruct k0. Qed.

(** iget() adds a reference. *)
Lemma entered_ref t n j t' : table_ok t -> 2 <= nfree t -> iget_step t dev n j t' ->
  exists x, table_ok t' /\ holding_ref t' j n x /\ forall i, refs dev i t' = refs dev i t + one i n.
Proof.
  intros HT Hn [x Hx Hu|x Hx Hr _]; pose proof (Forall_lookup_1 _ _ _ _ HT Hx) as (E1 & E2 & E3); pose proof (lookup_lt_Some _ _ _ Hx) as Hlt.
  - pose proof Hu as (U1 & U2 & U3). exists (set_i_ref (i_ref x + 1) x). split; [|split].
    + apply Forall_insert; [done|]. split; [simpl; lia|]. split; [done|]. intros _ Hd. exact (E3 U1 Hd).
    + split; [by apply list_lookup_insert_eq|]. split; [split; [simpl; lia|done]|]. unfold nfree in *.
      rewrite (sum_of_insert _ _ _ _ _ Hx). set (F := sum_of w_free t) in *. unfold w_free. simpl. repeat case_decide; lia.
    + intros i. unfold refs. rewrite (sum_of_insert _ _ _ _ _ Hx), (w_ref_add dev n i x _ 1); simpl; [lia|done|lia|done|done|done].
  - exists (entered dev n x). split; [|split].
    + apply Forall_insert; [done|]. split; [simpl; lia|]. split; [done|]. intros _ _ Hv. by destruct Hv.
    + split; [by apply list_lookup_insert_eq|]. split; [split; [simpl; lia|done]|]. unfold nfree in *.
      rewrite (sum_of_insert _ _ _ _ _ Hx). set (F := sum_of w_free t) in *. unfold w_free. simpl. repeat case_decide; lia.
    + intros i. unfold refs. destruct (w_ref_new dev n i x Hr) as [A B]. rewrite (sum_of_insert _ _ _ _ _ Hx), A, B. lia.
Qed.

Lemma at_idup k t j n x : at_table k t -> t !! j = Some x -> in_use_for dev n x ->
  exists t' k', idup j k = Ret j k' /\ iget_step t dev n j t' /\ at_table k' t'.
Proof.
  intros A Hx Hu. pose proof (at_itable _ _ A) as Et. pose proof (at_tx _ _ A) as T. pose proof (tx_cpu_ok _ _ _ _ _ _ _ _ _ T) as Hok.
  pose proof (at_lock _ _ _ A Hit) as Hl. eexists _, _. split; [|split; [by apply (iget_cached t dev n j x)|]].
  - unfold idup. rewrite (bind_run _ _ _ _ _ (acquire_run _ _ Hok Hl)), (bind_run _ _ _ _ _ (upd_inode_run _ _ _)).
    rewrite (bind_run _ _ _ _ _ (release_upd k LItable (alter_inode j (fun x => set_i_ref (i_ref x + 1) x)) Hok Hl (data_only_itable _))).
    rewrite (alter_inode_insert j _ (relax k) x) by (simpl; by rewrite Et). change (k_itable (relax k)) with (k_itable k). rewrite Et. reflexivity.
  - apply (at_step k t); [done|apply relax_tx_frame|by apply tx_relax|by rewrite length_insert].
Qed.

Lemma at_relax k t : at_table k t -> at_table (relax k) t.
Proof. intros [A1 A2 A3]. split; [by apply tx_relax| |done]. eapply tx_frame_trans; [exact A2|apply relax_tx_frame]. Qed.

(** The first inode of the walk. *)
Lemma namex_start path n : tx dev ls o k0 me pid bs [] f -> 1 <= nfree (k_itable k0) -> starts_at path n ->
  exists j t' k', (match path with
     | 47 :: _ => iget ROOTDEV ROOTINO
     | _ =>
         let! p := curproc in
         let! pr := get_proc p in
         let! cwd := need "p->cwd" (p_cwd pr) in
         idup cwd
     end) k0 = Ret j k' /\ iget_step (k_itable k0) dev n j t' /\ at_table k' t'.
Proof.
  intros T Hn Hs. pose proof (at_start T) as A. rewrite match_slash. unfold starts_at in Hs. case_decide.
  - destruct Hs as [<- ->]. apply (at_iget k0 (k_itable k0) ROOTINO A). eapply Exists_impl; [by apply nfree_exists|]. intros z Hz. by left.
  - destruct Hs as (pr & j & x & Hpr & Hc & Hx & Hu).
    pose proof (bi_thread _ _ _ _ _ _ (tx_bio _ _ _ _ _ _ _ _ _ T)) as [[(i & cp & OC & Ec) _ _ _] _].
    destruct (at_idup (relax k0) (k_itable k0) j n x (at_relax _ _ A) Hx Hu) as (t' & k' & E & S & A').
    exists j, t', k'. split; [|done]. rewrite (bind_run _ _ _ _ _ (curproc_run _ _ _ _ OC Ec)).
    rewrite (bind_run _ _ _ _ _ (get_proc_run (relax k0) me pr Hpr)), Hc. cbn [need]. by rewrite bind_ret.
Qed.

(** What namei() leaves when the path leads to [r]. *)
Definition found t (r : option Z) (res : option nat) t' : Prop :=
  match r with
  | Some m => exists j x, res = Some j /\ t' !! j = Some x /\ in_use_for dev m x /\ forall i, refs dev i t' = refs dev i t + one i m
  | None => res = None /\ forall i, refs dev i t' = refs dev i t
  end.

Lemma namei_walk path n r : tx dev ls o k0 me pid bs [] f -> table_ok (k_itable k0) -> 2 <= nfree (k_itable k0) -> 0 ∉ path ->
  starts_at path n -> resolves f n (elements path) r ->
  wp env (namei path k0) (fun res k' => exists t', at_table k' t' /\ table_ok t' /\ found (k_itable k0) r res t').
Proof.
  intros T HT Hn Hz Hs Hr. destruct (namex_start path n T ltac:(lia) Hs) as (j & t1 & k1 & E & S & A1).
  destruct (entered_ref _ n j t1 HT Hn S) as (x & T1 & H1 & R1). unfold namei, namex. apply wp_bind.
  eapply wp_bind_run; [exact E|]. eapply wp_mono; [apply (namex_loop_walk n _ r Hr _ path _ k1 t1 j x eq_refl Hz); [lia|done|done|done]|].
  intros [res nm] k' (t' & A' & T' & W). exists t'. split; [done|]. split; [done|]. cbn [fst] in W. destruct r as [m|].
  - destruct W as (j' & x' & -> & (Hx' & Hu' & _) & R'). exists j', x'. split; [done|]. split; [done|]. split; [done|].
    intros i. rewrite R', R1. lia.
  - destruct W as (-> & R'). split; [done|]. intros i. rewrite R', R1. lia.
Qed.

(** C26. namei() of a path that leads to an inode of the file system, or to none, in the sense of [resolves].  It returns an entry of the
    inode table for that inode, with one more reference to it than before, or 0, with no reference more or less: the references to
    the directories on the way have been given back and no entry is left locked.  Only the inode table changes, apart from the cache. *)
Theorem namei_correct path n r : tx dev ls o k0 me pid bs [] f -> table_ok (k_itable k0) -> 2 <= nfree (k_itable k0) -> 0 ∉ path ->
  starts_at path n -> resolves f n (elements path) r ->
  wp env (namei path k0) (fun res k' => exists t', at_table k' t' /\ table_ok t' /\
    match r with
    | Some m => exists j x, res = Some j /\ t' !! j = Some x /\ in_use_for dev m x /\
        forall i, refs dev i t' = refs dev i (k_itable k0) + one i m
    | None => res = None /\ forall i, refs dev i t' = refs dev i (k_itable k0)
    end).
Proof. exact (namei_walk path n r). Qed.

(** A file on the disk: its inode, and its contents [c]. *)
Record disk_file f (n : Z) (di : dinode) c : Prop := {
  df_block : IBLOCK n sb < 2 ^ 31;
  df_inode : disk_ino sb f n = Some di;
  df_type : di_type di <> 0;
  df_file : file_ok dev ls sb f (inode_of dev n di);
  df_holes : no_holes f (inode_of dev n di);
  df_size : Z.of_nat (length c) = di_size di;
  df_holds : holds f (inode_of dev n di) 0 c;
}.

(** The whole file is read through an entry of the inode table. *)
Lemma read_file k t j n x di c cnt : at_table k t -> table_ok t -> t !! j = Some x -> in_use_for dev n x -> disk_file f n di c ->
  Z.of_nat (length c) <= cnt < 2 ^ 32 ->
  wp env ((do! ilock (Some j); readi j ToVar 0 cnt) k) (fun r _ => r = (Z.of_nat (length c), c)).
Proof.
  intros A HT Hx (U1 & U2 & U3) [D1 D2 D3 D4 D5 D6 D7] Hcnt. pose proof (Forall_lookup_1 _ _ _ _ HT Hx) as (E1 & E2 & E3).
  apply wp_bind. eapply wp_mono; [apply (at_ilock k t j x di A Hx ltac:(lia) U2 E2 (E3 U1 U2)); [by rewrite U3|done|by rewrite U3]|].
  intros _ k1 (y & A1 & [(F1 & F2 & F3 & F4) _ _ L4 _ _]). assert (Ey : (<[j := y]> t) !! j = Some y) by (apply list_lookup_insert_eq; by eapply lookup_lt_Some).
  assert (Hy : fs_at dev ls o sb me pid j k1 bs [] f y).
  { apply (at_fs k1 _ j y A1 Ey), (file_ok_addrs _ _ _ _ (inode_of dev n di)); [simpl; congruence|done|done]. }
  eapply wp_mono; [apply (readi_spec dev ls o sb me pid j k1 bs f y 0 cnt Hy); [by apply (no_holes_addrs _ (inode_of dev n di))|lia|lia|done]|].
  intros r k2 (_ & _ & got & -> & Hl & Hg). unfold readable in *. rewrite F3, <- D6 in *. rewrite decide_True in * by lia.
  replace (Z.min cnt (Z.of_nat (length c) - 0)) with (Z.of_nat (length c)) in * by lia. f_equal.
  apply (holds_unique f y 0); [done|by apply (holds_addrs f (inode_of dev n di))|lia].
Qed.
End Walk.

(** * A concrete path *)

Lemma dir_disk_ino : disk_ino sb_sample (disk_block dir_disk) 1 = Some (mkDinode T_DIR 0 0 1 48 (46 :: replicate 12 0)).
Proof. by vm_compute. Qed.

Lemma root_dir : disk_dir 1 2 sb_sample (disk_block dir_disk) 1 (mkDinode T_DIR 0 0 1 48 (46 :: replicate 12 0)) dir_bytes.
Proof.
  split; [by vm_compute|exact dir_disk_ino|done|done| |].
  - by apply (file_ok_addrs 1 2 sb_sample _ dir_inode), dir_file_ok.
  - by apply (dir_is_addrs _ dir_inode), dir_sample_is.
Qed.

Lemma free_table_ok dev sb f n : table_ok dev sb f (replicate n free_entry).
Proof. apply Forall_replicate. split; [done|]. split; [done|]. simpl. lia. Qed.

(** //ab *)
Definition ab_path : list Z := [47; 47; 97; 98].

Lemma ab_resolves : resolves 1 2 sb_sample (disk_block dir_disk) ROOTINO (elements ab_path) (Some 2).
Proof.
  change (elements ab_path) with [[97; 98]]. eapply (resolves_down _ _ _ _ 1 _ _ _ 2); [exact root_dir|by vm_compute|]. apply resolves_here.
Qed.

Lemma namei_correct_witness : exists k, k_itable k = [free_entry; free_entry] /\
  wp disk_round (namei ab_path k) (fun res k' => exists j x, res = Some j /\ k_itable k' !! j = Some x /\ i_inum x = 2).
Proof.
  destruct (itable_sample dir_disk) as (k & _ & T & Hsb & Hcp & Hl & Hi0 & Hi1). exists (set_k_itable [free_entry; free_entry] k). split; [reflexivity|].
  eapply wp_mono; [apply (namei_correct 1 2 1 sb_sample 3 0 (env := disk_round) (set_k_itable [free_entry; free_entry] k) []
    (disk_block dir_disk) Hsb) with (n := ROOTINO) (r := Some 2)|].
  - by apply can_print_itable.
  - exact dir_bitmap.
  - change NBUF with 30. simpl. lia.
  - exact Hl.
  - intros [|[|j]] Hj; [exact Hi0|exact Hi1|simpl in Hj; lia].
  - by apply tx_itable.
  - apply (free_table_ok _ _ _ 2).
  - by vm_compute.
  - unfold ab_path. rewrite !not_elem_of_cons. repeat (split; [done|]). apply not_elem_of_nil.
  - by split.
  - exact ab_resolves.
  - intros res k' (t' & A & _ & j & x & -> & Hx & (_ & _ & H2) & _). exists j, x. split; [done|]. by rewrite (at_itable _ _ _ _ _ _ _ _ _ _ A).
Defined.
