(* ===== verification/Mkfs.v ===== *)
(** mkfs/mkfs.c: the program that builds the initial file system.

    The image is a file of the host: a list of blocks, read and written at
    multiples of BSIZE; reading past its end, a failing assert() and die() end the
    program ([Panic]).  Opening a file of the command line may fail, and
    read() may return its contents in any pieces; both are arguments of
    [main].  lseek() and write() on the image do not fail, and the host is
    little-endian.  What the program prints is not modelled.  The theorems are in
    MkfsSpec.v. *)

From Stdlib Require Import ZArith Lia.
From stdpp Require Import base gmap list_numbers strings numbers list.
From S2P Require Import Prelude Mem Riscv Kernel Spinlock Kalloc Vm Printf Sched Sleeplock Virtio Bio Log Fs.

Open Scope Z_scope.

Definition NINODES : Z := 200.

Definition nbitmap : Z := FSSIZE / (BSIZE * 8) + 1.
Definition ninodeblocks : Z := NINODES / IPB + 1.
Definition nlog : Z := LOGSIZE.

(** main() assigns nmeta and nblocks before their first use. *)
Definition nmeta : Z := 2 + nlog + ninodeblocks + nbitmap.
Definition nblocks : Z := FSSIZE - nmeta.

(** The variables that change: the image, freeinode and freeblock. *)
Record mkfs : Type := mkMkfs {
  image : list (list Z);
  freeinode : Z;
  freeblock : Z;
}.

Definition set_image (v : list (list Z)) (s : mkfs) : mkfs := mkMkfs v (freeinode s) (freeblock s).

Definition zeroes : list Z := replicate (Z.to_nat BSIZE) 0.

(** The bytes of an integer in RISC-V order, read back on the host. *)
Definition xshort (x : Z) : Z := le_val (le_bytes 2 x).
Definition xint (x : Z) : Z := le_val (le_bytes 4 x).

(** The superblock; its fields are those that main() assigns. *)
Definition sb : superblock :=
  mkSuperblock FSMAGIC (xint FSSIZE) (xint nblocks) (xint NINODES) (xint nlog) (xint 2) (xint (2 + nlog))
    (xint (2 + nlog + ninodeblocks)).

Definition superblock_bytes (x : superblock) : list Z :=
  le_bytes 4 (sb_magic x) ++ le_bytes 4 (sb_size x) ++ le_bytes 4 (sb_nblocks x) ++ le_bytes 4 (sb_ninodes x) ++
  le_bytes 4 (sb_nlog x) ++ le_bytes 4 (sb_logstart x) ++ le_bytes 4 (sb_inodestart x) ++ le_bytes 4 (sb_bmapstart x).

Definition die {A} (msg : string) : M mkfs A := panic msg.
Definition assert_ (b : bool) : M mkfs unit := if b then ret tt else panic "assert".

(** The block at file offset [sec * BSIZE], an unsigned int. *)
Definition sector (sec : Z) : nat := Z.to_nat (u32 (sec * BSIZE) / BSIZE).

(** A write past the end of the file leaves zeroes before it. *)
Definition wsect (sec : Z) (buf : list Z) : M mkfs unit :=
  modify (fun s =>
    let i := sector sec in
    if decide (i < length (image s))%nat then set_image (<[i := buf]> (image s)) s
    else set_image (image s ++ replicate (i - length (image s)) zeroes ++ [buf]) s).

Definition rsect (sec : Z) : M mkfs (list Z) :=
  let! o := gets (fun s => image s !! sector sec) in
  match o with
  | Some buf => ret buf
  | None => die "read"
  end.

Definition winode (inum : Z) (ip : dinode) : M mkfs unit :=
  let bn := IBLOCK inum sb in
  let! buf := rsect bn in
  let! buf := need "winode" (put_bytes (dinode_off inum) (dinode_bytes ip) buf) in
  wsect bn buf.

Definition rinode (inum : Z) : M mkfs dinode :=
  let bn := IBLOCK inum sb in
  let! buf := rsect bn in
  need "rinode" (dinode_of (dinode_off inum) buf).

Definition next_inode : M mkfs Z :=
  let! n := gets freeinode in
  do! modify (fun s => mkMkfs (image s) (u32 (freeinode s + 1)) (freeblock s));
  ret n.

(** freeblock++ *)
Definition next_block : M mkfs Z :=
  let! n := gets freeblock in
  do! modify (fun s => mkMkfs (image s) (freeinode s) (u32 (freeblock s + 1)));
  ret n.

Definition ialloc (type : Z) : M mkfs Z :=
  let! inum := next_inode in
  do! winode inum (mkDinode (xshort type) 0 0 (xshort 1) (xint 0) (replicate 13 0));
  ret inum.

(** for(i = 0; i < used; i++) buf[i/8] = buf[i/8] | (0x1 << (i%8)); *)
Fixpoint balloc_bits (n : nat) (i : Z) (buf : list Z) : list Z :=
  match n with
  | O => buf
  | S n' =>
      balloc_bits n' (i + 1) (alter (fun x => u8 (Z.lor x (Z.shiftl 1 (i mod 8)))) (Z.to_nat (i / 8)) buf)
  end.

Definition balloc (used : Z) : M mkfs unit :=
  do! assert_ (used <? BSIZE * 8);
  wsect (sb_bmapstart sb) (balloc_bits (Z.to_nat used) 0 zeroes).

Definition set_addr (i v : Z) (d : dinode) : dinode :=
  mkDinode (di_type d) (di_major d) (di_minor d) (di_nlink d) (di_size d) (<[Z.to_nat i := v]> (di_addrs d)).
Definition set_size (v : Z) (d : dinode) : dinode :=
  mkDinode (di_type d) (di_major d) (di_minor d) (di_nlink d) v (di_addrs d).

(** din.addrs[i] *)
Definition addr_of (i : Z) (d : dinode) : Z := default 0 (di_addrs d !! Z.to_nat i).

(** The block of file block [fbn], allocated if need be: the inode and [x]. *)
Definition iappend_block (din : dinode) (fbn : Z) : M mkfs (dinode * Z) :=
  if fbn <? NDIRECT then
    let! din := (if xint (addr_of fbn din) =? 0
                 then let! b := next_block in ret (set_addr fbn (xint b) din) else ret din) in
    ret (din, xint (addr_of fbn din))
  else
    let! din := (if xint (addr_of NDIRECT din) =? 0
                 then let! b := next_block in ret (set_addr NDIRECT (xint b) din) else ret din) in
    let! indirect := rsect (xint (addr_of NDIRECT din)) in
    let off := Z.to_nat (4 * (fbn - NDIRECT)) in
    let! e := need "indirect[]" (getn 4 off indirect) in
    if e =? 0 then
      let! b := next_block in
      let! indirect := need "indirect[]" (putn 4 off (xint b) indirect) in
      do! wsect (xint (addr_of NDIRECT din)) indirect;
      let! e := need "indirect[]" (getn 4 off indirect) in
      ret (din, xint e)
    else ret (din, xint e).

(** while(n > 0); [p] holds the n bytes that are left. *)
Fixpoint iappend_loop (fuel : nat) (din : dinode) (off : Z) (p : list Z) : M mkfs (dinode * Z) :=
  match fuel with
  | O => nofuel
  | S f =>
      let n := Z.of_nat (length p) in
      if 0 <? n then
        let fbn := off / BSIZE in
        do! assert_ (fbn <? MAXFILE);
        let! '(din, x) := iappend_block din fbn in
        let n1 := Z.min n (u32 ((fbn + 1) * BSIZE - off)) in
        let! buf := rsect x in
        let! buf := need "buf[]" (put_bytes (Z.to_nat (off - fbn * BSIZE)) (take (Z.to_nat n1) p) buf) in
        do! wsect x buf;
        iappend_loop f din (u32 (off + n1)) (drop (Z.to_nat n1) p)
      else ret (din, off)
  end.

Definition iappend (inum : Z) (p : list Z) : M mkfs unit :=
  let! din := rinode inum in
  let! '(din, off) := iappend_loop (S (length p)) din (xint (di_size din)) p in
  winode inum (set_size (xint off) din).

(** struct dirent: a zeroed one with the inode number and the name set. *)
Definition dirent_bytes (inum : Z) (name : list Z) : list Z :=
  le_bytes 2 (xshort inum) ++ take (Z.to_nat DIRSIZ) (name ++ replicate (Z.to_nat DIRSIZ) 0).

(** argv[i] without "user/". *)
Definition shortname (arg : list Z) : list Z :=
  if decide (take 5 arg = str "user/") then drop 5 arg else arg.

(** Without a leading '_'. *)
Definition skip_underscore (name : list Z) : list Z :=
  match name with
  | c :: rest => if c =? 95 then rest else name
  | [] => name
  end.

(** while((cc = read(fd, buf, sizeof(buf))) > 0) iappend(inum, buf, cc); *)
Fixpoint append_all (inum : Z) (chunks : list (list Z)) : M mkfs unit :=
  match chunks with
  | [] => ret tt
  | c :: rest => do! iappend inum c; append_all inum rest
  end.

(** One file of the command line: its argument, and what open() and read() give. *)
Definition add_file (rootino : Z) (file : list Z * option (list (list Z))) : M mkfs unit :=
  let name := shortname file.1 in
  do! assert_ (bool_decide (47 ∉ name));
  match file.2 with
  | None => die "open"
  | Some chunks =>
      let name := skip_underscore name in
      let! inum := ialloc T_FILE in
      do! iappend rootino (dirent_bytes inum name);
      append_all inum chunks
  end.

Fixpoint add_files (rootino : Z) (files : list (list Z * option (list (list Z)))) : M mkfs unit :=
  match files with
  | [] => ret tt
  | x :: rest => do! add_file rootino x; add_files rootino rest
  end.

(** for(i = 0; i < FSSIZE; i++) wsect(i, zeroes); *)
Fixpoint zero_loop (n : nat) (i : Z) : M mkfs unit :=
  match n with
  | O => ret tt
  | S n' => do! wsect i zeroes; zero_loop n' (i + 1)
  end.

(** fix size of root inode dir *)
Definition fix_root (rootino : Z) : M mkfs unit :=
  let! din := rinode rootino in
  let off := xint (di_size din) in
  let off := u32 ((off / BSIZE + 1) * BSIZE) in
  winode rootino (set_size (xint off) din).

(** main() after the image has been opened and truncated. *)
Definition main (files : list (list Z * option (list (list Z)))) : M mkfs unit :=
  do! zero_loop (Z.to_nat FSSIZE) 0;
  let! buf := need "buf[]" (put_bytes 0 (superblock_bytes sb) zeroes) in
  do! wsect 1 buf;
  let! rootino := ialloc T_DIR in
  do! assert_ (rootino =? ROOTINO);
  do! iappend rootino (dirent_bytes rootino (str "."));
  do! iappend rootino (dirent_bytes rootino (str ".."));
  do! add_files rootino files;
  do! fix_root rootino;
  let! used := gets freeblock in
  balloc (i32 used).

(** The state of the program before main(): an empty image. *)
Definition mkfs_start : mkfs := mkMkfs [] 1 nmeta.
