(* ===== verification/MkfsFile.v ===== *)
(** A file under construction in the image of mkfs/mkfs.c: the blocks that iappend() takes
    for it and the bytes that it puts there, and the inodes that winode() and rinode()
    write and read. *)

From Stdlib Require Import ZArith Lia.
From stdpp Require Import base gmap list_numbers strings numbers list.
From S2P Require Import Prelude Mem Bytes Riscv Kernel Spinlock Kalloc Vm Printf Sched SchedSpec Thread Sleeplock SleeplockSpec Virtio Bio BioSpec BioInv BioProps Log LogSpec LogTxn Fs FsTx FsAlloc FsFile FsRw FsInode Mkfs.

Open Scope Z_scope.

Implicit Types (s : mkfs) (f : Z -> list Z) (x y : inode) (c : list Z).

(** * Numbers *)

Lemma nmeta_eq : nmeta = 46. Proof. done. Qed.

Lemma xint_eq v : 0 <= v < 2 ^ 32 -> xint v = v.
Proof. intros Hv. unfold xint. rewrite le_val_bytes. apply Z.mod_small. simpl. lia. Qed.

Lemma sector_eq b : 0 <= b < FSSIZE -> sector b = Z.to_nat b.
Proof.
  intros Hb. unfold sector, FSSIZE, BSIZE in *. rewrite u32_small by lia. f_equal. apply Z.div_mul. lia.
Qed.

(** * The blocks of the image *)

(** The image of FSSIZE blocks holds [f b] in block [b]. *)
Record image_is s f : Prop := {
  im_length : length (image s) = Z.to_nat FSSIZE;
  im_block : forall b, 0 <= b < FSSIZE -> image s !! Z.to_nat b = Some (f b);
  im_size : forall b, 0 <= b < FSSIZE -> length (f b) = Z.to_nat BSIZE;
}.

Lemma rsect_run s f b : image_is s f -> 0 <= b < FSSIZE -> rsect b s = Ret (f b) s.
Proof.
  intros I Hr. unfold rsect, bind, gets. cbn [obind]. rewrite sector_eq by done. by rewrite (im_block _ _ I b Hr).
Qed.

Lemma wsect_run s f b d : image_is s f -> 0 <= b < FSSIZE -> length d = Z.to_nat BSIZE ->
  exists s', wsect b d s = Ret tt s' /\ image_is s' (upd f b d) /\
    freeinode s' = freeinode s /\ freeblock s' = freeblock s.
Proof.
  intros I Hr Hd. exists (set_image (<[Z.to_nat b := d]> (image s)) s). pose proof (im_length _ _ I) as Hl.
  split; [unfold wsect, modify; rewrite sector_eq by done; by rewrite decide_True by lia|]. split; [|done].
  split; simpl; [by rewrite length_insert| |].
  - intros z Hz. unfold upd. case_decide as E; [subst; by rewrite list_lookup_insert_eq by lia|].
    rewrite list_lookup_insert_ne by lia. by apply (im_block _ _ I).
  - intros z Hz. unfold upd. case_decide; [done|]. by apply (im_size _ _ I).
Qed.

(** * A file under construction *)

(** Number of blocks that a file of [n] bytes takes, with its indirect block. *)
Definition data_blocks (n : Z) : Z := (n + BSIZE - 1) / BSIZE.
Definition file_blocks (n : Z) : Z := data_blocks n + (if NDIRECT * BSIZE <? n then 1 else 0).

(** The block numbers [sl] of a file: from [nmeta, fb), each of them once. *)
Record blocks_ok (sl : Z -> Z) (fb : Z) : Prop := {
  bo_range : forall m, 0 <= m <= MAXFILE -> sl m <> 0 -> nmeta <= sl m < fb;
  bo_inj : forall m m', 0 <= m <= MAXFILE -> 0 <= m' <= MAXFILE -> sl m <> 0 -> sl m = sl m' -> m = m';
}.

(** They are those that a file of [n] bytes needs and no other. *)
Record blocks_are (sl : Z -> Z) (n fb : Z) : Prop := {
  ba_ok : blocks_ok sl fb;
  ba_slot : forall m, 0 <= m < MAXFILE -> sl m <> 0 <-> m * BSIZE < n;
  ba_ind : sl MAXFILE <> 0 <-> NDIRECT * BSIZE < n;
}.

(** The inode [x] has room for [n] bytes and holds the bytes [c], then zeroes. *)
Record file_is f x c (n fb : Z) : Prop := {
  fi_len : length (i_addrs x) = 13%nat;
  fi_addrs : Forall (fun a => 0 <= a < 2 ^ 32) (i_addrs x);
  fi_max : Z.of_nat (length c) <= n <= MAXFILE * BSIZE;
  fi_blocks : blocks_are (slot f x) n fb;
  fi_holds : holds f x 0 c;
  fi_tail : forall i, Z.of_nat (length c) <= i -> i / BSIZE < MAXFILE -> slot f x (i / BSIZE) <> 0 -> byte_at f x i = Some 0;
}.

Lemma div_range i : 0 <= i -> i < MAXFILE * BSIZE -> 0 <= i / BSIZE < MAXFILE.
Proof.
  intros Hi Hm. split; [apply Z.div_pos; unfold BSIZE; lia|]. by eapply div_lt_maxfile.
Qed.

Lemma blocks_are_ext sl sl' n fb fb' :
  (forall m, 0 <= m <= MAXFILE -> sl' m = sl m) -> fb <= fb' -> blocks_are sl n fb -> blocks_are sl' n fb'.
Proof.
  intros E Hfb [[H3 H4] H1 H2]. split; [split|..].
  - intros m Hm. rewrite E by done. intros Hne. pose proof (H3 m Hm Hne). lia.
  - intros m m' Hm Hm'. rewrite !E by done. by apply H4.
  - intros m Hm. rewrite E by lia. by apply H1.
  - rewrite E; [done|by vm_compute].
Qed.

(** A file whose blocks keep their contents. *)
Section Keep.
Context (f f' : Z -> list Z) (x : inode).
Context (Hkeep : forall m, 0 <= m <= MAXFILE -> slot f x m <> 0 -> f' (slot f x m) = f (slot f x m)).

Lemma slot_keep m : 0 <= m <= MAXFILE -> slot f' x m = slot f x m.
Proof.
  intros Hm. destruct (Z.lt_ge_cases m NDIRECT); [by rewrite !slot_dir|].
  destruct (decide (m = MAXFILE)) as [->|Hne]; [done|]. rewrite !(slot_ind _ _ m) by lia.
  change (slot f' x MAXFILE) with (slot f x MAXFILE). destruct (Z.eqb_spec (slot f x MAXFILE) 0); [done|].
  by rewrite Hkeep by (done || by vm_compute).
Qed.

Lemma byte_at_keep i : 0 <= i / BSIZE < MAXFILE -> byte_at f' x i = byte_at f x i.
Proof.
  intros Hi. unfold byte_at. rewrite slot_keep by lia. destruct (Z.eqb_spec (slot f x (i / BSIZE)) 0); [done|].
  by rewrite Hkeep by (done || lia).
Qed.

Lemma file_is_keep c n fb fb' : file_is f x c n fb -> fb <= fb' -> file_is f' x c n fb'.
Proof.
  intros [H1 H2 H3 H4 H5 H6] Hfb. split; try done.
  - apply (blocks_are_ext (slot f x) _ n fb); [apply slot_keep|done|done].
  - intros i b E. rewrite byte_at_keep; [by apply H5|]. apply lookup_lt_Some in E. apply div_range; lia.
  - intros i Hi Hd. assert (0 <= i / BSIZE) by (apply Z.div_pos; unfold BSIZE; lia).
    rewrite slot_keep by lia. intros Hne. rewrite byte_at_keep by lia. by apply H6.
Qed.
End Keep.

(** * Adding a block *)

(** Block [j] becomes the fresh block [r]. *)
Lemma blocks_ok_add sl sl' fb j r :
  blocks_ok sl fb -> nmeta <= fb <= r -> sl j = 0 ->
  (forall m, 0 <= m <= MAXFILE -> sl' m = if decide (m = j) then r else sl m) ->
  blocks_ok sl' (r + 1).
Proof.
  intros [Hr Hi] Hfb Hj0 E. rewrite nmeta_eq in *. split.
  - intros m Hm. rewrite E by done. rewrite nmeta_eq. case_decide; [lia|]. intros Hne. pose proof (Hr m Hm Hne). lia.
  - intros m m' Hm Hm'. rewrite !E by done. repeat case_decide; subst; try done; intros Hne Heq.
    + pose proof (Hr m' Hm'). lia.
    + pose proof (Hr m Hm). lia.
    + by apply Hi.
Qed.

(** Address [i] of the inode becomes the zeroed block [r]. *)
Lemma slot_with_addr f x i r m :
  length (i_addrs x) = 13%nat -> 0 <= i <= NDIRECT -> slot f x (addr_slot i) = 0 -> f r = zeroes -> r <> 0 ->
  0 <= m <= MAXFILE -> slot f (with_addr i r x) m = if decide (m = addr_slot i) then r else slot f x m.
Proof.
  intros Hl Hi He Hz Hr Hm. pose proof (fun j Hj => with_addr_lookup i r x j Hl Hi Hj) as HA.
  assert (Hmax : slot f (with_addr i r x) MAXFILE = if decide (NDIRECT = i) then r else slot f x MAXFILE)
    by exact (HA NDIRECT ltac:(by vm_compute)).
  assert (HND : NDIRECT < MAXFILE) by (by vm_compute). unfold addr_slot in *.
  destruct (Z.lt_ge_cases m NDIRECT) as [Hlt|Hge].
  { rewrite !slot_dir, HA by lia. destruct (Z.eqb_spec i NDIRECT); [|done]. by rewrite !decide_False by lia. }
  destruct (decide (m = MAXFILE)) as [->|Hm'].
  { rewrite Hmax. destruct (Z.eqb_spec i NDIRECT) as [->|]; [by rewrite !decide_True|]. by rewrite !decide_False by lia. }
  rewrite !(slot_ind _ _ m), Hmax by lia. destruct (Z.eqb_spec i NDIRECT) as [->|Hne].
  - rewrite He, (decide_True (P := NDIRECT = NDIRECT)) by done. rewrite (proj2 (Z.eqb_neq r 0)), Hz by done.
    rewrite (decide_False (P := m = MAXFILE)) by done. unfold zeroes. rewrite getn_zeros; [done|].
    rewrite MAXFILE_eq in *. change NDIRECT with 12 in *. change BSIZE with 1024. lia.
  - rewrite (decide_False (P := NDIRECT = i)) by lia. by rewrite decide_False by lia.
Qed.

(** Entry [j - NDIRECT] of the indirect block becomes [r]. *)
Lemma slot_with_entry f x j r d' m :
  NDIRECT <= j < MAXFILE -> slot f x MAXFILE <> 0 -> 0 <= r < 2 ^ 32 ->
  putn 4 (Z.to_nat (4 * (j - NDIRECT))) r (f (slot f x MAXFILE)) = Some d' -> 0 <= m <= MAXFILE ->
  slot (upd f (slot f x MAXFILE) d') x m = if decide (m = j) then r else slot f x m.
Proof.
  intros Hj Hind Hr Hp Hm. set (a := slot f x MAXFILE) in *. destruct (getn_putn _ _ _ _ _ Hp) as (_ & Hget & Hother).
  destruct (Z.lt_ge_cases m NDIRECT) as [Hlt|Hge]; [rewrite !slot_dir by done; by rewrite decide_False by lia|].
  destruct (decide (m = MAXFILE)) as [->|Hm']; [rewrite decide_False; [done|lia]|].
  rewrite !(slot_ind _ _ m) by lia. change (slot (upd f a d') x MAXFILE) with a. fold a.
  rewrite (proj2 (Z.eqb_neq a 0)) by done. unfold upd. rewrite (decide_True (P := a = a)) by done. case_decide as E.
  - subst m. rewrite Hget. simpl. apply Z.mod_small. simpl. lia.
  - rewrite Hother; [done|]. change NDIRECT with 12 in *. lia.
Qed.

(** * One step of the construction: only blocks of [x] and free blocks change *)

Record grows f x (fb : Z) f' x' (fb' : Z) : Prop := {
  gw_fb : fb <= fb';
  gw_old : forall m, 0 <= m <= MAXFILE -> slot f x m <> 0 -> slot f' x' m = slot f x m;
  gw_new : forall m, 0 <= m <= MAXFILE -> slot f x m = 0 -> slot f' x' m <> 0 -> fb <= slot f' x' m < fb';
  gw_keep : forall z, (forall m, 0 <= m <= MAXFILE -> slot f' x' m <> 0 -> slot f' x' m <> z) -> f' z = f z;
}.

Lemma grows_refl f x fb : grows f x fb f x fb.
Proof. split; try done. Qed.

Lemma grows_trans f x fb f1 x1 fb1 f2 x2 fb2 :
  grows f x fb f1 x1 fb1 -> grows f1 x1 fb1 f2 x2 fb2 -> 0 < fb -> grows f x fb f2 x2 fb2.
Proof.
  intros [A1 A2 A3 A4] [B1 B2 B3 B4] Hfb. split; [lia| | |].
  - intros m Hm Hne. rewrite B2; [by apply A2|done|]. by rewrite A2.
  - intros m Hm H0 Hne. destruct (decide (slot f1 x1 m = 0)) as [E|E].
    + pose proof (B3 m Hm E Hne). lia.
    + rewrite B2 in * by done. pose proof (A3 m Hm H0 E). lia.
  - intros z Hz. rewrite B4 by done. apply A4. intros m Hm Hne E. apply (Hz m Hm); rewrite B2 by done; done.
Qed.

(** The blocks from [fb] on are free and zeroed. *)
Definition zero_from f (fb : Z) : Prop := forall b, fb <= b < FSSIZE -> f b = zeroes.

Lemma lookup_zeroes i : 0 <= i < BSIZE -> zeroes !! Z.to_nat i = Some 0.
Proof. intros Hi. unfold zeroes. apply lookup_replicate_2. lia. Qed.

(** The contents when the blocks stay and new ones are zeroed. *)
Lemma content_grown f x c f' x' :
  (forall m, 0 <= m < MAXFILE -> slot f x m <> 0 -> slot f' x' m = slot f x m /\ f' (slot f x m) = f (slot f x m)) ->
  (forall m, 0 <= m < MAXFILE -> slot f x m = 0 -> slot f' x' m <> 0 -> f' (slot f' x' m) = zeroes) ->
  Z.of_nat (length c) <= MAXFILE * BSIZE -> holds f x 0 c ->
  (forall i, Z.of_nat (length c) <= i -> i / BSIZE < MAXFILE -> slot f x (i / BSIZE) <> 0 -> byte_at f x i = Some 0) ->
  holds f' x' 0 c /\
  (forall i, Z.of_nat (length c) <= i -> i / BSIZE < MAXFILE -> slot f' x' (i / BSIZE) <> 0 -> byte_at f' x' i = Some 0).
Proof.
  intros Hold Hnew Hmax Hh Ht.
  assert (Hsame : forall i, 0 <= i / BSIZE < MAXFILE -> slot f x (i / BSIZE) <> 0 -> byte_at f' x' i = byte_at f x i).
  { intros i Hi Hne. destruct (Hold _ Hi Hne) as [E1 E2]. unfold byte_at. by rewrite E1, (proj2 (Z.eqb_neq _ _)), E2. }
  split.
  - intros i b E. pose proof (Hh i b E) as Hb. rewrite Hsame; [done| |].
    + apply lookup_lt_Some in E. apply div_range; lia.
    + intros E0. unfold byte_at in Hb. by rewrite E0 in Hb.
  - intros i Hi Hd Hne. assert (0 <= i / BSIZE) by (apply Z.div_pos; unfold BSIZE; lia).
    destruct (decide (slot f x (i / BSIZE) = 0)) as [E|E]; [|rewrite Hsame by done; by apply Ht].
    unfold byte_at. rewrite (proj2 (Z.eqb_neq _ _)) by done. rewrite (Hnew (i / BSIZE) ltac:(lia) E Hne).
    apply lookup_zeroes. apply Z.mod_pos_bound. unfold BSIZE. lia.
Qed.

(** * The inode in memory *)

Definition ino (inum : Z) (d : dinode) : inode :=
  mkInode 1 inum 1 no_sleeplock 1 (di_type d) (di_major d) (di_minor d) (di_nlink d) (di_size d) (di_addrs d).

Lemma next_block_run s : 0 <= freeblock s < 2 ^ 32 - 1 ->
  next_block s = Ret (freeblock s) (mkMkfs (image s) (freeinode s) (freeblock s + 1)).
Proof. intros Hb. unfold next_block, bind, gets, modify. cbn [obind]. by rewrite u32_small by lia. Qed.

Lemma addr_of_slot f inum d i : 0 <= i <= NDIRECT -> addr_of i d = slot f (ino inum d) (addr_slot i).
Proof. intros Hi. by rewrite slot_addr. Qed.

Lemma xint_addr f inum d c n fb i : file_is f (ino inum d) c n fb -> 0 <= i <= NDIRECT ->
  xint (addr_of i d) = slot f (ino inum d) (addr_slot i).
Proof.
  intros F Hi. rewrite <- (addr_of_slot f inum) by done. apply xint_eq. unfold addr_of.
  destruct (di_addrs d !! Z.to_nat i) as [a|] eqn:E; [|simpl; lia].
  exact (Forall_lookup_1 _ _ _ _ (fi_addrs _ _ _ _ _ F) E).
Qed.

(** The state of the program with the image [f]. *)
Record building s f (fb : Z) : Prop := {
  bg_image : image_is s f;
  bg_fb : freeblock s = fb;
  bg_range : nmeta <= fb <= FSSIZE;
  bg_zero : zero_from f fb;
}.

(** * Room for one more byte *)

Lemma BSIZE_pos : 0 < BSIZE. Proof. done. Qed.

Section Room.
Context (f : Z -> list Z) (x : inode) (c : list Z) (n fb : Z).
Context (F : file_is f x c n fb) (Hn : n = Z.of_nat (length c)) (Hmax : n < MAXFILE * BSIZE).
Context (Hfb : nmeta <= fb <= FSSIZE) (Hz : zero_from f fb).

(** The last block of the file has room. *)
Lemma room_none : n mod BSIZE <> 0 -> file_is f x c (n + 1) fb.
Proof.
  intros Hm. pose proof F as [H1 H2 H3 [H4 H5 H6] H7 H8]. split; try done; [lia|]. split; [done|..].
  - intros m Hm'. rewrite H5 by done. split; [lia|]. intros Hlt.
    assert (m * BSIZE <> n) by (intros <-; apply Hm, Z.mod_mul; done). lia.
  - rewrite H6. split; [lia|]. intros Hlt. assert (NDIRECT * BSIZE <> n) by (intros <-; apply Hm, Z.mod_mul; done). lia.
Qed.

(** The slots below the end of the file exist, the others do not. *)
Lemma room_slot m i : n = i * BSIZE -> 0 <= m < MAXFILE -> slot f x m <> 0 <-> m < i.
Proof.
  intros Hi Hm. rewrite (ba_slot _ _ _ (fi_blocks _ _ _ _ _ F)) by done. rewrite Hi. unfold BSIZE. lia.
Qed.

Lemma room_direct i :
  n = i * BSIZE -> 0 <= i < NDIRECT -> fb < FSSIZE ->
  let x' := with_addr i fb x in
  file_is f x' c (n + 1) (fb + 1) /\ grows f x fb f x' (fb + 1) /\ slot f x' i = fb.
Proof.
  intros Hi Hr Hlt x'. pose proof F as [H1 H2 H3 [H4 H5 H6] H7 H8]. rewrite nmeta_eq in Hfb.
  assert (HND : NDIRECT < MAXFILE) by (by vm_compute).
  assert (Ea : addr_slot i = i) by (unfold addr_slot; by rewrite (proj2 (Z.eqb_neq _ _)) by lia).
  assert (E0 : slot f x i = 0).
  { destruct (decide (slot f x i = 0)) as [|E]; [done|]. apply (room_slot i i) in E; lia. }
  assert (Hs : forall m, 0 <= m <= MAXFILE -> slot f x' m = if decide (m = i) then fb else slot f x m).
  { intros m Hm. pose proof (slot_with_addr f x i fb m H1 ltac:(lia) ltac:(by rewrite Ea) (Hz fb ltac:(lia)) ltac:(lia) Hm) as E.
    by rewrite Ea in E. }
  assert (Hi0 : slot f x' i = fb) by (rewrite Hs by lia; by rewrite decide_True).
  destruct (content_grown f x c f x') as [Hh Ht]; [| |lia|done|done|split; [split|split; [|done]]].
  - intros m Hm Hne. rewrite Hs by lia. rewrite decide_False; [done|]. by intros ->.
  - intros m Hm Hm0. rewrite Hs by lia. case_decide; [|done]. intros _. apply Hz. lia.
  - simpl. by rewrite length_insert.
  - simpl. apply Forall_insert; [done|]. unfold FSSIZE in *. lia.
  - lia.
  - split.
    + apply (blocks_ok_add (slot f x) _ fb i fb); try done. rewrite nmeta_eq. lia.
    + intros m Hm. rewrite Hs by lia. case_decide as E; [subst m; lia|]. rewrite H5 by done. rewrite Hi. unfold BSIZE. lia.
    + rewrite Hs by lia. rewrite decide_False by lia. rewrite H6. rewrite Hi. unfold BSIZE in *. lia.
  - done.
  - done.
  - split; [lia| | |done].
    + intros m Hm Hne. rewrite Hs by done. rewrite decide_False; [done|]. by intros ->.
    + intros m Hm Hm0. rewrite Hs by done. case_decide; [lia|done].
Qed.
End Room.

(** A block for the end of the file, entered in its indirect block [a]. *)
Lemma room_entry f x c n fb i d' :
  let a := slot f x MAXFILE in let f' := upd f a d' in
  length (i_addrs x) = 13%nat -> Forall (fun a => 0 <= a < 2 ^ 32) (i_addrs x) ->
  n = Z.of_nat (length c) -> n = i * BSIZE -> NDIRECT <= i < MAXFILE ->
  blocks_ok (slot f x) fb -> (forall m, 0 <= m < MAXFILE -> slot f x m <> 0 <-> m < i) -> a <> 0 ->
  holds f x 0 c ->
  (forall i, Z.of_nat (length c) <= i -> i / BSIZE < MAXFILE -> slot f x (i / BSIZE) <> 0 -> byte_at f x i = Some 0) ->
  nmeta <= fb < FSSIZE -> zero_from f fb ->
  putn 4 (Z.to_nat (4 * (i - NDIRECT))) fb (f a) = Some d' ->
  file_is f' x c (n + 1) (fb + 1) /\ grows f x fb f' x (fb + 1) /\ slot f' x i = fb.
Proof.
  intros a f' H1 H2 Hn Hi Hr HB Hslot Ha Hh Ht Hfb Hz Hp. rewrite nmeta_eq in Hfb.
  assert (HND : 0 <= NDIRECT < MAXFILE) by (by vm_compute).
  assert (Hs : forall m, 0 <= m <= MAXFILE -> slot f' x m = if decide (m = i) then fb else slot f x m).
  { intros m Hm. apply slot_with_entry; try done. unfold FSSIZE in Hfb. lia. }
  assert (E0 : slot f x i = 0).
  { destruct (decide (slot f x i = 0)) as [|E]; [done|]. apply Hslot in E; lia. }
  assert (Hafb : 46 <= a < fb) by (rewrite <- nmeta_eq; apply (bo_range _ _ HB MAXFILE); [lia|done]).
  assert (Hnota : forall m, 0 <= m < MAXFILE -> slot f x m <> 0 -> slot f x m <> a).
  { intros m Hm Hne E. assert (m = MAXFILE) by (apply (bo_inj _ _ HB); [lia|lia|done|done]). lia. }
  assert (Hi0 : slot f' x i = fb) by (rewrite Hs by lia; by rewrite decide_True).
  assert (Hm : n + 1 <= MAXFILE * BSIZE) by (unfold BSIZE in *; lia).
  destruct (content_grown f x c f' x) as [Hh' Ht']; [| |lia|done|done|split; [split|split; [|done]]]; try done.
  - intros m Hm' Hne. rewrite Hs by lia. rewrite decide_False; [|by intros ->]. split; [done|].
    unfold f', upd. rewrite decide_False; [done|]. by apply Hnota.
  - intros m Hm' Hm0. rewrite Hs by lia. case_decide; [|done]. intros _. unfold f', upd. rewrite decide_False by lia. apply Hz. lia.
  - lia.
  - split.
    + apply (blocks_ok_add (slot f x) _ fb i fb); try done. rewrite nmeta_eq. lia.
    + intros m Hm'. rewrite Hs by lia. case_decide as E; [subst m; lia|]. rewrite Hslot by done. rewrite Hi. unfold BSIZE. lia.
    + rewrite Hs by lia. rewrite decide_False by lia. rewrite Hi. unfold BSIZE in *. lia.
  - split; [lia| | |].
    + intros m Hm' Hne. rewrite Hs by done. rewrite decide_False; [done|]. by intros ->.
    + intros m Hm' Hm0. rewrite Hs by done. case_decide; [lia|done].
    + intros z Hz'. unfold f', upd. case_decide as E; [|done]. subst z. destruct (Hz' MAXFILE); [lia| |]; rewrite Hs by lia; by rewrite decide_False by lia.
Qed.

(** The first block beyond the direct ones: the indirect block comes first. *)
Lemma room_indirect f x c n fb d' :
  let x1 := with_addr NDIRECT fb x in let f' := upd f fb d' in
  file_is f x c n fb -> n = Z.of_nat (length c) -> n = NDIRECT * BSIZE ->
  nmeta <= fb -> fb + 1 < FSSIZE -> zero_from f fb -> putn 4 0 (fb + 1) zeroes = Some d' ->
  file_is f' x1 c (n + 1) (fb + 2) /\ grows f x fb f' x1 (fb + 2) /\ slot f' x1 NDIRECT = fb + 1.
Proof.
  intros x1 f' F Hn Hi Hfb Hlt Hz Hp. pose proof F as [H1 H2 H3 [H4 H5 H6] H7 H8]. rewrite nmeta_eq in Hfb.
  assert (HND : 0 <= NDIRECT < MAXFILE) by (by vm_compute).
  assert (Ezf : f fb = zeroes) by (apply Hz; lia).
  assert (E0 : slot f x MAXFILE = 0).
  { destruct (decide (slot f x MAXFILE = 0)) as [|E]; [done|]. apply H6 in E. lia. }
  assert (Hs : forall m, 0 <= m <= MAXFILE -> slot f x1 m = if decide (m = MAXFILE) then fb else slot f x m).
  { intros m Hm. exact (slot_with_addr f x NDIRECT fb m H1 ltac:(lia) E0 Ezf ltac:(lia) Hm). }
  assert (Ea : slot f x1 MAXFILE = fb) by (rewrite Hs by lia; by rewrite decide_True).
  destruct (content_grown f x c f x1) as [Hh Ht]; [| |lia|done|done|].
  { intros m Hm Hne. rewrite Hs by lia. by rewrite decide_False by lia. }
  { intros m Hm Hm0. rewrite Hs by lia. by rewrite decide_False by lia. }
  destruct (room_entry f x1 c n (fb + 1) NDIRECT d') as (F' & G' & S'); rewrite ?Ea; try done.
  - simpl. by rewrite length_insert.
  - simpl. apply Forall_insert; [done|]. unfold FSSIZE in *. lia.
  - apply (blocks_ok_add (slot f x) _ fb MAXFILE fb); done.
  - intros m Hm. rewrite Hs by lia. rewrite decide_False by lia. rewrite H5 by done. rewrite Hi. unfold BSIZE. lia.
  - lia.
  - rewrite nmeta_eq. lia.
  - intros b Hb. apply Hz. lia.
  - change (Z.to_nat (4 * (NDIRECT - NDIRECT))) with 0%nat. by rewrite Ezf.
  - rewrite Ea in F', G', S'. replace (fb + 1 + 1) with (fb + 2) in * by lia. split; [done|]. split; [|done].
    apply (grows_trans _ _ _ f x1 (fb + 1)); [|done|lia]. split; [lia| | |done].
    + intros m Hm Hne. rewrite Hs by done. rewrite decide_False; [done|]. by intros ->.
    + intros m Hm Hm0. rewrite Hs by done. case_decide; [lia|done].
Qed.

Lemma file_blocks_room n : 0 <= n -> n mod BSIZE <> 0 -> file_blocks (n + 1) = file_blocks n.
Proof.
  intros H0 Hm. unfold file_blocks, data_blocks. change (NDIRECT * BSIZE) with 12288. unfold BSIZE in *.
  destruct (Z.ltb_spec 12288 (n + 1)), (Z.ltb_spec 12288 n); Z.div_mod_to_equations; lia.
Qed.

Lemma file_blocks_new n i : 0 <= i -> n = i * BSIZE ->
  file_blocks (n + 1) = file_blocks n + (if i =? NDIRECT then 2 else 1).
Proof.
  intros H0 Hi. subst n. unfold file_blocks, data_blocks. change (NDIRECT * BSIZE) with 12288. change NDIRECT with 12. unfold BSIZE.
  destruct (Z.ltb_spec 12288 (i * 1024 + 1)), (Z.ltb_spec 12288 (i * 1024)), (Z.eqb_spec i 12); Z.div_mod_to_equations; lia.
Qed.

Definition same_meta (d d' : dinode) : Prop :=
  di_type d' = di_type d /\ di_major d' = di_major d /\ di_minor d' = di_minor d /\ di_nlink d' = di_nlink d.

(** The blocks of one step that takes [k] blocks. *)
Lemma building_next s f fb (k : Z) : building s f fb -> 0 <= k -> fb + k <= FSSIZE ->
  building (mkMkfs (image s) (freeinode s) (fb + k)) f (fb + k).
Proof.
  intros [[I1 I2 I3] E R Z0] Hk Hle. split; [done|done|lia|]. intros b Hb. apply Z0. lia.
Qed.

(** A block of the file is written. *)
Lemma building_upd s f fb b d : building s f fb -> 0 <= b < fb -> length d = Z.to_nat BSIZE ->
  exists s', wsect b d s = Ret tt s' /\ building s' (upd f b d) fb /\ freeinode s' = freeinode s.
Proof.
  intros [I E R Z0] Hb Hd. destruct (wsect_run s f b d I ltac:(lia) Hd) as (s' & Ew & I' & Ei & Eb).
  exists s'. split; [done|]. split; [|done]. split; [done|congruence|done|]. intros z Hz. unfold upd.
  rewrite decide_False by lia. apply Z0. lia.
Qed.

Section Block.
Context (s : mkfs) (f : Z -> list Z) (fb inum : Z) (d : dinode) (c : list Z) (n : Z).
Context (B : building s f fb) (F : file_is f (ino inum d) c n fb) (Hn : n = Z.of_nat (length c)).
Context (Hmax : n < MAXFILE * BSIZE).

(** What iappend_block leaves when it takes [k] blocks. *)
Definition block_done (k : Z) : Prop :=
  exists s' f' d', iappend_block d (n / BSIZE) s = Ret (d', slot f' (ino inum d') (n / BSIZE)) s' /\
    building s' f' (fb + k) /\ freeinode s' = freeinode s /\ same_meta d d' /\
    file_is f' (ino inum d') c (n + 1) (fb + k) /\ grows f (ino inum d) fb f' (ino inum d') (fb + k).

Lemma slot_u32 m : 0 <= m <= MAXFILE -> slot f (ino inum d) m <> 0 -> 0 <= slot f (ino inum d) m < 2 ^ 32.
Proof.
  intros Hm Hne. pose proof (bo_range _ _ (ba_ok _ _ _ (fi_blocks _ _ _ _ _ F)) m Hm Hne).
  pose proof (bg_range _ _ _ B). rewrite nmeta_eq in *. unfold FSSIZE in *. lia.
Qed.

Lemma block_direct_none : n mod BSIZE <> 0 -> n / BSIZE < NDIRECT -> block_done 0.
Proof.
  intros Hm Hd. assert (H0 : 0 <= n / BSIZE) by (apply Z.div_pos; [lia|done]).
  exists s, f, d. rewrite !Z.add_0_r. split; [|split; [done|]; split; [done|]; split; [done|]; split; [by apply room_none|apply grows_refl]].
  assert (Ea : addr_slot (n / BSIZE) = n / BSIZE) by (unfold addr_slot; by rewrite (proj2 (Z.eqb_neq _ _)) by lia).
  pose proof (xint_addr f inum d c n fb (n / BSIZE) F ltac:(lia)) as E. rewrite Ea in E.
  unfold iappend_block. rewrite (proj2 (Z.ltb_lt _ _) Hd), E.
  rewrite (proj2 (Z.eqb_neq _ _)); [unfold bind, ret; cbn [obind]; by rewrite E|].
  apply (ba_slot _ _ _ (fi_blocks _ _ _ _ _ F)).
  - change NDIRECT with 12 in Hd. rewrite MAXFILE_eq. lia.
  - pose proof (Z.div_mod n BSIZE ltac:(done)). pose proof (Z.mod_pos_bound n BSIZE ltac:(done)). lia.
Qed.

(** The block of the end of the file exists. *)
Lemma slot_last : n mod BSIZE <> 0 -> slot f (ino inum d) (n / BSIZE) <> 0 /\ n / BSIZE * BSIZE < n.
Proof.
  intros Hm. pose proof (Z.div_mod n BSIZE ltac:(done)). pose proof (Z.mod_pos_bound n BSIZE ltac:(done)).
  split; [|lia]. apply (ba_slot _ _ _ (fi_blocks _ _ _ _ _ F)); [apply div_range; lia|lia].
Qed.

Lemma block_indirect_none : n mod BSIZE <> 0 -> NDIRECT <= n / BSIZE -> block_done 0.
Proof.
  intros Hm Hd. destruct (slot_last Hm) as [Hs Hlt]. pose proof (div_range n ltac:(lia) Hmax) as Hr.
  assert (Ha : slot f (ino inum d) MAXFILE <> 0).
  { apply (ba_ind _ _ _ (fi_blocks _ _ _ _ _ F)). change NDIRECT with 12 in *. unfold BSIZE in *. lia. }
  exists s, f, d. rewrite !Z.add_0_r. split; [|split; [done|]; split; [done|]; split; [done|]; split; [by apply room_none|apply grows_refl]].
  pose proof (xint_addr f inum d c n fb NDIRECT F ltac:(done)) as E. change (addr_slot NDIRECT) with MAXFILE in E.
  pose proof (bo_range _ _ (ba_ok _ _ _ (fi_blocks _ _ _ _ _ F)) MAXFILE ltac:(done) Ha) as Hrange.
  pose proof (bg_range _ _ _ B). rewrite nmeta_eq in *. set (a := slot f (ino inum d) MAXFILE) in *.
  pose proof (slot_ind f (ino inum d) (n / BSIZE) ltac:(lia)) as Ei. fold a in Ei. rewrite (proj2 (Z.eqb_neq _ _) Ha) in Ei.
  pose proof (slot_u32 (n / BSIZE) ltac:(lia) Hs) as Hu.
  destruct (getn 4 (Z.to_nat (4 * (n / BSIZE - NDIRECT))) (f a)) as [e|] eqn:Ee; [|by rewrite Ei in Hs].
  simpl in Ei. rewrite Ei in *. unfold iappend_block. rewrite (proj2 (Z.ltb_ge _ _) Hd), E, (proj2 (Z.eqb_neq _ _) Ha).
  change (bind (ret d)) with (fun (k : dinode -> M mkfs (dinode * Z)) => k d). cbv beta. rewrite E.
  rewrite (bind_run _ _ _ _ _ (rsect_run s f a (bg_image _ _ _ B) ltac:(lia))). cbv beta zeta. rewrite Ee.
  change (need _ (Some e)) with (ret (S := mkfs) e). rewrite bind_ret, (proj2 (Z.eqb_neq _ _) Hs). by rewrite xint_eq.
Qed.

Lemma div_exact i : n = i * BSIZE -> n / BSIZE = i.
Proof. intros ->. by apply Z.div_mul. Qed.

Lemma slot_none i : n = i * BSIZE -> 0 <= i < MAXFILE -> slot f (ino inum d) i = 0.
Proof.
  intros Hi Hr. destruct (decide (slot f (ino inum d) i = 0)) as [|E]; [done|].
  apply (ba_slot _ _ _ (fi_blocks _ _ _ _ _ F)) in E; lia.
Qed.

Lemma next_block_fb : next_block s = Ret fb (mkMkfs (image s) (freeinode s) (fb + 1)).
Proof.
  pose proof (bg_range _ _ _ B) as Hr. pose proof (bg_fb _ _ _ B) as E. rewrite nmeta_eq in Hr. unfold FSSIZE in Hr.
  rewrite next_block_run by lia. by rewrite E.
Qed.

Lemma block_direct_new i : n = i * BSIZE -> 0 <= i < NDIRECT -> fb + 1 <= FSSIZE -> block_done 1.
Proof.
  intros Hi Hr Hfb. pose proof (bg_range _ _ _ B) as HR. assert (HND : NDIRECT < MAXFILE) by done.
  destruct (room_direct f (ino inum d) c n fb F Hn Hmax HR (bg_zero _ _ _ B) i Hi Hr ltac:(lia)) as (F' & G' & S').
  exists (mkMkfs (image s) (freeinode s) (fb + 1)), f, (set_addr i fb d). rewrite (div_exact i Hi).
  split; [|split; [by apply building_next|]; done].
  assert (Ea : addr_slot i = i) by (unfold addr_slot; by rewrite (proj2 (Z.eqb_neq _ _)) by lia).
  pose proof (xint_addr f inum d c n fb i F ltac:(lia)) as E. rewrite Ea, (slot_none i Hi ltac:(lia)) in E.
  pose proof (xint_addr f inum (set_addr i fb d) c _ _ i F' ltac:(lia)) as E'. rewrite Ea in E'.
  unfold iappend_block. rewrite (proj2 (Z.ltb_lt _ _)), E by lia. rewrite nmeta_eq in HR. unfold FSSIZE in HR.
  change (0 =? 0) with true. unfold bind, ret. cbv beta iota. rewrite next_block_fb. cbn [obind]. rewrite xint_eq by lia.
  by rewrite E'.
Qed.

Lemma block_entry_new i : n = i * BSIZE -> NDIRECT < i < MAXFILE -> fb + 1 <= FSSIZE -> block_done 1.
Proof.
  intros Hi Hr Hfb. pose proof (bg_range _ _ _ B) as HR. rewrite nmeta_eq in HR. change NDIRECT with 12 in Hr.
  pose proof F as [A1 A2 A3 [A4 A5 A6] A7 A8]. pose proof (bg_image _ _ _ B) as I.
  assert (Ha : slot f (ino inum d) MAXFILE <> 0) by (apply A6; change NDIRECT with 12; unfold BSIZE in *; lia).
  pose proof (bo_range _ _ A4 MAXFILE ltac:(done) Ha) as Hrange. rewrite nmeta_eq in Hrange.
  set (a := slot f (ino inum d) MAXFILE) in *.
  pose proof (im_size _ _ I a ltac:(lia)) as Hlen. change (Z.to_nat BSIZE) with 1024%nat in Hlen. rewrite MAXFILE_eq in Hr.
  destruct (putn_ok 4 (Z.to_nat (4 * (i - NDIRECT))) fb (f a)) as [d' Hp]; [rewrite Hlen; change NDIRECT with 12; lia|].
  destruct (getn_putn _ _ _ _ _ Hp) as (Hlen' & Hget & _).
  destruct (room_entry f (ino inum d) c n fb i d' A1 A2 Hn Hi ltac:(rewrite MAXFILE_eq; change NDIRECT with 12; lia) A4)
    as (F' & G' & S'); try done; [|rewrite nmeta_eq; lia|apply B|].
  { intros m Hm. rewrite A5 by done. rewrite Hi. unfold BSIZE. lia. }
  fold a in F', G', S'. pose proof (building_next s f fb 1 B ltac:(lia) Hfb) as B1.
  destruct (building_upd _ _ _ a d' B1 ltac:(lia)) as (s' & Ew & B' & Ei); [by rewrite Hlen', Hlen|].
  exists s', (upd f a d'), d. rewrite (div_exact i Hi).
  split; [|split; [done|]; split; [done|]; split; [done|]; split; done]. rewrite S'.
  pose proof (xint_addr f inum d c n fb NDIRECT F ltac:(done)) as E. change (addr_slot NDIRECT) with MAXFILE in E. fold a in E.
  pose proof (slot_ind f (ino inum d) i ltac:(rewrite MAXFILE_eq; change NDIRECT with 12; lia)) as Es. fold a in Es.
  rewrite (slot_none i Hi) in Es by (rewrite MAXFILE_eq; lia). rewrite (proj2 (Z.eqb_neq _ _) Ha) in Es.
  destruct (getn_ok 4 (Z.to_nat (4 * (i - NDIRECT))) (f a)) as [e Ee]; [rewrite Hlen; change NDIRECT with 12; lia|].
  rewrite Ee in Es. simpl in Es. subst e. unfold FSSIZE in HR.
  unfold iappend_block. rewrite (proj2 (Z.ltb_ge _ _)), E, (proj2 (Z.eqb_neq _ _) Ha) by (change NDIRECT with 12; lia).
  change (bind (ret d)) with (fun (k : dinode -> M mkfs (dinode * Z)) => k d). cbv beta. rewrite E.
  rewrite (bind_run _ _ _ _ _ (rsect_run s f a I ltac:(lia))). cbv beta zeta. rewrite Ee.
  change (need _ (Some 0)) with (ret (S := mkfs) 0). rewrite bind_ret. cbn [Z.eqb].
  rewrite (bind_run _ _ _ _ _ next_block_fb), xint_eq by lia. rewrite Hp.
  change (need _ (Some d')) with (ret (S := mkfs) d'). rewrite bind_ret.
  rewrite (bind_run _ _ _ _ _ Ew), Hget. change (need _ (Some ?z)) with (ret (S := mkfs) z). rewrite bind_ret.
  rewrite Z.mod_small by (simpl; lia). by rewrite xint_eq by lia.
Qed.

Lemma block_indirect_new : n = NDIRECT * BSIZE -> fb + 2 <= FSSIZE -> block_done 2.
Proof.
  intros Hi Hfb. pose proof (bg_range _ _ _ B) as HR. rewrite nmeta_eq in HR.
  assert (Hsz : forall v, 0 <= v < 2 ^ 32 -> xint v = v) by exact xint_eq. unfold FSSIZE in Hfb, HR.
  destruct (putn_ok 4 0 (fb + 1) zeroes) as [d' Hp]; [unfold zeroes; rewrite length_replicate; change BSIZE with 1024; lia|].
  destruct (getn_putn _ _ _ _ _ Hp) as (Hlen' & Hget & _).
  destruct (room_indirect f (ino inum d) c n fb d' F Hn Hi) as (F' & G' & S');
    [rewrite nmeta_eq; lia|unfold FSSIZE; lia|apply B|done|].
  pose proof (building_next s f fb 2 B ltac:(lia) ltac:(unfold FSSIZE; lia)) as B1.
  destruct (building_upd _ _ _ fb d' B1 ltac:(lia)) as (s' & Ew & B' & Ei); [rewrite Hlen'; unfold zeroes; by rewrite length_replicate|].
  exists s', (upd f fb d'), (set_addr NDIRECT fb d). rewrite (div_exact NDIRECT Hi).
  change (ino inum (set_addr NDIRECT fb d)) with (with_addr NDIRECT fb (ino inum d)).
  split; [|split; [done|]; split; [done|]; split; [done|]; split; done]. rewrite S'.
  pose proof (xint_addr f inum d c n fb NDIRECT F ltac:(done)) as E. change (addr_slot NDIRECT) with MAXFILE in E.
  assert (E0 : slot f (ino inum d) MAXFILE = 0).
  { destruct (decide (slot f (ino inum d) MAXFILE = 0)) as [|E']; [done|].
    apply (ba_ind _ _ _ (fi_blocks _ _ _ _ _ F)) in E'. lia. }
  rewrite E0 in E.
  pose proof (xint_addr _ inum (set_addr NDIRECT fb d) c _ _ NDIRECT F' ltac:(done)) as E1.
  assert (Ha : addr_of NDIRECT (set_addr NDIRECT fb d) = fb).
  { unfold addr_of, set_addr. simpl. rewrite list_lookup_insert_eq; [done|].
    pose proof (fi_len _ _ _ _ _ F) as Hl. simpl in Hl. rewrite Hl. change NDIRECT with 12. lia. }
  unfold iappend_block. change (NDIRECT <? NDIRECT) with false. rewrite E. change (0 =? 0) with true. cbv iota.
  rewrite (bind_run _ _ _ (set_addr NDIRECT fb d) (mkMkfs (image s) (freeinode s) (fb + 1))).
  2: { rewrite (bind_run _ _ _ _ _ next_block_fb). unfold ret. by rewrite Hsz by lia. }
  rewrite Ha, Hsz by lia. pose proof (building_next s f fb 1 B ltac:(lia) ltac:(unfold FSSIZE; lia)) as B0.
  rewrite (bind_run _ _ _ _ _ (rsect_run _ f fb (bg_image _ _ _ B0) ltac:(unfold FSSIZE; lia))). cbv beta zeta.
  rewrite (bg_zero _ _ _ B fb) by (unfold FSSIZE; lia). change (Z.to_nat (4 * (NDIRECT - NDIRECT))) with 0%nat.
  change (getn 4 0 zeroes) with (Some 0). change (need _ (Some 0)) with (ret (S := mkfs) 0). rewrite bind_ret. cbn [Z.eqb].
  rewrite (bind_run _ _ _ _ _ (next_block_run (mkMkfs (image s) (freeinode s) (fb + 1)) ltac:(simpl; lia))).
  cbn [freeblock image freeinode]. rewrite Hsz, Hp by lia. change (need _ (Some d')) with (ret (S := mkfs) d').
  rewrite bind_ret. replace (fb + 1 + 1) with (fb + 2) by lia. rewrite (bind_run _ _ _ _ _ Ew), Hget.
  change (need _ (Some ?z)) with (ret (S := mkfs) z). rewrite bind_ret. rewrite Z.mod_small by (simpl; lia).
  by rewrite Hsz by lia.
Qed.

(** iappend finds or allocates the block of the end of the file. *)
Lemma iappend_block_run : fb + (file_blocks (n + 1) - file_blocks n) <= FSSIZE ->
  block_done (file_blocks (n + 1) - file_blocks n).
Proof.
  intros Hfb. pose proof (div_range n ltac:(lia) Hmax) as Hr. destruct (decide (n mod BSIZE = 0)) as [E|E].
  - assert (Hi : n = n / BSIZE * BSIZE) by (pose proof (Z.div_mod n BSIZE ltac:(done)); lia).
    rewrite (file_blocks_new n (n / BSIZE)) in * by (lia || done).
    replace (_ - file_blocks n) with (if n / BSIZE =? NDIRECT then 2 else 1) in * by lia.
    destruct (Z.eqb_spec (n / BSIZE) NDIRECT) as [E'|E'].
    + rewrite E' in Hi. by apply block_indirect_new.
    + destruct (Z.lt_ge_cases (n / BSIZE) NDIRECT).
      * apply (block_direct_new (n / BSIZE)); [done|lia|done].
      * apply (block_entry_new (n / BSIZE)); [done|lia|done].
  - rewrite file_blocks_room in * by (lia || done). rewrite Z.sub_diag.
    destruct (Z.lt_ge_cases (n / BSIZE) NDIRECT); [by apply block_direct_none|by apply block_indirect_none].
Qed.
End Block.

(** * Writing the bytes *)

(** [chunk] is written at the end of the file, inside one block. *)
Lemma file_is_put f x c n fb chunk d' :
  let a := slot f x (n / BSIZE) in let n' := n + Z.of_nat (length chunk) in
  file_is f x c (n + 1) fb -> n = Z.of_nat (length c) -> chunk <> [] ->
  n mod BSIZE + Z.of_nat (length chunk) <= BSIZE -> put_bytes (Z.to_nat (n mod BSIZE)) chunk (f a) = Some d' ->
  file_is (upd f a d') x (c ++ chunk) n' fb /\ grows f x fb (upd f a d') x fb.
Proof.
  intros a n' F Hn Hne Hfit Hput. pose proof F as [H1 H2 H3 [H4 H5 H6] H7 H8].
  assert (Hl : 0 < Z.of_nat (length chunk)) by (destruct chunk; [done|simpl; lia]).
  pose proof (div_range n ltac:(lia) ltac:(lia)) as Hr. pose proof (Z.div_mod n BSIZE ltac:(done)) as Dn.
  pose proof (Z.mod_pos_bound n BSIZE ltac:(done)) as Mn.
  assert (Ha : a <> 0) by (apply H5; lia).
  assert (Hind : a <> slot f x MAXFILE).
  { intros E. assert (n / BSIZE = MAXFILE) by (apply (bo_inj _ _ H4); [lia|done|done|done]). lia. }
  assert (Hn' : n' <= MAXFILE * BSIZE) by (unfold n', BSIZE in *; lia).
  assert (Hlt : forall m, m * BSIZE < n' <-> m * BSIZE < n + 1) by (intros m; unfold n', BSIZE in *; lia).
  assert (HB : forall i, 0 <= i < MAXFILE * BSIZE -> byte_at (upd f a d') x i =
    if decide (n <= i < n') then chunk !! Z.to_nat (i - n) else byte_at f x i).
  { intros i Hi. unfold n', a. apply byte_at_put; try done; [apply (bo_inj _ _ H4)|lia]. }
  assert (Hs : forall m, slot (upd f a d') x m = slot f x m) by (intros m; by apply slot_upd).
  split; [split; try done|split; [lia|..]].
  - rewrite length_app. unfold n'. lia.
  - split; [split|..]; intros *; rewrite ?Hs, ?Hlt; [apply H4|apply H4|apply H5|apply H6].
  - intros i b E. pose proof (lookup_lt_Some _ _ _ E) as Hi. rewrite length_app in Hi. rewrite HB by (unfold n' in *; lia).
    apply lookup_app_Some in E as [E|[Hle E]].
    + rewrite decide_False; [by apply H7|]. apply lookup_lt_Some in E. lia.
    + rewrite decide_True by (unfold n'; lia). rewrite <- E. f_equal. lia.
  - intros i. rewrite length_app. intros Hi Hd. rewrite Hs. intros Hsi.
    pose proof (Z.div_mod i BSIZE ltac:(done)). pose proof (Z.mod_pos_bound i BSIZE ltac:(done)).
    rewrite HB by (unfold BSIZE in *; lia). rewrite decide_False by (unfold n'; lia). by apply H8; [lia| |].
  - intros m Hm Hne'. apply Hs.
  - intros m Hm E0. by rewrite Hs, E0.
  - intros z Hz. unfold upd. rewrite decide_False; [done|]. intros ->. apply (Hz (n / BSIZE)); rewrite ?Hs; [lia|done|done].
Qed.

Lemma file_blocks_mono n n' : n <= n' -> file_blocks n <= file_blocks n'.
Proof.
  intros Hn. unfold file_blocks, data_blocks. change (NDIRECT * BSIZE) with 12288. unfold BSIZE.
  destruct (Z.ltb_spec 12288 n), (Z.ltb_spec 12288 n'); Z.div_mod_to_equations; lia.
Qed.

(** The bytes that fill one block take the blocks of its first byte. *)
Lemma file_blocks_in n n' : 0 <= n < n' -> n' <= (n / BSIZE + 1) * BSIZE -> file_blocks n' = file_blocks (n + 1).
Proof.
  intros Hn Hn'. unfold file_blocks, data_blocks. change (NDIRECT * BSIZE) with 12288. unfold BSIZE in *.
  destruct (Z.ltb_spec 12288 (n + 1)), (Z.ltb_spec 12288 n'); Z.div_mod_to_equations; lia.
Qed.

(** What is true after [p] has been appended to the file [c] of inode [d]. *)
Definition appended (s : mkfs) f fb inum d c (p : list Z) (s' : mkfs) (d' : dinode) : Prop :=
  exists f', let n := Z.of_nat (length c) in let n' := n + Z.of_nat (length p) in
    let fb' := fb + (file_blocks n' - file_blocks n) in
    building s' f' fb' /\ freeinode s' = freeinode s /\ same_meta d d' /\
    file_is f' (ino inum d') (c ++ p) n' fb' /\ grows f (ino inum d) fb f' (ino inum d') fb'.

Lemma same_meta_trans d d1 d2 : same_meta d d1 -> same_meta d1 d2 -> same_meta d d2.
Proof. unfold same_meta. intuition congruence. Qed.

(** One round of the loop appends [chunk]. *)
Lemma iappend_round s f fb inum d c chunk :
  let n := Z.of_nat (length c) in let n' := n + Z.of_nat (length chunk) in
  building s f fb -> file_is f (ino inum d) c n fb -> chunk <> [] -> n' <= (n / BSIZE + 1) * BSIZE -> n' <= MAXFILE * BSIZE ->
  fb + (file_blocks n' - file_blocks n) <= FSSIZE ->
  exists s1 s2 a d' buf buf', iappend_block d (n / BSIZE) s = Ret (d', a) s1 /\ rsect a s1 = Ret buf s1 /\
    put_bytes (Z.to_nat (n - n / BSIZE * BSIZE)) chunk buf = Some buf' /\ wsect a buf' s1 = Ret tt s2 /\
    appended s f fb inum d c chunk s2 d'.
Proof.
  intros n n' B F Hne Hin Hmax Hfb. assert (Hl : 0 < Z.of_nat (length chunk)) by (destruct chunk; [done|simpl; lia]).
  rewrite (file_blocks_in n n') in Hfb by (unfold n' in *; lia).
  destruct (iappend_block_run s f fb inum d c n B F eq_refl ltac:(unfold n' in *; lia) Hfb)
    as (s1 & f1 & d' & E1 & B1 & I1 & M1 & F1 & G1).
  set (fb' := fb + (file_blocks (n + 1) - file_blocks n)) in *. pose proof F1 as [H1 H2 H3 [H4 H5 H6] H7 H8].
  pose proof (div_range n ltac:(lia) ltac:(unfold n' in *; lia)) as Hr. pose proof (Z.div_mod n BSIZE ltac:(done)) as Dn.
  pose proof (Z.mod_pos_bound n BSIZE ltac:(done)) as Mn. set (a := slot f1 (ino inum d') (n / BSIZE)) in *.
  assert (Ha : nmeta <= a < fb') by (apply (bo_range _ _ H4); [lia|apply H5; lia]).
  pose proof (bg_range _ _ _ B1) as HR. rewrite nmeta_eq in *.
  pose proof (im_size _ _ (bg_image _ _ _ B1) a ltac:(lia)) as Hsz.
  destruct (put_bytes (Z.to_nat (n mod BSIZE)) chunk (f1 a)) as [buf'|] eqn:Ep.
  2: { unfold put_bytes in Ep. rewrite Hsz in Ep. destruct (Nat.leb_spec (Z.to_nat (n mod BSIZE) + length chunk) (Z.to_nat BSIZE)); [done|].
       unfold n', BSIZE in *. lia. }
  destruct (put_bytes_lookup _ _ _ _ Ep) as [Hlen _].
  destruct (file_is_put f1 (ino inum d') c n fb' chunk buf' F1 eq_refl Hne ltac:(unfold n', BSIZE in *; lia) Ep) as [F2 G2].
  destruct (building_upd s1 f1 fb' a buf' B1 ltac:(lia) ltac:(congruence)) as (s2 & E2 & B2 & I2).
  exists s1, s2, a, d', (f1 a), buf'. split; [done|]. split; [apply rsect_run; [apply B1|lia]|].
  split; [by replace (n - n / BSIZE * BSIZE) with (n mod BSIZE) by lia|]. split; [done|].
  exists (upd f1 a buf'). cbv zeta. fold n. fold n'. rewrite (file_blocks_in n n') by (unfold n' in *; lia).
  split; [done|]. split; [congruence|]. split; [done|]. split; [done|]. apply (grows_trans _ _ _ f1 (ino inum d') fb'); try done. apply (bg_range _ _ _) in B. rewrite nmeta_eq in B. lia.
Qed.

Lemma appended_trans s f fb inum d c p s1 d1 f1 q s2 d2 :
  let n1 := Z.of_nat (length c) + Z.of_nat (length p) in
  let fb1 := fb + (file_blocks n1 - file_blocks (Z.of_nat (length c))) in
  building s1 f1 fb1 -> freeinode s1 = freeinode s -> same_meta d d1 -> grows f (ino inum d) fb f1 (ino inum d1) fb1 -> 0 < fb ->
  appended s1 f1 fb1 inum d1 (c ++ p) q s2 d2 -> appended s f fb inum d c (p ++ q) s2 d2.
Proof.
  intros n1 fb1 B1 I1 M1 G1 Hpos (f2 & B2 & I2 & M2 & F2 & G2). exists f2. cbv zeta in *.
  rewrite !length_app, !Nat2Z.inj_add in *. fold n1 in B2, F2, G2. rewrite (Z.add_assoc (Z.of_nat (length c))). fold n1.
  replace (fb1 + _) with (fb + (file_blocks (n1 + Z.of_nat (length q)) - file_blocks (Z.of_nat (length c)))) in * by (unfold fb1; lia).
  rewrite <- app_assoc in F2. split; [done|]. split; [congruence|]. split; [by eapply same_meta_trans|]. split; [done|].
  by eapply grows_trans.
Qed.

(** while(n > 0) appends [p]. *)
Lemma iappend_loop_run inum p : forall fuel s f fb d c, let n := Z.of_nat (length c) in let n' := n + Z.of_nat (length p) in
  building s f fb -> file_is f (ino inum d) c n fb -> n' <= MAXFILE * BSIZE ->
  fb + (file_blocks n' - file_blocks n) <= FSSIZE -> (length p < fuel)%nat ->
  exists s' d', iappend_loop fuel d n p s = Ret (d', n') s' /\ appended s f fb inum d c p s' d'.
Proof.
  induction p as [p IH] using (induction_ltof1 _ (@length Z)); unfold ltof in IH.
  intros [|fuel] s f fb d c n n' B F Hmax Hfb Hfuel; [lia|]. cbn [iappend_loop].
  destruct (Z.ltb_spec 0 (Z.of_nat (length p))) as [Hpos|Hpos].
  2: { destruct p; [|simpl in Hpos; lia]. unfold n' in *. simpl in *. exists s, d. rewrite Z.add_0_r in *. split; [done|]. exists f.
       cbv zeta. fold n. rewrite app_nil_r, Z.add_0_r, Z.sub_diag, Z.add_0_r. split; [done|]. split; [done|]. split; [done|].
       split; [done|apply grows_refl]. }
  pose proof (div_range n ltac:(lia) ltac:(unfold n' in *; lia)) as Hr. pose proof (Z.div_mod n BSIZE ltac:(done)) as Dn.
  pose proof (Z.mod_pos_bound n BSIZE ltac:(done)) as Mn.
  assert (HM : MAXFILE * BSIZE = 274432) by done. rewrite u32_small by (unfold BSIZE in *; lia).
  set (n1 := Z.min (Z.of_nat (length p)) ((n / BSIZE + 1) * BSIZE - n)).
  assert (Hn1 : 0 < n1 <= Z.of_nat (length p) /\ n + n1 <= (n / BSIZE + 1) * BSIZE) by (unfold n1, BSIZE in *; lia).
  set (chunk := take (Z.to_nat n1) p). assert (Hc : Z.of_nat (length chunk) = n1) by (unfold chunk; rewrite length_take; lia).
  assert (Hmono : file_blocks (n + n1) <= file_blocks n') by (apply file_blocks_mono; unfold n'; lia).
  destruct (iappend_round s f fb inum d c chunk B F) as (s1 & s2 & a & d' & buf & buf' & E1 & E2 & E3 & E4 & A);
    [intros E; rewrite E in Hc; simpl in Hc; lia|fold n; rewrite Hc; lia|fold n; rewrite Hc; unfold n' in *; lia|fold n; rewrite Hc; lia|fold n in E1, E3].
  unfold assert_. rewrite (proj2 (Z.ltb_lt _ _)), bind_ret by lia.
  rewrite (bind_run _ _ _ _ _ E1), (bind_run _ _ _ _ _ E2), E3.
  change (need _ (Some buf')) with (ret (S := mkfs) buf'). rewrite bind_ret, (bind_run _ _ _ _ _ E4), u32_small by (unfold BSIZE in *; lia).
  destruct A as (f2 & B2 & I2 & M2 & F2 & G2). cbv zeta in B2, F2, G2. fold n in B2, F2, G2. rewrite Hc in B2, F2, G2.
  assert (Hd : length (drop (Z.to_nat n1) p) = (length p - Z.to_nat n1)%nat) by apply length_drop.
  assert (Hcc : Z.of_nat (length (c ++ chunk)) = n + n1) by (rewrite length_app; unfold n; lia).
  assert (Hn' : n + n1 + Z.of_nat (length (drop (Z.to_nat n1) p)) = n') by (rewrite Hd; unfold n'; lia).
  destruct (IH (drop (Z.to_nat n1) p) ltac:(lia) fuel s2 f2 _ d' (c ++ chunk) B2) as (s3 & d3 & E5 & A5);
    rewrite ?Hcc, ?Hn' in *; [done|done|lia|lia|].
  exists s3, d3. split; [done|]. rewrite <- (take_drop (Z.to_nat n1) p).
  eapply (appended_trans s f fb inum d c chunk s2 d' f2); fold n; rewrite ?Hc; try done.
  apply (bg_range _ _ _) in B. rewrite nmeta_eq in B. lia.
Qed.

(** * Inodes of the image *)

Definition disk_inode f (inum : Z) : option dinode := dinode_of (dinode_off inum) (f (IBLOCK inum sb)).

Lemma IBLOCK_range inum : 0 <= inum < NINODES -> IBLOCK inum sb = inum / 16 + 32 /\ 32 <= IBLOCK inum sb < 45.
Proof.
  intros Hi. unfold IBLOCK, NINODES in *. change (sb_inodestart sb) with 32. change IPB with 16.
  rewrite u32_small by (Z.div_mod_to_equations; lia). Z.div_mod_to_equations; lia.
Qed.

(** An inode is its 64 bytes. *)
Lemma dinode_of_ext off d d' img : get_bytes (Z.to_nat dinode_size) off d = Some img ->
  get_bytes (Z.to_nat dinode_size) off d' = Some img -> dinode_of off d' = dinode_of off d.
Proof.
  change (Z.to_nat dinode_size) with 64%nat. intros E E'.
  pose proof (getn_sub 64 off d _ 2 0 E ltac:(lia)) as E0. pose proof (getn_sub 64 off d' _ 2 0 E' ltac:(lia)) as E0'.
  rewrite Nat.add_0_r in E0, E0'. unfold dinode_of. rewrite E0, E0'.
  rewrite !(getn_sub 64 off d _ _ _ E), !(getn_sub 64 off d' _ _ _ E') by lia.
  by rewrite (words_of_sub 64 off d _ E), (words_of_sub 64 off d' _ E') by lia.
Qed.

Lemma rinode_run s f inum d : image_is s f -> 0 <= inum < NINODES -> disk_inode f inum = Some d -> rinode inum s = Ret d s.
Proof.
  intros I Hi E. pose proof (IBLOCK_range inum Hi). unfold rinode.
  rewrite (bind_run _ _ _ _ _ (rsect_run s f (IBLOCK inum sb) I ltac:(unfold FSSIZE; lia))). unfold disk_inode in E. by rewrite E.
Qed.

(** Distinct inodes of one block do not overlap. *)
Lemma dinode_off_ne i j : i / 16 = j / 16 -> i <> j ->
  (dinode_off j + 64 <= dinode_off i \/ dinode_off i + 64 <= dinode_off j)%nat.
Proof.
  intros E Hne. unfold dinode_off. change IPB with 16. change dinode_size with 64. Z.div_mod_to_equations; lia.
Qed.

Lemma winode_run s f fb inum d : building s f fb -> 0 <= inum < NINODES -> dinode_range (ino inum d) ->
  exists s' f', winode inum d s = Ret tt s' /\ building s' f' fb /\ freeinode s' = freeinode s /\
    disk_inode f' inum = Some d /\
    (forall j, 0 <= j < NINODES -> j <> inum -> disk_inode f' j = disk_inode f j) /\
    (forall z, z <> IBLOCK inum sb -> f' z = f z).
Proof.
  intros B Hi R. pose proof (IBLOCK_range inum Hi) as [Eb Hb]. set (b := IBLOCK inum sb) in *.
  pose proof (im_size _ _ (bg_image _ _ _ B) b ltac:(unfold FSSIZE; lia)) as Hsz. pose proof (bg_range _ _ _ B) as HR.
  rewrite nmeta_eq in HR. pose proof (dinode_off_le inum ltac:(lia)) as Hoff.
  pose proof (dinode_image_length (ino inum d) (dr_len _ R)) as Hl. change (dinode_image (ino inum d)) with (dinode_bytes d) in Hl.
  destruct (put_bytes (dinode_off inum) (dinode_bytes d) (f b)) as [buf|] eqn:Ep.
  2: { unfold put_bytes in Ep. rewrite Hsz, Hl, (proj2 (Nat.leb_le _ _)) in Ep by done. done. }
  destruct (put_bytes_lookup _ _ _ _ Ep) as [Hlen Hlk]. rewrite Hl in Hlk. change (Z.to_nat dinode_size) with 64%nat in Hlk.
  destruct (building_upd s f fb b buf B ltac:(lia) ltac:(congruence)) as (s' & Ew & B' & Ei).
  exists s', (upd f b buf). split; [|split; [done|]; split; [done|]; split; [|split]].
  - unfold winode. fold b. rewrite (bind_run _ _ _ _ _ (rsect_run s f b (bg_image _ _ _ B) ltac:(unfold FSSIZE; lia))), Ep.
    change (need _ (Some buf)) with (ret (S := mkfs) buf). by rewrite bind_ret.
  - unfold disk_inode, upd. rewrite decide_True by done. pose proof (put_get_bytes _ _ _ _ Ep) as Eg. rewrite Hl in Eg.
    etransitivity; [apply (dinode_of_image _ _ (ino inum d) R Eg)|]. by destruct d.
  - intros j Hj Hne. pose proof (IBLOCK_range j Hj) as [Ebj Hbj]. unfold disk_inode, upd. case_decide as E; [|done].
    rewrite E. pose proof (dinode_off_ne inum j ltac:(lia) ltac:(done)) as Hd. pose proof (dinode_off_le j ltac:(lia)) as Hoj.
    change (Z.to_nat dinode_size) with 64%nat in Hoj. change (Z.to_nat BSIZE) with 1024%nat in *.
    eapply (dinode_of_ext _ _ _ (take 64 (drop (dinode_off j) (f b)))); change (Z.to_nat dinode_size) with 64%nat.
    + unfold get_bytes. by rewrite (proj2 (Nat.leb_le _ _)) by lia.
    + rewrite (get_bytes_ext 64 (dinode_off j) (f b)); [unfold get_bytes; by rewrite (proj2 (Nat.leb_le _ _)) by lia|done|].
      intros i Hir. rewrite Hlk, decide_False by lia. done.
  - intros z Hz. unfold upd. by rewrite decide_False.
Qed.
