(* ===== verification/MkfsSpec.v ===== *)
(** The image that mkfs builds is a file system that the kernel's code accepts:
    the superblock describes it, the log is empty, the bitmap marks exactly the blocks in use,
    every inode holds its file in blocks of its own, and the root directory names the files. *)

From Stdlib Require Import ZArith Lia.
From stdpp Require Import base gmap list_numbers strings numbers list.
From S2P Require Import Prelude Mem Bytes Riscv Kernel Spinlock Kalloc Vm Printf Sched SchedSpec Thread Sleeplock SleeplockSpec Virtio Bio BioSpec BioInv BioProps Log LogSpec LogTxn Fs FsTx FsAlloc FsFile FsRw FsInode Mkfs MkfsFile.

Open Scope Z_scope.

Implicit Types (s : mkfs) (f : Z -> list Z) (x y : inode) (c : list Z).

(** * The image after some calls of ialloc() and iappend() *)

(** Inode [inum] of the image holds the bytes [c]. *)
Record inode_is f (fb inum : Z) (d : dinode) c : Prop := {
  ii_disk : disk_inode f inum = Some d;
  ii_size : di_size d = Z.of_nat (length c);
  ii_file : file_is f (ino inum d) c (Z.of_nat (length c)) fb;
  ii_range : dinode_range (ino inum d);
}.

Definition apart f x y : Prop :=
  forall m m', 0 <= m <= MAXFILE -> 0 <= m' <= MAXFILE -> slot f x m <> 0 -> slot f x m <> slot f y m'.

(** The inode that ialloc() writes, and a free one. *)
Definition fresh_inode (type : Z) : dinode := mkDinode type 0 0 1 0 (replicate 13 0).
Definition free_inode : dinode := mkDinode 0 0 0 0 0 (replicate 13 0).

(** Number of blocks that the files take. *)
Definition blocks_of (ns : list (dinode * list Z)) : Z :=
  foldr (fun e acc => file_blocks (Z.of_nat (length e.2)) + acc) 0 ns.

(** The inodes 1, 2, ... hold the files [ns]; the other inodes are free, and the metadata
    blocks that hold no inodes are those of [f0]. *)
Record built (f0 : Z -> list Z) s f (fb : Z) (ns : list (dinode * list Z)) : Prop := {
  bt_state : building s f fb;
  bt_next : freeinode s = 1 + Z.of_nat (length ns);
  bt_total : fb = nmeta + blocks_of ns;
  bt_room : 1 + Z.of_nat (length ns) <= NINODES;
  bt_inode : forall i d c, ns !! i = Some (d, c) -> inode_is f fb (1 + Z.of_nat i) d c;
  bt_apart : forall i j d c d' c', ns !! i = Some (d, c) -> ns !! j = Some (d', c') -> i <> j ->
    apart f (ino (1 + Z.of_nat i) d) (ino (1 + Z.of_nat j) d');
  bt_free : forall inum, 1 + Z.of_nat (length ns) <= inum < NINODES -> disk_inode f inum = Some free_inode;
  bt_meta : forall z, 0 <= z < nmeta -> ~ 32 <= z < 45 -> f z = f0 z;
}.

Lemma file_is_addrs f x y c n fb : i_addrs y = i_addrs x -> file_is f x c n fb -> file_is f y c n fb.
Proof.
  intros E F. assert (Es : forall m, slot f y m = slot f x m) by (intros m; unfold slot; by rewrite E).
  assert (Eb : forall i, byte_at f y i = byte_at f x i) by (intros i; unfold byte_at; by rewrite Es).
  destruct F as [H1 H2 H3 H4 H5 H6]. split; rewrite ?E; try done.
  - by apply (blocks_are_ext (slot f x) _ n fb).
  - intros i b Hi. rewrite Eb. by apply H5.
  - intros i. rewrite Es, Eb. apply H6.
Qed.

(** A file of the image that [f'] keeps: its blocks and its inode are those of [f]. *)
Lemma inode_is_keep f f' fb fb' inum d c : inode_is f fb inum d c -> fb <= fb' ->
  (forall m, 0 <= m <= MAXFILE -> slot f (ino inum d) m <> 0 -> f' (slot f (ino inum d) m) = f (slot f (ino inum d) m)) ->
  disk_inode f' inum = disk_inode f inum -> inode_is f' fb' inum d c.
Proof.
  intros [I1 I2 I3 I4] Hfb Hk Hd. split; [congruence|done| |done]. by apply (file_is_keep f f' _ Hk _ _ fb).
Qed.

Lemma blocks_of_insert ns i d c d' c' : ns !! i = Some (d, c) ->
  blocks_of (<[i := (d', c')]> ns) = blocks_of ns + (file_blocks (Z.of_nat (length c')) - file_blocks (Z.of_nat (length c))).
Proof.
  revert i. induction ns as [|e ns IH]; intros [|i]; try done; simpl.
  - intros [= ->]. simpl. lia.
  - intros E. rewrite (IH i E). lia.
Qed.

(** * Adding bytes to one file leaves the others *)

Section Other.
Context (f : Z -> list Z) (x : inode) (fb : Z) (f1 : Z -> list Z) (x1 : inode) (fb1 : Z) (y : inode).
Context (G : grows f x fb f1 x1 fb1) (Hy : blocks_ok (slot f y) fb) (Ha : apart f x y).

Lemma grows_apart m m' : 0 <= m <= MAXFILE -> 0 <= m' <= MAXFILE -> slot f1 x1 m <> 0 -> slot f1 x1 m <> slot f y m'.
Proof.
  intros Hm Hm' Hne E. destruct (decide (slot f x m = 0)) as [E0|E0].
  - pose proof (gw_new _ _ _ _ _ _ G m Hm E0 Hne). pose proof (bo_range _ _ Hy m' Hm' ltac:(congruence)). lia.
  - rewrite (gw_old _ _ _ _ _ _ G m Hm E0) in E. by apply (Ha m m').
Qed.

Lemma grows_other m : 0 <= m <= MAXFILE -> slot f y m <> 0 -> f1 (slot f y m) = f (slot f y m).
Proof. intros Hm Hne. apply (gw_keep _ _ _ _ _ _ G). intros m' Hm' Hne'. by apply grows_apart. Qed.
End Other.

(** The blocks before [nmeta] are not blocks of files. *)
Lemma grows_meta f x fb f1 x1 fb1 z : grows f x fb f1 x1 fb1 -> blocks_ok (slot f1 x1) fb1 -> z < nmeta -> f1 z = f z.
Proof.
  intros G B Hz. apply (gw_keep _ _ _ _ _ _ G). intros m Hm Hne E. pose proof (bo_range _ _ B m Hm Hne). lia.
Qed.

Lemma disk_inode_meta f f1 inum : (forall z, z < nmeta -> f1 z = f z) -> 0 <= inum < NINODES -> disk_inode f1 inum = disk_inode f inum.
Proof.
  intros E Hi. pose proof (IBLOCK_range inum Hi) as [_ Hb]. unfold disk_inode. rewrite E; [done|]. rewrite nmeta_eq. lia.
Qed.

Lemma apart_sym f x y : apart f x y -> apart f y x.
Proof. intros A m m' Hm Hm' Hne E. rewrite E in Hne. by apply (A m' m). Qed.

(** The slots of two files, each with its blocks kept. *)
Lemma apart_keep f f' x y :
  (forall m, 0 <= m <= MAXFILE -> slot f' x m = slot f x m) -> (forall m, 0 <= m <= MAXFILE -> slot f' y m = slot f y m) ->
  apart f x y -> apart f' x y.
Proof. intros E1 E2 A m m' Hm Hm'. rewrite E1, E2 by done. by apply A. Qed.

(** The inode that iappend() writes back. *)
Lemma appended_range inum d d' v f c n fb : dinode_range (ino inum d) -> same_meta d d' -> file_is f (ino inum d') c n fb ->
  0 <= v < 2 ^ 32 -> dinode_range (ino inum (set_size v d')).
Proof.
  intros [R1 R2 R3 R4 R5 R6 R7] (M1 & M2 & M3 & M4) F Hv. split; simpl in *; rewrite ?M1, ?M2, ?M3, ?M4; try done; apply F.
Qed.

Section Append.
Context (f0 : Z -> list Z) (s : mkfs) (f : Z -> list Z) (fb : Z) (ns : list (dinode * list Z)) (i : nat) (d : dinode) (c : list Z).
Context (B : built f0 s f fb ns) (Hi : ns !! i = Some (d, c)).

(** The image after the loop of iappend() ([f1], [d1]) and after winode() ([f2], [d2]). *)
Context (s2 : mkfs) (f1 f2 : Z -> list Z) (fb' : Z) (d1 d2 : dinode) (p : list Z).
Let inum := 1 + Z.of_nat i.
Let n' := Z.of_nat (length c) + Z.of_nat (length p).
Context (Efb : fb' = fb + (file_blocks n' - file_blocks (Z.of_nat (length c)))).
Context (F1 : file_is f1 (ino inum d1) (c ++ p) n' fb') (G1 : grows f (ino inum d) fb f1 (ino inum d1) fb').
Context (B2 : building s2 f2 fb') (Hd2 : di_addrs d2 = di_addrs d1) (Hsize : di_size d2 = n') (R2 : dinode_range (ino inum d2)).
Context (Hdisk : disk_inode f2 inum = Some d2) (Hfree : freeinode s2 = freeinode s).
Context (Hother : forall j, 0 <= j < NINODES -> j <> inum -> disk_inode f2 j = disk_inode f1 j).
Context (Hkeep : forall z, z <> IBLOCK inum sb -> f2 z = f1 z).

Lemma append_inum : 0 <= inum < NINODES.
Proof. pose proof (bt_room _ _ _ _ _ B). apply lookup_lt_Some in Hi. unfold inum. lia. Qed.

Lemma append_meta z : z < nmeta -> f1 z = f z.
Proof. apply (grows_meta _ _ _ _ _ _ _ G1 (ba_ok _ _ _ (fi_blocks _ _ _ _ _ F1))). Qed.

Lemma append_high z : nmeta <= z -> f2 z = f1 z.
Proof. intros Hz. apply Hkeep. pose proof (IBLOCK_range inum append_inum) as [_ Hb]. rewrite nmeta_eq in Hz. lia. Qed.

Lemma append_disk j : 0 <= j < NINODES -> j <> inum -> disk_inode f2 j = disk_inode f j.
Proof. intros Hj Hne. rewrite Hother by done. apply disk_inode_meta; [apply append_meta|done]. Qed.

Lemma append_same_slot m : 0 <= m <= MAXFILE -> slot f2 (ino inum d2) m = slot f1 (ino inum d1) m.
Proof.
  intros Hm. etransitivity; [|apply (slot_keep f1 f2 (ino inum d1)); [|done]]; [unfold slot; simpl; by rewrite Hd2|].
  intros k Hk Hne. apply append_high. by apply (bo_range _ _ (ba_ok _ _ _ (fi_blocks _ _ _ _ _ F1))).
Qed.

Lemma append_this : inode_is f2 fb' inum d2 (c ++ p).
Proof.
  assert (El : Z.of_nat (length (c ++ p)) = n') by (rewrite length_app; unfold n'; lia). split; [done|by rewrite El| |done].
  rewrite El. apply (file_is_addrs _ (ino inum d1)); [done|]. apply (file_is_keep f1 f2 _) with (fb := fb'); [|done|lia].
  intros m Hm Hne. apply append_high. by apply (bo_range _ _ (ba_ok _ _ _ (fi_blocks _ _ _ _ _ F1))).
Qed.

(** Another file. *)
Lemma append_other j d' c' : ns !! j = Some (d', c') -> j <> i -> let y := ino (1 + Z.of_nat j) d' in
  inode_is f2 fb' (1 + Z.of_nat j) d' c' /\ apart f2 (ino inum d2) y /\ (forall m, 0 <= m <= MAXFILE -> slot f2 y m = slot f y m).
Proof.
  intros Hj Hne y. pose proof (bt_inode _ _ _ _ _ B j d' c' Hj) as I. pose proof (ba_ok _ _ _ (fi_blocks _ _ _ _ _ (ii_file _ _ _ _ _ I))) as Hy.
  pose proof (bt_apart _ _ _ _ _ B i j d c d' c' Hi Hj ltac:(done)) as A.
  assert (Hk : forall m, 0 <= m <= MAXFILE -> slot f y m <> 0 -> f2 (slot f y m) = f (slot f y m)).
  { intros m Hm Hs. rewrite append_high by (by apply (bo_range _ _ Hy)).
    by apply (grows_other f (ino inum d) fb f1 (ino inum d1) fb' y G1 Hy A). }
  assert (Hs : forall m, 0 <= m <= MAXFILE -> slot f2 y m = slot f y m) by (intros m Hm; by apply slot_keep).
  split; [|split; [|done]].
  - apply (inode_is_keep f f2 fb); [done|apply G1|done|]. pose proof (bt_room _ _ _ _ _ B). apply lookup_lt_Some in Hj.
    apply append_disk; unfold inum; lia.
  - intros m m' Hm Hm'. rewrite append_same_slot, Hs by done.
    by apply (grows_apart f (ino inum d) fb f1 (ino inum d1) fb' y G1 Hy A).
Qed.

Lemma append_built : built f0 s2 f2 fb' (<[i := (d2, c ++ p)]> ns).
Proof.
  destruct B as [C1 C2 C3 C4 C5 C6 C7 C8]. assert (Hl : (i < length ns)%nat) by (by eapply lookup_lt_Some).
  split; rewrite ?length_insert; [exact B2|congruence| |exact C4| | | |].
  - rewrite (blocks_of_insert _ _ _ _ _ _ Hi), length_app, Nat2Z.inj_add. fold n'. lia.
  - intros j d' c'. destruct (decide (j = i)) as [->|Hne].
    + rewrite list_lookup_insert_eq by done. intros [= <- <-]. apply append_this.
    + rewrite list_lookup_insert_ne by done. intros Hj. by apply append_other.
  - intros j k dj cj dk ck. destruct (decide (j = i)) as [->|Hji], (decide (k = i)) as [->|Hki]; [done|..].
    + rewrite list_lookup_insert_eq, list_lookup_insert_ne by done. intros [= <- <-] Hk _. by apply (append_other k dk ck).
    + rewrite list_lookup_insert_eq, list_lookup_insert_ne by done. intros Hj [= <- <-] _. apply apart_sym. by apply (append_other j dj cj).
    + rewrite !list_lookup_insert_ne by done. intros Hj Hk Hne. apply (apart_keep f); [by apply (append_other j dj cj)|by apply (append_other k dk ck)|].
      by apply (C6 j k dj cj dk ck).
  - intros j Hj. rewrite append_disk by (unfold inum; lia). by apply C7.
  - intros z Hz Hn. rewrite Hkeep, append_meta by (pose proof (IBLOCK_range inum append_inum); lia). by apply C8.
Qed.
End Append.

Lemma iappend_run f0 s f fb ns (i : nat) d c p :
  let n := Z.of_nat (length c) in let n' := n + Z.of_nat (length p) in let fb' := fb + (file_blocks n' - file_blocks n) in
  built f0 s f fb ns -> ns !! i = Some (d, c) -> n' <= MAXFILE * BSIZE -> fb' <= FSSIZE ->
  exists s' f' d', iappend (1 + Z.of_nat i) p s = Ret tt s' /\ built f0 s' f' fb' (<[i := (d', c ++ p)]> ns) /\ same_meta d d'.
Proof.
  intros n n' fb' B Hi Hmax Hfb. pose proof (bt_inode _ _ _ _ _ B i d c Hi) as [I1 I2 I3 I4].
  pose proof (append_inum f0 s f fb ns i d c B Hi p) as Hr. assert (HM : MAXFILE * BSIZE = 274432) by done.
  destruct (iappend_loop_run (1 + Z.of_nat i) p (S (length p)) s f fb d c (bt_state _ _ _ _ _ B) I3 Hmax Hfb ltac:(lia))
    as (s1 & d1 & E1 & (f1 & B1 & Q1 & M1 & F1 & G1)). cbv zeta in B1, F1, G1. fold n in B1, F1, G1, E1. fold n' in B1, F1, G1, E1. fold fb' in B1, F1, G1.
  pose proof (appended_range _ _ _ n' _ _ _ _ I4 M1 F1 ltac:(lia)) as R2.
  destruct (winode_run s1 f1 fb' (1 + Z.of_nat i) (set_size n' d1) B1 Hr R2) as (s2 & f2 & E2 & B2 & Q2 & D2 & O2 & K2).
  exists s2, f2, (set_size n' d1). split; [|split; [|done]].
  - unfold iappend. rewrite (bind_run _ _ _ _ _ (rinode_run s f _ d (bg_image _ _ _ (bt_state _ _ _ _ _ B)) Hr I1)).
    rewrite I2, xint_eq by lia. fold n. rewrite (bind_run _ _ _ _ _ E1), xint_eq by lia. done.
  - apply (append_built f0 s f fb ns i d c B Hi s2 f1 f2 fb' d1); try done. congruence.
Qed.

(** * ialloc() *)

Lemma slot_fresh f inum type m : 0 <= m <= MAXFILE -> slot f (ino inum (fresh_inode type)) m = 0.
Proof.
  intros Hm. assert (E : forall j, default 0 (replicate 13 0 !! j) = 0).
  { intros j. destruct (replicate 13 0 !! j) as [v|] eqn:E; [|done]. by apply lookup_replicate_1 in E as [-> _]. }
  unfold slot. cbn [ino fresh_inode i_addrs di_addrs]. rewrite !E. by destruct (m <? NDIRECT), (m =? MAXFILE).
Qed.

Lemma file_is_fresh f inum type fb : file_is f (ino inum (fresh_inode type)) [] 0 fb.
Proof.
  pose proof (slot_fresh f inum type) as Hs. assert (HM : 0 <= MAXFILE) by done. split; try done.
  - by repeat constructor.
  - split; [split|..].
    + intros m Hm. by rewrite Hs.
    + intros m m' Hm Hm'. by rewrite Hs.
    + intros m Hm. rewrite Hs by lia. unfold BSIZE. lia.
    + rewrite Hs by lia. split; [done|]. by vm_compute.
  - intros j Hj Hd. rewrite Hs; [done|]. split; [apply Z.div_pos; [simpl in Hj; lia|done]|lia].
Qed.

Lemma blocks_of_snoc ns d : blocks_of (ns ++ [(d, [])]) = blocks_of ns.
Proof. induction ns as [|e ns IH]; [done|]. simpl. by rewrite IH. Qed.

Lemma lookup_snoc {A} (l : list A) v i w : (l ++ [v]) !! i = Some w -> l !! i = Some w \/ i = length l /\ w = v.
Proof.
  intros E. apply lookup_app_Some in E as [|[Hi E]]; [by left|right].
  apply list_lookup_singleton_Some in E as [E ->]. split; [lia|done].
Qed.

Lemma ialloc_run f0 s f fb ns type : built f0 s f fb ns -> 2 + Z.of_nat (length ns) <= NINODES -> 0 <= type < 2 ^ 15 ->
  exists s' f', ialloc type s = Ret (1 + Z.of_nat (length ns)) s' /\ built f0 s' f' fb (ns ++ [(fresh_inode type, [])]).
Proof.
  intros B Hroom Ht. pose proof B as [C1 C2 C3 C4 C5 C6 C7 C8]. set (inum := 1 + Z.of_nat (length ns)) in *.
  assert (Hi : 0 <= inum < NINODES) by (unfold inum; lia). set (s1 := mkMkfs (image s) (inum + 1) (freeblock s)).
  assert (B1 : building s1 f fb) by (destruct C1 as [[] ? ? ?]; split; [done|done|lia|done]).
  assert (R : dinode_range (ino inum (fresh_inode type))).
  { split; simpl; try lia. by repeat constructor. }
  destruct (winode_run s1 f fb inum (fresh_inode type) B1 Hi R) as (s2 & f2 & E2 & B2 & Q2 & D2 & O2 & K2).
  pose proof (IBLOCK_range inum Hi) as [_ Hb].
  assert (Hk : forall z, nmeta <= z -> f2 z = f z) by (intros z Hz; apply K2; rewrite nmeta_eq in Hz; lia).
  assert (Hs : forall j d c, ns !! j = Some (d, c) -> forall m, 0 <= m <= MAXFILE ->
    slot f (ino (1 + Z.of_nat j) d) m <> 0 -> f2 (slot f (ino (1 + Z.of_nat j) d) m) = f (slot f (ino (1 + Z.of_nat j) d) m)).
  { intros j d c Hj m Hm Hne. apply Hk. by apply (bo_range _ _ (ba_ok _ _ _ (fi_blocks _ _ _ _ _ (ii_file _ _ _ _ _ (C5 j d c Hj))))). }
  exists s2, f2. split.
  - unfold ialloc, next_inode. rewrite (bind_run _ _ s inum s1); [|unfold bind, gets, modify; cbn [obind]; rewrite C2].
    2: { unfold NINODES in Hi. rewrite u32_small by lia. done. }
    unfold xshort at 1. rewrite le_val_bytes, Z.mod_small by (simpl; lia).
    change (xshort 1) with 1. change (xint 0) with 0. by rewrite (bind_run _ _ _ _ _ E2).
  - split; rewrite ?length_app; cbn [length]; [exact B2|rewrite Q2; simpl; unfold inum; lia|by rewrite blocks_of_snoc|lia|..].
    + intros j d c E. apply lookup_snoc in E as [Hj|[-> [= -> ->]]].
      * apply (inode_is_keep f f2 fb); [by apply C5|lia|by apply (Hs j d c)|]. apply lookup_lt_Some in Hj. apply O2; unfold inum; lia.
      * split; [done|done|apply file_is_fresh|done].
    + intros j k d c d' c' E E' Hne. apply lookup_snoc in E as [Hj|[-> [= -> ->]]]; apply lookup_snoc in E' as [Hj'|[-> [= -> ->]]].
      * apply (apart_keep f); [apply slot_keep; by apply (Hs j d c)|apply slot_keep; by apply (Hs k d' c')|by apply (C6 j k d c d' c')].
      * intros m m' Hm Hm' Hx. by rewrite (slot_fresh _ _ _ m').
      * intros m m' Hm Hm'. by rewrite (slot_fresh _ _ _ m).
      * done.
    + intros j Hj. rewrite O2 by (unfold inum; lia). apply C7. unfold inum. lia.
    + intros z Hz Hn. rewrite K2 by lia. by apply C8.
Qed.

(** * The files of the command line *)

Definition host_file : Type := list Z * option (list (list Z)).

(** The name and the contents that file gets in the image. *)
Definition name_of (file : host_file) : list Z := skip_underscore (shortname file.1).
Definition content_of (file : host_file) : list Z := concat (default [] file.2).

(** Number of blocks for their contents. *)
Definition content_blocks (files : list host_file) : Z :=
  foldr (fun file acc => file_blocks (Z.of_nat (length (content_of file))) + acc) 0 files.

(** The entries of the root directory for the files, which get the inodes from [inum] on. *)
Fixpoint entries (inum : Z) (files : list host_file) : list Z :=
  match files with
  | [] => []
  | x :: rest => dirent_bytes inum (name_of x) ++ entries (inum + 1) rest
  end.

Lemma dirent_bytes_length inum name : length (dirent_bytes inum name) = 16%nat.
Proof.
  unfold dirent_bytes. rewrite length_app, le_bytes_length, length_take, length_app, length_replicate. change (Z.to_nat DIRSIZ) with 14%nat. lia.
Qed.

Lemma entries_length files : forall inum, length (entries inum files) = (16 * length files)%nat.
Proof.
  induction files as [|x files IH]; intros inum; [done|]. cbn [entries length]. rewrite length_app, dirent_bytes_length, IH. lia.
Qed.

Lemma file_blocks_pos n : 0 <= n -> 0 <= file_blocks n.
Proof. intros Hn. change 0 with (file_blocks 0). by apply file_blocks_mono. Qed.

Lemma blocks_of_app ns ns' : blocks_of (ns ++ ns') = blocks_of ns + blocks_of ns'.
Proof. induction ns as [|e ns IH]; [done|]. simpl. rewrite IH. lia. Qed.

(** An inode of the given type that mkfs has made. *)
Definition made (type : Z) (d : dinode) : Prop := same_meta (fresh_inode type) d.

(** while((cc = read(fd, buf, sizeof(buf))) > 0) *)
Lemma append_all_run f0 (i : nat) chunks : forall s f fb ns d c,
  let n := Z.of_nat (length c) in let n' := n + Z.of_nat (length (concat chunks)) in
  built f0 s f fb ns -> ns !! i = Some (d, c) -> n' <= MAXFILE * BSIZE -> fb + (file_blocks n' - file_blocks n) <= FSSIZE ->
  exists s' f' fb' d', append_all (1 + Z.of_nat i) chunks s = Ret tt s' /\
    built f0 s' f' fb' (<[i := (d', c ++ concat chunks)]> ns) /\ same_meta d d'.
Proof.
  induction chunks as [|p chunks IH]; intros s f fb ns d c n n' B Hi Hmax Hfb.
  { exists s, f, fb, d. rewrite app_nil_r. rewrite list_insert_id by done. done. }
  unfold n' in *. cbn [concat] in *. rewrite length_app, Nat2Z.inj_add, Z.add_assoc in *.
  pose proof (file_blocks_mono (n + Z.of_nat (length p)) (n + Z.of_nat (length p) + Z.of_nat (length (concat chunks))) ltac:(lia)).
  destruct (iappend_run f0 s f fb ns i d c p B Hi) as (s1 & f1 & d1 & E1 & B1 & M1); fold n; [lia|lia|].
  destruct (IH s1 f1 _ _ d1 (c ++ p) B1) as (s2 & f2 & fb2 & d2 & E2 & B2 & M2).
  - rewrite list_lookup_insert_eq; [done|]. by eapply lookup_lt_Some.
  - rewrite length_app. lia.
  - rewrite length_app, Nat2Z.inj_add. fold n. lia.
  - exists s2, f2, fb2, d2. cbn [append_all]. rewrite (bind_run _ _ _ _ _ E1). split; [done|].
    rewrite list_insert_insert_eq, <- app_assoc in B2. split; [done|]. by eapply same_meta_trans.
Qed.

(** A file that mkfs can add: it can be opened, its name has no slash, and it is not too large. *)
Record addable (file : host_file) : Prop := {
  ad_open : file.2 <> None;
  ad_name : 47 ∉ shortname file.1;
  ad_size : Z.of_nat (length (content_of file)) <= MAXFILE * BSIZE;
}.

Lemma content_blocks_nonneg files : 0 <= content_blocks files.
Proof.
  induction files as [|x files IH]; [done|]. simpl. pose proof (file_blocks_pos (Z.of_nat (length (content_of x))) ltac:(lia)). lia.
Qed.

Lemma blocks_of_cons d c ns : blocks_of ((d, c) :: ns) = file_blocks (Z.of_nat (length c)) + blocks_of ns.
Proof. done. Qed.

Lemma insert_snoc {A} (a : A) l v w : <[S (length l) := v]> (a :: l ++ [w]) = a :: l ++ [v].
Proof. change (a :: <[length l := v]> (l ++ [w]) = a :: l ++ [v]). by rewrite insert_app_r_alt, Nat.sub_diag by lia. Qed.

Lemma add_file_run f0 s f fb d0 c0 ns file :
  let inum := 2 + Z.of_nat (length ns) in let c0' := c0 ++ dirent_bytes inum (name_of file) in
  built f0 s f fb ((d0, c0) :: ns) -> addable file -> 1 + inum <= NINODES -> Z.of_nat (length c0') <= MAXFILE * BSIZE ->
  nmeta + file_blocks (Z.of_nat (length c0')) + blocks_of ns + file_blocks (Z.of_nat (length (content_of file))) <= FSSIZE ->
  exists s' f' fb' d0' d, add_file 1 file s = Ret tt s' /\
    built f0 s' f' fb' ((d0', c0') :: ns ++ [(d, content_of file)]) /\ same_meta d0 d0' /\ made T_FILE d.
Proof.
  intros inum c0' B [Ho Hname Hsz] Hroom Hmax Hfb. destruct file as [arg [chunks|]]; [|done].
  change (content_of (arg, Some chunks)) with (concat chunks) in *.
  destruct (ialloc_run f0 s f fb _ T_FILE B) as (s1 & f1 & E1 & B1); [simpl; lia|done|].
  replace (1 + Z.of_nat (length ((d0, c0) :: ns))) with inum in E1 by (simpl; lia).
  pose proof (bt_total _ _ _ _ _ B1) as T1. rewrite blocks_of_snoc, blocks_of_cons in T1.
  assert (Hl : Z.of_nat (length c0') = Z.of_nat (length c0) + 16) by (unfold c0'; rewrite length_app, dirent_bytes_length; lia).
  pose proof (file_blocks_pos (Z.of_nat (length (concat chunks))) ltac:(lia)).
  destruct (iappend_run f0 s1 f1 fb _ 0%nat d0 c0 (dirent_bytes inum (name_of (arg, Some chunks))) B1 eq_refl) as (s2 & f2 & d0' & E2 & B2 & M2).
  { rewrite dirent_bytes_length. lia. }
  { rewrite dirent_bytes_length. replace (Z.of_nat (length c0) + Z.of_nat 16) with (Z.of_nat (length c0')) by lia. lia. }
  fold c0' in B2. cbn [app insert list_insert] in B2. pose proof (bt_total _ _ _ _ _ B2) as T2.
  rewrite blocks_of_cons, blocks_of_snoc in T2.
  destruct (append_all_run f0 (S (length ns)) chunks s2 f2 _ _ (fresh_inode T_FILE) [] B2) as (s3 & f3 & fb3 & d & E3 & B3 & M3).
  { simpl. by rewrite lookup_app_r, Nat.sub_diag by lia. }
  { simpl. lia. }
  { rewrite T2. cbn [length]. change (file_blocks (Z.of_nat 0)) with 0. change (Z.of_nat 0) with 0. rewrite Z.add_0_l. lia. }
  exists s3, f3, fb3, d0', d. split; [|split; [|done]].
  - unfold add_file, assert_. cbn [fst snd]. rewrite bool_decide_true by done. rewrite bind_ret, (bind_run _ _ _ _ _ E1).
    change 1 with (1 + Z.of_nat 0). rewrite (bind_run _ _ _ _ _ E2).
    replace inum with (1 + Z.of_nat (S (length ns))) by (unfold inum; lia). done.
  - by rewrite (insert_snoc (_, _)) in B3.
Qed.

Lemma add_files_run f0 files : forall s f fb d0 c0 ns,
  let inum := 2 + Z.of_nat (length ns) in let c0' := c0 ++ entries inum files in
  built f0 s f fb ((d0, c0) :: ns) -> Forall addable files -> inum + Z.of_nat (length files) <= NINODES ->
  Z.of_nat (length c0') <= MAXFILE * BSIZE ->
  nmeta + file_blocks (Z.of_nat (length c0')) + blocks_of ns + content_blocks files <= FSSIZE ->
  exists s' f' fb' d0' ns', add_files 1 files s = Ret tt s' /\ built f0 s' f' fb' ((d0', c0') :: ns ++ ns') /\
    same_meta d0 d0' /\ ns'.*2 = content_of <$> files /\ Forall (made T_FILE) ns'.*1.
Proof.
  induction files as [|x files IH]; intros s f fb d0 c0 ns inum c0' B HA Hroom Hmax Hfb.
  { exists s, f, fb, d0, []. unfold c0'. cbn [entries]. rewrite !app_nil_r. done. }
  apply Forall_cons in HA as [Hx HA]. unfold c0' in *. cbn [entries length content_blocks foldr] in *. fold (content_blocks files) in Hfb. rewrite app_assoc in *.
  set (c1 := c0 ++ dirent_bytes inum (name_of x)) in *.
  pose proof (file_blocks_mono (Z.of_nat (length c1)) (Z.of_nat (length (c1 ++ entries (inum + 1) files))) ltac:(rewrite length_app; lia)).
  pose proof (content_blocks_nonneg files). rewrite length_app in Hmax.
  destruct (add_file_run f0 s f fb d0 c0 ns x B Hx) as (s1 & f1 & fb1 & d1 & dx & E1 & B1 & M1 & X1); fold inum c1; [lia|lia|lia|].
  assert (Hin : 2 + Z.of_nat (length (ns ++ [(dx, content_of x)])) = inum + 1) by (rewrite length_app; cbn [length]; unfold inum; lia).
  destruct (IH s1 f1 fb1 d1 c1 (ns ++ [(dx, content_of x)]) B1 HA) as (s2 & f2 & fb2 & d2 & ns2 & E2 & B2 & M2 & N2 & T2);
    rewrite ?Hin in *; [lia|rewrite length_app; lia|rewrite blocks_of_app, blocks_of_cons; change (blocks_of []) with 0; lia|].
  exists s2, f2, fb2, d2, ((dx, content_of x) :: ns2). cbn [add_files]. rewrite (bind_run _ _ _ _ _ E1). split; [done|].
  rewrite <- app_assoc in B2. split; [done|]. split; [by eapply same_meta_trans|]. split; [by rewrite !fmap_cons, N2|]. by constructor.
Qed.

(** * The bitmap *)

Lemma bit_mark d i j : 0 <= i -> 0 <= j -> (Z.to_nat (i / 8) < length d)%nat ->
  bit_of (alter (fun v => u8 (Z.lor v (Z.shiftl 1 (i mod 8)))) (Z.to_nat (i / 8)) d) j = if decide (j = i) then true else bit_of d j.
Proof.
  intros Hi Hj Hl. apply bit_alter; try done. intros v n Hn. pose proof (Z.mod_pos_bound i 8 ltac:(lia)).
  unfold u8. rewrite Z.mod_pow2_bits_low by lia. rewrite Z.lor_spec, Z.shiftl_1_l, Z.pow2_bits_eqb by lia.
  destruct (decide (n = i mod 8)) as [->|]; [by rewrite Z.eqb_refl, orb_true_r|].
  rewrite (proj2 (Z.eqb_neq _ _)) by lia. apply orb_false_r.
Qed.

Lemma balloc_bits_run n : forall i d, 0 <= i -> i + Z.of_nat n <= 8 * Z.of_nat (length d) ->
  length (balloc_bits n i d) = length d /\
  forall j, 0 <= j -> bit_of (balloc_bits n i d) j = if decide (i <= j < i + Z.of_nat n) then true else bit_of d j.
Proof.
  induction n as [|n IH]; intros i d Hi Hn; cbn [balloc_bits]; [split; [done|]; intros j Hj; by rewrite decide_False by lia|].
  set (d' := alter _ (Z.to_nat (i / 8)) d). assert (Hl : length d' = length d) by apply length_alter.
  destruct (IH (i + 1) d' ltac:(lia) ltac:(rewrite Hl; lia)) as [H1 H2]. split; [congruence|]. intros j Hj. rewrite H2 by done.
  unfold d'. rewrite bit_mark by (done || Z.div_mod_to_equations; lia).
  repeat case_decide; try done; lia.
Qed.

Lemma bit_zeroes j : bit_of zeroes j = false.
Proof.
  unfold bit_of, zeroes. destruct (replicate _ 0 !! _) as [v|] eqn:E; [apply lookup_replicate_1 in E as [-> _]|]; apply Z.bits_0.
Qed.

(** balloc() marks the blocks before [fb]. *)
Lemma balloc_run s f fb : building s f fb ->
  exists s' buf, balloc (i32 fb) s = Ret tt s' /\ image_is s' (upd f 45 buf) /\ freeblock s' = fb /\
    forall j, 0 <= j -> bit_of buf j = (j <? fb).
Proof.
  intros B. pose proof (bg_range _ _ _ B) as HR. rewrite nmeta_eq in HR. unfold FSSIZE in HR. rewrite i32_small by lia.
  destruct (balloc_bits_run (Z.to_nat fb) 0 zeroes ltac:(lia)) as [Hl Hb]; [unfold zeroes; rewrite length_replicate; change BSIZE with 1024; lia|].
  destruct (wsect_run s f 45 (balloc_bits (Z.to_nat fb) 0 zeroes) (bg_image _ _ _ B) ltac:(done) ltac:(rewrite Hl; by apply length_replicate))
    as (s' & Ew & I' & _ & Eb).
  exists s', (balloc_bits (Z.to_nat fb) 0 zeroes). split; [|split; [done|]; split; [rewrite Eb; apply B|]].
  - unfold balloc, assert_. rewrite (proj2 (Z.ltb_lt _ _)), bind_ret by (unfold BSIZE; lia). exact Ew.
  - intros j Hj. rewrite Hb, bit_zeroes by done. case_decide; symmetry; [apply Z.ltb_lt|apply Z.ltb_ge]; lia.
Qed.

(** * The empty file system *)

Lemma zero_loop_run n : forall i s, 0 <= i -> i + Z.of_nat n <= FSSIZE -> length (image s) = Z.to_nat i ->
  zero_loop n i s = Ret tt (set_image (image s ++ replicate n zeroes) s).
Proof.
  induction n as [|n IH]; intros i s Hi Hn Hl; cbn [zero_loop replicate]; [rewrite app_nil_r; by destruct s|].
  assert (Ew : wsect i zeroes s = Ret tt (set_image (image s ++ [zeroes]) s)).
  { unfold wsect, modify. rewrite sector_eq by lia. by rewrite decide_False, Hl, Nat.sub_diag by lia. }
  rewrite (bind_run _ _ _ _ _ Ew), IH; [|lia|lia|]; simpl.
  - by rewrite <- app_assoc.
  - rewrite length_app, Hl. simpl. lia.
Qed.

(** Block 1 of the image. *)
Definition sb_block : list Z := superblock_bytes sb ++ replicate (Z.to_nat BSIZE - 32) 0.
Definition empty_image (z : Z) : list Z := if decide (z = 1) then sb_block else zeroes.

Lemma empty_image_run : exists s, zero_loop (Z.to_nat FSSIZE) 0 mkfs_start = Ret tt s /\ image_is s (fun _ => zeroes) /\
  freeinode s = 1 /\ freeblock s = nmeta.
Proof.
  exists (set_image (replicate (Z.to_nat FSSIZE) zeroes) mkfs_start). split; [by apply zero_loop_run|]. split; [|done]. split.
  - apply length_replicate.
  - intros b Hb. apply lookup_replicate_2. lia.
  - intros b Hb. apply length_replicate.
Qed.

Lemma disk_inode_zero f inum : 0 <= inum -> f (IBLOCK inum sb) = zeroes -> disk_inode f inum = Some free_inode.
Proof.
  intros Hi E. unfold disk_inode. rewrite E. pose proof (dinode_off_le inum Hi) as Ho.
  apply (dinode_of_image _ _ (ino inum free_inode)); [split; simpl; try lia; by repeat constructor|].
  change (dinode_image (ino inum free_inode)) with (replicate (Z.to_nat dinode_size) 0).
  unfold get_bytes, zeroes. rewrite length_replicate, (proj2 (Nat.leb_le _ _)) by done.
  by rewrite drop_replicate, take_replicate, Nat.min_l by lia.
Qed.

(** The superblock is written into the zeroed image. *)
Lemma superblock_run s : image_is s (fun _ => zeroes) -> freeinode s = 1 -> freeblock s = nmeta ->
  put_bytes 0 (superblock_bytes sb) zeroes = Some sb_block /\
  exists s', wsect 1 sb_block s = Ret tt s' /\ built empty_image s' empty_image nmeta [].
Proof.
  intros I Hi Hb. split; [by vm_compute|].
  destruct (wsect_run s _ 1 sb_block I ltac:(done) ltac:(done)) as (s' & Ew & I' & Ei & Eb).
  exists s'. split; [done|]. split; try done; [split|by rewrite Ei, Hi|].
  - exact I'.
  - congruence.
  - done.
  - intros b Hr. unfold empty_image. rewrite decide_False; [done|]. rewrite nmeta_eq in Hr. lia.
  - intros inum Hr. simpl in Hr. apply disk_inode_zero; [lia|]. pose proof (IBLOCK_range inum ltac:(lia)).
    unfold empty_image. rewrite decide_False; [done|lia].
Qed.

(** * The file system of the image *)

(** Inode [inum] is [d], of the given type and size, and its file begins with the bytes [c], for which
    it has blocks; the file has no hole and ends in zeroes if its size is not beyond the blocks of [c]. *)
Record stored f (inum : Z) (d : dinode) (type size : Z) c : Prop := {
  st_disk : disk_inode f inum = Some d;
  st_made : made type d;
  st_size : di_size d = size;
  st_ok : file_ok 1 2 sb f (ino inum d);
  st_block : inode_block 2 sb f (ino inum d);
  st_holds : holds f (ino inum d) 0 c;
  st_blocks : forall m, 0 <= m < MAXFILE -> slot f (ino inum d) m <> 0 <-> m * BSIZE < Z.of_nat (length c);
  st_full : size <= data_blocks (Z.of_nat (length c)) * BSIZE ->
    no_holes f (ino inum d) /\ forall i, Z.of_nat (length c) <= i < size -> byte_at f (ino inum d) i = Some 0;
}.

Definition root_content (files : list host_file) : list Z :=
  dirent_bytes 1 (str ".") ++ dirent_bytes 1 (str "..") ++ entries 2 files.

(** The size of the root directory after main() has rounded it. *)
Definition root_size (n : Z) : Z := (n / BSIZE + 1) * BSIZE.

(** The blocks before [fb] are in use; inode 1 is the root directory, the inodes from 2 on are the files. *)
Record file_system f (fb : Z) (files : list host_file) (d0 : dinode) (ds : list dinode) : Prop := {
  sys_super : superblock_of (f 1) = Some sb;
  sys_log : forall b, 2 <= b < 2 + LOGSIZE -> f b = zeroes;
  sys_used : forall b, 0 <= b < FSSIZE -> used sb f b = (b <? fb);
  sys_bitmap : bitmap_ok 2 sb f;
  sys_root : let c := root_content files in stored f 1 d0 T_DIR (root_size (Z.of_nat (length c))) c;
  sys_count : length ds = length files;
  sys_file : forall k file d, files !! k = Some file -> ds !! k = Some d ->
    stored f (2 + Z.of_nat k) d T_FILE (Z.of_nat (length (content_of file))) (content_of file);
  sys_apart : forall i j d d', (d0 :: ds) !! i = Some d -> (d0 :: ds) !! j = Some d' -> i <> j ->
    apart f (ino (1 + Z.of_nat i) d) (ino (1 + Z.of_nat j) d');
  sys_free : forall inum, 2 + Z.of_nat (length files) <= inum < NINODES -> disk_inode f inum = Some free_inode;
}.

Lemma BBLOCK_45 b : 0 <= b < FSSIZE -> BBLOCK b sb = 45 /\ b mod BPB = b.
Proof.
  intros Hb. unfold FSSIZE in Hb. change BPB with 8192. unfold BBLOCK. change BPB with 8192. change (sb_bmapstart sb) with 45.
  rewrite Z.div_small, Z.mod_small by lia. done.
Qed.

Lemma sb_size_eq : sb_size sb = FSSIZE. Proof. done. Qed.

Section Final.
Context (f : Z -> list Z) (fb : Z) (Hfb : nmeta <= fb <= FSSIZE).
Context (Hlen : forall b, 0 <= b < FSSIZE -> length (f b) = Z.to_nat BSIZE).
Context (Hmap : forall j, 0 <= j -> bit_of (f 45) j = (j <? fb)).

Lemma final_used b : 0 <= b < FSSIZE -> used sb f b = (b <? fb).
Proof. intros Hb. unfold used. destruct (BBLOCK_45 b Hb) as [-> ->]. apply Hmap. lia. Qed.

Lemma final_data z : 32 <= z < fb -> z <> 45 -> data_block 2 sb f z.
Proof.
  intros Hz Hne. pose proof Hfb as Hr. split; rewrite ?sb_size_eq.
  - lia.
  - rewrite final_used by lia. apply Z.ltb_lt. lia.
  - unfold log_area, LOGSIZE. change (MAXOPBLOCKS * 3) with 30. lia.
  - intros b Hb. destruct (BBLOCK_45 b Hb) as [-> _]. lia.
  - apply Hlen. lia.
Qed.

Lemma final_bitmap : bitmap_ok 2 sb f.
Proof.
  pose proof Hfb as Hr. rewrite nmeta_eq in Hr. split; rewrite ?sb_size_eq; try done.
  - intros b Hb. destruct (BBLOCK_45 b Hb) as [-> _]. unfold log_area. change LOGSIZE with 30. lia.
  - intros b Hb. destruct (BBLOCK_45 b Hb) as [-> _]. by apply Hlen.
  - intros b Hb. rewrite final_used by done. intros E. apply Z.ltb_ge in E.
    split; [lia|]. split; [unfold log_area; change LOGSIZE with 30; lia|]. intros b' Hb'. destruct (BBLOCK_45 b' Hb') as [-> _]. lia.
Qed.

Lemma final_stored inum d type c size :
  0 <= inum < NINODES -> disk_inode f inum = Some d -> made type d -> di_size d = size -> 0 <= size <= MAXFILE * BSIZE ->
  file_is f (ino inum d) c (Z.of_nat (length c)) fb -> stored f inum d type size c.
Proof.
  intros Hi Hd Hm Hs Hsz [F1 F2 F3 [[F4 F5] F6 F7] F8 F9]. pose proof Hfb as Hr. rewrite nmeta_eq in Hr, F4.
  pose proof (IBLOCK_range inum Hi) as [_ Hb]. split; try done.
  - split; try done. intros m Hm' Hne. pose proof (F4 m Hm' Hne). apply final_data; lia.
  - split; [apply final_data; simpl; lia| |simpl; lia]. intros m Hm' E. simpl in E. pose proof (F4 m Hm' ltac:(lia)). lia.
  - intros Hfull. assert (Hslot : forall m, 0 <= m -> m * BSIZE < size -> slot f (ino inum d) m <> 0).
    { intros m Hm0 Hlt. unfold data_blocks, BSIZE in *. apply F6; Z.div_mod_to_equations; lia. }
    split; [split; simpl; rewrite Hs; [done|done]|].
    intros i Hir. pose proof (div_range i ltac:(lia) ltac:(lia)). apply F9; [lia|lia|]. apply Hslot; [lia|].
    pose proof (Z.mul_div_le i BSIZE ltac:(done)). lia.
Qed.
End Final.

Lemma root_content_length files : Z.of_nat (length (root_content files)) = 16 * (2 + Z.of_nat (length files)).
Proof. unfold root_content. rewrite !length_app, !dirent_bytes_length, entries_length. lia. Qed.

Section Finish.
Context (files : list host_file) (s : mkfs) (f : Z -> list Z) (fb : Z) (d0 : dinode) (ns : list (dinode * list Z)).
Let c0 := root_content files.
Let d0' := set_size (root_size (Z.of_nat (length c0))) d0.
Context (B : built empty_image s f fb ((d0, c0) :: ns)) (Hroom : 2 + Z.of_nat (length files) <= NINODES).
Context (M0 : made T_DIR d0) (Hc : ns.*2 = content_of <$> files) (Hm : Forall (made T_FILE) ns.*1).

(** The image that is left. *)
Context (f2 : Z -> list Z) (Hsize : forall b, 0 <= b < FSSIZE -> length (f2 b) = Z.to_nat BSIZE).
Context (Hdisk : disk_inode f2 1 = Some d0').
Context (Hother : forall j, 0 <= j < NINODES -> j <> 1 -> disk_inode f2 j = disk_inode f j).
Context (Hkeep : forall z, z <> IBLOCK 1 sb -> z <> 45 -> f2 z = f z).
Context (Hbits : forall j, 0 <= j -> bit_of (f2 45) j = (j <? fb)).

Lemma finish_blocks i d c : ((d0, c0) :: ns) !! i = Some (d, c) -> forall m, 0 <= m <= MAXFILE ->
  slot f (ino (1 + Z.of_nat i) d) m <> 0 -> f2 (slot f (ino (1 + Z.of_nat i) d) m) = f (slot f (ino (1 + Z.of_nat i) d) m).
Proof.
  intros Hi m Hm' Hne. pose proof (bo_range _ _ (ba_ok _ _ _ (fi_blocks _ _ _ _ _ (ii_file _ _ _ _ _ (bt_inode _ _ _ _ _ B i d c Hi)))) m Hm' Hne) as Hr.
  rewrite nmeta_eq in Hr. pose proof (IBLOCK_range 1 ltac:(done)) as [_ Hb]. apply Hkeep; lia.
Qed.

Lemma finish_file i d c : ((d0, c0) :: ns) !! i = Some (d, c) -> file_is f2 (ino (1 + Z.of_nat i) d) c (Z.of_nat (length c)) fb.
Proof.
  intros Hi. apply (file_is_keep f f2 _) with (fb := fb); [by apply (finish_blocks i d c)| |lia].
  apply (bt_inode _ _ _ _ _ B i d c Hi).
Qed.

Lemma finish_meta z : 0 <= z < 32 -> f2 z = empty_image z.
Proof.
  intros Hz. pose proof (IBLOCK_range 1 ltac:(done)) as [_ Hb]. rewrite Hkeep by lia.
  apply (bt_meta _ _ _ _ _ B); [rewrite nmeta_eq; lia|lia].
Qed.

Lemma finish_root : stored f2 1 d0' T_DIR (root_size (Z.of_nat (length c0))) c0.
Proof.
  pose proof (bg_range _ _ _ (bt_state _ _ _ _ _ B)) as Hr. apply (final_stored f2 fb Hr Hsize Hbits); [done|exact Hdisk|exact M0|reflexivity| |].
  - assert (Z.of_nat (length c0) <= 3200) by (unfold c0, NINODES in *; rewrite root_content_length; lia).
    assert (HM : MAXFILE * BSIZE = 274432) by done. rewrite HM. unfold root_size, BSIZE. Z.div_mod_to_equations; lia.
  - apply (file_is_addrs _ (ino 1 d0)); [done|]. exact (finish_file 0 d0 c0 eq_refl).
Qed.

Lemma finish_stored k file d : files !! k = Some file -> ns.*1 !! k = Some d ->
  stored f2 (2 + Z.of_nat k) d T_FILE (Z.of_nat (length (content_of file))) (content_of file).
Proof.
  intros Hf Hd. pose proof (bg_range _ _ _ (bt_state _ _ _ _ _ B)) as Hr. apply list_lookup_fmap_Some in Hd as ((d' & c) & -> & Hk).
  assert (c = content_of file) as ->.
  { pose proof (f_equal (.!! k) Hc) as E. cbn beta in E. rewrite !list_lookup_fmap, Hk, Hf in E. by injection E. }
  pose proof (finish_file (S k) d' _ Hk) as F. pose proof (bt_inode _ _ _ _ _ B (S k) d' _ Hk) as [I1 I2 I3 I4].
  replace (1 + Z.of_nat (S k)) with (2 + Z.of_nat k) in * by lia. pose proof (lookup_lt_Some _ _ _ Hf) as Hlt.
  apply (final_stored f2 fb Hr Hsize Hbits); [lia|by rewrite Hother by lia| |exact I2| |exact F].
  - eapply Forall_lookup_1; [exact Hm|]. by rewrite list_lookup_fmap, Hk.
  - split; [lia|]. apply F.
Qed.

Lemma finish_system : file_system f2 fb files d0' ns.*1.
Proof.
  pose proof (bg_range _ _ _ (bt_state _ _ _ _ _ B)) as Hr. pose proof (f_equal length Hc) as El. rewrite !length_fmap in El. split.
  - rewrite finish_meta by lia. by vm_compute.
  - intros b Hb. change LOGSIZE with 30 in Hb. rewrite finish_meta by lia. unfold empty_image. by rewrite decide_False by lia.
  - by apply final_used.
  - by apply (final_bitmap f2 fb).
  - apply finish_root.
  - by rewrite length_fmap.
  - apply finish_stored.
  - intros i j d d' Hi Hj Hne.
    assert (HS : forall k e, (d0' :: ns.*1) !! k = Some e -> exists e' c, ((d0, c0) :: ns) !! k = Some (e', c) /\
      forall m, 0 <= m <= MAXFILE -> slot f2 (ino (1 + Z.of_nat k) e) m = slot f (ino (1 + Z.of_nat k) e') m).
    { intros [|k] e Hk.
      - injection Hk as <-. exists d0, c0. split; [done|]. apply (slot_keep f f2 (ino 1 d0)). exact (finish_blocks 0 d0 c0 eq_refl).
      - apply list_lookup_fmap_Some in Hk as ((e' & c) & -> & Hk). exists e', c. split; [done|].
        apply slot_keep. exact (finish_blocks (S k) e' c Hk). }
    destruct (HS i d Hi) as (e & c & Hi' & Ei), (HS j d' Hj) as (e' & c' & Hj' & Ej).
    intros m m' Hm1 Hm2. rewrite Ei, Ej by done. by apply (bt_apart _ _ _ _ _ B i j e c e' c').
  - intros inum Hi. rewrite Hother by lia. apply (bt_free _ _ _ _ _ B). cbn [length]. lia.
Qed.
End Finish.

(** main() from "fix size of root inode dir" on. *)
Lemma finish_run files s f fb d0 ns : let c0 := root_content files in
  built empty_image s f fb ((d0, c0) :: ns) -> 2 + Z.of_nat (length files) <= NINODES ->
  made T_DIR d0 -> ns.*2 = content_of <$> files -> Forall (made T_FILE) ns.*1 ->
  exists s' f', (do! fix_root 1; let! used := gets freeblock in balloc (i32 used)) s = Ret tt s' /\ image_is s' f' /\ freeblock s' = fb /\
    file_system f' fb files (set_size (root_size (Z.of_nat (length c0))) d0) ns.*1.
Proof.
  intros c0 B Hroom M0 Hc Hm. pose proof (bt_inode _ _ _ _ _ B 0%nat d0 c0 eq_refl) as [I1 I2 I3 I4]. change (1 + Z.of_nat 0) with 1 in *.
  assert (Hl : 0 <= Z.of_nat (length c0) <= 3200) by (unfold c0, NINODES in *; rewrite root_content_length; lia).
  set (v := root_size (Z.of_nat (length c0))). assert (Hv : 0 <= v < 2 ^ 31) by (unfold v, root_size, BSIZE; Z.div_mod_to_equations; lia).
  assert (R : dinode_range (ino 1 (set_size v d0))).
  { apply (appended_range 1 d0 d0 v f c0 (Z.of_nat (length c0)) fb I4); [done|done|lia]. }
  destruct (winode_run s f fb 1 (set_size v d0) (bt_state _ _ _ _ _ B) ltac:(done) R) as (s1 & f1 & E1 & B1 & _ & D1 & O1 & K1).
  destruct (balloc_run s1 f1 fb B1) as (s2 & buf & E2 & I2' & Eb & Hbits). exists s2, (upd f1 45 buf).
  assert (Hd : forall j, 0 <= j < NINODES -> disk_inode (upd f1 45 buf) j = disk_inode f1 j).
  { intros j Hj. pose proof (IBLOCK_range j Hj) as [_ Hb]. unfold disk_inode, upd. by rewrite decide_False by lia. }
  split; [|split; [done|]; split; [done|]].
  - unfold fix_root. rewrite (bind_run _ _ s tt s1).
    + unfold bind at 1, gets. cbn [obind]. by rewrite (bg_fb _ _ _ B1).
    + rewrite (bind_run _ _ _ _ _ (rinode_run s f 1 d0 (bg_image _ _ _ (bt_state _ _ _ _ _ B)) ltac:(done) I1)).
      rewrite I2, (xint_eq (Z.of_nat (length c0))) by lia. fold (root_size (Z.of_nat (length c0))). fold v.
      by rewrite u32_small, xint_eq by lia.
  - apply (finish_system files s f fb d0 ns B Hroom M0 Hc Hm).
    + apply I2'.
    + by rewrite Hd.
    + intros j Hj Hne. rewrite Hd by done. by apply O1.
    + intros z Hz Hz'. unfold upd. rewrite decide_False by done. by apply K1.
    + intros j Hj. unfold upd. rewrite decide_True by done. by apply Hbits.
Qed.

Lemma content_blocks_eq files : forall ns : list (dinode * list Z), ns.*2 = content_of <$> files -> blocks_of ns = content_blocks files.
Proof.
  induction files as [|x files IH]; intros [|[d c] ns] E; try done. injection E as Ec E. rewrite blocks_of_cons. simpl. by rewrite Ec, (IH ns E).
Qed.

Definition dots : list Z := dirent_bytes 1 (str ".") ++ dirent_bytes 1 (str "..").

(** main() up to the loop over the files: the root directory with "." and "..". *)
Lemma start_root : exists s0 s1 s2 s3 s f d0,
  zero_loop (Z.to_nat FSSIZE) 0 mkfs_start = Ret tt s0 /\ wsect 1 sb_block s0 = Ret tt s1 /\ ialloc T_DIR s1 = Ret 1 s2 /\
  iappend 1 (dirent_bytes 1 (str ".")) s2 = Ret tt s3 /\ iappend 1 (dirent_bytes 1 (str "..")) s3 = Ret tt s /\
  built empty_image s f (nmeta + 1) [(d0, dots)] /\ made T_DIR d0.
Proof.
  destruct empty_image_run as (s0 & E0 & I0 & Hi & Hb). destruct (superblock_run s0 I0 Hi Hb) as (_ & s1 & E1 & B1).
  destruct (ialloc_run empty_image s1 empty_image nmeta [] T_DIR B1) as (s2 & f2 & E2 & B2);
    [unfold NINODES; simpl; lia|unfold T_DIR; lia|]. cbn [app] in B2.
  destruct (iappend_run _ s2 f2 nmeta _ 0%nat _ [] (dirent_bytes 1 (str ".")) B2 eq_refl) as (s3 & f3 & d3 & E3 & B3 & M3); [done|done|].
  cbn [insert list_insert app] in B3.
  destruct (iappend_run _ s3 f3 _ _ 0%nat d3 _ (dirent_bytes 1 (str "..")) B3 eq_refl) as (s4 & f4 & d4 & E4 & B4 & M4); [done|done|].
  exists s0, s1, s2, s3, s4, f4, d4. split; [exact E0|]. split; [exact E1|]. split; [exact E2|]. split; [exact E3|].
  split; [exact E4|]. split; [|by eapply same_meta_trans]. exact B4.
Qed.

(** The files of a command line that mkfs can put on the image. *)
Record fits_image (files : list host_file) : Prop := {
  fi_add : Forall addable files;
  fi_inodes : 2 + Z.of_nat (length files) <= NINODES;
  fi_room : nmeta + file_blocks (Z.of_nat (length (root_content files))) + content_blocks files <= FSSIZE;
}.

Lemma main_run files : fits_image files ->
  exists s f d0 ds, main files mkfs_start = Ret tt s /\ image_is s f /\
    freeblock s = nmeta + file_blocks (Z.of_nat (length (root_content files))) + content_blocks files /\
    file_system f (freeblock s) files d0 ds.
Proof.
  intros [HA Hroom Hfb]. destruct start_root as (s0 & s1 & s2 & s3 & s4 & f4 & d4 & E0 & E1 & E2 & E3 & E4 & B4 & M4).
  assert (Ec : root_content files = dots ++ entries 2 files) by (unfold root_content, dots; by rewrite <- app_assoc).
  pose proof (root_content_length files) as Hl. assert (HM : MAXFILE * BSIZE = 274432) by done. unfold NINODES in Hroom.
  destruct (add_files_run _ files s4 f4 _ d4 dots [] B4 HA) as (s5 & f5 & fb & d5 & ns & E5 & B5 & M5 & Hc & Hm);
    cbn [length]; change (2 + Z.of_nat 0) with 2; rewrite <- ?Ec; [done|lia|change (blocks_of []) with 0; lia|].
  cbn [length app] in B5. change (2 + Z.of_nat 0) with 2 in B5. rewrite <- Ec in B5.
  destruct (finish_run files s5 f5 fb d5 ns B5 Hroom) as (s & f & E6 & I6 & Eb & F6); [by eapply same_meta_trans|done|done|].
  exists s, f, (set_size (root_size (Z.of_nat (length (root_content files)))) d5), ns.*1. rewrite Eb. split; [|split; [done|]; split; [|done]].
  - unfold main. rewrite (bind_run _ _ _ _ _ E0). change (put_bytes 0 (superblock_bytes sb) zeroes) with (Some sb_block).
    change (need _ (Some sb_block)) with (ret (S := mkfs) sb_block). rewrite bind_ret, (bind_run _ _ _ _ _ E1), (bind_run _ _ _ _ _ E2).
    change (assert_ (1 =? ROOTINO)) with (ret (S := mkfs) tt). rewrite bind_ret, (bind_run _ _ _ _ _ E3), (bind_run _ _ _ _ _ E4).
    by rewrite (bind_run _ _ _ _ _ E5).
  - rewrite (bt_total _ _ _ _ _ B5), blocks_of_cons, (content_blocks_eq files ns Hc). lia.
Qed.

(** C27. mkfs builds a file system of the files of its command line.  For files that it can open, with
    names that have no slash, of at most MAXFILE blocks, and that fit on the disk with the root directory,
    main() ends.  In the image that it leaves the superblock describes the layout and the log is
    empty.  The bitmap marks the blocks before freeblock and no others: the metadata and the blocks of
    the files.  Inode 1 is the root directory, which begins with ".", ".." and the names of the
    files, and inode 2 + k holds the k-th file.  No two files share a block, and the other inodes are
    free.  Each inode satisfies what the kernel's readi() and writei() need of it. *)
Theorem mkfs_correct files :
  Forall addable files -> 2 + Z.of_nat (length files) <= NINODES ->
  nmeta + file_blocks (Z.of_nat (length (root_content files))) + content_blocks files <= FSSIZE ->
  exists s f d0 ds, main files mkfs_start = Ret tt s /\ image_is s f /\
    freeblock s = nmeta + file_blocks (Z.of_nat (length (root_content files))) + content_blocks files /\
    file_system f (freeblock s) files d0 ds.
Proof. intros HA Hroom Hfb. by apply main_run. Qed.

(** The root directory has a hole when its entries fill its blocks: its size is a block more than that. *)
Lemma root_hole f fb files d0 ds : file_system f fb files d0 ds -> 2 + Z.of_nat (length files) <= NINODES ->
  (2 + Z.of_nat (length files)) mod 64 = 0 -> ~ no_holes f (ino 1 d0).
Proof.
  intros F Hroom Hm [_ N]. pose proof (sys_root _ _ _ _ _ F) as R. cbv zeta in R. pose proof (root_content_length files) as Hl.
  set (n := Z.of_nat (length (root_content files))) in *. assert (HM : MAXFILE = 268) by done. unfold NINODES in Hroom.
  assert (Hn : n / BSIZE * BSIZE = n) by (unfold BSIZE; Z.div_mod_to_equations; lia). unfold BSIZE in Hn.
  assert (Hb : slot f (ino 1 d0) (n / BSIZE) <> 0).
  { apply N; [unfold BSIZE; lia|]. simpl. rewrite (st_size _ _ _ _ _ _ R). unfold root_size, BSIZE. lia. }
  apply (st_blocks _ _ _ _ _ _ R) in Hb; unfold BSIZE in *; lia.
Qed.

(** A program of 13 blocks, which takes an indirect block, and a text file. *)
Definition sample_files : list host_file :=
  [(str "user/_init", Some (replicate 13 (replicate 1024 7))); (str "README", Some [str "xv6"; str " is"; []])].

Lemma mkfs_correct_witness : exists s f d0 ds, main sample_files mkfs_start = Ret tt s /\ image_is s f /\
  freeblock s = 62 /\ file_system f (freeblock s) sample_files d0 ds.
Proof.
  apply (mkfs_correct sample_files); [|by vm_compute|by vm_compute].
  repeat apply Forall_cons_2; [..|by apply Forall_nil_2]; (split; [done|decided|by vm_compute]).
Defined.
