(* ===== verification/MkfsRead.v ===== *)
(** The image that mkfs leaves, read by the kernel: a path to one of the files leads to its inode, and
    reading it gives the bytes that the file had on the host. *)

From Stdlib Require Import ZArith Lia.
From stdpp Require Import base gmap list_numbers strings numbers functions list.
From S2P Require Import Prelude Mem Bytes Riscv Kernel Spinlock Kalloc Vm Printf PrintfSpec Sched SchedSpec Thread.
From S2P Require Import Sleeplock SleeplockSpec Virtio Bio BioSpec BioInv VirtioSpec BioProps Log LogSpec LogCrash LogTxn.
From S2P Require Import Fs FsTx FsAlloc FsFile FsRw FsInode FsDir FsPath Mkfs MkfsFile MkfsSpec.

Open Scope Z_scope.

Implicit Types (f g : Z -> list Z) (x : inode) (c : list Z) (file : host_file).

(** * The blocks of the disk *)

Lemma data_blocks_le n : 0 <= n -> n <= data_blocks n * BSIZE.
Proof. intros Hn. unfold data_blocks, BSIZE. Z.div_mod_to_equations; lia. Qed.

Section Agree.
Context (f g : Z -> list Z) (Hfg : forall b, 0 <= b < FSSIZE -> g b = f b).

Lemma agree_slot x n : file_ok 1 2 sb f x -> slot g x n = slot f x n.
Proof.
  intros F. pose proof (fo_data _ _ _ _ _ F MAXFILE ltac:(rewrite MAXFILE_eq; lia)) as Hd. unfold slot in *.
  change (MAXFILE <? NDIRECT) with false in Hd. rewrite Z.eqb_refl in Hd. cbv zeta iota in Hd.
  destruct (n <? NDIRECT); [done|]. cbv zeta. destruct (n =? MAXFILE); [done|]. destruct (Z.eqb_spec (default 0 (i_addrs x !! Z.to_nat NDIRECT)) 0) as [|Hi]; [done|].
  rewrite Hfg; [done|]. pose proof (db_range _ _ _ _ (Hd Hi)) as Hr. rewrite sb_size_eq in Hr. lia.
Qed.

Lemma agree_used b : 0 <= b < FSSIZE -> used sb g b = used sb f b.
Proof. intros Hb. unfold used. destruct (BBLOCK_45 b Hb) as [-> _]. by rewrite Hfg by (unfold FSSIZE; lia). Qed.

Lemma agree_data z : data_block 2 sb f z -> data_block 2 sb g z.
Proof.
  intros [H1 H2 H3 H4 H5]. pose proof H1 as Hr. rewrite sb_size_eq in Hr. split; try done; [by rewrite agree_used by lia|by rewrite Hfg by lia].
Qed.

Lemma agree_file x : file_ok 1 2 sb f x -> file_ok 1 2 sb g x.
Proof.
  intros F. pose proof F as [H1 H2 H3 H4]. split; [done|done| |].
  - intros n Hn. rewrite agree_slot by done. intros Hne. by apply agree_data, H3.
  - intros n m Hn Hm. rewrite !agree_slot by done. by apply H4.
Qed.

Lemma agree_holes x : file_ok 1 2 sb f x -> no_holes f x -> no_holes g x.
Proof. intros F [H1 H2]. split; [done|]. intros n Hn Hs. rewrite agree_slot by done. by apply H2. Qed.

Lemma agree_holds x c : file_ok 1 2 sb f x -> holds f x 0 c -> Z.of_nat (length c) <= MAXFILE * BSIZE -> holds g x 0 c.
Proof.
  intros F H Hl i b Hi. specialize (H i b Hi). apply lookup_lt_Some in Hi. unfold byte_at in *. rewrite agree_slot by done.
  destruct (Z.eqb_spec (slot f x ((0 + Z.of_nat i) / BSIZE)) 0) as [|Hne]; [done|]. rewrite Hfg; [done|].
  rewrite MAXFILE_eq in Hl. unfold BSIZE in *. apply (fo_data _ _ _ _ _ F) in Hne as [Hr _ _ _ _]; [rewrite sb_size_eq in Hr; lia|].
  rewrite MAXFILE_eq. Z.div_mod_to_equations; lia.
Qed.

Lemma agree_bitmap : bitmap_ok 2 sb f -> bitmap_ok 2 sb g.
Proof.
  intros [H1 H2 H3 H4 H5]. split; [done|done|done| |].
  - intros b Hb. rewrite Hfg; [by apply H4|]. destruct (BBLOCK_45 b Hb) as [-> _]. unfold FSSIZE. lia.
  - intros b Hb Hu. apply (H5 b Hb). by rewrite <- agree_used.
Qed.

(** A file that mkfs has stored, up to its size. *)
Lemma stored_file inum d type size c : stored f inum d type size c -> 0 <= inum < NINODES -> type <> 0 ->
  Z.of_nat (length c) <= size <= data_blocks (Z.of_nat (length c)) * BSIZE ->
  disk_file 1 2 sb g inum d (c ++ replicate (Z.to_nat (size - Z.of_nat (length c))) 0).
Proof.
  intros [S1 (M1 & _ & _ & M4) S3 S4 S5 S6 S7 S8] Hn Ht Hs. destruct (S8 ltac:(lia)) as [Hh Hz]. pose proof (IBLOCK_range inum Hn) as [_ Hb].
  assert (Hl : Z.of_nat (length (c ++ replicate (Z.to_nat (size - Z.of_nat (length c))) 0)) = di_size d) by (rewrite length_app, length_replicate; lia).
  cbn [di_type fresh_inode] in M1. split; [lia| |congruence|by apply agree_file|by apply agree_holes|done|].
  - unfold disk_ino. rewrite Hfg by (unfold FSSIZE; lia). exact S1.
  - apply agree_holds; [done| |rewrite Hl; apply (nh_size _ _ Hh)]. intros i b Hi. apply lookup_app_Some in Hi as [Hi|[Hge Hi]]; [by apply S6|].
    apply lookup_replicate in Hi as [-> Hi]. apply Hz. lia.
Qed.
End Agree.

(** * The entries of the root directory *)

(** The name of a file in the root directory. *)
Definition dir_name file : list Z := take (Z.to_nat DIRSIZ) (name_of file).

Lemma dentry_app (a e b : list Z) i : length a = (16 * i)%nat -> length e = 16%nat ->
  dentry (a ++ e ++ b) i = (dirent_inum e, dname (str_of (dirent_name e))).
Proof. intros Ha He. unfold dentry. rewrite <- Ha, drop_app_length, take_app_le by lia. by rewrite <- He, firstn_all. Qed.

Lemma dirent_decode inum name : 0 <= inum < 2 ^ 16 -> 0 ∉ name ->
  dirent_inum (dirent_bytes inum name) = inum /\ dname (str_of (dirent_name (dirent_bytes inum name))) = take (Z.to_nat DIRSIZ) name.
Proof.
  intros Hi H0. unfold dirent_inum, dirent_name, dirent_bytes, xshort. change (Z.to_nat DIRSIZ) with 14%nat. split.
  - rewrite le_val_bytes. change (8 * Z.of_nat 2) with 16. rewrite Z.mod_small by done.
    pose proof (getn_app [] 2 inum (take 14 (name ++ replicate 14 0)) 0%nat) as E. cbn [app length] in E.
    rewrite E by done. by apply Z.mod_small.
  - rewrite drop_app_ge by (by rewrite le_bytes_length). rewrite le_bytes_length, Nat.sub_diag, drop_0, take_take, Nat.min_id.
    destruct (decide (14 <= length name)%nat) as [Hl|Hl].
    + rewrite take_app_le by done. apply dname_cut; [|rewrite length_take; change (Z.to_nat DIRSIZ) with 14%nat; lia].
      intros [i [Hi' _]%lookup_take_Some]%list_elem_of_lookup. by apply H0; eapply list_elem_of_lookup_2.
    + rewrite (take_ge name), take_app_ge by lia. rewrite take_replicate. replace (14 - length name)%nat with (S (13 - length name)) by lia.
      apply (dname_short name); [done|change (Z.to_nat DIRSIZ) with 14%nat; lia].
Qed.

(** The entry of the [k]-th of the files. *)
Lemma entries_split files : forall (k : nat) inum file, files !! k = Some file ->
  exists a b, entries inum files = a ++ dirent_bytes (inum + Z.of_nat k) (name_of file) ++ b /\ length a = (16 * k)%nat.
Proof.
  induction files as [|x files IH]; intros k inum file; [done|]. destruct k as [|k]; cbn [entries].
  - intros [= ->]. exists [], (entries (inum + 1) files). by rewrite Z.add_0_r.
  - intros E. destruct (IH k (inum + 1) file E) as (a & b & -> & Hl). exists (dirent_bytes inum (name_of x) ++ a), b.
    split; [|rewrite length_app, dirent_bytes_length; lia]. rewrite <- app_assoc. by replace (inum + Z.of_nat (S k)) with (inum + 1 + Z.of_nat k) by lia.
Qed.

Section Root.
Context (files : list host_file) (tail : list Z) (Hroom : 2 + Z.of_nat (length files) <= NINODES).
Context (Hnul : Forall (fun file => 0 ∉ name_of file) files).

Lemma root_entry k file : files !! k = Some file ->
  dentry (root_content files ++ tail) (2 + k) = (2 + Z.of_nat k, dir_name file).
Proof.
  intros E. destruct (entries_split files k 2 file E) as (a & b & Ee & Hl). unfold root_content. rewrite Ee.
  pose proof (lookup_lt_Some _ _ _ E) as Hlt. unfold NINODES in Hroom.
  destruct (dirent_decode (2 + Z.of_nat k) (name_of file) ltac:(lia) (Forall_lookup_1 _ _ _ _ Hnul E)) as [D1 D2].
  replace ((_ ++ _ ++ a ++ _ ++ b) ++ tail) with ((dirent_bytes 1 (str ".") ++ dirent_bytes 1 (str "..") ++ a) ++
    dirent_bytes (2 + Z.of_nat k) (name_of file) ++ (b ++ tail)) by (by rewrite <- !app_assoc).
  rewrite dentry_app, D1, D2; [done| |apply dirent_bytes_length]. rewrite !length_app, !dirent_bytes_length. lia.
Qed.

Lemma root_dots : dentry (root_content files ++ tail) 0 = (1, str ".") /\ dentry (root_content files ++ tail) 1 = (1, str "..").
Proof.
  unfold root_content. rewrite <- !app_assoc. split.
  - exact (dentry_app [] (dirent_bytes 1 (str ".")) _ 0 eq_refl eq_refl).
  - exact (dentry_app (dirent_bytes 1 (str ".")) (dirent_bytes 1 (str "..")) _ 1 eq_refl eq_refl).
Qed.

(** The first file with the name is found. *)
Lemma find_file k file : files !! k = Some file -> (forall j other, (j < k)%nat -> files !! j = Some other -> dir_name other <> dir_name file) ->
  dir_name file <> str "." -> dir_name file <> str ".." ->
  find_name (dir_name file) (root_content files ++ tail) = Some ((2 + k)%nat, 2 + Z.of_nat k).
Proof.
  intros E Hfirst H1 H2. pose proof (root_entry k file E) as De. pose proof (lookup_lt_Some _ _ _ E) as Hlt.
  pose proof (root_content_length files) as Hl. destruct root_dots as [D0 D1].
  rewrite (find_name_Some _ _ (2 + k)); rewrite ?De; [done| | |].
  - rewrite length_app. apply Nat.div_le_lower_bound; lia.
  - unfold has_name. rewrite De. split; [simpl; lia|done].
  - intros j Hj. unfold has_name. destruct j as [|[|j]]; [rewrite D0; intros [_ Hn]; by apply H1|rewrite D1; intros [_ Hn]; by apply H2|].
    destruct (lookup_lt_is_Some_2 files j) as [other Eo]; [lia|]. pose proof (root_entry j other Eo) as Do. cbn [plus] in Do. rewrite Do. simpl. intros [_ Hn].
    apply (Hfirst j other); [lia|done|done].
Qed.
End Root.

(** * Reading a file of the image *)

(** The root directory of the image, if its entries do not fill its blocks (cf. [root_hole]). *)
Lemma root_disk_dir f g fb files d0 ds : (forall b, 0 <= b < FSSIZE -> g b = f b) -> file_system f fb files d0 ds ->
  2 + Z.of_nat (length files) <= NINODES -> (2 + Z.of_nat (length files)) mod 64 <> 0 ->
  exists tail, disk_dir 1 2 sb g ROOTINO d0 (root_content files ++ tail).
Proof.
  intros Hfg F Hroom Hm. pose proof (sys_root _ _ _ _ _ F) as R. cbv zeta in R. pose proof (root_content_length files) as Hl.
  set (n := Z.of_nat (length (root_content files))) in *. unfold NINODES in Hroom.
  assert (Hs : n <= root_size n <= data_blocks n * BSIZE) by (unfold root_size, data_blocks, BSIZE; Z.div_mod_to_equations; lia).
  destruct (stored_file f g Hfg 1 d0 T_DIR (root_size n) (root_content files) R ltac:(unfold NINODES; lia) ltac:(done) Hs) as [D1 D2 D3 D4 D5 D6 D7].
  eexists. destruct (st_made _ _ _ _ _ _ R) as (M1 & _ & _ & M4). split; [exact D1|exact D2|exact M1|by rewrite M4|exact D4|].
  split; [exact D5|exact D6| |exact D7]. rewrite D6, (st_size _ _ _ _ _ _ R). unfold root_size, BSIZE. rewrite <- Z.mul_mod_idemp_r by lia.
  change (1024 mod 16) with 0. by rewrite Z.mul_0_r.
Qed.

(** The kernel [k0] runs on the blocks [g], with an inode table that has room. *)
Record ready (o : Z) (k0 : kernel) (me : nat) (pid : Z) (bs : list Z) g : Prop := {
  rd_tx : tx 1 2 o k0 me pid bs [] g;
  rd_sb : k_sb k0 = sb;
  rd_print : can_print k0;
  rd_room : (length bs < Z.to_nat NBUF)%nat;
  rd_itable : lock_free k0 LItable;
  rd_locks : forall j, (j < length (k_itable k0))%nat -> lock_free k0 (LInode j);
  rd_table : table_ok 1 sb g (k_itable k0);
  rd_free : 2 <= nfree (k_itable k0);
}.

Section Read.
Context {LS : LinkerSymbols} {BD : BlockDevice} {env : kernel -> kernel -> Prop} {DL : DiskLaws env}.

(** Opening a path and reading from the start: namei(), ilock(), readi(). *)
Definition read_path (path : list Z) (n : Z) : K (Z * list Z) :=
  let! r := namei path in
  let! ip := need "namei" r in
  do! ilock (Some ip);
  readi ip ToVar 0 n.

(** C5. What mkfs has put on the image is what the kernel reads: for a command line of files that fit, main() leaves an image
    of FSSIZE blocks such that in a kernel that runs on a disk with these blocks, namei() of the absolute path with the name of the [k]-th file,
    followed by ilock() and readi(), gives exactly the bytes that this file had on the host.  The name is neither "." nor ".."
    and no earlier file has it; the entries of the root do not fill its last block. *)
Theorem mkfs_readable files k file path :
  fits_image files -> (2 + Z.of_nat (length files)) mod 64 <> 0 -> Forall (fun file => 0 ∉ name_of file) files ->
  files !! k = Some file -> (forall j other, (j < k)%nat -> files !! j = Some other -> dir_name other <> dir_name file) ->
  dir_name file <> str "." -> dir_name file <> str ".." ->
  head path = Some 47 -> 0 ∉ path -> elements path = [dir_name file] ->
  exists s, main files mkfs_start = Ret tt s /\ length (image s) = Z.to_nat FSSIZE /\
    forall o k0 me pid bs g cnt, (forall b, 0 <= b < FSSIZE -> image s !! Z.to_nat b = Some (g b)) -> ready o k0 me pid bs g ->
    Z.of_nat (length (content_of file)) <= cnt < 2 ^ 32 ->
    wp env (read_path path cnt k0) (fun r _ => r = (Z.of_nat (length (content_of file)), content_of file)).
Proof.
  intros Hfit Hm Hnul E Hfirst H1 H2 Hp H0 He. destruct (main_run files Hfit) as (s & f & d0 & ds & Em & I & _ & F). pose proof (fi_inodes _ Hfit) as Hroom.
  exists s. split; [done|]. split; [apply I|]. intros o k0 me pid bs g cnt Hg [R1 R2 R3 R4 R5 R6 R7 R8] Hcnt.
  assert (Hfg : forall b, 0 <= b < FSSIZE -> g b = f b) by (intros b Hb; specialize (Hg b Hb); rewrite (im_block _ _ I b Hb) in Hg; congruence).
  destruct (root_disk_dir f g _ files d0 ds Hfg F Hroom Hm) as [tail D].
  assert (Hr : resolves 1 2 sb g ROOTINO (elements path) (Some (2 + Z.of_nat k))).
  { rewrite He. eapply resolves_down; [exact D|by apply find_file|apply resolves_here]. }
  unfold read_path. apply wp_bind. eapply wp_mono.
  { apply (namei_walk 1 2 o sb me pid k0 bs g R2 R3 (agree_bitmap f g Hfg (sys_bitmap _ _ _ _ _ F)) R4 R5 R6 path ROOTINO (Some (2 + Z.of_nat k)) R1 R7 R8 H0); [|exact Hr].
    unfold starts_at. rewrite decide_True by exact Hp. split; reflexivity. }
  intros res k' (t' & A & T' & j & x & -> & Hx & Hu & _). cbn [need]. rewrite bind_ret.
  pose proof (lookup_lt_Some _ _ _ E) as Hlt. destruct (lookup_lt_is_Some_2 ds k) as [d Ed]; [by rewrite (sys_count _ _ _ _ _ F)|].
  pose proof (stored_file f g Hfg _ d T_FILE _ _ (sys_file _ _ _ _ _ F k file d E Ed) ltac:(lia) ltac:(done)) as DF.
  rewrite Z.sub_diag, app_nil_r in DF. apply (read_file 1 2 o sb me pid k0 bs g R2 R3 (agree_bitmap f g Hfg (sys_bitmap _ _ _ _ _ F)) R4 R5 R6 k' t' j (2 + Z.of_nat k) x d);
    [done|done|done|done| |done]. apply DF. split; [done|apply data_blocks_le; lia].
Qed.
End Read.

(** * A concrete image *)

(** The disk with the blocks of the image. *)
Definition image_disk (s : mkfs) : disk := mkDisk (map_seqZ 0 (image s)) [].

Lemma image_disk_block s b : length (image s) = Z.to_nat FSSIZE -> 0 <= b < FSSIZE -> image s !! Z.to_nat b = Some (disk_block (image_disk s) b).
Proof.
  intros Hl Hb. destruct (lookup_lt_is_Some_2 (image s) (Z.to_nat b)) as [d E]; [lia|]. rewrite E.
  assert (Em : (map_seqZ 0 (image s) : gmap Z (list Z)) !! b = Some d) by (apply lookup_map_seqZ_Some; rewrite Z.sub_0_r; by split; [lia|]).
  unfold disk_block, image_disk. cbn [dk_blocks]. by rewrite Em.
Qed.

(** /README *)
Definition readme_path : list Z := [47] ++ str "README".

Lemma mkfs_readable_witness : exists s k, main sample_files mkfs_start = Ret tt s /\ k_disk k = image_disk s /\
  wp disk_round (read_path readme_path 100 k) (fun r _ => r = (6, str "xv6 is")).
Proof.
  destruct (mkfs_readable (env := disk_round) sample_files 1 (str "README", Some [str "xv6"; str " is"; []]) readme_path) as (s & E & Hl & H).
  - split; [|by vm_compute|by vm_compute]. repeat apply Forall_cons_2; [..|by apply Forall_nil_2]; (split; [done|decided|by vm_compute]).
  - by vm_compute.
  - repeat apply Forall_cons_2; [..|by apply Forall_nil_2]; decided.
  - reflexivity.
  - intros [|j] other Hj Eo; [|lia]. injection Eo as <-. by vm_compute.
  - by vm_compute.
  - by vm_compute.
  - reflexivity.
  - decided.
  - by vm_compute.
  - destruct (itable_sample (image_disk s)) as (k & Hd & T & Hsb & Hcp & Hit & Hi0 & Hi1). exists s, (set_k_itable [free_entry; free_entry] k).
    split; [exact E|]. split; [exact Hd|]. assert (R : ready 1 (set_k_itable [free_entry; free_entry] k) 3 0 [] (disk_block (image_disk s))).
    { split; [by apply tx_itable|etransitivity; [exact Hsb|clear; by vm_compute]|by apply can_print_itable|change NBUF with 30; simpl; lia|exact Hit| | |clear; by vm_compute].
      - intros [|[|j]] Hj; [exact Hi0|exact Hi1|simpl in Hj; lia].
      - apply (free_table_ok _ _ _ 2). }
    assert (Hc : Z.of_nat (length (content_of (str "README", Some [str "xv6"; str " is"; []]))) <= 100 < 2 ^ 32) by (clear; by vm_compute).
    pose proof (H 1 _ 3%nat 0 [] _ 100 (fun b => image_disk_block s b Hl) R Hc) as W.
    eapply wp_mono; [exact W|].
    intros r k' ->. clear. by vm_compute.
Defined.
