(* ===== verification/Console.v ===== *)
(** kernel/console.c and the interrupt-driven part of kernel/uart.c. *)

From Stdlib Require Import ZArith Lia.
From stdpp Require Import base gmap list_numbers strings numbers list.
From S2P Require Import Prelude Mem Riscv Kernel Spinlock Kalloc Vm Printf Sched Sleeplock.

Open Scope Z_scope.

(** * uart.c *)

Definition THR : Z := 0.
Definition IER : Z := 1.
Definition IER_RX_ENABLE : Z := Z.shiftl 1 0.
Definition IER_TX_ENABLE : Z := Z.shiftl 1 1.
Definition FCR : Z := 2.
Definition FCR_FIFO_ENABLE : Z := Z.shiftl 1 0.
Definition FCR_FIFO_CLEAR : Z := Z.shiftl 3 1.
Definition LCR : Z := 3.
Definition LCR_EIGHT_BITS : Z := Z.shiftl 3 0.
Definition LCR_BAUD_LATCH : Z := Z.shiftl 1 7.
Definition UART_TX_BUF_SIZE : Z := 32.

(** WriteReg() of a control register *)
Definition WriteReg (reg v : Z) : K unit :=
  upd_uart (fun u => set_uart_ctl (uart_ctl u ++ [(reg, v)]) u).

Definition uartinit : K unit :=
  do! WriteReg IER 0;
  do! WriteReg LCR LCR_BAUD_LATCH;
  do! WriteReg 0 3;
  do! WriteReg 1 0;
  do! WriteReg LCR LCR_EIGHT_BITS;
  do! WriteReg FCR (Z.lor FCR_FIFO_ENABLE FCR_FIFO_CLEAR);
  do! WriteReg IER (Z.lor IER_TX_ENABLE IER_RX_ENABLE);
  initlock LUart "uart".

(** while(1); every turn that goes on takes a byte out of the buffer. *)
Fixpoint uartstart_loop (fuel : nat) : K unit :=
  match fuel with
  | O => nofuel
  | S f =>
      let! u := gets k_uart in
      if tx_w u =? tx_r u then ret tt else
      let! idle := lsr_tx_idle in
      if negb idle then ret tt else
      let! c := need "uart_tx_buf[]" (tx_buf u !! Z.to_nat (tx_r u mod UART_TX_BUF_SIZE)) in
      do! upd_uart (set_tx_r (u64 (tx_r u + 1)));
      do! wakeup ChUartTxR;
      do! write_thr c;
      uartstart_loop f
  end.

Definition uartstart : K unit :=
  let! u := gets k_uart in
  uartstart_loop (S (Z.to_nat (u64 (tx_w u - tx_r u)))).

(** while(uart_tx_w == uart_tx_r + UART_TX_BUF_SIZE) sleep(&uart_tx_r, &uart_tx_lock); *)
Fixpoint uartputc_wait (fuel : nat) : K unit :=
  match fuel with
  | O => nofuel
  | S f =>
      let! u := gets k_uart in
      if tx_w u =? u64 (tx_r u + UART_TX_BUF_SIZE) then
        do! sleep ChUartTxR LUart; uartputc_wait f
      else ret tt
  end.

Definition uartputc (c : Z) : K unit :=
  do! acquire LUart;
  let! panicked := gets k_panicked in
  if negb (panicked =? 0) then (fun k => Spin k) else
  do! uartputc_wait sleep_rounds;
  do! upd_uart (fun u =>
        set_tx_buf (<[Z.to_nat (tx_w u mod UART_TX_BUF_SIZE) := u8 c]> (tx_buf u)) u);
  do! upd_uart (fun u => set_tx_w (u64 (tx_w u + 1)) u);
  do! uartstart;
  release LUart.

Definition uartgetc : K Z :=
  let! u := gets k_uart in
  match uart_in u with
  | c :: rest => do! upd_uart (set_uart_in rest); ret c
  | [] => ret (-1)
  end.

(** * console.c *)

Definition INPUT_BUF_SIZE : Z := 128.

(** Control-x *)
Definition C (x : Z) : Z := x - 64.

Definition upd_cons (f : cons -> cons) : K unit := modify (fun k => set_k_cons (f (k_cons k)) k).

(** cons.buf[i % INPUT_BUF_SIZE] *)
Definition cons_at (i : Z) : K Z :=
  let! c := gets k_cons in need "cons.buf[]" (cons_buf c !! Z.to_nat (i mod INPUT_BUF_SIZE)).

(** for(i = 0; i < n; i++) *)
Fixpoint consolewrite_loop (fuel : nat) (src : source) (i n : Z) : K Z :=
  match fuel with
  | O => nofuel
  | S f =>
      if i <? n then
        let! '(r, bytes) := either_copyin (source_add src i) 1 in
        if r =? -1 then ret i else
        let! c := need "c" (bytes !! 0%nat) in
        do! uartputc c;
        consolewrite_loop f src (i + 1) n
      else ret i
  end.

Definition consolewrite (src : source) (n : Z) : K Z := consolewrite_loop (S (Z.to_nat n)) src 0 n.

Section Console.
Context `{LinkerSymbols}.

(** while(cons.r == cons.w): true when input has arrived, false when the
    process has been killed. *)
Fixpoint consoleread_wait (fuel : nat) : K bool :=
  match fuel with
  | O => nofuel
  | S f =>
      let! c := gets k_cons in
      if cons_r c =? cons_w c then
        let! p := curproc in
        let! dead := killed p in
        if negb (dead =? 0) then ret false else
        do! sleep ChConsR LCons;
        consoleread_wait f
      else ret true
  end.

(** while(n > 0); the result is n at the end of the loop, or [None] after the
    early return. *)
Fixpoint consoleread_loop (fuel : nat) (dst : dest) (n target : Z) : K (option Z) :=
  match fuel with
  | O => nofuel
  | S f =>
      if 0 <? n then
        let! ok := consoleread_wait sleep_rounds in
        if negb ok then do! release LCons; ret None else
        let! cs := gets k_cons in
        let! c := cons_at (cons_r cs) in
        do! upd_cons (set_cons_r (u32 (cons_r cs + 1)));
        if c =? C 68 then
          do! when (u32 n <? target) (upd_cons (fun cs => set_cons_r (u32 (cons_r cs - 1)) cs));
          ret (Some n)
        else
        let! r := either_copyout dst [c] 1 in
        if r =? -1 then ret (Some n) else
        if c =? NL then ret (Some (n - 1)) else
        consoleread_loop f (dest_add dst 1) (n - 1) target
      else ret (Some n)
  end.

Definition consoleread (dst : dest) (n : Z) : K Z :=
  let target := u32 n in
  do! acquire LCons;
  let! r := consoleread_loop (S (Z.to_nat n)) dst n target in
  match r with
  | None => ret (-1)
  | Some n => do! release LCons; ret (i32 (target - n))
  end.

(** while(cons.e != cons.w && cons.buf[(cons.e-1) % INPUT_BUF_SIZE] != '\n') *)
Fixpoint kill_line (fuel : nat) : K unit :=
  match fuel with
  | O => nofuel
  | S f =>
      let! c := gets k_cons in
      if cons_e c =? cons_w c then ret tt else
      let! b := cons_at (u32 (cons_e c - 1)) in
      if b =? NL then ret tt else
      do! upd_cons (set_cons_e (u32 (cons_e c - 1)));
      do! consputc BACKSPACE;
      kill_line f
  end.

Definition consoleintr (c : Z) : K unit :=
  do! acquire LCons;
  let! cs := gets k_cons in
  do! (if c =? C 80 then procdump
       else if c =? C 85 then kill_line (S (Z.to_nat (u32 (cons_e cs - cons_w cs))))
       else if (c =? C 72) || (c =? 0x7f) then
         when (negb (cons_e cs =? cons_w cs))
           (do! upd_cons (set_cons_e (u32 (cons_e cs - 1)));
            consputc BACKSPACE)
       else
         when (negb (c =? 0) && (u32 (cons_e cs - cons_r cs) <? INPUT_BUF_SIZE))
           (let c := if c =? 13 then NL else c in
            do! consputc c;
            do! upd_cons (fun cs =>
                  set_cons_buf (<[Z.to_nat (cons_e cs mod INPUT_BUF_SIZE) := u8 c]> (cons_buf cs)) cs);
            do! upd_cons (fun cs => set_cons_e (u32 (cons_e cs + 1)) cs);
            let! cs := gets k_cons in
            when ((c =? NL) || (c =? C 68) || (u32 (cons_e cs - cons_r cs) =? INPUT_BUF_SIZE))
              (do! upd_cons (fun cs => set_cons_w (cons_e cs) cs);
               wakeup ChConsR)));
  release LCons.

(** while(1){ int c = uartgetc(); if(c == -1) break; consoleintr(c); } *)
Fixpoint uartintr_loop (fuel : nat) : K unit :=
  match fuel with
  | O => nofuel
  | S f =>
      let! c := uartgetc in
      if c =? -1 then ret tt else
      do! consoleintr c;
      uartintr_loop f
  end.

Definition uartintr : K unit :=
  let! u := gets k_uart in
  do! uartintr_loop (S (length (uart_in u)));
  do! acquire LUart;
  do! uartstart;
  release LUart.

Definition CONSOLE : Z := 1.

Definition consoleinit : K unit :=
  do! initlock LCons "cons";
  do! uartinit;
  modify (fun k => set_k_devsw
    (<[Z.to_nat CONSOLE := mkDevsw (Some dev_consoleread) (Some dev_consolewrite)]> (k_devsw k)) k).

End Console.
