(* ===== verification/Pipe.v ===== *)
(** kernel/pipe.c: pipes.  The struct of a pipe is kept in [k_pipes] under the
    address of its page; the page itself belongs to the pipe from kalloc() to
    kfree(). *)

From Stdlib Require Import ZArith Lia.
From stdpp Require Import base gmap list_numbers strings numbers list.
From S2P Require Import Prelude Mem Riscv Kernel Spinlock Kalloc Vm Printf Sched Sleeplock.

Open Scope Z_scope.

Definition PIPESIZE : Z := 512.

Definition get_pipe (pi : Z) : K pipe := let! o := gets (fun k => k_pipes k !! pi) in need "pipe" o.
Definition upd_pipe (pi : Z) (f : pipe -> pipe) : K unit :=
  modify (fun k => set_k_pipes (alter f pi (k_pipes k)) k).

Section Pipe.
Context `{LinkerSymbols}.

Definition pipeclose (pi : Z) (writable : bool) : K unit :=
  do! acquire (LPipe pi);
  do! (if writable then
         do! upd_pipe pi (set_pi_writeopen 0); wakeup (ChPipeRead pi)
       else
         do! upd_pipe pi (set_pi_readopen 0); wakeup (ChPipeWrite pi));
  let! p := get_pipe pi in
  if (pi_readopen p =? 0) && (pi_writeopen p =? 0) then
    do! release (LPipe pi);
    do! modify (fun k => set_k_pipes (delete pi (k_pipes k)) k);
    kfree pi
  else release (LPipe pi).

(** while(i < n); the result is i at the end of the loop, or [None] after the
    early return. *)
Fixpoint pipewrite_loop (fuel : nat) (pr : nat) (pi addr i n : Z) : K (option Z) :=
  match fuel with
  | O => nofuel
  | S f =>
      if i <? n then
        let! p := get_pipe pi in
        let! dead := (if pi_readopen p =? 0 then ret 1 else killed pr) in
        if negb (dead =? 0) then do! release (LPipe pi); ret None else
        let! p := get_pipe pi in
        if pi_nwrite p =? u32 (pi_nread p + PIPESIZE) then
          do! wakeup (ChPipeRead pi);
          do! sleep (ChPipeWrite pi) (LPipe pi);
          pipewrite_loop f pr pi addr i n
        else
          let! x := get_proc pr in
          let! '(r, bytes) := copyin (p_pagetable x) (u64 (addr + i)) 1 in
          if r =? -1 then ret (Some i) else
          let! ch := need "ch" (bytes !! 0%nat) in
          do! upd_pipe pi (fun p =>
                set_pi_data (<[Z.to_nat (pi_nwrite p mod PIPESIZE) := ch]> (pi_data p)) p);
          do! upd_pipe pi (fun p => set_pi_nwrite (u32 (pi_nwrite p + 1)) p);
          pipewrite_loop f pr pi addr (i + 1) n
      else ret (Some i)
  end.

Definition pipewrite (pi addr n : Z) : K Z :=
  let! pr := curproc in
  do! acquire (LPipe pi);
  let! r := pipewrite_loop (sleep_rounds + Z.to_nat n) pr pi addr 0 n in
  match r with
  | None => ret (-1)
  | Some i =>
      do! wakeup (ChPipeRead pi);
      do! release (LPipe pi);
      ret i
  end.

(** while(pi->nread == pi->nwrite && pi->writeopen): true when there is data or
    the write end is closed, false when the process has been killed. *)
Fixpoint piperead_wait (fuel : nat) (pr : nat) (pi : Z) : K bool :=
  match fuel with
  | O => nofuel
  | S f =>
      let! p := get_pipe pi in
      if (pi_nread p =? pi_nwrite p) && negb (pi_writeopen p =? 0) then
        let! dead := killed pr in
        if negb (dead =? 0) then ret false else
        do! sleep (ChPipeRead pi) (LPipe pi);
        piperead_wait f pr pi
      else ret true
  end.

(** for(i = 0; i < n; i++) *)
Fixpoint piperead_loop (fuel : nat) (pr : nat) (pi addr i n : Z) : K Z :=
  match fuel with
  | O => nofuel
  | S f =>
      if i <? n then
        let! p := get_pipe pi in
        if pi_nread p =? pi_nwrite p then ret i else
        let! ch := need "pi->data[]" (pi_data p !! Z.to_nat (pi_nread p mod PIPESIZE)) in
        do! upd_pipe pi (set_pi_nread (u32 (pi_nread p + 1)));
        let! x := get_proc pr in
        let! r := copyout (p_pagetable x) (u64 (addr + i)) [ch] 1 in
        if r =? -1 then ret i else piperead_loop f pr pi addr (i + 1) n
      else ret i
  end.

Definition piperead (pi addr n : Z) : K Z :=
  let! pr := curproc in
  do! acquire (LPipe pi);
  let! ok := piperead_wait sleep_rounds pr pi in
  if negb ok then do! release (LPipe pi); ret (-1) else
  let! i := piperead_loop (S (Z.to_nat n)) pr pi addr 0 n in
  do! wakeup (ChPipeWrite pi);
  do! release (LPipe pi);
  ret i.

End Pipe.
