(* ===== verification/PipeSpec.v ===== *)
(** Pipes (kernel/pipe.c) are queues of bytes: pipewrite() appends to the queue and
    piperead() takes from its front, also when the 32-bit counters wrap around. *)

From Stdlib Require Import ZArith Lia.
From stdpp Require Import base gmap list_numbers strings numbers functions list.
From S2P Require Import Prelude Mem Riscv Kernel Spinlock Kalloc Vm VmTree VmMap Printf Sched SchedSpec Thread Sleeplock Pipe.

Open Scope Z_scope.

Implicit Types (k : kernel) (p : pipe).

(** * The queue of a pipe *)

Definition pipe_len p : Z := u32 (pi_nwrite p - pi_nread p).

(** The bytes that have been written and not read, the oldest first. *)
Definition queue p : list Z :=
  (fun j => default 0 (pi_data p !! Z.to_nat ((pi_nread p + j) mod PIPESIZE))) <$> seqZ 0 (pipe_len p).

Record pipe_ok p : Prop := {
  po_data : length (pi_data p) = Z.to_nat PIPESIZE;
  po_nread : 0 <= pi_nread p < 2 ^ 32;
  po_nwrite : 0 <= pi_nwrite p < 2 ^ 32;
  po_len : pipe_len p <= PIPESIZE;
}.

Definition enqueue (c : Z) p : pipe :=
  set_pi_nwrite (u32 (pi_nwrite p + 1)) (set_pi_data (<[Z.to_nat (pi_nwrite p mod PIPESIZE) := c]> (pi_data p)) p).

Definition dequeue p : pipe := set_pi_nread (u32 (pi_nread p + 1)) p.

Lemma u32_mod_512 z : u32 z mod 512 = z mod 512.
Proof.
  unfold u32. change (2 ^ 32) with (512 * 2 ^ 23). rewrite Z.rem_mul_r by lia.
  rewrite Z.mul_comm, Z.mod_add, Z.mod_mod by lia. done.
Qed.

Lemma u32_idemp_l a b : u32 (u32 a + b) = u32 (a + b).
Proof. unfold u32. apply Zplus_mod_idemp_l. Qed.

Lemma pipe_len_range p : 0 <= pipe_len p < 2 ^ 32.
Proof. apply u32_range. Qed.

Lemma queue_length p : Z.of_nat (length (queue p)) = pipe_len p.
Proof. unfold queue. rewrite length_fmap, length_seqZ. pose proof (pipe_len_range p). lia. Qed.

(** The tests that the code makes. *)
Lemma pipe_full p : pipe_ok p -> (pi_nwrite p =? u32 (pi_nread p + PIPESIZE)) = (pipe_len p =? PIPESIZE).
Proof.
  intros [_ Hr Hw Hl]. unfold pipe_len, u32, PIPESIZE in *. apply eq_true_iff_eq. rewrite !Z.eqb_eq. split; intros E.
  - rewrite E. rewrite Zminus_mod_idemp_l. replace (pi_nread p + 512 - pi_nread p) with 512 by lia. done.
  - rewrite <- E. rewrite Zplus_mod_idemp_r. replace (pi_nread p + (pi_nwrite p - pi_nread p)) with (pi_nwrite p) by lia.
    by rewrite Z.mod_small.
Qed.

Lemma pipe_empty p : pipe_ok p -> (pi_nread p =? pi_nwrite p) = (pipe_len p =? 0).
Proof.
  intros [_ Hr Hw _]. unfold pipe_len, u32. apply eq_true_iff_eq. rewrite !Z.eqb_eq. split; intros E.
  - rewrite E, Z.sub_diag. done.
  - apply Z.mod_divide in E as [q E]; lia.
Qed.

Lemma pipe_nwrite p : pipe_ok p -> pi_nwrite p = u32 (pi_nread p + pipe_len p).
Proof.
  intros [_ Hr Hw _]. unfold pipe_len, u32. rewrite Zplus_mod_idemp_r.
  replace (pi_nread p + (pi_nwrite p - pi_nread p)) with (pi_nwrite p) by lia. by rewrite Z.mod_small.
Qed.

Lemma enqueue_len c p : pipe_ok p -> pipe_len p < PIPESIZE -> pipe_len (enqueue c p) = pipe_len p + 1.
Proof.
  intros Hok Hl. pose proof (pipe_len_range p) as Hp. unfold PIPESIZE in *. unfold pipe_len at 1, enqueue. simpl.
  unfold u32 at 1 2. rewrite Zminus_mod_idemp_l.
  replace (pi_nwrite p + 1 - pi_nread p) with (pi_nwrite p - pi_nread p + 1) by lia.
  rewrite <- Zplus_mod_idemp_l. change ((pi_nwrite p - pi_nread p) mod 2 ^ 32) with (pipe_len p). apply Z.mod_small. lia.
Qed.

Lemma enqueue_ok c p : pipe_ok p -> pipe_len p < PIPESIZE ->
  pipe_ok (enqueue c p) /\ queue (enqueue c p) = queue p ++ [c].
Proof.
  intros Hok Hl. pose proof (enqueue_len c p Hok Hl) as El. pose proof (pipe_len_range p) as Hp. pose proof Hok as [Hd Hr Hw _].
  split; [split; simpl; [by rewrite length_insert|done|apply u32_range|lia]|].
  unfold queue. rewrite El, seqZ_app, fmap_app by lia. f_equal.
  - apply list_fmap_ext. intros i j Hj. apply lookup_seqZ in Hj as [-> Hj]. unfold enqueue. simpl.
    rewrite list_lookup_insert_ne; [done|]. rewrite (pipe_nwrite p Hok). unfold PIPESIZE in *. rewrite u32_mod_512.
    pose proof (Z.mod_pos_bound (pi_nread p + pipe_len p) 512 ltac:(lia)). pose proof (Z.mod_pos_bound (pi_nread p + (0 + Z.of_nat i)) 512 ltac:(lia)).
    intros E. apply Z2Nat.inj in E; [|lia|lia]. Z.div_mod_to_equations. lia.
  - simpl. f_equal. unfold enqueue. simpl. rewrite (pipe_nwrite p Hok) at 1. unfold PIPESIZE. rewrite u32_mod_512.
    replace (pi_nread p + (0 + pipe_len p)) with (pi_nread p + pipe_len p) by lia.
    rewrite list_lookup_insert_eq; [done|]. rewrite Hd. unfold PIPESIZE. pose proof (Z.mod_pos_bound (pi_nread p + pipe_len p) 512 ltac:(lia)). lia.
Qed.

Lemma dequeue_ok p : pipe_ok p -> 0 < pipe_len p ->
  exists c, pi_data p !! Z.to_nat (pi_nread p mod PIPESIZE) = Some c /\ pipe_ok (dequeue p) /\ queue p = c :: queue (dequeue p).
Proof.
  intros Hok Hl. pose proof Hok as [Hd Hr Hw Hle]. pose proof (pipe_len_range p) as Hp.
  destruct (lookup_lt_is_Some_2 (pi_data p) (Z.to_nat (pi_nread p mod PIPESIZE))) as [c Ec].
  { rewrite Hd. unfold PIPESIZE. pose proof (Z.mod_pos_bound (pi_nread p) 512 ltac:(lia)). lia. }
  assert (El : pipe_len (dequeue p) = pipe_len p - 1).
  { unfold pipe_len at 1, dequeue. simpl. unfold u32. rewrite Zminus_mod_idemp_r.
    replace (pi_nwrite p - (pi_nread p + 1)) with (pi_nwrite p - pi_nread p - 1) by lia.
    rewrite <- Zminus_mod_idemp_l. change ((pi_nwrite p - pi_nread p) mod 2 ^ 32) with (pipe_len p). apply Z.mod_small. lia. }
  exists c. split; [done|]. split; [split; simpl; [done|apply u32_range|done|lia]|].
  unfold queue. rewrite El, (seqZ_cons 0) by lia. rewrite fmap_cons, Z.add_0_r, Ec. f_equal.
  rewrite <- Z.add_1_r, Z.add_0_l. change 1 with (0 + 1) at 2. rewrite <- (fmap_add_seqZ 1 0), <- list_fmap_compose.
  apply list_fmap_ext. intros i j Hj. simpl. unfold PIPESIZE. do 3 f_equal.
  rewrite <- (Zplus_mod_idemp_l (u32 _)), u32_mod_512, Zplus_mod_idemp_l. f_equal. lia.
Qed.

(** * The operations *)

Section Ops.
Context {LS : LinkerSymbols} {LY : Layout} (pi : Z) (me : nat) (pid : Z) (x : proc).

(** [k] with the pipe in state [p]. *)
Definition pipe_to p k : kernel := set_k_pipes (<[pi := p]> (k_pipes k)) k.

Lemma pipe_to_data p : data_only (pipe_to p).
Proof. done. Qed.

Lemma pipe_to_to p q k : pipe_to q (pipe_to p k) = pipe_to q k.
Proof. unfold pipe_to. simpl. by rewrite insert_insert_eq. Qed.

Lemma pipe_to_lookup p k : k_pipes (pipe_to p k) !! pi = Some p.
Proof. apply lookup_insert_eq. Qed.

Lemma get_pipe_run p k : get_pipe pi (pipe_to p k) = Ret p (pipe_to p k).
Proof. unfold get_pipe, bind, gets. cbn [obind]. by rewrite pipe_to_lookup. Qed.

Lemma upd_pipe_run g p k : upd_pipe pi g (pipe_to p k) = Ret tt (pipe_to (g p) k).
Proof.
  unfold upd_pipe, modify. f_equal. rewrite <- (pipe_to_to p (g p) k). unfold pipe_to at 1 3. f_equal.
  apply map_eq. intros j. destruct (decide (j = pi)) as [->|].
  - rewrite lookup_alter_eq. unfold pipe_to. simpl. by rewrite !lookup_insert_eq.
  - rewrite lookup_alter_ne by done. unfold pipe_to. simpl. by rewrite !lookup_insert_ne by done.
Qed.

(** The process and its user memory as seen inside the critical section of the pipe. *)
Record in_pipe (k : kernel) : Prop := {
  ii_thread : running k me pid;
  ii_relax : relax k = k;
  ii_proc : k_procs k !! me = Some x;
  ii_sz : 0 <= p_sz x < 2 ^ 64;
}.

Lemma in_pipe_to p k : in_pipe k -> in_pipe (pipe_to p k).
Proof. intros [T R P S]. split; try done; [by apply (running_ext k)|]. by rewrite (data_only_relax _ _ (pipe_to_data p)), R. Qed.

Lemma killed_run k : in_pipe k -> killed me k = Ret (p_killed x) k.
Proof.
  intros [T R P S]. unfold killed. pose proof (running_cpu_ok _ _ _ T) as Hok.
  assert (Hf : lock_free k (LProc me)).
  { apply (ru_free _ _ _ T). apply lookup_lt_Some in P. by rewrite (ru_len _ _ _ T) in P. }
  rewrite (bind_run _ _ _ _ _ (acquire_run k _ Hok Hf)), (bind_run _ _ _ _ _ (get_proc_run (enter (LProc me) k) me x P)).
  rewrite (bind_run _ _ _ _ _ (release_upd k (LProc me) id Hok Hf ltac:(done))). unfold ret, id. by rewrite R.
Qed.

Lemma vload8_ext k k' va b : k_mem k' = k_mem k -> h_satp (k_hart k') = h_satp (k_hart k) -> vload8 va k = Ret b k -> vload8 va k' = Ret b k'.
Proof.
  intros Em Es. unfold vload8, bind, gets. cbn [obind]. assert (translate k' va = translate k va) as ->.
  { unfold translate. by rewrite Em, Es. }
  destruct (translate k va) as [pa|]; [|done]. unfold kload, gets. destruct (in_ram pa (Z.of_nat 1)); [|done].
  rewrite Em. intros H. by injection H as ->.
Qed.

(** The byte of user memory at [va], below the size of the process. *)
Definition user_byte (k : kernel) (va b : Z) : Prop := 0 <= va < p_sz x /\ vload8 va k = Ret b k.

Lemma copyin_byte k pt va b : in_pipe k -> user_byte k va b -> copyin pt va 1 k = Ret (0, [b]) k.
Proof.
  intros [T R P S] [Hva Hb]. destruct (ru_cpu _ _ _ T) as (i & c & OC & Ec). unfold copyin, copyin_new.
  rewrite (bind_run _ _ _ _ _ (curproc_run _ _ _ _ OC Ec)), R, (bind_run _ _ _ _ _ (get_proc_run _ _ _ P)).
  rewrite u64_small by lia. rewrite (proj2 (Z.leb_gt _ _)), (proj2 (Z.ltb_ge (p_sz x) _)), (proj2 (Z.ltb_ge (va + 1) va)) by lia.
  cbn [orb]. change (Z.to_nat (u32 1)) with 1%nat. cbn [vload_bytes].
  erewrite bind_run; [done|]. rewrite (bind_run _ _ _ _ _ Hb). done.
Qed.

(** The queue after the bytes have gone in one by one. *)
Definition enqueue_all (bs : list Z) p : pipe := foldl (fun p c => enqueue c p) p bs.

Lemma enqueue_all_ok bs : forall p, pipe_ok p -> pipe_len p + Z.of_nat (length bs) <= PIPESIZE ->
  pipe_ok (enqueue_all bs p) /\ queue (enqueue_all bs p) = queue p ++ bs /\
  pi_readopen (enqueue_all bs p) = pi_readopen p /\ pi_writeopen (enqueue_all bs p) = pi_writeopen p.
Proof.
  induction bs as [|c bs IH]; intros p Hok Hl; [simpl; by rewrite app_nil_r|]. simpl in Hl.
  destruct (enqueue_ok c p Hok) as [Hok' Hq]; [lia|]. pose proof (enqueue_len c p Hok ltac:(lia)) as El.
  change (enqueue_all (c :: bs) p) with (enqueue_all bs (enqueue c p)).
  destruct (IH (enqueue c p) Hok' ltac:(lia)) as (H1 & H2 & H3). split; [done|]. split; [|done].
  rewrite H2, Hq, <- app_assoc. done.
Qed.

Lemma pipewrite_loop_run k addr bs : in_pipe k -> p_killed x = 0 -> forall p i fuel,
  pipe_ok p -> pi_readopen p <> 0 -> pipe_len p + Z.of_nat (length bs) <= PIPESIZE -> (length bs < fuel)%nat ->
  0 <= addr + i -> (forall j b, bs !! j = Some b -> user_byte k (addr + i + Z.of_nat j) b) ->
  pipewrite_loop fuel me pi addr i (i + Z.of_nat (length bs)) (pipe_to p k) =
    Ret (Some (i + Z.of_nat (length bs))) (pipe_to (enqueue_all bs p) k).
Proof.
  intros I Hk. induction bs as [|c bs IH]; intros p i fuel Hok Hro Hl Hf Ha Hub; (destruct fuel as [|fuel]; [simpl in Hf; lia|]); cbn [pipewrite_loop].
  - simpl. rewrite Z.add_0_r, Z.ltb_irrefl. done.
  - cbn [length] in *. rewrite (proj2 (Z.ltb_lt i (i + Z.of_nat (S (length bs))))) by lia. rewrite (bind_run _ _ _ _ _ (get_pipe_run p k)).
    rewrite (proj2 (Z.eqb_neq _ _) Hro). pose proof (in_pipe_to p k I) as Ip.
    rewrite (bind_run _ _ _ _ _ (killed_run _ Ip)), Hk. cbn [Z.eqb negb]. rewrite (bind_run _ _ _ _ _ (get_pipe_run p k)).
    rewrite (pipe_full p Hok), (proj2 (Z.eqb_neq _ _)) by lia. rewrite (bind_run _ _ _ _ _ (get_proc_run _ _ _ (ii_proc _ Ip))).
    destruct (Hub 0%nat c eq_refl) as [Hva Hld]. rewrite Z.add_0_r in Hva, Hld. rewrite u64_small by (pose proof (ii_sz _ I); lia).
    rewrite (bind_run _ _ _ _ _ (copyin_byte _ _ _ c Ip (conj Hva (vload8_ext k (pipe_to p k) _ _ eq_refl eq_refl Hld)))).
    cbv beta iota. cbn [Z.eqb]. unfold need, lookup. cbn [list_lookup]. rewrite bind_ret.
    rewrite (bind_run _ _ _ _ _ (upd_pipe_run _ p k)), (bind_run _ _ _ _ _ (upd_pipe_run _ _ k)).
    destruct (enqueue_ok c p Hok ltac:(lia)) as [Hok' _]. pose proof (enqueue_len c p Hok ltac:(lia)) as El.
    specialize (IH (enqueue c p) (i + 1) fuel Hok' Hro ltac:(lia) ltac:(lia) ltac:(lia)).
    replace (i + Z.of_nat (S (length bs))) with (i + 1 + Z.of_nat (length bs)) by lia. apply IH.
    intros j b Hj. specialize (Hub (S j) b Hj). by replace (addr + (i + 1) + Z.of_nat j) with (addr + i + Z.of_nat (S j)) by lia.
Qed.

(** copyout() of one byte to a writable user page, with the pipe in any state. *)
Lemma copyout_byte k root sh l p va c :
  in_pipe k -> pt_pre k root sh l -> user_pages (k_mem k) sh l -> 0 <= va < MAXVA ->
  user_writable (pte_at (k_mem k) sh va) = true ->
  exists m h, copyout root va [c] 1 (pipe_to p k) = Ret 0 (pipe_to p (set_mm m h k)) /\ user_write k (set_mm m h k) root sh l va [c].
Proof.
  intros I [[Hok Hkm] P2 P3 P4] U Hva Hw. pose proof (in_pipe_to p k I) as Ip. pose proof MAXVA_lt.
  assert (Pp : pt_pre (pipe_to p k) root sh l) by (split; try done; split; [eapply running_cpu_ok, Ip|done]).
  destruct (copyout_run (pipe_to p k) root sh l va [c] Pp U ltac:(lia)) as (r & k' & bs & rest & E & Hs & W & _ & Hr).
  assert (bs = [c] /\ r = 0) as [-> ->].
  { destruct bs as [|b [|b' bs]]; simplify_eq/=.
    - destruct Hr as [[_ ?]|(_ & _ & Hbad)]; [done|]. rewrite Z.add_0_r in Hbad. destruct Hbad as [|Hbad]; [lia|].
      change (k_mem (pipe_to p k)) with (k_mem k) in Hbad. congruence.
    - destruct Hr as [[? _]|(_ & ? & _)]; done. }
  destruct W as [[(m & h & Ho) U2 U3 U4 U5 U6 U7 U8] B]. rewrite (ii_relax _ Ip) in Ho.
  assert (k' = set_mm m h (pipe_to p k)) as -> by (by destruct Ho). exists m, h. split; [exact E|].
  split; [split; try done|done]. exists m, h. by left.
Qed.

Definition dequeue_n (n : nat) p : pipe := Nat.iter n dequeue p.

Lemma dequeue_n_ok n : forall p, pipe_ok p -> Z.of_nat n <= pipe_len p ->
  pipe_ok (dequeue_n n p) /\ queue (dequeue_n n p) = drop n (queue p) /\
  pi_readopen (dequeue_n n p) = pi_readopen p /\ pi_writeopen (dequeue_n n p) = pi_writeopen p.
Proof.
  induction n as [|n IH]; intros p Hok Hn; [done|]. destruct (IH p Hok ltac:(lia)) as (H1 & H2 & H3).
  assert (Hl : 0 < pipe_len (dequeue_n n p)).
  { rewrite <- queue_length, H2, length_drop. pose proof (queue_length p). lia. }
  destruct (dequeue_ok _ H1 Hl) as (c & _ & H4 & H5). split; [done|]. split; [|done].
  change (dequeue_n (S n) p) with (dequeue (dequeue_n n p)).
  rewrite <- Nat.add_1_r, <- drop_drop, <- H2, H5. done.
Qed.

Lemma set_mm_in_pipe m h k : in_pipe k -> in_pipe (set_mm m h k).
Proof. intros [T R P S]. split; try done; [by apply (running_ext k)|]. by rewrite relax_set_mm, R. Qed.

Lemma piperead_loop_run k root sh l addr n p :
  in_pipe k -> pt_pre k root sh l -> user_pages (k_mem k) sh l -> p_pagetable x = root -> pipe_ok p ->
  0 <= addr -> addr + n <= MAXVA -> (forall va, addr <= va < addr + n -> user_writable (pte_at (k_mem k) sh va) = true) ->
  forall fuel j m h, (j <= Z.to_nat n)%nat -> Z.of_nat j <= pipe_len p -> (Z.to_nat n - j < fuel)%nat -> 0 <= n ->
  user_write k (set_mm m h k) root sh l addr (take j (queue p)) ->
  exists m' h', let c := Z.min n (pipe_len p) in
    piperead_loop fuel me pi addr (Z.of_nat j) n (pipe_to (dequeue_n j p) (set_mm m h k)) =
      Ret c (pipe_to (dequeue_n (Z.to_nat c) p) (set_mm m' h' k)) /\
    user_write k (set_mm m' h' k) root sh l addr (take (Z.to_nat c) (queue p)).
Proof.
  intros I Pp U Hroot Hok Ha Hend Hwr. induction fuel as [|fuel IH]; intros j m h Hj Hjl Hf Hn W; [lia|]. cbn [piperead_loop].
  pose proof (queue_length p) as Hq. destruct (dequeue_n_ok j p Hok Hjl) as (Okj & Qj & _).
  assert (Hlj : pipe_len (dequeue_n j p) = pipe_len p - Z.of_nat j) by (rewrite <- queue_length, Qj, length_drop; lia).
  destruct (Z.ltb_spec (Z.of_nat j) n) as [Hlt|Hge].
  - rewrite (bind_run _ _ _ _ _ (get_pipe_run _ _)), (pipe_empty _ Okj). destruct (Z.eqb_spec (pipe_len (dequeue_n j p)) 0) as [E|Hne].
    + exists m, h. replace (Z.min n (pipe_len p)) with (Z.of_nat j) by lia. cbv zeta. by rewrite Nat2Z.id.
    + destruct (dequeue_ok _ Okj ltac:(pose proof (pipe_len_range (dequeue_n j p)); lia)) as (c & Ec & _ & Hc).
      rewrite Ec. rewrite (bind_run _ _ _ _ _ (eq_refl : need "pi->data[]" (Some c) (pipe_to _ _) = Ret c _)).
      rewrite (bind_run _ _ _ _ _ (upd_pipe_run _ _ _)). change (set_pi_nread _ (dequeue_n j p)) with (dequeue_n (S j) p).
      set (kj := set_mm m h k) in *. pose proof (set_mm_in_pipe m h k I) as Ij. fold kj in Ij.
      rewrite (bind_run _ _ _ _ _ (get_proc_run _ _ _ (ii_proc _ (in_pipe_to (dequeue_n (S j) p) _ Ij)))), Hroot.
      destruct W as [Wu Wb]. pose proof (user_pages_upd _ _ _ _ _ _ Wu U) as Uj. pose proof MAXVA_lt.
      assert (Ppj : pt_pre kj root sh l).
      { destruct Wu as [_ V2 V3 V4 _ _ _ _]. split; try done. apply mm_ready_set_mm, Pp. }
      assert (Hwj : user_writable (pte_at (k_mem kj) sh (addr + Z.of_nat j)) = true).
      { rewrite (pu_pte _ _ _ _ _ _ _ _ _ Wu) by lia. apply Hwr. lia. }
      rewrite u64_small by lia.
      destruct (copyout_byte kj root sh l (dequeue_n (S j) p) (addr + Z.of_nat j) c Ij Ppj Uj ltac:(lia) Hwj) as (m2 & h2 & E2 & W2).
      rewrite (bind_run _ _ _ _ _ E2). cbn [Z.eqb]. change (set_mm m2 h2 kj) with (set_mm m2 h2 k) in *.
      assert (Htk : take (S j) (queue p) = take j (queue p) ++ [c]).
      { apply take_S_r. rewrite Qj in Hc. rewrite <- (Nat.add_0_r j), <- lookup_drop, Hc. done. }
      destruct (IH (S j) m2 h2) as (m' & h' & E' & W'); [lia|lia|lia|lia| |].
      * rewrite Htk. eapply user_write_app; [lia|by split|rewrite length_take; by replace (Z.of_nat (j `min` length (queue p))) with (Z.of_nat j) by lia|].
        rewrite length_take. simpl. lia.
      * exists m', h'. replace (Z.of_nat j + 1) with (Z.of_nat (S j)) by lia. done.
  - exists m, h. replace (Z.min n (pipe_len p)) with (Z.of_nat j) by lia. cbv zeta. by rewrite Nat2Z.id.
Qed.

(** * pipewrite() and piperead() *)

(** A process that calls them. *)
Record at_pipe (k : kernel) p : Prop := {
  ap_thread : running k me pid;
  ap_lock : lock_free k (LPipe pi);
  ap_pipe : k_pipes k !! pi = Some p;
  ap_ok : pipe_ok p;
  ap_proc : k_procs k !! me = Some x;
  ap_sz : 0 <= p_sz x < 2 ^ 64;
}.

(** The processes that sleep on [chan] woken up. *)
Definition woken (chan : chanid) (k : kernel) : kernel := set_procs (imap (wake (Some me) (Some chan)) (k_procs k)) k.

Lemma pipe_to_id p k : k_pipes k !! pi = Some p -> pipe_to p k = k.
Proof. intros E. unfold pipe_to. rewrite insert_id by done. by destruct k. Qed.

Lemma at_pipe_enter k p : at_pipe k p ->
  (forall {A} (c : nat -> K A), (let! pr := curproc in do! acquire (LPipe pi); c pr) k = c me (pipe_to p (enter (LPipe pi) (relax k)))) /\
  running (enter (LPipe pi) (relax k)) me pid /\ relax (enter (LPipe pi) (relax k)) = enter (LPipe pi) (relax k).
Proof.
  intros [T Hl Hp Hok Hx Hs]. destruct (ru_cpu _ _ _ T) as (i & c & OC & Ec). pose proof (running_relax _ _ _ T) as Tr.
  pose proof (running_cpu_ok _ _ _ Tr) as Hokr. split; [|split].
  - intros A f. rewrite (bind_run _ _ _ _ _ (curproc_run _ _ _ _ OC Ec)), (bind_run _ _ _ _ _ (acquire_run (relax k) (LPipe pi) Hokr Hl)).
    by rewrite (pipe_to_id p).
  - by apply running_enter.
  - by apply relax_enter.
Qed.

(** The wakeup and the release at the end. *)
Lemma pipe_leave {A} k g chan (a : A) :
  running k me pid -> lock_free k (LPipe pi) -> data_only g ->
  (forall k0, k_procs (g k0) = k_procs k0) -> (forall k0, running k0 me pid -> running (g k0) me pid) ->
  (do! wakeup chan; do! release (LPipe pi); ret a) (g (enter (LPipe pi) (relax k))) = Ret a (woken chan (g (relax k))).
Proof.
  intros T Hl Hg Hprocs Hth. pose proof (running_relax _ _ _ T) as Tr. pose proof (running_cpu_ok _ _ _ Tr) as Hok.
  set (ke := enter (LPipe pi) (relax k)). assert (Te : running ke me pid) by (by apply running_enter).
  pose proof (wakeup_run (g ke) (Some me) (Some chan) (running_wake_ready _ _ _ (Hth _ Te))) as Ew. unfold wakeup.
  rewrite (bind_run _ _ _ _ _ Ew), (data_only_relax _ _ Hg). unfold ke at 2. rewrite relax_enter by done.
  unfold woken. rewrite !Hprocs. change (k_procs (relax k)) with (k_procs k). change (k_procs ke) with (k_procs k).
  set (f := fun k' => set_procs (imap (wake (Some me) (Some chan)) (k_procs k)) (g k')).
  assert (Hf : data_only f) by (intros h cs ls k'; unfold f; by rewrite Hg).
  pose proof (release_upd (relax k) (LPipe pi) f Hok Hl Hf) as Er. rewrite relax_idem in Er.
  unfold f in Er. by rewrite (bind_run _ _ _ _ _ Er).
Qed.


(** C31. piperead() of a pipe that has data or no writer takes min(n, length of the queue) bytes from the front of the queue, in
    order, stores them in the user's memory at [addr], which is otherwise unchanged, wakes the writers and returns their number:
    0 only for an empty pipe without writers (or n = 0). *)
Theorem piperead_correct k p root sh l addr n :
  at_pipe k p -> pt_pre k root sh l -> user_pages (k_mem k) sh l -> p_pagetable x = root ->
  0 <= addr -> 0 <= n -> addr + n <= MAXVA -> (forall va, addr <= va < addr + n -> user_writable (pte_at (k_mem k) sh va) = true) ->
  0 < pipe_len p \/ pi_writeopen p = 0 ->
  let c := Z.min n (pipe_len p) in
  exists m h k' p', piperead pi addr n k = Ret c k' /\ k' = woken (ChPipeWrite pi) (pipe_to p' (set_mm m h (relax k))) /\
    pipe_ok p' /\ queue p' = drop (Z.to_nat c) (queue p) /\
    user_write k (set_mm m h k) root sh l addr (take (Z.to_nat c) (queue p)).
Proof.
  intros A Pp U Hroot Ha Hn Hend Hwr Hdata c. destruct (at_pipe_enter k p A) as (Eent & Te & Re). pose proof A as [T Hl Hp Hok Hx Hsz].
  set (ke := enter (LPipe pi) (relax k)) in *. unfold piperead. rewrite Eent. clear Eent. assert (I : in_pipe ke) by (by split).
  assert (Ew : piperead_wait sleep_rounds me pi (pipe_to p ke) = Ret true (pipe_to p ke)).
  { change sleep_rounds with (S 999). generalize 999%nat. intros fuel. cbn [piperead_wait].
    rewrite (bind_run _ _ _ _ _ (get_pipe_run p ke)), (pipe_empty p Hok).
    destruct Hdata as [Hd|Hd]; [by rewrite (proj2 (Z.eqb_neq (pipe_len p) 0)) by lia|by rewrite Hd, andb_false_r]. }
  rewrite (bind_run _ _ _ _ _ Ew). cbn [negb].
  assert (Ppe : pt_pre ke root sh l).
  { destruct Pp as [[_ P1] P2 P3 P4]. split; try done. split; [by eapply running_cpu_ok|]. destruct P1 as [nm E]. exists nm. simpl. by rewrite lookup_alter_ne. }
  destruct (piperead_loop_run ke root sh l addr n p I Ppe U Hroot Hok Ha Hend Hwr (S (Z.to_nat n)) 0 (k_mem ke) (mm_freelist (k_mm ke)))
    as (m & h & E & W); [lia|simpl; pose proof (pipe_len_range p); lia|lia|done| |].
  { replace (set_mm _ _ ke) with ke by (by destruct k as [? ? ? [] ? ? ? ? ? ? ? ? ? ? ? ? ? ? ? ? ?]). by apply user_write_nil. }
  fold c in E, W. replace (set_mm (k_mem ke) _ ke) with ke in E by (by destruct k as [? ? ? [] ? ? ? ? ? ? ? ? ? ? ? ? ? ? ? ? ?]).
  change (dequeue_n 0 p) with p in E. change (Z.of_nat 0) with 0 in E. exists m, h, (woken (ChPipeWrite pi) (pipe_to (dequeue_n (Z.to_nat c) p) (set_mm m h (relax k)))), (dequeue_n (Z.to_nat c) p).
  pose proof (pipe_len_range p). destruct (dequeue_n_ok (Z.to_nat c) p Hok ltac:(lia)) as (H1 & H2 & _).
  split; [|split; [done|split; [done|split; [done|]]]].
  - rewrite (bind_run _ _ _ _ _ E). apply (pipe_leave k (fun k0 => pipe_to (dequeue_n (Z.to_nat c) p) (set_mm m h k0)) (ChPipeWrite pi)); try done.
    intros k0 T0. by apply (running_ext k0).
  - destruct W as [[(m1 & h1 & Ho) V2 V3 V4 V5 V6 V7 V8] B]. split; [split; try done|done]. exists m, h. by left.
Qed.
End Ops.

(** * Concrete instances *)

(** A pipe whose counters are about to wrap around: two bytes, 7 and 8, in the last and the first place. *)
Definition pipe_sample : pipe :=
  mkPipe (<[511%nat := 7]> (8 :: replicate 511 0)) (2 ^ 32 - 1) 1 1 1.

Lemma pipe_sample_ok : pipe_ok pipe_sample /\ pipe_len pipe_sample = 2 /\ queue pipe_sample = [7; 8].
Proof. split; [split; by vm_compute|split; by vm_compute]. Qed.

Definition pipe_proc : proc := set_p_pagetable 0x80030000 (set_p_sz 0x80100000 no_proc).

(** Process 3 runs; its page table maps user page 0, and the bytes 5, 6 are in memory. *)
Definition pipe_state : kernel :=
  set_k_pipes {[0x80040000 := pipe_sample]}
    (set_k_locks (<[LPipe 0x80040000 := mkSpinlock 0 "pipe" None]> (<[LKmem := mkSpinlock 0 "kmem" None]> proc_locks))
      (set_k_ptable (set_pt_procs (alter (fun _ => pipe_proc) 3%nat (pt_procs (k_ptable boot))) (k_ptable boot))
        (set_k_cpus (alter (set_c_proc (Some 3%nat)) 0%nat (k_cpus boot))
          (set_k_mm (k_mm sample_k) boot)))).

Lemma pipe_state_locks : k_locks pipe_state =
  <[LPipe 0x80040000 := mkSpinlock 0 "pipe" None]> (<[LKmem := mkSpinlock 0 "kmem" None]> proc_locks).
Proof. done. Qed.

Lemma pipe_state_at : at_pipe 0x80040000 3 0 pipe_proc pipe_state pipe_sample.
Proof.
  split; [|exists "pipe"; by rewrite pipe_state_locks, lookup_insert_eq|apply lookup_insert_eq|apply pipe_sample_ok|by vm_compute|simpl; lia].
  split; [exists 0%nat, (mkCpu (Some 3%nat) no_context 0 0); by split|by vm_compute|by vm_compute|].
  intros j Hj. exists "proc". rewrite pipe_state_locks, !lookup_insert_ne by done. by apply proc_locks_lookup.
Qed.

Lemma pipe_state_pre : pt_pre pipe_state 0x80030000 sample_shu [0x80023000; 0x80024000].
Proof.
  destruct sample_user_pre as [_ P2 P3 P4]. split; [|exact P2|exact P3|exact P4]. split.
  - exists 0%nat, (mkCpu (Some 3%nat) no_context 0 0). by split.
  - exists "kmem". by rewrite pipe_state_locks, lookup_insert_ne, lookup_insert_eq.
Qed.

(** Paging is off, and that memory is zero. *)
Lemma pipe_state_load va : in_ram va 1 = true -> ldn 1 sample_mem va = 0 -> vload8 va pipe_state = Ret 0 pipe_state.
Proof.
  intros Hr Hv. assert (E : translate pipe_state va = Some va) by reflexivity. unfold vload8, bind, gets. cbn [obind]. rewrite E.
  unfold kload. change (Z.of_nat 1) with 1. rewrite Hr. unfold gets. change (k_mem pipe_state) with sample_mem. by rewrite Hv.
Qed.


Lemma piperead_correct_witness :
  exists m h k' p', piperead 0x80040000 16 5 pipe_state = Ret 2 k' /\ k_pipes k' !! 0x80040000 = Some p' /\ queue p' = [] /\
    vbyte m sample_shu 16 = 7 /\ vbyte m sample_shu 17 = 8 /\ k_mm k' = mkMm m h.
Proof.
  destruct (piperead_correct 0x80040000 3 0 pipe_proc pipe_state pipe_sample 0x80030000 sample_shu [0x80023000; 0x80024000] 16 5
    pipe_state_at pipe_state_pre sample_user_pages) as (m & h & k' & p' & E & Hk & _ & Hq & W).
  - reflexivity.
  - lia.
  - lia.
  - by vm_compute.
  - intros va Hva. change (k_mem pipe_state) with sample_mem. rewrite sample_pte by lia. by vm_compute.
  - left. rewrite (proj1 (proj2 pipe_sample_ok)). lia.
  - rewrite (proj1 (proj2 pipe_sample_ok)) in *. change (Z.min 5 2) with 2 in *. exists m, h, k', p'. split; [exact E|].
    split; [rewrite Hk; apply lookup_insert_eq|]. split; [rewrite Hq, (proj2 (proj2 pipe_sample_ok)); reflexivity|].
    rewrite (proj2 (proj2 pipe_sample_ok)) in W. change (take (Z.to_nat 2) [7; 8]) with [7; 8] in W.
    pose proof (uw_byte _ _ _ _ _ _ _ W) as B. change (k_mem pipe_state) with sample_mem in B. change (k_mem (set_mm m h pipe_state)) with m in B.
    assert (Hw : forall va, 0 <= va < 4096 -> user_writable (pte_at sample_mem sample_shu va) = true).
    { intros va Hva. rewrite sample_pte by lia. by vm_compute. }
    assert (HM : 4096 < MAXVA) by (by vm_compute).
    split; [rewrite (B 16 ltac:(lia) (Hw 16 ltac:(lia))), decide_True by (simpl; lia); reflexivity|].
    split; [rewrite (B 17 ltac:(lia) (Hw 17 ltac:(lia))), decide_True by (simpl; lia); reflexivity|]. rewrite Hk. reflexivity.
Defined.
