(* ===== verification/File.v ===== *)
(** kernel/file.c: the table of open files, and pipealloc() of kernel/pipe.c. *)

From Stdlib Require Import ZArith Lia.
From stdpp Require Import base gmap list_numbers strings numbers list.
From S2P Require Import Prelude Mem Riscv Kernel Spinlock Kalloc Vm Printf Sched Sleeplock Virtio Bio Log Fs.
From S2P Require Import Console Pipe.

Open Scope Z_scope.

Definition get_file (f : nat) : K file :=
  let! o := gets (fun k => k_ftable k !! f) in need "ftable.file[]" o.
Definition upd_file (f : nat) (g : file -> file) : K unit :=
  modify (fun k => set_k_ftable (alter g f (k_ftable k)) k).

Section File.
Context `{LinkerSymbols} `{BlockDevice}.

Definition fileinit : K unit := initlock LFtable "ftable".

Definition filealloc : K (option nat) :=
  do! acquire LFtable;
  let! r := foreach (seq 0 (Z.to_nat NFILE)) (fun f =>
    let! x := get_file f in
    if f_ref x =? 0 then
      do! upd_file f (set_f_ref 1);
      do! release LFtable;
      ret (Some f)
    else ret None) in
  match r with
  | Some f => ret (Some f)
  | None => do! release LFtable; ret None
  end.

Definition filedup (f : nat) : K nat :=
  do! acquire LFtable;
  let! x := get_file f in
  if f_ref x <? 1 then panic "filedup" else
  do! upd_file f (fun x => set_f_ref (f_ref x + 1) x);
  do! release LFtable;
  ret f.

Definition fileclose (f : nat) : K unit :=
  do! acquire LFtable;
  let! x := get_file f in
  if f_ref x <? 1 then panic "fileclose" else
  do! upd_file f (fun x => set_f_ref (f_ref x - 1) x);
  let! x := get_file f in
  if 0 <? f_ref x then release LFtable else
  let ff := x in
  do! upd_file f (set_f_ref 0);
  do! upd_file f (set_f_type FD_NONE);
  do! release LFtable;
  match f_type ff with
  | FD_PIPE => pipeclose (f_pipe ff) (negb (f_writable ff =? 0))
  | FD_INODE | FD_DEVICE =>
      do! begin_op;
      let! ip := need "ff.ip" (f_ip ff) in
      do! iput ip;
      end_op
  | FD_NONE => ret tt
  end.

(** struct stat as it is copied out: 24 bytes, with four bytes of padding
    (which C leaves undefined) before size. *)
Definition stat_bytes (st : stat) : list Z :=
  le_bytes 4 (st_dev st) ++ le_bytes 4 (st_ino st) ++ le_bytes 2 (st_type st) ++
  le_bytes 2 (st_nlink st) ++ replicate 4 0 ++ le_bytes 8 (st_size st).

Definition filestat (f : nat) (addr : Z) : K Z :=
  let! p := curproc in
  let! x := get_file f in
  match f_type x with
  | FD_INODE | FD_DEVICE =>
      do! ilock (f_ip x);
      let! ip := need "f->ip" (f_ip x) in
      let! st := stati ip in
      do! iunlock (f_ip x);
      let! pr := get_proc p in
      let! r := copyout (p_pagetable pr) addr (stat_bytes st) 24 in
      if r <? 0 then ret (-1) else ret 0
  | _ => ret (-1)
  end.

(** devsw[f->major].read, .write *)
Definition get_devsw (major : Z) : K (option devsw) :=
  if (major <? 0) || (NDEV <=? major) then ret None
  else gets (fun k => k_devsw k !! Z.to_nat major).

Definition fileread (f : nat) (addr n : Z) : K Z :=
  let! x := get_file f in
  if f_readable x =? 0 then ret (-1) else
  match f_type x with
  | FD_PIPE => piperead (f_pipe x) addr n
  | FD_DEVICE =>
      let! d := get_devsw (f_major x) in
      match d with
      | Some (mkDevsw (Some dev_consoleread) _) => consoleread (ToUser addr) n
      | _ => ret (-1)
      end
  | FD_INODE =>
      do! ilock (f_ip x);
      let! ip := need "f->ip" (f_ip x) in
      let! x := get_file f in
      let! '(r, _) := readi ip (ToUser addr) (f_off x) (u32 n) in
      let r := i32 r in
      do! when (0 <? r) (upd_file f (fun x => set_f_off (u32 (f_off x + r)) x));
      do! iunlock (f_ip x);
      ret r
  | FD_NONE => panic "fileread"
  end.

(** int max = ((MAXOPBLOCKS-1-1-2) / 2) * BSIZE; *)
Definition write_max : Z := (MAXOPBLOCKS - 1 - 1 - 2) / 2 * BSIZE.

(** while(i < n); the result is i at the end. *)
Fixpoint filewrite_loop (fuel : nat) (f : nat) (addr i n : Z) : K Z :=
  match fuel with
  | O => nofuel
  | S fu =>
      if i <? n then
        let n1 := Z.min (n - i) write_max in
        do! begin_op;
        let! x := get_file f in
        do! ilock (f_ip x);
        let! ip := need "f->ip" (f_ip x) in
        let! r := writei ip (FromUser (u64 (addr + i))) (f_off x) n1 in
        let r := i32 r in
        do! when (0 <? r) (upd_file f (fun x => set_f_off (u32 (f_off x + r)) x));
        do! iunlock (f_ip x);
        do! end_op;
        if negb (r =? n1) then ret i else filewrite_loop fu f addr (i + r) n
      else ret i
  end.

Definition filewrite (f : nat) (addr n : Z) : K Z :=
  let! x := get_file f in
  if f_writable x =? 0 then ret (-1) else
  match f_type x with
  | FD_PIPE => pipewrite (f_pipe x) addr n
  | FD_DEVICE =>
      let! d := get_devsw (f_major x) in
      match d with
      | Some (mkDevsw _ (Some dev_consolewrite)) => consolewrite (FromUser addr) n
      | _ => ret (-1)
      end
  | FD_INODE =>
      let! i := filewrite_loop (S (Z.to_nat (n / write_max + 1))) f addr 0 n in
      ret (if i =? n then n else -1)
  | FD_NONE => panic "filewrite"
  end.

(** pipealloc(f0, f1) of pipe.c; kalloc() has filled the page with 5s. *)
Definition pipe_bad (pi : Z) (f0 f1 : option nat) : K (option (nat * nat)) :=
  do! when (negb (pi =? 0)) (kfree pi);
  do! match f0 with Some f => fileclose f | None => ret tt end;
  do! match f1 with Some f => fileclose f | None => ret tt end;
  ret None.

Definition pipealloc : K (option (nat * nat)) :=
  let! f0 := filealloc in
  match f0 with
  | None => pipe_bad 0 None None
  | Some r =>
      let! f1 := filealloc in
      match f1 with
      | None => pipe_bad 0 (Some r) None
      | Some w =>
          let! pi := kalloc in
          if pi =? 0 then pipe_bad 0 (Some r) (Some w) else
          do! modify (fun k => set_k_pipes
                (<[pi := mkPipe (replicate (Z.to_nat PIPESIZE) 5) 0 0 1 1]> (k_pipes k)) k);
          do! initlock (LPipe pi) "pipe";
          do! upd_file r (set_f_type FD_PIPE);
          do! upd_file r (set_f_readable 1);
          do! upd_file r (set_f_writable 0);
          do! upd_file r (set_f_pipe pi);
          do! upd_file w (set_f_type FD_PIPE);
          do! upd_file w (set_f_readable 0);
          do! upd_file w (set_f_writable 1);
          do! upd_file w (set_f_pipe pi);
          ret (Some (r, w))
      end
  end.

End File.
