(* ===== verification/ProcLife.v ===== *)
(** kernel/proc.c: the life of a process, from allocproc() to wait(). *)

From Stdlib Require Import ZArith Lia.
From stdpp Require Import base gmap list_numbers strings numbers list.
From S2P Require Import Prelude Mem Riscv Kernel Spinlock Kalloc Vm Printf Sched Sleeplock Virtio Bio Log Fs.
From S2P Require Import Console Pipe File.

Open Scope Z_scope.

(** * struct trapframe: the offsets of its fields *)

Definition TF_kernel_satp : Z := 0.
Definition TF_kernel_sp : Z := 8.
Definition TF_kernel_trap : Z := 16.
Definition TF_epc : Z := 24.
Definition TF_kernel_hartid : Z := 32.
Definition TF_sp : Z := 48.
Definition TF_a0 : Z := 112.
Definition TF_a1 : Z := 120.
Definition TF_a2 : Z := 128.
Definition TF_a3 : Z := 136.
Definition TF_a4 : Z := 144.
Definition TF_a5 : Z := 152.
Definition TF_a7 : Z := 168.
Definition trapframe_size : Z := 288.

(** p->trapframe->field *)
Definition tf_get (p : nat) (off : Z) : K Z :=
  let! pr := get_proc p in kload 8 (p_trapframe pr + off).
Definition tf_set (p : nat) (off v : Z) : K unit :=
  let! pr := get_proc p in kstore 8 (p_trapframe pr + off) v.

Section ProcLife.
Context `{LinkerSymbols} `{BlockDevice}.

Definition freeproc (p : nat) : K unit :=
  let! pr := get_proc p in
  do! when (negb (p_trapframe pr =? 0)) (kfree (p_trapframe pr));
  do! upd_proc p (set_p_trapframe 0);
  do! when (negb (p_pagetable pr =? 0) && negb (p_usyscall pr =? 0))
        (uvmunmap (p_pagetable pr) USYSCALL 1 false);
  do! when (negb (p_pagetable pr =? 0)) (proc_freepagetable (p_pagetable pr) (p_sz pr));
  do! upd_proc p (set_p_pagetable 0);
  do! when (negb (p_usyscall pr =? 0))
        (do! kfree (p_usyscall pr); upd_proc p (set_p_usyscall 0));
  do! when (negb (p_kstack pr =? 0)) (kfree (p_kstack pr));
  do! upd_proc p (set_p_kstack 0);
  do! when (negb (p_kpagetable pr =? 0) && (0 <? p_sz pr))
        (kvmdealloc (p_kpagetable pr) (p_sz pr) 0);
  do! when (negb (p_kpagetable pr =? 0)) (proc_free_kpagetable 3 (p_kpagetable pr));
  do! upd_proc p (set_p_kpagetable 0);
  do! upd_proc p (set_p_sz 0);
  do! upd_proc p (set_p_pid 0);
  do! upd_proc p (set_p_parent None);
  do! upd_proc p (fun x => set_p_name (<[0%nat := 0]> (p_name x)) x);
  do! upd_proc p (set_p_chan None);
  do! upd_proc p (set_p_killed 0);
  do! upd_proc p (set_p_xstate 0);
  upd_proc p (set_p_state UNUSED).

(** freeproc(p); release(&p->lock); return 0; *)
Definition alloc_failed (p : nat) : K (option nat) :=
  do! freeproc p; do! release (LProc p); ret None.

(** for(p = proc; p < &proc[NPROC]; p++): the first UNUSED process, its lock held *)
Definition find_unused : K (option nat) :=
  foreach procs (fun i =>
    do! acquire (LProc i);
    let! p := get_proc i in
    if decide (p_state p = UNUSED) then ret (Some i)
    else do! release (LProc i); ret None).

Definition allocproc : K (option nat) :=
  let! found := find_unused in
  match found with
  | None => ret None
  | Some p =>
      let! pid := allocpid in
      do! upd_proc p (set_p_pid pid);
      do! upd_proc p (set_p_state USED);
      let! tf := kalloc in
      do! upd_proc p (set_p_trapframe tf);
      if tf =? 0 then alloc_failed p else
      let! pagetable := proc_pagetable tf in
      do! upd_proc p (set_p_pagetable pagetable);
      if pagetable =? 0 then alloc_failed p else
      let! us := kalloc in
      do! upd_proc p (set_p_usyscall us);
      if us =? 0 then alloc_failed p else
      do! kstore 4 us (u32 pid);
      let! r := mappages pagetable USYSCALL PGSIZE us (Z.lor PTE_R PTE_U) in
      if r <? 0 then alloc_failed p else
      let! kpagetable := proc_kpagetable_init in
      do! upd_proc p (set_p_kpagetable kpagetable);
      if kpagetable =? 0 then alloc_failed p else
      let! pa := kalloc in
      if pa =? 0 then do! freeproc p; ret None else
      do! upd_proc p (set_p_kstack pa);
      let kstack_va := KSTACK (Z.of_nat p) in
      do! kvmmap kpagetable kstack_va pa PGSIZE (Z.lor PTE_R PTE_W);
      do! upd_proc p (set_p_context (mkContext forkret_addr (u64 (pa + PGSIZE)) (replicate 12 0)));
      ret (Some p)
  end.

(** The bytes of user/initcode.S. *)
Definition initcode : list Z :=
  [0x17; 0x05; 0x00; 0x00; 0x13; 0x05; 0x45; 0x02;
   0x97; 0x05; 0x00; 0x00; 0x93; 0x85; 0x35; 0x02;
   0x93; 0x08; 0x70; 0x00; 0x73; 0x00; 0x00; 0x00;
   0x93; 0x08; 0x20; 0x00; 0x73; 0x00; 0x00; 0x00;
   0xef; 0xf0; 0x9f; 0xff; 0x2f; 0x69; 0x6e; 0x69;
   0x74; 0x00; 0x00; 0x24; 0x00; 0x00; 0x00; 0x00;
   0x00; 0x00; 0x00; 0x00].

(** safestrcpy(p->name, s, sizeof(p->name)) *)
Definition set_name (p : nat) (s : cstr) : K unit :=
  let! pr := get_proc p in
  let! name := need "p->name" (put_bytes 0 (safestrcpy s 16) (p_name pr)) in
  upd_proc p (set_p_name name).

Definition userinit : K unit :=
  let! o := allocproc in
  do! modify (fun k => set_k_ptable (set_pt_initproc o (k_ptable k)) k);
  let! p := need "initproc" o in
  let! pr := get_proc p in
  do! uvmfirst (p_pagetable pr) initcode (Z.of_nat (length initcode));
  do! upd_proc p (set_p_sz PGSIZE);
  do! u2kvmcopy (p_pagetable pr) (p_kpagetable pr) 0 PGSIZE;
  do! tf_set p TF_epc 0;
  do! tf_set p TF_sp PGSIZE;
  do! set_name p (str_of (str "initcode"));
  let! cwd := namei (str "/") in
  do! upd_proc p (set_p_cwd cwd);
  do! upd_proc p (set_p_state RUNNABLE);
  release (LProc p).

Definition growproc (n : Z) : K Z :=
  let! p := curproc in
  let! pr := get_proc p in
  let sz := p_sz pr in
  let oldsz := sz in
  if 0 <? n then
    if USER_TOP <=? PGROUNDUP (u64 (sz + n)) then ret (-1) else
    let! sz := uvmalloc (p_pagetable pr) sz (u64 (sz + n)) PTE_W in
    if sz =? 0 then ret (-1) else
    do! u2kvmcopy (p_pagetable pr) (p_kpagetable pr) oldsz sz;
    do! upd_proc p (set_p_sz sz);
    ret 0
  else if n <? 0 then
    do! kvmdealloc (p_kpagetable pr) sz (u64 (sz + n));
    let! sz := uvmdealloc (p_pagetable pr) sz (u64 (sz + n)) in
    do! upd_proc p (set_p_sz sz);
    ret 0
  else
    do! upd_proc p (set_p_sz sz);
    ret 0.

Definition fork : K Z :=
  let! p := curproc in
  let! o := allocproc in
  match o with
  | None => ret (-1)
  | Some np =>
      let! pr := get_proc p in
      let! npr := get_proc np in
      let! r := uvmcopy (p_pagetable pr) (p_pagetable npr) (p_sz pr) in
      if r <? 0 then
        do! freeproc np; do! release (LProc np); ret (-1)
      else
      do! upd_proc np (set_p_sz (p_sz pr));
      do! u2kvmcopy (p_pagetable npr) (p_kpagetable npr) 0 (p_sz pr);
      do! kmemmove (p_trapframe npr) (p_trapframe pr) trapframe_size;
      do! tf_set np TF_a0 0;
      do! each (seq 0 (Z.to_nat NOFILE)) (fun i =>
        let! pr := get_proc p in
        let! o := need "p->ofile[]" (p_ofile pr !! i) in
        match o with
        | Some f =>
            let! f := filedup f in
            upd_proc np (fun x => set_p_ofile (<[i := Some f]> (p_ofile x)) x)
        | None => ret tt
        end);
      let! cwd := need "p->cwd" (p_cwd pr) in
      let! cwd := idup cwd in
      do! upd_proc np (set_p_cwd (Some cwd));
      do! set_name np (str_of (p_name pr));
      let! npr := get_proc np in
      let pid := p_pid npr in
      do! release (LProc np);
      do! acquire LWait;
      do! upd_proc np (set_p_parent (Some p));
      do! release LWait;
      do! acquire (LProc np);
      do! upd_proc np (set_p_state RUNNABLE);
      do! release (LProc np);
      ret pid
  end.

(** wakeup() on a process, or on a null pointer *)
Definition wakeup_proc (o : option nat) : K unit := wakeup_chan (ChProc <$> o).

Definition reparent (p : nat) : K unit :=
  each procs (fun i =>
    let! pp := get_proc i in
    when (bool_decide (p_parent pp = Some p))
      (let! init := gets (fun k => pt_initproc (k_ptable k)) in
       do! upd_proc i (set_p_parent init);
       wakeup_proc init)).

Definition exit (status : Z) : K unit :=
  let! p := curproc in
  let! init := gets (fun k => pt_initproc (k_ptable k)) in
  if decide (init = Some p) then panic "init exiting" else
  do! each (seq 0 (Z.to_nat NOFILE)) (fun fd =>
    let! pr := get_proc p in
    let! o := need "p->ofile[]" (p_ofile pr !! fd) in
    match o with
    | Some f =>
        do! fileclose f;
        upd_proc p (fun x => set_p_ofile (<[fd := None]> (p_ofile x)) x)
    | None => ret tt
    end);
  do! begin_op;
  let! pr := get_proc p in
  let! cwd := need "p->cwd" (p_cwd pr) in
  do! iput cwd;
  do! end_op;
  do! upd_proc p (set_p_cwd None);
  do! acquire LWait;
  do! reparent p;
  let! pr := get_proc p in
  do! wakeup_proc (p_parent pr);
  do! acquire (LProc p);
  do! upd_proc p (set_p_xstate status);
  do! upd_proc p (set_p_state ZOMBIE);
  do! release LWait;
  do! sched;
  panic "zombie exit".

(** for(pp = proc; pp < &proc[NPROC]; pp++) in wait(): [inl r] is a return
    from wait(), [inr havekids] the end of the scan. *)
Fixpoint wait_scan (l : list nat) (p : nat) (addr : Z) (havekids : bool) : K (Z + bool) :=
  match l with
  | [] => ret (inr havekids)
  | i :: l' =>
      let! pp := get_proc i in
      if decide (p_parent pp = Some p) then
        do! acquire (LProc i);
        let! pp := get_proc i in
        if decide (p_state pp = ZOMBIE) then
          let pid := p_pid pp in
          let! bad :=
            (if addr =? 0 then ret false else
             let! pr := get_proc p in
             let! r := copyout (p_pagetable pr) addr (le_bytes 4 (p_xstate pp)) 4 in
             ret (r <? 0)) in
          if (bad : bool) then
            do! release (LProc i); do! release LWait; ret (inl (-1))
          else
            do! freeproc i;
            do! release (LProc i);
            do! release LWait;
            ret (inl pid)
        else
          do! release (LProc i);
          wait_scan l' p addr true
      else wait_scan l' p addr havekids
  end.

Fixpoint wait_loop (fuel : nat) (p : nat) (addr : Z) : K Z :=
  match fuel with
  | O => nofuel
  | S f =>
      let! r := wait_scan procs p addr false in
      match r with
      | inl r => ret r
      | inr havekids =>
          let! dead := (if negb havekids then ret 1 else killed p) in
          if negb (dead =? 0) then do! release LWait; ret (-1) else
          do! sleep (ChProc p) LWait;
          wait_loop f p addr
      end
  end.

Definition wait (addr : Z) : K Z :=
  let! p := curproc in
  do! acquire LWait;
  wait_loop sleep_rounds p addr.

End ProcLife.
