(* ===== verification/Syscall.v ===== *)
(** kernel/syscall.c (arguments of system calls), kernel/sysproc.c. *)

From Stdlib Require Import ZArith Lia.
From stdpp Require Import base gmap list_numbers strings numbers list.
From S2P Require Import Prelude Mem Riscv Kernel Spinlock Kalloc Vm Printf Sched Sleeplock Virtio Bio Log Fs.
From S2P Require Import Console Pipe File ProcLife.

Open Scope Z_scope.

(** The uint64 that holds the int or uint64 result [z]. *)
Definition retval (z : Z) : Z := u64 z.

(** * Arguments *)

(** The result has the uint64 read. *)
Definition fetchaddr (addr : Z) : K (Z * Z) :=
  let! p := curproc in
  let! pr := get_proc p in
  if (p_sz pr <=? addr) || (p_sz pr <? u64 (addr + 8)) then ret (-1, 0) else
  let! '(r, bytes) := copyin (p_pagetable pr) addr 8 in
  if negb (r =? 0) then ret (-1, 0) else ret (0, le_val bytes).

(** The result has the bytes of buf. *)
Definition fetchstr (addr max : Z) : K (Z * list Z) :=
  let! p := curproc in
  let! pr := get_proc p in
  let! '(r, buf) := copyinstr (p_pagetable pr) addr max in
  if r <? 0 then ret (-1, buf) else
  let! n := need "strlen" (strlen (S (length buf)) (str_of buf)) in
  ret (n, buf).

Definition argraw (n : Z) : K Z :=
  let! p := curproc in
  if n =? 0 then tf_get p TF_a0
  else if n =? 1 then tf_get p TF_a1
  else if n =? 2 then tf_get p TF_a2
  else if n =? 3 then tf_get p TF_a3
  else if n =? 4 then tf_get p TF_a4
  else if n =? 5 then tf_get p TF_a5
  else panic "argraw".

Definition argint (n : Z) : K Z := let! v := argraw n in ret (i32 v).
Definition argaddr (n : Z) : K Z := argraw n.
Definition argstr (n max : Z) : K (Z * list Z) := let! addr := argaddr n in fetchstr addr max.

(** The C string in a buffer: its bytes before the first NUL. *)
Fixpoint cstring (buf : list Z) : list Z :=
  match buf with
  | c :: buf' => if c =? 0 then [] else c :: cstring buf'
  | [] => []
  end.

Section Syscall.
Context `{LinkerSymbols} `{BlockDevice}.

(** * sysproc.c *)

Definition sys_exit : K Z :=
  let! n := argint 0 in
  do! exit n;
  ret 0.

Definition sys_getpid : K Z :=
  let! p := curproc in let! pr := get_proc p in ret (p_pid pr).

Definition sys_fork : K Z := fork.

Definition sys_wait : K Z := let! p := argaddr 0 in wait p.

Definition sys_sbrk : K Z :=
  let! n := argint 0 in
  let! p := curproc in
  let! pr := get_proc p in
  let addr := p_sz pr in
  let! r := growproc n in
  if r <? 0 then ret (-1) else ret addr.

(** while(ticks - ticks0 < n): both sides are unsigned. *)
Fixpoint sys_sleep_loop (fuel : nat) (ticks0 n : Z) : K Z :=
  match fuel with
  | O => nofuel
  | S f =>
      let! ticks := gets k_ticks in
      if u32 (ticks - ticks0) <? u32 n then
        let! p := curproc in
        let! dead := killed p in
        if negb (dead =? 0) then do! release LTicks; ret (-1) else
        do! sleep ChTicks LTicks;
        sys_sleep_loop f ticks0 n
      else
        do! release LTicks;
        ret 0
  end.

Definition sys_sleep : K Z :=
  let! n := argint 0 in
  do! acquire LTicks;
  let! ticks0 := gets k_ticks in
  sys_sleep_loop sleep_rounds ticks0 n.

(** for(int i = 0; i < len; i++); [inl] is a return from the function. *)
Fixpoint pgaccess_loop (fuel : nat) (p : nat) (base i len bitmask : Z) : K (Z + Z) :=
  match fuel with
  | O => nofuel
  | S f =>
      if i <? len then
        let va := u64 (base + i * PGSIZE) in
        let! pr := get_proc p in
        if p_sz pr <=? va then ret (inl (-1)) else
        let! pte := walk (p_pagetable pr) va false in
        if pte =? 0 then ret (inl (-1)) else
        let! v := kload 8 pte in
        if has v PTE_A then
          do! kstore 8 pte (Z.land v (u64 (Z.lnot PTE_A)));
          pgaccess_loop f p base (i + 1) len (Z.lor bitmask (Z.shiftl 1 i))
        else pgaccess_loop f p base (i + 1) len bitmask
      else ret (inr bitmask)
  end.

Definition sys_pgaccess : K Z :=
  let! p := curproc in
  let! base := argaddr 0 in
  let! len := argint 1 in
  let! mask := argaddr 2 in
  if 64 <? len then ret (-1) else
  let! r := pgaccess_loop (S (Z.to_nat len)) p base 0 len 0 in
  match r with
  | inl r => ret r
  | inr bitmask =>
      let! pr := get_proc p in
      let! r := copyout (p_pagetable pr) mask (le_bytes 8 bitmask) 8 in
      if r <? 0 then ret (-1) else ret 0
  end.

Definition sys_kill : K Z := let! pid := argint 0 in kill pid.

Definition sys_uptime : K Z :=
  do! acquire LTicks;
  let! xticks := gets k_ticks in
  do! release LTicks;
  ret xticks.

End Syscall.
