(* ===== verification/Exec.v ===== *)
(** kernel/exec.c. *)

From Stdlib Require Import ZArith Lia.
From stdpp Require Import base gmap list_numbers strings numbers list.
From S2P Require Import Prelude Mem Riscv Kernel Spinlock Kalloc Vm Printf Sched Sleeplock Virtio Bio Log Fs.
From S2P Require Import Console Pipe File ProcLife Syscall.

Open Scope Z_scope.

(** * kernel/elf.h *)

Definition ELF_MAGIC : Z := 0x464C457F.
Definition ELF_PROG_LOAD : Z := 1.

(** The fields of struct elfhdr (64 bytes) that exec() uses. *)
Record elfhdr : Type := mkElfhdr {
  e_magic : Z;
  e_entry : Z;
  e_phoff : Z;
  e_phnum : Z;
}.

Definition elfhdr_size : Z := 64.

Definition elfhdr_of (d : list Z) : option elfhdr :=
  magic ← getn 4 0 d; entry ← getn 8 24 d; phoff ← getn 8 32 d; phnum ← getn 2 56 d;
  Some (mkElfhdr magic entry phoff phnum).

(** struct proghdr (56 bytes) *)
Record proghdr : Type := mkProghdr {
  ph_type : Z;
  ph_flags : Z;
  ph_off : Z;
  ph_vaddr : Z;
  ph_filesz : Z;
  ph_memsz : Z;
}.

Definition proghdr_size : Z := 56.

Definition proghdr_of (d : list Z) : option proghdr :=
  type ← getn 4 0 d; flags ← getn 4 4 d; off ← getn 8 8 d; vaddr ← getn 8 16 d;
  filesz ← getn 8 32 d; memsz ← getn 8 40 d;
  Some (mkProghdr type flags off vaddr filesz memsz).

Definition flags2perm (flags : Z) : Z :=
  let perm := if has flags 1 then PTE_X else 0 in
  if has flags 2 then Z.lor perm PTE_W else perm.

Section Exec.
Context `{LinkerSymbols} `{BlockDevice}.

(** for(i = 0; i < sz; i += PGSIZE) *)
Fixpoint loadseg_loop (fuel : nat) (pagetable va : Z) (ip : nat) (offset sz i : Z) : K Z :=
  match fuel with
  | O => nofuel
  | S f =>
      if i <? sz then
        let! pa := walkaddr pagetable (u64 (va + i)) in
        if pa =? 0 then panic "loadseg: address should exist" else
        let n := if sz - i <? PGSIZE then sz - i else PGSIZE in
        let! '(r, _) := readi ip (ToPhys pa) (u32 (offset + i)) n in
        if negb (u32 r =? n) then ret (-1)
        else loadseg_loop f pagetable va ip offset sz (u32 (i + PGSIZE))
      else ret 0
  end.

Definition loadseg (pagetable va : Z) (ip : nat) (offset sz : Z) : K Z :=
  loadseg_loop (S (Z.to_nat ((sz + PGSIZE - 1) / PGSIZE))) pagetable va ip offset sz 0.

(** bad: *)
Definition exec_bad (pagetable sz : Z) (usyscall_mapped : bool) (ip : option nat) : K Z :=
  do! when (negb (pagetable =? 0))
        (do! when usyscall_mapped (uvmunmap pagetable USYSCALL 1 false);
         proc_freepagetable pagetable sz);
  do! match ip with
      | Some ip => do! iunlockput ip; end_op
      | None => ret tt
      end;
  ret (-1).

(** for(i=0, off=elf.phoff; i<elf.phnum; i++, off+=sizeof(ph)): the size
    reached, and whether all segments have been loaded. *)
Fixpoint exec_load (n : nat) (ip : nat) (pagetable off sz : Z) : K (Z * bool) :=
  match n with
  | O => ret (sz, true)
  | S n' =>
      let! '(r, bytes) := readi ip ToVar (u32 off) proghdr_size in
      if negb (u32 r =? proghdr_size) then ret (sz, false) else
      let! ph := need "ph" (proghdr_of bytes) in
      if negb (ph_type ph =? ELF_PROG_LOAD) then exec_load n' ip pagetable (i32 (off + proghdr_size)) sz else
      if ph_memsz ph <? ph_filesz ph then ret (sz, false) else
      if u64 (ph_vaddr ph + ph_memsz ph) <? ph_vaddr ph then ret (sz, false) else
      if negb (ph_vaddr ph mod PGSIZE =? 0) then ret (sz, false) else
      let! sz1 := uvmalloc pagetable sz (u64 (ph_vaddr ph + ph_memsz ph)) (flags2perm (ph_flags ph)) in
      if sz1 =? 0 then ret (sz, false) else
      let! r := loadseg pagetable (ph_vaddr ph) ip (u32 (ph_off ph)) (u32 (ph_filesz ph)) in
      if r <? 0 then ret (sz1, false) else
      exec_load n' ip pagetable (i32 (off + proghdr_size)) sz1
  end.

(** strlen() of a string in the page at [a] *)
Definition strlen_at (a : Z) : K Z :=
  let! m := gets k_mem in need "strlen" (strlen (S (Z.to_nat PGSIZE)) (str_at m a)).

(** for(argc = 0; argv[argc]; argc++): the stack pointer and ustack[0..argc),
    or [None] for goto bad.  [argv] ends with the null pointer. *)
Fixpoint exec_args (argv : list Z) (pagetable sp stackbase : Z) (ustack : list Z)
    : K (option (Z * list Z)) :=
  match argv with
  | [] => ret (Some (sp, ustack))
  | a :: argv' =>
      if a =? 0 then ret (Some (sp, ustack)) else
      if MAXARG <=? Z.of_nat (length ustack) then ret None else
      let! len := strlen_at a in
      let sp := u64 (sp - (len + 1)) in
      let sp := sp - sp mod 16 in
      if sp <? stackbase then ret None else
      let! m := gets k_mem in
      let! r := copyout pagetable sp (bytes_at m a (Z.to_nat (len + 1))) (len + 1) in
      if r <? 0 then ret None else
      exec_args argv' pagetable sp stackbase (ustack ++ [sp])
  end.

(** for(last=s=path; *s; s++) if( *s == '/') last = s+1; *)
Fixpoint path_last (s last : list Z) : list Z :=
  match s with
  | [] => last
  | c :: s' => if c =? 0 then last else if c =? 47 then path_last s' s' else path_last s' last
  end.

(** The part of exec() from the stack on, once the program has been loaded. *)
Definition exec_stack (p : nat) (path : list Z) (argv : list Z) (elf : elfhdr) (pagetable sz : Z) : K Z :=
  let! pr := get_proc p in
  let oldsz := p_sz pr in
  let sz := PGROUNDUP sz in
  let! sz1 := uvmalloc pagetable sz (u64 (sz + 2 * PGSIZE)) PTE_W in
  if sz1 =? 0 then exec_bad pagetable sz false None else
  let sz := sz1 in
  do! uvmclear pagetable (u64 (sz - 2 * PGSIZE));
  let sp := sz in
  let stackbase := u64 (sp - PGSIZE) in
  if USER_TOP <=? PGROUNDUP sz then exec_bad pagetable sz false None else
  do! kvmdealloc (p_kpagetable pr) (p_sz pr) 0;
  do! u2kvmcopy pagetable (p_kpagetable pr) 0 sz;
  let mapped := negb (p_usyscall pr =? 0) in
  let! r :=
    (if mapped then
       do! kstore 4 (p_usyscall pr) (u32 (p_pid pr));
       mappages pagetable USYSCALL PGSIZE (p_usyscall pr) (Z.lor PTE_R PTE_U)
     else ret 0) in
  if r <? 0 then exec_bad pagetable sz false None else
  let! o := exec_args argv pagetable sp stackbase [] in
  match o with
  | None => exec_bad pagetable sz mapped None
  | Some (sp, ustack) =>
      let argc := Z.of_nat (length ustack) in
      if MAXARG <=? argc then fault "ustack[]" else
      let sp := u64 (sp - (argc + 1) * 8) in
      let sp := sp - sp mod 16 in
      if sp <? stackbase then exec_bad pagetable sz mapped None else
      let! r := copyout pagetable sp (mjoin (le_bytes 8 <$> (ustack ++ [0]))) ((argc + 1) * 8) in
      if r <? 0 then exec_bad pagetable sz mapped None else
      do! tf_set p TF_a1 sp;
      do! set_name p (str_of (path_last path path));
      let oldpagetable := p_pagetable pr in
      do! upd_proc p (set_p_pagetable pagetable);
      do! upd_proc p (set_p_sz sz);
      do! tf_set p TF_epc (e_entry elf);
      do! tf_set p TF_sp sp;
      do! when mapped (uvmunmap oldpagetable USYSCALL 1 false);
      do! proc_freepagetable oldpagetable oldsz;
      do! when (p_pid pr =? 1) (vmprint pagetable);
      ret argc
  end.

Definition exec (path : list Z) (argv : list Z) : K Z :=
  let! p := curproc in
  do! begin_op;
  let! o := namei path in
  match o with
  | None => do! end_op; ret (-1)
  | Some ip =>
      do! ilock (Some ip);
      let! '(r, bytes) := readi ip ToVar 0 elfhdr_size in
      if negb (u32 r =? elfhdr_size) then exec_bad 0 0 false (Some ip) else
      let! elf := need "elf" (elfhdr_of bytes) in
      if negb (e_magic elf =? ELF_MAGIC) then exec_bad 0 0 false (Some ip) else
      let! pr := get_proc p in
      let! pagetable := proc_pagetable (p_trapframe pr) in
      if pagetable =? 0 then exec_bad 0 0 false (Some ip) else
      let! '(sz, ok) := exec_load (Z.to_nat (e_phnum elf)) ip pagetable (i32 (e_phoff elf)) 0 in
      if negb ok then exec_bad pagetable sz false (Some ip) else
      do! iunlockput ip;
      do! end_op;
      let! p := curproc in
      exec_stack p path argv elf pagetable sz
  end.

End Exec.
