(* ===== verification/Sysfile.v ===== *)
(** kernel/sysfile.c: the file-system calls. *)

From Stdlib Require Import ZArith Lia.
From stdpp Require Import base gmap list_numbers strings numbers list.
From S2P Require Import Prelude Mem Riscv Kernel Spinlock Kalloc Vm Printf Sched Sleeplock Virtio Bio Log Fs.
From S2P Require Import Console Pipe File ProcLife Syscall Exec.

Open Scope Z_scope.

(** * kernel/fcntl.h *)

Definition O_RDONLY : Z := 0.
Definition O_WRONLY : Z := 1.
Definition O_RDWR : Z := 2.
Definition O_CREATE : Z := 0x200.
Definition O_TRUNC : Z := 0x400.

Section Sysfile.
Context `{LinkerSymbols} `{BlockDevice}.

(** The descriptor and the file, or [None] for the result -1. *)
Definition argfd (n : Z) : K (option (Z * nat)) :=
  let! fd := argint n in
  if (fd <? 0) || (NOFILE <=? fd) then ret None else
  let! p := curproc in
  let! pr := get_proc p in
  let! o := need "ofile[]" (p_ofile pr !! Z.to_nat fd) in
  ret (match o with Some f => Some (fd, f) | None => None end).

(** p->ofile[fd] = v *)
Definition set_ofile (p : nat) (fd : Z) (v : option nat) : K unit :=
  upd_proc p (fun x => set_p_ofile (<[Z.to_nat fd := v]> (p_ofile x)) x).

Definition fdalloc (f : nat) : K Z :=
  let! p := curproc in
  let! r := foreach (seqZ 0 NOFILE) (fun fd =>
    let! pr := get_proc p in
    let! o := need "ofile[]" (p_ofile pr !! Z.to_nat fd) in
    match o with
    | None => do! set_ofile p fd (Some f); ret (Some fd)
    | Some _ => ret None
    end) in
  ret (default (-1) r).

Definition sys_dup : K Z :=
  let! a := argfd 0 in
  match a with
  | None => ret (-1)
  | Some (_, f) =>
      let! fd := fdalloc f in
      if fd <? 0 then ret (-1) else
      let! _ := filedup f in
      ret fd
  end.

Definition sys_read : K Z :=
  let! p := argaddr 1 in
  let! n := argint 2 in
  let! a := argfd 0 in
  match a with
  | None => ret (-1)
  | Some (_, f) => fileread f p n
  end.

Definition sys_write : K Z :=
  let! p := argaddr 1 in
  let! n := argint 2 in
  let! a := argfd 0 in
  match a with
  | None => ret (-1)
  | Some (_, f) => filewrite f p n
  end.

Definition sys_close : K Z :=
  let! a := argfd 0 in
  match a with
  | None => ret (-1)
  | Some (fd, f) =>
      let! p := curproc in
      do! set_ofile p fd None;
      do! fileclose f;
      ret 0
  end.

Definition sys_fstat : K Z :=
  let! st := argaddr 1 in
  let! a := argfd 0 in
  match a with
  | None => ret (-1)
  | Some (_, f) => filestat f st
  end.

(** bad: of sys_link() *)
Definition link_bad (ip : nat) : K Z :=
  do! ilock (Some ip);
  do! upd_inode ip (fun x => set_i_nlink (i16 (i_nlink x - 1)) x);
  do! iupdate ip;
  do! iunlockput ip;
  do! end_op;
  ret (-1).

Definition sys_link : K Z :=
  let! '(r, old) := argstr 0 MAXPATH in
  if r <? 0 then ret (-1) else
  let! '(r, new) := argstr 1 MAXPATH in
  if r <? 0 then ret (-1) else
  do! begin_op;
  let! o := namei (cstring old) in
  match o with
  | None => do! end_op; ret (-1)
  | Some ip =>
      do! ilock (Some ip);
      let! x := get_inode ip in
      if i_type x =? T_DIR then do! iunlockput ip; do! end_op; ret (-1) else
      do! upd_inode ip (fun x => set_i_nlink (i16 (i_nlink x + 1)) x);
      do! iupdate ip;
      do! iunlock (Some ip);
      let! '(d, name) := nameiparent (cstring new) (replicate (Z.to_nat DIRSIZ) 0) in
      match d with
      | None => link_bad ip
      | Some dp =>
          do! ilock (Some dp);
          let! dx := get_inode dp in
          let! x := get_inode ip in
          let! r := (if negb (i_dev dx =? i_dev x) then ret (-1)
                     else dirlink dp (str_of name) (i_inum x)) in
          if r <? 0 then do! iunlockput dp; link_bad ip else
          do! iunlockput dp;
          do! iput ip;
          do! end_op;
          ret 0
      end
  end.

(** for(off=2*sizeof(de); off<dp->size; off+=sizeof(de)) *)
Fixpoint isdirempty_loop (fuel : nat) (dp : nat) (off : Z) : K bool :=
  match fuel with
  | O => nofuel
  | S f =>
      let! x := get_inode dp in
      if off <? i_size x then
        let! '(r, de) := readi dp ToVar off dirent_size in
        if negb (r =? dirent_size) then panic "isdirempty: readi" else
        if negb (dirent_inum de =? 0) then ret false
        else isdirempty_loop f dp (off + dirent_size)
      else ret true
  end.

Definition isdirempty (dp : nat) : K bool :=
  let! x := get_inode dp in
  isdirempty_loop (S (Z.to_nat (i_size x / dirent_size + 1))) dp (2 * dirent_size).

(** bad: of sys_unlink() *)
Definition unlink_bad (dp : nat) : K Z := do! iunlockput dp; do! end_op; ret (-1).

Definition sys_unlink : K Z :=
  let! '(r, path) := argstr 0 MAXPATH in
  if r <? 0 then ret (-1) else
  do! begin_op;
  let! '(d, name) := nameiparent (cstring path) (replicate (Z.to_nat DIRSIZ) 0) in
  match d with
  | None => do! end_op; ret (-1)
  | Some dp =>
      do! ilock (Some dp);
      if (namecmp (str_of name) (str_of (str ".")) =? 0) ||
         (namecmp (str_of name) (str_of (str "..")) =? 0) then unlink_bad dp else
      let! o := dirlookup dp (str_of name) in
      match o with
      | None => unlink_bad dp
      | Some (ip, off) =>
          do! ilock (Some ip);
          let! x := get_inode ip in
          if i_nlink x <? 1 then panic "unlink: nlink < 1" else
          let! empty := (if i_type x =? T_DIR then isdirempty ip else ret true) in
          if negb empty then do! iunlockput ip; unlink_bad dp else
          let! w := writei dp (FromVar (replicate (Z.to_nat dirent_size) 0)) off dirent_size in
          if negb (w =? dirent_size) then panic "unlink: writei" else
          let! x := get_inode ip in
          do! when (i_type x =? T_DIR)
                (do! upd_inode dp (fun d => set_i_nlink (i16 (i_nlink d - 1)) d); iupdate dp);
          do! iunlockput dp;
          do! upd_inode ip (fun x => set_i_nlink (i16 (i_nlink x - 1)) x);
          do! iupdate ip;
          do! iunlockput ip;
          do! end_op;
          ret 0
      end
  end.

(** fail: of create() *)
Definition create_fail (ip dp : nat) : K (option nat) :=
  do! upd_inode ip (set_i_nlink 0);
  do! iupdate ip;
  do! iunlockput ip;
  do! iunlockput dp;
  ret None.

Definition create (path : list Z) (type major minor : Z) : K (option nat) :=
  let! '(d, name) := nameiparent path (replicate (Z.to_nat DIRSIZ) 0) in
  match d with
  | None => ret None
  | Some dp =>
      do! ilock (Some dp);
      let! o := dirlookup dp (str_of name) in
      match o with
      | Some (ip, _) =>
          do! iunlockput dp;
          do! ilock (Some ip);
          let! x := get_inode ip in
          if (type =? T_FILE) && ((i_type x =? T_FILE) || (i_type x =? T_DEVICE)) then ret (Some ip)
          else do! iunlockput ip; ret None
      | None =>
          let! dx := get_inode dp in
          let! o := ialloc (i_dev dx) type in
          match o with
          | None => do! iunlockput dp; ret None
          | Some ip =>
              do! ilock (Some ip);
              do! upd_inode ip (set_i_major major);
              do! upd_inode ip (set_i_minor minor);
              do! upd_inode ip (set_i_nlink 1);
              do! iupdate ip;
              let! x := get_inode ip in
              let! ok :=
                (if type =? T_DIR then
                   let! r := dirlink ip (str_of (str ".")) (i_inum x) in
                   if r <? 0 then ret false else
                   let! r := dirlink ip (str_of (str "..")) (i_inum dx) in
                   ret (negb (r <? 0))
                 else ret true) in
              if negb ok then create_fail ip dp else
              let! r := dirlink dp (str_of name) (i_inum x) in
              if r <? 0 then create_fail ip dp else
              do! when (type =? T_DIR)
                    (do! upd_inode dp (fun d => set_i_nlink (i16 (i_nlink d + 1)) d); iupdate dp);
              do! iunlockput dp;
              ret (Some ip)
          end
      end
  end.

(** The part of sys_open() after ip has been found and locked. *)
Definition open_inode (ip : nat) (omode : Z) : K Z :=
  let! x := get_inode ip in
  if (i_type x =? T_DEVICE) && ((i_major x <? 0) || (NDEV <=? i_major x)) then
    do! iunlockput ip; do! end_op; ret (-1)
  else
  let! o := filealloc in
  match o with
  | None => do! iunlockput ip; do! end_op; ret (-1)
  | Some f =>
      let! fd := fdalloc f in
      if fd <? 0 then
        do! fileclose f; do! iunlockput ip; do! end_op; ret (-1)
      else
      let! x := get_inode ip in
      do! (if i_type x =? T_DEVICE then
             do! upd_file f (set_f_type FD_DEVICE); upd_file f (set_f_major (i_major x))
           else
             do! upd_file f (set_f_type FD_INODE); upd_file f (set_f_off 0));
      do! upd_file f (set_f_ip (Some ip));
      do! upd_file f (set_f_readable (b2z (negb (has omode O_WRONLY))));
      do! upd_file f (set_f_writable (b2z (has omode O_WRONLY || has omode O_RDWR)));
      do! when (has omode O_TRUNC && (i_type x =? T_FILE)) (itrunc ip);
      do! iunlock (Some ip);
      do! end_op;
      ret fd
  end.

Definition sys_open : K Z :=
  let! omode := argint 1 in
  let! '(n, path) := argstr 0 MAXPATH in
  if n <? 0 then ret (-1) else
  do! begin_op;
  if has omode O_CREATE then
    let! o := create (cstring path) T_FILE 0 0 in
    match o with
    | None => do! end_op; ret (-1)
    | Some ip => open_inode ip omode
    end
  else
    let! o := namei (cstring path) in
    match o with
    | None => do! end_op; ret (-1)
    | Some ip =>
        do! ilock (Some ip);
        let! x := get_inode ip in
        if (i_type x =? T_DIR) && negb (omode =? O_RDONLY) then
          do! iunlockput ip; do! end_op; ret (-1)
        else open_inode ip omode
    end.

Definition sys_mkdir : K Z :=
  do! begin_op;
  let! '(r, path) := argstr 0 MAXPATH in
  let! o := (if r <? 0 then ret None else create (cstring path) T_DIR 0 0) in
  match o with
  | None => do! end_op; ret (-1)
  | Some ip => do! iunlockput ip; do! end_op; ret 0
  end.

Definition sys_mknod : K Z :=
  do! begin_op;
  let! major := argint 1 in
  let! minor := argint 2 in
  let! '(r, path) := argstr 0 MAXPATH in
  let! o := (if r <? 0 then ret None else create (cstring path) T_DEVICE (i16 major) (i16 minor)) in
  match o with
  | None => do! end_op; ret (-1)
  | Some ip => do! iunlockput ip; do! end_op; ret 0
  end.

Definition sys_chdir : K Z :=
  let! p := curproc in
  do! begin_op;
  let! '(r, path) := argstr 0 MAXPATH in
  let! o := (if r <? 0 then ret None else namei (cstring path)) in
  match o with
  | None => do! end_op; ret (-1)
  | Some ip =>
      do! ilock (Some ip);
      let! x := get_inode ip in
      if negb (i_type x =? T_DIR) then do! iunlockput ip; do! end_op; ret (-1) else
      do! iunlock (Some ip);
      let! pr := get_proc p in
      let! cwd := need "p->cwd" (p_cwd pr) in
      do! iput cwd;
      do! end_op;
      do! upd_proc p (set_p_cwd (Some ip));
      ret 0
  end.

(** for(i=0;; i++) of sys_exec(): [argv] are the pages filled so far; the
    result tells whether all arguments have been fetched. *)
Fixpoint exec_fetch (fuel : nat) (uargv : Z) (argv : list Z) : K (list Z * bool) :=
  match fuel with
  | O => nofuel
  | S f =>
      let i := Z.of_nat (length argv) in
      if MAXARG <=? i then ret (argv, false) else
      let! '(r, uarg) := fetchaddr (u64 (uargv + 8 * i)) in
      if r <? 0 then ret (argv, false) else
      if uarg =? 0 then ret (argv, true) else
      let! pg := kalloc in
      if pg =? 0 then ret (argv, false) else
      let! '(n, buf) := fetchstr uarg PGSIZE in
      do! kput pg buf;
      if n <? 0 then ret (argv ++ [pg], false) else exec_fetch f uargv (argv ++ [pg])
  end.

Definition sys_exec : K Z :=
  let! uargv := argaddr 1 in
  let! '(r, path) := argstr 0 MAXPATH in
  if r <? 0 then ret (-1) else
  let! '(argv, ok) := exec_fetch (S (Z.to_nat MAXARG)) uargv [] in
  if (ok : bool) then
    let! r := exec (cstring path) (argv ++ [0]) in
    do! each argv kfree;
    ret r
  else
    do! each argv kfree;
    ret (-1).

(** p->ofile[fd0] = 0; p->ofile[fd1] = 0; fileclose(rf); fileclose(wf); *)
Definition pipe_undo (p : nat) (fds : list Z) (rf wf : nat) : K Z :=
  do! each fds (fun fd => set_ofile p fd None);
  do! fileclose rf;
  do! fileclose wf;
  ret (-1).

Definition sys_pipe : K Z :=
  let! p := curproc in
  let! fdarray := argaddr 0 in
  let! o := pipealloc in
  match o with
  | None => ret (-1)
  | Some (rf, wf) =>
      let! fd0 := fdalloc rf in
      if fd0 <? 0 then pipe_undo p [] rf wf else
      let! fd1 := fdalloc wf in
      if fd1 <? 0 then pipe_undo p [fd0] rf wf else
      let! pr := get_proc p in
      let! r := copyout (p_pagetable pr) fdarray (le_bytes 4 fd0) 4 in
      if r <? 0 then pipe_undo p [fd0; fd1] rf wf else
      let! r := copyout (p_pagetable pr) (u64 (fdarray + 4)) (le_bytes 4 fd1) 4 in
      if r <? 0 then pipe_undo p [fd0; fd1] rf wf else
      ret 0
  end.

End Sysfile.
