(* ===== verification/Trap.v ===== *)
(** kernel/trap.c, kernel/plic.c, the dispatch of kernel/syscall.c, forkret() of
    kernel/proc.c and kernel/main.c. *)

From Stdlib Require Import ZArith Lia.
From stdpp Require Import base gmap list_numbers strings numbers list.
From S2P Require Import Prelude Mem Riscv Kernel Spinlock Kalloc Vm Printf Sched Sleeplock Virtio Bio Log Fs.
From S2P Require Import Console Pipe File ProcLife Syscall Exec Sysfile.

Open Scope Z_scope.

(** * Registers (riscv.h) *)

Definition upd_hart (f : hart -> hart) : K unit := modify (fun k => set_k_hart (f (k_hart k)) k).
Definition w_stvec (x : Z) : K unit := upd_hart (set_h_stvec x).
Definition w_sepc (x : Z) : K unit := upd_hart (set_h_sepc x).
Definition r_sepc : K Z := gets (fun k => h_sepc (k_hart k)).
Definition r_scause : K Z := gets (fun k => h_scause (k_hart k)).
Definition r_stval : K Z := gets (fun k => h_stval (k_hart k)).
Definition r_sip : K Z := gets (fun k => h_sip (k_hart k)).
Definition w_sip (x : Z) : K unit := upd_hart (set_h_sip x).
Definition r_tp : K Z := gets (fun k => h_tp (k_hart k)).

(** * plic.c *)

Definition PLIC_SENABLE (hart : Z) : Z := PLIC + 0x2080 + hart * 0x100.
Definition PLIC_SPRIORITY (hart : Z) : Z := PLIC + 0x201000 + hart * 0x2000.
Definition PLIC_SCLAIM (hart : Z) : Z := PLIC + 0x201004 + hart * 0x2000.

(** A write to a register of the interrupt controller *)
Definition plic_write (a v : Z) : K unit :=
  modify (fun k => set_k_plic (set_plic_writes (plic_writes (k_plic k) ++ [(a, v)]) (k_plic k)) k).

Definition plicinit : K unit :=
  do! plic_write (PLIC + UART0_IRQ * 4) 1;
  plic_write (PLIC + VIRTIO0_IRQ * 4) 1.

Definition plicinithart : K unit :=
  let! hart := cpuid in
  do! plic_write (PLIC_SENABLE hart) (Z.lor (Z.shiftl 1 UART0_IRQ) (Z.shiftl 1 VIRTIO0_IRQ));
  plic_write (PLIC_SPRIORITY hart) 0.

(** The read of the claim register: the next pending interrupt, or 0 *)
Definition plic_claim : K Z :=
  let! hart := cpuid in
  let! p := gets k_plic in
  match plic_pending p with
  | [] => ret 0
  | irq :: l => do! modify (set_k_plic (set_plic_pending l p)); ret (i32 irq)
  end.

Definition plic_complete (irq : Z) : K unit :=
  let! hart := cpuid in
  plic_write (PLIC_SCLAIM hart) irq.

Section Trap.
Context `{LinkerSymbols} `{BlockDevice}.

(** * syscall() *)

(** syscalls[num]; [None]: no such system call. *)
Definition syscalls (num : Z) : option (K Z) :=
  if num =? 1 then Some sys_fork
  else if num =? 2 then Some sys_exit
  else if num =? 3 then Some sys_wait
  else if num =? 4 then Some sys_pipe
  else if num =? 5 then Some sys_read
  else if num =? 6 then Some sys_kill
  else if num =? 7 then Some sys_exec
  else if num =? 8 then Some sys_fstat
  else if num =? 9 then Some sys_chdir
  else if num =? 10 then Some sys_dup
  else if num =? 11 then Some sys_getpid
  else if num =? 12 then Some sys_sbrk
  else if num =? 13 then Some sys_sleep
  else if num =? 14 then Some sys_uptime
  else if num =? 15 then Some sys_open
  else if num =? 16 then Some sys_write
  else if num =? 17 then Some sys_mknod
  else if num =? 18 then Some sys_unlink
  else if num =? 19 then Some sys_link
  else if num =? 20 then Some sys_mkdir
  else if num =? 21 then Some sys_close
  else if num =? 30 then Some sys_pgaccess
  else None.

Definition syscall : K unit :=
  let! p := curproc in
  let! a7 := tf_get p TF_a7 in
  let num := i32 a7 in
  match syscalls num with
  | Some f => let! r := f in tf_set p TF_a0 (retval r)
  | None =>
      let! pr := get_proc p in
      do! printf (Some (str "%d %s: unknown sys call %d" ++ [NL]))
            [AInt (p_pid pr); AStr (Some (p_name pr)); AInt num];
      tf_set p TF_a0 (u64 (-1))
  end.

(** * trap.c *)

Definition trapinit : K unit := initlock LTicks "time".
Definition trapinithart : K unit := w_stvec kernelvec.

Definition clockintr : K unit :=
  do! acquire LTicks;
  do! modify (fun k => set_k_ticks (u32 (k_ticks k + 1)) k);
  do! wakeup ChTicks;
  release LTicks.

Definition devintr : K Z :=
  let! scause := r_scause in
  if has scause 0x8000000000000000 && (Z.land scause 0xff =? 9) then
    let! irq := plic_claim in
    do! (if irq =? UART0_IRQ then uartintr
         else if irq =? VIRTIO0_IRQ then disk_intr
         else when (negb (irq =? 0))
                (printf (Some (str "unexpected interrupt irq=%d" ++ [NL])) [AInt irq]));
    do! when (negb (irq =? 0)) (plic_complete irq);
    ret 1
  else if scause =? 0x8000000000000001 then
    let! id := cpuid in
    do! when (id =? 0) clockintr;
    let! sip := r_sip in
    do! w_sip (Z.land sip (u64 (Z.lnot 2)));
    ret 2
  else ret 0.

(** The jump to userret() in the trampoline, with its argument. *)
Record ujump : Type := mkUjump {
  uj_pc : Z;
  uj_satp : Z;
}.

Definition usertrapret : K ujump :=
  let! p := curproc in
  do! intr_off;
  let trampoline_uservec := u64 (TRAMPOLINE + (uservec - trampoline)) in
  do! w_stvec trampoline_uservec;
  let! satp := r_satp in
  do! tf_set p TF_kernel_satp satp;
  let! pr := get_proc p in
  do! tf_set p TF_kernel_sp (u64 (p_kstack pr + PGSIZE));
  do! tf_set p TF_kernel_trap usertrap_addr;
  let! tp := r_tp in
  do! tf_set p TF_kernel_hartid tp;
  let! x := r_sstatus in
  let x := Z.land x (u64 (Z.lnot SSTATUS_SPP)) in
  let x := Z.lor x SSTATUS_SPIE in
  do! w_sstatus x;
  let! epc := tf_get p TF_epc in
  do! w_sepc epc;
  let! pr := get_proc p in
  ret (mkUjump (u64 (TRAMPOLINE + (userret - trampoline))) (MAKE_SATP (p_pagetable pr))).

Definition usertrap : K ujump :=
  let! x := r_sstatus in
  if has x SSTATUS_SPP then panic "usertrap: not from user mode" else
  do! w_stvec kernelvec;
  let! p := curproc in
  let! sepc := r_sepc in
  do! tf_set p TF_epc sepc;
  let! scause := r_scause in
  let! which_dev :=
    (if scause =? 8 then
       let! dead := killed p in
       do! when (negb (dead =? 0)) (exit (-1));
       let! epc := tf_get p TF_epc in
       do! tf_set p TF_epc (u64 (epc + 4));
       do! intr_on;
       do! syscall;
       ret 0
     else
       let! which_dev := devintr in
       if negb (which_dev =? 0) then ret which_dev else
       let! pr := get_proc p in
       let! scause := r_scause in
       do! printf (Some (str "usertrap(): unexpected scause %p pid=%d" ++ [NL]))
             [APtr scause; AInt (p_pid pr)];
       let! sepc := r_sepc in
       let! stval := r_stval in
       do! printf (Some (str "            sepc=%p stval=%p" ++ [NL])) [APtr sepc; APtr stval];
       do! setkilled p;
       ret 0) in
  let! dead := killed p in
  do! when (negb (dead =? 0)) (exit (-1));
  do! when (which_dev =? 2) yield;
  usertrapret.

Definition kerneltrap : K unit :=
  let! sepc := r_sepc in
  let! sstatus := r_sstatus in
  let! scause := r_scause in
  if negb (has sstatus SSTATUS_SPP) then panic "kerneltrap: not from supervisor mode" else
  let! on := intr_get in
  if negb (on =? 0) then panic "kerneltrap: interrupts enabled" else
  let! which_dev := devintr in
  if which_dev =? 0 then
    do! printf (Some (str "scause %p" ++ [NL])) [APtr scause];
    let! epc := r_sepc in
    let! stval := r_stval in
    do! printf (Some (str "sepc=%p stval=%p" ++ [NL])) [APtr epc; APtr stval];
    panic "kerneltrap"
  else
  do! (if which_dev =? 2 then
         let! me := myproc in
         match me with
         | None => ret tt
         | Some _ =>
             let! p := curproc in
             let! pr := get_proc p in
             if decide (p_state pr = RUNNING) then yield else ret tt
         end
       else ret tt);
  do! w_sepc sepc;
  w_sstatus sstatus.

(** forkret() of proc.c *)
Definition forkret : K ujump :=
  let! p := curproc in
  do! release (LProc p);
  let! first := gets k_first in
  do! when (negb (first =? 0))
        (do! fsinit ROOTDEV;
         modify (set_k_first 0));
  usertrapret.

(** main() on the boot hart, up to the call of scheduler(). *)
Definition main_boot : K unit :=
  do! consoleinit;
  do! printfinit;
  do! printf (Some [NL]) [];
  do! printf (Some (str "xv6 kernel is booting" ++ [NL])) [];
  do! printf (Some [NL]) [];
  do! kinit;
  do! kvminit;
  do! kvminithart;
  do! procinit;
  do! trapinit;
  do! trapinithart;
  do! plicinit;
  do! plicinithart;
  do! binit;
  do! iinit;
  do! fileinit;
  do! disk_init;
  userinit.

(** main() on the other harts, once started has been set. *)
Definition main_other : K unit :=
  let! id := cpuid in
  do! printf (Some (str "hart %d starting" ++ [NL])) [AInt id];
  do! kvminithart;
  do! trapinithart;
  plicinithart.

Definition main (rounds : nat) : K unit :=
  let! id := cpuid in
  do! (if id =? 0 then main_boot else main_other);
  scheduler rounds.

End Trap.
