(* ===== verification/User.v ===== *)
(** User processes (user/): a monad for C code that runs in a process, the stubs of
    user/usys.pl, and a logic for programs over the system calls of an operating system.

    A program is a function of the memory of its process.  It ends, or stops at an ecall
    instruction ([ECall]) with the number of the system call, the argument registers and the memory that
    the kernel sees; the kernel resumes it with a0 and the memory as it left it. *)

From Stdlib Require Import ZArith Lia.
From stdpp Require Import base gmap list_numbers strings numbers list.
From S2P Require Import Prelude Mem.

Open Scope Z_scope.

(** * The user monad *)

(** [UFault]: what C does not define; [UNoFuel]: a loop has run longer than its model. *)
Inductive uout (A : Type) : Type :=
| URet (a : A) (m : mem)
| UExit (status : Z)
| ECall (num : Z) (args : list Z) (m : mem) (resume : Z -> mem -> uout A)
| UFault (why : string)
| UNoFuel.

Arguments URet {A} a m.
Arguments UExit {A} status.
Arguments ECall {A} num args m resume.
Arguments UFault {A} why.
Arguments UNoFuel {A}.

Definition U (A : Type) : Type := mem -> uout A.

Fixpoint uobind {A B : Type} (o : uout A) (f : A -> U B) : uout B :=
  match o with
  | URet a m => f a m
  | UExit n => UExit n
  | ECall n args m r => ECall n args m (fun a0 m' => uobind (r a0 m') f)
  | UFault w => UFault w
  | UNoFuel => UNoFuel
  end.

Definition uret {A : Type} (a : A) : U A := fun m => URet a m.
Definition ubind {A B : Type} (u : U A) (f : A -> U B) : U B := fun m => uobind (u m) f.

Declare Scope user_scope.
Delimit Scope user_scope with U.
Open Scope user_scope.

Notation "'let!' x := m 'in' k" := (ubind m (fun x => k)) : user_scope.
Notation "'let!' ' p := m 'in' k" := (ubind m (fun p => k)) : user_scope.
Notation "'do!' m ; k" := (ubind m (fun _ => k)) : user_scope.

Definition ufault {A : Type} (why : string) : U A := fun _ => UFault why.
Definition unofuel {A : Type} : U A := fun _ => UNoFuel.
Definition uwhen (b : bool) (u : U unit) : U unit := if b then u else uret tt.

(** Code that only reads memory; [None] when a loop of it has run out of fuel. *)
Definition ureads {A : Type} (f : mem -> option A) : U A :=
  fun m => match f m with Some a => URet a m | None => UNoFuel end.

(** Assignments through pointers. *)
Definition ustore (f : mem -> mem) : U unit := fun m => URet tt (f m).
Definition load8 (p : Z) : U Z := fun m => URet (ld8 m p) m.
Definition load32 (p : Z) : U Z := fun m => URet (ld32 m p) m.
Definition load64 (p : Z) : U Z := fun m => URet (ld64 m p) m.
Definition store8 (p v : Z) : U unit := ustore (fun m => st8 m p v).
Definition store32 (p v : Z) : U unit := ustore (fun m => st32 m p v).
Definition store64 (p v : Z) : U unit := ustore (fun m => st64 m p v).

(** Where the linker has put a string literal ([lit], by its bytes), and where a
    variable whose address the code takes is ([var], by its name). *)
Class Image := {
  lit : list Z -> Z;
  var : string -> Z;
}.

(** * System calls (kernel/syscall.h, user/usys.pl) *)

Definition SYS_fork : Z := 1.
Definition SYS_exit : Z := 2.
Definition SYS_wait : Z := 3.
Definition SYS_pipe : Z := 4.
Definition SYS_read : Z := 5.
Definition SYS_kill : Z := 6.
Definition SYS_exec : Z := 7.
Definition SYS_fstat : Z := 8.
Definition SYS_chdir : Z := 9.
Definition SYS_dup : Z := 10.
Definition SYS_getpid : Z := 11.
Definition SYS_sbrk : Z := 12.
Definition SYS_sleep : Z := 13.
Definition SYS_uptime : Z := 14.
Definition SYS_open : Z := 15.
Definition SYS_write : Z := 16.
Definition SYS_mknod : Z := 17.
Definition SYS_unlink : Z := 18.
Definition SYS_link : Z := 19.
Definition SYS_mkdir : Z := 20.
Definition SYS_close : Z := 21.
Definition SYS_pgaccess : Z := 30.

(** li a7, num; ecall; ret *)
Definition entry (num : Z) (args : list Z) : U Z := fun m => ECall num args m URet.

(** A stub of a function that user.h declares int. *)
Definition entry_int (num : Z) (args : list Z) : U Z := let! a0 := entry num args in uret (i32 a0).

Definition fork : U Z := entry_int SYS_fork [].
Definition exit {A : Type} (status : Z) : U A := fun _ => UExit (i32 status).
Definition wait (status : Z) : U Z := entry_int SYS_wait [status].
Definition pipe (p : Z) : U Z := entry_int SYS_pipe [p].
Definition read (fd p n : Z) : U Z := entry_int SYS_read [fd; p; n].
Definition write (fd p n : Z) : U Z := entry_int SYS_write [fd; p; n].
Definition close (fd : Z) : U Z := entry_int SYS_close [fd].
Definition kill (pid : Z) : U Z := entry_int SYS_kill [pid].
Definition exec (path argv : Z) : U Z := entry_int SYS_exec [path; argv].
Definition open (path mode : Z) : U Z := entry_int SYS_open [path; mode].
Definition mknod (path major minor : Z) : U Z := entry_int SYS_mknod [path; major; minor].
Definition unlink (path : Z) : U Z := entry_int SYS_unlink [path].
Definition fstat (fd st : Z) : U Z := entry_int SYS_fstat [fd; st].
Definition link (old new : Z) : U Z := entry_int SYS_link [old; new].
Definition mkdir (path : Z) : U Z := entry_int SYS_mkdir [path].
Definition chdir (path : Z) : U Z := entry_int SYS_chdir [path].
Definition dup (fd : Z) : U Z := entry_int SYS_dup [fd].
Definition getpid : U Z := entry_int SYS_getpid [].
Definition sbrk (n : Z) : U Z := entry SYS_sbrk [i32 n].
Definition sleep (n : Z) : U Z := entry_int SYS_sleep [n].
Definition uptime : U Z := entry_int SYS_uptime [].
Definition pgaccess (base len mask : Z) : U Z := entry_int SYS_pgaccess [base; len; mask].

(** * Programs over an operating system *)

(** What a process sees of the kernel: [sys num args m s a0 m' s'] when the call may
    return [a0] and leave memory [m'] and the kernel in state [s']. *)
Class Os := {
  os : Type;
  sys : Z -> list Z -> mem -> os -> Z -> mem -> os -> Prop;
}.

Section Logic.
Context {OS : Os}.

(** Every run from [s] ends: it returns in a state in [Q], or exits in a state in [E].  A call
    must be able to return. *)
Fixpoint uwp {A : Type} (t : uout A) (s : os) (Q : A -> mem -> os -> Prop) (E : Z -> os -> Prop) : Prop :=
  match t with
  | URet a m => Q a m s
  | UExit n => E n s
  | ECall num args m r =>
      (exists a0 m' s', sys num args m s a0 m' s') /\
      forall a0 m' s', sys num args m s a0 m' s' -> uwp (r a0 m') s' Q E
  | UFault _ | UNoFuel => False
  end.

Lemma uwp_mono {A : Type} (t : uout A) (Q Q' : A -> mem -> os -> Prop) (E E' : Z -> os -> Prop) :
  (forall a m s, Q a m s -> Q' a m s) -> (forall n s, E n s -> E' n s) ->
  forall s, uwp t s Q E -> uwp t s Q' E'.
Proof.
  intros HQ HE. induction t as [a m|n|num args m r IH|w|]; intros s; simpl; auto.
  intros [Hx H]. split; [done|]. intros a0 m' s' Hs. apply IH. by apply (H a0 m').
Qed.

Lemma uwp_bind {A B : Type} (u : U A) (f : A -> U B) m s Q E :
  uwp (u m) s (fun a m' s' => uwp (f a m') s' Q E) E -> uwp (ubind u f m) s Q E.
Proof.
  unfold ubind. generalize (u m) as t. intros t. revert s. induction t as [a m'|n|num args m' r IH|w|]; intros s; simpl; auto.
  intros [Hx H]. split; [done|]. intros a0 m2 s' Hs. apply IH. by apply (H a0 m2).
Qed.

Lemma uwp_bind_mono {A B : Type} (u : U A) (f : A -> U B) m s (R : A -> mem -> os -> Prop) Q E :
  uwp (u m) s R E -> (forall a m' s', R a m' s' -> uwp (f a m') s' Q E) -> uwp (ubind u f m) s Q E.
Proof. intros H HR. apply uwp_bind. by apply (uwp_mono _ R _ E E). Qed.

Lemma uwp_bind_run {A B : Type} (u : U A) (f : A -> U B) m a m' s Q E :
  u m = URet a m' -> uwp (f a m') s Q E -> uwp (ubind u f m) s Q E.
Proof. intros Hu Hf. unfold ubind. by rewrite Hu. Qed.

(** A call whose result is an int. *)
Lemma uwp_call {A : Type} num args (f : Z -> U A) m s Q E :
  (exists a0 m' s', sys num args m s a0 m' s') ->
  (forall a0 m' s', sys num args m s a0 m' s' -> uwp (f (i32 a0) m') s' Q E) ->
  uwp (ubind (entry_int num args) f m) s Q E.
Proof. intros Hx H. split; [done|]. exact H. Qed.
End Logic.

Lemma ubind_run {A B : Type} (u : U A) (f : A -> U B) m a m' : u m = URet a m' -> ubind u f m = f a m'.
Proof. unfold ubind. by intros ->. Qed.

(** * Strings in memory *)

(** [l] is the C string at [p]. *)
Definition cstr_at (m : mem) (p : Z) (l : list Z) : Prop :=
  (forall i c, l !! i = Some c -> ld8 m (p + Z.of_nat i) = c /\ c <> 0) /\ ld8 m (p + Z.of_nat (length l)) = 0.

(** The bytes [l] are at [p]. *)
Definition bytes_in (m : mem) (p : Z) (l : list Z) : Prop :=
  forall i c, l !! i = Some c -> ld8 m (p + Z.of_nat i) = c.

(** [m'] differs from [m] at most at [p, p + n). *)
Definition same_but (p n : Z) (m m' : mem) : Prop :=
  forall a, ~ (p <= a < p + n) -> ld8 m' a = ld8 m a.

Lemma cstr_nil m p : cstr_at m p [] <-> ld8 m p = 0.
Proof. unfold cstr_at. simpl. rewrite Z.add_0_r. split; [by intros [_ H]|]. intros H. split; [|done]. intros i c Hi. by rewrite lookup_nil in Hi. Qed.

Lemma cstr_cons m p c l : cstr_at m p (c :: l) <-> ld8 m p = c /\ c <> 0 /\ cstr_at m (p + 1) l.
Proof.
  unfold cstr_at. split.
  - intros [H1 H2]. destruct (H1 0%nat c eq_refl) as [Hc Hn]. rewrite Z.add_0_r in Hc. split_and!; [done|done| |].
    + intros i d Hi. destruct (H1 (S i) d Hi) as [Hd Hd']. split; [|done]. rewrite <- Hd. f_equal. lia.
    + rewrite <- H2. f_equal. simpl. lia.
  - intros (Hc & Hn & H1 & H2). split.
    + intros [|i] d Hi; [simplify_eq/=; by rewrite Z.add_0_r|]. destruct (H1 i d Hi) as [Hd Hd']. split; [|done].
      rewrite <- Hd. f_equal. lia.
    + rewrite <- H2. f_equal. simpl. lia.
Qed.

Lemma cstr_unique m p l l' : cstr_at m p l -> cstr_at m p l' -> l = l'.
Proof.
  revert p l'. induction l as [|c l IH]; intros p [|c' l']; rewrite ?cstr_nil, ?cstr_cons; try done.
  - intros H (H1 & H2 & _). congruence.
  - intros (H1 & H2 & _) H. congruence.
  - intros (-> & _ & H1) (<- & _ & H2). f_equal. by apply (IH (p + 1)).
Qed.

Lemma cstr_ext m m' p l :
  (forall a, p <= a <= p + Z.of_nat (length l) -> ld8 m' a = ld8 m a) -> cstr_at m p l -> cstr_at m' p l.
Proof.
  intros H [H1 H2]. split.
  - intros i c Hi. pose proof (lookup_lt_Some _ _ _ Hi). rewrite H by lia. by apply H1.
  - rewrite H by lia. done.
Qed.

Lemma cstr_range m p l : cstr_at m p l -> Forall (fun c => 0 < c < 256) l.
Proof.
  intros [H _]. apply Forall_lookup. intros i c Hi. destruct (H i c Hi) as [Hc Hn].
  pose proof (ld8_range m (p + Z.of_nat i)). lia.
Qed.

Lemma bytes_in_app m p l l' : bytes_in m p (l ++ l') <-> bytes_in m p l /\ bytes_in m (p + Z.of_nat (length l)) l'.
Proof.
  unfold bytes_in. split.
  - intros H. split; intros i c Hi.
    + apply H. by apply lookup_app_l_Some.
    + rewrite <- Z.add_assoc, <- Nat2Z.inj_add. apply H. rewrite lookup_app_r by lia. by replace (length l + i - length l)%nat with i by lia.
  - intros [H1 H2] i c [Hi|[Hl Hi]]%lookup_app_Some; [by apply H1|].
    rewrite <- (H2 _ _ Hi). f_equal. lia.
Qed.

Lemma bytes_in_cons m p c l : bytes_in m p (c :: l) <-> ld8 m p = c /\ bytes_in m (p + 1) l.
Proof.
  change (c :: l) with ([c] ++ l). rewrite bytes_in_app. simpl. change (Z.of_nat 1) with 1. f_equiv.
  unfold bytes_in. split.
  - intros H. rewrite <- (H 0%nat c eq_refl). f_equal. lia.
  - intros H [|i] d Hi; simplify_eq/=. f_equal. lia.
Qed.

Lemma bytes_in_ext m m' p l :
  (forall a, p <= a < p + Z.of_nat (length l) -> ld8 m' a = ld8 m a) -> bytes_in m p l -> bytes_in m' p l.
Proof. intros H H1 i c Hi. pose proof (lookup_lt_Some _ _ _ Hi). rewrite H by lia. by apply H1. Qed.

Lemma bytes_in_st_bytes m p l : Forall (fun c => 0 <= c < 256) l -> bytes_in (st_bytes m p l) p l.
Proof.
  intros Hl i c Hi. pose proof (lookup_lt_Some _ _ _ Hi). rewrite ld8_st_bytes, decide_True by lia.
  replace (Z.to_nat (p + Z.of_nat i - p)) with i by lia. rewrite Hi. simpl.
  apply u8_small. by apply (Forall_lookup_1 _ _ _ _ Hl Hi).
Qed.

Lemma bytes_at_in m p l : bytes_in m p l -> bytes_at m p (length l) = l.
Proof.
  revert p. induction l as [|c l IH]; intros p; simpl; [done|]. rewrite bytes_in_cons. intros [H1 H2]. change (ld8 m p :: bytes_at m (p + 1) (length l) = c :: l). by rewrite H1, IH.
Qed.

Lemma bytes_in_at m p l : bytes_at m p (length l) = l -> bytes_in m p l.
Proof.
  intros E i c Hi. pose proof (lookup_lt_Some _ _ _ Hi). rewrite <- E, lookup_bytes_at in Hi by done. by injection Hi.
Qed.

Lemma cstr_of_bytes m p l : bytes_in m p (l ++ [0]) -> Forall (fun c => c <> 0) l -> cstr_at m p l.
Proof.
  intros [H1 H2]%bytes_in_app Hn. split.
  - intros i c Hi. split; [by apply H1|]. by apply (Forall_lookup_1 _ _ _ _ Hn Hi).
  - apply bytes_in_cons in H2 as [H2 _]. exact H2.
Qed.

(** A string cut at one of its characters. *)
Lemma cstr_cut m p l c rest :
  cstr_at m p (l ++ c :: rest) -> bytes_in m p l /\ ld8 m (p + Z.of_nat (length l)) = c /\ cstr_at m (p + Z.of_nat (length l) + 1) rest.
Proof.
  revert p. induction l as [|x l IH]; intros p; simpl; rewrite cstr_cons.
  - intros (Hc & _ & H). rewrite Z.add_0_r. split; [by intros i d Hi|]. done.
  - intros (Hx & _ & H). destruct (IH _ H) as (H1 & H2 & H3). rewrite bytes_in_cons.
    replace (p + Z.of_nat (S (length l))) with (p + 1 + Z.of_nat (length l)) by lia. done.
Qed.

Lemma cstr_terminated m p l c rest : cstr_at m p (l ++ c :: rest) -> cstr_at (st8 m (p + Z.of_nat (length l)) 0) p l.
Proof.
  intros [H1 _]. split.
  - intros i x Hi. pose proof (lookup_lt_Some _ _ _ Hi). rewrite ld8_st8_ne by lia. apply H1. by apply lookup_app_l_Some.
  - by rewrite ld8_st8_eq.
Qed.
