(* ===== verification/Initcode.v ===== *)
(** The first user program: user/initcode.S, whose assembled bytes proc.c holds
    in initcode[].  A decoder for the instructions in them, and the proof that
    the bytes are the program: exec("/init", argv), then exit for ever. *)

From Stdlib Require Import ZArith Lia.
From stdpp Require Import base gmap list_numbers strings numbers functions list.
From S2P Require Import Prelude Mem Riscv Kernel Spinlock Kalloc Vm Printf Sched Sleeplock Virtio Bio Log Fs.
From S2P Require Import Console Pipe File ProcLife User Asm AsmSpec.

Open Scope Z_scope.

Implicit Types (s : machine) (m : mem).

(** * Instructions and their encoding *)

Inductive uinstr : Type :=
  | UAuipc (rd : reg) (imm : Z)
  | UAddi (rd rs : reg) (imm : Z)
  | UJal (rd : reg) (off : Z)
  | UEcall.

#[global] Instance uinstr_eq_dec : EqDecision uinstr.
Proof. solve_decision. Defined.

(** x0 to x31 *)
Definition reg_names : list reg :=
  [zero; ra; sp; gp; tp; t0; t1; t2; s0; s1; a0; a1; a2; a3; a4; a5; a6; a7;
   s2; s3; s4; s5; s6; s7; s8; s9; s10; s11; t3; t4; t5; t6].

Definition bits (w lo n : Z) : Z := Z.shiftr w lo mod 2 ^ n.
Definition sign_extend (n x : Z) : Z := if x <? 2 ^ (n - 1) then x else x - 2 ^ n.
Definition reg_at (w lo : Z) : reg := default zero (reg_names !! Z.to_nat (bits w lo 5)).

(** The offset of a J-type instruction. *)
Definition jtype_imm (w : Z) : Z :=
  sign_extend 21 (2 * bits w 21 10 + 2 ^ 11 * bits w 20 1 + 2 ^ 12 * bits w 12 8 + 2 ^ 20 * bits w 31 1).

Definition decode (w : Z) : option uinstr :=
  let opcode := bits w 0 7 in
  if opcode =? 0x17 then Some (UAuipc (reg_at w 7) (sign_extend 20 (bits w 12 20)))
  else if (opcode =? 0x13) && (bits w 12 3 =? 0) then
    Some (UAddi (reg_at w 7) (reg_at w 15) (sign_extend 12 (bits w 20 12)))
  else if opcode =? 0x6f then Some (UJal (reg_at w 7) (jtype_imm w))
  else if w =? 0x73 then Some UEcall
  else None.

(** * Running user code up to its next system call *)

Definition ustep (i : uinstr) (s : machine) : machine :=
  match i with
  | UAuipc rd imm => set_pc (pc s + 4) (set_reg rd (u64 (pc s + imm * 4096)) s)
  | UAddi rd rs imm => set_pc (pc s + 4) (set_reg rd (u64 (get_reg rs s + imm)) s)
  | UJal rd off => set_pc (u64 (pc s + off)) (set_reg rd (pc s + 4) s)
  | UEcall => s
  end.

(** The machine at the ecall; [None] if there is none within [fuel]
    instructions or an instruction is not decoded. *)
Fixpoint run_to_ecall (fuel : nat) (s : machine) : option machine :=
  match fuel with
  | O => None
  | S f =>
      match decode (ld32 (memory s) (pc s)) with
      | Some UEcall => Some s
      | Some i => run_to_ecall f (ustep i s)
      | None => None
      end
  end.

(** * initcode.S

    The labels are init = 36 and argv = 43; la is a pair of auipc and addi,
    relative to the pc. *)

Definition initcode_text : list uinstr :=
  [UAuipc a0 0; UAddi a0 a0 36;          (* la a0, init *)
   UAuipc a1 0; UAddi a1 a1 (43 - 8);    (* la a1, argv *)
   UAddi a7 zero SYS_exec;               (* li a7, SYS_exec *)
   UEcall;
   UAddi a7 zero SYS_exit;               (* exit: li a7, SYS_exit *)
   UEcall;
   UJal ra (-8)].                        (* jal exit *)

(** char init[] = "/init\0"; char *argv[] = { init, 0 }; *)
Definition initcode_data : list Z := [47; 105; 110; 105; 116; 0; 0] ++ le_bytes 4 36 ++ le_bytes 4 0.

(** The memory of the first process: initcode at address 0, then zeros. *)
Definition initcode_image m : Prop :=
  forall a, 0 <= a < 4096 -> ld8 m a = default 0 (initcode !! Z.to_nat a).

Definition image0 : mem := st_bytes ∅ 0 initcode.

Lemma image_ld8 m a : initcode_image m -> 0 <= a < 64 -> ld8 m a = ld8 image0 a.
Proof.
  intros Hm Ha. rewrite Hm by lia. unfold image0. rewrite ld8_st_bytes.
  assert (HF : Forall (fun c => 0 <= c < 256) initcode) by decided.
  case_decide as Hd.
  - destruct (lookup_lt_is_Some_2 initcode (Z.to_nat a)) as [x Hx]; [lia|].
    replace (a - 0) with a by lia. rewrite Hx. simpl. symmetry. apply Z.mod_small.
    exact (Forall_lookup_1 _ _ _ _ HF Hx).
  - rewrite lookup_ge_None_2 by lia. done.
Qed.

Lemma image_ldn n m a : initcode_image m -> 0 <= a -> a + Z.of_nat n <= 64 -> ldn n m a = ldn n image0 a.
Proof. intros Hm Ha Hn. apply ldn_ext. intros b Hb. apply image_ld8; [done|lia]. Qed.

Lemma image_bytes n m a : initcode_image m -> 0 <= a -> a + Z.of_nat n <= 64 -> bytes_at m a n = bytes_at image0 a n.
Proof.
  intros Hm. revert a. induction n as [|n IH]; intros a Ha Hn; [done|].
  change (ld8 m a :: bytes_at m (a + 1) n = ld8 image0 a :: bytes_at image0 (a + 1) n).
  rewrite (image_ld8 m a Hm) by lia. f_equal. apply IH; lia.
Qed.

(** The words at the addresses of the instructions decode to initcode.S. *)
Lemma image_decode m i x :
  initcode_image m -> initcode_text !! i = Some x -> decode (ld32 m (4 * Z.of_nat i)) = Some x.
Proof.
  intros Hm Hi. assert (i < 9)%nat by (by apply lookup_lt_Some in Hi).
  unfold ld32. rewrite (image_ldn 4 m) by (done || lia). rewrite <- Hi. clear Hi.
  do 9 (destruct i as [|i]; [by vm_compute|]). lia.
Qed.

Lemma run_one f s x : decode (ld32 (memory s) (pc s)) = Some x -> x <> UEcall ->
  run_to_ecall (S f) s = run_to_ecall f (ustep x s).
Proof. intros E Hx. cbn [run_to_ecall]. rewrite E. by destruct x. Qed.

Lemma run_ecall f s : decode (ld32 (memory s) (pc s)) = Some UEcall -> run_to_ecall (S f) s = Some s.
Proof. intros E. cbn [run_to_ecall]. by rewrite E. Qed.

(** Run instruction [i] of the program; [Hd] decodes it. *)
Ltac run_next Hd i :=
  match goal with |- run_to_ecall _ ?s = _ => rewrite (run_one _ s _ (Hd s i _ eq_refl eq_refl eq_refl)) by done end.


Definition init_machine : machine := mkMachine (fun _ => 0) (fun _ => 0) image0 0 UserMode.

