(* ===== verification/Ulib.v ===== *)
(** user/ulib.c and user/printf.c: the C library of user programs. *)

From Stdlib Require Import ZArith Lia.
From stdpp Require Import base gmap list_numbers strings numbers list.
From S2P Require Import Prelude Mem Riscv User.

Open Scope Z_scope.
Open Scope user_scope.

(** A bound on the strings that user programs handle: an argument of exec() fits a page, and so does each
    buffer of the programs. *)
Definition str_fuel : nat := Z.to_nat 4097.

(** * ulib.c *)

(** while(( *s++ = *t++) != 0) ; *)
Fixpoint strcpy_loop (fuel : nat) (s t : Z) : U unit :=
  match fuel with
  | O => unofuel
  | S f =>
      let! c := load8 t in
      do! store8 s c;
      if negb (c =? 0) then strcpy_loop f (s + 1) (t + 1) else uret tt
  end.

Definition strcpy (s t : Z) : U Z :=
  let os := s in
  do! strcpy_loop str_fuel s t;
  uret os.

(** while( *p && *p == *q) p++, q++; return (uchar)*p - (uchar)*q; *)
Fixpoint strcmp_loop (fuel : nat) (m : mem) (p q : Z) : option Z :=
  match fuel with
  | O => None
  | S f =>
      if negb (ld8 m p =? 0) && (ld8 m p =? ld8 m q) then strcmp_loop f m (p + 1) (q + 1)
      else Some (ld8 m p - ld8 m q)
  end.

Definition strcmp (p q : Z) : U Z := ureads (fun m => strcmp_loop str_fuel m p q).

(** for(n = 0; s[n]; n++) ; return n; *)
Fixpoint strlen_loop (fuel : nat) (m : mem) (s n : Z) : option Z :=
  match fuel with
  | O => None
  | S f => if negb (ld8 m (s + n) =? 0) then strlen_loop f m s (n + 1) else Some n
  end.

Definition strlen (s : Z) : U Z := ureads (fun m => strlen_loop str_fuel m s 0).

(** for(i = 0; i < n; i++) cdst[i] = c; *)
Definition memset (dst c n : Z) : U Z :=
  do! ustore (fun m => memset_loop (Z.to_nat (u32 n)) m dst c 0);
  uret dst.

(** for(; *s; s++) if( *s == c) return (char* )s; return 0; *)
Fixpoint strchr_loop (fuel : nat) (m : mem) (s c : Z) : option Z :=
  match fuel with
  | O => None
  | S f =>
      if ld8 m s =? 0 then Some 0 else
      if ld8 m s =? c then Some s else strchr_loop f m (s + 1) c
  end.

Definition strchr (s c : Z) : U Z := ureads (fun m => strchr_loop str_fuel m s c).

Section Calls.
Context {IM : Image}.

(** for(i=0; i+1 < max; ){ cc = read(0, &c, 1); ... } *)
Fixpoint gets_loop (fuel : nat) (buf max i : Z) : U Z :=
  match fuel with
  | O => unofuel
  | S f =>
      if i + 1 <? max then
        let! cc := read 0 (var "gets.c") 1 in
        if cc <? 1 then uret i else
        let! c := load8 (var "gets.c") in
        do! store8 (buf + i) c;
        let i := i + 1 in
        if (c =? 10) || (c =? 13) then uret i else gets_loop f buf max i
      else uret i
  end.

Definition gets (buf max : Z) : U Z :=
  let! i := gets_loop (S (Z.to_nat max)) buf max 0 in
  do! store8 (buf + i) 0;
  uret buf.

(** O_RDONLY is 0. *)
Definition stat (n st : Z) : U Z :=
  let! fd := open n 0 in
  if fd <? 0 then uret (-1) else
  let! r := fstat fd st in
  do! close fd;
  uret r.

(** while('0' <= *s && *s <= '9') n = n*10 + *s++ - '0'; *)
Fixpoint atoi_loop (fuel : nat) (m : mem) (s n : Z) : option Z :=
  match fuel with
  | O => None
  | S f =>
      if (48 <=? ld8 m s) && (ld8 m s <=? 57) then atoi_loop f m (s + 1) (i32 (n * 10 + ld8 m s - 48))
      else Some n
  end.

Definition atoi (s : Z) : U Z := ureads (fun m => atoi_loop str_fuel m s 0).

Definition memmove (vdst vsrc n : Z) : U Z :=
  do! ustore (fun m =>
        if vdst <? vsrc then memmove_up (Z.to_nat n) m vdst vsrc
        else memmove_down (Z.to_nat n) m (vdst + n) (vsrc + n));
  uret vdst.

(** while (n-- > 0) { if ( *p1 != *p2) return *p1 - *p2; p1++; p2++; } *)
Definition memcmp (s1 s2 n : Z) : U Z := ureads (fun m => Some (memcmp_loop (Z.to_nat (u32 n)) m s1 s2)).

Definition memcpy (dst src n : Z) : U Z := memmove dst src n.

Definition ugetpid : U Z := let! pid := load32 USYSCALL in uret (i32 pid).

(** wrapper so that it's OK if main() does not call exit(). *)
Definition _main (main : U Z) : U unit :=
  do! main;
  exit 0.

(** * printf.c *)

Definition digits : list Z := str "0123456789ABCDEF".

Definition putc (fd c : Z) : U unit :=
  do! store8 (var "putc.c") c;
  do! write fd (var "putc.c") 1;
  uret tt.

(** do{ buf[i++] = digits[x % base]; }while((x /= base) != 0);
    [buf] is the part of buf[16] written so far. *)
Fixpoint printint_loop (fuel : nat) (x base : Z) (buf : list Z) : U (list Z) :=
  match fuel with
  | O => unofuel
  | S f =>
      if 16 <=? Z.of_nat (length buf) then ufault "buf" else
      match digits !! Z.to_nat (x mod base) with
      | Some d =>
          let buf := buf ++ [d] in
          let x := x / base in
          if negb (x =? 0) then printint_loop f x base buf else uret buf
      | None => ufault "digits"
      end
  end.

(** while(--i >= 0) putc(fd, buf[i]); the argument is buf[i - 1], buf[i - 2], .. *)
Fixpoint put_rev (fd : Z) (l : list Z) : U unit :=
  match l with
  | [] => uret tt
  | c :: l' => do! putc fd c; put_rev fd l'
  end.

Definition printint (fd xx base : Z) (sgn : bool) : U unit :=
  let neg := sgn && (xx <? 0) in
  let x := if neg then u32 (- xx) else u32 xx in
  let! buf := printint_loop 32 x base [] in
  if neg then
    if 16 <=? Z.of_nat (length buf) then ufault "buf" else put_rev fd (rev (buf ++ [45]))
  else put_rev fd (rev buf).

(** for (i = 0; i < (sizeof(uint64) * 2); i++, x <<= 4) putc(fd, digits[x >> 60]); *)
Fixpoint printptr_loop (n : nat) (fd x : Z) : U unit :=
  match n with
  | O => uret tt
  | S n' =>
      match digits !! Z.to_nat (Z.shiftr x 60) with
      | Some d => do! putc fd d; printptr_loop n' fd (u64 (Z.shiftl x 4))
      | None => ufault "digits"
      end
  end.

Definition printptr (fd x : Z) : U unit :=
  do! putc fd 48;
  do! putc fd 120;
  printptr_loop 16 fd x.

(** while( *s != 0){ putc(fd, *s); s++; } *)
Fixpoint put_str (fuel : nat) (fd s : Z) : U unit :=
  match fuel with
  | O => unofuel
  | S f =>
      let! c := load8 s in
      if negb (c =? 0) then do! putc fd c; put_str f fd (s + 1) else uret tt
  end.

(** va_arg: the next argument register; what comes after the last is undefined. *)
Definition va_arg (ap : list Z) : U (Z * list Z) :=
  match ap with
  | v :: ap' => uret (v, ap')
  | [] => ufault "va_arg"
  end.

(** The conversion of character [c] after a '%'. *)
Definition convert (fd c : Z) (ap : list Z) : U (list Z) :=
  if c =? 100 then
    let! '(v, ap) := va_arg ap in do! printint fd (i32 v) 10 true; uret ap
  else if c =? 108 then
    let! '(v, ap) := va_arg ap in do! printint fd (i32 v) 10 false; uret ap
  else if c =? 120 then
    let! '(v, ap) := va_arg ap in do! printint fd (i32 v) 16 false; uret ap
  else if c =? 112 then
    let! '(v, ap) := va_arg ap in do! printptr fd (u64 v); uret ap
  else if c =? 115 then
    let! '(s, ap) := va_arg ap in
    do! put_str str_fuel fd (if s =? 0 then lit (str "(null)") else s);
    uret ap
  else if c =? 99 then
    let! '(v, ap) := va_arg ap in do! putc fd v; uret ap
  else if c =? 37 then
    do! putc fd c; uret ap
  else
    do! putc fd 37; do! putc fd c; uret ap.

(** for(i = 0; fmt[i]; i++); [state] is 0 or '%'. *)
Fixpoint vprintf_loop (fuel : nat) (fd fmt i state : Z) (ap : list Z) : U unit :=
  match fuel with
  | O => unofuel
  | S f =>
      let! c := load8 (fmt + i) in
      if c =? 0 then uret tt else
      if state =? 0 then
        if c =? 37 then vprintf_loop f fd fmt (i + 1) 37 ap
        else do! putc fd c; vprintf_loop f fd fmt (i + 1) 0 ap
      else if state =? 37 then
        let! ap := convert fd c ap in
        vprintf_loop f fd fmt (i + 1) 0 ap
      else vprintf_loop f fd fmt (i + 1) state ap
  end.

Definition vprintf (fd fmt : Z) (ap : list Z) : U unit := vprintf_loop str_fuel fd fmt 0 0 ap.

(** The arguments after the format are those in the argument registers. *)
Definition fprintf (fd fmt : Z) (ap : list Z) : U unit := vprintf fd fmt ap.
Definition printf (fmt : Z) (ap : list Z) : U unit := vprintf 1 fmt ap.
End Calls.

#[global] Opaque str_fuel.
