(* ===== verification/UlibSpec.v ===== *)
(** What the functions of user/ulib.c do, and the files that a program reads and writes. *)

From Stdlib Require Import ZArith Lia.
From stdpp Require Import base gmap list_numbers strings numbers list.
From S2P Require Import Prelude Mem Riscv User Ulib.

Open Scope Z_scope.
Open Scope user_scope.

(** * Strings *)

Lemma strlen_loop_run m s l : forall fuel n,
  cstr_at m (s + n) l -> (length l < fuel)%nat -> strlen_loop fuel m s n = Some (n + Z.of_nat (length l)).
Proof.
  induction l as [|c l IH]; intros [|f] n; simpl; try lia.
  - rewrite cstr_nil. intros -> _. simpl. f_equal. lia.
  - rewrite cstr_cons. intros (-> & Hc & H) Hf. rewrite (proj2 (Z.eqb_neq c 0)) by done. simpl.
    rewrite IH; [f_equal; lia|by rewrite Z.add_assoc|lia].
Qed.

Lemma strlen_run m s l : cstr_at m s l -> (length l < str_fuel)%nat -> strlen s m = URet (Z.of_nat (length l)) m.
Proof. intros H Hf. unfold strlen, ureads. rewrite (strlen_loop_run m s l); [done|by rewrite Z.add_0_r|done]. Qed.

Lemma strchr_loop_found m c l1 l2 : c <> 0 -> c ∉ l1 -> forall fuel s,
  cstr_at m s (l1 ++ c :: l2) -> (length l1 < fuel)%nat -> strchr_loop fuel m s c = Some (s + Z.of_nat (length l1)).
Proof.
  intros Hc. induction l1 as [|x l1 IH]; intros Hn [|f] s; simpl; try lia; rewrite cstr_cons; intros (-> & Hx & H) Hf.
  - rewrite (proj2 (Z.eqb_neq c 0)), Z.eqb_refl by done. f_equal. lia.
  - rewrite not_elem_of_cons in Hn. rewrite (proj2 (Z.eqb_neq x 0)), (proj2 (Z.eqb_neq x c)) by (intuition congruence).
    rewrite IH; [f_equal; lia|by apply Hn|done|lia].
Qed.

Lemma strchr_loop_missing m c l : c ∉ l -> forall fuel s,
  cstr_at m s l -> (length l < fuel)%nat -> strchr_loop fuel m s c = Some 0.
Proof.
  induction l as [|x l IH]; intros Hn [|f] s; simpl; try lia.
  - rewrite cstr_nil. by intros ->.
  - rewrite cstr_cons. intros (-> & Hx & H) Hf. rewrite not_elem_of_cons in Hn.
    rewrite (proj2 (Z.eqb_neq x 0)), (proj2 (Z.eqb_neq x c)) by (intuition congruence). apply IH; [by apply Hn|done|lia].
Qed.

Lemma strchr_found m s c l1 l2 :
  c <> 0 -> c ∉ l1 -> cstr_at m s (l1 ++ c :: l2) -> (length l1 < str_fuel)%nat -> strchr s c m = URet (s + Z.of_nat (length l1)) m.
Proof. intros. unfold strchr, ureads. by rewrite (strchr_loop_found m c l1 l2). Qed.

Lemma strchr_missing m s c l : c ∉ l -> cstr_at m s l -> (length l < str_fuel)%nat -> strchr s c m = URet 0 m.
Proof. intros. unfold strchr, ureads. by rewrite (strchr_loop_missing m c l). Qed.

(** memmove() copies as if through a buffer. *)
Lemma memmove_run m d s n : 0 <= n -> exists m',
  memmove d s n m = URet d m' /\
  forall a, ld8 m' a = if decide (d <= a < d + n) then ld8 m (s + (a - d)) else ld8 m a.
Proof.
  intros Hn. unfold memmove. eexists. split; [reflexivity|]. intros a. destruct (Z.ltb_spec d s).
  - rewrite ld8_memmove_up by lia. by rewrite Z2Nat.id by lia.
  - rewrite ld8_memmove_down by lia. replace (d + n - Z.of_nat (Z.to_nat n)) with d by lia.
    repeat case_decide; try lia; f_equal; lia.
Qed.

Lemma memset_run m d c n : 0 <= n < 2 ^ 32 -> exists m',
  memset d c n m = URet d m' /\ forall a, ld8 m' a = if decide (d <= a < d + n) then u8 c else ld8 m a.
Proof.
  intros Hn. unfold memset. eexists. split; [reflexivity|]. intros a.
  rewrite u32_small by lia. rewrite ld8_memset_loop, Z2Nat.id, Z.add_0_r by lia. done.
Qed.

(** * Files

    What a program relies on when it reads file descriptor [fd] and writes to descriptor [o]: read() hands out the bytes [inp] in order, in pieces of any length and none only at the end;
    write() appends to [out]. *)
Class Stdio `{OS : Os} (fd o : Z) := {
  inp : os -> list Z;
  out : os -> list Z;
  inp_bytes : forall s, Forall (fun c => 0 <= c < 256) (inp s);
  read_some : forall m s p n, 0 <= n -> exists r m' s', sys SYS_read [fd; p; n] m s r m' s';
  read_law : forall m s p n r m' s', 0 <= n -> sys SYS_read [fd; p; n] m s r m' s' ->
    0 <= r <= n /\ (r = 0 -> n = 0 \/ inp s = []) /\ r <= Z.of_nat (length (inp s)) /\
    m' = st_bytes m p (take (Z.to_nat r) (inp s)) /\ inp s' = drop (Z.to_nat r) (inp s) /\ out s' = out s;
  write_some : forall m s p n, 0 <= n -> exists r m' s', sys SYS_write [o; p; n] m s r m' s';
  write_law : forall m s p n r m' s', 0 <= n -> sys SYS_write [o; p; n] m s r m' s' ->
    r = n /\ m' = m /\ inp s' = inp s /\ out s' = out s ++ bytes_at m p (Z.to_nat n);
}.

(** A terminal or a file read in pieces of at most [chunk] bytes. *)
Record stream : Type := mkStream { st_in : list Z; st_out : list Z }.

Section Stream.
Context (fd o chunk : Z).

Definition stream_sys (num : Z) (args : list Z) (m : mem) (s : stream) (a0 : Z) (m' : mem) (s' : stream) : Prop :=
  match args with
  | [f; p; n] =>
      if num =? SYS_read then
        let bs := take (Z.to_nat (Z.min n chunk)) (u8 <$> st_in s) in
        f = fd /\ a0 = Z.of_nat (length bs) /\ m' = st_bytes m p bs /\ s' = mkStream (drop (length bs) (st_in s)) (st_out s)
      else if num =? SYS_write then
        f = o /\ a0 = n /\ m' = m /\ s' = mkStream (st_in s) (st_out s ++ bytes_at m p (Z.to_nat n))
      else False
  | _ => False
  end.

Definition stream_os : Os := {| os := stream; sys := stream_sys |}.

Lemma stream_stdio : 0 < chunk -> @Stdio stream_os fd o.
Proof.
  intros Hc. refine (@Build_Stdio stream_os fd o (fun s => u8 <$> st_in s) st_out _ _ _ _ _).
  - intros s. apply Forall_fmap, Forall_true. intros x. apply u8_range.
  - intros m s p n Hn. eexists _, _, _. simpl. split_and!; reflexivity.
  - intros m s p n r m' s' Hn. cbn. intros (_ & -> & -> & ->). rewrite length_take, length_fmap. simpl.
    rewrite !Nat2Z.id, fmap_drop. split; [lia|]. split_and!; try done.
    + intros E. destruct (st_in s); [by right|]. left. simpl in E. lia.
    + lia.
    + f_equal. destruct (Nat.le_ge_cases (Z.to_nat (Z.min n chunk)) (length (st_in s))).
      * by rewrite Nat.min_l.
      * rewrite Nat.min_r by done. rewrite !take_ge; rewrite ?length_fmap; lia || done.
  - intros m s p n Hn. eexists _, _, _. simpl. split_and!; reflexivity.
  - intros m s p n r m' s' Hn. cbn. by intros (_ & -> & -> & ->).
Defined.

(** A kernel one part of which is such a stream. *)
Lemma stream_lift (OS : Os) (part : os -> stream) : 0 < chunk ->
  (forall num args m s a0 m' s', num = SYS_read \/ num = SYS_write -> sys num args m s a0 m' s' -> stream_sys num args m (part s) a0 m' (part s')) ->
  (forall num args m s a0 m' t, num = SYS_read \/ num = SYS_write -> stream_sys num args m (part s) a0 m' t -> exists s', sys num args m s a0 m' s') ->
  Stdio fd o.
Proof.
  intros Hc Hto Hfrom. pose proof (stream_stdio Hc) as SD.
  refine (@Build_Stdio OS fd o (fun s => @inp _ fd o SD (part s)) (fun s => @out _ fd o SD (part s)) _ _ _ _ _).
  - intros s. apply (@inp_bytes _ fd o SD).
  - intros m s p n Hn. destruct (@read_some _ fd o SD m (part s) p n Hn) as (r & m' & t & H). apply Hfrom in H as [s' H]; [|by left]. by exists r, m', s'.
  - intros m s p n r m' s' Hn H. apply Hto in H; [|by left]. by apply (@read_law _ fd o SD m (part s) p n r m' (part s') Hn).
  - intros m s p n Hn. destruct (@write_some _ fd o SD m (part s) p n Hn) as (r & m' & t & H). apply Hfrom in H as [s' H]; [|by right]. by exists r, m', s'.
  - intros m s p n r m' s' Hn H. apply Hto in H; [|by right]. by apply (@write_law _ fd o SD m (part s) p n r m' (part s') Hn).
Defined.
End Stream.

(** * printf *)

Section Printing.
Context {IM : Image} {OS : Os} (fd o : Z) {SD : Stdio fd o}.
Implicit Types (m : mem) (s : os).

(** Memory but for the variable of putc(). *)
Definition printing (m0 m : mem) : Prop := same_but (var "putc.c") 1 m0 m.

(** Started in memory [m0], [u] returns [a] and has written [t]; nothing else changes. *)
Definition emits {A : Type} (m0 : mem) (u : U A) (t : list Z) (a : A) : Prop :=
  forall m s Q E, printing m0 m ->
    (forall m' s', printing m0 m' -> inp s' = inp s -> out s' = out s ++ t -> Q a m' s') -> uwp (u m) s Q E.

Lemma emits_ret {A : Type} m0 (a : A) : emits m0 (uret a) [] a.
Proof. intros m s Q E Hm K. apply K; [done|done|by rewrite app_nil_r]. Qed.

Lemma emits_bind {A B : Type} m0 (u : U A) (f : A -> U B) t t' a b :
  emits m0 u t a -> emits m0 (f a) t' b -> emits m0 (ubind u f) (t ++ t') b.
Proof.
  intros Hu Hf m s Q E Hm K. apply uwp_bind, Hu; [done|]. intros m' s' Hm' Hi Ho.
  apply Hf; [done|]. intros m2 s2 Hm2 Hi2 Ho2. apply K; [done|by rewrite Hi2|by rewrite Ho2, Ho, app_assoc].
Qed.

Lemma emits_load m0 p : p <> var "putc.c" -> emits m0 (load8 p) [] (ld8 m0 p).
Proof.
  intros Hp m s Q E Hm K. simpl. rewrite (Hm p) by lia. apply K; [done|done|by rewrite app_nil_r].
Qed.

Lemma emits_putc m0 c : emits m0 (putc o c) [u8 c] tt.
Proof.
  intros m s Q E Hm K. unfold putc. eapply uwp_bind_run; [reflexivity|]. apply uwp_call; [apply write_some; lia|].
  intros a0 m' s' Hw. apply write_law in Hw as (-> & -> & Hi & Ho); [|lia]. simpl. apply K.
  - intros a Ha. rewrite ld8_st8_ne by lia. by apply Hm.
  - done.
  - rewrite Ho. f_equal. change (bytes_at (st8 m (var "putc.c") c) (var "putc.c") (Z.to_nat 1)) with
      [ld8 (st8 m (var "putc.c") c) (var "putc.c")]. by rewrite ld8_st8_eq.
Qed.

Lemma emits_byte m0 c : 0 <= c < 256 -> emits m0 (putc o c) [c] tt.
Proof. intros Hc. rewrite <- (u8_small c Hc) at 2. apply emits_putc. Qed.

Lemma emits_put_rev m0 l : emits m0 (put_rev o l) (u8 <$> l) tt.
Proof.
  induction l as [|c l IH]; [apply emits_ret|]. exact (emits_bind m0 (putc o c) _ [u8 c] _ tt tt (emits_putc m0 c) IH).
Qed.

(** The character of a digit. *)
Definition udigit (d : Z) : Z := if d <? 10 then 48 + d else 55 + d.

Lemma udigits_lookup d : 0 <= d < 16 -> digits !! Z.to_nat d = Some (udigit d).
Proof.
  intros Hd. assert (Hc : forallb (fun d => bool_decide (digits !! Z.to_nat d = Some (udigit d))) (seqZ 0 16) = true) by (by vm_compute).
  rewrite forallb_forall in Hc. specialize (Hc d). rewrite bool_decide_eq_true in Hc. apply Hc, list_elem_of_In, elem_of_seqZ. lia.
Qed.

Lemma udigit_byte d : 0 <= d < 16 -> 0 <= udigit d < 256.
Proof. intros. unfold udigit. case_if; lia. Qed.

Lemma uprintint_loop_run base : 2 <= base <= 16 -> forall fuel n x m buf,
  0 <= x < base ^ Z.of_nat n -> (0 < n <= fuel)%nat -> (length buf + n <= 16)%nat ->
  printint_loop fuel x base buf m = URet (buf ++ (udigit <$> to_digits n base x)) m.
Proof.
  intros Hb. induction fuel as [|fuel IH]; intros [|n] x m buf Hx Hn Hlen; try lia.
  pose proof (Z.mod_pos_bound x base ltac:(lia)) as Hm. cbn [printint_loop to_digits]. rewrite (proj2 (Z.leb_gt 16 _)) by lia.
  rewrite (udigits_lookup (x mod base)) by lia. destruct (Z.eqb_spec (x / base) 0) as [E|Hne]; cbn [negb]; [done|].
  apply (div_pow_bound base) in Hx as Hx'; [|lia]. destruct n as [|n]; [simpl in Hx'; lia|].
  rewrite (IH (S n)), <- app_assoc; [done|done|lia|]. rewrite length_app. simpl. lia.
Qed.

(** The text of a number: its sign and its digits, the most significant first. *)
Definition unumber (base : Z) (neg : bool) (x : Z) : list Z :=
  (if neg then [45] else []) ++ reverse (udigit <$> to_digits 10 base x).

Lemma unumber_bytes base neg x : 2 <= base <= 16 -> 0 <= x < base ^ Z.of_nat 10 -> u8 <$> unumber base neg x = unumber base neg x.
Proof.
  intros Hb Hx. unfold unumber. rewrite fmap_app, fmap_reverse. f_equal; [by destruct neg|]. f_equal.
  rewrite <- list_fmap_compose. pose proof (nu_digits _ _ _ (to_digits_numeral base 10 ltac:(lia) ltac:(lia) x Hx)) as Hd.
  induction Hd as [|d ds Hd _ IH]; [done|]. cbn. f_equal; [apply u8_small, udigit_byte; lia|exact IH].
Qed.

Lemma emits_printint m0 xx base sgn :
  base = 10 \/ base = 16 -> - 2 ^ 31 <= xx < 2 ^ 31 ->
  emits m0 (printint o xx base sgn)
    (unumber base (sgn && (xx <? 0)) (if sgn && (xx <? 0) then - xx else u32 xx)) tt.
Proof.
  intros Hbase Hxx. set (neg := sgn && (xx <? 0)). set (x := if neg then - xx else u32 xx).
  assert (Hx : 0 <= x < base ^ Z.of_nat 10).
  { assert (0 <= x < 2 ^ 32); [|destruct Hbase as [-> | ->]; simpl; lia]. unfold x, neg. case_if; [lia|]. apply u32_range. }
  unfold printint. fold neg. replace (if neg then u32 (- xx) else u32 xx) with x.
  2: { unfold x, neg. case_if; [|done]. by rewrite u32_small by lia. }
  intros m s Q E Hm K. eapply uwp_bind_run; [apply (uprintint_loop_run base ltac:(lia) 32 10); [done|lia|simpl; lia]|].
  cbn [app]. pose proof (to_digits_length base 10 x) as Hl. set (ds := to_digits 10 base x) in *.
  assert (Et : u8 <$> (if neg then rev ((udigit <$> ds) ++ [45]) else rev (udigit <$> ds)) = unumber base neg x).
  { rewrite <- (unumber_bytes base neg x) by (try done; lia). f_equal. unfold unumber, reverse. rewrite <- rev_alt.
    destruct neg; [by rewrite rev_app_distr|done]. }
  assert (K' : uwp (put_rev o (if neg then rev ((udigit <$> ds) ++ [45]) else rev (udigit <$> ds)) m) s Q E).
  { apply (emits_put_rev m0); [done|]. by rewrite Et. }
  destruct neg; [|done]. rewrite (proj2 (Z.leb_gt 16 _)) by (rewrite length_fmap; lia). done.
Qed.

Lemma emits_printptr_loop m0 n : forall x, (n <= 16)%nat -> 0 <= x < 2 ^ 64 ->
  emits m0 (printptr_loop n o x) (udigit <$> nibbles x n) tt.
Proof.
  induction n as [|n IH]; intros x Hn Hx; [apply emits_ret|]. rewrite nibbles_S by done. cbn [printptr_loop].
  assert (Hd : 0 <= Z.shiftr x 60 < 16) by (by apply top_nibble). rewrite (udigits_lookup _ Hd), fmap_cons.
  apply (emits_bind m0 _ _ [udigit (Z.shiftr x 60)] _ tt).
  - by apply emits_byte, udigit_byte.
  - apply IH; [lia|apply u64_range].
Qed.

Lemma emits_put_str m0 l : forall fuel p,
  cstr_at m0 p l -> ~ (p <= var "putc.c" <= p + Z.of_nat (length l)) -> (length l < fuel)%nat -> emits m0 (put_str fuel o p) l tt.
Proof.
  induction l as [|c l IH]; intros [|f] p Hl Hp Hf; simpl in *; try lia; cbn [put_str].
  - apply cstr_nil in Hl as Hc. apply (emits_bind m0 _ _ [] [] (ld8 m0 p)); [apply emits_load; lia|]. rewrite Hc. apply emits_ret.
  - pose proof (cstr_range _ _ _ Hl) as Hb. apply Forall_cons in Hb as [Hb _]. apply cstr_cons in Hl as (Hc & Hc0 & Hl).
    apply (emits_bind m0 _ _ [] (c :: l) (ld8 m0 p)); [apply emits_load; lia|]. rewrite Hc, (proj2 (Z.eqb_neq c 0)) by done. cbn [negb].
    apply (emits_bind m0 _ _ [c] l tt); [apply emits_byte; lia|apply IH; [done|lia|lia]].
Qed.

(** A piece of a format: a character of text, or a conversion with its argument. *)
Inductive upiece : Type :=
| PText (c : Z)
| PDec (z : Z)
| PLong (v : Z)
| PHex (v : Z)
| PPtr (v : Z)
| PStr (p : Z) (l : list Z)
| PNull
| PChr (c : Z)
| PPercent
| PUnknown (c : Z).

Definition upiece_fmt (p : upiece) : list Z :=
  match p with
  | PText c => [c]
  | PDec _ => [37; 100]
  | PLong _ => [37; 108]
  | PHex _ => [37; 120]
  | PPtr _ => [37; 112]
  | PStr _ _ | PNull => [37; 115]
  | PChr _ => [37; 99]
  | PPercent => [37; 37]
  | PUnknown c => [37; c]
  end.

Definition upiece_args (p : upiece) : list Z :=
  match p with
  | PDec z | PLong z | PHex z | PPtr z | PStr z _ | PChr z => [z]
  | PNull => [0]
  | _ => []
  end.

(** A string argument lies in memory, away from the variable of putc(). *)
Definition ustring (m : mem) (p : Z) (l : list Z) : Prop :=
  cstr_at m p l /\ ~ (p <= var "putc.c" <= p + Z.of_nat (length l)) /\ (length l < str_fuel)%nat.

Definition upiece_ok (m : mem) (p : upiece) : Prop :=
  match p with
  | PText c => 0 < c < 256 /\ c <> 37
  | PDec z => - 2 ^ 31 <= z < 2 ^ 31
  | PPtr v => 0 <= v < 2 ^ 64
  | PStr p l => p <> 0 /\ ustring m p l
  | PNull => ustring m (lit (str "(null)")) (str "(null)")
  | PUnknown c => 0 < c < 256 /\ c ∉ [100; 108; 120; 112; 115; 99; 37]
  | _ => True
  end.

(** %l and %x print the low 32 bits of their argument, without a sign. *)
Definition upiece_text (p : upiece) : list Z :=
  match p with
  | PText c => [c]
  | PDec z => unumber 10 (z <? 0) (Z.abs z)
  | PLong v => unumber 10 false (u32 v)
  | PHex v => unumber 16 false (u32 v)
  | PPtr v => [48; 120] ++ (udigit <$> nibbles v 16)
  | PStr _ l => l
  | PNull => str "(null)"
  | PChr c => [u8 c]
  | PPercent => [37]
  | PUnknown c => [37; c]
  end.

Lemma u32_i32 v : u32 (i32 v) = u32 v.
Proof.
  unfold u32, i32. rewrite <- (Zminus_mod_idemp_l (_ mod _)), Zmod_mod, Zminus_mod_idemp_l. f_equal. lia.
Qed.

(** One conversion. *)
Definition is_conversion (p : upiece) (c : Z) : Prop := upiece_fmt p = [37; c].

Lemma emits_arg {A : Type} m0 v ap (f : Z -> list Z -> U A) t a :
  emits m0 (f v ap) t a -> emits m0 (let! '(v, ap) := va_arg (v :: ap) in f v ap) t a.
Proof. intros H. exact H. Qed.

Lemma emits_then {A : Type} m0 (u : U unit) (a : A) t : emits m0 u t tt -> emits m0 (do! u; uret a) t a.
Proof. intros H. rewrite <- (app_nil_r t). apply (emits_bind m0 u _ t [] tt); [done|apply emits_ret]. Qed.

Lemma convert_emits m0 p c ap :
  upiece_ok m0 p -> is_conversion p c -> emits m0 (convert o c (upiece_args p ++ ap)) (upiece_text p) ap.
Proof.
  unfold is_conversion. destruct p as [t|z|v|v|v|q l| |v| |d]; simpl; intros Hok Hc; simplify_eq; unfold convert; cbn [Z.eqb Pos.eqb].
  - apply emits_arg, emits_then. rewrite i32_small by done.
    replace (unumber 10 (z <? 0) (Z.abs z)) with (unumber 10 (true && (z <? 0)) (if true && (z <? 0) then - z else u32 z)); [by apply emits_printint; [left|]|].
    cbn [andb]. f_equal. case_if; [lia|]. rewrite u32_small; lia.
  - apply emits_arg, emits_then. rewrite <- u32_i32. apply (emits_printint m0 (i32 v) 10 false); [by left|apply i32_range].
  - apply emits_arg, emits_then. rewrite <- u32_i32. apply (emits_printint m0 (i32 v) 16 false); [by right|apply i32_range].
  - apply emits_arg, emits_then. rewrite u64_small by done. unfold printptr. apply (emits_bind m0 _ _ [48] _ tt); [apply emits_putc|].
    apply (emits_bind m0 _ _ [120] _ tt); [apply emits_putc|]. by apply emits_printptr_loop.
  - apply emits_arg, emits_then. destruct Hok as (Hq & H1 & H2 & H3). rewrite (proj2 (Z.eqb_neq q 0)) by done. by apply emits_put_str.
  - apply emits_arg, emits_then. destruct Hok as (H1 & H2 & H3). by apply emits_put_str.
  - apply emits_arg, emits_then, emits_putc.
  - apply emits_then, emits_putc.
  - destruct Hok as [Hb Hn]. rewrite !not_elem_of_cons in Hn. rewrite !(proj2 (Z.eqb_neq c _)) by tauto.
    apply (emits_bind m0 _ _ [37] _ tt); [apply emits_putc|]. apply emits_then, emits_byte. lia.
Qed.

Lemma upiece_cases m0 p : upiece_ok m0 p ->
  (exists c, p = PText c /\ 0 < c < 256 /\ c <> 37) \/ exists c, 0 < c < 256 /\ is_conversion p c.
Proof.
  destruct p as [c| | | | | | | | |c]; intros Hok; [left; by exists c|right..]; try (eexists; split; [|reflexivity]; lia).
  exists c. split; [apply Hok|done].
Qed.

Lemma vprintf_loop_emits m0 fmt ps : Forall (upiece_ok m0) ps -> forall fuel i,
  cstr_at m0 (fmt + i) (ps ≫= upiece_fmt) -> (fmt + i + Z.of_nat (length (ps ≫= upiece_fmt)) < var "putc.c" \/ var "putc.c" < fmt + i) ->
  (length (ps ≫= upiece_fmt) < fuel)%nat ->
  emits m0 (vprintf_loop fuel o fmt i 0 (ps ≫= upiece_args)) (ps ≫= upiece_text) tt.
Proof.
  induction 1 as [|p ps Hp Hps IH]; intros [|f] i Hfmt Hout Hf; try lia.
  - cbn [vprintf_loop]. simpl in *. apply cstr_nil in Hfmt as Hc. apply (emits_bind m0 _ _ [] [] (ld8 m0 (fmt + i))); [apply emits_load; lia|].
    rewrite Hc. apply emits_ret.
  - change ((p :: ps) ≫= upiece_text) with (upiece_text p ++ (ps ≫= upiece_text)). cbn [mbind list_bind] in Hfmt, Hf, Hout |- *.
    rewrite length_app in Hf, Hout. destruct (upiece_cases m0 p Hp) as [(c & -> & Hb & Hc)|(c & Hb & Hc)].
    + simpl in *. apply cstr_cons in Hfmt as (Hl & Hc0 & Hfmt). rewrite <- Z.add_assoc in Hfmt.
      apply (emits_bind m0 _ _ [] _ (ld8 m0 (fmt + i))); [apply emits_load; lia|]. rewrite Hl, (proj2 (Z.eqb_neq c 0)), (proj2 (Z.eqb_neq c 37)) by done.
      apply (emits_bind m0 _ _ [c] _ tt); [apply emits_byte; lia|]. apply IH; [done|lia|lia].
    + rewrite Hc in *. simpl in *. apply cstr_cons in Hfmt as (Hl1 & _ & Hfmt). apply cstr_cons in Hfmt as (Hl2 & Hc0 & Hfmt).
      rewrite <- Z.add_assoc in Hl2.
      apply (emits_bind m0 _ _ [] _ (ld8 m0 (fmt + i))); [apply emits_load; lia|]. rewrite Hl1. cbn [Z.eqb Pos.eqb].
      destruct f as [|f]; [lia|]. cbn [vprintf_loop].
      apply (emits_bind m0 _ _ [] _ (ld8 m0 (fmt + (i + 1)))); [apply emits_load; lia|]. rewrite Hl2, (proj2 (Z.eqb_neq c 0)) by done.
      cbn [Z.eqb Pos.eqb]. apply (emits_bind m0 _ _ _ _ (ps ≫= upiece_args)); [by apply convert_emits|].
      apply IH; [by rewrite !Z.add_assoc|lia|lia].
Qed.

(** The whole of fprintf(), on a format that lies away from the variable of putc(). *)
Lemma fprintf_emits m0 fmt ps :
  Forall (upiece_ok m0) ps -> ustring m0 fmt (ps ≫= upiece_fmt) -> emits m0 (fprintf o fmt (ps ≫= upiece_args)) (ps ≫= upiece_text) tt.
Proof.
  intros Hps (H1 & H2 & H3). unfold fprintf, vprintf. apply vprintf_loop_emits; [exact Hps|by rewrite Z.add_0_r|rewrite Z.add_0_r; lia|exact H3].
Qed.

(** fprintf() of user programs writes to its file descriptor the text of every piece of its format, in order, and nothing
    else: characters as they are, %d with its sign, also for the most negative
    int, %l and %x as the low 32 bits of the argument without a sign, %p as
    sixteen digits, strings ("(null)" for a null pointer), and an unknown conversion as it stands; memory is unchanged but for the variable of putc(). *)
Theorem user_printf_correct m s fmt ps :
  Forall (upiece_ok m) ps -> ustring m fmt (ps ≫= upiece_fmt) ->
  uwp (fprintf o fmt (ps ≫= upiece_args) m) s (fun _ m' s' =>
    out s' = out s ++ (ps ≫= upiece_text) /\ inp s' = inp s /\ same_but (var "putc.c") 1 m m') (fun _ _ => False).
Proof.
  intros Hps Hfmt. apply (fprintf_emits m fmt ps Hps Hfmt); [by intros a Ha|]. by intros m' s' H1 H2 H3.
Qed.
End Printing.
