(* ===== verification/Grep.v ===== *)
(** user/grep.c: the regular-expression matcher and the search of a file line by line.

    The matcher decides membership in the language of its pattern ([match_correct]), and the search prints exactly the matching
    lines, however the input is cut into pieces by read() ([grep_correct]). *)

From Stdlib Require Import ZArith Lia.
From stdpp Require Import base gmap list_numbers strings numbers list.
From S2P Require Import Prelude Mem User Ulib UlibSpec.

Open Scope Z_scope.
Open Scope user_scope.

(** * The program *)

(** The recursion is no deeper than the pattern and the text are long: a page and the buffer of grep(). *)
Definition match_fuel : nat := Z.to_nat (4096 + 1024 + 2).

(** matchhere: search for re at beginning of text;
    matchstar: search for c*re at beginning of text *)
Fixpoint matchhere (fuel : nat) (m : mem) (re text : Z) : option bool :=
  match fuel with
  | O => None
  | S f =>
      if ld8 m re =? 0 then Some true else
      if ld8 m (re + 1) =? 42 then matchstar f m (ld8 m re) (re + 2) text else
      if (ld8 m re =? 36) && (ld8 m (re + 1) =? 0) then Some (ld8 m text =? 0) else
      if negb (ld8 m text =? 0) && ((ld8 m re =? 46) || (ld8 m re =? ld8 m text)) then matchhere f m (re + 1) (text + 1) else
      Some false
  end
with matchstar (fuel : nat) (m : mem) (c re text : Z) : option bool :=
  match fuel with
  | O => None
  | S f =>
      match matchhere f m re text with
      | Some false =>
          if negb (ld8 m text =? 0) && ((ld8 m text =? c) || (c =? 46)) then matchstar f m c re (text + 1)
          else Some false
      | r => r
      end
  end.

(** do{ if(matchhere(re, text)) return 1; }while( *text++ != '\0'); *)
Fixpoint match_loop (fuel : nat) (m : mem) (re text : Z) : option bool :=
  match fuel with
  | O => None
  | S f =>
      match matchhere match_fuel m re text with
      | Some false => if negb (ld8 m text =? 0) then match_loop f m re (text + 1) else Some false
      | r => r
      end
  end.

Definition match_ (re text : Z) : U bool :=
  ureads (fun m => if ld8 m re =? 94 then matchhere match_fuel m (re + 1) text else match_loop match_fuel m re text).

Section Program.
Context {IM : Image}.

(** char buf[1024]; *)
Definition buf : Z := var "grep.buf".
Definition bufsize : Z := 1024.

(** while((q = strchr(p, '\n')) != 0){ ... p = q+1; }  returns p *)
Fixpoint grep_lines (fuel : nat) (pattern p : Z) : U Z :=
  match fuel with
  | O => unofuel
  | S f =>
      let! q := strchr p 10 in
      if q =? 0 then uret p else
      do! store8 q 0;
      let! r := match_ pattern p in
      do! uwhen r (do! store8 q 10;
                   do! write 1 p (q + 1 - p);
                   uret tt);
      grep_lines f pattern (q + 1)
  end.

(** while((n = read(fd, buf+m, sizeof(buf)-m-1)) > 0){ ... } *)
Fixpoint grep_loop (fuel : nat) (pattern fd m : Z) : U unit :=
  match fuel with
  | O => unofuel
  | S f =>
      let! n := read fd (buf + m) (bufsize - m - 1) in
      if 0 <? n then
        let m := m + n in
        do! store8 (buf + m) 0;
        let! p := grep_lines (Z.to_nat bufsize) pattern buf in
        if 0 <? m then
          let m := m - (p - buf) in
          do! memmove buf p m;
          grep_loop f pattern fd m
        else grep_loop f pattern fd m
      else uret tt
  end.

(** [fuel] bounds the number of reads. *)
Definition grep (fuel : nat) (pattern fd : Z) : U unit := grep_loop fuel pattern fd 0.

(** for(i = 2; i < argc; i++){ ... }  O_RDONLY is 0. *)
Fixpoint grep_files (fuel : nat) (pattern argv : Z) (l : list Z) : U unit :=
  match l with
  | [] => uret tt
  | i :: l' =>
      let! path := load64 (argv + 8 * i) in
      let! fd := open path 0 in
      if fd <? 0 then
        let! path := load64 (argv + 8 * i) in
        do! printf (lit (str "grep: cannot open %s" ++ [10])) [path];
        exit 1
      else
        do! grep fuel pattern fd;
        do! close fd;
        grep_files fuel pattern argv l'
  end.

Definition grep_main (fuel : nat) (argc argv : Z) : U Z :=
  if argc <=? 1 then
    do! fprintf 2 (lit (str "usage: grep pattern [file ...]" ++ [10])) [];
    exit 1
  else
    let! pattern := load64 (argv + 8) in
    if argc <=? 2 then
      do! grep fuel pattern 0;
      exit 0
    else
      do! grep_files fuel pattern argv (seqZ 2 (argc - 2));
      exit 0.
End Program.

#[global] Opaque match_fuel.

(** * Regular expressions *)

(** One character, any number of copies of one, the end of the text; the character 46 ('.') stands
    for any. *)
Inductive item : Type := One (c : Z) | Star (c : Z) | End.

Fixpoint parse (r : list Z) : list item :=
  match r with
  | [] => []
  | c :: r' =>
      match r' with
      | [] => if c =? 36 then [End] else [One c]
      | d :: r'' => if d =? 42 then Star c :: parse r'' else One c :: parse r'
      end
  end.

Definition sym (c x : Z) : Prop := c = 46 \/ x = c.

(** The words of a sequence of items. *)
Inductive lang : list item -> list Z -> Prop :=
| lang_nil : lang [] []
| lang_one c x its w : sym c x -> lang its w -> lang (One c :: its) (x :: w)
| lang_star c xs its w : Forall (sym c) xs -> lang its w -> lang (Star c :: its) (xs ++ w)
| lang_end : lang [End] [].

(** A word of the items is a prefix of the text, the whole text if they end with the end of the text. *)
Definition prefix_match (its : list item) (t : list Z) : Prop :=
  exists w post, t = w ++ post /\ lang its w /\ (last its = Some End -> post = []).

(** The text contains a match of the pattern; '^' (94) ties it to the start. *)
Definition matches (r t : list Z) : Prop :=
  match r with
  | c :: r' => if c =? 94 then prefix_match (parse r') t else exists pre suf, t = pre ++ suf /\ prefix_match (parse r) suf
  | [] => True
  end.

Lemma prefix_nil t : prefix_match [] t.
Proof. exists [], t. split; [done|]. split; [constructor|done]. Qed.

Lemma prefix_end t : prefix_match [End] t <-> t = [].
Proof.
  split.
  - intros (w & post & -> & Hl & H). inversion Hl; subst. by apply H.
  - intros ->. exists [], []. split; [done|]. split; [constructor|done].
Qed.

Lemma last_one c its : last (One c :: its) = Some End <-> last its = Some End.
Proof. destruct its; [simpl; split; congruence|done]. Qed.

Lemma last_star c its : last (Star c :: its) = Some End <-> last its = Some End.
Proof. destruct its; [simpl; split; congruence|done]. Qed.

Lemma prefix_one c its t : prefix_match (One c :: its) t <-> exists x t', t = x :: t' /\ sym c x /\ prefix_match its t'.
Proof.
  unfold prefix_match. setoid_rewrite last_one. split.
  - intros (w & post & -> & Hl & H). inversion Hl; subst. eexists _, _. split; [reflexivity|]. split; [done|]. by eexists _, _.
  - intros (x & t' & -> & Hx & w & post & -> & Hl & H). exists (x :: w), post. split; [done|]. split; [by constructor|done].
Qed.

Lemma prefix_star c its t :
  prefix_match (Star c :: its) t <-> exists xs t', t = xs ++ t' /\ Forall (sym c) xs /\ prefix_match its t'.
Proof.
  unfold prefix_match. setoid_rewrite last_star. split.
  - intros (w & post & -> & Hl & H). inversion Hl as [| |? xs ? w'|]; subst. exists xs, (w' ++ post). split; [by rewrite app_assoc|].
    split; [done|]. by eexists _, _.
  - intros (xs & t' & -> & Hx & w & post & -> & Hl & H). exists (xs ++ w), post. split; [by rewrite app_assoc|]. split; [by constructor|done].
Qed.

(** What the loop of matchstar() looks for. *)
Definition star_match (c : Z) (its : list item) (t : list Z) : Prop :=
  exists xs t', t = xs ++ t' /\ Forall (sym c) xs /\ prefix_match its t'.

Lemma star_step c its t :
  star_match c its t <-> prefix_match its t \/ exists x t', t = x :: t' /\ sym c x /\ star_match c its t'.
Proof.
  split.
  - intros ([|x xs] & t' & -> & Hx & H); [by left|]. right. apply Forall_cons in Hx as [Hx Hxs].
    eexists _, _. split; [reflexivity|]. split; [done|]. by exists xs, t'.
  - intros [H|(x & t' & -> & Hx & xs & t2 & -> & Hxs & H)].
    + by exists [], t.
    + exists (x :: xs), t2. split; [done|]. split; [by constructor|done].
Qed.

(** A decision that agrees with a proposition. *)
Definition decides (o : option bool) (P : Prop) : Prop := exists b, o = Some b /\ (b = true <-> P).

Lemma decides_iff o (P Q : Prop) : (P <-> Q) -> decides o P -> decides o Q.
Proof. intros H (b & -> & Hb). exists b. split; [done|]. by rewrite Hb. Qed.

Lemma decides_true P : P -> decides (Some true) P.
Proof. by exists true. Qed.

Lemma decides_false P : ~ P -> decides (Some false) P.
Proof. intros H. exists false. split; [done|]. split; [done|]. intros HP. by destruct H. Qed.

Lemma sym_test c x : ((c =? 46) || (c =? x)) = true <-> sym c x.
Proof. unfold sym. rewrite orb_true_iff, !Z.eqb_eq. intuition. Qed.

(** What matchhere() and matchstar() decide when they have [fuel] steps. *)
Definition here_ok (fuel : nat) : Prop := forall m re r text t,
  cstr_at m re r -> cstr_at m text t -> (length r + length t < fuel)%nat ->
  decides (matchhere fuel m re text) (prefix_match (parse r) t).

Definition star_ok (fuel : nat) : Prop := forall m c re r text t,
  cstr_at m re r -> cstr_at m text t -> (S (length r + length t) < fuel)%nat ->
  decides (matchstar fuel m c re text) (star_match c (parse r) t).

Lemma matchhere_step f : here_ok f -> star_ok f -> here_ok (S f).
Proof.
  intros IHh IHs.
  intros m re [|c r] text t Hre Ht Hf; cbn [matchhere].
  { rewrite cstr_nil in Hre. rewrite Hre. apply decides_true, prefix_nil. }
  apply cstr_cons in Hre as (Hc & Hc0 & Hr). rewrite Hc, (proj2 (Z.eqb_neq c 0)) by done.
  assert (Hd : ld8 m (re + 1) = default 0 (head r)).
  { destruct r; [by rewrite cstr_nil in Hr|]. by apply cstr_cons in Hr as [-> _]. }
  rewrite Hd. cbn [length] in Hf. destruct (Z.eqb_spec (default 0 (head r)) 42) as [E|E].
  + destruct r as [|d r]; [done|]. simpl in E. subst d. apply cstr_cons in Hr as (_ & _ & Hr). cbn [parse]. rewrite Z.eqb_refl.
    eapply decides_iff; [symmetry; apply prefix_star|]. apply IHs; [by rewrite <- Z.add_assoc in Hr|done|simpl in Hf; lia].
  + destruct ((c =? 36) && (default 0 (head r) =? 0)) eqn:Ed; bool_prop.
    * assert (r = []) as ->. { destruct r as [|d r]; [done|]. apply cstr_cons in Hr as (_ & Hd0 & _). by simpl in *. }
      replace (parse [c]) with [End] by (simpl; by rewrite (proj2 (Z.eqb_eq c 36))).
      eapply decides_iff; [symmetry; apply prefix_end|]. exists (ld8 m text =? 0). split; [done|]. rewrite Z.eqb_eq.
      destruct t; [rewrite cstr_nil in Ht|apply cstr_cons in Ht as (-> & ? & _)]; done.
    * assert (parse (c :: r) = One c :: parse r) as ->.
      { destruct r as [|d r]; simpl in *; [by rewrite andb_true_r in Ed; rewrite Ed|]. by rewrite (proj2 (Z.eqb_neq _ _)). }
      eapply decides_iff; [symmetry; apply prefix_one|]. destruct t as [|x t].
      { apply cstr_nil in Ht. rewrite Ht. apply decides_false. by intros (? & ? & ? & _). }
      apply cstr_cons in Ht as (Hx & Hx0 & Ht). rewrite Hx, (proj2 (Z.eqb_neq x 0)) by done. cbn [negb andb].
      destruct ((c =? 46) || (c =? x)) eqn:Es.
      { apply sym_test in Es. eapply decides_iff; [|apply IHh; [exact Hr|exact Ht|simpl in Hf; lia]].
        split; [by eexists _, _|]. by intros (? & ? & [= <- <-] & _ & ?). }
      apply decides_false. intros (? & ? & [= <- <-] & Hs & _). apply sym_test in Hs. congruence.
Qed.

Lemma matchstar_step f : here_ok f -> star_ok f -> star_ok (S f).
Proof.
  intros IHh IHs.
  intros m c re r text t Hr Ht Hf; cbn [matchstar].
  destruct (IHh m re r text t Hr Ht ltac:(lia)) as (b & -> & Hb). eapply decides_iff; [symmetry; apply star_step|].
  destruct b; [by apply decides_true; left; apply Hb|].
  assert (Hn : ~ prefix_match (parse r) t) by (by rewrite <- Hb). destruct t as [|x t].
  { apply cstr_nil in Ht. rewrite Ht. apply decides_false. intros [?|(? & ? & ? & _)]; done. }
  apply cstr_cons in Ht as (Hx & Hx0 & Ht). rewrite Hx, (proj2 (Z.eqb_neq x 0)) by done. cbn [negb andb].
  rewrite orb_comm, (Z.eqb_sym x c). destruct ((c =? 46) || (c =? x)) eqn:Es.
  + apply sym_test in Es. eapply decides_iff; [|apply (IHs m c re r (text + 1) t Hr Ht); simpl in Hf; lia].
    split; [by right; eexists _, _|]. by intros [?|(? & ? & [= <- <-] & _ & ?)].
  + apply decides_false. intros [?|(? & ? & [= <- <-] & Hs & _)]; [done|]. apply sym_test in Hs. congruence.
Qed.

Lemma matcher_ok fuel : here_ok fuel /\ star_ok fuel.
Proof.
  induction fuel as [|f [IHh IHs]]; [by split; intros ?; intros; lia|].
  split; [by apply matchhere_step|by apply matchstar_step].
Qed.

Lemma match_loop_ok m re r its : cstr_at m re r -> its = parse r -> forall fuel text t,
  cstr_at m text t -> (length t < fuel)%nat -> (length r + length t < match_fuel)%nat ->
  decides (match_loop fuel m re text) (exists pre suf, t = pre ++ suf /\ prefix_match its suf).
Proof.
  intros Hr ->. induction fuel as [|f IH]; intros text t Ht Hf Hm; [lia|]. cbn [match_loop].
  destruct (proj1 (matcher_ok match_fuel) m re r text t Hr Ht Hm) as (b & -> & Hb). destruct b.
  { apply decides_true. exists [], t. split; [done|]. by apply Hb. }
  assert (Hn : ~ prefix_match (parse r) t) by (by rewrite <- Hb). destruct t as [|x t].
  - apply cstr_nil in Ht. rewrite Ht. apply decides_false. intros (pre & suf & [-> ->]%symmetry%app_nil & ?). done.
  - apply cstr_cons in Ht as (-> & Hx & Ht). rewrite (proj2 (Z.eqb_neq x 0)) by done. cbn [negb]. simpl in *.
    eapply decides_iff; [|apply (IH (text + 1) t Ht); lia]. split.
    + intros (pre & suf & -> & H). by exists (x :: pre), suf.
    + intros ([|y pre] & suf & E & H); simplify_eq/=; by exists pre, suf.
Qed.

Lemma match_run m re r text t :
  cstr_at m re r -> cstr_at m text t -> (length r + length t < match_fuel)%nat ->
  exists b, match_ re text m = URet b m /\ (b = true <-> matches r t).
Proof.
  intros Hr Ht Hf. assert (D : decides
    (if ld8 m re =? 94 then matchhere match_fuel m (re + 1) text else match_loop match_fuel m re text) (matches r t)).
  { destruct r as [|c r]; simpl.
    - apply cstr_nil in Hr as Hr0. rewrite Hr0. eapply decides_iff; [|apply (match_loop_ok m re [] [] Hr eq_refl); [exact Ht|simpl in Hf; lia|done]].
      split; [done|]. intros _. exists [], t. split; [done|apply prefix_nil].
    - apply cstr_cons in Hr as Hc. destruct Hc as (-> & Hc & Hr'). simpl in Hf. case_if.
      + apply (proj1 (matcher_ok match_fuel)); [done|done|lia].
      + apply (match_loop_ok m re (c :: r)); [done|done|done|lia|simpl; lia]. }
  destruct D as (b & E & Hb). exists b. unfold match_, ureads. by rewrite E.
Qed.

(** C21. match(re, text) terminates and is 1 exactly when the text contains a word of the language of the pattern:
    '.' is any character, 'c*' any number of c, '^' and '$' tie the match to
    the start and the end of the text. *)
Theorem match_correct m re r text t :
  cstr_at m re r -> cstr_at m text t -> (length r + length t < match_fuel)%nat ->
  exists b, match_ re text m = URet b m /\ (b = true <-> matches r t).
Proof. apply match_run. Qed.

(** * The search *)

(** Lines with their newlines. *)
Definition joined (ls : list (list Z)) : list Z := concat ((fun l => l ++ [10]) <$> ls).

(** [sel] are the lines of [ls] with property [P], in order. *)
Inductive selected (P : list Z -> Prop) : list (list Z) -> list (list Z) -> Prop :=
| sel_nil : selected P [] []
| sel_yes l ls sel : P l -> selected P ls sel -> selected P (l :: ls) (l :: sel)
| sel_no l ls sel : ~ P l -> selected P ls sel -> selected P (l :: ls) sel.

Lemma selected_app P ls1 ls2 sel1 sel2 : selected P ls1 sel1 -> selected P ls2 sel2 -> selected P (ls1 ++ ls2) (sel1 ++ sel2).
Proof. induction 1; simpl; intros; [done|constructor; auto|apply sel_no; auto]. Qed.

Lemma joined_app ls1 ls2 : joined (ls1 ++ ls2) = joined ls1 ++ joined ls2.
Proof. unfold joined. by rewrite fmap_app, concat_app. Qed.

Lemma joined_cons l ls : joined (l :: ls) = l ++ 10 :: joined ls.
Proof. unfold joined. simpl. by rewrite <- app_assoc. Qed.

Lemma length_joined_cons l ls : length (joined (l :: ls)) = (length l + 1 + length (joined ls))%nat.
Proof. rewrite joined_cons, length_app. simpl. lia. Qed.

(** A line of text: no newline, no NUL, and it fits the buffer. *)
Definition line_ok (l : list Z) : Prop := Forall (fun c => c <> 0 /\ c <> 10) l /\ Z.of_nat (length l) < bufsize - 1.

Lemma no_newline l : Forall (fun c => c <> 0 /\ c <> 10) l -> 10 ∉ l.
Proof. intros H Hin. rewrite Forall_forall in H. by apply (H 10). Qed.

(** Every text is a sequence of lines and a rest without a newline. *)
Lemma split_lines data : Forall (fun c => c <> 0) data -> exists ls rest,
  data = joined ls ++ rest /\ Forall (Forall (fun c => c <> 0 /\ c <> 10)) ls /\ Forall (fun c => c <> 0 /\ c <> 10) rest.
Proof.
  induction data as [|c data IH]; intros H; [by exists [], []|]. apply Forall_cons in H as [Hc H].
  destruct (IH H) as (ls & rest & -> & Hl & Hr). destruct (decide (c = 10)) as [->|Hne].
  - exists ([] :: ls), rest. split; [done|]. split; [by constructor|done].
  - destruct ls as [|l ls].
    + exists [], (c :: rest). split; [done|]. split; [done|by constructor].
    + apply Forall_cons in Hl as [Hl Hls]. exists ((c :: l) :: ls), rest. split; [done|]. split; [|done]. constructor; [by constructor|done].
Qed.

Lemma newline_inj l l' x y : 10 ∉ l -> 10 ∉ l' -> l ++ 10 :: x = l' ++ 10 :: y -> l = l' /\ x = y.
Proof.
  revert l'. induction l as [|c l IH]; intros [|c' l'] H H' E; rewrite ?not_elem_of_cons in *.
  - by injection E.
  - injection E as <- _. by destruct H' as [H' _].
  - injection E as -> _. by destruct H as [H _].
  - injection E as -> E. destruct (IH l') as [-> ->]; intuition.
Qed.

(** The lines of the text so far are the first ones of the whole text. *)
Lemma lines_prefix ls1 part rest ls tail :
  Forall (Forall (fun c => c <> 0 /\ c <> 10)) ls1 -> Forall (Forall (fun c => c <> 0 /\ c <> 10)) ls ->
  Forall (fun c => c <> 0 /\ c <> 10) tail ->
  joined ls1 ++ part ++ rest = joined ls ++ tail -> exists ls2, ls = ls1 ++ ls2 /\ part ++ rest = joined ls2 ++ tail.
Proof.
  intros H1. revert ls. induction H1 as [|l ls1 Hl H1 IH]; intros ls Hls Ht E; [by exists ls|].
  unfold joined in E. simpl in E. rewrite <- !app_assoc in E. destruct ls as [|l' ls]; simpl in E.
  - exfalso. apply (no_newline tail Ht). rewrite <- E. set_solver.
  - apply Forall_cons in Hls as [Hl' Hls]. rewrite <- !app_assoc in E. simpl in E.
    apply newline_inj in E as [-> E]; [|by apply no_newline..]. destruct (IH ls Hls Ht E) as (ls2 & -> & E2). by exists ls2.
Qed.

(** What has been read of the current line is part of a line. *)
Lemma part_short part rest ls tail :
  Forall (fun c => c <> 0 /\ c <> 10) part -> Forall line_ok (tail :: ls) -> part ++ rest = joined ls ++ tail ->
  line_ok part.
Proof.
  intros Hp Hok E. split; [done|]. apply Forall_cons in Hok as [[Ht Htl] Hls]. destruct ls as [|l ls].
  - apply (f_equal length) in E. rewrite length_app in E. simpl in E. lia.
  - apply Forall_cons in Hls as [[Hl Hll] _]. unfold joined in E. simpl in E. rewrite <- !app_assoc in E. simpl in E.
    destruct (decide (length part <= length l)%nat); [lia|]. exfalso. apply (no_newline part Hp).
    apply (list_elem_of_lookup_2 _ (length l)). assert (Hlen : (length l < length part)%nat) by lia.
    rewrite <- (lookup_app_l part rest) by done. rewrite E. rewrite lookup_app_r by lia. by rewrite Nat.sub_diag.
Qed.

Section Search.
Context {IM : Image} {OS : Os} (fd : Z) {SD : Stdio fd 1}.
Context (pattern : Z) (r : list Z).
Context (Hbuf : 0 < buf) (Hr : (length r <= 4096)%nat).
Context (Hout : pattern + Z.of_nat (length r) < buf \/ buf + bufsize <= pattern).

Lemma pattern_kept m m' : (forall a, a < buf \/ buf + bufsize <= a -> ld8 m' a = ld8 m a) -> cstr_at m pattern r -> cstr_at m' pattern r.
Proof. intros H. apply cstr_ext. intros a Ha. apply H. lia. Qed.

Lemma match_fuel_line (l : list Z) : Z.of_nat (length l) < bufsize -> (length r + length l < match_fuel)%nat.
Proof. intros H. unfold bufsize in H. assert (E : match_fuel = Z.to_nat 5122) by reflexivity. rewrite E. lia. Qed.

Lemma str_fuel_line n : Z.of_nat n < bufsize -> (n < str_fuel)%nat.
Proof. intros H. unfold bufsize in H. assert (E : str_fuel = Z.to_nat 4097) by reflexivity. rewrite E. lia. Qed.

(** One complete line: it is written if it matches, and its newline may have become a NUL. *)
Lemma line_step m s p l rest Q E f :
  cstr_at m pattern r -> buf <= p -> p + Z.of_nat (length (l ++ 10 :: rest)) < buf + bufsize -> cstr_at m p (l ++ 10 :: rest) ->
  Forall (fun c => c <> 0 /\ c <> 10) l ->
  (forall m' s' sel, cstr_at m' pattern r -> cstr_at m' (p + Z.of_nat (length l) + 1) rest ->
     (forall a, a < p \/ p + Z.of_nat (length l) < a -> ld8 m' a = ld8 m a) ->
     selected (matches r) [l] sel -> inp s' = inp s -> out s' = out s ++ joined sel ->
     uwp (grep_lines f pattern (p + Z.of_nat (length l) + 1) m') s' Q E) ->
  uwp (grep_lines (S f) pattern p m) s Q E.
Proof.
  intros Hp Hlo Hhi Hs Hl K. rewrite length_app in Hhi. simpl in Hhi. cbn [grep_lines].
  eapply uwp_bind_run; [apply (strchr_found m p 10 l rest); [done|by apply no_newline|done|apply str_fuel_line; lia]|].
  set (q := p + Z.of_nat (length l)) in *. rewrite (proj2 (Z.eqb_neq q 0)) by (unfold q; lia).
  eapply uwp_bind_run; [reflexivity|]. set (m1 := st8 m q 0).
  assert (Hsame : forall v a, a <> q -> ld8 (st8 m q v) a = ld8 m a) by (intros; by apply ld8_st8_ne).
  assert (Hp1 : cstr_at m1 pattern r) by (apply (pattern_kept m); [intros a Ha; apply Hsame; unfold q; lia|done]).
  pose proof (cstr_terminated _ _ _ _ _ Hs : cstr_at m1 p l) as Hl1. destruct (cstr_cut _ _ _ _ _ Hs) as (Hbl & Hb10 & Hrest). fold q in Hb10, Hrest.
  destruct (match_run m1 pattern r p l Hp1 Hl1 ltac:(apply match_fuel_line; lia)) as (b & Eb & Hb').
  eapply uwp_bind_run; [exact Eb|]. destruct b; cbn [uwhen].
  - apply uwp_bind. eapply uwp_bind_run; [reflexivity|]. set (m2 := st8 m1 q 10).
    assert (H2 : forall a, ld8 m2 a = ld8 m a).
    { intros a. unfold m2, m1. rewrite ld8_st8. case_decide as Hq; [rewrite <- Hq; by rewrite Hb10|]. apply Hsame. congruence. }
    apply uwp_call; [apply write_some; unfold q; lia|]. intros a0 m' s' Hw.
    apply write_law in Hw as (-> & -> & Hi & Ho); [|unfold q; lia]. simpl. apply (K m2 s' [l]).
    + apply (pattern_kept m); [by intros|done].
    + by apply (cstr_ext m).
    + by intros.
    + constructor; [by apply Hb'|constructor].
    + done.
    + rewrite Ho. f_equal. unfold joined. simpl. rewrite app_nil_r. replace (Z.to_nat (q + 1 - p)) with (length (l ++ [10])).
      * apply bytes_at_in. apply (bytes_in_ext m); [by intros|]. apply bytes_in_app. split; [done|]. by apply bytes_in_cons.
      * rewrite length_app. unfold q. simpl. lia.
  - simpl. apply (K m1 s []); try done.
    + apply (cstr_ext m); [|done]. intros a Ha. apply Hsame. lia.
    + intros a Ha. apply Hsame. unfold q. lia.
    + apply sel_no; [by rewrite <- Hb'|constructor].
    + by rewrite app_nil_r.
Qed.

(** All complete lines of the buffer. *)
Lemma grep_lines_spec ls rest : Forall (Forall (fun c => c <> 0 /\ c <> 10)) ls -> 10 ∉ rest -> forall f m s p,
  cstr_at m pattern r -> buf <= p -> p + Z.of_nat (length (joined ls ++ rest)) < buf + bufsize -> cstr_at m p (joined ls ++ rest) ->
  (length ls < f)%nat ->
  uwp (grep_lines f pattern p m) s (fun p' m' s' => p' = p + Z.of_nat (length (joined ls)) /\ cstr_at m' p' rest /\
    cstr_at m' pattern r /\ inp s' = inp s /\ exists sel, selected (matches r) ls sel /\ out s' = out s ++ joined sel) (fun _ _ => False).
Proof.
  intros Hls Hrest. induction Hls as [|l ls Hl Hls IH]; intros [|f] m s p Hp Hlo Hhi Hs Hf; simpl in Hf; try lia.
  - cbn [grep_lines]. simpl in Hs. eapply uwp_bind_run; [apply (strchr_missing m p 10 rest); [done|done|apply str_fuel_line; simpl in Hhi; lia]|].
    simpl. split; [lia|]. split; [done|]. split; [done|]. split; [done|]. exists []. split; [constructor|by rewrite app_nil_r].
  - assert (Ej : joined (l :: ls) ++ rest = l ++ 10 :: joined ls ++ rest) by (by rewrite joined_cons, <- app_assoc).
    rewrite Ej in Hs, Hhi. apply (line_step m s p l (joined ls ++ rest)); [done|done|done|done|done|].
    intros m' s' sel Hp' Hs' _ Hsel Hi Ho. eapply uwp_mono; [| |apply IH; [done| |rewrite length_app in Hhi; simpl in Hhi; lia|done|lia]].
    2: done. 2: lia.
    intros p' m2 s2 (-> & H1 & H2 & H3 & sel2 & H4 & H5). split.
    { rewrite length_joined_cons. lia. }
    replace (p + Z.of_nat (length (joined (l :: ls)))) with (p + Z.of_nat (length l) + 1 + Z.of_nat (length (joined ls))).
    2: { rewrite length_joined_cons. lia. }
    split; [done|]. split; [done|]. split; [by rewrite H3|]. exists (sel ++ sel2). split.
    { by apply (selected_app _ [l] ls). }
    by rewrite H5, Ho, joined_app, app_assoc.
Qed.

Lemma length_joined ls : (length ls <= length (joined ls))%nat.
Proof. induction ls as [|l ls IH]; [simpl; lia|]. rewrite length_joined_cons. simpl. lia. Qed.

Lemma joined_nonzero ls : Forall (Forall (fun c => c <> 0 /\ c <> 10)) ls -> Forall (fun c => c <> 0) (joined ls).
Proof.
  induction 1 as [|l ls Hl _ IH]; [constructor|]. rewrite joined_cons. apply Forall_app. split; [|by constructor].
  apply (Forall_impl _ _ _ Hl). by intros ? [].
Qed.

(** What is at the start of the buffer before a read. *)
Definition held (m : mem) (part : list Z) : Prop := bytes_in m buf part /\ Z.of_nat (length part) < bufsize.

(** The buffer after [chunk] has been read behind [part] and terminated. *)
Lemma buffer_text m part chunk data :
  held m part -> Forall (fun c => 0 <= c < 256) chunk -> Z.of_nat (length part) + Z.of_nat (length chunk) < bufsize ->
  part ++ chunk = data -> Forall (fun c => c <> 0) data ->
  let m1 := st8 (st_bytes m (buf + Z.of_nat (length part)) chunk) (buf + Z.of_nat (length data)) 0 in
  cstr_at m1 buf data /\ forall a, a < buf \/ buf + bufsize <= a -> ld8 m1 a = ld8 m a.
Proof.
  intros [Hpart Hlen] Hchunk Hsz <- Hnz m1.
  assert (Hin : forall a, a < buf + Z.of_nat (length part) \/ buf + bufsize <= a -> ld8 m1 a = ld8 m a).
  { intros a Ha. unfold m1. rewrite ld8_st8_ne, ld8_st_bytes, decide_False by (rewrite ?length_app; lia). done. }
  split; [|intros a Ha; apply Hin; lia]. apply cstr_of_bytes; [|done]. apply bytes_in_app. split.
  - apply bytes_in_app. split; [apply (bytes_in_ext m); [|done]; intros a Ha; apply Hin; lia|].
    apply (bytes_in_ext (st_bytes m (buf + Z.of_nat (length part)) chunk)); [|by apply bytes_in_st_bytes].
    intros a Ha. apply ld8_st8_ne. rewrite length_app. lia.
  - apply bytes_in_cons. split; [by unfold m1; rewrite ld8_st8_eq|]. by intros i d Hi.
Qed.

(** The body of the loop after [chunk] has been read behind [part]. *)
Lemma round_spec m s part chunk (c : Z -> U unit) Q ls rest :
  cstr_at m pattern r -> held m part -> Forall (fun c => 0 <= c < 256) chunk ->
  Z.of_nat (length part) + Z.of_nat (length chunk) < bufsize -> (0 < length chunk)%nat ->
  part ++ chunk = joined ls ++ rest -> Forall (Forall (fun c => c <> 0 /\ c <> 10)) ls -> Forall (fun c => c <> 0 /\ c <> 10) rest ->
  (forall m' s' sel, cstr_at m' pattern r -> held m' rest -> inp s' = inp s -> selected (matches r) ls sel ->
     out s' = out s ++ joined sel -> uwp (c (Z.of_nat (length rest)) m') s' Q (fun _ _ => False)) ->
  let n := Z.of_nat (length part) + Z.of_nat (length chunk) in
  uwp ((do! store8 (buf + n) 0;
        let! p := grep_lines (Z.to_nat bufsize) pattern buf in
        if 0 <? n then let n := n - (p - buf) in do! memmove buf p n; c n else c n)
       (st_bytes m (buf + Z.of_nat (length part)) chunk)) s Q (fun _ _ => False).
Proof.
  intros Hp Hheld Hchunk Hsz Hpos Edata Hls Hrest K n.
  assert (En : n = Z.of_nat (length (joined ls ++ rest))) by (rewrite <- Edata, length_app; unfold n; lia).
  assert (Hnz : Forall (fun c => c <> 0) (joined ls ++ rest)).
  { apply Forall_app. split; [by apply joined_nonzero|]. apply (Forall_impl _ _ _ Hrest). by intros ? []. }
  destruct (buffer_text m part chunk _ Hheld Hchunk Hsz Edata Hnz) as [Hs Hm1]. rewrite <- En in Hs, Hm1.
  assert (Hnb : n < bufsize) by done. assert (Hn0 : 0 < n) by (unfold n; lia). clearbody n.
  eapply uwp_bind_run; [reflexivity|]. set (m1 := st8 _ _ 0) in *. rewrite length_app in En.
  eapply uwp_bind_mono; [apply (grep_lines_spec ls rest Hls (no_newline _ Hrest) (Z.to_nat bufsize) m1 s buf)|].
  - by apply (pattern_kept m).
  - lia.
  - rewrite length_app. lia.
  - done.
  - pose proof (length_joined ls). unfold bufsize in *. lia.
  - intros p m' s' (-> & Hrest' & Hp' & Hi & sel & Hsel & Ho). rewrite (proj2 (Z.ltb_lt 0 n)) by lia.
    cbv zeta. replace (n - (buf + Z.of_nat (length (joined ls)) - buf)) with (Z.of_nat (length rest)) by lia.
    destruct (memmove_run m' buf (buf + Z.of_nat (length (joined ls))) (Z.of_nat (length rest)) ltac:(lia)) as (m2 & E2 & H2).
    eapply uwp_bind_run; [exact E2|]. apply (K m2 s' sel); try done.
    + apply (pattern_kept m'); [|done]. intros a Ha. rewrite H2, decide_False by lia. done.
    + split; [|lia]. intros i x Hx. pose proof (lookup_lt_Some _ _ _ Hx).
      rewrite H2, decide_True by lia. replace (buf + Z.of_nat i - buf) with (Z.of_nat i) by lia. by apply (proj1 Hrest' i x Hx).
Qed.

Lemma take_bytes n s : Forall (fun c => 0 <= c < 256) (take n (inp s)).
Proof. apply Forall_take, inp_bytes. Qed.

Lemma grep_loop_spec ls tail : Forall line_ok (tail :: ls) -> forall fuel m s part,
  cstr_at m pattern r -> held m part -> Forall (fun c => c <> 0 /\ c <> 10) part ->
  part ++ inp s = joined ls ++ tail -> (length (inp s) < fuel)%nat ->
  uwp (grep_loop fuel pattern fd (Z.of_nat (length part)) m) s (fun _ m' s' => inp s' = [] /\
    exists sel, selected (matches r) ls sel /\ out s' = out s ++ joined sel) (fun _ _ => False).
Proof.
  intros Hok fuel. revert ls Hok. induction fuel as [|f IH]; intros ls Hok m s part Hp Hheld Hpart E Hf; [lia|].
  assert (Forall (Forall (fun c => c <> 0 /\ c <> 10)) ls /\ Forall (fun c => c <> 0 /\ c <> 10) tail) as [Hc1 Hc2].
  { apply Forall_cons in Hok as [[Ht _] Hls]. split; [|done]. by apply (Forall_impl _ _ _ Hls); intros ? []. }
  destruct (part_short _ _ _ _ Hpart Hok E) as [_ Hshort]. cbn [grep_loop].
  apply uwp_call; [apply read_some; lia|]. intros a0 m' s' Hrd.
  apply read_law in Hrd as (H1 & H2 & H3 & -> & Hi & Ho); [|lia]. rewrite i32_small by (unfold bufsize in *; lia).
  destruct (Z.ltb_spec 0 a0) as [Hpos|Hzero].
  - set (chunk := take (Z.to_nat a0) (inp s)). assert (Hlc : length chunk = Z.to_nat a0) by (unfold chunk; rewrite length_take; lia).
    assert (Hnz : Forall (fun c => c <> 0) (part ++ chunk)).
    { assert (Hall : Forall (fun c => c <> 0) (part ++ inp s)).
      { rewrite E. apply Forall_app. split; [by apply joined_nonzero|]. apply (Forall_impl _ _ _ Hc2). by intros ? []. }
      apply Forall_app in Hall as [Ha Hb]. apply Forall_app. split; [done|]. by apply Forall_take. }
    destruct (split_lines _ Hnz) as (ls1 & part' & Edata & Hls1 & Hpart').
    destruct (lines_prefix ls1 part' (inp s') ls tail Hls1 Hc1 Hc2) as (ls2 & -> & E2).
    { rewrite <- E, app_assoc, <- Edata, <- app_assoc, Hi. f_equal. apply take_drop. }
    replace a0 with (Z.of_nat (length chunk)) by lia.
    apply (round_spec m s' part chunk (grep_loop f pattern fd) _ ls1 part'); try done.
    + apply take_bytes.
    + lia.
    + lia.
    + intros m2 s2 sel Hp2 Hheld2 Hi2 Hsel Ho2. eapply uwp_mono; [|intros ? ? H; exact H|apply (IH ls2)]; try done.
      * intros _ m3 s3 (H4 & sel2 & H5 & H6). split; [done|]. exists (sel ++ sel2). split; [by apply selected_app|].
        by rewrite H6, Ho2, Ho, joined_app, app_assoc.
      * apply Forall_cons in Hok as [Ht Hls]. apply Forall_app in Hls as [_ Hls]. by constructor.
      * by rewrite Hi2.
      * rewrite Hi2, Hi, length_drop. lia.
  - assert (a0 = 0) as -> by lia. destruct (H2 eq_refl) as [H|H]; [lia|]. rewrite H, app_nil_r in E. subst part. simpl.
    rewrite Hi, H. split; [done|]. destruct ls as [|l ls].
    + exists []. split; [constructor|]. by rewrite app_nil_r, Ho.
    + exfalso. apply (no_newline _ Hpart). rewrite joined_cons. set_solver.
Qed.
End Search.

(** C22. grep(pattern, fd), on an input of lines that fit the buffer: it reads all of the input and writes
    exactly the lines that match, in order and each with its newline, in whatever pieces read() delivers
    the input.  A last line without a newline is not looked at. *)
Theorem grep_correct {IM : Image} {OS : Os} fd {SD : Stdio fd 1} fuel pattern r m s ls tail :
  0 < buf -> cstr_at m pattern r -> (length r <= 4096)%nat ->
  (pattern + Z.of_nat (length r) < buf \/ buf + bufsize <= pattern) ->
  inp s = joined ls ++ tail -> Forall line_ok (tail :: ls) -> (length (inp s) < fuel)%nat ->
  uwp (grep fuel pattern fd m) s (fun _ _ s' => inp s' = [] /\
    exists sel, selected (matches r) ls sel /\ out s' = out s ++ joined sel) (fun _ _ => False).
Proof.
  intros Hbuf Hp Hr Hout E Hok Hf. apply (grep_loop_spec fd pattern r Hbuf Hr Hout ls tail Hok fuel m s []); done.
Qed.

(** The loop while the buffer holds the start of a long line. *)
Lemma grep_long_loop {IM : Image} {OS : Os} fd {SD : Stdio fd 1} pattern r long rest :
  0 < buf -> (length r <= 4096)%nat -> (pattern + Z.of_nat (length r) < buf \/ buf + bufsize <= pattern) ->
  Z.of_nat (length long) = bufsize - 1 -> Forall (fun c => c <> 0 /\ c <> 10) long -> forall fuel m s part,
  cstr_at m pattern r -> held m part -> part ++ inp s = long ++ rest -> (length part <= length long)%nat ->
  (length long - length part < fuel)%nat ->
  uwp (grep_loop fuel pattern fd (Z.of_nat (length part)) m) s (fun _ _ s' => inp s' = rest /\ out s' = out s) (fun _ _ => False).
Proof.
  intros Hbuf Hr Hout Hlen Hlong. induction fuel as [|f IH]; intros m s part Hp Hheld E Hle Hf; [lia|].
  cbn [grep_loop]. apply uwp_call; [apply read_some; lia|]. intros a0 m' s' Hrd.
  apply read_law in Hrd as (H1 & H2 & H3 & -> & Hi & Ho); [|lia]. rewrite i32_small by (unfold bufsize in *; lia).
  destruct (Z.ltb_spec 0 a0) as [Hpos|Hzero].
  - set (chunk := take (Z.to_nat a0) (inp s)). assert (Hlc : length chunk = Z.to_nat a0) by (unfold chunk; rewrite length_take; lia).
    assert (Epc : part ++ chunk ++ inp s' = long ++ rest) by (rewrite <- E, Hi; f_equal; apply take_drop).
    assert (Hpc : Forall (fun c => c <> 0 /\ c <> 10) (part ++ chunk)).
    { rewrite app_assoc in Epc. apply (f_equal (take (length (part ++ chunk)))) in Epc. rewrite take_app_length in Epc. rewrite Epc.
      rewrite length_app, take_app_le by lia. by apply Forall_take. }
    replace a0 with (Z.of_nat (length chunk)) by lia.
    apply (round_spec fd pattern r Hbuf Hr Hout m s' part chunk (grep_loop f pattern fd) _ [] (part ++ chunk)); try done.
    + apply take_bytes.
    + lia.
    + lia.
    + intros m2 s2 sel Hp2 Hheld2 Hi2 Hsel Ho2. inversion Hsel; subst. eapply uwp_mono; [|intros ? ? H; exact H|apply (IH m2 s2 (part ++ chunk))]; try done.
      * intros _ m3 s3 (H4 & H5). split; [done|]. by rewrite H5, Ho2, Ho, app_nil_r.
      * by rewrite <- app_assoc, Hi2.
      * rewrite length_app. lia.
      * rewrite length_app. lia.
  - assert (a0 = 0) as -> by lia. simpl. rewrite Hi. split; [|done]. destruct (H2 eq_refl) as [H|H].
    + destruct (app_inj_1 part long (inp s) rest ltac:(lia) E) as [_ ?]. done.
    + rewrite H, app_nil_r in E. apply (f_equal length) in E as El. rewrite length_app in El.
      destruct rest; [done|]. simpl in El. lia.
Qed.

(** C40. A line that does not fit the buffer ends the search: when the input starts with bufsize - 1 bytes without
    a newline, grep() stops after them, without an error, and prints nothing of the lines after them. *)
Theorem grep_long_line {IM : Image} {OS : Os} fd {SD : Stdio fd 1} fuel pattern r m s long rest :
  0 < buf -> cstr_at m pattern r -> (length r <= 4096)%nat ->
  (pattern + Z.of_nat (length r) < buf \/ buf + bufsize <= pattern) ->
  inp s = long ++ rest -> Z.of_nat (length long) = bufsize - 1 -> Forall (fun c => c <> 0 /\ c <> 10) long ->
  (length long < fuel)%nat ->
  uwp (grep fuel pattern fd m) s (fun _ _ s' => inp s' = rest /\ out s' = out s) (fun _ _ => False).
Proof.
  intros Hbuf Hp Hr Hout E Hlen Hlong Hf. apply (grep_long_loop fd pattern r long rest Hbuf Hr Hout Hlen Hlong fuel m s []); try done; simpl; lia.
Qed.

(** * Concrete runs *)

(** The pattern "^ab*c$" at address 8, and two lines of which one matches. *)
#[local] Instance grep_image : Image := {| lit _ := 0; var _ := 4096 |}.

Definition grep_mem : mem := st_bytes ∅ 8 (str "^ab*c$").

Lemma grep_mem_pattern : cstr_at grep_mem 8 (str "^ab*c$").
Proof. apply cstr_of_bytes; [|by repeat constructor]. apply bytes_in_at. by vm_compute. Qed.

Definition grep_input : stream := mkStream (str "abbc" ++ [10] ++ str "xabc" ++ [10] ++ str "ac") [].

Lemma match_correct_witness :
  exists b, match_ 8 100 (st_bytes grep_mem 100 (str "abbc")) = URet b (st_bytes grep_mem 100 (str "abbc")) /\ b = true.
Proof.
  assert (H : cstr_at (st_bytes grep_mem 100 (str "abbc")) 100 (str "abbc")).
  { apply cstr_of_bytes; [|by repeat constructor]. apply bytes_in_at. by vm_compute. }
  destruct (match_correct (st_bytes grep_mem 100 (str "abbc")) 8 (str "^ab*c$") 100 (str "abbc")) as (b & E & Hb).
  - apply (cstr_ext grep_mem); [|apply grep_mem_pattern]. intros a Ha. simpl in Ha. rewrite ld8_st_bytes, decide_False by (simpl; lia). done.
  - exact H.
  - apply (match_fuel_line (str "^ab*c$")); [simpl; lia|by vm_compute].
  - exists b. split; [exact E|]. apply Hb. exists (str "abbc"), []. split; [done|]. split; [|done].
    apply (lang_one 97 97); [by right|]. apply (lang_star 98 [98; 98]); [repeat constructor; by right|].
    apply (lang_one 99 99); [by right|]. apply lang_end.
Defined.

(** Read in pieces of three bytes. *)
Lemma grep_correct_witness :
  let OS := stream_os 0 1 3 in uwp (grep 20 8 0 grep_mem) grep_input (fun _ _ s' => exists sel,
    selected (matches (str "^ab*c$")) [str "abbc"; str "xabc"] sel /\ st_out s' = joined sel) (fun _ _ => False).
Proof.
  intros OS. pose proof (stream_stdio 0 1 3 ltac:(lia)) as SD.
  eapply uwp_mono; [|intros n s H; exact H|].
  2: { apply (@grep_correct grep_image OS 0 (stream_stdio 0 1 3 ltac:(lia)) 20 8 (str "^ab*c$") grep_mem grep_input [str "abbc"; str "xabc"] (str "ac")).
    - by vm_compute.
    - apply grep_mem_pattern.
    - simpl. lia.
    - left. by vm_compute.
    - by vm_compute.
    - repeat constructor; by vm_compute.
    - simpl. lia. }
  intros a m s (_ & sel & H1 & H2). exists sel. split; [exact H1|exact H2].
Defined.

Lemma grep_long_line_witness :
  let OS := stream_os 0 1 3 in uwp (grep 1024 8 0 grep_mem) (mkStream (repeat 120 1023 ++ [10] ++ str "abbc" ++ [10]) [])
    (fun _ _ s' => st_out s' = []) (fun _ _ => False).
Proof.
  intros OS. eapply uwp_mono; [|intros n s H; exact H|].
  2: { apply (@grep_long_line grep_image OS 0 (stream_stdio 0 1 3 ltac:(lia)) 1024 8 (str "^ab*c$") grep_mem
         (mkStream (repeat 120 1023 ++ [10] ++ str "abbc" ++ [10]) []) (repeat 120 1023) ([10] ++ str "abbc" ++ [10])).
    - by vm_compute.
    - apply grep_mem_pattern.
    - simpl. lia.
    - left. by vm_compute.
    - by vm_compute.
    - by vm_compute.
    - apply Forall_forall. intros x Hx. apply list_elem_of_In, repeat_spec in Hx. by subst.
    - rewrite repeat_length. lia. }
  intros a m s (_ & H2). exact H2.
Defined.
