(* ===== verification/Coreutils.v ===== *)
(** The small user programs: cat, echo, wc, kill, ln, mkdir, rm, ls, zombie and init (user/).

    cat() copies its input ([cat_correct]); wc() counts across the boundaries of its buffer as if the input were
    read at once ([wc_correct]). *)

From Stdlib Require Import ZArith Lia.
From stdpp Require Import base gmap list_numbers strings numbers list.
From S2P Require Import Prelude Mem User Ulib UlibSpec.

Open Scope Z_scope.
Open Scope user_scope.

(** kernel/fcntl.h, kernel/stat.h, kernel/fs.h, kernel/file.h as user programs include them. *)
Definition O_RDONLY : Z := 0.
Definition O_RDWR : Z := 2.
Definition T_DIR : Z := 1.
Definition T_FILE : Z := 2.
Definition T_DEVICE : Z := 3.
Definition DIRSIZ : Z := 14.
Definition CONSOLE : Z := 1.

Section Programs.
Context {IM : Image}.

(** A literal that ends with a newline. *)
Definition litln (s : string) : Z := lit (str s ++ [10]).

(** argv[i] *)
Definition arg (argv i : Z) : U Z := load64 (argv + 8 * i).

(** for(i = ..; i < argc; i++) with a body that may break. *)
Fixpoint for_args (l : list Z) (body : Z -> U bool) : U unit :=
  match l with
  | [] => uret tt
  | i :: l' => let! go := body i in if (go : bool) then for_args l' body else uret tt
  end.

(** * cat.c *)

Definition cat_buf : Z := var "cat.buf".
Definition cat_bufsize : Z := 512.

(** while((n = read(fd, buf, sizeof(buf))) > 0) ...; [fuel] bounds the number of reads *)
Fixpoint cat_loop (fuel : nat) (fd : Z) : U Z :=
  match fuel with
  | O => unofuel
  | S f =>
      let! n := read fd cat_buf cat_bufsize in
      if 0 <? n then
        let! w := write 1 cat_buf n in
        if negb (w =? n) then
          do! fprintf 2 (litln "cat: write error") [];
          exit 1
        else cat_loop f fd
      else uret n
  end.

Definition cat (fuel : nat) (fd : Z) : U unit :=
  let! n := cat_loop fuel fd in
  if n <? 0 then
    do! fprintf 2 (litln "cat: read error") [];
    exit 1
  else uret tt.

Definition cat_main (fuel : nat) (argc argv : Z) : U Z :=
  if argc <=? 1 then
    do! cat fuel 0;
    exit 0
  else
    do! for_args (seqZ 1 (argc - 1)) (fun i =>
      let! path := arg argv i in
      let! fd := open path O_RDONLY in
      if fd <? 0 then
        let! path := arg argv i in
        do! fprintf 2 (litln "cat: cannot open %s") [path];
        exit 1
      else
        do! cat fuel fd;
        do! close fd;
        uret true);
    exit 0.

(** * echo.c *)

Definition echo_main (argc argv : Z) : U Z :=
  do! for_args (seqZ 1 (argc - 1)) (fun i =>
    let! a := arg argv i in
    let! n := strlen a in
    do! write 1 a n;
    do! (if i + 1 <? argc then write 1 (lit (str " ")) 1 else write 1 (lit [10]) 1);
    uret true);
  exit 0.

(** * wc.c *)

Definition wc_buf : Z := var "wc.buf".
Definition wc_bufsize : Z := 512.

(** " \r\t\n\v" *)
Definition blanks : list Z := [32; 13; 9; 10; 11].

(** l, w, c and inword *)
Record counts : Type := mkCounts { wc_l : Z; wc_w : Z; wc_c : Z; wc_in : bool }.

(** The body of for(i=0; i<n; i++). *)
Definition wc_char (i : Z) (k : counts) : U counts :=
  let c := i32 (wc_c k + 1) in
  let! b := load8 (wc_buf + i) in
  let l := if b =? 10 then i32 (wc_l k + 1) else wc_l k in
  let! b := load8 (wc_buf + i) in
  let! q := strchr (lit blanks) b in
  if negb (q =? 0) then uret (mkCounts l (wc_w k) c false)
  else if negb (wc_in k) then uret (mkCounts l (i32 (wc_w k + 1)) c true)
  else uret (mkCounts l (wc_w k) c true).

Fixpoint wc_chars (idx : list Z) (k : counts) : U counts :=
  match idx with
  | [] => uret k
  | i :: l => let! k := wc_char i k in wc_chars l k
  end.

(** while((n = read(fd, buf, sizeof(buf))) > 0) ...; returns n and the counts *)
Fixpoint wc_loop (fuel : nat) (fd : Z) (k : counts) : U (Z * counts) :=
  match fuel with
  | O => unofuel
  | S f =>
      let! n := read fd wc_buf wc_bufsize in
      if 0 <? n then
        let! k := wc_chars (seqZ 0 n) k in
        wc_loop f fd k
      else uret (n, k)
  end.

Definition wc (fuel : nat) (fd name : Z) : U unit :=
  let! '(n, k) := wc_loop fuel fd (mkCounts 0 0 0 false) in
  if n <? 0 then
    do! printf (litln "wc: read error") [];
    exit 1
  else printf (litln "%d %d %d %s") [wc_l k; wc_w k; wc_c k; name].

Definition wc_main (fuel : nat) (argc argv : Z) : U Z :=
  if argc <=? 1 then
    do! wc fuel 0 (lit []);
    exit 0
  else
    do! for_args (seqZ 1 (argc - 1)) (fun i =>
      let! path := arg argv i in
      let! fd := open path O_RDONLY in
      if fd <? 0 then
        let! path := arg argv i in
        do! printf (litln "wc: cannot open %s") [path];
        exit 1
      else
        let! path := arg argv i in
        do! wc fuel fd path;
        do! close fd;
        uret true);
    exit 0.

(** * kill.c, ln.c, mkdir.c, rm.c, zombie.c *)

Definition kill_main (argc argv : Z) : U Z :=
  if argc <? 2 then
    do! fprintf 2 (litln "usage: kill pid...") [];
    exit 1
  else
    do! for_args (seqZ 1 (argc - 1)) (fun i =>
      let! a := arg argv i in
      let! pid := atoi a in
      do! kill pid;
      uret true);
    exit 0.

Definition ln_main (argc argv : Z) : U Z :=
  if negb (argc =? 3) then
    do! fprintf 2 (litln "Usage: ln old new") [];
    exit 1
  else
    let! old := arg argv 1 in
    let! new := arg argv 2 in
    let! r := link old new in
    do! uwhen (r <? 0) (let! old := arg argv 1 in
                        let! new := arg argv 2 in
                        fprintf 2 (litln "link %s %s: failed") [old; new]);
    exit 0.

Definition mkdir_main (argc argv : Z) : U Z :=
  if argc <? 2 then
    do! fprintf 2 (litln "Usage: mkdir files...") [];
    exit 1
  else
    do! for_args (seqZ 1 (argc - 1)) (fun i =>
      let! a := arg argv i in
      let! r := mkdir a in
      if r <? 0 then
        let! a := arg argv i in
        do! fprintf 2 (litln "mkdir: %s failed to create") [a];
        uret false
      else uret true);
    exit 0.

Definition rm_main (argc argv : Z) : U Z :=
  if argc <? 2 then
    do! fprintf 2 (litln "Usage: rm files...") [];
    exit 1
  else
    do! for_args (seqZ 1 (argc - 1)) (fun i =>
      let! a := arg argv i in
      let! r := unlink a in
      if r <? 0 then
        let! a := arg argv i in
        do! fprintf 2 (litln "rm: %s failed to delete") [a];
        uret false
      else uret true);
    exit 0.

Definition zombie_main : U Z :=
  let! pid := fork in
  do! (if 0 <? pid then sleep 5 else uret 0);
  exit 0.

(** * ls.c *)

(** for(p=path+strlen(path); p >= path && *p != '/'; p--) ; *)
Fixpoint last_slash (fuel : nat) (m : mem) (path p : Z) : option Z :=
  match fuel with
  | O => None
  | S f => if (path <=? p) && negb (ld8 m p =? 47) then last_slash f m path (p - 1) else Some p
  end.

Definition fmtname (path : Z) : U Z :=
  let buf := var "fmtname.buf" in
  let! n := strlen path in
  let! p := ureads (fun m => last_slash (S (S (Z.to_nat n))) m path (path + n)) in
  let p := p + 1 in
  let! n := strlen p in
  if DIRSIZ <=? n then uret p else
  let! n := strlen p in
  do! memmove buf p n;
  let! n := strlen p in
  let! n' := strlen p in
  do! memset (buf + n) 32 (DIRSIZ - n');
  uret buf.

(** Fields of struct stat and struct dirent in memory. *)
Definition stat_ino (st : Z) : U Z := load32 (st + 4).
Definition stat_type (st : Z) : U Z := fun m => URet (i16 (ldn 2 m (st + 8))) m.
Definition stat_size (st : Z) : U Z := load64 (st + 16).
Definition dirent_inum (de : Z) : U Z := fun m => URet (ldn 2 m de) m.
Definition dirent_size : Z := 16.

(** while(read(fd, &de, sizeof(de)) == sizeof(de)){ ... } *)
Fixpoint ls_entries (fuel : nat) (fd p : Z) : U unit :=
  match fuel with
  | O => unofuel
  | S f =>
      let de := var "ls.de" in
      let st := var "ls.st" in
      let buf := var "ls.buf" in
      let! n := read fd de dirent_size in
      if negb (n =? dirent_size) then uret tt else
      let! inum := dirent_inum de in
      if inum =? 0 then ls_entries f fd p else
      do! memmove p (de + 2) DIRSIZ;
      do! store8 (p + DIRSIZ) 0;
      let! r := stat buf st in
      if r <? 0 then
        do! printf (litln "ls: cannot stat %s") [buf];
        ls_entries f fd p
      else
        let! name := fmtname buf in
        let! type := stat_type st in
        let! ino := stat_ino st in
        let! size := stat_size st in
        do! printf (litln "%s %d %d %d") [name; type; ino; size];
        ls_entries f fd p
  end.

Definition ls (fuel : nat) (path : Z) : U unit :=
  let buf := var "ls.buf" in
  let st := var "ls.st" in
  let! fd := open path O_RDONLY in
  if fd <? 0 then fprintf 2 (litln "ls: cannot open %s") [path] else
  let! r := fstat fd st in
  if r <? 0 then
    do! fprintf 2 (litln "ls: cannot stat %s") [path];
    do! close fd;
    uret tt
  else
    let! type := stat_type st in
    do! (if (type =? T_DEVICE) || (type =? T_FILE) then
           let! name := fmtname path in
           let! type := stat_type st in
           let! ino := stat_ino st in
           let! size := stat_size st in
           printf (litln "%s %d %d %l") [name; type; ino; size]
         else if type =? T_DIR then
           let! n := strlen path in
           if 512 <? n + 1 + DIRSIZ + 1 then printf (litln "ls: path too long") [] else
           do! strcpy buf path;
           let! n := strlen buf in
           do! store8 (buf + n) 47;
           ls_entries fuel fd (buf + n + 1)
         else uret tt);
    do! close fd;
    uret tt.

Definition ls_main (fuel : nat) (argc argv : Z) : U Z :=
  if argc <? 2 then
    do! ls fuel (lit (str "."));
    exit 0
  else
    do! for_args (seqZ 1 (argc - 1)) (fun i =>
      let! path := arg argv i in
      do! ls fuel path;
      uret true);
    exit 0.

(** * init.c *)

(** for(;;){ wpid = wait((int * ) 0); ... } *)
Fixpoint init_wait (fuel : nat) (pid : Z) : U unit :=
  match fuel with
  | O => unofuel
  | S f =>
      let! wpid := wait 0 in
      if wpid =? pid then uret tt
      else if wpid <? 0 then
        do! printf (litln "init: wait returned an error") [];
        exit 1
      else init_wait f pid
  end.

(** for(;;){ ... }; [fuel] bounds the number of shells and of the children of each *)
Fixpoint init_loop (fuel : nat) : U Z :=
  match fuel with
  | O => unofuel
  | S f =>
      do! printf (litln "init: starting sh") [];
      let! pid := fork in
      if pid <? 0 then
        do! printf (litln "init: fork failed") [];
        exit 1
      else if pid =? 0 then
        do! exec (lit (str "sh")) (var "init.argv");
        do! printf (litln "init: exec sh failed") [];
        exit 1
      else
        do! init_wait f pid;
        init_loop f
  end.

Definition init_main (fuel : nat) : U Z :=
  let! fd := open (lit (str "console")) O_RDWR in
  do! uwhen (fd <? 0) (do! mknod (lit (str "console")) CONSOLE 0;
                       do! open (lit (str "console")) O_RDWR;
                       uret tt);
  do! dup 0;
  do! dup 0;
  init_loop fuel.
End Programs.

(** * cat copies *)

(** cat(fd) writes to its standard output exactly the bytes of its input, in whatever pieces read() delivers
    them, and returns. *)
Theorem cat_correct {IM : Image} {OS : Os} fd {SD : Stdio fd 1} fuel m s :
  (length (inp s) < fuel)%nat ->
  uwp (cat fuel fd m) s (fun _ _ s' => inp s' = [] /\ out s' = out s ++ inp s) (fun _ _ => False).
Proof.
  intros Hf. unfold cat. apply (uwp_bind_mono _ _ _ _ (fun n _ s' => n = 0 /\ inp s' = [] /\ out s' = out s ++ inp s)).
  2: { by intros n m' s' (-> & H). }
  revert m s Hf. induction fuel as [|f IH]; intros m s Hf; [lia|]. cbn [cat_loop].
  apply uwp_call; [apply read_some; unfold cat_bufsize; lia|]. intros r m' s' Hr.
  apply read_law in Hr as (H1 & H2 & H3 & -> & Hi & Ho); [|unfold cat_bufsize; lia]. unfold cat_bufsize in *.
  rewrite i32_small by lia. destruct (Z.ltb_spec 0 r) as [Hpos|Hz].
  - apply uwp_call; [apply write_some; lia|]. intros w m2 s2 Hw. apply write_law in Hw as (-> & -> & Hi2 & Ho2); [|lia].
    rewrite i32_small, Z.eqb_refl by lia. simpl. eapply uwp_mono; [|intros ? ? H; exact H|apply IH].
    + intros n m3 s3 (-> & H4 & H5). split; [done|]. split; [done|]. rewrite H5, Hi2, Hi, Ho2, Ho, <- app_assoc. f_equal.
      rewrite <- (take_drop (Z.to_nat r) (inp s)) at 3. f_equal.
      pose proof (bytes_in_st_bytes m cat_buf (take (Z.to_nat r) (inp s)) ltac:(apply Forall_take, inp_bytes)) as Hb.
      apply bytes_at_in in Hb. rewrite length_take, Nat.min_l in Hb by lia. done.
    + rewrite Hi2, Hi, length_drop. lia.
  - assert (r = 0) as -> by lia. destruct (H2 eq_refl) as [?|E]; [lia|]. simpl. rewrite Hi, Ho, E. simpl. by rewrite app_nil_r.
Qed.

(** * wc counts *)

Definition blank (b : Z) : bool := bool_decide (b ∈ blanks).

(** The words of a text: its maximal runs of characters that are not blank. *)
Fixpoint words (l : list Z) : list (list Z) :=
  match l with
  | [] => []
  | b :: l' =>
      if blank b then words l' else
      match l' with
      | [] => [[b]]
      | b' :: _ => if blank b' then [b] :: words l' else
          match words l' with w :: ws => (b :: w) :: ws | [] => [[b]] end
      end
  end.

Definition newlines (l : list Z) : Z := Z.of_nat (length (filter (fun b => b = 10) l)).

(** The body of the loop of wc(). *)
Definition count (k : counts) (b : Z) : counts :=
  let l := if b =? 10 then i32 (wc_l k + 1) else wc_l k in
  if blank b then mkCounts l (wc_w k) (i32 (wc_c k + 1)) false
  else mkCounts l (if wc_in k then wc_w k else i32 (wc_w k + 1)) (i32 (wc_c k + 1)) true.

(** The words that start in [l], when a word is open before it or not. *)
Definition new_words (open : bool) (l : list Z) : Z :=
  Z.of_nat (length (words l)) - b2z (open && match l with b :: _ => negb (blank b) | [] => false end).

Lemma words_cons2 b b' l : words (b :: b' :: l) =
  if blank b then words (b' :: l) else if blank b' then [b] :: words (b' :: l) else
  match words (b' :: l) with w :: ws => (b :: w) :: ws | [] => [[b]] end.
Proof. done. Qed.

Lemma words_nonempty b l : blank b = false -> (0 < length (words (b :: l)))%nat.
Proof.
  intros E. destruct l as [|b' l]; [simpl; rewrite E; simpl; lia|]. rewrite words_cons2, E.
  case_if; [simpl; lia|]. destruct (words (b' :: l)); simpl; lia.
Qed.

Lemma new_words_cons open b l :
  new_words open (b :: l) = if blank b then new_words false l else b2z (negb open) + new_words true l.
Proof.
  unfold new_words. destruct l as [|b' l].
  { simpl. destruct (blank b), open; reflexivity. }
  rewrite words_cons2. pose proof (words_nonempty b' l) as Hn. set (W := words (b' :: l)) in *.
  destruct (blank b); [rewrite andb_false_r; simpl; lia|]. destruct (blank b').
  - destruct open; simpl; lia.
  - specialize (Hn eq_refl). destruct W as [|w ws]; [simpl in Hn; lia|]. destruct open; cbn [negb andb b2z length]; lia.
Qed.

Lemma new_words_bound open l : 0 <= new_words open l <= Z.of_nat (length l).
Proof.
  revert open. induction l as [|b l IH]; intros open; [unfold new_words; simpl; rewrite andb_false_r; simpl; lia|].
  rewrite new_words_cons. cbn [length]. case_if; [specialize (IH false); lia|]. specialize (IH true). destruct open; simpl; lia.
Qed.

Lemma newlines_cons b l : newlines (b :: l) = (if b =? 10 then 1 else 0) + newlines l.
Proof. unfold newlines. rewrite filter_cons. destruct (Z.eqb_spec b 10); case_decide; try done; simpl; lia. Qed.

Lemma newlines_bound l : 0 <= newlines l <= Z.of_nat (length l).
Proof. unfold newlines. pose proof (length_filter (fun b => b = 10) l). lia. Qed.

Lemma count_text l : forall k,
  0 <= wc_l k <= wc_c k -> 0 <= wc_w k <= wc_c k -> wc_c k + Z.of_nat (length l) < 2 ^ 31 ->
  exists b, foldl count k l = mkCounts (wc_l k + newlines l) (wc_w k + new_words (wc_in k) l) (wc_c k + Z.of_nat (length l)) b.
Proof.
  induction l as [|b l IH]; intros k Hl Hw Hc.
  - destruct k as [l w c i]. exists i. unfold newlines, new_words. simpl. rewrite andb_false_r. simpl. f_equal; lia.
  - cbn [foldl length] in *. rewrite newlines_cons, new_words_cons. destruct (IH (count k b)) as [i ->].
    + unfold count. destruct (blank b), (b =? 10); simpl; rewrite ?i32_small by lia; lia.
    + unfold count. destruct (blank b), (wc_in k); simpl; rewrite ?i32_small by lia; lia.
    + unfold count. destruct (blank b); simpl; rewrite ?i32_small by lia; lia.
    + exists i. unfold count. destruct (blank b), (b =? 10), (wc_in k); simpl; rewrite ?i32_small by lia; f_equal; lia.
Qed.

Section Wc.
Context {IM : Image} {OS : Os} (fd : Z) {SD : Stdio fd 1}.

Definition wc_fmt : list Z := str "%d %d %d %s" ++ [10].

(** A string that the reads of wc() do not overwrite. *)
Definition wc_string (m : mem) (p : Z) (l : list Z) : Prop :=
  ustring m p l /\ (p + Z.of_nat (length l) < wc_buf \/ wc_buf + wc_bufsize <= p).

(** The strings of wc() in memory. *)
Record wc_image (m : mem) (name : Z) (nm : list Z) : Prop := {
  wi_blanks : wc_string m (lit blanks) blanks;
  wi_fmt : wc_string m (litln "%d %d %d %s") wc_fmt;
  wi_name : wc_string m name nm;
  wi_null : 0 < lit blanks /\ name <> 0;
}.

Lemma wc_string_ext m m' p l : same_but wc_buf wc_bufsize m m' -> wc_string m p l -> wc_string m' p l.
Proof.
  intros H [(H1 & H2 & H3) H4]. split; [|done]. split; [|done]. apply (cstr_ext m); [|done]. intros a Ha. apply H. lia.
Qed.

Lemma wc_image_ext m m' name nm : same_but wc_buf wc_bufsize m m' -> wc_image m name nm -> wc_image m' name nm.
Proof. intros H [H1 H2 H3 H4]. split; [by apply (wc_string_ext m)..|done]. Qed.

Lemma strchr_blank m b : cstr_at m (lit blanks) blanks -> 0 < lit blanks -> exists q,
  strchr (lit blanks) b m = URet q m /\ (q =? 0) = negb (blank b).
Proof.
  intros Hs Hp. unfold blank. case_bool_decide as Hb.
  - apply list_elem_of_split_l in Hb as (l1 & l2 & E & Hn). exists (lit blanks + Z.of_nat (length l1)).
    split; [|apply Z.eqb_neq; lia]. rewrite E in Hs at 2. apply (strchr_found m (lit blanks) b l1 l2); [|done|done|].
    + intros ->. pose proof (cstr_range _ _ _ Hs) as Hr. rewrite Forall_forall in Hr.
      specialize (Hr 0 ltac:(set_solver)). lia.
    + apply (f_equal length) in E. rewrite length_app in E. simpl in E. assert (Ef : str_fuel = Z.to_nat 4097) by reflexivity. lia.
  - exists 0. split; [|done]. apply (strchr_missing m (lit blanks) b blanks); [done|done|].
    assert (Ef : str_fuel = Z.to_nat 4097) by reflexivity. simpl. lia.
Qed.

Lemma wc_chars_run m name nm l : wc_image m name nm -> forall i k,
  bytes_in m (wc_buf + i) l -> wc_chars (seqZ i (Z.of_nat (length l))) k m = URet (foldl count k l) m.
Proof.
  intros HI. induction l as [|b l IH]; intros i k Hb; [done|]. apply bytes_in_cons in Hb as [Hb Hl].
  cbn [length]. rewrite Nat2Z.inj_succ, seqZ_cons by lia. cbn [wc_chars foldl].
  assert (E : wc_char i k m = URet (count k b) m).
  { unfold wc_char. rewrite (ubind_run _ _ _ _ _ (eq_refl : load8 (wc_buf + i) m = URet _ m)).
    rewrite (ubind_run _ _ _ _ _ (eq_refl : load8 (wc_buf + i) m = URet _ m)), Hb.
    destruct (strchr_blank m b) as (q & Eq & Hq); [apply (wi_blanks _ _ _ HI)|apply (wi_null _ _ _ HI)|].
    rewrite (ubind_run _ _ _ _ _ Eq), Hq. unfold count. by destruct (blank b), (wc_in k). }
  rewrite (ubind_run _ _ _ _ _ E), Z.pred_succ. apply IH. by replace (wc_buf + Z.succ i) with (wc_buf + i + 1) by lia.
Qed.

Lemma wc_loop_spec name nm fuel : forall m s k,
  wc_image m name nm -> (length (inp s) < fuel)%nat ->
  uwp (wc_loop fuel fd k m) s (fun r m' s' => r = (0, foldl count k (inp s)) /\ wc_image m' name nm /\
    inp s' = [] /\ out s' = out s) (fun _ _ => False).
Proof.
  induction fuel as [|f IH]; intros m s k HI Hf; [lia|]. cbn [wc_loop].
  apply uwp_call; [apply read_some; unfold wc_bufsize; lia|]. intros r m' s' Hr.
  apply read_law in Hr as (H1 & H2 & H3 & -> & Hi & Ho); [|unfold wc_bufsize; lia]. unfold wc_bufsize in H1, H2.
  rewrite i32_small by lia. set (chunk := take (Z.to_nat r) (inp s)).
  assert (Hlen : length chunk = Z.to_nat r) by (unfold chunk; rewrite length_take; lia).
  assert (HI' : wc_image (st_bytes m wc_buf chunk) name nm).
  { apply (wc_image_ext m); [|done]. intros a Ha. unfold wc_bufsize in Ha. rewrite ld8_st_bytes, decide_False by lia. done. }
  destruct (Z.ltb_spec 0 r) as [Hpos|Hz].
  - replace r with (Z.of_nat (length chunk)) by lia. eapply uwp_bind_run; [apply (wc_chars_run _ name nm chunk HI' 0)|].
    { rewrite Z.add_0_r. apply bytes_in_st_bytes. apply Forall_take, inp_bytes. }
    eapply uwp_mono; [|intros ? ? H; exact H|apply IH; [exact HI'|rewrite Hi, length_drop; lia]].
    intros a m2 s2 (-> & H4 & H5 & H6). split; [|by rewrite H6]. f_equal. rewrite <- foldl_app. f_equal. rewrite Hi. apply take_drop.
  - assert (r = 0) as -> by lia. destruct (H2 eq_refl) as [?|E]; [lia|]. simpl. rewrite Hi, E. done.
Qed.
End Wc.

(** wc(fd, name) writes the number of newlines, of words and of bytes of its input, with the name, in whatever
    pieces read() delivers the input: a word that is cut by the end of the buffer counts once. *)
Theorem wc_correct {IM : Image} {OS : Os} fd {SD : Stdio fd 1} fuel name nm m s :
  wc_image m name nm -> (length (inp s) < fuel)%nat -> Z.of_nat (length (inp s)) < 2 ^ 31 ->
  uwp (wc fuel fd name m) s (fun _ _ s' => inp s' = [] /\
    out s' = out s ++ unumber 10 false (newlines (inp s)) ++ [32] ++ unumber 10 false (Z.of_nat (length (words (inp s)))) ++ [32] ++
      unumber 10 false (Z.of_nat (length (inp s))) ++ [32] ++ nm ++ [10]) (fun _ _ => False).
Proof.
  intros HI Hf Hlen. unfold wc. eapply uwp_bind_mono; [by apply (wc_loop_spec fd name nm)|].
  intros r m' s' (-> & HI' & Hi & Ho). cbn [Z.ltb Z.compare].
  destruct (count_text (inp s) (mkCounts 0 0 0 false)) as [b ->]; [simpl; lia..|]. cbn [wc_l wc_w wc_c wc_in].
  pose proof (newlines_bound (inp s)) as Bl. pose proof (new_words_bound false (inp s)) as Bw. rewrite !Z.add_0_l.
  set (ps := [PDec (newlines (inp s)); PText 32; PDec (new_words false (inp s)); PText 32; PDec (Z.of_nat (length (inp s))); PText 32; PStr name nm; PText 10]).
  assert (Hps : Forall (upiece_ok m') ps).
  { destruct HI' as [_ _ [Hn _] [_ Hnull]]. unfold ps. rewrite !Forall_cons. split_and!; simpl; try lia; try done; apply Hn. }
  apply (fprintf_emits fd 1 m' (litln "%d %d %d %s") ps Hps (proj1 (wi_fmt _ _ _ HI'))); [by intros a Ha|].
  intros m2 s2 _ Hi2 Ho2. split; [by rewrite Hi2|]. rewrite Ho2, Ho. f_equal. unfold ps. cbn [mbind list_bind upiece_text].
  rewrite !(proj2 (Z.ltb_ge _ 0)), !Z.abs_eq by lia. rewrite app_nil_r. unfold new_words. simpl. by rewrite Z.sub_0_r.
Qed.

(** * Concrete runs *)

(** The strings of wc() below its buffer. *)
#[local] Instance coreutils_image : Image := {|
  lit l := if bool_decide (l = blanks) then 100 else if bool_decide (l = wc_fmt) then 200 else 300;
  var v := if bool_decide (v = "putc.c"%string) then 50 else 4096;
|}.

Definition wc_mem : mem := st_bytes (st_bytes (st_bytes ∅ 100 blanks) 200 wc_fmt) 400 (str "in").

Lemma wc_mem_image : wc_image wc_mem 400 (str "in").
Proof.
  assert (Ef : str_fuel = Z.to_nat 4097) by reflexivity.
  assert (H : forall p l, bytes_at wc_mem p (length (l ++ [0])) = l ++ [0] -> Forall (fun c => c <> 0) l -> 50 < p ->
    p + Z.of_nat (length l) < 4096 -> wc_string wc_mem p l).
  { intros p l H1 H2 H3 H4. split; [|left; exact H4]. split; [by apply cstr_of_bytes; [apply bytes_in_at|]|].
    change (var "putc.c") with 50. split; [lia|]. rewrite Ef. lia. }
  split; [apply H; [by vm_compute|by repeat constructor|by vm_compute|by vm_compute]..|]. by split; vm_compute.
Qed.

Definition wc_input : stream := mkStream (str "one two" ++ [10] ++ str "three") [].

Lemma cat_correct_witness :
  let OS := stream_os 0 1 5 in uwp (cat 20 0 ∅) wc_input (fun _ _ s' => st_out s' = st_in wc_input) (fun _ _ => False).
Proof.
  intros OS. eapply uwp_mono; [|intros n s H; exact H|apply (@cat_correct coreutils_image OS 0 (stream_stdio 0 1 5 ltac:(lia)) 20 ∅ wc_input)].
  - intros a m s [_ H]. refine (eq_trans H _). by vm_compute.
  - simpl. lia.
Defined.

(** "1 3 13 in", with the words cut by reads of five bytes. *)
Lemma wc_correct_witness :
  let OS := stream_os 0 1 5 in uwp (wc 20 0 400 wc_mem) wc_input (fun _ _ s' => st_out s' = str "1 3 13 in" ++ [10]) (fun _ _ => False).
Proof.
  intros OS. eapply uwp_mono; [|intros n s H; exact H|
    apply (@wc_correct coreutils_image OS 0 (stream_stdio 0 1 5 ltac:(lia)) 20 400 (str "in") wc_mem wc_input)].
  - intros a m s [_ H]. refine (eq_trans H _). by vm_compute.
  - apply wc_mem_image.
  - simpl. lia.
  - by vm_compute.
Defined.

(** "%d %d %d %s" of -2^31, 0, 7 and "in". *)
Lemma user_printf_correct_witness :
  let OS := stream_os 0 1 5 in uwp (fprintf 1 200 [- 2 ^ 31; 0; 7; 400] wc_mem) wc_input
    (fun _ _ s' => st_out s' = str "-2147483648 0 7 in" ++ [10]) (fun _ _ => False).
Proof.
  intros OS. set (ps := [PDec (- 2 ^ 31); PText 32; PDec 0; PText 32; PDec 7; PText 32; PStr 400 (str "in"); PText 10]).
  change [- 2 ^ 31; 0; 7; 400] with (ps ≫= upiece_args).
  eapply uwp_mono; [|intros n s H; exact H|
    apply (@user_printf_correct coreutils_image OS 0 1 (stream_stdio 0 1 5 ltac:(lia)) wc_mem wc_input 200 ps)].
  - intros a m s [H _]. refine (eq_trans H _). by vm_compute.
  - unfold ps. rewrite !Forall_cons. split_and!; simpl; try lia; try done; split; [lia|]; exact (proj1 (wi_name _ _ _ wc_mem_image)).
  - exact (proj1 (wi_fmt _ _ _ wc_mem_image)).
Defined.
