(* ===== verification/Umalloc.v ===== *)
(** user/umalloc.c: the storage allocator of user programs, a circular list of free blocks in order of
    their addresses.

    The theory is in UmallocSpec.v. *)

From Stdlib Require Import ZArith Lia.
From stdpp Require Import base gmap list_numbers strings numbers list.
From S2P Require Import Prelude Mem User Ulib.

Open Scope Z_scope.
Open Scope user_scope.

(** * The code *)

(** sizeof(Header) *)
Definition hdr : Z := 16.

(** The walks of the allocator: a process has less than 2^27 bytes of memory, and a block at least sixteen. *)
Definition heap_fuel : nat := Z.to_nat (2 ^ 25).
Lemma heap_fuel_Z : Z.of_nat heap_fuel = 2 ^ 25.
Proof. unfold heap_fuel. by rewrite Z2Nat.id. Qed.

#[global] Opaque heap_fuel.

Section Code.
Context {IM : Image}.

(** static Header base; static Header *freep; *)
Definition base : Z := var "umalloc.base".
Definition freep : Z := var "umalloc.freep".

(** p->s.ptr and p->s.size *)
Definition get_ptr (p : Z) : U Z := load64 p.
Definition get_size (p : Z) : U Z := load32 (p + 8).
Definition set_ptr (p v : Z) : U unit := store64 p v.
Definition set_size (p v : Z) : U unit := store32 (p + 8) v.

(** for(p = freep; !(bp > p && bp < p->s.ptr); p = p->s.ptr)
      if(p >= p->s.ptr && (bp > p || bp < p->s.ptr)) break; *)
Fixpoint free_find (fuel : nat) (bp p : Z) : U Z :=
  match fuel with
  | O => unofuel
  | S f =>
      let! n := get_ptr p in
      if (p <? bp) && (bp <? n) then uret p else
      if (n <=? p) && ((p <? bp) || (bp <? n)) then uret p else
      free_find f bp n
  end.

(** if(x + x->s.size == n){ x->s.size += n->s.size; x->s.ptr = n->s.ptr; } else x->s.ptr = n;
    with the size of [x] *)
Definition coalesce (x size n : Z) : U unit :=
  if x + hdr * size =? n then
    let! nsize := get_size n in
    do! set_size x (u32 (size + nsize));
    let! nn := get_ptr n in
    set_ptr x nn
  else set_ptr x n.

(** [fuel] bounds the walks along the list. *)
Definition free (fuel : nat) (ap : Z) : U unit :=
  let bp := ap - hdr in
  let! p := load64 freep in
  let! p := free_find fuel bp p in
  let! size := get_size bp in
  let! n := get_ptr p in
  do! coalesce bp size n;
  let! psize := get_size p in
  do! coalesce p psize bp;
  store64 freep p.

Definition morecore (fuel : nat) (nu : Z) : U Z :=
  let nu := if nu <? 4096 then 4096 else nu in
  let! p := sbrk (nu * hdr) in
  if p =? 2 ^ 64 - 1 then uret 0 else
  let hp := p in
  do! set_size hp nu;
  do! free fuel (hp + hdr);
  load64 freep.

(** The block at [p] of [size] units is large enough: unlink it, or cut off its end. *)
Definition malloc_take (nunits prevp p size : Z) : U Z :=
  if size =? nunits then
    let! n := get_ptr p in
    do! set_ptr prevp n;
    do! store64 freep prevp;
    uret (p + hdr)
  else
    do! set_size p (u32 (size - nunits));
    let! size := get_size p in
    let p := p + hdr * size in
    do! set_size p nunits;
    do! store64 freep prevp;
    uret (p + hdr).

(** for(p = prevp->s.ptr; ; prevp = p, p = p->s.ptr){ ... } *)
Fixpoint malloc_loop (fuel0 fuel : nat) (nunits prevp p : Z) : U Z :=
  match fuel with
  | O => unofuel
  | S f =>
      let! size := get_size p in
      if nunits <=? size then malloc_take nunits prevp p size
      else
        let! fp := load64 freep in
        if p =? fp then
          let! p := morecore fuel0 nunits in
          if p =? 0 then uret 0 else
          let prevp := p in
          let! p := get_ptr p in
          malloc_loop fuel0 f nunits prevp p
        else
          let prevp := p in
          let! p := get_ptr p in
          malloc_loop fuel0 f nunits prevp p
  end.

(** (nbytes + sizeof(Header) - 1)/sizeof(Header) + 1 *)
Definition units (nbytes : Z) : Z := u32 ((nbytes + hdr - 1) / hdr + 1).

Definition malloc (fuel : nat) (nbytes : Z) : U Z :=
  let nunits := units nbytes in
  let! prevp := load64 freep in
  if prevp =? 0 then
    do! store64 freep base;
    do! set_ptr base base;
    do! set_size base 0;
    let! p := get_ptr base in
    malloc_loop fuel fuel nunits base p
  else
    let! p := get_ptr prevp in
    malloc_loop fuel fuel nunits prevp p.
End Code.
