(* ===== verification/UmallocSpec.v ===== *)
(** The storage allocator of user programs (user/umalloc.c).

    The list of free blocks is a canonical representation of the set of free bytes; free() adds a block
    to the set, malloc() takes one out of it or asks the kernel for more memory, and neither touches a byte of a
    block that is in use. *)

From Stdlib Require Import ZArith Lia Sorted.
From stdpp Require Import base gmap list_numbers strings numbers sorting list.
From S2P Require Import Prelude Mem User Ulib Umalloc.

Open Scope Z_scope.
Open Scope user_scope.

(** * Blocks *)

(** A block: the address of its header and its size in units of a header. *)
Abbreviation block := (Z * Z)%type.
Implicit Types (x y b : block) (C N ns live : list block) (m : mem).

(** The bytes of a block, header included. *)
Definition in_block (x : block) (v : Z) : Prop := x.1 <= v < x.1 + hdr * x.2.

Definition covers (C : list block) (v : Z) : Prop := exists x, x ∈ C /\ in_block x v.

Definition apart (x y : block) : Prop := x.1 + hdr * x.2 <= y.1 \/ y.1 + hdr * y.2 <= x.1.

(** [x] comes before [y]: their headers do not overlap, and free blocks are not adjacent. *)
Definition before (x y : block) : Prop := x.1 + hdr * x.2 < y.1 /\ x.1 + hdr <= y.1.
Definition upto (x y : block) : Prop := x.1 + hdr * x.2 <= y.1 /\ x.1 + hdr <= y.1.

(** The address of the first block of [C], or [z]. *)
Definition first (z : Z) (C : list block) : Z := match C with x :: _ => x.1 | [] => z end.

(** The blocks [C] linked in memory, the last one to [z]. *)
Fixpoint seg (m : mem) (C : list block) (z : Z) : Prop :=
  match C with
  | [] => True
  | x :: C' => ld64 m x.1 = first z C' /\ ld32 m (x.1 + 8) = x.2 /\ seg m C' z
  end.

Lemma hseg_app m C1 C2 z : seg m (C1 ++ C2) z <-> seg m C1 (first z C2) /\ seg m C2 z.
Proof.
  induction C1 as [|x C1 IH]; simpl; [tauto|]. rewrite IH. assert (E : first z (C1 ++ C2) = first (first z C2) C1) by (by destruct C1).
  rewrite E. tauto.
Qed.

Lemma hdr_loads m m' a : (forall v, a <= v < a + hdr -> ld8 m' v = ld8 m v) -> ld64 m' a = ld64 m a /\ ld32 m' (a + 8) = ld32 m (a + 8).
Proof. unfold hdr. intros H. split; apply ldn_ext; intros v Hv; apply H; lia. Qed.

Lemma seg_ext m m' C z : (forall x v, x ∈ C -> x.1 <= v < x.1 + hdr -> ld8 m' v = ld8 m v) -> seg m C z -> seg m' C z.
Proof.
  induction C as [|x C IH]; intros H; simpl; [done|]. intros (H1 & H2 & H3).
  destruct (hdr_loads m m' x.1) as [E1 E2]; [intros v; apply H; set_solver|]. rewrite E1, E2. split; [done|]. split; [done|].
  apply IH; [|done]. intros y v Hy. apply H. set_solver.
Qed.

(** [x] put before [C], merged with the first block when that is adjacent. *)
Definition join (x : block) (C : list block) : list block :=
  match C with
  | y :: C' => if x.1 + hdr * x.2 =? y.1 then (x.1, x.2 + y.2) :: C' else x :: C
  | [] => [x]
  end.

Lemma first_join x C z : first z (join x C) = x.1.
Proof. destruct C as [|y C]; simpl; [done|]. by case_if. Qed.

Lemma join_first x C : exists y, y ∈ join x C /\ y.1 = x.1.
Proof. destruct C as [|y C]; cbn [join]; [exists x; set_solver|]. case_if; eexists; (split; [by left|done]). Qed.

Lemma covers_cons x C v : covers (x :: C) v <-> in_block x v \/ covers C v.
Proof.
  unfold covers. split.
  - intros (y & [->|Hy]%elem_of_cons & Hv); [by left|right; by exists y].
  - intros [H|(y & Hy & Hv)]; [exists x|exists y]; set_solver.
Qed.

Lemma covers_app C1 C2 v : covers (C1 ++ C2) v <-> covers C1 v \/ covers C2 v.
Proof.
  unfold covers. split.
  - intros (y & [Hy|Hy]%elem_of_app & Hv); [left|right]; by exists y.
  - intros [(y & Hy & Hv)|(y & Hy & Hv)]; exists y; set_solver.
Qed.

Lemma join_covers x C v :
  0 <= x.2 -> (forall y, y ∈ C -> 0 <= y.2) -> covers (join x C) v <-> in_block x v \/ covers C v.
Proof.
  intros Hx Hy. destruct C as [|y C]; cbn [join]; [by rewrite covers_cons|]. case_if; [|by rewrite covers_cons].
  rewrite !covers_cons. unfold in_block, hdr in *. simpl. specialize (Hy y ltac:(set_solver)). split.
  - intros [H|H]; [|tauto]. destruct (decide (v < y.1)); [left; lia|right; left; lia].
  - intros [H|[H|H]]; [left; lia|left; lia|tauto].
Qed.

Lemma join_sorted x C :
  (forall y, y ∈ C -> 0 <= y.2) -> StronglySorted before C -> Forall (upto x) C -> StronglySorted before (join x C).
Proof.
  intros Hn HC Hx. destruct C as [|y C]; cbn [join]; [by repeat constructor|].
  apply Forall_cons in Hx as [Hxy Hx]. specialize (Hn y ltac:(set_solver)).
  inversion HC as [|? ? HC' Hy]; subst. unfold before, upto, hdr in *. case_if.
  - constructor; [done|]. rewrite Forall_forall in Hx, Hy |- *. intros z Hz. specialize (Hx z Hz). specialize (Hy z Hz). simpl in *. lia.
  - constructor; [done|]. constructor; [lia|]. rewrite Forall_forall in Hx, Hy |- *. intros z Hz. specialize (Hx z Hz). specialize (Hy z Hz). lia.
Qed.

(** A property of blocks that is kept by merging. *)
Lemma join_all (P : block -> Prop) x C :
  P x -> (forall y, y ∈ C -> P y) -> (forall y, y ∈ C -> x.1 + hdr * x.2 = y.1 -> P (x.1, x.2 + y.2)) -> forall y, y ∈ join x C -> P y.
Proof.
  intros Hx HC Hj. destruct C as [|y C]; cbn [join]; [intros z ->%list_elem_of_singleton; done|].
  case_if; intros z [->|Hz]%elem_of_cons; try done; [apply Hj; set_solver|apply HC; set_solver|by apply HC].
Qed.

Section Heap.
Context {IM : Image} (lo : Z).
(** The variables of the allocator lie below the heap and apart from each other. *)
Context (Hbase : 0 < base /\ base + hdr <= lo) (Hfreep : 0 < freep /\ freep + 8 <= lo).
Context (Hvars : base + hdr <= freep \/ freep + 8 <= base).

(** A block of the heap, which ends at [hi]. *)
Definition block_ok (hi : Z) (x : block) : Prop := 1 <= x.2 /\ lo <= x.1 /\ x.1 + hdr * x.2 <= hi.

(** The base, which is a block of size 0, and the free blocks. *)
Definition nodes (ns : list block) : list block := (base, 0) :: ns.

(** The allocator's invariant: [ns] are the free blocks in order, [live] the blocks in use. *)
Record heap (hi : Z) (m : mem) (ns live : list block) : Prop := {
  hp_seg : seg m (nodes ns) base;
  hp_sorted : StronglySorted before (nodes ns);
  hp_free : forall x, x ∈ ns -> block_ok hi x;
  hp_freep : exists x, x ∈ nodes ns /\ ld64 m freep = x.1;
  hp_live : forall x, x ∈ live -> block_ok hi x /\ ld32 m (x.1 + 8) = x.2;
  hp_apart : forall x y, x ∈ live -> y ∈ ns -> apart x y;
  hp_disjoint : forall x y, x ∈ live -> y ∈ live -> x <> y -> apart x y;
  hp_nodup : NoDup live;
  hp_hi : hi < 2 ^ 32;
}.

Lemma nodes_node hi ns x : (forall x, x ∈ ns -> block_ok hi x) -> x ∈ nodes ns -> 0 <= x.2 /\ 0 < x.1 /\ (x = (base, 0) \/ block_ok hi x).
Proof. intros H [->|Hx]%elem_of_cons; [simpl; split; [lia|]; split; [apply Hbase|by left]|]. destruct (H x Hx) as (H1 & H2 & H3). unfold block_ok, hdr in *. split_and!; [lia|lia|by right]. Qed.

Lemma before_ne x y : before x y -> x.1 <> y.1.
Proof. unfold before, hdr. lia. Qed.

(** The write of a header. *)
Lemma ld64_range_Z m a : 0 <= ld64 m a.
Proof. pose proof (ld64_range m a). lia. Qed.

Lemma st_size_run m a v : 0 <= v < 2 ^ 32 -> exists m', set_size a v m = URet tt m' /\ ld32 m' (a + 8) = v /\ ld64 m' a = ld64 m a /\
  forall w, ~ (a + 8 <= w < a + 12) -> ld8 m' w = ld8 m w.
Proof.
  intros Hv. eexists. split; [reflexivity|]. split; [|split].
  - unfold ld32, st32. rewrite ldn_stn_same. simpl. apply Z.mod_small. lia.
  - apply ldn_stn_disj. left. simpl. lia.
  - intros w Hw. apply ld8_stn_out. simpl. lia.
Qed.

Lemma st_ptr_run m a v : 0 <= v < 2 ^ 64 -> exists m', set_ptr a v m = URet tt m' /\ ld64 m' a = v /\ ld32 m' (a + 8) = ld32 m (a + 8) /\
  forall w, ~ (a <= w < a + 8) -> ld8 m' w = ld8 m w.
Proof.
  intros Hv. eexists. split; [reflexivity|]. split; [|split].
  - by apply ld64_st64_eq.
  - apply ldn_stn_disj. right. simpl. lia.
  - intros w Hw. apply ld8_stn_out. simpl. lia.
Qed.

Lemma coalesce_run m x C z :
  ld32 m (x.1 + 8) = x.2 -> seg m C z -> (C = [] -> x.1 + hdr * x.2 <> z) -> (forall y, y ∈ C -> x.1 + hdr <= y.1 /\ 0 <= x.2 + y.2 < 2 ^ 32) ->
  0 <= first z C < 2 ^ 64 -> exists m',
  coalesce x.1 x.2 (first z C) m = URet tt m' /\ seg m' (join x C) z /\ same_but x.1 hdr m m'.
Proof.
  intros Hs HC Hz Hin Hf. unfold coalesce. destruct (Z.eqb_spec (x.1 + hdr * x.2) (first z C)) as [E|Hne].
  - destruct C as [|y C]; [by destruct Hz|]. destruct HC as (Hp & Hys & HC). destruct (Hin y ltac:(set_solver)) as [Hxy Hsz].
    assert (Hgs : get_size (first z (y :: C)) m = URet y.2 m) by (unfold get_size, load32; simpl; by rewrite Hys).
    rewrite (ubind_run _ _ _ _ _ Hgs), u32_small by done. destruct (st_size_run m x.1 (x.2 + y.2) Hsz) as (m1 & E1 & S1 & P1 & F1).
    rewrite (ubind_run _ _ _ _ _ E1). assert (Hgp : get_ptr (first z (y :: C)) m1 = URet (first z C) m1).
    { unfold get_ptr, load64. f_equal. simpl. rewrite <- Hp. apply ldn_ext. intros v Hv. simpl in Hv. apply F1. unfold hdr in *. lia. }
    rewrite (ubind_run _ _ _ _ _ Hgp).
    destruct (st_ptr_run m1 x.1 (first z C)) as (m2 & E2 & P2 & S2 & F2); [rewrite <- Hp; apply ld64_range|].
    exists m2. split; [exact E2|]. assert (Hsame : same_but x.1 hdr m m2).
    { intros a Ha. unfold hdr in Ha. rewrite F2, F1 by lia. done. }
    split; [|done]. cbn [join]. rewrite (proj2 (Z.eqb_eq (x.1 + hdr * x.2) y.1) E). cbn [seg fst snd]. split; [exact P2|]. split; [by rewrite S2|].
    apply (seg_ext m); [|done]. intros u v Hu Hv. apply Hsame. destruct (Hin u ltac:(set_solver)). lia.
  - destruct (st_ptr_run m x.1 (first z C) Hf) as (m1 & E1 & P1 & S1 & F1). exists m1. split; [exact E1|].
    assert (Hsame : same_but x.1 hdr m m1). { intros a Ha. unfold hdr in Ha. rewrite F1 by lia. done. }
    split; [|done]. assert (Ej : join x C = x :: C).
    { destruct C as [|y C]; [done|]. cbn [join]. by rewrite (proj2 (Z.eqb_neq (x.1 + hdr * x.2) y.1) Hne). }
    rewrite Ej. cbn [seg]. split; [exact P1|]. split; [by rewrite S1|].
    apply (seg_ext m); [|done]. intros u v Hu Hv. apply Hsame. destruct (Hin u Hu). lia.
Qed.

(** * Walking along the list *)

Lemma sorted_lookup N i j x y : StronglySorted before N -> N !! i = Some x -> N !! j = Some y -> (i < j)%nat -> before x y.
Proof.
  intros HN. revert i j. induction HN as [|z N HN IH Hz]; intros [|i] [|j] Hi Hj Hlt; simplify_eq/=; try lia.
  - rewrite Forall_lookup in Hz. by apply (Hz j).
  - apply (IH i j); [done|done|lia].
Qed.

Lemma seg_lookup m N z i x : seg m N z -> N !! i = Some x -> ld32 m (x.1 + 8) = x.2 /\ ld64 m x.1 = first z (drop (S i) N).
Proof.
  revert i. induction N as [|y N IH]; intros [|i] H Hi; simplify_eq/=; [|by apply IH; [apply H|]].
  destruct H as (H1 & H2 & _). by rewrite drop_0.
Qed.

(** The block after block [i]; after the last one comes the base. *)
Definition succ (N : list block) (i : nat) : nat := if decide (S i < length N)%nat then S i else 0.

Lemma ring_next m ns i x :
  seg m (nodes ns) base -> nodes ns !! i = Some x -> exists y, nodes ns !! succ (nodes ns) i = Some y /\ ld64 m x.1 = y.1.
Proof.
  intros Hs Hi. destruct (seg_lookup _ _ _ _ _ Hs Hi) as [_ ->]. unfold succ. case_decide as Hd.
  - destruct (lookup_lt_is_Some_2 (nodes ns) (S i) Hd) as [y Hy]. exists y. split; [done|].
    rewrite (drop_S _ y) by done. done.
  - exists (base, 0). split; [done|]. rewrite drop_ge by lia. done.
Qed.

(** Steps from block [i] to block [j]. *)
Definition steps (N : list block) (i j : nat) : nat := if decide (i <= j)%nat then j - i else length N - i + j.

Lemma steps_succ N i j : (i < length N)%nat -> (j < length N)%nat -> i <> j -> S (steps N (succ N i) j) = steps N i j.
Proof. intros Hi Hj Hne. unfold steps, succ. repeat case_decide; lia. Qed.

(** free() finds the block [p] before [bp]. *)
Lemma free_find_run m ns j (p : block) (b : Z) : seg m (nodes ns) base -> StronglySorted before (nodes ns) -> nodes ns !! j = Some p ->
  p.1 < b -> base < b -> (forall k y, (j < k)%nat -> nodes ns !! k = Some y -> b < y.1) -> forall fuel i x,
  nodes ns !! i = Some x -> (steps (nodes ns) i j < fuel)%nat -> free_find fuel b x.1 m = URet p.1 m.
Proof.
  intros Hs Hsort Hj Hp Hb Hafter. induction fuel as [|f IH]; intros i x Hi Hf; [lia|]. cbn [free_find].
  destruct (ring_next m ns i x Hs Hi) as (y & Hy & En).
  rewrite (ubind_run _ _ _ _ _ (eq_refl : get_ptr x.1 m = URet (ld64 m x.1) m)), En.
  pose proof (lookup_lt_Some _ _ _ Hi) as Hil. pose proof (lookup_lt_Some _ _ _ Hj) as Hjl.
  assert (Hnext : forall A (a c : A), (if (y.1 <=? x.1) then a else c) = if decide (S i < length (nodes ns))%nat then c else a).
  { intros A a c. unfold succ in Hy. case_decide.
    - pose proof (sorted_lookup _ _ _ _ _ Hsort Hi Hy ltac:(lia)) as Hxy. unfold before, hdr in Hxy. by rewrite (proj2 (Z.leb_gt _ _)) by lia.
    - rewrite (proj2 (Z.leb_le _ _)); [done|]. injection Hy as <-. simpl. destruct i as [|i]; [injection Hi as <-; simpl; lia|].
      pose proof (sorted_lookup _ 0 (S i) (base, 0) x Hsort eq_refl Hi ltac:(lia)) as Hbx. unfold before, hdr in Hbx. simpl in Hbx. lia. }
  destruct (Nat.lt_trichotomy i j) as [Hlt|[->|Hgt]].
  - pose proof (sorted_lookup _ _ _ _ _ Hsort Hi Hj Hlt) as Hxp. unfold before, hdr in Hxp.
    assert (Hyb : y.1 < b).
    { unfold succ in Hy. rewrite decide_True in Hy by lia. destruct (decide (S i = j)) as [<-|Hne]; [by simplify_eq|].
      pose proof (sorted_lookup _ _ _ _ _ Hsort Hy Hj ltac:(lia)) as Hyp. unfold before, hdr in Hyp. lia. }
    rewrite (proj2 (Z.ltb_ge b y.1)), andb_false_r by lia. unfold andb at 1. rewrite Hnext, decide_True by lia.
    apply (IH (succ (nodes ns) i)); [done|]. pose proof (steps_succ (nodes ns) i j). lia.
  - simplify_eq. rewrite (proj2 (Z.ltb_lt p.1 b)) by lia. cbn [andb orb]. destruct (Z.ltb_spec b y.1) as [Hby|Hby]; [done|].
    rewrite andb_true_r, Hnext. case_decide as Hd; [|done]. exfalso. unfold succ in Hy. rewrite decide_True in Hy by done.
    specialize (Hafter (S j) y ltac:(lia) Hy). lia.
  - pose proof (Hafter i x Hgt Hi) as Hxb. rewrite (proj2 (Z.ltb_ge x.1 b)) by lia. cbn [andb orb]. unfold andb. rewrite Hnext.
    assert (Hstep : free_find f b y.1 m = URet p.1 m).
    { apply (IH (succ (nodes ns) i)); [done|]. pose proof (steps_succ (nodes ns) i j). lia. }
    case_decide as Hd; [done|]. unfold succ in Hy. rewrite decide_False in Hy by done. injection Hy as <-. simpl in *.
    rewrite (proj2 (Z.ltb_ge b base)) by lia. done.
Qed.

(** The place of a block among the blocks in order. *)
Lemma split_at x l b : StronglySorted before (x :: l) -> 1 <= b.2 -> upto x b -> (forall y, y ∈ l -> 1 <= y.2 /\ apart b y) ->
  exists A p C, x :: l = A ++ p :: C /\ upto p b /\ Forall (upto b) C /\ (A = [] -> p = x) /\ (A <> [] -> head A = Some x).
Proof.
  revert x. induction l as [|y l IH]; intros x Hs Hb Hx Hl.
  { exists [], x, []. split; [done|]. split; [done|]. split; [done|]. split; [done|]. done. }
  inversion Hs as [|? ? Hs' Hxl]; subst. destruct (Hl y ltac:(set_solver)) as [Hy1 Hya].
  destruct (decide (y.1 < b.1)) as [Hyb|Hyb].
  - destruct (IH y Hs' Hb) as (A & p & C & E & H1 & H2 & H3 & H4).
    + unfold upto, apart, hdr in *. lia.
    + intros z Hz. apply Hl. set_solver.
    + exists (x :: A), p, C. rewrite E. split; [done|]. split; [done|]. split; [done|]. split; [done|]. done.
  - exists [], x, (y :: l). split; [done|]. split; [done|]. split; [|split; done].
    assert (Hby : upto b y) by (unfold upto, apart, hdr in *; lia). constructor; [done|].
    inversion Hs' as [|? ? _ Hyl]; subst. rewrite Forall_forall in Hyl |- *. intros z Hz. specialize (Hyl z Hz).
    unfold upto, before, hdr in *. lia.
Qed.

(** * free() *)

Lemma covers_nodes ns v : covers (nodes ns) v <-> covers ns v.
Proof. unfold nodes. rewrite covers_cons. unfold in_block. simpl. rewrite Z.mul_0_r. split; [|tauto]. intros [H|H]; [lia|done]. Qed.

Lemma join_length x C : (length (join x C) <= S (length C))%nat.
Proof. destruct C as [|y C]; cbn [join]; [done|]. case_if; simpl; lia. Qed.

(** A block of [join x C] that contains all of [x], and one that contains all of a block of [C]. *)
Lemma join_contains x C : (forall y, y ∈ C -> 0 <= y.2) -> exists y, y ∈ join x C /\ y.1 <= x.1 /\ x.1 + hdr * x.2 <= y.1 + hdr * y.2.
Proof.
  intros HC. destruct C as [|y C]; cbn [join]; [exists x; split; [by left|lia]|]. specialize (HC y ltac:(set_solver)). case_if.
  - eexists. split; [by left|]. unfold hdr in *. simpl. lia.
  - exists x. split; [by left|lia].
Qed.

Lemma join_keeps x C z : 0 <= x.2 -> z ∈ C -> exists y, y ∈ join x C /\ y.1 <= z.1 /\ z.1 + hdr * z.2 <= y.1 + hdr * y.2.
Proof.
  intros Hx Hz. destruct C as [|y C]; [set_solver|]. cbn [join]. case_if; [|exists z; split; [set_solver|lia]].
  apply elem_of_cons in Hz as [->|Hz]; [|exists z; split; [set_solver|lia]].
  eexists. split; [by left|]. unfold hdr in *. simpl. lia.
Qed.

(** The list after the block [b] has been inserted behind [p]. *)
Record inserted (hi : Z) (ns : list block) (b : block) (ns' : list block) : Prop := {
  in_sorted : StronglySorted before (nodes ns');
  in_ok : forall x, x ∈ ns' -> block_ok hi x;
  in_covers : forall v, covers ns' v <-> covers ns v \/ in_block b v;
  in_length : (length ns' <= S (length ns))%nat;
  in_fits : exists y, y ∈ ns' /\ y.1 <= b.1 /\ b.1 + hdr * b.2 <= y.1 + hdr * y.2;
}.

(** The part of the list from [p] on. *)
Lemma insert_tail hi p b C :
  0 <= p.2 -> (forall x, x ∈ C -> block_ok hi x) -> block_ok hi b -> upto p b -> Forall (upto b) C -> Forall (before p) C ->
  StronglySorted before C ->
  StronglySorted before (join p (join b C)) /\ (forall v, covers (join p (join b C)) v <-> in_block p v \/ in_block b v \/ covers C v) /\
  (forall y, y ∈ join p (join b C) -> p.1 <= y.1) /\ (forall y, y ∈ join b C -> block_ok hi y /\ upto p y).
Proof.
  intros Hp HC Hb Hpb HbC HpC Hsort. assert (HC0 : forall y, y ∈ C -> 0 <= y.2) by (intros y Hy; specialize (HC y Hy); unfold block_ok in HC; lia).
  rewrite Forall_forall in HbC, HpC. assert (HJ : forall y, y ∈ join b C -> block_ok hi y /\ upto p y).
  { apply join_all; [done| |].
    - intros y Hy. split; [by apply HC|]. specialize (HpC y Hy). unfold before, upto, hdr in *. lia.
    - intros y Hy E. specialize (HC y Hy). unfold block_ok, upto, hdr in *. simpl. lia. }
  assert (HJ0 : forall y, y ∈ join b C -> 0 <= y.2) by (intros y Hy; destruct (HJ y Hy) as [H _]; unfold block_ok in H; lia).
  assert (Hb0 : 0 <= b.2) by (unfold block_ok in Hb; lia). split; [|split; [|split]].
  - apply join_sorted; [done| |].
    + apply join_sorted; [done|done|]. by apply Forall_forall.
    + apply Forall_forall. intros y Hy. by apply HJ.
  - intros v. rewrite join_covers by done. rewrite join_covers by done. tauto.
  - apply (join_all (fun y => p.1 <= y.1)); [lia| |].
    + intros y Hy. destruct (HJ y Hy) as [_ H]. unfold upto, hdr in H. lia.
    + intros y Hy E. simpl. lia.
  - done.
Qed.

(** The whole list, with the base. *)
Lemma insert_list hi ns b A p C :
  nodes ns = A ++ p :: C -> StronglySorted before (nodes ns) -> (forall x, x ∈ C -> block_ok hi x) -> 0 <= p.2 -> block_ok hi b ->
  upto p b -> Forall (upto b) C -> let N' := A ++ join p (join b C) in
  StronglySorted before N' /\ (forall v, covers N' v <-> covers ns v \/ in_block b v) /\ (length N' <= S (length (nodes ns)))%nat /\
  (forall y, y ∈ join b C -> block_ok hi y) /\ (block_ok hi p -> forall y, y ∈ join p (join b C) -> block_ok hi y) /\
  exists y, y ∈ join b C /\ y.1 <= b.1 /\ b.1 + hdr * b.2 <= y.1 + hdr * y.2.
Proof.
  intros E Hsort HCok Hp0 Hb Hpb HbC N'. rewrite E in Hsort. apply StronglySorted_app in Hsort as (HAB & HA & HpC).
  inversion HpC as [|? ? HC HpC']; subst. destruct (insert_tail hi p b C Hp0 HCok Hb Hpb HbC HpC' HC) as (T1 & T2 & T3 & T4).
  split; [|split; [|split; [|split; [|split]]]].
  - apply StronglySorted_app_2; [|done|done]. intros x y Hx Hy. specialize (T3 y Hy). specialize (HAB x p Hx ltac:(set_solver)).
    unfold before, hdr in *. lia.
  - intros v. rewrite <- (covers_nodes ns), E. unfold N'. rewrite !covers_app, covers_cons, T2. tauto.
  - unfold N'. rewrite E, !length_app. pose proof (join_length p (join b C)). pose proof (join_length b C). simpl. lia.
  - intros y Hy. by apply T4.
  - intros Hpk. apply join_all; [done|by intros; apply T4|]. intros y Hy Ey. destruct (T4 y Hy) as [Hyk _].
    unfold block_ok, hdr in *. simpl. lia.
  - apply join_contains. intros y Hy. specialize (HCok y Hy). unfold block_ok in HCok. lia.
Qed.

Lemma insert_ok hi ns b A p C :
  nodes ns = A ++ p :: C -> StronglySorted before (nodes ns) -> (forall x, x ∈ ns -> block_ok hi x) -> block_ok hi b ->
  upto p b -> Forall (upto b) C -> exists ns', A ++ join p (join b C) = nodes ns' /\ inserted hi ns b ns'.
Proof.
  intros E Hsort Hns Hb Hpb HbC. assert (Hp : p ∈ nodes ns) by (rewrite E; set_solver). destruct (nodes_node hi ns p Hns Hp) as (Hp0 & _ & _).
  assert (HCok : forall x, x ∈ C -> block_ok hi x).
  { intros x Hx. apply Hns. destruct A as [|a A]; injection E as <- ->; set_solver. }
  destruct (insert_list hi ns b A p C E Hsort HCok Hp0 Hb Hpb HbC) as (HN & Hcov & Hlen & HJ1 & HJ & y & Hy & Hfit).
  destruct A as [|a A]; injection E as E1 E2.
  - subst p. assert (EJ : join (base, 0) (join b C) = (base, 0) :: join b C).
    { pose proof (first_join b C base) as Ef. destruct (join b C) as [|z C']; [done|]. simpl in Ef. cbn [join fst snd].
      rewrite (proj2 (Z.eqb_neq _ _)); [done|]. rewrite Ef. unfold block_ok, hdr in *. lia. }
    exists (join b C). cbn [app] in *. rewrite EJ in *. split; [done|]. split; [done|done| |simpl in Hlen; lia|by exists y].
    intros v. rewrite <- Hcov. symmetry. apply covers_nodes.
  - subst a. assert (Hpk : block_ok hi p) by (apply Hns; rewrite E2; set_solver).
    exists (A ++ join p (join b C)). split; [done|]. split; [done| | |simpl in Hlen; lia|].
    + intros x [Hx|Hx]%elem_of_app; [apply Hns; rewrite E2; set_solver|by apply HJ].
    + intros v. rewrite <- Hcov. symmetry. apply covers_nodes.
    + destruct (join_keeps p (join b C) y Hp0 Hy) as (z & Hz & H). exists z. split; [set_solver|]. lia.
Qed.

(** The bytes that free() writes: the headers of [b] and of [p], and freep. *)
Definition written (x y : block) (v : Z) : Prop :=
  x.1 <= v < x.1 + hdr \/ y.1 <= v < y.1 + hdr \/ freep <= v < freep + 8.

Lemma node_freep hi ns x v : (forall x, x ∈ ns -> block_ok hi x) -> x ∈ nodes ns -> x.1 <= v < x.1 + hdr -> ~ (freep <= v < freep + 8).
Proof.
  intros Hns Hx Hv. destruct (nodes_node hi ns x Hns Hx) as (_ & _ & [->|Hk]); [simpl in *; lia|]. unfold block_ok, hdr in *. lia.
Qed.

(** A call after two others. *)
Lemma ubind_tail3 {A B : Type} (u1 : U A) (u2 : U B) (u3 : B -> U unit) (u4 : U unit) m m' :
  (do! u1; let! x := u2 in u3 x) m = URet tt m' -> (do! u1; let! x := u2 in do! u3 x; u4) m = u4 m'.
Proof.
  unfold ubind. destruct (u1 m) as [a m1| | | |]; simpl; try discriminate. destruct (u2 m1) as [x m2| | | |]; simpl; try discriminate.
  by intros ->.
Qed.

(** The two merges. *)
Lemma coalesce_twice hi m b p C :
  hi < 2 ^ 32 -> 0 <= p.2 -> 0 < p.1 -> block_ok hi b -> upto p b -> Forall (upto b) C -> (forall y, y ∈ C -> block_ok hi y) ->
  (forall y, y ∈ join b C -> block_ok hi y /\ upto p y) ->
  ld32 m (b.1 + 8) = b.2 -> ld64 m p.1 = first base C -> ld32 m (p.1 + 8) = p.2 -> seg m C base -> exists m',
  (do! coalesce b.1 b.2 (first base C);
   let! psize := get_size p.1 in
   coalesce p.1 psize b.1) m = URet tt m' /\
  seg m' (join p (join b C)) base /\ forall v, ~ (b.1 <= v < b.1 + hdr \/ p.1 <= v < p.1 + hdr) -> ld8 m' v = ld8 m v.
Proof.
  intros Hhi Hp0 Hppos Hb Hpb HbC HCok HJ Hbs Sp Sps SC. rewrite Forall_forall in HbC.
  destruct (coalesce_run m b C base Hbs SC) as (m1 & E1 & S1 & F1).
  { intros ->. unfold block_ok, hdr in *. lia. }
  { intros y Hy. specialize (HbC y Hy). specialize (HCok y Hy). unfold upto, block_ok, hdr in *. lia. }
  { rewrite <- Sp. apply ld64_range. }
  rewrite (ubind_run _ _ _ _ _ E1). assert (Eps : ld32 m1 (p.1 + 8) = p.2).
  { rewrite <- Sps. apply ldn_ext. intros v Hv. apply F1. unfold upto, hdr in *. simpl in Hv. lia. }
  rewrite (ubind_run _ _ _ _ _ (eq_refl : get_size p.1 m1 = URet (ld32 m1 (p.1 + 8)) m1)), Eps. rewrite <- (first_join b C base).
  destruct (coalesce_run m1 p (join b C) base Eps S1) as (m2 & E2 & S2 & F2).
  { intros EJ. pose proof (first_join b C base) as Ef. rewrite EJ in Ef. simpl in Ef. unfold block_ok, hdr in *. lia. }
  { intros y Hy. destruct (HJ y Hy) as [Hyk Hyp]. unfold upto, block_ok, hdr in *. lia. }
  { rewrite first_join. unfold block_ok, hdr in *. lia. }
  exists m2. split; [exact E2|]. split; [done|]. intros v Hv. rewrite first_join in Hv. rewrite F2, F1 by tauto. done.
Qed.

Lemma free_seg hi m ns b A p C :
  nodes ns = A ++ p :: C -> seg m (nodes ns) base -> StronglySorted before (nodes ns) -> (forall x, x ∈ ns -> block_ok hi x) -> block_ok hi b ->
  hi < 2 ^ 32 -> ld32 m (b.1 + 8) = b.2 -> upto p b -> Forall (upto b) C -> exists m',
  (do! coalesce b.1 b.2 (first base C);
   let! psize := get_size p.1 in
   do! coalesce p.1 psize b.1;
   store64 freep p.1) m = URet tt m' /\
  seg m' (A ++ join p (join b C)) base /\ ld64 m' freep = p.1 /\ forall v, ~ written b p v -> ld8 m' v = ld8 m v.
Proof.
  intros E Hseg Hsort Hns Hb Hhi Hbs Hpb HbC. assert (Hp : p ∈ nodes ns) by (rewrite E; set_solver).
  destruct (nodes_node hi ns p Hns Hp) as (Hp0 & Hppos & Hpk).
  assert (HCok : forall x, x ∈ C -> block_ok hi x).
  { intros x Hx. apply Hns. destruct A as [|a A]; injection E as <- ->; set_solver. }
  destruct (insert_ok hi ns b A p C E Hsort Hns Hb Hpb HbC) as (ns' & EN & [_ Hok' _ _ _]).
  rewrite E in Hseg, Hsort. apply hseg_app in Hseg as [SA (Sp & Sps & SC)]. apply StronglySorted_app in Hsort as (HAB & _ & HpC).
  inversion HpC as [|? ? HC HpC']; subst. destruct (insert_tail hi p b C Hp0 HCok Hb Hpb HbC HpC' HC) as (_ & _ & _ & HJ).
  destruct (coalesce_twice hi m b p C Hhi Hp0 Hppos Hb Hpb HbC HCok HJ Hbs Sp Sps SC) as (m2 & E2 & S2 & F2).
  exists (st64 m2 freep p.1). assert (F3 : forall v, ~ (freep <= v < freep + 8) -> ld8 (st64 m2 freep p.1) v = ld8 m2 v).
  { intros v Hv. apply ld8_stn_out. simpl. lia. }
  assert (Hfr : forall v, ~ written b p v -> ld8 (st64 m2 freep p.1) v = ld8 m v).
  { intros v Hv. unfold written in *. rewrite F3, F2 by tauto. done. }
  split; [exact (ubind_tail3 _ _ _ (store64 freep p.1) _ _ E2)|]. split; [|split; [|done]].
  - apply hseg_app. rewrite first_join. split.
    + apply (seg_ext m); [|done]. intros x v Hx Hv. apply Hfr. pose proof (HAB x p Hx ltac:(set_solver)) as Hxp.
      pose proof (node_freep hi ns x v Hns ltac:(rewrite E; set_solver) Hv). unfold written, before, upto, hdr in *. lia.
    + apply (seg_ext m2); [|done]. intros x v Hx Hv. apply F3. apply (node_freep hi ns' x v); [done|rewrite <- EN; set_solver|done].
  - apply ld64_st64_eq. destruct Hpk as [->|Hk]; simpl; unfold block_ok, hdr in *; lia.
Qed.

Lemma apart_bytes x y : 1 <= x.2 -> 1 <= y.2 -> (forall v, in_block x v -> in_block y v -> False) -> apart x y.
Proof.
  intros Hx Hy H. unfold apart, in_block, hdr in *. destruct (decide (x.1 + 16 * x.2 <= y.1)); [by left|].
  destruct (decide (y.1 + 16 * y.2 <= x.1)); [by right|]. exfalso. apply (H (Z.max x.1 y.1)); lia.
Qed.

Lemma apart_no_byte x y v : apart x y -> in_block x v -> in_block y v -> False.
Proof. unfold apart, in_block, hdr. lia. Qed.

Lemma apart_covers x C v : (forall y, y ∈ C -> apart x y) -> in_block x v -> ~ covers C v.
Proof. intros H Hv (y & Hy & Hyv). by apply (apart_no_byte x y v (H y Hy)). Qed.

(** The bytes that the allocator may write: its variables and the free bytes. *)
Definition private (ns : list block) (v : Z) : Prop :=
  base <= v < base + hdr \/ freep <= v < freep + 8 \/ covers ns v.

Lemma live_hdr hi x v : block_ok hi x -> x.1 <= v < x.1 + hdr -> in_block x v.
Proof. unfold block_ok, in_block, hdr. lia. Qed.

Lemma live_private hi m ns live x v : heap hi m ns live -> x ∈ live -> in_block x v -> ~ private ns v.
Proof.
  intros H Hx Hv. destruct (hp_live _ _ _ _ H x Hx) as [(H1 & H2 & H3) _]. intros [Hp|[Hp|Hp]].
  - unfold in_block in Hv. lia.
  - unfold in_block in Hv. lia.
  - revert Hp. apply (apart_covers x); [|done]. intros y Hy. by apply (hp_apart _ _ _ _ H).
Qed.

Lemma heap_perm hi m ns live live' : live ≡ₚ live' -> heap hi m ns live -> heap hi m ns live'.
Proof.
  intros Hl [H1 H2 H3 H4 H5 H6 H7 H8 H9]. split; try done.
  - intros x Hx. apply H5. by rewrite Hl.
  - intros x y Hx. apply H6. by rewrite Hl.
  - intros x y Hx Hy. apply H7; by rewrite Hl.
  - by rewrite <- Hl.
Qed.

(** The invariant after the block has been inserted. *)
Lemma heap_inserted hi m m' ns ns' live b p :
  heap hi m ns (b :: live) -> inserted hi ns b ns' -> p ∈ nodes ns -> seg m' (nodes ns') base -> (exists x, x ∈ nodes ns' /\ ld64 m' freep = x.1) ->
  (forall v, ~ written b p v -> ld8 m' v = ld8 m v) ->
  heap hi m' ns' live /\ forall v, ~ private ns' v -> ld8 m' v = ld8 m v.
Proof.
  intros H [I1 I2 I3 _ _] Hp Hseg Hfp Hfr. destruct (hp_live _ _ _ _ H b ltac:(set_solver)) as [Hb _].
  assert (Hw : forall v, written b p v -> private ns' v).
  { intros v [Hv|[Hv|Hv]]; [right; right; apply I3; right; by apply (live_hdr hi)| |by right; left].
    apply elem_of_cons in Hp as [->|Hp]; [by left|]. right; right. apply I3. left. exists p. split; [done|].
    apply (live_hdr hi); [by apply (hp_free _ _ _ _ H)|done]. }
  assert (Hfr' : forall v, ~ private ns' v -> ld8 m' v = ld8 m v) by (intros v Hv; apply Hfr; intros Hx; by apply Hv, Hw).
  pose proof (hp_nodup _ _ _ _ H) as Hnd. apply NoDup_cons in Hnd as [Hbl Hnd].
  assert (Hap : forall x y, x ∈ live -> y ∈ ns' -> apart x y).
  { intros x y Hx Hy. destruct (hp_live _ _ _ _ H x ltac:(set_solver)) as [Hxk _]. specialize (I2 y Hy).
    apply apart_bytes; [unfold block_ok in *; lia..|]. intros v Hxv Hyv.
    destruct (proj1 (I3 v) ltac:(by exists y)) as [Hc|Hc].
    - revert Hc. apply (apart_covers x); [|done]. intros z Hz. apply (hp_apart _ _ _ _ H); set_solver.
    - apply (apart_no_byte x b v); [|done|done]. apply (hp_disjoint _ _ _ _ H); [set_solver|set_solver|]. by intros ->. }
  split; [|exact Hfr']. split; try done.
  - intros x Hx. destruct (hp_live _ _ _ _ H x ltac:(set_solver)) as [Hxk <-]. split; [done|].
    apply (hdr_loads m m' x.1). intros v Hv. apply Hfr'. pose proof (live_hdr hi x v Hxk Hv) as Hxv.
    destruct Hxk as (K1 & K2 & K3). intros [Hq|[Hq|Hq]]; [unfold in_block, hdr in *; lia..|].
    revert Hq. apply (apart_covers x); [|done]. intros y Hy. by apply Hap.
  - intros x y Hx Hy. apply (hp_disjoint _ _ _ _ H); set_solver.
  - exact (hp_hi _ _ _ _ H).
Qed.

(** free() of a block in use. *)
Lemma free_run hi m ns live b fuel :
  heap hi m ns (b :: live) -> (length (nodes ns) < fuel)%nat -> exists m' ns',
  free fuel (b.1 + hdr) m = URet tt m' /\ heap hi m' ns' live /\ inserted hi ns b ns' /\
  forall v, ~ private ns' v -> ld8 m' v = ld8 m v.
Proof.
  intros H Hf. destruct (hp_live _ _ _ _ H b ltac:(set_solver)) as [Hb Hbs]. pose proof (hp_sorted _ _ _ _ H) as Hsort.
  pose proof (hp_free _ _ _ _ H) as Hns. pose proof (hp_seg _ _ _ _ H) as Hseg.
  destruct (split_at (base, 0) ns b Hsort) as (A & p & C & E & Hpb & HbC & _ & _).
  { unfold block_ok in Hb. lia. }
  { unfold upto, block_ok, hdr in *. simpl. lia. }
  { intros y Hy. specialize (Hns y Hy). split; [unfold block_ok in Hns; lia|]. apply (hp_apart _ _ _ _ H); [set_solver|done]. }
  change ((base, 0) :: ns) with (nodes ns) in E. destruct (insert_ok hi ns b A p C E Hsort Hns Hb Hpb HbC) as (ns' & EN & HI).
  destruct (free_seg hi m ns b A p C E Hseg Hsort Hns Hb (hp_hi _ _ _ _ H) Hbs Hpb HbC) as (m' & Er & S' & Hfp & Hfr).
  assert (Hj : nodes ns !! length A = Some p) by (rewrite E, lookup_app_r, Nat.sub_diag by lia; done).
  destruct (hp_freep _ _ _ _ H) as (x & [i Hi]%list_elem_of_lookup & Ex).
  assert (Efind : free_find fuel b.1 x.1 m = URet p.1 m).
  { apply (free_find_run m ns (length A) p b.1 Hseg Hsort Hj) with i; [unfold upto, hdr in *; lia|unfold block_ok, hdr in *; lia| |done|].
    - intros k y Hk Hy. rewrite E, lookup_app_r in Hy by lia. rewrite Forall_lookup in HbC.
      destruct (k - length A)%nat as [|k'] eqn:Ek; [lia|]. simpl in Hy. specialize (HbC k' y Hy). unfold upto, hdr in HbC. lia.
    - apply lookup_lt_Some in Hi, Hj. unfold steps. case_decide; lia. }
  assert (Hd : drop (S (length A)) (nodes ns) = C).
  { rewrite E, cons_middle, app_assoc. apply drop_app_length'. rewrite length_app. simpl. lia. }
  destruct (join_first p (join b C)) as (q & Hq & Eq). rewrite EN in S'.
  destruct (heap_inserted hi m m' ns ns' live b p H HI) as [H1 H2]; [by apply (list_elem_of_lookup_2 _ _ _ Hj)|done| |done|].
  { exists q. split; [rewrite <- EN; set_solver|]. by rewrite Eq. }
  exists m', ns'. split; [|by split].
  unfold free. replace (b.1 + hdr - hdr) with b.1 by lia.
  rewrite (ubind_run _ _ _ _ _ (eq_refl : load64 freep m = URet (ld64 m freep) m)), Ex, (ubind_run _ _ _ _ _ Efind).
  rewrite (ubind_run _ _ _ _ _ (eq_refl : get_size b.1 m = URet (ld32 m (b.1 + 8)) m)), Hbs.
  rewrite (ubind_run _ _ _ _ _ (eq_refl : get_ptr p.1 m = URet (ld64 m p.1) m)).
  destruct (seg_lookup _ _ _ _ _ Hseg Hj) as [_ ->]. rewrite Hd. exact Er.
Qed.

(** * malloc() *)

(** The list after the block [b] has been taken out of it. *)
Record removed (hi : Z) (ns : list block) (b : block) (ns' : list block) : Prop := {
  rm_sorted : StronglySorted before (nodes ns');
  rm_ok : forall x, x ∈ ns' -> block_ok hi x;
  rm_covers : forall v, covers ns v <-> covers ns' v \/ in_block b v;
  rm_block : block_ok hi b;
  rm_apart : forall x, x ∈ ns' -> apart b x;
}.

(** The bytes that malloc() writes: the header of the block, those of the one before it and of the one it is cut from, and freep. *)
Definition taken (pv q b : block) (v : Z) : Prop :=
  b.1 <= v < b.1 + hdr \/ pv.1 <= v < pv.1 + hdr \/ q.1 <= v < q.1 + hdr \/ freep <= v < freep + 8.

Lemma heap_removed hi m m' ns ns' live b pv q :
  heap hi m ns live -> removed hi ns b ns' -> pv ∈ nodes ns -> q ∈ ns -> seg m' (nodes ns') base ->
  (exists x, x ∈ nodes ns' /\ ld64 m' freep = x.1) -> ld32 m' (b.1 + 8) = b.2 -> (forall v, ~ taken pv q b v -> ld8 m' v = ld8 m v) ->
  heap hi m' ns' (b :: live) /\ forall v, ~ private ns v -> ld8 m' v = ld8 m v.
Proof.
  intros H [I1 I2 I3 I4 I5] Hp Hq Hseg Hfp Hbs Hfr.
  assert (Hcov : forall x v, x ∈ ns -> x.1 <= v < x.1 + hdr -> private ns v).
  { intros x v Hx Hv. right; right. exists x. split; [done|]. apply (live_hdr hi); [by apply (hp_free _ _ _ _ H)|done]. }
  assert (Hw : forall v, taken pv q b v -> private ns v).
  { intros v [Hv|[Hv|[Hv|Hv]]]; [right; right; apply I3; right; by apply (live_hdr hi)| |by apply (Hcov q)|by right; left].
    apply elem_of_cons in Hp as [->|Hp]; [by left|]. by apply (Hcov pv). }
  assert (Hfr' : forall v, ~ private ns v -> ld8 m' v = ld8 m v) by (intros v Hv; apply Hfr; intros Hx; by apply Hv, Hw).
  assert (Hb : forall x, x ∈ live -> apart b x).
  { intros x Hx. destruct (hp_live _ _ _ _ H x Hx) as [Hxk _]. apply apart_bytes; [unfold block_ok in *; lia..|]. intros v Hbv Hxv.
    apply (live_private hi m ns live x v H Hx Hxv). right; right. apply I3. by right. }
  assert (Hsym : forall x y, apart x y -> apart y x) by (unfold apart; tauto).
  assert (Hself : ~ apart b b) by (unfold apart, block_ok, hdr in *; lia). split; [|exact Hfr']. split; try done.
  - intros x [->|Hx]%elem_of_cons; [done|]. destruct (hp_live _ _ _ _ H x Hx) as [Hxk <-]. split; [done|].
    apply (hdr_loads m m' x.1). intros v Hv. apply Hfr'. apply (live_private hi m ns live x v H Hx). by apply (live_hdr hi).
  - intros x y [->|Hx]%elem_of_cons Hy; [by apply I5|]. destruct (hp_live _ _ _ _ H x Hx) as [Hxk _]. specialize (I2 y Hy).
    apply apart_bytes; [unfold block_ok in *; lia..|]. intros v Hxv Hyv. apply (live_private hi m ns live x v H Hx Hxv).
    right; right. apply I3. left. by exists y.
  - intros x y [->|Hx]%elem_of_cons [->|Hy]%elem_of_cons Hne; [done|by apply Hb|by apply Hsym, Hb|by apply (hp_disjoint _ _ _ _ H)].
  - apply NoDup_cons. split; [|exact (hp_nodup _ _ _ _ H)]. intros Hx. by apply Hself, Hb.
  - exact (hp_hi _ _ _ _ H).
Qed.

(** What is left of block [q] when [b] is taken from its end. *)
Definition rest_of (q b : block) : list block := if decide (b.2 = q.2) then [] else [(q.1, q.2 - b.2)].

Definition cut (q : block) (n : Z) : block := (q.1 + hdr * (q.2 - n), n).

Lemma rest_elem q b x : 1 <= b.2 <= q.2 -> x ∈ rest_of q b -> x.1 = q.1 /\ 1 <= x.2 /\ x.2 = q.2 - b.2.
Proof. intros Hb. unfold rest_of. case_decide; [set_solver|]. intros ->%list_elem_of_singleton. simpl. lia. Qed.

Lemma rest_covers q n v : 1 <= n <= q.2 -> in_block q v <-> covers (rest_of q (cut q n)) v \/ in_block (cut q n) v.
Proof.
  intros Hn. unfold rest_of, cut. simpl. case_decide as Hd.
  - subst n. unfold in_block. simpl. replace (q.2 - q.2) with 0 by lia. rewrite Z.mul_0_r, Z.add_0_r. split; [tauto|].
    intros [(x & Hx & _)|H]; [set_solver|done].
  - rewrite covers_cons. unfold in_block, hdr. simpl. split; [lia|]. intros [[H|(x & Hx & _)]|H]; [lia|set_solver|lia].
Qed.

Lemma remove_ok hi L q C n : StronglySorted before (nodes (L ++ q :: C)) -> (forall x, x ∈ L ++ q :: C -> block_ok hi x) -> 1 <= n <= q.2 ->
  removed hi (L ++ q :: C) (cut q n) (L ++ rest_of q (cut q n) ++ C).
Proof.
  intros Hsort Hok Hn. assert (Hq : block_ok hi q) by (apply Hok; set_solver). set (D := rest_of q (cut q n)).
  assert (HD : forall x, x ∈ D -> x.1 = q.1 /\ 1 <= x.2 /\ x.2 = q.2 - n) by (intros x; by apply rest_elem).
  change (nodes (L ++ q :: C)) with (nodes L ++ q :: C) in Hsort. apply StronglySorted_app in Hsort as (H1 & H2 & H3).
  inversion H3 as [|? ? HC HqC]; subst. rewrite Forall_forall in HqC. split.
  - change (nodes (L ++ D ++ C)) with (nodes L ++ D ++ C). apply StronglySorted_app_2; [|done|].
    + intros x y Hx [Hy|Hy]%elem_of_app; [|by apply H1; [|right]].
      destruct (HD y Hy) as (E1 & E2 & E3). specialize (H1 x q Hx ltac:(by left)). unfold before, hdr in *. lia.
    + apply StronglySorted_app_2; [| |done].
      * intros x y Hx Hy. destruct (HD x Hx) as (E1 & E2 & E3). specialize (HqC y Hy). unfold before, hdr in *. lia.
      * unfold D, rest_of. case_decide; by repeat constructor.
  - intros x [Hx|[Hx|Hx]%elem_of_app]%elem_of_app; [apply Hok; set_solver| |apply Hok; set_solver].
    destruct (HD x Hx) as (E1 & E2 & E3). unfold block_ok, hdr in *. lia.
  - intros v. rewrite !covers_app, covers_cons, (rest_covers q n v Hn). fold D. tauto.
  - unfold block_ok, cut, hdr in *. simpl. lia.
  - intros x Hx. apply elem_of_app in Hx as [Hx|[Hx|Hx]%elem_of_app].
    + specialize (H1 x q ltac:(unfold nodes; set_solver) ltac:(by left)). unfold before, apart, cut, hdr in *. simpl. lia.
    + destruct (HD x Hx) as (E1 & E2 & E3). unfold apart, cut, hdr in *. simpl. lia.
    + specialize (HqC x Hx). unfold before, apart, cut, hdr in *. simpl. lia.
Qed.

(** The memory after a block has been taken. *)
Definition took (m : mem) (L C : list block) (pv q : block) (n : Z) (m' : mem) : Prop :=
  seg m' (nodes L ++ rest_of q (cut q n) ++ C) base /\ ld32 m' ((cut q n).1 + 8) = n /\ ld64 m' freep = pv.1 /\
  forall v, ~ taken pv q (cut q n) v -> ld8 m' v = ld8 m v.

(** The list in memory around the block [q], and what keeps its headers apart. *)
Record around (hi : Z) (m : mem) (L C : list block) (pv q : block) : Prop := {
  ar_left : exists A, nodes L = A ++ [pv];
  ar_seg : seg m (nodes L) q.1;
  ar_ptr : ld64 m q.1 = first base C;
  ar_size : ld32 m (q.1 + 8) = q.2;
  ar_right : seg m C base;
  ar_before : forall x, x ∈ nodes L -> before x q;
  ar_after : forall x, x ∈ C -> before q x;
  ar_ok : block_ok hi q;
  ar_freep : forall x v, x ∈ nodes L ++ C -> x.1 <= v < x.1 + hdr -> ~ (freep <= v < freep + 8);
  ar_sorted : StronglySorted before (nodes L);
  ar_range : hi < 2 ^ 32;
  ar_pos : forall x, x ∈ nodes L -> 0 < x.1;
}.

Lemma heap_around hi m ns live A pv q C : heap hi m ns live -> nodes ns = A ++ pv :: q :: C ->
  exists L, ns = L ++ q :: C /\ around hi m L C pv q /\ pv ∈ nodes L.
Proof.
  intros H E. assert (exists L, nodes L = A ++ [pv] /\ ns = L ++ q :: C) as (L & EL & ->).
  { destruct A as [|a A]; injection E as E1 E2; [exists []; subst; done|]. exists (A ++ [pv]). subst. split; [done|]. by rewrite <- app_assoc. }
  exists L. split; [done|]. pose proof (hp_seg _ _ _ _ H) as Hseg. pose proof (hp_sorted _ _ _ _ H) as Hsort.
  change (nodes (L ++ q :: C)) with (nodes L ++ q :: C) in Hseg, Hsort. apply hseg_app in Hseg as [SL (Sq & Sqs & SC)].
  apply StronglySorted_app in Hsort as (H1 & H2 & H3). inversion H3 as [|? ? HC HqC]; subst. rewrite Forall_forall in HqC.
  split; [split|]; try done.
  - by exists A.
  - intros x Hx. apply H1; [done|by left].
  - apply (hp_free _ _ _ _ H). set_solver.
  - intros x v Hx. apply (node_freep hi (L ++ q :: C)); [exact (hp_free _ _ _ _ H)|]. unfold nodes in *. set_solver.
  - exact (hp_hi _ _ _ _ H).
  - intros x Hx. apply (nodes_node hi (L ++ q :: C)); [exact (hp_free _ _ _ _ H)|]. unfold nodes in *. set_solver.
  - rewrite EL. set_solver.
Qed.

Lemma take_exact hi m L C pv q n : around hi m L C pv q -> n = q.2 -> pv ∈ nodes L ->
  exists m', malloc_take n pv.1 q.1 q.2 m = URet (q.1 + hdr) m' /\ took m L C pv q n m'.
Proof.
  intros [[A EA] S1 S2 S3 S4 B1 B2 Hok Hf Hsort Hhi Hpos] -> Hpv. unfold malloc_take. rewrite Z.eqb_refl.
  rewrite (ubind_run _ _ _ _ _ (eq_refl : get_ptr q.1 m = URet (ld64 m q.1) m)), S2.
  destruct (st_ptr_run m pv.1 (first base C)) as (m1 & E1 & P1 & Z1 & F1); [rewrite <- S2; apply ld64_range|].
  rewrite (ubind_run _ _ _ _ _ E1). set (m2 := st64 m1 freep pv.1).
  rewrite (ubind_run _ _ _ _ _ (eq_refl : store64 freep pv.1 m1 = URet tt m2)). exists m2. split; [done|].
  assert (F2 : forall v, ~ (freep <= v < freep + 8) -> ld8 m2 v = ld8 m1 v) by (intros v Hv; apply ld8_stn_out; simpl; lia).
  assert (Hpvh : forall v, pv.1 <= v < pv.1 + hdr -> ld8 m2 v = ld8 m1 v) by (intros v Hv; apply F2, (Hf pv); [set_solver|done]).
  assert (Hoth : forall v, ~ (pv.1 <= v < pv.1 + 8) -> ~ (freep <= v < freep + 8) -> ld8 m2 v = ld8 m v) by (intros v Hv Hv'; by rewrite F2, F1).
  assert (Hpb : before pv q) by (by apply B1). rewrite EA in *. apply hseg_app in S1 as [SA (_ & Spv & _)].
  apply StronglySorted_app in Hsort as (HApv & _ & _).
  assert (Ecut : cut q q.2 = q) by (unfold cut; destruct q as [a z]; simpl; f_equal; lia). unfold took, rest_of. rewrite Ecut, EA, decide_True by done.
  split; [|split; [|split]].
  - rewrite <- app_assoc. apply hseg_app. split; [|split; [|split]].
    + apply (seg_ext m); [|done]. intros x v Hx Hv. pose proof (HApv x pv Hx ltac:(set_solver)) as Hxp.
      apply Hoth; [unfold before, hdr in *; lia|apply (Hf x); [set_solver|done]].
    + destruct (hdr_loads m1 m2 pv.1 Hpvh) as [-> _]. done.
    + destruct (hdr_loads m1 m2 pv.1 Hpvh) as [_ ->]. by rewrite Z1.
    + apply (seg_ext m); [|done]. intros x v Hx Hv. pose proof (B2 x Hx) as Hqx.
      apply Hoth; [unfold before, hdr in *; lia|apply (Hf x); [set_solver|done]].
  - rewrite <- S3. apply ldn_ext. intros v Hv. simpl in Hv. unfold before, block_ok, hdr in *. apply Hoth; lia.
  - apply ld64_st64_eq. specialize (Hpos pv Hpv). unfold before, block_ok, hdr in *. lia.
  - intros v Hv. unfold taken, hdr in Hv. apply Hoth; lia.
Qed.

Lemma take_split hi m L C pv q n : around hi m L C pv q -> 1 <= n < q.2 -> pv ∈ nodes L ->
  exists m', malloc_take n pv.1 q.1 q.2 m = URet ((cut q n).1 + hdr) m' /\ took m L C pv q n m'.
Proof.
  intros [_ S1 S2 S3 S4 B1 B2 Hok Hf Hsort Hhi Hpos] Hn Hpv. unfold malloc_take. rewrite (proj2 (Z.eqb_neq q.2 n)) by lia.
  assert (Hr : 0 <= q.2 - n < 2 ^ 32) by (unfold block_ok, hdr in *; lia). rewrite u32_small by done.
  destruct (st_size_run m q.1 (q.2 - n) Hr) as (m1 & E1 & Z1 & P1 & F1). rewrite (ubind_run _ _ _ _ _ E1).
  rewrite (ubind_run _ _ _ _ _ (eq_refl : get_size q.1 m1 = URet (ld32 m1 (q.1 + 8)) m1)), Z1. cbv zeta.
  change (q.1 + hdr * (q.2 - n)) with (cut q n).1. set (b := cut q n).
  destruct (st_size_run m1 b.1 n) as (m2 & E2 & Z2 & P2 & F2); [unfold block_ok, hdr in *; lia|]. rewrite (ubind_run _ _ _ _ _ E2).
  set (m3 := st64 m2 freep pv.1). rewrite (ubind_run _ _ _ _ _ (eq_refl : store64 freep pv.1 m2 = URet tt m3)). exists m3. split; [done|].
  assert (Hb : b.1 = q.1 + hdr * (q.2 - n)) by done. assert (Hpb : before pv q) by (by apply B1).
  assert (F3 : forall v, ~ (freep <= v < freep + 8) -> ld8 m3 v = ld8 m2 v) by (intros v Hv; apply ld8_stn_out; simpl; lia).
  assert (Hoth : forall v, ~ (q.1 + 8 <= v < q.1 + 12) -> ~ (b.1 + 8 <= v < b.1 + 12) -> ~ (freep <= v < freep + 8) -> ld8 m3 v = ld8 m v).
  { intros v H1 H2 H3. by rewrite F3, F2, F1. }
  assert (Hq3 : forall v, q.1 <= v < q.1 + hdr -> ld8 m3 v = ld8 m1 v).
  { intros v Hv. unfold block_ok, hdr in *. rewrite F3, F2 by lia. done. }
  unfold took, rest_of. fold b. change b.2 with n. rewrite decide_False by lia. destruct (hdr_loads m1 m3 q.1 Hq3) as [L64 L32].
  split; [|split; [|split]].
  - apply hseg_app. cbn [app first fst]. split; [|split; [|split]].
    + apply (seg_ext m); [|done]. intros x v Hx Hv. pose proof (B1 x Hx) as Hxq.
      apply Hoth; [unfold before, block_ok, hdr in *; lia..|apply (Hf x); [set_solver|done]].
    + cbn [fst]. by rewrite L64, P1.
    + cbn [fst snd]. by rewrite L32, Z1.
    + apply (seg_ext m); [|done]. intros x v Hx Hv. pose proof (B2 x Hx) as Hqx.
      apply Hoth; [unfold before, block_ok, hdr in *; lia..|apply (Hf x); [set_solver|done]].
  - rewrite <- Z2. apply ldn_ext. intros v Hv. simpl in Hv. apply F3. unfold block_ok, hdr in *. lia.
  - apply ld64_st64_eq. specialize (Hpos pv Hpv). unfold before, block_ok, hdr in *. lia.
  - intros v Hv. unfold taken, hdr in Hv. apply Hoth; lia.
Qed.

(** One step of the code on a large enough block [q] after [pv]. *)
Lemma malloc_take_run hi m ns live A pv q C n :
  heap hi m ns live -> nodes ns = A ++ pv :: q :: C -> 1 <= n <= q.2 -> exists m' ns',
  malloc_take n pv.1 q.1 q.2 m = URet ((cut q n).1 + hdr) m' /\ heap hi m' ns' (cut q n :: live) /\ removed hi ns (cut q n) ns' /\
  forall v, ~ private ns v -> ld8 m' v = ld8 m v.
Proof.
  intros H E Hn. destruct (heap_around hi m ns live A pv q C H E) as (L & -> & HA & Hpv).
  pose proof (remove_ok hi L q C n (hp_sorted _ _ _ _ H) (hp_free _ _ _ _ H) Hn) as HR.
  assert (exists m', malloc_take n pv.1 q.1 q.2 m = URet ((cut q n).1 + hdr) m' /\ took m L C pv q n m') as (m' & Er & T1 & T2 & T3 & T4).
  { destruct (decide (n = q.2)) as [->|Hne]; [|apply (take_split hi m L C pv q n HA); [lia|done]].
    replace ((cut q q.2).1) with q.1 by (unfold cut; simpl; lia). by apply (take_exact hi m L C pv q q.2 HA). }
  exists m', (L ++ rest_of q (cut q n) ++ C). split; [exact Er|].
  destruct (heap_removed hi m m' (L ++ q :: C) _ live (cut q n) pv q H HR) as [H1 H2]; try done.
  - unfold nodes in *. set_solver.
  - set_solver.
  - exists pv. split; [unfold nodes in *; set_solver|done].
Qed.

(** * The search for a block *)

Lemma addr_inj N i j x y : StronglySorted before N -> N !! i = Some x -> N !! j = Some y -> x.1 = y.1 -> i = j.
Proof.
  intros HN Hi Hj E. destruct (Nat.lt_trichotomy i j) as [H|[H|H]]; [|done|].
  - pose proof (sorted_lookup _ _ _ _ _ HN Hi Hj H) as Hb. by apply before_ne in Hb.
  - pose proof (sorted_lookup _ _ _ _ _ HN Hj Hi H) as Hb. apply before_ne in Hb. congruence.
Qed.

(** The place of the search: [pv] before [x], which is block [i]. *)
Record at_block (m : mem) (ns : list block) (i0 i : nat) (pv x : block) : Prop := {
  ab_prev : exists i', nodes ns !! i' = Some pv /\ succ (nodes ns) i' = i;
  ab_cur : nodes ns !! i = Some x;
  ab_freep : exists f, nodes ns !! i0 = Some f /\ ld64 m freep = f.1;
}.

Lemma steps_bound N i j : (i < length N)%nat -> (j < length N)%nat -> (steps N i j < length N)%nat.
Proof. intros Hi Hj. unfold steps. case_decide; lia. Qed.

Lemma steps_zero N i j : (i < length N)%nat -> (j < length N)%nat -> steps N i j = 0%nat -> i = j.
Proof. intros Hi Hj. unfold steps. case_decide; lia. Qed.

Lemma steps_self N i : steps N i i = 0%nat.
Proof. unfold steps. rewrite decide_True; lia. Qed.

(** The step from a block that is too small and not the last one. *)
Lemma malloc_next hi m ns live n i0 i pv x fuel0 f :
  heap hi m ns live -> at_block m ns i0 i pv x -> x.2 < n -> i <> i0 -> exists y,
  at_block m ns i0 (succ (nodes ns) i) x y /\ malloc_loop fuel0 (S f) n pv.1 x.1 m = malloc_loop fuel0 f n x.1 y.1 m.
Proof.
  intros H [(i' & Hi' & Hs) Hi (f0 & Hf0 & Ef)] Hsmall Hne. destruct (ring_next m ns i x (hp_seg _ _ _ _ H) Hi) as (y & Hy & Ey).
  exists y. split; [split; [by exists i|done|by exists f0]|]. cbn [malloc_loop].
  destruct (seg_lookup _ _ _ _ _ (hp_seg _ _ _ _ H) Hi) as [Ez _].
  rewrite (ubind_run _ _ _ _ _ (eq_refl : get_size x.1 m = URet (ld32 m (x.1 + 8)) m)), Ez, (proj2 (Z.leb_gt n x.2)) by done.
  rewrite (ubind_run _ _ _ _ _ (eq_refl : load64 freep m = URet (ld64 m freep) m)), Ef, (proj2 (Z.eqb_neq x.1 f0.1)).
  - by rewrite (ubind_run _ _ _ _ _ (eq_refl : get_ptr x.1 m = URet (ld64 m x.1) m)), Ey.
  - intros E. apply Hne. by apply (addr_inj (nodes ns) i i0 x f0 (hp_sorted _ _ _ _ H)).
Qed.

(** What malloc() returns when it finds a block of the list. *)
Definition granted (hi : Z) (m : mem) (ns live : list block) (n : Z) (r : Z) (m' : mem) : Prop := exists b ns',
  r = b.1 + hdr /\ b.2 = n /\ heap hi m' ns' (b :: live) /\ removed hi ns b ns' /\ forall v, ~ private ns v -> ld8 m' v = ld8 m v.

Lemma malloc_fit hi m ns live n i0 k y fuel0 : heap hi m ns live -> 1 <= n -> nodes ns !! k = Some y -> n <= y.2 -> forall fuel i pv x,
  at_block m ns i0 i pv x -> (steps (nodes ns) i k <= steps (nodes ns) i i0)%nat -> (steps (nodes ns) i k < fuel)%nat ->
  exists r m', malloc_loop fuel0 fuel n pv.1 x.1 m = URet r m' /\ granted hi m ns live n r m'.
Proof.
  intros H Hn Hk Hy. induction fuel as [|f IH]; intros i pv x Hat Hle Hf; [lia|].
  pose proof (lookup_lt_Some _ _ _ Hk) as Hkl. pose proof (lookup_lt_Some _ _ _ (ab_cur _ _ _ _ _ _ Hat)) as Hil.
  assert (Hi0l : (i0 < length (nodes ns))%nat) by (destruct (ab_freep _ _ _ _ _ _ Hat) as (f0 & Hf0 & _); by apply lookup_lt_Some in Hf0).
  destruct (decide (n <= x.2)) as [Hfit|Hsmall].
  - destruct Hat as [(i' & Hi' & Hs) Hi _]. assert (i = S i') as ->.
    { unfold succ in Hs. case_decide; [done|]. subst i. injection Hi as <-. simpl in Hfit. lia. }
    destruct (malloc_take_run hi m ns live (take i' (nodes ns)) pv x (drop (S (S i')) (nodes ns)) n H) as (m' & ns' & Er & H1 & H2 & H3).
    { rewrite <- (take_drop i' (nodes ns)) at 1. f_equal. rewrite (drop_S _ pv) by done. f_equal. by rewrite (drop_S _ x) by done. }
    { lia. }
    exists ((cut x n).1 + hdr), m'. split; [|by exists (cut x n), ns']. cbn [malloc_loop].
    destruct (seg_lookup _ _ _ _ _ (hp_seg _ _ _ _ H) Hi) as [Ez _].
    rewrite (ubind_run _ _ _ _ _ (eq_refl : get_size x.1 m = URet (ld32 m (x.1 + 8)) m)), Ez, (proj2 (Z.leb_le n x.2)) by done. exact Er.
  - assert (Hik : i <> k). { intros ->. rewrite (ab_cur _ _ _ _ _ _ Hat) in Hk. simplify_eq. lia. }
    pose proof (steps_succ (nodes ns) i k Hil Hkl Hik) as E1. assert (Hi0 : i <> i0).
    { intros ->. rewrite steps_self in Hle. lia. }
    pose proof (steps_succ (nodes ns) i i0 Hil Hi0l Hi0) as E2.
    destruct (malloc_next hi m ns live n i0 i pv x fuel0 f H Hat ltac:(lia) Hi0) as (z & Hat' & ->). apply (IH (succ (nodes ns) i)); [done|lia|lia].
Qed.

(** When no block is large enough, the search ends at freep and asks for more memory. *)
Lemma malloc_full hi m ns live n i0 fuel0 : heap hi m ns live -> (forall x, x ∈ nodes ns -> x.2 < n) -> forall f d i pv x,
  at_block m ns i0 i pv x -> steps (nodes ns) i i0 = d ->
  malloc_loop fuel0 (d + S f) n pv.1 x.1 m =
    (let! p := morecore fuel0 n in
     if p =? 0 then uret 0 else
     let! q := get_ptr p in
     malloc_loop fuel0 f n p q) m.
Proof.
  intros H Hall f. induction d as [|d IH]; intros i pv x Hat Hd.
  - pose proof (lookup_lt_Some _ _ _ (ab_cur _ _ _ _ _ _ Hat)) as Hil. destruct Hat as [_ Hi (f0 & Hf0 & Ef)].
    apply steps_zero in Hd as ->; [|done|by apply lookup_lt_Some in Hf0]. rewrite Hi in Hf0. injection Hf0 as <-. cbn [malloc_loop Nat.add].
    destruct (seg_lookup _ _ _ _ _ (hp_seg _ _ _ _ H) Hi) as [Ez _].
    rewrite (ubind_run _ _ _ _ _ (eq_refl : get_size x.1 m = URet (ld32 m (x.1 + 8)) m)), Ez, (proj2 (Z.leb_gt n x.2)).
    2: { apply Hall. by apply (list_elem_of_lookup_2 _ i0). }
    by rewrite (ubind_run _ _ _ _ _ (eq_refl : load64 freep m = URet (ld64 m freep) m)), Ef, Z.eqb_refl.
  - assert (Hi0 : i <> i0) by (intros ->; rewrite steps_self in Hd; lia).
    pose proof (lookup_lt_Some _ _ _ (ab_cur _ _ _ _ _ _ Hat)) as Hil.
    assert (Hi0l : (i0 < length (nodes ns))%nat) by (destruct (ab_freep _ _ _ _ _ _ Hat) as (f0 & Hf0 & _); by apply lookup_lt_Some in Hf0).
    pose proof (steps_succ (nodes ns) i i0 Hil Hi0l Hi0) as E2.
    destruct (malloc_next hi m ns live n i0 i pv x fuel0 (d + S f) H Hat) as (z & Hat' & E); [|done|].
    { apply Hall. apply (list_elem_of_lookup_2 _ i), (ab_cur _ _ _ _ _ _ Hat). }
    cbn [Nat.add]. rewrite E. apply (IH (succ (nodes ns) i)); [done|lia].
Qed.
End Heap.
