(* ===== verification/UmallocProps.v ===== *)
(** malloc() and free() of user programs (user/umalloc.c) over a kernel whose sbrk() extends the
    process, and what goes wrong when the size of the extension does not fit an int. *)

From Stdlib Require Import ZArith Lia Sorted.
From stdpp Require Import base gmap list_numbers strings numbers sorting list.
From S2P Require Import Prelude Mem User Ulib Umalloc UmallocSpec.

Open Scope Z_scope.
Open Scope user_scope.

(** What the allocator relies on: sbrk() with an increment adds memory at the end of the process, or returns -1; what the process had is
    unchanged.  The memory of the machine is smaller than 2^32 bytes. *)
Class Sbrk `{OS : Os} := {
  brk : os -> Z;
  brk_range : forall s, 0 <= brk s < 2 ^ 32;
  sbrk_some : forall m s n, 0 <= n < 2 ^ 31 -> exists r m' s', sys SYS_sbrk [n] m s r m' s';
  sbrk_law : forall m s n r m' s', 0 <= n < 2 ^ 31 -> sys SYS_sbrk [n] m s r m' s' ->
    (forall a, a < brk s -> ld8 m' a = ld8 m a) /\
    ((r = 2 ^ 64 - 1 /\ brk s' = brk s) \/ (r = brk s /\ brk s' = brk s + n));
}.

Section Malloc.
Context {IM : Image} {OS : Os} {SB : Sbrk} (lo : Z).
Context (Hbase : 0 < base /\ base + hdr <= lo) (Hfreep : 0 < freep /\ freep + 8 <= lo).
Context (Hvars : base + hdr <= freep \/ freep + 8 <= base).
Implicit Types (m : mem) (s : os) (ns live : list (Z * Z)).

(** The heap up to a later end, in a memory that agrees with the old one below the old end. *)
Lemma heap_grow hi hi' m m' ns live : lo <= hi -> hi <= hi' < 2 ^ 32 -> (forall a, a < hi -> ld8 m' a = ld8 m a) ->
  heap lo hi m ns live -> heap lo hi' m' ns live.
Proof.
  intros Hlo Hhi Hm [H1 H2 H3 H4 H5 H6 H7 H8 H9].
  assert (Hup : forall x, block_ok lo hi x -> block_ok lo hi' x) by (unfold block_ok; intros; lia).
  assert (Hnode : forall x, x ∈ nodes ns -> x.1 + hdr <= hi).
  { intros x Hx. destruct (nodes_node lo Hbase Hfreep Hvars hi ns x H3 Hx) as (_ & _ & [->|Hk]); [simpl; lia|]. unfold block_ok, hdr in *. lia. }
  split; try done.
  - apply (seg_ext m); [|done]. intros x v Hx Hv. apply Hm. specialize (Hnode x Hx). lia.
  - intros x Hx. by apply Hup, H3.
  - destruct H4 as (x & Hx & E). exists x. split; [done|]. rewrite <- E. apply ldn_ext. intros v Hv. apply Hm. simpl in Hv. lia.
  - intros x Hx. destruct (H5 x Hx) as [Hk <-]. split; [by apply Hup|]. apply (hdr_loads m m' x.1). intros v Hv. apply Hm.
    unfold block_ok, hdr in *. lia.
  - lia.
Qed.

(** New memory at the end of the process becomes a block in use. *)
Lemma heap_extend hi m m1 ns live nu : lo <= hi -> 1 <= nu -> hi + hdr * nu < 2 ^ 32 -> (forall a, a < hi -> ld8 m1 a = ld8 m a) ->
  ld32 m1 (hi + 8) = nu -> heap lo hi m ns live -> heap lo (hi + hdr * nu) m1 ns ((hi, nu) :: live).
Proof.
  intros Hlo Hnu Hmax Hm Hs H. pose proof H as [_ _ H3 _ H5 _ _ _ _].
  assert (Hb : block_ok lo (hi + hdr * nu) (hi, nu)) by (unfold block_ok; simpl; lia).
  assert (Hap : forall x, block_ok lo hi x -> apart (hi, nu) x) by (unfold block_ok, apart; simpl; intros; lia).
  assert (Hsym : forall x y : Z * Z, apart x y -> apart y x) by (unfold apart; tauto).
  destruct (heap_grow hi (hi + hdr * nu) m m1 ns live Hlo ltac:(unfold hdr in *; lia) Hm H) as [G1 G2 G3 G4 G5 G6 G7 G8 G9]. split; try done.
  - intros x [->|Hx]%elem_of_cons; [done|by apply G5].
  - intros x y [->|Hx]%elem_of_cons Hy; [by apply Hap, H3|by apply G6].
  - intros x y [->|Hx]%elem_of_cons [->|Hy]%elem_of_cons Hne; [done|by apply Hap, H5|by apply Hsym, Hap, H5|by apply G7].
  - apply NoDup_cons. split; [|done]. intros Hx. destruct (H5 _ Hx) as [Hk _]. unfold block_ok, hdr in Hk. simpl in Hk. lia.
Qed.

(** The units that morecore() asks for, and that the kernel has refused them. *)
Definition core (n : Z) : Z := Z.max 4096 n.

Definition refused (s : os) (n : Z) : Prop :=
  exists m1 s1 m2 s2, brk s1 = brk s /\ sys SYS_sbrk [core n * hdr] m1 s1 (2 ^ 64 - 1) m2 s2.

(** morecore(): the list with the new memory, or nothing. *)
Definition grown (s : os) (m : mem) (ns live : list (Z * Z)) (nu : Z) (p : Z) (m' : mem) (s' : os) : Prop :=
  (p = 0 /\ refused s nu /\ brk s' = brk s /\ forall a, a < brk s -> ld8 m' a = ld8 m a) \/
  (exists ns' b, p = ld64 m' freep /\ p <> 0 /\ b.1 = brk s /\ b.2 = core nu /\ brk s' = brk s + hdr * b.2 /\
    heap lo (brk s') m' ns' live /\ inserted lo (brk s') ns b ns' /\ forall v, v < brk s -> ~ private ns' v -> ld8 m' v = ld8 m v).

Lemma morecore_spec m s ns live nu fuel E :
  lo <= brk s -> heap lo (brk s) m ns live -> 1 <= nu -> hdr * nu < 2 ^ 31 -> (length (nodes ns) < fuel)%nat ->
  uwp (morecore fuel nu m) s (fun p m' s' => grown s m ns live nu p m' s') E.
Proof.
  intros Hlo H Hnu Hmax Hf. unfold morecore. replace (if nu <? 4096 then 4096 else nu) with (core nu) by (unfold core; destruct (Z.ltb_spec nu 4096); lia).
  assert (Hn : nu <= core nu /\ 1 <= core nu /\ core nu * hdr < 2 ^ 31) by (unfold core, hdr in *; lia).
  set (n := core nu) in *. unfold sbrk.
  assert (Hi : i32 (n * hdr) = n * hdr) by (apply i32_small; unfold hdr in *; lia). rewrite Hi.
  apply uwp_bind. split; [apply sbrk_some; unfold hdr in *; lia|]. intros r m1 s1 Hs. pose proof Hs as Hsys.
  apply sbrk_law in Hs as (Hm & [[-> Hb]|[-> Hb]]); [| |unfold hdr in *; lia].
  { simpl. left. split; [done|]. split; [by exists m, s, m1, s1|done]. }
  simpl. pose proof (brk_range s) as Hr. pose proof (brk_range s1) as Hr1. rewrite (proj2 (Z.eqb_neq (brk s) (2 ^ 64 - 1))) by lia.
  destruct (st_size_run m1 (brk s) n) as (m2 & E2 & Z2 & _ & F2); [unfold hdr in *; lia|].
  eapply uwp_bind_run; [exact E2|].
  assert (Hm2 : forall a, a < brk s -> ld8 m2 a = ld8 m a) by (intros a Ha; rewrite F2, Hm by lia; done).
  assert (H2 : heap lo (brk s1) m2 ns ((brk s, n) :: live)).
  { rewrite Hb, (Z.mul_comm n). apply (heap_extend (brk s) m m2); try done; lia. }
  destruct (free_run lo Hbase Hfreep Hvars (brk s1) m2 ns live (brk s, n) fuel H2 Hf) as (m3 & ns' & E3 & H3 & HI & F3).
  eapply uwp_bind_run; [exact E3|]. simpl. right. exists ns', (brk s, n). split; [done|].
  destruct (hp_freep _ _ _ _ _ H3) as (x & Hx & Ex). destruct (nodes_node lo Hbase Hfreep Hvars (brk s1) ns' x (hp_free _ _ _ _ _ H3) Hx) as (_ & Hx0 & _).
  simpl. split_and!; try done; try lia. intros v Hv Hp. rewrite F3 by done. by apply Hm2.
Qed.

(** What malloc() returns: null, when the kernel has no more memory, or a new block in use. *)
Definition malloc_post (s : os) (m : mem) (ns live : list (Z * Z)) (n : Z) (r : Z) (m' : mem) (s' : os) : Prop :=
  (forall v, v < brk s -> ~ private ns v -> ld8 m' v = ld8 m v) /\
  ((r = 0 /\ refused s n /\ brk s' = brk s /\ heap lo (brk s') m' ns live) \/
   exists ns', let b := (r - hdr, n) in heap lo (brk s') m' ns' (b :: live) /\ brk s <= brk s' <= brk s + core n * hdr /\
     forall v, covers ns' v \/ in_block b v <-> covers ns v \/ brk s <= v < brk s').

Lemma granted_post s m ns live n r m' : granted lo (brk s) m ns live n r m' -> malloc_post s m ns live n r m' s.
Proof.
  intros (b & ns' & -> & <- & H & R & F). split; [by intros v _; apply F|]. right. exists ns'. cbv zeta.
  replace (b.1 + hdr - hdr, b.2) with b by (destruct b; simpl; f_equal; lia). split; [done|]. split; [unfold core, hdr; lia|].
  intros v. rewrite (rm_covers _ _ _ _ _ R v). split; [tauto|]. intros [H'|H']; [tauto|lia].
Qed.

(** A block of the list that is large enough is found, wherever freep points. *)
Lemma malloc_found hi m ns live n f y fuel0 fuel :
  heap lo hi m ns live -> 1 <= n -> f ∈ nodes ns -> ld64 m freep = f.1 -> y ∈ nodes ns -> n <= y.2 -> (length (nodes ns) <= fuel)%nat ->
  exists r m', malloc_loop fuel0 fuel n f.1 (ld64 m f.1) m = URet r m' /\ granted lo hi m ns live n r m'.
Proof.
  intros H Hn [i0 Hi0]%list_elem_of_lookup Ef [k Hk]%list_elem_of_lookup Hy Hf.
  destruct (ring_next m ns i0 f (hp_seg _ _ _ _ _ H) Hi0) as (x & Hx & ->).
  pose proof (lookup_lt_Some _ _ _ Hi0). pose proof (lookup_lt_Some _ _ _ Hk). pose proof (lookup_lt_Some _ _ _ Hx).
  apply (malloc_fit lo Hbase Hfreep Hvars hi m ns live n i0 k y fuel0 H Hn Hk Hy fuel (succ (nodes ns) i0)).
  - split; [by exists i0|done|by exists f].
  - pose proof (steps_bound (nodes ns) (succ (nodes ns) i0) k). enough (steps (nodes ns) (succ (nodes ns) i0) i0 = length (nodes ns) - 1)%nat by lia.
    unfold steps, succ. repeat case_decide; lia.
  - pose proof (steps_bound (nodes ns) (succ (nodes ns) i0) k). lia.
Qed.

(** The rest of malloc() after morecore(). *)
Lemma malloc_again s m ns live n fuel0 f p m' s' E :
  heap lo (brk s) m ns live -> grown s m ns live n p m' s' -> lo <= brk s -> 1 <= n -> (S (length (nodes ns)) <= f)%nat ->
  uwp ((if p =? 0 then uret 0 else let! q := get_ptr p in malloc_loop fuel0 f n p q) m') s'
    (fun r m2 s2 => malloc_post s m ns live n r m2 s2) E.
Proof.
  intros H [(-> & Href & Hb & Hm)|(ns' & b & Ep & Hp & Hb1 & Hb2 & Hb & H' & I & F)] Hlo Hn Hf.
  - simpl. split; [by intros v Hv _; apply Hm|]. left. split; [done|]. split; [done|]. split; [done|]. pose proof (brk_range s').
    apply (heap_grow (brk s) (brk s') m m'); try done. lia.
  - rewrite (proj2 (Z.eqb_neq p 0)) by done. destruct (hp_freep _ _ _ _ _ H') as (x & Hx & Ex).
    destruct (in_fits _ _ _ _ _ I) as (y & Hy & Hy1 & Hy2). pose proof (in_length _ _ _ _ _ I) as Hl.
    rewrite Ep, Ex. eapply uwp_bind_run; [reflexivity|].
    destruct (malloc_found (brk s') m' ns' live n x y fuel0 f H' Hn Hx Ex) as (r & m2 & Er & G).
    { unfold nodes. set_solver. }
    { unfold core, hdr in *. lia. }
    { unfold nodes in *. simpl in *. lia. }
    rewrite Er. simpl. destruct (granted_post s' m' ns' live n r m2 G) as [F2 G2].
    assert (Hin : forall v, covers ns' v <-> covers ns v \/ brk s <= v < brk s').
    { intros v. rewrite (in_covers _ _ _ _ _ I v). unfold in_block. rewrite Hb1, Hb. done. }
    split.
    + intros v Hv Hpv. assert (Hpv' : ~ private ns' v).
      { intros [Hq|[Hq|Hq]]; apply Hpv; [by left|by right; left|]. apply Hin in Hq as [Hq|Hq]; [by right; right|lia]. }
      rewrite F2; [by apply F|unfold core, hdr in *; lia|done].
    + right. destruct G2 as [(-> & _)|(ns2 & G2 & Hbk & Hc)].
      * destruct G as (b' & ns2 & Er' & _ & Hh & _). destruct (hp_live _ _ _ _ _ Hh b' ltac:(set_solver)) as [Hk _].
        unfold block_ok, hdr in *. lia.
      * exists ns2. split; [done|]. split; [unfold core, hdr in *; lia|]. intros v. rewrite Hc, Hin. split; [intros [Hq|Hq]; [done|lia]|tauto].
Qed.

Lemma malloc_loop_spec s m ns live n fuel f E :
  heap lo (brk s) m ns live -> lo <= brk s -> 1 <= n -> hdr * n < 2 ^ 31 -> f ∈ nodes ns -> ld64 m freep = f.1 ->
  (2 * length ns + 8 <= fuel)%nat ->
  uwp (malloc_loop fuel fuel n f.1 (ld64 m f.1) m) s (fun r m' s' => malloc_post s m ns live n r m' s') E.
Proof.
  intros H Hlo Hn Hmax Hfin Ef Hf. destruct (decide (Exists (fun x => n <= x.2) (nodes ns))) as [Hex|Hno].
  - apply Exists_exists in Hex as (y & Hy & Hny).
    destruct (malloc_found (brk s) m ns live n f y fuel fuel H Hn Hfin Ef Hy Hny) as (r & m' & Er & G); [unfold nodes; simpl; lia|].
    rewrite Er. simpl. by apply granted_post.
  - assert (Hall : forall x, x ∈ nodes ns -> x.2 < n).
    { intros x Hx. apply not_Exists_Forall in Hno; [|apply _]. rewrite Forall_forall in Hno. specialize (Hno x Hx). simpl in Hno. lia. }
    apply list_elem_of_lookup in Hfin as [i0 Hi0]. destruct (ring_next m ns i0 f (hp_seg _ _ _ _ _ H) Hi0) as (x & Hx & ->).
    pose proof (lookup_lt_Some _ _ _ Hi0). pose proof (lookup_lt_Some _ _ _ Hx).
    pose proof (steps_bound (nodes ns) (succ (nodes ns) i0) i0). set (d := steps (nodes ns) (succ (nodes ns) i0) i0) in *.
    assert (Hat : at_block m ns i0 (succ (nodes ns) i0) f x) by (split; [by exists i0|done|by exists f]).
    assert (Hlen : length (nodes ns) = S (length ns)) by done.
    replace (malloc_loop fuel fuel) with (malloc_loop fuel (d + S (fuel - d - 1))) by (f_equal; lia).
    rewrite (malloc_full lo (brk s) m ns live n i0 fuel H Hall (fuel - d - 1) d (succ (nodes ns) i0) f x Hat eq_refl).
    eapply uwp_bind_mono; [apply (morecore_spec m s ns live n fuel E Hlo H Hn Hmax); lia|].
    intros p m' s' HG. apply (malloc_again s m ns live n fuel); try done. lia.
Qed.

(** A call after three others. *)
Lemma ubind_assoc3 {A B C D : Type} (u1 : U A) (u2 : U B) (u3 : U C) (u4 : U D) m c m' :
  (do! u1; do! u2; u3) m = URet c m' -> (do! u1; do! u2; do! u3; u4) m = u4 m'.
Proof.
  unfold ubind. destruct (u1 m) as [a m1| | | |]; simpl; try discriminate. destruct (u2 m1) as [b m2| | | |]; simpl; try discriminate.
  by intros ->.
Qed.

(** The first call makes the base the only block of the list. *)
Lemma malloc_first s m : lo <= brk s -> exists m',
  (do! store64 freep base; do! set_ptr base base; set_size base 0) m = URet tt m' /\ heap lo (brk s) m' [] [] /\ ld64 m' freep = base /\
  forall v, ~ private [] v -> ld8 m' v = ld8 m v.
Proof.
  intros Hlo. pose proof (brk_range s) as Hr. set (m1 := st64 m freep base).
  destruct (st_ptr_run m1 base base) as (m2 & E2 & P2 & _ & F2); [unfold hdr in *; lia|].
  destruct (st_size_run m2 base 0) as (m3 & E3 & Z3 & P3 & F3); [lia|].
  exists m3. rewrite (ubind_run _ _ _ _ _ (eq_refl : store64 freep base m = URet tt m1)), (ubind_run _ _ _ _ _ E2). split; [exact E3|].
  assert (Hfp : ld64 m3 freep = base).
  { rewrite <- (ld64_st64_eq m freep base) by (unfold hdr in *; lia). apply ldn_ext. intros v Hv. simpl in Hv. unfold hdr in *.
    rewrite F3, F2 by lia. done. }
  split; [|split; [done|]].
  - split; try (intros x Hx; set_solver); try (intros x y Hx; set_solver).
    + cbn [nodes seg fst snd first]. by rewrite P3.
    + by repeat constructor.
    + exists (base, 0). split; [by left|done].
    + constructor.
    + lia.
  - intros v Hv. unfold private, hdr in Hv. rewrite F3, F2 by lia. apply ld8_stn_out. simpl. lia.
Qed.
End Malloc.

(** Where the linker has put the variables of the allocator: below the heap, which starts at [lo]. *)
Record placed {IM : Image} (lo : Z) : Prop := {
  pl_base : 0 < base /\ base + hdr <= lo;
  pl_freep : 0 < freep /\ freep + 8 <= lo;
  pl_vars : base + hdr <= freep \/ freep + 8 <= base;
}.

(** The allocator before its first call, and from then on. *)
Definition allocator {IM : Image} {OS : Os} {SB : Sbrk} (lo : Z) (s : os) (m : mem) (ns live : list (Z * Z)) : Prop :=
  lo <= brk s /\ (heap lo (brk s) m ns live \/ (ld64 m freep = 0 /\ ns = [] /\ live = [])).

Lemma units_enough nbytes : 0 <= nbytes < 2 ^ 31 - 31 ->
  nbytes + hdr <= hdr * units nbytes /\ 1 <= units nbytes /\ hdr * units nbytes < 2 ^ 31.
Proof.
  intros H. unfold units, hdr. pose proof (Z.div_mod (nbytes + 16 - 1) 16 ltac:(lia)). pose proof (Z.mod_pos_bound (nbytes + 16 - 1) 16 ltac:(lia)).
  rewrite u32_small by lia. lia.
Qed.

Lemma malloc_spec {IM : Image} {OS : Os} {SB : Sbrk} lo s m ns live nbytes fuel E :
  placed lo -> allocator lo s m ns live -> 0 <= nbytes < 2 ^ 31 - 31 -> (2 * length ns + 8 <= fuel)%nat ->
  uwp (malloc fuel nbytes m) s (fun r m' s' => malloc_post lo s m ns live (units nbytes) r m' s') E.
Proof.
  intros [Hb Hf Hv] [Hlo Hst] Hn Hfuel. destruct (units_enough nbytes Hn) as (U1 & U2 & U3). unfold malloc. set (n := units nbytes) in *.
  eapply uwp_bind_run; [reflexivity|]. destruct Hst as [H|(E0 & -> & ->)].
  - destruct (hp_freep _ _ _ _ _ H) as (x & Hx & Ex). rewrite Ex.
    destruct (nodes_node lo Hb Hf Hv (brk s) ns x (hp_free _ _ _ _ _ H) Hx) as (_ & Hx0 & _).
    rewrite (proj2 (Z.eqb_neq x.1 0)) by lia. eapply uwp_bind_run; [reflexivity|]. by apply malloc_loop_spec.
  - rewrite E0. cbn [Z.eqb]. destruct (malloc_first lo Hb Hf Hv s m Hlo) as (m1 & E1 & H1 & Hfp & F1).
    erewrite ubind_assoc3; [|exact E1]. eapply uwp_bind_run; [reflexivity|].
    eapply uwp_mono; [|intros ? ? H; exact H|apply (malloc_loop_spec lo Hb Hf Hv s m1 [] [] n fuel (base, 0)); try done; by left].
    intros r m' s' [F G]. split; [|exact G]. intros v Hv1 Hv2. rewrite F by done. by apply F1.
Qed.

(** The block that malloc() returns. *)
Lemma new_block {IM : Image} {OS : Os} {SB : Sbrk} lo s m ns live b :
  heap lo (brk s) m ns (b :: live) -> allocator lo s m ns (b :: live) /\ lo <= b.1 /\ b.1 + hdr * b.2 <= brk s /\ forall x, x ∈ live -> apart b x.
Proof.
  intros H. destruct (hp_live _ _ _ _ _ H b ltac:(set_solver)) as [(K1 & K2 & K3) _].
  split; [split; [unfold hdr in *; lia|by left]|]. split; [lia|]. split; [done|].
  intros x Hx. apply (hp_disjoint _ _ _ _ _ H); [set_solver|set_solver|]. intros <-. pose proof (hp_nodup _ _ _ _ _ H) as Hnd.
  apply NoDup_cons in Hnd as [Hnd _]. done.
Qed.

(** C19. malloc(nbytes) returns, and its result is null, only when the kernel has refused more memory, or a block that has room for nbytes and
    overlaps no block in use; the free bytes are then those before the call and the memory got from the kernel, without
    the block.  In no case is a byte changed that is not free or the allocator's own. *)
Theorem malloc_correct {IM : Image} {OS : Os} {SB : Sbrk} lo s m ns live nbytes fuel :
  placed lo -> allocator lo s m ns live -> 0 <= nbytes < 2 ^ 31 - 31 -> (2 * length ns + 8 <= fuel)%nat ->
  uwp (malloc fuel nbytes m) s (fun r m' s' =>
    (forall v, v < brk s -> ~ private ns v -> ld8 m' v = ld8 m v) /\
    ((r = 0 /\ refused s (units nbytes) /\ allocator lo s' m' ns live /\ brk s' = brk s) \/
     exists ns', let b := (r - hdr, units nbytes) in allocator lo s' m' ns' (b :: live) /\ lo + hdr <= r /\ nbytes + hdr <= hdr * units nbytes /\
       (forall x, x ∈ live -> apart b x) /\
       forall v, covers ns' v \/ in_block b v <-> covers ns v \/ brk s <= v < brk s')) (fun _ _ => False).
Proof.
  intros HP HA Hn Hfuel. eapply uwp_mono; [|intros ? ? H; exact H|by apply malloc_spec]. destruct (units_enough nbytes Hn) as (U1 & U2 & U3).
  intros r m' s' [F [(-> & Href & Hbk & H)|(ns' & H & Hbk & Hc)]]; (split; [exact F|]).
  - left. split; [done|]. split; [done|]. destruct HA. split; [split; [lia|by left]|done].
  - right. exists ns'. destruct (new_block lo s' m' ns' live _ H) as (K1 & K2 & K3 & K4). simpl in K2. cbv zeta.
    split; [done|]. split; [lia|]. split; [done|]. split; [done|exact Hc].
Qed.

(** C20. free() of a block in use returns and makes exactly the bytes of the block free: the list stays in
    order, without overlaps and without adjacent blocks, and no byte changes that is not free then or the
    allocator's own. *)
Theorem free_correct {IM : Image} {OS : Os} {SB : Sbrk} lo s m ns live b fuel :
  placed lo -> allocator lo s m ns (b :: live) -> (length ns + 1 < fuel)%nat -> exists m' ns',
  free fuel (b.1 + hdr) m = URet tt m' /\ allocator lo s m' ns' live /\ StronglySorted before ns' /\
  (forall v, covers ns' v <-> covers ns v \/ in_block b v) /\ (forall v, ~ private ns' v -> ld8 m' v = ld8 m v).
Proof.
  intros [Hb Hf Hv] [Hlo [H|(_ & _ & ?)]] Hfuel; [|done].
  destruct (free_run lo Hb Hf Hv (brk s) m ns live b fuel H) as (m' & ns' & E & H' & I & F); [unfold nodes; simpl; lia|].
  exists m', ns'. split; [exact E|]. split; [split; [done|by left]|]. split; [|split; [exact (in_covers _ _ _ _ _ I)|exact F]].
  pose proof (in_sorted _ _ _ _ _ I) as Hs. by inversion Hs.
Qed.

(** The search from freep in a heap without a large enough block. *)
Lemma malloc_asks {IM : Image} lo hi m ns live n fuel f :
  placed lo -> heap lo hi m ns live -> (forall x, x ∈ nodes ns -> x.2 < n) -> f ∈ nodes ns -> ld64 m freep = f.1 -> (length ns + 2 <= fuel)%nat ->
  exists (c : Z -> U Z), malloc_loop fuel fuel n f.1 (ld64 m f.1) m = ubind (morecore fuel n) c m.
Proof.
  intros HP H Hall Hfin Ef Hf. apply list_elem_of_lookup in Hfin as [i0 Hi0].
  destruct (ring_next m ns i0 f (hp_seg _ _ _ _ _ H) Hi0) as (x & Hx & ->).
  pose proof (lookup_lt_Some _ _ _ Hi0). pose proof (lookup_lt_Some _ _ _ Hx).
  pose proof (steps_bound (nodes ns) (succ (nodes ns) i0) i0). set (d := steps (nodes ns) (succ (nodes ns) i0) i0) in *.
  assert (Hlen : length (nodes ns) = S (length ns)) by done.
  assert (Hat : at_block m ns i0 (succ (nodes ns) i0) f x) by (split; [by exists i0|done|by exists f]).
  replace (malloc_loop fuel fuel) with (malloc_loop fuel (d + S (fuel - d - 1))) by (f_equal; lia).
  eexists. exact (malloc_full lo hi m ns live n i0 fuel H Hall (fuel - d - 1) d (succ (nodes ns) i0) f x Hat eq_refl).
Qed.

(** C39. The increment that morecore() asks for is an int: for a request between 2^31 and 2^32 bytes that the list cannot serve it is negative, so
    that malloc() asks the kernel to shrink the process and then uses the result as new memory. *)
Theorem malloc_negative_sbrk {IM : Image} {OS : Os} {SB : Sbrk} lo s m ns live nbytes fuel :
  placed lo -> allocator lo s m ns live -> 2 ^ 31 <= nbytes <= 2 ^ 32 - 64 -> (forall x, x ∈ ns -> x.2 < units nbytes) ->
  (length ns + 2 <= fuel)%nat -> exists z m' k, malloc fuel nbytes m = ECall SYS_sbrk [z] m' k /\ z < 0.
Proof.
  intros HP [Hlo Hst] Hn Hall Hfuel. assert (Hu : 2 ^ 27 <= units nbytes < 2 ^ 28).
  { unfold units, hdr. pose proof (Z.div_mod (nbytes + 16 - 1) 16 ltac:(lia)). pose proof (Z.mod_pos_bound (nbytes + 16 - 1) 16 ltac:(lia)).
    rewrite u32_small by lia. lia. }
  set (n := units nbytes) in *. assert (Hsb : forall (c : Z -> U Z) m', exists z k, ubind (morecore fuel n) c m' = ECall SYS_sbrk [z] m' k /\ z < 0).
  { intros c m'. unfold morecore. rewrite (proj2 (Z.ltb_ge n 4096)) by lia. eexists _, _. split; [reflexivity|].
    unfold i32, hdr. rewrite (Z.mod_eq _ (2 ^ 32)) by lia. replace ((n * 16 + 2 ^ 31) / 2 ^ 32) with 1; [lia|].
    apply Z.div_unique with (n * 16 + 2 ^ 31 - 2 ^ 32); lia. }
  assert (Hloop : forall m1 ns1 live1 x, heap lo (brk s) m1 ns1 live1 -> (forall x, x ∈ ns1 -> x.2 < n) -> (length ns1 + 2 <= fuel)%nat ->
    x ∈ nodes ns1 -> ld64 m1 freep = x.1 -> exists z k, malloc_loop fuel fuel n x.1 (ld64 m1 x.1) m1 = ECall SYS_sbrk [z] m1 k /\ z < 0).
  { intros m1 ns1 live1 x H Ha Hf Hx Ex. destruct (malloc_asks lo (brk s) m1 ns1 live1 n fuel x HP H) as [c ->]; try done.
    intros y [->|Hy]%elem_of_cons; [simpl; lia|by apply Ha]. }
  unfold malloc. fold n. rewrite (ubind_run _ _ _ _ _ (eq_refl : load64 freep m = URet (ld64 m freep) m)). destruct Hst as [H|(E0 & -> & ->)].
  - destruct (hp_freep _ _ _ _ _ H) as (x & Hx & Ex). rewrite Ex. destruct HP as [Hb Hf Hv].
    destruct (nodes_node lo Hb Hf Hv (brk s) ns x (hp_free _ _ _ _ _ H) Hx) as (_ & Hx0 & _). rewrite (proj2 (Z.eqb_neq x.1 0)) by lia.
    rewrite (ubind_run _ _ _ _ _ (eq_refl : get_ptr x.1 m = URet (ld64 m x.1) m)).
    destruct (Hloop m ns live x) as (z & k & E & Hz); try done. by exists z, m, k.
  - rewrite E0. cbn [Z.eqb]. destruct HP as [Hb Hf Hv]. destruct (malloc_first lo Hb Hf Hv s m Hlo) as (m1 & E1 & H1 & Hfp & F1).
    erewrite ubind_assoc3; [|exact E1]. rewrite (ubind_run _ _ _ _ _ (eq_refl : get_ptr base m1 = URet (ld64 m1 base) m1)).
    destruct (Hloop m1 [] [] (base, 0)) as (z & k & E & Hz); try done; [by left|]. by exists z, m1, k.
Qed.

(** * Concrete runs *)

#[local] Instance malloc_image : Image := {| lit _ := 0; var v := if bool_decide (v = "umalloc.base"%string) then 64 else 96 |}.

(** A kernel whose processes may grow to [limit] bytes. *)
Definition limit : Z := 2 ^ 27.

Definition sbrk_sys (num : Z) (args : list Z) (m : mem) (s : Z) (a0 : Z) (m' : mem) (s' : Z) : Prop :=
  match args with
  | [n] => num = SYS_sbrk /\ m' = m /\
      if (0 <=? Z.min limit (Z.max 0 s) + n) && (Z.min limit (Z.max 0 s) + n <=? limit) then
        a0 = Z.min limit (Z.max 0 s) /\ s' = Z.min limit (Z.max 0 s) + n
      else a0 = 2 ^ 64 - 1 /\ s' = s
  | _ => False
  end.

#[local] Instance sbrk_os : Os := {| os := Z; sys := sbrk_sys |}.

#[local] Instance sbrk_kernel : Sbrk.
Proof.
  refine (@Build_Sbrk sbrk_os (fun s => Z.min limit (Z.max 0 s)) _ _ _).
  - intros s. unfold limit. lia.
  - intros m s n Hn. cbn. destruct (_ && _); by eexists _, _, _.
  - intros m s n r m' s' Hn. cbn. intros (_ & -> & H). split; [done|]. destruct (_ && _) eqn:E; bool_prop; destruct H as [-> ->]; [right|by left].
    split; [done|]. unfold limit in *. lia.
Defined.

Lemma malloc_placed : placed 4096.
Proof. split; [by vm_compute..|]. left. by vm_compute. Qed.

Definition brk0 : @os sbrk_os := 8192.

Lemma allocator_start : allocator 4096 brk0 ∅ [] [].
Proof. split; [by vm_compute|]. right. by vm_compute. Qed.

Lemma malloc_correct_witness :
  uwp (malloc 8 100 ∅) brk0 (fun r m' s' => r = 0 \/ exists ns', allocator 4096 s' m' ns' [(r - hdr, 8)]) (fun _ _ => False).
Proof.
  eapply uwp_mono; [|intros n s H; exact H|
    apply (malloc_correct 4096 brk0 ∅ [] [] 100 8 malloc_placed allocator_start); [lia|simpl; lia]].
  intros r m s [_ [(-> & _)|(ns' & H & _)]]; [by left|]. right. exists ns'. exact H.
Defined.

Lemma malloc_negative_sbrk_witness : exists z m' k, malloc 8 (2 ^ 31) ∅ = ECall SYS_sbrk [z] m' k /\ z < 0.
Proof.
  apply (malloc_negative_sbrk 4096 brk0 ∅ [] [] (2 ^ 31) 8 malloc_placed allocator_start).
  - lia.
  - intros x Hx. by apply not_elem_of_nil in Hx.
  - simpl. lia.
Defined.

(** A heap with a free block of eight units, followed by a block in use of four. *)
Definition small_heap : mem :=
  st32 (st32 (st64 (st32 (st64 (st64 ∅ freep base) base 4096) (base + 8) 0) 4096 base) (4096 + 8) 8) (4224 + 8) 4.

Lemma allocator_small : allocator 4096 brk0 small_heap [(4096, 8)] [(4224, 4)].
Proof.
  split; [by vm_compute|]. left. split.
  - by vm_compute.
  - repeat constructor; by vm_compute.
  - intros x ->%list_elem_of_singleton. by vm_compute.
  - exists (base, 0). split; [by left|by vm_compute].
  - intros x ->%list_elem_of_singleton. split; by vm_compute.
  - intros x y ->%list_elem_of_singleton ->%list_elem_of_singleton. right. by vm_compute.
  - intros x y ->%list_elem_of_singleton ->%list_elem_of_singleton. done.
  - apply NoDup_singleton.
  - by vm_compute.
Qed.

Lemma free_correct_witness : exists m' ns', free 4 (4224 + hdr) small_heap = URet tt m' /\ allocator 4096 brk0 m' ns' [].
Proof.
  destruct (free_correct 4096 brk0 small_heap [(4096, 8)] [] (4224, 4) 4 malloc_placed allocator_small) as (m' & ns' & H1 & H2 & _);
    [simpl; lia|]. exists m', ns'. exact (conj H1 H2).
Defined.
