(* ===== verification/Arena.v ===== *)
(** What a program relies on when it allocates without ever freeing: the interface [Arena], and that malloc() of user/umalloc.c provides
    it over a kernel that grants memory up to some size. *)

From Stdlib Require Import ZArith Lia Sorted.
From stdpp Require Import base gmap list_numbers strings numbers sorting list.
From S2P Require Import Prelude Mem User Ulib Umalloc UmallocSpec UmallocProps.

Open Scope Z_scope.

(** A region of memory: its address and its size. *)
Notation region := (Z * Z)%type.

Definition inside (L : list region) (v : Z) : Prop := exists x, x ∈ L /\ x.1 <= v < x.1 + x.2.

(** [arena s m k L]: the regions [L] have been handed out and at least [k] more small requests will be served. *)
Class Arena {IM : Image} {OS : Os} := {
  outside : Z -> Prop;
  arena : os -> mem -> nat -> list region -> Prop;
  arena_less : forall s m k L, arena s m (S k) L -> arena s m k L;
  arena_apart : forall s m k L v, arena s m k L -> inside L v -> ~ outside v;
  arena_frame : forall s m m' k L, arena s m k L -> (forall v, ~ inside L v -> ~ outside v -> ld8 m' v = ld8 m v) -> arena s m' k L;
  arena_malloc : forall s m k L n E, arena s m (S k) L -> 1 <= n <= 1024 ->
    uwp (malloc heap_fuel n m) s (fun r m' s' =>
      arena s' m' k ((r, n) :: L) /\ 0 < r /\ r + n < 2 ^ 32 /\
      (forall v, r <= v < r + n -> ~ outside v /\ ~ inside L v) /\
      (forall v, outside v \/ inside L v -> ld8 m' v = ld8 m v)) E;
}.

(** A kernel that lets a process grow up to [top] bytes. *)
Class Grants `{SB : Sbrk} (top : Z) := {
  top_small : top <= 2 ^ 27;
  sbrk_grants : forall m s n m' s', 0 <= n -> brk s + n <= top -> ~ sys SYS_sbrk [n] m s (2 ^ 64 - 1) m' s';
}.

Section Provided.
Context {IM : Image} {OS : Os} {SB : Sbrk} (top : Z) {GR : Grants top} (lo : Z) (HP : placed lo).
Implicit Types (m : mem) (s : os) (L : list region).

Definition block_of (live : list region) (x : region) : Prop := exists b, b ∈ live /\ b.1 + hdr = x.1 /\ x.2 + hdr <= hdr * b.2.

Definition heap_arena s m (k : nat) L : Prop := exists ns live,
  allocator lo s m ns live /\ brk s + Z.of_nat k * 65536 <= top /\ forall x, x ∈ L -> block_of live x.

Definition heap_outside (v : Z) : Prop := v < lo /\ ~ (base <= v < base + hdr) /\ ~ (freep <= v < freep + 8).

(** The list is not longer than there are headers in the heap. *)
Lemma sorted_length hi C : forall a, StronglySorted before C -> (forall x, x ∈ C -> block_ok lo hi x /\ a <= x.1) ->
  a <= hi -> a + hdr * Z.of_nat (length C) <= hi.
Proof.
  induction C as [|x C IH]; intros a Hs HC Ha; [simpl; lia|]. inversion Hs as [|? ? Hs' Hb]; subst.
  destruct (HC x ltac:(set_solver)) as [(K1 & K2 & K3) Hx]. specialize (IH (x.1 + hdr * x.2) Hs'). rewrite Forall_forall in Hb.
  assert (HC' : forall y, y ∈ C -> block_ok lo hi y /\ x.1 + hdr * x.2 <= y.1).
  { intros y Hy. split; [apply HC; set_solver|]. specialize (Hb y Hy). unfold before in Hb. lia. }
  specialize (IH HC' K3). simpl. unfold hdr in *. lia.
Qed.

Lemma allocator_fuel s m ns live : allocator lo s m ns live -> brk s <= top -> (2 * length ns + 8 <= heap_fuel)%nat.
Proof.
  intros [Hlo Hst] Ht. pose proof top_small as Htop. assert (H0 : 0 < lo) by (destruct HP as [[? ?] _ _]; unfold hdr in *; lia).
  assert (hdr * Z.of_nat (length ns) <= 2 ^ 27).
  { destruct Hst as [H|(_ & -> & _)]; [|simpl; unfold hdr; lia].
    pose proof (hp_sorted _ _ _ _ _ H) as Hs. inversion Hs; subst. enough (lo + hdr * Z.of_nat (length ns) <= brk s) by lia.
    apply sorted_length; [done| |done]. intros x Hx. pose proof (hp_free _ _ _ _ _ H x Hx) as Hk. split; [done|]. unfold block_ok in Hk. lia. }
  pose proof heap_fuel_Z. unfold hdr in *. lia.
Qed.

(** A byte of a region or outside is none of the allocator's. *)
Lemma region_in_block live x v : block_of live x -> x.1 <= v < x.1 + x.2 -> exists b, b ∈ live /\ in_block b v /\ b.1 + hdr <= v.
Proof. intros (b & Hb & H1 & H2) Hv. exists b. unfold in_block, hdr in *. split; [done|]. lia. Qed.

Lemma not_private s m ns live L v :
  allocator lo s m ns live -> (forall x, x ∈ L -> block_of live x) -> heap_outside v \/ inside L v -> ~ private ns v /\ v < brk s.
Proof.
  intros [Hlo Hst] HL Hv. destruct Hst as [H|(_ & -> & ->)].
  - destruct Hv as [(V1 & V2 & V3)|(x & Hx & Hv)].
    + split; [|lia]. intros [?|[?|(y & Hy & Hyv)]]; [done|done|]. pose proof (hp_free _ _ _ _ _ H y Hy). unfold block_ok, in_block in *. lia.
    + destruct (region_in_block live x v (HL x Hx) Hv) as (b & Hb & Hbv & _). split.
      * apply (live_private lo (pl_base _ HP) (pl_freep _ HP) (brk s) m ns live b v H Hb Hbv).
      * destruct (hp_live _ _ _ _ _ H b Hb) as [Hk _]. unfold block_ok, in_block in *. lia.
  - destruct Hv as [(V1 & V2 & V3)|(x & Hx & Hv)].
    + split; [|lia]. intros [?|[?|(y & Hy & _)]]; [done|done|]. by apply not_elem_of_nil in Hy.
    + destruct (HL x Hx) as (b & Hb & _). by apply not_elem_of_nil in Hb.
Qed.

Lemma heap_arena_less s m k L : heap_arena s m (S k) L -> heap_arena s m k L.
Proof. intros (ns & live & H1 & H2 & H3). exists ns, live. split; [done|]. split; [lia|done]. Qed.

Lemma heap_arena_apart s m k L v : heap_arena s m k L -> inside L v -> ~ heap_outside v.
Proof.
  intros (ns & live & [Hlo Hst] & _ & HL) (x & Hx & Hv) (V1 & _). destruct (region_in_block live x v (HL x Hx) Hv) as (b & Hb & Hbv & _).
  destruct Hst as [H|(_ & _ & ->)]; [|by apply not_elem_of_nil in Hb]. destruct (hp_live _ _ _ _ _ H b Hb) as [Hk _]. unfold block_ok, in_block in *. lia.
Qed.

(** The bytes that the invariant of the allocator depends on. *)
Lemma heap_ext hi m m' ns live : heap lo hi m ns live ->
  (forall v, private ns v -> ld8 m' v = ld8 m v) -> (forall x v, x ∈ live -> x.1 <= v < x.1 + hdr -> ld8 m' v = ld8 m v) -> heap lo hi m' ns live.
Proof.
  intros [H1 H2 H3 H4 H5 H6 H7 H8 H9] Hp Hl. split; try done.
  - apply (seg_ext m); [|done]. intros x v Hx Hv. apply Hp. apply elem_of_cons in Hx as [->|Hx]; [by left|]. right. right. exists x. split; [done|].
    by apply (live_hdr lo hi); [apply H3|].
  - destruct H4 as (x & Hx & Ex). exists x. split; [done|]. rewrite <- Ex. apply ldn_ext. intros v Hv. apply Hp. right. left. simpl in Hv. lia.
  - intros x Hx. destruct (H5 x Hx) as [Hk <-]. split; [done|]. apply (hdr_loads m m' x.1). intros v Hv. by apply (Hl x).
Qed.

Lemma heap_arena_frame s m m' k L :
  heap_arena s m k L -> (forall v, ~ inside L v -> ~ heap_outside v -> ld8 m' v = ld8 m v) -> heap_arena s m' k L.
Proof.
  intros (ns & live & HA & H2 & H3) Hm. pose proof (not_private s m ns live L) as HN. exists ns, live. split; [|done].
  assert (Hp : forall v, private ns v -> ld8 m' v = ld8 m v) by (intros v Hv; apply Hm; intros Hx; destruct (HN v HA H3); auto).
  destruct HA as [Hlo [H|(E0 & -> & ->)]]; (split; [done|]).
  - left. apply (heap_ext (brk s) m); [done|done|]. intros b v Hb Hv. destruct (hp_live _ _ _ _ _ H b Hb) as [Hk _]. apply Hm.
    + intros (x & Hx & Hxv). destruct (region_in_block live x v (H3 x Hx) Hxv) as (b' & Hb' & Hbv & Hge). destruct (decide (b = b')) as [->|Hne]; [lia|].
      pose proof (hp_disjoint _ _ _ _ _ H b b' Hb Hb' Hne) as Hap. unfold apart, in_block, block_ok, hdr in *. lia.
    + unfold heap_outside, block_ok in *. lia.
  - right. split; [|done]. rewrite <- E0. apply ldn_ext. intros v Hv. apply Hp. right. left. simpl in Hv. lia.
Qed.

Lemma heap_arena_malloc s m k L n E : heap_arena s m (S k) L -> 1 <= n <= 1024 ->
  uwp (malloc heap_fuel n m) s (fun r m' s' =>
    heap_arena s' m' k ((r, n) :: L) /\ 0 < r /\ r + n < 2 ^ 32 /\
    (forall v, r <= v < r + n -> ~ heap_outside v /\ ~ inside L v) /\
    (forall v, heap_outside v \/ inside L v -> ld8 m' v = ld8 m v)) E.
Proof.
  intros (ns & live & HA & Ht & HL) Hn. assert (Hu : 1 <= units n <= 66 /\ n + hdr <= hdr * units n).
  { destruct (units_enough n ltac:(lia)) as (U1 & U2 & U3). split; [|done]. split; [done|]. unfold units, hdr in *.
    pose proof (Z.div_mod (n + 16 - 1) 16 ltac:(lia)). pose proof (Z.mod_pos_bound (n + 16 - 1) 16 ltac:(lia)). rewrite u32_small by lia. lia. }
  assert (Hc : core (units n) * hdr = 65536) by (unfold core, hdr; lia).
  eapply uwp_mono; [|intros ? ? H; exact H|apply (malloc_spec lo s m ns live n); try done; [lia|apply (allocator_fuel s m ns live); [done|lia]]].
  intros r m' s' [F [(_ & (m1 & s1 & m2 & s2 & Hb1 & Href) & _)|(ns' & H & Hbk & Hcov)]].
  { exfalso. revert Href. rewrite Hc. apply sbrk_grants; lia. }
  destruct (new_block lo s' m' ns' live _ H) as (K1 & K2 & K3 & K4). simpl in K2, K3. pose proof (brk_range s') as Hr.
  assert (H0 : 0 < lo) by (destruct HP as [[? ?] _ _]; unfold hdr in *; lia).
  split_and!; try (unfold hdr in *; lia).
  - exists ns', ((r - hdr, units n) :: live). split; [done|]. split; [lia|]. intros x [->|Hx]%elem_of_cons.
    + exists (r - hdr, units n). simpl. split; [by left|]. unfold hdr in *. lia.
    + destruct (HL x Hx) as (b & Hb & Hb'). exists b. split; [by right|done].
  - intros v Hv. split; [unfold heap_outside, hdr in *; lia|]. intros (x & Hx & Hxv).
    destruct (region_in_block live x v (HL x Hx) Hxv) as (b & Hb & Hbv & _). specialize (K4 b Hb). unfold apart, in_block, hdr in *. simpl in K4. lia.
  - intros v Hv. destruct (not_private s m ns live L v HA HL Hv) as [Hp Hlt]. by apply F.
Qed.

#[export] Instance umalloc_arena : Arena := {|
  outside := heap_outside; arena := heap_arena; arena_less := heap_arena_less; arena_apart := heap_arena_apart; arena_frame := heap_arena_frame; arena_malloc := heap_arena_malloc |}.
End Provided.
