(* ===== verification/Sh.v ===== *)
(** user/sh.c: the shell.  Its parser builds a tree of commands in memory of the storage allocator; runcmd() walks the tree.

    The arguments [char **ps] of the parser are passed and returned by value.  The theory is in ShParse.v, ShTree.v and ShRun.v. *)

From Stdlib Require Import ZArith Lia.
From stdpp Require Import base gmap list_numbers strings numbers list.
From S2P Require Import Prelude Mem User Ulib Coreutils Umalloc.

Open Scope Z_scope.
Open Scope user_scope.

(** Parsed command representation *)
Definition EXEC : Z := 1.
Definition REDIR : Z := 2.
Definition PIPE : Z := 3.
Definition LIST : Z := 4.
Definition BACK : Z := 5.

Definition MAXARGS : Z := 10.

(** kernel/fcntl.h *)
Definition O_WRONLY : Z := 1.
Definition O_CREATE : Z := 512.
Definition O_TRUNC : Z := 1024.

(** The depth of the calls of the parser and of the tree it builds, for a line of at most a page. *)
Definition parse_fuel : nat := 5 * str_fuel.
Lemma parse_fuel_eq : parse_fuel = (5 * str_fuel)%nat.
Proof. reflexivity. Qed.

#[global] Opaque parse_fuel.

(** * The structures in memory *)

Definition execcmd_size : Z := 168.
Definition redircmd_size : Z := 40.
Definition pipecmd_size : Z := 24.
Definition listcmd_size : Z := 24.
Definition backcmd_size : Z := 16.

(** Addresses of the fields: &cmd->argv[i], &cmd->eargv[i]; cmd, file, efile, mode and fd of a redircmd; left and right *)
Definition argv_at (cmd i : Z) : Z := cmd + 8 + 8 * i.
Definition eargv_at (cmd i : Z) : Z := cmd + 88 + 8 * i.
Definition cmd_at (cmd : Z) : Z := cmd + 8.
Definition file_at (cmd : Z) : Z := cmd + 16.
Definition efile_at (cmd : Z) : Z := cmd + 24.
Definition mode_at (cmd : Z) : Z := cmd + 32.
Definition fd_at (cmd : Z) : Z := cmd + 36.
Definition left_at (cmd : Z) : Z := cmd + 8.
Definition right_at (cmd : Z) : Z := cmd + 16.

Section Shell.
Context {IM : Image}.

Definition panic {A : Type} (s : Z) : U A :=
  do! fprintf 2 (litln "%s") [s];
  exit 1.

Definition fork1 : U Z :=
  let! pid := fork in
  if pid =? -1 then panic (lit (str "fork")) else
  uret pid.

(** * Constructors *)

Definition execcmd : U Z :=
  let! cmd := malloc heap_fuel execcmd_size in
  do! memset cmd 0 execcmd_size;
  do! store32 cmd EXEC;
  uret cmd.

Definition redircmd (subcmd file efile mode fd : Z) : U Z :=
  let! cmd := malloc heap_fuel redircmd_size in
  do! memset cmd 0 redircmd_size;
  do! store32 cmd REDIR;
  do! store64 (cmd_at cmd) subcmd;
  do! store64 (file_at cmd) file;
  do! store64 (efile_at cmd) efile;
  do! store32 (mode_at cmd) mode;
  do! store32 (fd_at cmd) fd;
  uret cmd.

Definition pipecmd (left right : Z) : U Z :=
  let! cmd := malloc heap_fuel pipecmd_size in
  do! memset cmd 0 pipecmd_size;
  do! store32 cmd PIPE;
  do! store64 (left_at cmd) left;
  do! store64 (right_at cmd) right;
  uret cmd.

Definition listcmd (left right : Z) : U Z :=
  let! cmd := malloc heap_fuel listcmd_size in
  do! memset cmd 0 listcmd_size;
  do! store32 cmd LIST;
  do! store64 (left_at cmd) left;
  do! store64 (right_at cmd) right;
  uret cmd.

Definition backcmd (subcmd : Z) : U Z :=
  let! cmd := malloc heap_fuel backcmd_size in
  do! memset cmd 0 backcmd_size;
  do! store32 cmd BACK;
  do! store64 (cmd_at cmd) subcmd;
  uret cmd.

(** * Parsing *)

(** char whitespace[] = " \t\r\n\v"; char symbols[] = "<|>&;()"; *)
Definition white_chars : list Z := [32; 9; 13; 10; 11].
Definition symbol_chars : list Z := str "<|>&;()".
Definition whitespace : Z := var "sh.whitespace".
Definition symbols : Z := var "sh.symbols".

(** while(s < es && strchr(whitespace, *s)) s++; *)
Fixpoint skip_white (fuel : nat) (s es : Z) : U Z :=
  match fuel with
  | O => unofuel
  | S f =>
      if s <? es then
        let! c := load8 s in
        let! r := strchr whitespace c in
        if negb (r =? 0) then skip_white f (s + 1) es else uret s
      else uret s
  end.

(** while(s < es && !strchr(whitespace, *s) && !strchr(symbols, *s)) s++; *)
Fixpoint skip_word (fuel : nat) (s es : Z) : U Z :=
  match fuel with
  | O => unofuel
  | S f =>
      if s <? es then
        let! c := load8 s in
        let! r := strchr whitespace c in
        if negb (r =? 0) then uret s else
        let! c := load8 s in
        let! r := strchr symbols c in
        if negb (r =? 0) then uret s else skip_word f (s + 1) es
      else uret s
  end.

(** Returns the token, *q, *eq and *ps. *)
Definition gettoken (s es : Z) : U (Z * Z * Z * Z) :=
  let! s := skip_white str_fuel s es in
  let q := s in
  let! ret := load8 s in
  let! c := load8 s in
  let! '(ret, s) :=
    if c =? 0 then uret (ret, s)
    else if bool_decide (c ∈ str "|();&<") then uret (ret, s + 1)
    else if c =? 62 then
      let s := s + 1 in
      let! c := load8 s in
      if c =? 62 then uret (43, s + 1) else uret (ret, s)
    else
      let! s := skip_word str_fuel s es in
      uret (97, s) in
  let eq := s in
  let! s := skip_white str_fuel s es in
  uret (ret, q, eq, s).

(** Returns the answer and *ps. *)
Definition peek (s es toks : Z) : U (bool * Z) :=
  let! s := skip_white str_fuel s es in
  let! c := load8 s in
  if c =? 0 then uret (false, s) else
  let! c := load8 s in
  let! r := strchr toks c in
  uret (negb (r =? 0), s).

(** while(peek(ps, es, "<>")){ ... } *)
Fixpoint redirs_loop (fuel : nat) (cmd s es : Z) : U (Z * Z) :=
  match fuel with
  | O => unofuel
  | S f =>
      let! '(b, s) := peek s es (lit (str "<>")) in
      if (b : bool) then
        let! '(tok, _, _, s) := gettoken s es in
        let! '(t, q, eq, s) := gettoken s es in
        if negb (t =? 97) then panic (lit (str "missing file for redirection")) else
        let! cmd :=
          if tok =? 60 then redircmd cmd q eq O_RDONLY 0
          else if tok =? 62 then redircmd cmd q eq (Z.lor (Z.lor O_WRONLY O_CREATE) O_TRUNC) 1
          else if tok =? 43 then redircmd cmd q eq (Z.lor O_WRONLY O_CREATE) 1
          else uret cmd in
        redirs_loop f cmd s es
      else uret (cmd, s)
  end.

Definition parseredirs (cmd s es : Z) : U (Z * Z) := redirs_loop str_fuel cmd s es.

(** while(!peek(ps, es, "|)&;")){ ... }; returns argc, ret and *ps *)
Fixpoint args_loop (fuel : nat) (cmd argc ret s es : Z) : U (Z * Z * Z) :=
  match fuel with
  | O => unofuel
  | S f =>
      let! '(b, s) := peek s es (lit (str "|)&;")) in
      if negb b then
        let! '(tok, q, eq, s) := gettoken s es in
        if tok =? 0 then uret (argc, ret, s) else
        if negb (tok =? 97) then panic (lit (str "syntax")) else
        do! store64 (argv_at cmd argc) q;
        do! store64 (eargv_at cmd argc) eq;
        let argc := argc + 1 in
        if MAXARGS <=? argc then panic (lit (str "too many args")) else
        let! '(ret, s) := parseredirs ret s es in
        args_loop f cmd argc ret s es
      else uret (argc, ret, s)
  end.

(** while(peek(ps, es, "&")){ ... } *)
Fixpoint back_loop (fuel : nat) (cmd s es : Z) : U (Z * Z) :=
  match fuel with
  | O => unofuel
  | S f =>
      let! '(b, s) := peek s es (lit (str "&")) in
      if (b : bool) then
        let! '(_, _, _, s) := gettoken s es in
        let! cmd := backcmd cmd in
        back_loop f cmd s es
      else uret (cmd, s)
  end.

Fixpoint parseline (fuel : nat) (s es : Z) : U (Z * Z) :=
  match fuel with
  | O => unofuel
  | S f =>
      let! '(cmd, s) := parsepipe f s es in
      let! '(cmd, s) := back_loop str_fuel cmd s es in
      let! '(b, s) := peek s es (lit (str ";")) in
      if (b : bool) then
        let! '(_, _, _, s) := gettoken s es in
        let! '(rcmd, s) := parseline f s es in
        let! cmd := listcmd cmd rcmd in
        uret (cmd, s)
      else uret (cmd, s)
  end
with parsepipe (fuel : nat) (s es : Z) : U (Z * Z) :=
  match fuel with
  | O => unofuel
  | S f =>
      let! '(cmd, s) := parseexec f s es in
      let! '(b, s) := peek s es (lit (str "|")) in
      if (b : bool) then
        let! '(_, _, _, s) := gettoken s es in
        let! '(rcmd, s) := parsepipe f s es in
        let! cmd := pipecmd cmd rcmd in
        uret (cmd, s)
      else uret (cmd, s)
  end
with parseblock (fuel : nat) (s es : Z) : U (Z * Z) :=
  match fuel with
  | O => unofuel
  | S f =>
      let! '(b, s) := peek s es (lit (str "(")) in
      if negb b then panic (lit (str "parseblock")) else
      let! '(_, _, _, s) := gettoken s es in
      let! '(cmd, s) := parseline f s es in
      let! '(b, s) := peek s es (lit (str ")")) in
      if negb b then panic (lit (str "syntax - missing )")) else
      let! '(_, _, _, s) := gettoken s es in
      parseredirs cmd s es
  end
with parseexec (fuel : nat) (s es : Z) : U (Z * Z) :=
  match fuel with
  | O => unofuel
  | S f =>
      let! '(b, s) := peek s es (lit (str "(")) in
      if (b : bool) then parseblock f s es else
      let! ret := execcmd in
      let cmd := ret in
      let! '(ret, s) := parseredirs ret s es in
      let! '(argc, ret, s) := args_loop (S (Z.to_nat MAXARGS)) cmd 0 ret s es in
      do! store64 (argv_at cmd argc) 0;
      do! store64 (eargv_at cmd argc) 0;
      uret (ret, s)
  end.

(** for(i=0; ecmd->argv[i]; i++) *ecmd->eargv[i] = 0; *)
Fixpoint nul_args (fuel : nat) (ecmd i : Z) : U unit :=
  match fuel with
  | O => unofuel
  | S f =>
      let! a := load64 (argv_at ecmd i) in
      if a =? 0 then uret tt else
      let! e := load64 (eargv_at ecmd i) in
      do! store8 e 0;
      nul_args f ecmd (i + 1)
  end.

(** NUL-terminate all the counted strings. *)
Fixpoint nulterminate (fuel : nat) (cmd : Z) : U Z :=
  match fuel with
  | O => unofuel
  | S f =>
      if cmd =? 0 then uret 0 else
      let! type := load32 cmd in
      do! (if type =? EXEC then nul_args (S (Z.to_nat MAXARGS)) cmd 0
           else if type =? REDIR then
             let! c := load64 (cmd_at cmd) in
             do! nulterminate f c;
             let! e := load64 (efile_at cmd) in
             store8 e 0
           else if type =? PIPE then
             let! l := load64 (left_at cmd) in
             do! nulterminate f l;
             let! r := load64 (right_at cmd) in
             do! nulterminate f r;
             uret tt
           else if type =? LIST then
             let! l := load64 (left_at cmd) in
             do! nulterminate f l;
             let! r := load64 (right_at cmd) in
             do! nulterminate f r;
             uret tt
           else if type =? BACK then
             let! c := load64 (cmd_at cmd) in
             do! nulterminate f c;
             uret tt
           else uret tt);
      uret cmd
  end.

Definition parsecmd (s : Z) : U Z :=
  let! n := strlen s in
  let es := s + n in
  let! '(cmd, s) := parseline parse_fuel s es in
  let! '(_, s) := peek s es (lit []) in
  if negb (s =? es) then
    do! fprintf 2 (litln "leftovers: %s") [s];
    panic (lit (str "syntax"))
  else
    do! nulterminate parse_fuel cmd;
    uret cmd.

(** * Execution *)

(** Execute cmd.  Never returns. *)
Fixpoint runcmd (fuel : nat) (cmd : Z) : U unit :=
  match fuel with
  | O => unofuel
  | S f =>
      let p := var "runcmd.p" in
      if cmd =? 0 then exit 1 else
      let! type := load32 cmd in
      if type =? EXEC then
        let! a := load64 (argv_at cmd 0) in
        if a =? 0 then exit 1 else
        let! a := load64 (argv_at cmd 0) in
        do! exec a (argv_at cmd 0);
        let! a := load64 (argv_at cmd 0) in
        do! fprintf 2 (litln "exec %s failed") [a];
        exit 0
      else if type =? REDIR then
        let! fd := load32 (fd_at cmd) in
        do! close (i32 fd);
        let! file := load64 (file_at cmd) in
        let! mode := load32 (mode_at cmd) in
        let! r := open file (i32 mode) in
        if r <? 0 then
          let! file := load64 (file_at cmd) in
          do! fprintf 2 (litln "open %s failed") [file];
          exit 1
        else
          let! c := load64 (cmd_at cmd) in
          runcmd f c
      else if type =? LIST then
        let! pid := fork1 in
        if pid =? 0 then let! l := load64 (left_at cmd) in runcmd f l else
        do! wait 0;
        let! r := load64 (right_at cmd) in
        runcmd f r
      else if type =? PIPE then
        let! r := pipe p in
        if r <? 0 then panic (lit (str "pipe")) else
        let! pid := fork1 in
        if pid =? 0 then
          do! close 1;
          let! p1 := load32 (p + 4) in
          do! dup (i32 p1);
          let! p0 := load32 p in
          do! close (i32 p0);
          let! p1 := load32 (p + 4) in
          do! close (i32 p1);
          let! l := load64 (left_at cmd) in
          runcmd f l
        else
        let! pid := fork1 in
        if pid =? 0 then
          do! close 0;
          let! p0 := load32 p in
          do! dup (i32 p0);
          let! p0 := load32 p in
          do! close (i32 p0);
          let! p1 := load32 (p + 4) in
          do! close (i32 p1);
          let! r := load64 (right_at cmd) in
          runcmd f r
        else
        let! p0 := load32 p in
        do! close (i32 p0);
        let! p1 := load32 (p + 4) in
        do! close (i32 p1);
        do! wait 0;
        do! wait 0;
        exit 0
      else if type =? BACK then
        let! pid := fork1 in
        if pid =? 0 then let! c := load64 (cmd_at cmd) in runcmd f c else
        exit 0
      else panic (lit (str "runcmd"))
  end.

(** * The main loop *)

Definition getcmd (buf nbuf : Z) : U Z :=
  do! write 2 (lit (str "$ ")) 2;
  do! memset buf 0 nbuf;
  do! gets buf nbuf;
  let! c := load8 buf in
  if c =? 0 then uret (-1) else uret 0.

Definition sh_buf : Z := var "sh.buf".
Definition sh_bufsize : Z := 100.

(** while((fd = open("console", O_RDWR)) >= 0){ ... } *)
Fixpoint open_console (fuel : nat) : U unit :=
  match fuel with
  | O => unofuel
  | S f =>
      let! fd := open (lit (str "console")) O_RDWR in
      if 0 <=? fd then
        if 3 <=? fd then
          do! close fd;
          uret tt
        else open_console f
      else uret tt
  end.

(** while(getcmd(buf, sizeof(buf)) >= 0){ ... }; [fuel] bounds the number of commands *)
Fixpoint sh_loop (fuel : nat) : U unit :=
  match fuel with
  | O => unofuel
  | S f =>
      let buf := sh_buf in
      let! r := getcmd buf sh_bufsize in
      if 0 <=? r then
        let! c0 := load8 buf in
        let! c1 := load8 (buf + 1) in
        let! c2 := load8 (buf + 2) in
        if (c0 =? 99) && (c1 =? 100) && (c2 =? 32) then
          let! n := strlen buf in
          do! store8 (buf + n - 1) 0;
          let! r := chdir (buf + 3) in
          do! uwhen (r <? 0) (fprintf 2 (litln "cannot cd %s") [buf + 3]);
          sh_loop f
        else
          let! pid := fork1 in
          do! (if pid =? 0 then let! cmd := parsecmd buf in runcmd parse_fuel cmd else uret tt);
          do! wait 0;
          sh_loop f
      else uret tt
  end.

Definition sh_main (fuel : nat) : U Z :=
  do! open_console fuel;
  do! sh_loop fuel;
  exit 0.
End Shell.
