(* ===== verification/ShParse.v ===== *)
(** The language of the shell: tokens, a reference parser on them, and commands printed as tokens.

    The parser reads back what is printed ([parse_print]), and never runs out of fuel ([p_line_fuel]).  ShTree.v shows that parsecmd() of
    user/sh.c computes the same tree. *)

From Stdlib Require Import ZArith Lia.
From stdpp Require Import base gmap list_numbers strings numbers list.
From S2P Require Import Prelude Mem User Ulib Coreutils Sh.

Open Scope Z_scope.

(** * Commands *)

Inductive rkind : Type := RIn | ROut | RApp.

Inductive cmd : Type :=
| CExec (argv : list (list Z))
| CRedir (c : cmd) (file : list Z) (k : rkind)
| CPipe (l r : cmd)
| CList (l r : cmd)
| CBack (c : cmd).

#[global] Instance rkind_eq_dec : EqDecision rkind.
Proof. solve_decision. Defined.

(** * Tokens *)

Definition is_white (c : Z) : bool := bool_decide (c ∈ white_chars).
Definition is_symbol (c : Z) : bool := bool_decide (c ∈ symbol_chars).
Definition is_word (c : Z) : bool := negb (is_white c) && negb (is_symbol c).

Inductive token : Type := TLt | TGt | TApp | TPipe | TAmp | TSemi | TLpar | TRpar | TWord (w : list Z).

#[global] Instance token_eq_dec : EqDecision token.
Proof. solve_decision. Defined.

(** Leading blanks removed. *)
Fixpoint lstrip (l : list Z) : list Z :=
  match l with
  | c :: l' => if is_white c then lstrip l' else l
  | [] => []
  end.

(** The word at the start, and what follows. *)
Fixpoint span (l : list Z) : list Z * list Z :=
  match l with
  | c :: l' => if is_word c then let '(w, r) := span l' in (c :: w, r) else ([], l)
  | [] => ([], [])
  end.

Definition sym_token (c : Z) : option token :=
  if c =? 60 then Some TLt else if c =? 62 then Some TGt else if c =? 124 then Some TPipe else if c =? 38 then Some TAmp
  else if c =? 59 then Some TSemi else if c =? 40 then Some TLpar else if c =? 41 then Some TRpar else None.

(** The token at the start of stripped input. *)
Definition lex1 (l : list Z) : option (token * list Z) :=
  match l with
  | [] => None
  | c :: r =>
      match sym_token c with
      | Some TGt => match r with 62 :: r' => Some (TApp, r') | _ => Some (TGt, r) end
      | Some t => Some (t, r)
      | None => let '(w, r) := span l in Some (TWord w, r)
      end
  end.

Definition lex (l : list Z) : option (token * list Z) :=
  match lex1 (lstrip l) with Some (t, r) => Some (t, lstrip r) | None => None end.

Fixpoint tokens_n (n : nat) (l : list Z) : list token :=
  match n with
  | O => []
  | S n => match lex l with Some (t, r) => t :: tokens_n n r | None => [] end
  end.

Definition tokens (l : list Z) : list token := tokens_n (length l) l.

Lemma lstrip_length l : (length (lstrip l) <= length l)%nat.
Proof. induction l as [|c l IH]; simpl; [lia|]. case_match; simpl; lia. Qed.

Lemma lstrip_idem l : lstrip (lstrip l) = lstrip l.
Proof. induction l as [|c l IH]; simpl; [done|]. destruct (is_white c) eqn:E; [done|]. simpl. by rewrite E. Qed.

Lemma lstrip_head l c r : lstrip l = c :: r -> is_white c = false.
Proof. induction l as [|d l IH]; simpl; [done|]. destruct (is_white d) eqn:E; [done|]. intros [= -> ->]. done. Qed.

Lemma lstrip_suffix l : exists b, l = b ++ lstrip l /\ Forall (fun c => is_white c = true) b.
Proof.
  induction l as [|c l (b & E & Hb)]; simpl; [by exists []|]. destruct (is_white c) eqn:Ec.
  - exists (c :: b). split; [simpl; by f_equal|by constructor].
  - by exists [].
Qed.

Lemma span_spec l : let '(w, r) := span l in
  l = w ++ r /\ Forall (fun c => is_word c = true) w /\ (forall c r', r = c :: r' -> is_word c = false).
Proof.
  induction l as [|c l IH]; simpl; [done|]. destruct (is_word c) eqn:E.
  - destruct (span l) as [w r]. destruct IH as (-> & Hw & Hr). split; [done|]. split; [by constructor|done].
  - split; [done|]. split; [done|]. by intros d r' [= <- <-].
Qed.

Lemma sym_token_symbol c : is_symbol c = true <-> is_Some (sym_token c).
Proof.
  unfold is_symbol, sym_token. rewrite bool_decide_eq_true. change symbol_chars with [60; 124; 62; 38; 59; 40; 41].
  rewrite !elem_of_cons, elem_of_nil. split.
  - intros Hc. destruct_or! Hc; try done; subst; simpl; eauto.
  - intros [t Ht]. repeat (case_match; [lia|]). done.
Qed.

Definition good_word (w : list Z) : Prop := w <> [] /\ Forall (fun c => is_word c = true) w.

Lemma sym_token_no_word c w : sym_token c <> Some (TWord w).
Proof. unfold sym_token. by repeat case_match. Qed.

Lemma not_word_symbol c : is_word c = false -> is_white c = false -> is_symbol c = true.
Proof. unfold is_word. destruct (is_white c), (is_symbol c); done. Qed.

Lemma span_length c l w r : is_word c = true -> span (c :: l) = (w, r) -> (length r < length (c :: l))%nat /\ w <> [].
Proof.
  intros Hc H. pose proof (span_spec (c :: l)) as Hs. rewrite H in Hs. destruct Hs as (E & Hw & Hr). simpl in H. rewrite Hc in H.
  destruct (span l) as [w' r']. simplify_eq. rewrite E. simpl. rewrite length_app. split; [lia|done].
Qed.

Lemma lex1_length l t r : (forall c l', l = c :: l' -> is_white c = false) -> lex1 l = Some (t, r) -> (length r < length l)%nat.
Proof.
  destruct l as [|c l]; [done|]. intros Hw H. specialize (Hw c l eq_refl). simpl in H. destruct (sym_token c) as [u|] eqn:Ec.
  - assert (E : u = TGt \/ (t, r) = (u, l)) by (destruct u; simplify_eq; auto). destruct E as [->|E]; [|simplify_eq; simpl; lia].
    repeat (case_match; simplify_eq; simpl; try lia).
  - destruct (is_word c) eqn:Ew.
    + assert (Hs : exists w, span (c :: l) = (w, r)) by (simpl; rewrite Ew; case_match; simplify_eq; eauto).
      destruct Hs as [w Hs]. by apply span_length in Hs as [? _].
    + exfalso. apply not_word_symbol, sym_token_symbol in Ew as [? ?]; [congruence|done].
Qed.

Lemma lex1_word l w r : (forall c l', l = c :: l' -> is_white c = false) -> lex1 l = Some (TWord w, r) ->
  l = w ++ r /\ good_word w /\ forall c r', r = c :: r' -> is_word c = false.
Proof.
  destruct l as [|c l]; [done|]. intros Hw H. specialize (Hw c l eq_refl). cbn [lex1] in H. destruct (sym_token c) as [u|] eqn:Ec.
  - exfalso. destruct u; simplify_eq; [repeat case_match; simplify_eq|]. by apply sym_token_no_word in Ec.
  - pose proof (span_spec (c :: l)) as Hs. destruct (span (c :: l)) as [w' r'] eqn:Esp. simplify_eq. destruct Hs as (E & Hall & Hr).
    split; [done|]. split; [|done]. split; [|done]. intros ->. apply not_word_symbol, sym_token_symbol in Hw; [destruct Hw; congruence|].
    simpl in E. by apply (Hr c l).
Qed.

Lemma lex_length l t r : lex l = Some (t, r) -> (length r < length l)%nat.
Proof.
  unfold lex. pose proof (lstrip_length l). destruct (lex1 (lstrip l)) as [[t' r']|] eqn:E; [|done]. intros [= -> <-].
  apply lex1_length in E; [|by apply lstrip_head]. pose proof (lstrip_length r'). lia.
Qed.

Lemma tokens_n_enough n l : (length l <= n)%nat -> tokens_n n l = tokens l.
Proof.
  unfold tokens. revert l. induction n as [n IH] using lt_wf_ind. intros l Hl. destruct l as [|c l]; [by destruct n|].
  destruct n as [|n]; simpl in Hl; [lia|]. simpl. destruct (lex (c :: l)) as [[t r]|] eqn:E; [|done]. apply lex_length in E. simpl in E. f_equal.
  destruct (decide (length l = n)) as [->|]; [done|]. rewrite (IH n), (IH (length l)) by lia. done.
Qed.

Lemma tokens_lex l : tokens l = match lex l with Some (t, r) => t :: tokens r | None => [] end.
Proof.
  unfold tokens at 1. destruct l as [|c l]; [done|]. simpl. destruct (lex (c :: l)) as [[t r]|] eqn:E; [|done].
  apply lex_length in E. simpl in E. f_equal. apply tokens_n_enough. lia.
Qed.

Lemma tokens_length l : (length (tokens l) <= length l)%nat.
Proof.
  induction l as [l IH] using (induction_ltof1 _ (@length Z)). unfold ltof in IH. rewrite tokens_lex.
  destruct (lex l) as [[t r]|] eqn:E; simpl; [|lia]. apply lex_length in E. specialize (IH r E). lia.
Qed.

Lemma lex_strip l : lex (lstrip l) = lex l.
Proof. unfold lex. by rewrite lstrip_idem. Qed.

Lemma tokens_strip l : tokens (lstrip l) = tokens l.
Proof. rewrite (tokens_lex l), (tokens_lex (lstrip l)), lex_strip. done. Qed.

(** * The reference parser *)

(** What a parser gives: a result and the tokens that follow, a syntax error, or too little fuel. *)
Inductive pres (A : Type) : Type := POk (a : A) (ts : list token) | PErr | PFuel.
Arguments POk {A} a ts.
Arguments PErr {A}.
Arguments PFuel {A}.

Definition pbind {A B : Type} (p : pres A) (f : A -> list token -> pres B) : pres B :=
  match p with POk a ts => f a ts | PErr => PErr | PFuel => PFuel end.

Definition redir : Type := list Z * rkind.

(** A command with redirections, the last one outermost. *)
Definition wrap (rs : list redir) (c : cmd) : cmd := fold_left (fun c '(w, k) => CRedir c w k) rs c.

Definition rtoken (t : token) : option rkind :=
  match t with TLt => Some RIn | TGt => Some ROut | TApp => Some RApp | _ => None end.

Fixpoint p_redirs (rs : list redir) (ts : list token) : pres (list redir) :=
  match ts with
  | t :: ts1 =>
      match rtoken t with
      | Some k => match ts1 with TWord w :: ts2 => p_redirs (rs ++ [(w, k)]) ts2 | _ => PErr end
      | None => POk rs ts
      end
  | [] => POk rs []
  end.

(** The arguments of a command, at most [n], with redirections among them. *)
Fixpoint p_args (n : nat) (argv : list (list Z)) (rs : list redir) (ts : list token) : pres (list (list Z) * list redir) :=
  match ts with
  | [] | TPipe :: _ | TRpar :: _ | TAmp :: _ | TSemi :: _ => POk (argv, rs) ts
  | TWord w :: ts =>
      match n with
      | O => PErr
      | S n => pbind (p_redirs rs ts) (fun rs ts => p_args n (argv ++ [w]) rs ts)
      end
  | _ => PErr
  end.

Fixpoint p_amps (c : cmd) (ts : list token) : cmd * list token :=
  match ts with TAmp :: ts => p_amps (CBack c) ts | _ => (c, ts) end.

(** line: pipe {"&"} [";" line]; pipe: exec ["|" pipe]; exec: "(" line ")" {redirection} or words and redirections *)
Fixpoint p_line (fuel : nat) (ts : list token) : pres cmd :=
  match fuel with
  | O => PFuel
  | S f => pbind (p_pipe f ts) (fun c ts =>
      let '(c, ts) := p_amps c ts in
      match ts with
      | TSemi :: ts => pbind (p_line f ts) (fun r ts => POk (CList c r) ts)
      | _ => POk c ts
      end)
  end
with p_pipe (fuel : nat) (ts : list token) : pres cmd :=
  match fuel with
  | O => PFuel
  | S f => pbind (p_exec f ts) (fun c ts =>
      match ts with
      | TPipe :: ts => pbind (p_pipe f ts) (fun r ts => POk (CPipe c r) ts)
      | _ => POk c ts
      end)
  end
with p_block (fuel : nat) (ts : list token) : pres cmd :=
  match fuel with
  | O => PFuel
  | S f =>
      match ts with
      | TLpar :: ts => pbind (p_line f ts) (fun c ts =>
          match ts with
          | TRpar :: ts => pbind (p_redirs [] ts) (fun rs ts => POk (wrap rs c) ts)
          | _ => PErr
          end)
      | _ => PErr
      end
  end
with p_exec (fuel : nat) (ts : list token) : pres cmd :=
  match fuel with
  | O => PFuel
  | S f =>
      match ts with
      | TLpar :: _ => p_block f ts
      | _ =>
          pbind (p_redirs [] ts) (fun rs ts =>
          pbind (p_args 9 [] rs ts) (fun '(argv, rs) ts => POk (wrap rs (CExec argv)) ts))
      end
  end.

(** The command of a line: all of its tokens. *)
Definition parse (l : list Z) : option cmd :=
  match p_line (4 * length l + 4) (tokens l) with
  | POk c [] => Some c
  | _ => None
  end.

(** What remains is no longer, and fuel for every token is enough. *)
Definition shorter {A : Type} (p : pres A) (ts : list token) (d : nat) : Prop :=
  p <> PFuel /\ forall a ts', p = POk a ts' -> (length ts' + d <= length ts)%nat.

Lemma pbind_shorter {A B : Type} (p : pres A) (f : A -> list token -> pres B) ts d :
  shorter p ts d -> (forall a ts', (length ts' + d <= length ts)%nat -> shorter (f a ts') ts d) -> shorter (pbind p f) ts d.
Proof. intros [H1 H2] Hf. destruct p as [a ts'| |]; [apply Hf; by apply (H2 a)|done|done]. Qed.

Lemma shorter_ok {A : Type} (a : A) ts' ts d : (length ts' + d <= length ts)%nat -> shorter (POk a ts') ts d.
Proof. intros H. split; [done|]. by intros ? ? [= <- <-]. Qed.

Lemma shorter_err {A : Type} ts d : shorter (PErr : pres A) ts d.
Proof. done. Qed.

Lemma shorter_mono {A : Type} (p : pres A) ts ts' d d' :
  shorter p ts d -> (length ts + d' <= length ts' + d)%nat -> shorter p ts' d'.
Proof. intros [H1 H2] Hl. split; [done|]. intros a t E. specialize (H2 a t E). lia. Qed.

Lemma p_redirs_shorter rs ts : shorter (p_redirs rs ts) ts 0.
Proof.
  revert rs. induction ts as [ts IH] using (induction_ltof1 _ (@length token)). unfold ltof in IH. intros rs. destruct ts as [|t ts]; [by apply shorter_ok|].
  simpl. destruct (rtoken t) as [k|]; [|apply shorter_ok; simpl; lia]. destruct ts as [|[] ts]; try apply shorter_err.
  apply (shorter_mono _ ts _ 0); [apply IH; simpl; lia|simpl; lia].
Qed.

Lemma p_args_shorter n argv rs ts : shorter (p_args n argv rs ts) ts 0.
Proof.
  revert argv rs ts. induction n as [|n IH]; intros argv rs [|[] ts]; simpl; try apply shorter_err; try (apply shorter_ok; simpl; lia).
  apply pbind_shorter; [apply (shorter_mono _ ts _ 0); [apply p_redirs_shorter|simpl; lia]|].
  intros rs' ts' H. apply (shorter_mono _ ts' _ 0); [apply IH|simpl in *; lia].
Qed.

Lemma p_amps_length c ts : (length (p_amps c ts).2 <= length ts)%nat.
Proof. revert c. induction ts as [|[] ts IH]; intros c; simpl; try lia. etransitivity; [apply IH|lia]. Qed.

Lemma p_fuel fuel :
  (forall ts, (4 * length ts + 3 < fuel)%nat -> shorter (p_line fuel ts) ts 0) /\
  (forall ts, (4 * length ts + 2 < fuel)%nat -> shorter (p_pipe fuel ts) ts 0) /\
  (forall ts, (4 * length ts < fuel)%nat -> shorter (p_block fuel ts) ts 0) /\
  (forall ts, (4 * length ts + 1 < fuel)%nat -> shorter (p_exec fuel ts) ts 0).
Proof.
  induction fuel as [|f (IHl & IHp & IHb & IHe)]; [split_and!; intros; lia|]. split_and!; intros ts Hf.
  - cbn [p_line]. apply pbind_shorter; [apply IHp; lia|]. intros c ts1 H1. pose proof (p_amps_length c ts1) as Ha. destruct (p_amps c ts1) as [c2 ts2].
    simpl in Ha. destruct ts2 as [|[] ts3]; try (apply shorter_ok; lia). simpl in Ha.
    apply (shorter_mono _ ts3 _ 0); [|lia]. apply pbind_shorter; [apply IHl; lia|]. intros r ts4 H4. apply shorter_ok. lia.
  - cbn [p_pipe]. apply pbind_shorter; [apply IHe; lia|]. intros c ts1 H1. destruct ts1 as [|[] ts1]; try (apply shorter_ok; lia). simpl in H1.
    apply (shorter_mono _ ts1 _ 0); [|lia]. apply pbind_shorter; [apply IHp; lia|]. intros r ts4 H4. apply shorter_ok. lia.
  - cbn [p_block]. destruct ts as [|[] ts]; try apply shorter_err. simpl in Hf. apply (shorter_mono _ ts _ 0); [|simpl; lia].
    apply pbind_shorter; [apply IHl; lia|]. intros c ts1 H1. destruct ts1 as [|[] ts1]; try apply shorter_err. simpl in H1.
    apply (shorter_mono _ ts1 _ 0); [|lia]. apply pbind_shorter; [apply p_redirs_shorter|]. intros rs ts2 H2. apply shorter_ok. lia.
  - assert (H : shorter (pbind (p_redirs [] ts) (fun rs ts => pbind (p_args 9 [] rs ts) (fun '(argv, rs) ts => POk (wrap rs (CExec argv)) ts))) ts 0).
    { apply pbind_shorter; [apply p_redirs_shorter|]. intros rs ts1 H1. apply (shorter_mono _ ts1 _ 0); [|lia].
      apply pbind_shorter; [apply p_args_shorter|]. intros [argv rs'] ts2 H2. apply shorter_ok. lia. }
    cbn [p_exec]. destruct ts as [|[] ts]; try exact H. apply IHb. lia.
Qed.

(** The number of structures of a command, which is bounded by the number of tokens. *)
Fixpoint size (c : cmd) : nat :=
  match c with
  | CExec _ => 1
  | CRedir c _ _ | CBack c => S (size c)
  | CPipe l r | CList l r => S (size l + size r)
  end.

Lemma size_wrap rs c : size (wrap rs c) = (length rs + size c)%nat.
Proof. revert c. induction rs as [|[w k] rs IH]; intros c; simpl; [done|]. rewrite IH. simpl. lia. Qed.

Lemma p_redirs_size rs ts rs' ts' : p_redirs rs ts = POk rs' ts' -> (length rs' + 2 * length ts' <= length rs + 2 * length ts)%nat.
Proof.
  revert rs. induction ts as [ts IH] using (induction_ltof1 _ (@length token)). unfold ltof in IH. intros rs. destruct ts as [|t ts]; simpl; [by intros [= <- <-]|].
  destruct (rtoken t) as [k|]; [|intros [= <- <-]; simpl; lia]. destruct ts as [|[] ts]; try done. intros H. apply IH in H; [|simpl; lia].
  rewrite length_app in H. simpl in *. lia.
Qed.

Lemma p_args_size n argv rs ts argv' rs' ts' : p_args n argv rs ts = POk (argv', rs') ts' -> (length rs' + 2 * length ts' <= length rs + 2 * length ts)%nat.
Proof.
  revert argv rs ts. induction n as [|n IH]; intros argv rs [|[] ts]; simpl; try done; try (intros [= <- <- <-]; simpl; lia).
  destruct (p_redirs rs ts) as [rs1 ts1| |] eqn:E; simpl; try done. intros H. apply IH in H. apply p_redirs_size in E. lia.
Qed.

Lemma p_amps_size c ts c' ts' : p_amps c ts = (c', ts') -> (size c' + 2 * length ts' <= size c + 2 * length ts)%nat.
Proof. revert c. induction ts as [|[] ts IH]; intros c; simpl; try (intros [= <- <-]; simpl; lia). intros H. apply IH in H. simpl in H. lia. Qed.

Lemma p_size f :
  (forall ts c ts', p_line f ts = POk c ts' -> (size c + 2 * length ts' <= 2 * length ts + 1)%nat) /\
  (forall ts c ts', p_pipe f ts = POk c ts' -> (size c + 2 * length ts' <= 2 * length ts + 1)%nat) /\
  (forall ts c ts', p_block f ts = POk c ts' -> (size c + 2 * length ts' <= 2 * length ts + 1)%nat) /\
  (forall ts c ts', p_exec f ts = POk c ts' -> (size c + 2 * length ts' <= 2 * length ts + 1)%nat).
Proof.
  induction f as [|f (IHl & IHp & IHb & IHe)]; [done|]. split_and!; intros ts c ts'.
  - cbn [p_line]. destruct (p_pipe f ts) as [c1 ts1| |] eqn:E; cbn [pbind]; try done. apply IHp in E.
    destruct (p_amps c1 ts1) as [c2 ts2] eqn:Ea. apply p_amps_size in Ea. destruct ts2 as [|[] ts3]; try (intros [= <- <-]; simpl in *; lia).
    destruct (p_line f ts3) as [c3 ts4| |] eqn:E3; cbn [pbind]; try done. apply IHl in E3. intros [= <- <-]. simpl in *. lia.
  - cbn [p_pipe]. destruct (p_exec f ts) as [c1 ts1| |] eqn:E; cbn [pbind]; try done. apply IHe in E.
    destruct ts1 as [|[] ts3]; try (intros [= <- <-]; simpl in *; lia).
    destruct (p_pipe f ts3) as [c3 ts4| |] eqn:E3; cbn [pbind]; try done. apply IHp in E3. intros [= <- <-]. simpl in *. lia.
  - cbn [p_block]. destruct ts as [|[] ts]; try done. destruct (p_line f ts) as [c1 ts1| |] eqn:E; cbn [pbind]; try done. apply IHl in E.
    destruct ts1 as [|[] ts1]; try done. destruct (p_redirs [] ts1) as [rs ts2| |] eqn:Er; cbn [pbind]; try done. apply p_redirs_size in Er.
    intros [= <- <-]. rewrite size_wrap. simpl in *. lia.
  - assert (H : pbind (p_redirs [] ts) (fun rs ts => pbind (p_args 9 [] rs ts) (fun '(argv, rs) ts => POk (wrap rs (CExec argv)) ts)) = POk c ts' ->
      (size c + 2 * length ts' <= 2 * length ts + 1)%nat).
    { destruct (p_redirs [] ts) as [rs ts1| |] eqn:Er; cbn [pbind]; try done. apply p_redirs_size in Er.
      destruct (p_args 9 [] rs ts1) as [[argv rs2] ts2| |] eqn:Ea; cbn [pbind]; try done. apply p_args_size in Ea.
      intros [= <- <-]. rewrite size_wrap. simpl in *. lia. }
    cbn [p_exec]. destruct ts as [|[] ts]; try exact H. apply IHb.
Qed.

(** More fuel gives the same result. *)
Definition settled {A : Type} (p q : pres A) : Prop := p = PFuel \/ q = p.

Lemma pbind_settled {A B : Type} (p q : pres A) (f g : A -> list token -> pres B) :
  settled p q -> (forall a ts, settled (f a ts) (g a ts)) -> settled (pbind p f) (pbind q g).
Proof. intros [-> | ->] H; [by left|]. destruct p; simpl; [apply H|by right|by left]. Qed.

Lemma settled_refl {A : Type} (p : pres A) : settled p p.
Proof. by right. Qed.

Lemma p_settled f :
  (forall ts, settled (p_line f ts) (p_line (S f) ts)) /\ (forall ts, settled (p_pipe f ts) (p_pipe (S f) ts)) /\
  (forall ts, settled (p_block f ts) (p_block (S f) ts)) /\ (forall ts, settled (p_exec f ts) (p_exec (S f) ts)).
Proof.
  induction f as [|f (IHl & IHp & IHb & IHe)]; [split_and!; intros ts; by left|]. split_and!; intros ts.
  - change (settled (pbind (p_pipe f ts) (fun c ts => let '(c, ts) := p_amps c ts in match ts with TSemi :: ts => pbind (p_line f ts) (fun r ts => POk (CList c r) ts) | _ => POk c ts end))
                    (pbind (p_pipe (S f) ts) (fun c ts => let '(c, ts) := p_amps c ts in match ts with TSemi :: ts => pbind (p_line (S f) ts) (fun r ts => POk (CList c r) ts) | _ => POk c ts end))).
    apply pbind_settled; [apply IHp|]. intros c ts1. destruct (p_amps c ts1) as [c2 ts2]. destruct ts2 as [|[] ts3]; try apply settled_refl.
    apply pbind_settled; [apply IHl|]. intros. apply settled_refl.
  - change (settled (pbind (p_exec f ts) (fun c ts => match ts with TPipe :: ts => pbind (p_pipe f ts) (fun r ts => POk (CPipe c r) ts) | _ => POk c ts end))
                    (pbind (p_exec (S f) ts) (fun c ts => match ts with TPipe :: ts => pbind (p_pipe (S f) ts) (fun r ts => POk (CPipe c r) ts) | _ => POk c ts end))).
    apply pbind_settled; [apply IHe|]. intros c ts1. destruct ts1 as [|[] ts3]; try apply settled_refl.
    apply pbind_settled; [apply IHp|]. intros. apply settled_refl.
  - destruct ts as [|[] ts]; try apply settled_refl. apply pbind_settled; [apply IHl|]. intros. apply settled_refl.
  - destruct ts as [|[] ts]; try apply settled_refl. apply IHb.
Qed.

Lemma p_line_more f f' ts : (f <= f')%nat -> p_line f ts <> PFuel -> p_line f' ts = p_line f ts.
Proof.
  intros Hf Hn. induction Hf as [|f' Hf IH]; [done|]. destruct (proj1 (p_settled f') ts) as [E|E]; [congruence|]. by rewrite E.
Qed.

(** * Commands as tokens *)

Definition redir_token (k : rkind) : token := match k with RIn => TLt | ROut => TGt | RApp => TApp end.

Definition paren (b : bool) (ts : list token) : list token := if b then TLpar :: ts ++ [TRpar] else ts.

(** The tokens of a command where the grammar has an exec (0), a pipe (1), a pipe with "&" (2) or a line (3). *)
Fixpoint print (lvl : nat) (c : cmd) : list token :=
  match c with
  | CExec argv => TWord <$> argv
  | CRedir c w k => print 0 c ++ [redir_token k; TWord w]
  | CPipe l r => paren (lvl <? 1)%nat (print 0 l ++ TPipe :: print 1 r)
  | CBack c => paren (lvl <? 2)%nat (print 2 c ++ [TAmp])
  | CList l r => paren (lvl <? 3)%nat (print 2 l ++ TSemi :: print 3 r)
  end.

(** At most nine arguments. *)
Fixpoint fits (c : cmd) : Prop :=
  match c with
  | CExec argv => (length argv <= 9)%nat
  | CRedir c _ _ | CBack c => fits c
  | CPipe l r | CList l r => fits l /\ fits r
  end.

Definition redir_tokens (rs : list redir) : list token := rs ≫= fun '(w, k) => [redir_token k; TWord w].

(** The tokens that may follow an exec, a pipe, a pipe with "&", and a line. *)
Definition ends (lvl : nat) (ts : list token) : Prop :=
  match ts with
  | [] | TRpar :: _ => True
  | TSemi :: _ => (lvl <= 2)%nat
  | TAmp :: _ => (lvl <= 1)%nat
  | TPipe :: _ => (lvl = 0)%nat
  | _ => False
  end.

Lemma ends_mono l l' ts : (l <= l')%nat -> ends l' ts -> ends l ts.
Proof. destruct ts as [|[] ts]; simpl; lia || done. Qed.

Lemma p_redirs_print rs rs0 ts : ends 0 ts \/ (exists w r, ts = TWord w :: r) -> p_redirs rs0 (redir_tokens rs ++ ts) = POk (rs0 ++ rs) ts.
Proof.
  intros Ht. revert rs0. induction rs as [|[w k] rs IH]; intros rs0; simpl.
  - rewrite app_nil_r. destruct Ht as [Ht|(w & r & ->)]; [|done]. by destruct ts as [|[] ts].
  - assert (Hk : rtoken (redir_token k) = Some k) by (by destruct k). rewrite Hk. change (p_redirs (rs0 ++ [(w, k)]) (redir_tokens rs ++ ts) = POk (rs0 ++ (w, k) :: rs) ts).
    by rewrite IH, <- app_assoc.
Qed.

Lemma p_args_print rs argv argv0 n ts : ends 0 ts -> (length argv <= n)%nat -> argv <> [] ->
  p_args n argv0 [] ((TWord <$> argv) ++ redir_tokens rs ++ ts) = POk (argv0 ++ argv, rs) ts.
Proof.
  intros Ht. revert n argv0. induction argv as [|w argv IH]; intros [|n] argv0 Hn Hne; simpl in Hn; try lia; [done|done|]. simpl.
  destruct argv as [|w' argv].
  - simpl. rewrite p_redirs_print by (by left). simpl. destruct n; destruct ts as [|[] ts]; done.
  - etransitivity; [apply (IH n (argv0 ++ [w])); [simpl in *; lia|done]|by rewrite <- app_assoc].
Qed.

(** What the parser of a level does on the tokens of [c], with enough fuel. *)
Definition eventually (P : nat -> Prop) : Prop := exists f0, forall f, (f0 <= f)%nat -> P f.

Definition reads_exec (c : cmd) : Prop := forall rs ts, ends 0 ts ->
  eventually (fun f => p_exec f (print 0 c ++ redir_tokens rs ++ ts) = POk (wrap rs c) ts).
Definition reads_pipe (c : cmd) : Prop := forall ts, ends 1 ts -> eventually (fun f => p_pipe f (print 1 c ++ ts) = POk c ts).
Definition reads_back (c : cmd) : Prop := forall n ts, ends 2 ts -> eventually (fun f => exists c' ts',
  p_pipe f (print 2 c ++ repeat TAmp n ++ ts) = POk c' ts' /\ p_amps c' ts' = (Nat.iter n CBack c, ts)).
Definition reads_line (c : cmd) : Prop := forall ts, ends 3 ts -> eventually (fun f => p_line f (print 3 c ++ ts) = POk c ts).

Lemma eventually_S P : eventually (fun f => P (S f)) -> eventually P.
Proof. intros [f0 H]. exists (S f0). intros [|f] Hf; [lia|]. apply H. lia. Qed.

Lemma eventually_and P Q R : eventually P -> eventually Q -> (forall f, P f -> Q f -> R f) -> eventually R.
Proof. intros [f1 H1] [f2 H2] HR. exists (f1 + f2)%nat. intros f Hf. apply HR; [apply H1|apply H2]; lia. Qed.

Lemma eventually_mono P Q : eventually P -> (forall f, P f -> Q f) -> eventually Q.
Proof. intros H HQ. apply (eventually_and P P Q H H). auto. Qed.

(** From one level to the next, where the command is printed alike. *)
Lemma pipe_of_exec c : print 1 c = print 0 c -> reads_exec c -> reads_pipe c.
Proof.
  intros E H ts Ht. apply eventually_S. apply (eventually_mono _ _ (H [] ts (ends_mono 0 1 ts ltac:(lia) Ht))). intros f Hf.
  rewrite E. cbn [p_pipe]. simpl in Hf. rewrite Hf. cbn [pbind]. by destruct ts as [|[] ts].
Qed.

Lemma p_amps_repeat n c ts : ends 2 ts -> p_amps c (repeat TAmp n ++ ts) = (Nat.iter n CBack c, ts).
Proof.
  intros Ht. revert c. induction n as [|n IH]; intros c; simpl; [by destruct ts as [|[] ts]; simpl in Ht; try lia|].
  rewrite IH. by rewrite <- Nat.iter_succ_r.
Qed.

Lemma back_of_pipe c : print 2 c = print 1 c -> reads_pipe c -> reads_back c.
Proof.
  intros E H n ts Ht. assert (H1 : ends 1 (repeat TAmp n ++ ts)) by (destruct n; [by apply (ends_mono 1 2); [lia|]|simpl; lia]).
  apply (eventually_mono _ _ (H _ H1)). intros f Hf. rewrite E. exists c, (repeat TAmp n ++ ts). split; [done|by apply p_amps_repeat].
Qed.

Lemma line_of_back c : print 3 c = print 2 c -> reads_back c -> reads_line c.
Proof.
  intros E H ts Ht. apply eventually_S. apply (eventually_mono _ _ (H 0%nat ts (ends_mono 2 3 ts ltac:(lia) Ht))). intros f (c' & ts' & Hp & Ha).
  rewrite E. cbn [p_line]. simpl in Hp. rewrite Hp. cbn [pbind]. rewrite Ha. simpl. by destruct ts as [|[] ts]; simpl in Ht; try lia.
Qed.

(** A command in parentheses. *)
Lemma exec_of_line c : print 0 c = TLpar :: print 3 c ++ [TRpar] -> reads_line c -> reads_exec c.
Proof.
  intros E H rs ts Ht. apply eventually_S, eventually_S. apply (eventually_mono _ _ (H (TRpar :: redir_tokens rs ++ ts) I)). intros f Hf.
  rewrite E. cbn [p_exec p_block app]. rewrite <- app_assoc. cbn [app]. rewrite Hf. cbn [pbind]. rewrite p_redirs_print by (by left). done.
Qed.

Lemma reads_words argv : (length argv <= 9)%nat -> reads_exec (CExec argv).
Proof.
  intros Hn rs ts Ht. apply eventually_S. exists 0%nat. intros f _. cbn [print].
  assert (E : pbind (p_redirs [] ((TWord <$> argv) ++ redir_tokens rs ++ ts)) (fun rs ts =>
     pbind (p_args 9 [] rs ts) (fun '(argv, rs) ts => POk (wrap rs (CExec argv)) ts)) = POk (wrap rs (CExec argv)) ts).
  - destruct argv as [|w argv].
    + simpl. rewrite p_redirs_print by (by left). simpl. by destruct ts as [|[] ts].
    + etransitivity; [|exact (f_equal (fun p => pbind p (fun '(argv, rs) ts => POk (wrap rs (CExec argv)) ts)) (p_args_print rs (w :: argv) [] 9 ts Ht Hn ltac:(done)))]. done.
  - cbn [p_exec]. destruct argv as [|w argv]; [|exact E]. destruct rs as [|[w []] rs]; try exact E. destruct ts as [|[] ts]; exact E || done.
Qed.

Lemma reads_all c : fits c -> reads_exec c /\ reads_pipe c /\ reads_back c /\ reads_line c.
Proof.
  induction c as [argv|c IH w k|l IHl r IHr|l IHl r IHr|c IH]; intros Hc; simpl in Hc.
  - assert (E : reads_exec (CExec argv)) by (by apply reads_words). assert (P : reads_pipe (CExec argv)) by (by apply pipe_of_exec).
    assert (B : reads_back (CExec argv)) by (by apply back_of_pipe). split_and!; try done. by apply line_of_back.
  - destruct (IH Hc) as (IE & _). assert (E : reads_exec (CRedir c w k)).
    { intros rs ts Ht. apply (eventually_mono _ _ (IE ((w, k) :: rs) ts Ht)). intros f Hf. cbn [print]. rewrite <- app_assoc. exact Hf. }
    assert (P : reads_pipe (CRedir c w k)) by (by apply pipe_of_exec).
    assert (B : reads_back (CRedir c w k)) by (by apply back_of_pipe). split_and!; try done. by apply line_of_back.
  - destruct (IHl (proj1 Hc)) as (IE & _). destruct (IHr (proj2 Hc)) as (_ & IP & _). assert (P : reads_pipe (CPipe l r)).
    { intros ts Ht. apply eventually_S. apply (eventually_and _ _ _ (IE [] (TPipe :: print 1 r ++ ts) eq_refl) (IP ts Ht)). intros f H1 H2.
      cbn [print paren Nat.ltb Nat.leb]. rewrite <- app_assoc. cbn [p_pipe app]. simpl in H1. rewrite H1. cbn [pbind]. by rewrite H2. }
    assert (B : reads_back (CPipe l r)) by (by apply back_of_pipe). assert (L : reads_line (CPipe l r)) by (by apply line_of_back).
    split_and!; try done. by apply exec_of_line.
  - destruct (IHl (proj1 Hc)) as (_ & _ & IB & _). destruct (IHr (proj2 Hc)) as (_ & _ & _ & IL). assert (L : reads_line (CList l r)).
    { intros ts Ht. apply eventually_S.
      apply (eventually_and _ _ _ (IB 0%nat (TSemi :: print 3 r ++ ts) ltac:(simpl; lia)) (IL ts Ht)). intros f (c' & ts' & H1 & Ha) H2.
      cbn [print paren Nat.ltb Nat.leb]. rewrite <- app_assoc. cbn [p_line app]. simpl in H1. rewrite H1. cbn [pbind]. rewrite Ha. by rewrite H2. }
    assert (E : reads_exec (CList l r)) by (by apply exec_of_line). assert (P : reads_pipe (CList l r)) by (by apply pipe_of_exec).
    split_and!; try done. by apply back_of_pipe.
  - destruct (IH Hc) as (_ & _ & IB & _). assert (B : reads_back (CBack c)).
    { intros n ts Ht. apply (eventually_mono _ _ (IB (S n) ts Ht)). intros f (c' & ts' & H1 & Ha). exists c', ts'. split.
      - cbn [print paren Nat.ltb Nat.leb]. rewrite <- app_assoc. exact H1.
      - rewrite Ha. by rewrite Nat.iter_succ_r. }
    assert (L : reads_line (CBack c)) by (by apply line_of_back). assert (E : reads_exec (CBack c)) by (by apply exec_of_line).
    split_and!; try done. by apply pipe_of_exec.
Qed.

(** The parser reads back a printed command, in whatever way the line is laid out. *)
Lemma parse_print c l : fits c -> tokens l = print 3 c -> parse l = Some c.
Proof.
  intros Hc E. destruct (reads_all c Hc) as (_ & _ & _ & HL). destruct (HL [] I) as [f0 H]. rewrite app_nil_r in H.
  unfold parse. rewrite E. pose proof (tokens_length l) as Hlen. rewrite E in Hlen.
  destruct (proj1 (p_fuel (4 * length l + 4)) (print 3 c)) as [Hn _]; [lia|].
  rewrite <- (p_line_more (4 * length l + 4) (f0 + (4 * length l + 4)) (print 3 c)); [|lia|exact Hn]. rewrite H by lia. done.
Qed.

(** Tokens as text, each followed by a blank. *)
Definition text (t : token) : list Z :=
  match t with
  | TLt => [60] | TGt => [62] | TApp => [62; 62] | TPipe => [124] | TAmp => [38] | TSemi => [59] | TLpar => [40] | TRpar => [41]
  | TWord w => w
  end.

Definition unlex (ts : list token) : list Z := ts ≫= fun t => text t ++ [32].

Definition good_token (t : token) : Prop := match t with TWord w => good_word w | _ => True end.

Lemma span_app w c r : Forall (fun c => is_word c = true) w -> is_word c = false -> span (w ++ c :: r) = (w, c :: r).
Proof. induction 1 as [|d w Hd _ IH]; intros Hc; simpl; [by rewrite Hc|]. rewrite Hd. by rewrite IH. Qed.

Lemma word_not_symbol c : is_word c = true -> is_white c = false /\ sym_token c = None.
Proof.
  unfold is_word. destruct (is_white c), (is_symbol c) eqn:E; try done. intros _. split; [done|].
  destruct (sym_token c) eqn:Et; [|done]. assert (is_symbol c = true) by (apply sym_token_symbol; eauto). congruence.
Qed.

Lemma lex_text t r : good_token t -> lex (text t ++ 32 :: r) = Some (t, lstrip r).
Proof.
  intros Ht. unfold lex. destruct t as [| | | | | | | |w]; try done. destruct Ht as [Hne Hw]. destruct w as [|c w]; [done|].
  pose proof Hw as Hall. apply Forall_cons in Hw as [Hc Hw]. destruct (word_not_symbol c Hc) as [Hb Hs].
  assert (E : lstrip ((c :: w) ++ 32 :: r) = (c :: w) ++ 32 :: r) by (simpl; by rewrite Hb).
  cbn [text]. rewrite E. cbn [app lex1]. rewrite Hs. change (c :: w ++ 32 :: r) with ((c :: w) ++ 32 :: r). by rewrite (span_app (c :: w) 32 r Hall eq_refl).
Qed.

Lemma tokens_unlex ts : Forall good_token ts -> tokens (unlex ts) = ts.
Proof.
  induction 1 as [|t ts Ht _ IH]; [done|]. rewrite tokens_lex. unfold unlex. cbn [mbind list_bind]. rewrite <- app_assoc. cbn [app].
  rewrite (lex_text t _ Ht), tokens_strip. f_equal. exact IH.
Qed.
