(* ===== verification/ShLex.v ===== *)
(** The lexer of user/sh.c: gettoken() and peek() on a line in memory compute the tokens of ShParse.v, and the places of the words. *)

From Stdlib Require Import ZArith Lia.
From stdpp Require Import base gmap list_numbers strings numbers list.
From S2P Require Import Prelude Mem User Ulib UlibSpec Coreutils Umalloc Arena Sh ShParse.

Open Scope Z_scope.
Open Scope user_scope.

(** * Memory while the shell parses *)

(** The literals of the parser. *)
Definition sh_literals : list (list Z) :=
  [str "<>"; str "|)&;"; str "&"; str ";"; str "|"; str "("; str ")"; [];
   str "missing file for redirection"; str "syntax"; str "too many args"; str "parseblock"; str "syntax - missing )";
   str "%s" ++ [10]; str "leftovers: %s" ++ [10]].

Ltac sh_literal := apply (bool_decide_eq_true_1 _); vm_compute; reflexivity.

Section Lexer.
Context {IM : Image} {OS : Os} {AR : Arena} {SD : Stdio 0 2} (buf : Z) (l0 : list Z).
Implicit Types (m : mem) (s : os) (l : list Z).

(** The strings that the parser reads, the line [l0] at [buf] among them. *)
Definition sh_strings : list (Z * list Z) :=
  (buf, l0) :: (whitespace, white_chars) :: (symbols, symbol_chars) :: ((fun t => (lit t, t)) <$> sh_literals).

(** They lie where the allocator and putc() do not write. *)
Definition sited : Prop := forall a t, (a, t) ∈ sh_strings ->
  0 < a /\ a + Z.of_nat (length t) < 2 ^ 64 /\ (length t + 1 < str_fuel)%nat /\
  forall v, a <= v <= a + Z.of_nat (length t) -> outside v /\ v <> var "putc.c".

Definition ready m : Prop := forall a t, (a, t) ∈ sh_strings -> cstr_at m a t.

Context (Hsited : sited).

Lemma ready_frame m m' : ready m -> (forall v, outside v -> ld8 m' v = ld8 m v) -> ready m'.
Proof. intros H Hm a t Ht. apply (cstr_ext m); [|by apply H]. intros v Hv. apply Hm. by apply (Hsited a t Ht). Qed.

Lemma in_literals t : t ∈ sh_literals -> (lit t, t) ∈ sh_strings.
Proof. intros Ht. unfold sh_strings. rewrite !elem_of_cons. do 3 right. apply list_elem_of_fmap. by exists t. Qed.

Lemma ready_ustring m a t : ready m -> (a, t) ∈ sh_strings -> ustring m a t.
Proof.
  intros H Ht. destruct (Hsited a t Ht) as (_ & _ & Hl & Hv). split; [by apply H|]. split; [|lia]. intros Hp. by destruct (Hv _ Hp).
Qed.

(** panic() prints a message and ends the process with status 1. *)
Lemma panic_exits {A : Type} t m s (Q : A -> mem -> os -> Prop) (E : Z -> os -> Prop) :
  ready m -> (t <> [] /\ t ∈ sh_literals) -> (forall s', E 1 s') -> uwp (panic (lit t) m) s Q E.
Proof.
  intros H [Hne Ht] HE. unfold panic. apply uwp_bind. pose proof (in_literals t Ht) as Hlit.
  apply (fprintf_emits 0 2 m (litln "%s") [PStr (lit t) t; PText 10]).
  - constructor; [|by repeat constructor]. split; [|by apply ready_ustring]. destruct (Hsited _ _ Hlit). lia.
  - apply ready_ustring; [done|]. apply in_literals. sh_literal.
  - by intros a Ha.
  - intros m' s' _ _ _. apply HE.
Qed.

(** * Positions in the line *)

(** Where the rest [l] of the line is. *)
Definition es : Z := buf + Z.of_nat (length l0).
Definition pos l : Z := es - Z.of_nat (length l).
Definition rest_of_line l : Prop := exists p, l0 = p ++ l.

Lemma rest_cons c l : rest_of_line (c :: l) -> rest_of_line l.
Proof. intros [p E]. exists (p ++ [c]). by rewrite <- app_assoc. Qed.

Lemma rest_app p l : rest_of_line (p ++ l) -> rest_of_line l.
Proof. intros [q E]. exists (q ++ p). by rewrite <- app_assoc. Qed.

Lemma rest_strip l : rest_of_line l -> rest_of_line (lstrip l).
Proof. intros H. destruct (lstrip_suffix l) as (b & E & _). rewrite E in H. by apply rest_app in H. Qed.

Lemma rest_length l : rest_of_line l -> (length l <= length l0)%nat.
Proof. intros [p ->]. rewrite length_app. lia. Qed.

Lemma pos_cons c l : pos (c :: l) + 1 = pos l.
Proof. unfold pos. simpl. lia. Qed.

Lemma pos_lt c l : pos (c :: l) < es.
Proof. unfold pos. simpl. lia. Qed.

Lemma line_cons m c l : ready m -> rest_of_line (c :: l) -> ld8 m (pos (c :: l)) = c /\ c <> 0.
Proof.
  intros H [p E]. assert (Hl : (buf, l0) ∈ sh_strings) by (by left). destruct (H _ _ Hl) as [H1 _].
  assert (Ep : pos (c :: l) = buf + Z.of_nat (length p)) by (unfold pos, es; rewrite E, length_app; simpl; lia).
  rewrite Ep. apply H1. rewrite E. by apply list_lookup_middle.
Qed.

Lemma line_end m : ready m -> ld8 m (pos []) = 0.
Proof. intros H. destruct (H buf l0 ltac:(by left)) as [_ H2]. rewrite <- H2. f_equal. unfold pos, es. simpl. lia. Qed.

(** strchr() as a test for membership. *)
Lemma strchr_member m a t c : ready m -> (a, t) ∈ sh_strings -> c <> 0 ->
  exists r, strchr a c m = URet r m /\ (r =? 0) = negb (bool_decide (c ∈ t)).
Proof.
  intros H Ht Hc. destruct (Hsited a t Ht) as (Ha & _ & Hl & _). case_bool_decide as Hin.
  - apply list_elem_of_split_l in Hin as (l1 & l2 & E & Hn). exists (a + Z.of_nat (length l1)). split; [|apply Z.eqb_neq; lia].
    pose proof (H a t Ht) as Hs. rewrite E in Hs, Hl. rewrite length_app in Hl. apply (strchr_found m a c l1 l2 Hc Hn Hs). simpl in Hl. lia.
  - exists 0. split; [|done]. apply (strchr_missing m a c t Hin (H a t Ht)). lia.
Qed.

Lemma in_white : (whitespace, white_chars) ∈ sh_strings.
Proof. unfold sh_strings. rewrite !elem_of_cons. by right; left. Qed.

Lemma in_symbols : (symbols, symbol_chars) ∈ sh_strings.
Proof. unfold sh_strings. rewrite !elem_of_cons. by right; right; left. Qed.

Lemma line_fuel l : rest_of_line l -> (length l < str_fuel)%nat.
Proof. intros H. pose proof (rest_length l H). destruct (Hsited buf l0 ltac:(by left)) as (_ & _ & Hl & _). lia. Qed.

(** * The loops *)

Lemma skip_white_run m l : ready m -> rest_of_line l -> forall f, (length l < f)%nat -> skip_white f (pos l) es m = URet (pos (lstrip l)) m.
Proof.
  intros H. induction l as [|c l IH]; intros Hl [|f] Hf; simpl in Hf; try lia; cbn [skip_white lstrip].
  - rewrite (proj2 (Z.ltb_ge (pos []) es)) by (unfold pos; simpl; lia). done.
  - rewrite (proj2 (Z.ltb_lt _ _) (pos_lt c l)). destruct (line_cons m c l H Hl) as [Hc Hc0].
    rewrite (ubind_run _ _ _ _ _ (eq_refl : load8 _ m = URet _ m)), Hc. destruct (strchr_member m _ _ c H in_white Hc0) as (r & Er & Eb).
    rewrite (ubind_run _ _ _ _ _ Er), Eb, negb_involutive, pos_cons. unfold is_white. destruct (bool_decide _); [|done].
    apply IH; [by apply rest_cons in Hl|lia].
Qed.

Lemma skip_word_run m l : ready m -> rest_of_line l -> forall f, (length l < f)%nat -> skip_word f (pos l) es m = URet (pos (span l).2) m.
Proof.
  intros H. induction l as [|c l IH]; intros Hl [|f] Hf; simpl in Hf; try lia; cbn [skip_word span].
  - rewrite (proj2 (Z.ltb_ge (pos []) es)) by (unfold pos; simpl; lia). done.
  - rewrite (proj2 (Z.ltb_lt _ _) (pos_lt c l)). destruct (line_cons m c l H Hl) as [Hc Hc0].
    rewrite (ubind_run _ _ _ _ _ (eq_refl : load8 _ m = URet _ m)), Hc. destruct (strchr_member m _ _ c H in_white Hc0) as (r & Er & Eb).
    rewrite (ubind_run _ _ _ _ _ Er), Eb, negb_involutive. unfold is_word, is_white, is_symbol. destruct (bool_decide (c ∈ white_chars)); [done|].
    rewrite (ubind_run _ _ _ _ _ (eq_refl : load8 _ m = URet _ m)), Hc. destruct (strchr_member m _ _ c H in_symbols Hc0) as (r' & Er' & Eb').
    rewrite (ubind_run _ _ _ _ _ Er'), Eb', negb_involutive, pos_cons. destruct (bool_decide (c ∈ symbol_chars)); [done|]. cbn [negb andb].
    rewrite IH by (try lia; by apply rest_cons in Hl). by destruct (span l).
Qed.

(** * Tokens *)

(** What gettoken() returns for a token. *)
Definition code (t : option token) : Z :=
  match t with
  | None => 0
  | Some TLt => 60 | Some TGt => 62 | Some TApp => 43 | Some TPipe => 124 | Some TAmp => 38 | Some TSemi => 59 | Some TLpar => 40 | Some TRpar => 41
  | Some (TWord _) => 97
  end.

(** The characters that are tokens, alone or with a second one. *)
Lemma sym_token_in c : c ∈ str "|();&<" -> is_Some (sym_token c).
Proof.
  change (str "|();&<") with [124; 40; 41; 59; 38; 60]. rewrite !elem_of_cons, elem_of_nil. intros Hc. destruct_or! Hc; try done; subst; simpl; eauto.
Qed.

Lemma sym_token_cases c t : sym_token c = Some t ->
  (c = 62 /\ t = TGt) \/ (c ∈ str "|();&<" /\ t <> TGt /\ sym_token c = Some t /\ code (Some t) = c).
Proof.
  unfold sym_token. intros H.
  repeat (match type of H with context [?x =? ?y] => destruct (Z.eqb_spec x y) as [->|] end;
    [simplify_eq; (by left) || (right; split; [sh_literal|done])|]). done.
Qed.

(** [w] is the word of the line from [q] to [eq]. *)
Definition located (q eq : Z) (w : list Z) : Prop := exists r,
  rest_of_line (w ++ r) /\ q = pos (w ++ r) /\ eq = pos r /\ good_word w /\ forall c r', r = c :: r' -> is_word c = false.

Definition rest (l : list Z) : list Z := match lex l with Some (_, r) => r | None => [] end.

(** The part of gettoken() between the two loops, on a line without leading blanks. *)
Lemma gettoken_mid m l : ready m -> rest_of_line l -> lstrip l = l -> exists r,
  (if ld8 m (pos l) =? 0 then uret (ld8 m (pos l), pos l)
   else if bool_decide (ld8 m (pos l) ∈ str "|();&<") then uret (ld8 m (pos l), pos l + 1)
   else if ld8 m (pos l) =? 62 then let s := pos l + 1 in let! c := load8 s in if c =? 62 then uret (43, s + 1) else uret (ld8 m (pos l), s)
   else let! s := skip_word str_fuel (pos l) es in uret (97, s)) m = URet (code (fst <$> lex1 l), pos r) m /\
  rest_of_line r /\ (forall t r', lex1 l = Some (t, r') -> r = r') /\ (lex1 l = None -> r = []).
Proof.
  intros H Hl Hs. destruct l as [|c l].
  - exists []. split; [|done]. by rewrite (line_end m H).
  - destruct (line_cons m c l H Hl) as [Hc Hc0]. rewrite Hc, (proj2 (Z.eqb_neq c 0)), pos_cons by done.
    assert (Hl' : rest_of_line l) by (by apply rest_cons in Hl). destruct (sym_token c) as [t|] eqn:Et.
    + apply sym_token_cases in Et as [(-> & ->)|(Hin & Hne & Ec & Ht)].
      * cbn [lex1 sym_token Z.eqb Pos.eqb]. change (bool_decide (62 ∈ str "|();&<")) with false. cbv zeta. destruct l as [|d l].
        { exists []. rewrite (ubind_run _ _ _ _ _ (eq_refl : load8 _ m = URet _ m)), (line_end m H). split; [done|]. split; [done|]. split; [by intros ? ? [= _ <-]|done]. }
        destruct (line_cons m d l H Hl') as [Hd Hd0]. rewrite (ubind_run _ _ _ _ _ (eq_refl : load8 _ m = URet _ m)), Hd. destruct (Z.eqb_spec d 62) as [->|Hne].
        { exists l. rewrite pos_cons. split; [done|]. split; [by apply rest_cons in Hl'|]. split; [by intros ? ? [= _ <-]|done]. }
        exists (d :: l). assert (E : match d with 62 => Some (TApp, l) | _ => Some (TGt, d :: l) end = Some (TGt, d :: l)).
        { destruct d as [|d|d]; try done. repeat (destruct d as [d|d|]; try done). }
        rewrite E. split; [done|]. split; [done|]. split; [by intros ? ? [= _ <-]|done].
      * exists l. rewrite bool_decide_eq_true_2 by done. assert (E : lex1 (c :: l) = Some (t, l)) by (cbn [lex1]; rewrite Ec; by destruct t).
        rewrite E. cbn [fmap option_fmap option_map fst]. rewrite Ht. split; [done|]. split; [done|]. split; [by intros ? ? [= _ <-]|done].
    + rewrite bool_decide_eq_false_2 by (intros Hin; apply sym_token_in in Hin as [t Ht]; congruence).
      rewrite (proj2 (Z.eqb_neq c 62)) by (intros ->; done).
      rewrite (ubind_run _ _ _ _ _ (skip_word_run m (c :: l) H Hl str_fuel (line_fuel _ Hl))). cbn [lex1]. rewrite Et.
      pose proof (span_spec (c :: l)) as Hsp. destruct (span (c :: l)) as [w r]. destruct Hsp as (E & _). exists r. split; [done|].
      split; [rewrite E in Hl; by apply rest_app in Hl|]. split; [by intros ? ? [= _ <-]|done].
Qed.

(** gettoken(): the next token, where its word is, and the rest of the line. *)
Lemma gettoken_run m l : ready m -> rest_of_line l -> exists q eq,
  gettoken (pos l) es m = URet (code (fst <$> lex l), q, eq, pos (rest l)) m /\ rest_of_line (rest l) /\
  forall w r, lex l = Some (TWord w, r) -> located q eq w.
Proof.
  intros H Hl. unfold gettoken. rewrite (ubind_run _ _ _ _ _ (skip_white_run m l H Hl str_fuel (line_fuel _ Hl))). cbv zeta.
  pose proof (rest_strip l Hl) as Hl'. pose proof (lstrip_idem l) as Hid. assert (Hhd : forall c r, lstrip l = c :: r -> is_white c = false) by (apply lstrip_head).
  assert (Elex : lex l = match lex1 (lstrip l) with Some (t, r) => Some (t, lstrip r) | None => None end) by done.
  unfold rest. rewrite Elex. clear Elex Hl. revert Hl' Hid Hhd. generalize (lstrip l) as k. clear l. intros l Hl Hid Hhd.
  destruct (gettoken_mid m l H Hl Hid) as (r & Er & Hr & Hr1 & Hr2). exists (pos l), (pos r).
  rewrite !(ubind_run _ _ _ _ _ (eq_refl : load8 _ m = URet _ m)), (ubind_run _ _ _ _ _ Er).
  rewrite (ubind_run _ _ _ _ _ (skip_white_run m r H Hr str_fuel (line_fuel _ Hr))).
  pose proof (rest_strip r Hr) as Hr'. destruct (lex1 l) as [[t r']|] eqn:El.
  - specialize (Hr1 t r' eq_refl). subst r'. split; [done|]. split; [done|]. intros w r2 [= -> <-]. exists r.
    apply lex1_word in El as (E & Hw & Hn); [|done]. subst l. done.
  - rewrite (Hr2 eq_refl) in *. split; [done|]. split; [done|]. by intros w r2 [=].
Qed.

(** Whether a token starts with one of the characters [t]. *)
Definition starts (t : list Z) (tok : token) : bool :=
  match tok with
  | TWord _ => false
  | TApp => bool_decide (62 ∈ t)
  | _ => bool_decide (code (Some tok) ∈ t)
  end.

Definition next_in (t : list Z) (ts : list token) : bool := match ts with [] => false | tok :: _ => starts t tok end.

Lemma lex_lead l tok r t : lex l = Some (tok, r) -> Forall (fun c => is_symbol c = true) t -> exists c k,
  lstrip l = c :: k /\ bool_decide (c ∈ t) = starts t tok.
Proof.
  unfold lex. intros H Ht. destruct (lstrip l) as [|c k] eqn:E; [done|]. exists c, k. split; [done|]. destruct (lex1 (c :: k)) as [[tok' r']|] eqn:El; [|done].
  simplify_eq. cbn [lex1] in El. destruct (sym_token c) as [u|] eqn:Ec.
  - apply sym_token_cases in Ec as [(-> & ->)|(_ & Hne & Hs & Hc)]; [|]; cycle 1.
    { assert (u = tok) as -> by (destruct u; simplify_eq; done). destruct tok; simpl in Hc; subst c; done. }
    assert (Ht2 : tok = TGt \/ tok = TApp); [|by destruct Ht2 as [-> | ->]]. clear -El. repeat case_match; simplify_eq; auto.
  - destruct (span (c :: k)) as [w r0]. simplify_eq. simpl. apply bool_decide_eq_false. intros Hin. rewrite Forall_forall in Ht.
    specialize (Ht c Hin). apply sym_token_symbol in Ht as [? ?]. congruence.
Qed.

Lemma peek_run m l t : ready m -> rest_of_line l -> t ∈ sh_literals -> Forall (fun c => is_symbol c = true) t ->
  peek (pos l) es (lit t) m = URet (next_in t (tokens l), pos (lstrip l)) m.
Proof.
  intros H Hl Hin Ht. unfold peek. rewrite (ubind_run _ _ _ _ _ (skip_white_run m l H Hl str_fuel (line_fuel _ Hl))).
  rewrite (ubind_run _ _ _ _ _ (eq_refl : load8 _ m = URet _ m)), tokens_lex. destruct (lex l) as [[tok r]|] eqn:El.
  - destruct (lex_lead l tok r t El Ht) as (c & k & E & Hb). pose proof (rest_strip l Hl) as Hl'. rewrite E in *.
    destruct (line_cons m c k H Hl') as [Hc Hc0]. rewrite Hc, (proj2 (Z.eqb_neq c 0)) by done.
    rewrite (ubind_run _ _ _ _ _ (eq_refl : load8 _ m = URet _ m)), Hc. destruct (strchr_member m _ _ c H (in_literals t Hin) Hc0) as (x & Ex & Eb).
    rewrite (ubind_run _ _ _ _ _ Ex), Eb, negb_involutive, Hb. done.
  - assert (E : lstrip l = []); [|rewrite E, (line_end m H); done]. unfold lex in El. destruct (lstrip l) as [|c k]; [done|].
    exfalso. cbn [lex1] in El. destruct (sym_token c) as [[]|]; repeat case_match; done.
Qed.

Lemma next_rest l : tokens l = match fst <$> lex l with Some t => t :: tokens (rest l) | None => [] end.
Proof. rewrite tokens_lex. unfold rest. by destruct (lex l) as [[t r]|]. Qed.
End Lexer.
