(* ===== verification/ShTree.v ===== *)
(** The parser of user/sh.c builds the tree of the reference parser of ShParse.v, in memory of the allocator ([parsers]). *)

From Stdlib Require Import ZArith Lia.
From stdpp Require Import base gmap list_numbers strings numbers list.
From S2P Require Import Prelude Mem User Ulib UlibSpec Coreutils Umalloc Arena Sh ShParse ShLex.

Open Scope Z_scope.
Open Scope user_scope.

(** * Loads and stores of fields *)

Lemma ldn_in n m m' p k a : (forall v, p <= v < p + k -> ld8 m' v = ld8 m v) -> p <= a -> a + Z.of_nat n <= p + k -> ldn n m' a = ldn n m a.
Proof. intros H H1 H2. apply ldn_ext. intros v Hv. apply H. lia. Qed.

Ltac field_out := unfold st32, st64; rewrite ?ld8_stn_out by (simpl; lia).

(** A field of a structure after the assignments to its fields. *)
Ltac field :=
  unfold ld32, ld64, st32, st64; rewrite ?ldn_stn_disj by (simpl; lia); rewrite ldn_stn_same; apply Z.mod_small; simpl; lia.

Definition kmode (k : rkind) : Z :=
  match k with RIn => O_RDONLY | ROut => Z.lor (Z.lor O_WRONLY O_CREATE) O_TRUNC | RApp => Z.lor O_WRONLY O_CREATE end.

Definition kfd (k : rkind) : Z := match k with RIn => 0 | ROut | RApp => 1 end.

Lemma kind_range k : 0 <= kmode k < 2 ^ 32 /\ 0 <= kfd k < 2 ^ 32.
Proof. by destruct k. Qed.

Section Parser.
Context {IM : Image} {OS : Os} {AR : Arena} {SD : Stdio 0 2} (buf : Z) (l0 : list Z) (Hsited : sited buf l0).
Implicit Types (m : mem) (s : os) (l : list Z) (L D : list region).

Local Notation ready := (ready buf l0).
Local Notation pos := (pos buf l0).
Local Notation es := (es buf l0).
Local Notation located := (located buf l0).
Local Notation rest_of_line := (rest_of_line l0).

Lemma pos_range l : rest_of_line l -> 0 < pos l < 2 ^ 64.
Proof.
  intros H. pose proof (rest_length l0 l H). destruct (Hsited buf l0 ltac:(by left)) as (H1 & H2 & _). unfold ShLex.pos, ShLex.es. lia.
Qed.

Lemma located_range q eq w : located q eq w -> 0 < q < 2 ^ 64 /\ 0 < eq < 2 ^ 64.
Proof. intros (r & H & -> & -> & _). split; apply pos_range; [done|]. by apply rest_app in H. Qed.

(** * Trees in memory *)

Definition valid (p : Z) : Prop := 0 < p < 2 ^ 32.

(** The words of [argv] are the arguments of the structure at [p]. *)
Definition args m (p : Z) (argv : list (list Z)) : Prop := forall i w, argv !! i = Some w ->
  located (ld64 m (argv_at p (Z.of_nat i))) (ld64 m (eargv_at p (Z.of_nat i))) w.

Definition redir_node L m (p : Z) (w : list Z) (k : rkind) : Prop :=
  valid p /\ (p, redircmd_size) ∈ L /\ ld32 m p = REDIR /\ located (ld64 m (file_at p)) (ld64 m (efile_at p)) w /\
  ld32 m (mode_at p) = kmode k /\ ld32 m (fd_at p) = kfd k.

(** The command [c] at [p], in regions of [L]; its words are still parts of the line. *)
Fixpoint tree L m (p : Z) (c : cmd) : Prop :=
  match c with
  | CExec argv => valid p /\ (p, execcmd_size) ∈ L /\ ld32 m p = EXEC /\ (length argv <= 9)%nat /\ args m p argv /\
      ld64 m (argv_at p (Z.of_nat (length argv))) = 0
  | CRedir c w k => redir_node L m p w k /\ tree L m (ld64 m (cmd_at p)) c
  | CPipe l r => valid p /\ (p, pipecmd_size) ∈ L /\ ld32 m p = PIPE /\ tree L m (ld64 m (left_at p)) l /\ tree L m (ld64 m (right_at p)) r
  | CList l r => valid p /\ (p, listcmd_size) ∈ L /\ ld32 m p = LIST /\ tree L m (ld64 m (left_at p)) l /\ tree L m (ld64 m (right_at p)) r
  | CBack c => valid p /\ (p, backcmd_size) ∈ L /\ ld32 m p = BACK /\ tree L m (ld64 m (cmd_at p)) c
  end.

Lemma tree_valid L m p c : tree L m p c -> valid p.
Proof. destruct c; simpl; unfold redir_node; tauto. Qed.

Lemma region_same L m m' p k n a : (forall v, inside L v -> ld8 m' v = ld8 m v) -> (p, k) ∈ L -> p <= a -> a + Z.of_nat n <= p + k ->
  ldn n m' a = ldn n m a.
Proof. intros H Hp H1 H2. apply (ldn_in n m m' p k); [|done|done]. intros v Hv. apply H. by exists (p, k). Qed.

Lemma redir_frame L L' m m' p w k : (forall v, inside L v -> ld8 m' v = ld8 m v) -> L ⊆ L' -> redir_node L m p w k ->
  redir_node L' m' p w k /\ ld64 m' (cmd_at p) = ld64 m (cmd_at p).
Proof.
  intros H HL (H1 & H2 & H3 & H4 & H5 & H6).
  assert (E : forall n a, p <= a -> a + Z.of_nat n <= p + redircmd_size -> ldn n m' a = ldn n m a) by (intros n a; by apply (region_same L)).
  unfold redircmd_size in E. split; [|by apply E; unfold cmd_at; simpl; lia]. unfold redir_node, ld32, ld64.
  rewrite !E by (unfold file_at, efile_at, mode_at, fd_at; simpl; lia). split_and!; try done. by apply HL.
Qed.

Lemma tree_frame L L' m m' c : (forall v, inside L v -> ld8 m' v = ld8 m v) -> L ⊆ L' -> forall p, tree L m p c -> tree L' m' p c.
Proof.
  intros H HL. induction c as [argv|c IH w k|l IHl r IHr|l IHl r IHr|c IH]; intros p; simpl.
  - intros (H1 & H2 & H3 & H4 & H5 & H6).
    assert (E : forall n a, p <= a -> a + Z.of_nat n <= p + execcmd_size -> ldn n m' a = ldn n m a) by (intros n a; by apply (region_same L)).
    unfold execcmd_size in E. split_and!; [done|by apply HL| |done| |].
    + rewrite <- H3. apply E; simpl; lia.
    + intros i w Hi. pose proof (lookup_lt_Some _ _ _ Hi). unfold ld64. rewrite !E by (unfold argv_at, eargv_at; simpl; lia). by apply H5.
    + rewrite <- H6. apply E; unfold argv_at; simpl; lia.
  - intros [H1 H2]. destruct (redir_frame L L' m m' p w k H HL H1) as [H1' E]. split; [done|]. rewrite E. by apply IH.
  - intros (H1 & H2 & H3 & H4 & H5).
    assert (E : forall n a, p <= a -> a + Z.of_nat n <= p + pipecmd_size -> ldn n m' a = ldn n m a) by (intros n a; by apply (region_same L)).
    unfold pipecmd_size, ld32, ld64 in *. rewrite !E by (unfold left_at, right_at; simpl; lia). split_and!; auto.
  - intros (H1 & H2 & H3 & H4 & H5).
    assert (E : forall n a, p <= a -> a + Z.of_nat n <= p + listcmd_size -> ldn n m' a = ldn n m a) by (intros n a; by apply (region_same L)).
    unfold listcmd_size, ld32, ld64 in *. rewrite !E by (unfold left_at, right_at; simpl; lia). split_and!; auto.
  - intros (H1 & H2 & H3 & H4).
    assert (E : forall n a, p <= a -> a + Z.of_nat n <= p + backcmd_size -> ldn n m' a = ldn n m a) by (intros n a; by apply (region_same L)).
    unfold backcmd_size, ld32, ld64 in *. rewrite !E by (unfold cmd_at; simpl; lia). split_and!; auto.
Qed.

(** * Constructors *)

(** From memory [m0] with regions [L0], the parser has come to [m] with [L] and may make [k] requests more. *)
Record later (L0 : list region) (m0 : mem) (s : os) (m : mem) (k : nat) (L : list region) : Prop := {
  lt_arena : arena s m k L;
  lt_ready : ready m;
  lt_regions : L0 ⊆ L;
  lt_same : forall v, outside v \/ inside L0 v -> ld8 m v = ld8 m0 v;
}.

Lemma later_refl s m k L : arena s m k L -> ready m -> later L m s m k L.
Proof. intros. by split. Qed.

Lemma inside_mono L L' v : L ⊆ L' -> inside L v -> inside L' v.
Proof. intros H (x & Hx & Hv). exists x. split; [by apply H|done]. Qed.

Lemma later_trans L0 m0 L1 m1 s1 k1 s m k L : later L0 m0 s1 m1 k1 L1 -> later L1 m1 s m k L -> later L0 m0 s m k L.
Proof.
  intros [A1 A2 A3 A4] [B1 B2 B3 B4]. split; try done; [by etransitivity|]. intros v Hv. rewrite B4; [by apply A4|].
  destruct Hv as [Hv|Hv]; [by left|right]. by apply (inside_mono L0).
Qed.

Lemma later_less L0 m0 s m k k' L : (k' <= k)%nat -> later L0 m0 s m k L -> later L0 m0 s m k' L.
Proof. intros Hk [A1 A2 A3 A4]. split; try done. induction Hk as [|k Hk IH]; [done|]. apply IH. by apply arena_less. Qed.

Lemma later_tree L0 m0 s m k L p c : later L0 m0 s m k L -> tree L0 m0 p c -> tree L m p c.
Proof. intros [A1 A2 A3 A4]. apply tree_frame; [|done]. intros v Hv. apply A4. by right. Qed.

(** A new region at [r]: none of the old ones, and nothing else has changed. *)
Definition new_region (L : list region) (r n : Z) : Prop := valid r /\ forall v, r <= v < r + n -> ~ outside v /\ ~ inside L v.

(** A write to a region since the start. *)
Lemma later_write L0 m0 s m m' k L x n : later L0 m0 s m k L -> (x, n) ∈ L -> new_region L0 x n ->
  (forall v, ~ (x <= v < x + n) -> ld8 m' v = ld8 m v) -> later L0 m0 s m' k L.
Proof.
  intros [A1 A2 A3 A4] Hx [_ Hn] Hm. assert (Ho : forall v, outside v \/ inside L0 v -> ld8 m' v = ld8 m v).
  { intros v Hv. apply Hm. intros Hr. destruct (Hn v Hr). tauto. }
  split; [|by apply (ready_frame buf l0 Hsited m); auto|done|intros v Hv; rewrite Ho by done; by apply A4].
  apply (arena_frame s m); [done|]. intros v Hv _. apply Hm. intros Hr. apply Hv. by exists (x, n).
Qed.

(** malloc() of a structure, and its fields set to zero. *)
Lemma alloc_spec {A : Type} n (f : Z -> U A) s m k L Q E : arena s m (S k) L -> ready m -> 1 <= n <= 1024 ->
  (forall r m' s', later L m s' m' k ((r, n) :: L) -> new_region L r n -> uwp (f r m') s' Q E) ->
  uwp ((let! cmd := malloc heap_fuel n in do! memset cmd 0 n; f cmd) m) s Q E.
Proof.
  intros HA HR Hn K. eapply uwp_bind_mono; [by apply (arena_malloc s m k L)|]. intros r m1 s1 (A1 & A2 & A3 & A4 & A5).
  destruct (memset_run m1 r 0 n) as (m2 & E2 & F2); [lia|]. eapply uwp_bind_run; [exact E2|].
  assert (Hr : new_region L r n) by (split; [split; lia|done]). apply K; [|done].
  apply (later_write L m s1 m1 m2 k ((r, n) :: L) r n); [split| |done|]; [done| |set_solver|done|by left|].
  - apply (ready_frame buf l0 Hsited m); auto.
  - intros v Hv. rewrite F2. by rewrite decide_False.
Qed.

Lemma execcmd_spec s m k L Q E : arena s m (S k) L -> ready m ->
  (forall r m' s', later L m s' m' k ((r, execcmd_size) :: L) -> new_region L r execcmd_size -> ld32 m' r = EXEC -> Q r m' s') ->
  uwp (execcmd m) s Q E.
Proof.
  intros HA HR K. unfold execcmd. apply (alloc_spec execcmd_size _ s m k L); [done|done|by vm_compute|]. intros r m1 s1 H1 Hr.
  eapply uwp_bind_run; [reflexivity|]. apply K; [|done|unfold EXEC; field].
  apply (later_write L m s1 m1 _ k _ r execcmd_size); [done|by left|done|]. intros v Hv. unfold execcmd_size in Hv. by field_out.
Qed.

Lemma redircmd_spec sub q eq w kk s m k L Q E :
  arena s m (S k) L -> ready m -> 0 <= sub < 2 ^ 64 -> located q eq w ->
  (forall r m' s', later L m s' m' k ((r, redircmd_size) :: L) -> new_region L r redircmd_size ->
     redir_node [(r, redircmd_size)] m' r w kk -> ld64 m' (cmd_at r) = sub -> Q r m' s') ->
  uwp (redircmd sub q eq (kmode kk) (kfd kk) m) s Q E.
Proof.
  intros HA HR Hsub Hw K. unfold redircmd. apply (alloc_spec redircmd_size _ s m k L); [done|done|by vm_compute|]. intros r m1 s1 H1 Hr.
  do 6 (eapply uwp_bind_run; [reflexivity|]). destruct (located_range q eq w Hw) as [Hq Heq]. destruct (kind_range kk) as [Hm Hf].
  unfold cmd_at, file_at, efile_at, mode_at, fd_at in *. apply K; [|done| |].
  - apply (later_write L m s1 m1 _ k _ r redircmd_size); [done|by left|done|]. intros v Hv. unfold redircmd_size in Hv. by field_out.
  - split; [apply Hr|]. split; [by left|]. unfold file_at, efile_at, mode_at, fd_at. split; [unfold REDIR; field|]. split; [|split; field].
    assert (E1 : forall x, x = q -> located x eq w) by (by intros ? ->). assert (E2 : forall x y, y = eq -> located x eq w -> located x y w) by (by intros ? ? ->).
    apply E2; [field|]. apply E1. field.
  - field.
Qed.

(** A binary node over two trees. *)
Lemma binary_node n type s1 m1 k L r m p1 p2 m' :
  later L m s1 m1 k ((r, n) :: L) -> new_region L r n -> 24 <= n -> 0 <= type < 2 ^ 32 -> valid p1 -> valid p2 ->
  m' = st64 (st64 (st32 m1 r type) (left_at r) p1) (right_at r) p2 ->
  later L m s1 m' k ((r, n) :: L) /\ ld32 m' r = type /\ ld64 m' (left_at r) = p1 /\ ld64 m' (right_at r) = p2.
Proof.
  intros H1 Hr Hn Ht V1 V2 ->. unfold valid, left_at, right_at in *. split; [|split; [|split]; field].
  apply (later_write L m s1 m1 _ k _ r n); [done|by left|done|]. intros v Hv. by field_out.
Qed.

Lemma pipecmd_spec p1 p2 c1 c2 s m k L Q E : arena s m (S k) L -> ready m -> tree L m p1 c1 -> tree L m p2 c2 ->
  (forall r m' s' L', later L m s' m' k L' -> tree L' m' r (CPipe c1 c2) -> Q r m' s') -> uwp (pipecmd p1 p2 m) s Q E.
Proof.
  intros HA HR T1 T2 K. unfold pipecmd. apply (alloc_spec pipecmd_size _ s m k L); [done|done|by vm_compute|]. intros r m1 s1 H1 Hr.
  do 3 (eapply uwp_bind_run; [reflexivity|]).
  destruct (binary_node pipecmd_size PIPE s1 m1 k L r m p1 p2 _ H1 Hr ltac:(done) ltac:(done) (tree_valid _ _ _ _ T1) (tree_valid _ _ _ _ T2) eq_refl) as (H2 & E1 & E2 & E3).
  apply (K _ _ _ _ H2). split; [apply Hr|]. split; [by left|]. split; [done|]. rewrite E2, E3. split; by apply (later_tree _ _ _ _ _ _ _ _ H2).
Qed.

Lemma listcmd_spec p1 p2 c1 c2 s m k L Q E : arena s m (S k) L -> ready m -> tree L m p1 c1 -> tree L m p2 c2 ->
  (forall r m' s' L', later L m s' m' k L' -> tree L' m' r (CList c1 c2) -> Q r m' s') -> uwp (listcmd p1 p2 m) s Q E.
Proof.
  intros HA HR T1 T2 K. unfold listcmd. apply (alloc_spec listcmd_size _ s m k L); [done|done|by vm_compute|]. intros r m1 s1 H1 Hr.
  do 3 (eapply uwp_bind_run; [reflexivity|]).
  destruct (binary_node listcmd_size LIST s1 m1 k L r m p1 p2 _ H1 Hr ltac:(done) ltac:(done) (tree_valid _ _ _ _ T1) (tree_valid _ _ _ _ T2) eq_refl) as (H2 & E1 & E2 & E3).
  apply (K _ _ _ _ H2). split; [apply Hr|]. split; [by left|]. split; [done|]. rewrite E2, E3. split; by apply (later_tree _ _ _ _ _ _ _ _ H2).
Qed.

Lemma backcmd_spec p c s m k L Q E : arena s m (S k) L -> ready m -> tree L m p c ->
  (forall r m' s' L', later L m s' m' k L' -> tree L' m' r (CBack c) -> Q r m' s') -> uwp (backcmd p m) s Q E.
Proof.
  intros HA HR T K. unfold backcmd. apply (alloc_spec backcmd_size _ s m k L); [done|done|by vm_compute|]. intros r m1 s1 H1 Hr.
  do 2 (eapply uwp_bind_run; [reflexivity|]). pose proof (tree_valid _ _ _ _ T) as V. unfold valid, cmd_at in *.
  set (m2 := st64 (st32 m1 r BACK) (r + 8) p). assert (H2 : later L m s1 m2 k ((r, backcmd_size) :: L)).
  { apply (later_write L m s1 m1 _ k _ r backcmd_size); [done|by left|done|]. intros v Hv. unfold backcmd_size in Hv. unfold m2. by field_out. }
  apply (K _ _ _ _ H2). split; [apply Hr|]. split; [by left|]. unfold cmd_at. assert (E1 : ld64 m2 (r + 8) = p) by (unfold m2; field).
  rewrite E1. split; [unfold m2, BACK; field|]. by apply (later_tree _ _ _ _ _ _ _ _ H2).
Qed.

(** * Redirections *)

(** [rs] redirections, the outermost first, from [p] to [p0], in the regions [D]. *)
Fixpoint chain D m (p : Z) (rs : list redir) (p0 : Z) : Prop :=
  match rs with
  | [] => p = p0
  | (w, k) :: rs => redir_node D m p w k /\ chain D m (ld64 m (cmd_at p)) rs p0
  end.

Lemma chain_frame D D' m m' rs p0 : (forall v, inside D v -> ld8 m' v = ld8 m v) -> D ⊆ D' -> forall p, chain D m p rs p0 -> chain D' m' p rs p0.
Proof.
  intros H HD. induction rs as [|[w k] rs IH]; intros p; simpl; [done|]. intros [H1 H2].
  destruct (redir_frame D D' m m' p w k H HD H1) as [H1' E]. split; [done|]. rewrite E. by apply IH.
Qed.

Lemma wrap_reverse w k rs c : wrap (reverse ((w, k) :: rs)) c = CRedir (wrap (reverse rs) c) w k.
Proof. unfold wrap. by rewrite reverse_cons, fold_left_app. Qed.

Lemma chain_tree L m rs p0 c : tree L m p0 c -> forall p, chain L m p rs p0 -> tree L m p (wrap (reverse rs) c).
Proof.
  intros H. induction rs as [|[w k] rs IH]; intros p; [by intros -> |]. intros [H1 H2]. rewrite wrap_reverse. split; [done|]. by apply IH.
Qed.

Lemma chain_valid D m rs p0 p : valid p0 -> chain D m p rs p0 -> valid p.
Proof. destruct rs as [|[w k] rs]; simpl; [by intros ? ->|]. unfold redir_node. tauto. Qed.

Lemma starts_redir t : starts (str "<>") t = match rtoken t with Some _ => true | None => false end.
Proof. by destruct t. Qed.

Lemma code_word t : (code t =? 97) = match t with Some (TWord _) => true | _ => false end.
Proof. by destruct t as [[]|]. Qed.

Lemma arena_some s m k k' L : (k' <= k)%nat -> arena s m k L -> arena s m k' L.
Proof. intros Hk H. induction Hk as [|k Hk IH]; [done|]. by apply IH, arena_less. Qed.

(** gettoken() after peek(). *)
Lemma gettoken_strip m l : ready m -> rest_of_line l -> exists q eq,
  gettoken (pos (lstrip l)) es m = URet (code (fst <$> lex l), q, eq, pos (rest l)) m /\ rest_of_line (rest l) /\
  forall w r, lex l = Some (TWord w, r) -> located q eq w.
Proof.
  intros H Hl. destruct (gettoken_run buf l0 Hsited m (lstrip l) H (rest_strip l0 l Hl)) as (q & eq & H1 & H2 & H3).
  exists q, eq. unfold rest in *. rewrite lex_strip in *. done.
Qed.

Lemma lex_tokens l t r : lex l = Some (t, r) -> tokens l = t :: tokens r /\ rest l = r.
Proof. intros H. unfold rest. by rewrite tokens_lex, H. Qed.

Lemma lex_none l : lex l = None -> tokens l = [].
Proof. intros H. by rewrite tokens_lex, H. Qed.

(** The token that starts a redirection. *)
Lemma redircmd_token {A : Type} t k (cmd q eq : Z) (f : Z -> U A) m : rtoken t = Some k ->
  (let! c := (if code (Some t) =? 60 then redircmd cmd q eq O_RDONLY 0
          else if code (Some t) =? 62 then redircmd cmd q eq (Z.lor (Z.lor O_WRONLY O_CREATE) O_TRUNC) 1
          else if code (Some t) =? 43 then redircmd cmd q eq (Z.lor O_WRONLY O_CREATE) 1
          else uret cmd) in f c) m = (let! c := redircmd cmd q eq (kmode k) (kfd k) in f c) m.
Proof. by destruct t; intros [= <-]. Qed.

(** One redirection: [D] are the regions of the chain, away from the addresses [X]. *)
Lemma redir_step p0 X w k q eq ret rs s m n L D Q E :
  arena s m (S n) L -> ready m -> located q eq w -> valid p0 -> chain D m ret (reverse rs) p0 -> D ⊆ L ->
  (forall v : Z, X v -> inside L v) -> (forall v, inside D v -> ~ X v) ->
  (forall r m' s' L' D', later L m s' m' n L' -> chain D' m' r (reverse (rs ++ [(w, k)])) p0 -> D' ⊆ L' -> (forall v, inside D' v -> ~ X v) -> Q r m' s') ->
  uwp (redircmd ret q eq (kmode k) (kfd k) m) s Q E.
Proof.
  intros HA HR Hw V HC HD HX HDX K. pose proof (chain_valid D m _ p0 ret V HC) as Vr.
  apply (redircmd_spec ret q eq w k s m n L); [done|done|unfold valid in Vr; lia|done|]. intros r m' s' H1 [Hr1 Hr2] N Hc.
  apply (K r m' s' ((r, redircmd_size) :: L) ((r, redircmd_size) :: D)); [done| |set_solver|].
  - rewrite reverse_snoc. split.
    + apply (redir_frame [(r, redircmd_size)] ((r, redircmd_size) :: D) m' m'); [done|set_solver|done].
    + rewrite Hc. apply (chain_frame D _ m); [|set_solver|done]. intros v Hv. apply (lt_same _ _ _ _ _ _ H1). right. by apply (inside_mono D).
  - intros v (x & Hx & Hv). apply elem_of_cons in Hx as [->|Hx]; [|apply HDX; by exists x]. intros Hxv. destruct (Hr2 v Hv) as [_ Hn]. by apply Hn, HX.
Qed.

Lemma redirs_spec p0 X d : valid p0 -> forall f l rs ret s m L D Q E,
  (length l < f)%nat -> rest_of_line l -> arena s m (2 * length (tokens l) + d) L -> ready m ->
  chain D m ret (reverse rs) p0 -> D ⊆ L -> (forall v : Z, X v -> inside L v) -> (forall v, inside D v -> ~ X v) ->
  (forall rs' l' ret' s' m' L' D', p_redirs rs (tokens l) = POk rs' (tokens l') -> rest_of_line l' ->
     later L m s' m' (2 * length (tokens l') + d) L' -> chain D' m' ret' (reverse rs') p0 -> D' ⊆ L' -> (forall v, inside D' v -> ~ X v) ->
     Q (ret', pos l') m' s') ->
  (p_redirs rs (tokens l) = PErr -> forall s', E 1 s') -> uwp (redirs_loop f ret (pos l) es m) s Q E.
Proof.
  intros V. induction f as [|f IH]; intros l rs ret s m L D Q E Hf Hl HA HR HC HD HX HDX K KE; [lia|]. cbn [redirs_loop].
  eapply uwp_bind_run; [apply (peek_run buf l0 Hsited m l); [done|done|sh_literal|by repeat constructor]|].
  assert (Hstop : p_redirs rs (tokens l) = POk rs (tokens l) -> uwp (uret (ret, pos (lstrip l)) m) s Q E).
  { intros Hp. apply (K rs (lstrip l) ret s m L D); rewrite ?tokens_strip; [done|by apply rest_strip|by apply later_refl|done..]. }
  destruct (lex l) as [[t r]|] eqn:El; [|rewrite (lex_none l El) in *; by apply Hstop].
  destruct (lex_tokens l t r El) as [Et Er]. rewrite Et in *. cbn [next_in]. rewrite starts_redir. destruct (rtoken t) as [k|] eqn:Ek; [|apply Hstop; simpl; by rewrite Ek].
  destruct (gettoken_strip m l HR Hl) as (q1 & e1 & G1 & Hl1 & _). eapply uwp_bind_run; [exact G1|]. rewrite El, Er in *. cbn [fmap option_fmap option_map fst].
  destruct (gettoken_run buf l0 Hsited m r HR Hl1) as (q & eq & G2 & Hl2 & Hw). eapply uwp_bind_run; [exact G2|]. cbv beta iota. rewrite code_word.
  pose proof (lex_length _ _ _ El) as Hlen. destruct (lex r) as [[[| | | | | | | |w] r2]|] eqn:El2; cbn [fmap option_fmap option_map fst negb];
    try (apply (panic_exits buf l0 Hsited); [done|split; [done|sh_literal]|]; apply KE; cbn [p_redirs]; rewrite Ek;
         first [rewrite (lex_none r El2) | rewrite (proj1 (lex_tokens r _ _ El2))]; done).
  destruct (lex_tokens r _ r2 El2) as [Et2 Er2]. rewrite Et2, Er2 in *. rewrite (redircmd_token t k) by done. apply uwp_bind.
  apply (redir_step p0 X w k q eq ret rs s m (2 * length (tokens r2) + d) L D); try done; [|by apply (Hw w r2)|].
  { apply (arena_some s m (2 * length (t :: TWord w :: tokens r2) + d)); [simpl; lia|done]. }
  intros x m1 s1 L1 D1 H1 HC1 HD1 HDX1. pose proof (lex_length _ _ _ El2).
  apply (IH r2 (rs ++ [(w, k)]) x s1 m1 L1 D1); try done; [lia|apply H1|apply H1| | |].
  - intros v Hv. apply (inside_mono L); [apply H1|by apply HX].
  - intros rs' l' ret' s' m' L' D' Hp Hl' H2. apply (K rs' l' ret' s' m' L' D'); [simpl; by rewrite Ek|done|by apply (later_trans L m L1 m1 s1 _ s' m' _ L' H1)].
  - intros Hp. apply KE. simpl. by rewrite Ek.
Qed.

(** * Simple commands *)

(** parseexec() with the structure at [cmd] and the arguments [argv] so far; [ret] is the structure with the redirections around it. *)
Record execing (L0 : list region) (m0 : mem) (cmd : Z) (s : os) (m : mem) (k : nat) (L : list region) (argv : list (list Z)) (rs : list redir)
    (ret : Z) (D : list region) : Prop := {
  ex_later : later L0 m0 s m k L;
  ex_new : new_region L0 cmd execcmd_size;
  ex_in : (cmd, execcmd_size) ∈ L;
  ex_type : ld32 m cmd = EXEC;
  ex_args : args m cmd argv;
  ex_len : (length argv <= 9)%nat;
  ex_chain : chain D m ret (reverse rs) cmd;
  ex_regions : D ⊆ L;
  ex_apart : forall v, inside D v -> ~ (cmd <= v < cmd + execcmd_size);
}.

(** cmd->argv[argc] = q; cmd->eargv[argc] = eq; *)
Definition set_arg m (cmd : Z) (i : nat) (q eq : Z) : mem := st64 (st64 m (argv_at cmd (Z.of_nat i)) q) (eargv_at cmd (Z.of_nat i)) eq.

Lemma set_arg_out m cmd i q eq v : (i <= 9)%nat -> ~ (cmd <= v < cmd + execcmd_size) -> ld8 (set_arg m cmd i q eq) v = ld8 m v.
Proof. intros Hi Hv. unfold set_arg, argv_at, eargv_at, execcmd_size in *. by field_out. Qed.

Lemma set_arg_same L0 m0 cmd s m k L argv rs ret D q eq i : execing L0 m0 cmd s m k L argv rs ret D -> (length argv <= i <= 9)%nat ->
  execing L0 m0 cmd s (set_arg m cmd i q eq) k L argv rs ret D.
Proof.
  intros [X1 X2 X3 X4 X5 X6 X7 X8 X9] Hi. split; try done.
  - apply (later_write L0 m0 s m _ k L cmd execcmd_size); try done. intros v Hv. by apply set_arg_out; [lia|].
  - rewrite <- X4. unfold set_arg, argv_at, eargv_at, ld32, st64. by rewrite !ldn_stn_disj by (simpl; lia).
  - intros j w Hj. pose proof (lookup_lt_Some _ _ _ Hj). specialize (X5 j w Hj). unfold set_arg, argv_at, eargv_at, ld64, st64 in *.
    by rewrite !ldn_stn_disj by (simpl; lia).
  - apply (chain_frame D D m); [|done|done]. intros v Hv. apply set_arg_out; [lia|by apply X9].
Qed.

Lemma set_arg_snoc L0 m0 cmd s m k L argv rs ret D q eq w : execing L0 m0 cmd s m k L argv rs ret D -> located q eq w -> (length argv < 9)%nat ->
  execing L0 m0 cmd s (set_arg m cmd (length argv) q eq) k L (argv ++ [w]) rs ret D.
Proof.
  intros H Hw Hl. destruct (set_arg_same L0 m0 cmd s m k L argv rs ret D q eq (length argv) H ltac:(lia)) as [X1 X2 X3 X4 X5 X6 X7 X8 X9].
  split; try done; [|rewrite length_app; simpl; lia]. intros i w' Hi. apply lookup_app_Some in Hi as [Hi|[Hi Hi']]; [by apply X5|].
  apply list_lookup_singleton_Some in Hi' as [Hi' <-]. assert (i = length argv) as -> by lia.
  destruct (located_range q eq w Hw). unfold set_arg, argv_at, eargv_at. assert (E : forall a b, a = q -> b = eq -> located a b w) by (by intros ? ? -> ->).
  apply E; field.
Qed.

(** The tree when the last argument has been read. *)
Lemma execing_tree L0 m0 cmd s m k L argv rs ret D : execing L0 m0 cmd s m k L argv rs ret D ->
  later L0 m0 s (set_arg m cmd (length argv) 0 0) k L /\ tree L (set_arg m cmd (length argv) 0 0) ret (wrap rs (CExec argv)).
Proof.
  intros H. pose proof (ex_len _ _ _ _ _ _ _ _ _ _ _ H) as Hl.
  destruct (set_arg_same L0 m0 cmd s m k L argv rs ret D 0 0 (length argv) H ltac:(lia)) as [X1 X2 X3 X4 X5 X6 X7 X8 X9].
  split; [done|]. rewrite <- (reverse_involutive rs). apply (chain_tree L _ _ cmd).
  - simpl. split; [apply X2|]. split_and!; try done. unfold set_arg, argv_at, eargv_at. field.
  - apply (chain_frame D L (set_arg m cmd (length argv) 0 0)); done.
Qed.

(** parseredirs() between two arguments. *)
Lemma redirs_between L0 m0 cmd s m l d L argv rs ret D Q E :
  execing L0 m0 cmd s m (2 * length (tokens l) + d) L argv rs ret D -> rest_of_line l ->
  (forall rs' l' ret' s' m' L' D', p_redirs rs (tokens l) = POk rs' (tokens l') -> rest_of_line l' ->
     execing L0 m0 cmd s' m' (2 * length (tokens l') + d) L' argv rs' ret' D' -> Q (ret', pos l') m' s') ->
  (p_redirs rs (tokens l) = PErr -> forall s', E 1 s') -> uwp (parseredirs ret (pos l) es m) s Q E.
Proof.
  intros [X1 X2 X3 X4 X5 X6 X7 X8 X9] Hl K KE. unfold parseredirs.
  apply (redirs_spec cmd (fun v => cmd <= v < cmd + execcmd_size) d (proj1 X2) str_fuel l rs ret s m L D); try done.
  - by apply (line_fuel buf l0 Hsited).
  - apply X1.
  - apply X1.
  - intros v Hv. by exists (cmd, execcmd_size).
  - intros rs' l' ret' s' m' L' D' Hp Hl' H2 HC HD HX. apply (K rs' l' ret' s' m' L' D' Hp Hl').
    assert (Esame : forall n a, cmd <= a -> a + Z.of_nat n <= cmd + execcmd_size -> ldn n m' a = ldn n m a).
    { intros n a. apply (region_same L m m' cmd execcmd_size); [|done]. intros v Hv. apply (lt_same _ _ _ _ _ _ H2). by right. }
    unfold execcmd_size in Esame. split; try done.
    + by apply (later_trans L0 m0 L m s _ s' m' _ L' X1).
    + by apply (lt_regions _ _ _ _ _ _ H2).
    + rewrite <- X4. apply Esame; simpl; lia.
    + intros i w Hi. pose proof (lookup_lt_Some _ _ _ Hi). unfold ld64. rewrite !Esame by (unfold argv_at, eargv_at; simpl; lia). by apply X5.
Qed.

Lemma execing_less L0 m0 cmd s m k k' L argv rs ret D : (k' <= k)%nat -> execing L0 m0 cmd s m k L argv rs ret D -> execing L0 m0 cmd s m k' L argv rs ret D.
Proof. intros Hk []. split; try done. by apply (later_less _ _ _ _ k). Qed.

(** The tokens at which the arguments end. *)
Definition stops (t : token) : bool := match t with TPipe | TRpar | TAmp | TSemi => true | _ => false end.

Lemma starts_stop t : starts (str "|)&;") t = stops t.
Proof. by destruct t. Qed.

Lemma args_spec L0 m0 cmd d : forall f n l argv rs ret s m L D Q E,
  (length argv + n = 9)%nat -> (n < f)%nat -> rest_of_line l -> execing L0 m0 cmd s m (2 * length (tokens l) + d) L argv rs ret D ->
  (forall argv' rs' l' ret' s' m' L' D', p_args n argv rs (tokens l) = POk (argv', rs') (tokens l') -> rest_of_line l' ->
     execing L0 m0 cmd s' m' (2 * length (tokens l') + d) L' argv' rs' ret' D' -> Q (Z.of_nat (length argv'), ret', pos l') m' s') ->
  (p_args n argv rs (tokens l) = PErr -> forall s', E 1 s') ->
  uwp (args_loop f cmd (Z.of_nat (length argv)) ret (pos l) es m) s Q E.
Proof.
  induction f as [|f IH]; intros n l argv rs ret s m L D Q E Hn Hf Hl HX K KE; [lia|]. cbn [args_loop].
  pose proof (lt_ready _ _ _ _ _ _ (ex_later _ _ _ _ _ _ _ _ _ _ _ HX)) as HR.
  eapply uwp_bind_run; [apply (peek_run buf l0 Hsited m l); [done|done|sh_literal|by repeat constructor]|]. cbv beta iota.
  assert (Hpanic : forall t, t <> [] /\ t ∈ sh_literals -> p_args n argv rs (tokens l) = PErr -> uwp (panic (A := Z * Z * Z) (lit t) m) s Q E).
  { intros t Ht Hp. apply (panic_exits buf l0 Hsited); [done|done|by apply KE]. }
  destruct (gettoken_strip m l HR Hl) as (q & eq & G & Hl1 & Hw). destruct (lex l) as [[t r]|] eqn:El.
  - destruct (lex_tokens l t r El) as [Et Er]. rewrite Et, Er in *. cbn [next_in]. rewrite starts_stop. cbn [fmap option_fmap option_map fst] in G.
    destruct (stops t) eqn:Es; cbn [negb].
    { apply (K argv rs (lstrip l) ret s m L D); rewrite ?tokens_strip, ?Et; [destruct n, t; done|by apply rest_strip|done]. }
    eapply uwp_bind_run; [exact G|]. cbv beta iota. rewrite code_word.
    destruct t as [| | | | | | | |w]; try done; cbn [code Z.eqb Pos.eqb negb]; try (apply Hpanic; [split; [done|sh_literal]|by destruct n]).
    do 2 (eapply uwp_bind_run; [reflexivity|]). cbv zeta. fold (set_arg m cmd (length argv) q eq).
    pose proof (set_arg_same L0 m0 cmd s m _ L argv rs ret D q eq (length argv) HX ltac:(lia)) as HX1. destruct n as [|n].
    + rewrite (proj2 (Z.leb_le _ _)) by (unfold MAXARGS; lia). apply (panic_exits buf l0 Hsited); [apply HX1|split; [done|sh_literal]|by apply KE].
    + rewrite (proj2 (Z.leb_gt _ _)) by (unfold MAXARGS; lia). apply uwp_bind.
      pose proof (set_arg_snoc L0 m0 cmd s m _ L argv rs ret D q eq w HX (Hw w r eq_refl) ltac:(lia)) as HX2.
      apply (redirs_between L0 m0 cmd s _ r d L (argv ++ [w]) rs ret D); [apply (execing_less _ _ _ _ _ (2 * length (TWord w :: tokens r) + d)); [simpl; lia|done]|done| |].
      * intros rs' l' ret' s' m' L' D' Hp Hl' HX3. replace (Z.of_nat (length argv) + 1) with (Z.of_nat (length (argv ++ [w]))) by (rewrite length_app; simpl; lia).
        apply (IH n l' (argv ++ [w]) rs' ret' s' m' L' D'); [rewrite length_app; simpl; lia|lia|done|done| |].
        { intros argv' rs2 l2 ret2 s2 m2 L2 D2 Hp2. apply K. simpl. by rewrite Hp. }
        { intros Hp2. apply KE. simpl. by rewrite Hp. }
      * intros Hp. apply KE. simpl. by rewrite Hp.
  - rewrite (lex_none l El) in *. cbn [next_in negb]. eapply uwp_bind_run; [exact G|]. cbn [fmap option_fmap option_map code Z.eqb].
    assert (Er : rest l = []) by (unfold rest; by rewrite El). rewrite Er in *. apply (K argv rs [] ret s m L D); [by destruct n|done|done].
Qed.

(** * The recursive parts *)

(** What a parser does: its result is that of the reference, and its tree is in memory. *)
Definition parses (p : pres cmd) (u : U (Z * Z)) s m d L : Prop := forall (Q : Z * Z -> mem -> os -> Prop) (E : Z -> os -> Prop),
  (forall c l' r s' m' L', p = POk c (tokens l') -> rest_of_line l' -> later L m s' m' (2 * length (tokens l') + d) L' -> tree L' m' r c ->
     Q (r, pos l') m' s') ->
  (p = PErr -> forall s', E 1 s') -> uwp (u m) s Q E.

Definition single (t : token) : bool := match t with TPipe | TAmp | TSemi | TLpar | TRpar => true | _ => false end.

Lemma starts_single t t' : single t = true -> starts (text t) t' = true -> t' = t.
Proof. by destruct t, t'. Qed.

(** peek() for a symbol, and gettoken() when it is there. *)
Lemma symbol_spec {A : Type} t l m s (f : Z -> U A) (g : Z -> U A) Q E :
  ready m -> rest_of_line l -> single t = true ->
  (forall r, tokens l = t :: tokens r -> rest_of_line r -> (length r < length l)%nat -> uwp (f (pos r) m) s Q E) ->
  (forall r, tokens r = tokens l -> head (tokens l) <> Some t -> rest_of_line r -> uwp (g (pos r) m) s Q E) ->
  uwp ((let! '(b, s) := peek (pos l) es (lit (text t)) in
        if (b : bool) then let! '(_, _, _, s) := gettoken s es in f s else g s) m) s Q E.
Proof.
  intros HR Hl Ht Kf Kg. eapply uwp_bind_run.
  { apply (peek_run buf l0 Hsited m l); [done|done|destruct t; try done; sh_literal|destruct t; try done; by repeat constructor]. }
  cbv beta iota. destruct (next_in (text t) (tokens l)) eqn:En.
  - destruct (gettoken_strip m l HR Hl) as (q & eq & G & Hl1 & _). eapply uwp_bind_run; [exact G|]. cbv beta iota.
    destruct (lex l) as [[t' r]|] eqn:El; [|by rewrite (lex_none l El) in En]. destruct (lex_tokens l t' r El) as [Et Er]. rewrite Et, Er in *.
    apply Kf; [|done|by apply lex_length in El]. f_equal. by apply starts_single.
  - apply Kg; [by rewrite tokens_strip| |by apply rest_strip]. destruct (tokens l) as [|t' ts]; [done|]. intros [= ->]. by destruct t.
Qed.

Lemma back_spec d : forall f l c p s m L Q E, (length l < f)%nat -> rest_of_line l -> arena s m (2 * length (tokens l) + d) L -> ready m -> tree L m p c ->
  (forall c' l' r s' m' L', p_amps c (tokens l) = (c', tokens l') -> rest_of_line l' -> later L m s' m' (2 * length (tokens l') + d) L' ->
     tree L' m' r c' -> Q (r, pos l') m' s') -> uwp (back_loop f p (pos l) es m) s Q E.
Proof.
  induction f as [|f IH]; intros l c p s m L Q E Hf Hl HA HR HT K; [lia|]. cbn [back_loop].
  apply (symbol_spec TAmp l m s (fun x => let! cmd := backcmd p in back_loop f cmd x es) (fun x => uret (p, x))); try done.
  - intros r Et Hr Hlen. rewrite Et in *. apply uwp_bind.
    apply (backcmd_spec p c s m (2 * length (tokens r) + d) L); [apply (arena_some s m (2 * length (TAmp :: tokens r) + d)); [simpl; lia|done]|done|done|].
    intros x m1 s1 L1 H1 HT1. apply (IH r (CBack c) x s1 m1 L1); [lia|done|apply H1|apply H1|done|].
    intros c' l' x' s' m' L' Hp Hl' H2. apply K; [done|done|]. by apply (later_trans L m L1 m1 s1 _ s' m' _ L' H1).
  - intros r Et Hh Hr. apply (K c r p s m L); [|done|rewrite Et; by apply later_refl|done].
    rewrite Et. destruct (tokens l) as [|[] ts]; done.
Qed.

(** The four parsers with fuel [f]. *)
Definition parsing (pf : list token -> pres cmd) (u : Z -> Z -> U (Z * Z)) : Prop := forall l s m d L,
  pf (tokens l) <> PFuel -> rest_of_line l -> arena s m (2 * length (tokens l) + 1 + d) L -> ready m ->
  parses (pf (tokens l)) (u (pos l) es) s m d L.

Lemma parseexec_words f : (forall l s m d L, head (tokens l) = Some TLpar -> p_block f (tokens l) <> PFuel -> rest_of_line l ->
    arena s m (2 * length (tokens l) + 1 + d) L -> ready m -> parses (p_block f (tokens l)) (parseblock f (pos l) es) s m d L) ->
  parsing (p_exec (S f)) (parseexec (S f)).
Proof.
  intros HB l s m d L Hn Hl HA HR Q E K KE. cbn [parseexec].
  eapply uwp_bind_run; [apply (peek_run buf l0 Hsited m l); [done|done|sh_literal|by repeat constructor]|]. cbv beta iota.
  destruct (next_in (str "(") (tokens l)) eqn:En.
  - assert (Eh : head (tokens l) = Some TLpar) by (destruct (tokens l) as [|[] ts]; done).
    assert (Ep : p_exec (S f) (tokens l) = p_block f (tokens l)) by (destruct (tokens l) as [|[] ts]; done). rewrite Ep in *.
    rewrite <- (tokens_strip l) in *. apply (HB (lstrip l) s m d L); try done. by apply rest_strip.
  - set (run := fun ts => pbind (p_redirs [] ts) (fun rs ts => pbind (p_args 9 [] rs ts) (fun '(argv, rs) ts => POk (wrap rs (CExec argv)) ts))).
    assert (Ep : p_exec (S f) (tokens l) = run (tokens l)) by (destruct (tokens l) as [|[] ts]; done). rewrite Ep in *. clear Ep Hn.
    rewrite <- (tokens_strip l) in *. apply rest_strip in Hl. revert HA K KE Hl. generalize (lstrip l) as l1. clear l En. intros l HA K KE Hl.
    apply uwp_bind. apply (execcmd_spec s m (2 * length (tokens l) + d) L); [by apply (arena_some s m (2 * length (tokens l) + 1 + d)); [lia|]|done|]. intros cmd m1 s1 H1 Hnew Htype.
    assert (HX : execing L m cmd s1 m1 (2 * length (tokens l) + d) ((cmd, execcmd_size) :: L) [] [] cmd []).
    { split; try done; [by left|simpl; lia|set_solver|]. intros v (x & Hx & _). by apply not_elem_of_nil in Hx. }
    apply uwp_bind, (redirs_between L m cmd s1 m1 l d ((cmd, execcmd_size) :: L) [] [] cmd []); [done|done| |].
    + intros rs l' ret s2 m2 L2 D2 Hp Hl' HX2. apply uwp_bind, (args_spec L m cmd d _ 9 l' [] rs ret s2 m2 L2 D2); [done|vm_compute; lia|done|done| |].
      * intros argv rs' l2 ret' s' m' L' D' Hp2 Hl2 HX3. do 2 (eapply uwp_bind_run; [reflexivity|]). fold (set_arg m' cmd (length argv) 0 0).
        destruct (execing_tree L m cmd s' m' _ L' argv rs' ret' D' HX3) as [H3 HT]. apply (K (wrap rs' (CExec argv)) l2 ret' s' _ L'); try done.
        unfold run. rewrite Hp. cbn [pbind]. by rewrite Hp2.
      * intros Hp2. apply KE. unfold run. rewrite Hp. cbn [pbind]. by rewrite Hp2.
    + intros Hp. apply KE. unfold run. by rewrite Hp.
Qed.

(** parseblock(), whose caller has seen the parenthesis. *)
Lemma parseblock_line f : parsing (p_line f) (parseline f) -> forall l s m d L, head (tokens l) = Some TLpar -> p_block (S f) (tokens l) <> PFuel ->
  rest_of_line l -> arena s m (2 * length (tokens l) + 1 + d) L -> ready m -> parses (p_block (S f) (tokens l)) (parseblock (S f) (pos l) es) s m d L.
Proof.
  intros HL l s m d L Hh Hn Hl HA HR Q E K KE. cbn [parseblock].
  eapply uwp_bind_run; [apply (peek_run buf l0 Hsited m l); [done|done|sh_literal|by repeat constructor]|]. cbv beta iota.
  destruct (gettoken_strip m l HR Hl) as (q & eq & G & Hl1 & _).
  destruct (lex l) as [[t r]|] eqn:El; [|by rewrite (lex_none l El) in Hh]. destruct (lex_tokens l t r El) as [Et Er]. rewrite Et, Er in *.
  injection Hh as ->. cbn [next_in negb]. change (starts (str "(") TLpar) with true. cbn [negb]. eapply uwp_bind_run; [exact G|]. cbv beta iota.
  cbn [p_block] in *. assert (Hn1 : p_line f (tokens r) <> PFuel) by (intros H; apply Hn; by rewrite H).
  apply uwp_bind. apply (HL r s m (S (S d)) L); [done|done|apply (arena_some s m (2 * length (TLpar :: tokens r) + 1 + d)); [simpl; lia|done]|done| |].
  2: { intros H. apply KE. by rewrite H. }
  intros c l' p s1 m1 L1 Hp Hl' H1 HT. rewrite Hp in *. cbn [pbind] in *. pose proof (lt_ready _ _ _ _ _ _ H1) as HR1.
  eapply uwp_bind_run; [apply (peek_run buf l0 Hsited m1 l'); [done|done|sh_literal|by repeat constructor]|]. cbv beta iota.
  destruct (gettoken_strip m1 l' HR1 Hl') as (q1 & eq1 & G1 & Hl1' & _).
  destruct (decide (head (tokens l') = Some TRpar)) as [Hh|Hh].
  - destruct (lex l') as [[t r']|] eqn:El'; [|by rewrite (lex_none l' El') in Hh]. destruct (lex_tokens l' t r' El') as [Et' Er']. rewrite Et', Er' in *.
    injection Hh as ->. cbn [next_in]. change (starts (str ")") TRpar) with true. cbn [negb]. eapply uwp_bind_run; [exact G1|]. cbv beta iota.
    unfold parseredirs. apply (redirs_spec p (fun _ => False) d (tree_valid _ _ _ _ HT) str_fuel r' [] p s1 m1 L1 []);
      [by apply (line_fuel buf l0 Hsited)|done|apply (arena_some s1 m1 (2 * length (TRpar :: tokens r') + S (S d))); [simpl; lia|apply H1]|done|done|
       by apply list_subseteq_nil|done|by intros v _ []| |].
    + intros rs l2 ret s2 m2 L2 D2 Hp2 Hl2 H2 HC HD _. rewrite Hp2 in *. apply (K (wrap rs c) l2 ret s2 m2 L2); [done|done|by apply (later_trans L m L1 m1 s1 _ s2 m2 _ L2 H1)|].
      rewrite <- (reverse_involutive rs). apply (chain_tree L2 m2 _ p); [by apply (later_tree L1 m1 s2 m2 _ L2 p c H2)|by apply (chain_frame D2 L2 m2)].
    + intros Hp2. apply KE. by rewrite Hp2.
  - assert (Hne : next_in (str ")") (tokens l') = false) by (destruct (tokens l') as [|[] ts]; done). rewrite Hne. cbn [negb].
    apply (panic_exits buf l0 Hsited); [done|split; [done|sh_literal]|]. apply KE. destruct (tokens l') as [|[] ts]; done.
Qed.

Lemma parsepipe_exec f : parsing (p_exec f) (parseexec f) -> parsing (p_pipe f) (parsepipe f) -> parsing (p_pipe (S f)) (parsepipe (S f)).
Proof.
  intros HE HP l s m d L Hn Hl HA HR Q E K KE. cbn [parsepipe p_pipe] in *. assert (Hn1 : p_exec f (tokens l) <> PFuel) by (intros H; apply Hn; by rewrite H).
  apply uwp_bind. apply (HE l s m d L); try done. 2: { intros H. apply KE. by rewrite H. }
  intros c l' p s1 m1 L1 Hp Hl' H1 HT. rewrite Hp in *. cbn [pbind] in *.
  apply (symbol_spec TPipe l' m1 s1 (fun x => let! '(rcmd, x) := parsepipe f x es in let! cmd := pipecmd p rcmd in uret (cmd, x)) (fun x => uret (p, x)));
    [apply H1|done|done| |].
  - intros r Et Hr Hlen. rewrite Et in *. assert (Hn2 : p_pipe f (tokens r) <> PFuel) by (intros H; apply Hn; by rewrite H).
    apply uwp_bind. apply (HP r s1 m1 (S d) L1); [done|done|apply (arena_some s1 m1 (2 * length (TPipe :: tokens r) + d)); [simpl; lia|apply H1]|apply H1| |].
    2: { intros H. apply KE. by rewrite H. }
    intros c2 l2 p2 s2 m2 L2 Hp2 Hl2 H2 HT2. rewrite Hp2 in *. apply uwp_bind.
    apply (pipecmd_spec p p2 c c2 s2 m2 (2 * length (tokens l2) + d) L2); [rewrite Nat.add_succ_r in H2; apply H2|apply H2|by apply (later_tree L1 m1 s2 m2 _ L2 p c H2)|done|].
    intros x m3 s3 L3 H3 HT3. apply (K (CPipe c c2) l2 x s3 m3 L3); try done.
    apply (later_trans L m L1 m1 s1 _ s3 m3 _ L3 H1). by apply (later_trans L1 m1 L2 m2 s2 _ s3 m3 _ L3 H2).
  - intros r Et Hh Hr. apply (K c r p s1 m1 L1); [|done|by rewrite Et|done]. rewrite Et. destruct (tokens l') as [|[] ts]; done.
Qed.

Lemma parseline_pipe f : parsing (p_pipe f) (parsepipe f) -> parsing (p_line f) (parseline f) -> parsing (p_line (S f)) (parseline (S f)).
Proof.
  intros HP HL l s m d L Hn Hl HA HR Q E K KE. cbn [parseline p_line] in *. assert (Hn1 : p_pipe f (tokens l) <> PFuel) by (intros H; apply Hn; by rewrite H).
  apply uwp_bind. apply (HP l s m d L); try done. 2: { intros H. apply KE. by rewrite H. }
  intros c0 l1 p0 s0 m0 L0 Hp0 Hl1 H0 HT0. rewrite Hp0 in *. cbn [pbind] in *.
  apply uwp_bind. apply (back_spec d str_fuel l1 c0 p0 s0 m0 L0); [by apply (line_fuel buf l0 Hsited)|done|apply H0|apply H0|done|].
  intros c l' p s1 m1 L1 Ha Hl' H1' HT. rewrite Ha in *.
  assert (H1 : later L m s1 m1 (2 * length (tokens l') + d) L1) by (by apply (later_trans L m L0 m0 s0 _ s1 m1 _ L1 H0)).
  apply (symbol_spec TSemi l' m1 s1 (fun x => let! '(rcmd, x) := parseline f x es in let! cmd := listcmd p rcmd in uret (cmd, x)) (fun x => uret (p, x)));
    [apply H1|done|done| |].
  - intros r Et Hr Hlen. rewrite Et in *. assert (Hn2 : p_line f (tokens r) <> PFuel) by (intros H; apply Hn; by rewrite H).
    apply uwp_bind. apply (HL r s1 m1 (S d) L1); [done|done|apply (arena_some s1 m1 (2 * length (TSemi :: tokens r) + d)); [simpl; lia|apply H1]|apply H1| |].
    2: { intros H. apply KE. by rewrite H. }
    intros c2 l2 p2 s2 m2 L2 Hp2 Hl2 H2 HT2. rewrite Hp2 in *. apply uwp_bind.
    apply (listcmd_spec p p2 c c2 s2 m2 (2 * length (tokens l2) + d) L2); [rewrite Nat.add_succ_r in H2; apply H2|apply H2|by apply (later_tree L1 m1 s2 m2 _ L2 p c H2)|done|].
    intros x m3 s3 L3 H3 HT3. apply (K (CList c c2) l2 x s3 m3 L3); try done.
    apply (later_trans L m L1 m1 s1 _ s3 m3 _ L3 H1). by apply (later_trans L1 m1 L2 m2 s2 _ s3 m3 _ L3 H2).
  - intros r Et Hh Hr. apply (K c r p s1 m1 L1); [|done|by rewrite Et|done]. rewrite Et. destruct (tokens l') as [|[] ts]; done.
Qed.

Lemma parsers f : parsing (p_line f) (parseline f) /\ parsing (p_pipe f) (parsepipe f) /\ parsing (p_exec f) (parseexec f) /\
  (forall l s m d L, head (tokens l) = Some TLpar -> p_block f (tokens l) <> PFuel -> rest_of_line l ->
     arena s m (2 * length (tokens l) + 1 + d) L -> ready m -> parses (p_block f (tokens l)) (parseblock f (pos l) es) s m d L).
Proof.
  induction f as [|f (IHl & IHp & IHe & IHb)]; [split_and!; by intros ? ? ? ? ? ? | ].
  split; [by apply parseline_pipe|]. split; [by apply parsepipe_exec|]. split; [by apply parseexec_words|]. by apply parseblock_line.
Qed.
End Parser.
