(* ===== verification/ShProps.v ===== *)
(** parsecmd() of user/sh.c: the command of a line as a tree whose words are C strings ([parsecmd_correct]), for every way to write the command
    ([parsecmd_print]). *)

From Stdlib Require Import ZArith Lia.
From stdpp Require Import base gmap list_numbers strings numbers list.
From S2P Require Import Prelude Mem User Ulib UlibSpec Coreutils Umalloc UmallocSpec UmallocProps Arena Sh ShParse ShLex ShTree.

Open Scope Z_scope.
Open Scope user_scope.

(** The command [c] at [p]: its words are C strings. *)
Fixpoint repr (m : mem) (p : Z) (c : cmd) : Prop :=
  p <> 0 /\
  match c with
  | CExec argv => ld32 m p = EXEC /\ (forall i w, argv !! i = Some w -> cstr_at m (ld64 m (argv_at p (Z.of_nat i))) w) /\
      (forall i, (i < length argv)%nat -> ld64 m (argv_at p (Z.of_nat i)) <> 0) /\ ld64 m (argv_at p (Z.of_nat (length argv))) = 0
  | CRedir c w k => ld32 m p = REDIR /\ (ld64 m (file_at p) <> 0 /\ cstr_at m (ld64 m (file_at p)) w) /\ ld32 m (mode_at p) = kmode k /\ ld32 m (fd_at p) = kfd k /\
      repr m (ld64 m (cmd_at p)) c
  | CPipe l r => ld32 m p = PIPE /\ repr m (ld64 m (left_at p)) l /\ repr m (ld64 m (right_at p)) r
  | CList l r => ld32 m p = LIST /\ repr m (ld64 m (left_at p)) l /\ repr m (ld64 m (right_at p)) r
  | CBack c => ld32 m p = BACK /\ repr m (ld64 m (cmd_at p)) c
  end.

(** The structures and the words of [c], none longer than a page, lie in [R]. *)
Definition word_within (R : Z -> Prop) (q : Z) (w : list Z) : Prop :=
  (length w < str_fuel)%nat /\ forall v, q <= v <= q + Z.of_nat (length w) -> R v.

Fixpoint within (R : Z -> Prop) (m : mem) (p : Z) (c : cmd) : Prop :=
  match c with
  | CExec argv => (forall v, p <= v < p + execcmd_size -> R v) /\ (length argv <= 9)%nat /\
      forall i w, argv !! i = Some w -> word_within R (ld64 m (argv_at p (Z.of_nat i))) w
  | CRedir c w _ => (forall v, p <= v < p + redircmd_size -> R v) /\
      word_within R (ld64 m (file_at p)) w /\ within R m (ld64 m (cmd_at p)) c
  | CPipe l r => (forall v, p <= v < p + pipecmd_size -> R v) /\ within R m (ld64 m (left_at p)) l /\ within R m (ld64 m (right_at p)) r
  | CList l r => (forall v, p <= v < p + listcmd_size -> R v) /\ within R m (ld64 m (left_at p)) l /\ within R m (ld64 m (right_at p)) r
  | CBack c => (forall v, p <= v < p + backcmd_size -> R v) /\ within R m (ld64 m (cmd_at p)) c
  end.

Section Terminate.
Context {IM : Image} {OS : Os} {AR : Arena} {SD : Stdio 0 2} (buf : Z) (l0 : list Z) (Hsited : sited buf l0).
Implicit Types (m : mem) (s : os) (l : list Z) (L : list region).

Local Notation ready := (ready buf l0).
Local Notation pos := (pos buf l0).
Local Notation located := (located buf l0).
Local Notation rest_of_line := (rest_of_line l0).
Local Notation tree := (tree buf l0).

(** [m'] is [m] with ends of words set to zero. *)
Definition cleared m m' : Prop := forall v, ld8 m' v = ld8 m v \/ (ld8 m' v = 0 /\ exists q w, located q v w).

Lemma cleared_refl m : cleared m m.
Proof. intros v. by left. Qed.

Lemma cleared_trans m m1 m2 : cleared m m1 -> cleared m1 m2 -> cleared m m2.
Proof. intros H1 H2 v. destruct (H2 v) as [E|E]; [|by right]. rewrite E. apply H1. Qed.

Lemma cleared_store m q eq w : located q eq w -> cleared m (st8 m eq 0).
Proof.
  intros H v. destruct (decide (eq = v)) as [<-|Hne]; [|left; by apply ld8_st8_ne]. right. split; [by rewrite ld8_st8_eq|by exists q, w].
Qed.

Lemma pos_outside l : rest_of_line l -> outside (pos l).
Proof.
  intros Hl. pose proof (rest_length l0 l Hl). destruct (Hsited buf l0 ltac:(by left)) as (_ & _ & _ & Ho). apply Ho. unfold ShLex.pos, ShLex.es. lia.
Qed.

Lemma located_outside q eq w : located q eq w -> outside eq.
Proof. intros (r & H & _ & -> & _). apply pos_outside. by apply rest_app in H. Qed.

(** The ends of words are in no structure. *)
Lemma cleared_inside L m m' v : (forall v, inside L v -> ~ outside v) -> cleared m m' -> inside L v -> ld8 m' v = ld8 m v.
Proof. intros HL H Hv. destruct (H v) as [E|(_ & q & w & Hw)]; [done|]. apply located_outside in Hw. by destruct (HL v Hv). Qed.

Lemma cleared_tree L m m' p c : (forall v, inside L v -> ~ outside v) -> cleared m m' -> tree L m p c -> tree L m' p c.
Proof. intros HL H. apply tree_frame; [|done]. intros v Hv. by apply (cleared_inside L). Qed.

(** No end of a word is within a word. *)
Lemma rest_unique k k' : rest_of_line k -> rest_of_line k' -> pos k = pos k' -> k = k'.
Proof.
  intros [p E] [p' E'] H. rewrite E in E'. apply app_inj_2 in E' as [_ ?]; [done|]. unfold ShLex.pos in H. lia.
Qed.

Lemma located_char q eq w i c : located q eq w -> w !! i = Some c -> exists k,
  rest_of_line (c :: k) /\ q + Z.of_nat i = pos (c :: k) /\ is_word c = true.
Proof.
  intros (r & H & -> & -> & [_ Hw] & _) Hi. pose proof (lookup_lt_Some _ _ _ Hi). exists (drop (S i) w ++ r).
  assert (E : w ++ r = take i w ++ c :: drop (S i) w ++ r) by (rewrite <- (take_drop_middle w i c Hi) at 1; by rewrite <- app_assoc).
  split; [rewrite E in H; by apply rest_app in H|]. split; [|by apply (Forall_lookup_1 _ _ _ _ Hw Hi)].
  unfold ShLex.pos. simpl. rewrite !length_app, length_drop. lia.
Qed.

Lemma word_kept m m' q eq w i c : located q eq w -> w !! i = Some c -> cleared m m' -> ld8 m' (q + Z.of_nat i) = ld8 m (q + Z.of_nat i).
Proof.
  intros H Hi Hc. destruct (located_char q eq w i c H Hi) as (k & Hk & Ek & Hw). destruct (Hc (q + Z.of_nat i)) as [E|(_ & q' & w' & r & Hr & _ & Er & _ & Hn)]; [done|].
  exfalso. apply rest_app in Hr. rewrite Ek in Er. apply rest_unique in Er; [|done|done]. rewrite (Hn c k) in Hw; done.
Qed.

Lemma located_end q eq w : located q eq w -> q + Z.of_nat (length w) = eq.
Proof. intros (r & _ & -> & -> & _). unfold ShLex.pos. rewrite length_app. lia. Qed.

Lemma cleared_word m0 m q eq w : ready m0 -> cleared m0 m -> located q eq w -> ld8 m eq = 0 -> cstr_at m q w.
Proof.
  intros HR Hc H E. split; [|by rewrite (located_end q eq w H)]. intros i c Hi. rewrite (word_kept m0 m q eq w i c H Hi Hc).
  destruct (located_char q eq w i c H Hi) as (k & Hk & -> & _). by apply line_cons.
Qed.

Lemma cstr_cleared m m' q eq w : cleared m m' -> located q eq w -> cstr_at m q w -> cstr_at m' q w.
Proof.
  intros Hc H [H1 H2]. split.
  - intros i c Hi. rewrite (word_kept m m' q eq w i c H Hi Hc). by apply H1.
  - destruct (Hc (q + Z.of_nat (length w))) as [-> |[? _]]; done.
Qed.

(** A tree that has been terminated stays so. *)
Lemma repr_cleared L m m' c : (forall v, inside L v -> ~ outside v) -> cleared m m' -> forall p, tree L m p c -> repr m p c -> repr m' p c.
Proof.
  intros HL Hc. assert (Hin : forall v, inside L v -> ld8 m' v = ld8 m v) by (intros v; by apply (cleared_inside L)).
  induction c as [argv|c IH w k|l IHl r IHr|l IHl r IHr|c IH]; intros p HT HP.
  - destruct HT as (V & HL1 & T1 & T2 & T3 & T4). destruct HP as (P0 & P1 & P2 & P3 & P4).
    assert (Es : forall n a, p <= a -> a + Z.of_nat n <= p + execcmd_size -> ldn n m' a = ldn n m a) by (intros n a; by apply (region_same L)).
    assert (Ea : forall i, (i <= 9)%nat -> ld64 m' (argv_at p (Z.of_nat i)) = ld64 m (argv_at p (Z.of_nat i))).
    { intros i Hi. apply Es; unfold argv_at, execcmd_size; simpl; lia. }
    split; [done|]. split; [rewrite <- P1; apply Es; unfold execcmd_size; simpl; lia|]. split_and!.
    + intros i w Hi. pose proof (lookup_lt_Some _ _ _ Hi). rewrite Ea by lia. apply (cstr_cleared m m' _ _ w Hc (T3 i w Hi)). by apply P2.
    + intros i Hi. rewrite Ea by lia. by apply P3.
    + by rewrite Ea by lia.
  - destruct HT as [HN HT]. destruct HP as (P0 & P1 & P2 & P3 & P4 & P5).
    destruct (redir_frame buf l0 L L m m' p w k Hin (reflexivity _) HN) as [(N1 & N2 & N3 & N4 & N5 & N6) Ec].
    destruct HN as (_ & HL1 & _ & HN & _). assert (Ef : ld64 m' (file_at p) = ld64 m (file_at p)).
    { apply (region_same L m m' p redircmd_size); [done|done|unfold file_at, redircmd_size; simpl; lia..]. }
    split; [done|]. split; [done|]. split; [rewrite Ef; split; [apply P2|by apply (cstr_cleared m m' _ _ w Hc HN), P2]|]. split; [done|]. split; [done|]. rewrite Ec. by apply IH.
  - destruct HT as (V & HL1 & T1 & T2 & T3). destruct HP as (P0 & P1 & P2 & P3).
    assert (Es : forall n a, p <= a -> a + Z.of_nat n <= p + pipecmd_size -> ldn n m' a = ldn n m a) by (intros n a; by apply (region_same L)).
    unfold pipecmd_size in Es. simpl. unfold ld32, ld64 in *. rewrite !Es by (unfold left_at, right_at; simpl; lia). split_and!; auto.
  - destruct HT as (V & HL1 & T1 & T2 & T3). destruct HP as (P0 & P1 & P2 & P3).
    assert (Es : forall n a, p <= a -> a + Z.of_nat n <= p + listcmd_size -> ldn n m' a = ldn n m a) by (intros n a; by apply (region_same L)).
    unfold listcmd_size in Es. simpl. unfold ld32, ld64 in *. rewrite !Es by (unfold left_at, right_at; simpl; lia). split_and!; auto.
  - destruct HT as (V & HL1 & T1 & T2). destruct HP as (P0 & P1 & P2).
    assert (Es : forall n a, p <= a -> a + Z.of_nat n <= p + backcmd_size -> ldn n m' a = ldn n m a) by (intros n a; by apply (region_same L)).
    unfold backcmd_size in Es. simpl. unfold ld32, ld64 in *. rewrite !Es by (unfold cmd_at; simpl; lia). split_and!; auto.
Qed.

Lemma zero_kept m m' v : cleared m m' -> ld8 m v = 0 -> ld8 m' v = 0.
Proof. intros H E. destruct (H v) as [-> |[? _]]; done. Qed.

Section Tree.
Context (L : list region) (HL : forall v, inside L v -> ~ outside v) (m0 : mem) (HR : ready m0).

Lemma nul_args_run p argv : forall n f i m, (i + n = length argv)%nat -> (n < f)%nat -> tree L m p (CExec argv) ->
  exists m', nul_args f p (Z.of_nat i) m = URet tt m' /\ cleared m m' /\
  forall j, (i <= j < length argv)%nat -> ld8 m' (ld64 m (eargv_at p (Z.of_nat j))) = 0.
Proof.
  induction n as [|n IH]; intros [|f] i m Hi Hf HT; try lia; cbn [nul_args]; pose proof HT as (V & HL1 & T1 & T2 & T3 & T4).
  - exists m. rewrite (ubind_run _ _ _ _ _ (eq_refl : load64 _ m = URet _ m)). replace i with (length argv) by lia. rewrite T4. split; [done|].
    split; [apply cleared_refl|]. intros j Hj. lia.
  - destruct (lookup_lt_is_Some_2 argv i ltac:(lia)) as [w Hw]. pose proof (T3 i w Hw) as Hloc. destruct (located_range buf l0 Hsited _ _ w Hloc) as [Hq _].
    rewrite (ubind_run _ _ _ _ _ (eq_refl : load64 _ m = URet _ m)), (proj2 (Z.eqb_neq _ 0)) by lia.
    rewrite !(ubind_run _ _ _ _ _ (eq_refl : load64 _ m = URet _ m)). set (e := ld64 m (eargv_at p (Z.of_nat i))) in *.
    rewrite (ubind_run _ _ _ _ _ (eq_refl : store8 e 0 m = URet tt (st8 m e 0))). pose proof (cleared_store m _ e w Hloc) as Hc1.
    pose proof (cleared_tree L m _ p _ HL Hc1 HT) as HT1. destruct (IH f (S i) (st8 m e 0)) as (m' & E & Hc2 & Hz); [lia|lia|done|].
    exists m'. replace (Z.of_nat i + 1) with (Z.of_nat (S i)) by lia. split; [done|]. split; [by apply (cleared_trans m (st8 m e 0))|].
    intros j Hj. destruct (decide (j = i)) as [-> |Hne].
    + apply (zero_kept (st8 m e 0)); [done|]. by rewrite ld8_st8_eq.
    + rewrite <- (Hz j) by lia. f_equal. symmetry. apply (region_same L _ _ p execcmd_size); [|done|unfold eargv_at, execcmd_size; simpl; lia..].
      intros v Hv. by apply (cleared_inside L).
Qed.

(** A field of a structure is not changed. *)
Lemma field_kept m m' p n a : cleared m m' -> (p, n) ∈ L -> p <= a -> a + 8 <= p + n -> ld64 m' a = ld64 m a.
Proof. intros Hc Hp H1 H2. apply (region_same L m m' p n); [|done|done|simpl; lia]. intros v Hv. by apply (cleared_inside L). Qed.

Lemma type_kept m m' p n : cleared m m' -> (p, n) ∈ L -> 4 <= n -> ld32 m' p = ld32 m p.
Proof. intros Hc Hp H1. apply (region_same L m m' p n); [|done|lia|simpl; lia]. intros v Hv. by apply (cleared_inside L). Qed.

(** nulterminate() works on the structures below. *)
Definition nul_ok (f : nat) (c : cmd) : Prop := forall p m, cleared m0 m -> tree L m p c ->
  exists m', nulterminate f p m = URet p m' /\ cleared m m' /\ repr m' p c.

Lemma nul_binary f n p c1 c2 m : nul_ok f c1 -> nul_ok f c2 -> (p, n) ∈ L -> 24 <= n -> cleared m0 m ->
  tree L m (ld64 m (left_at p)) c1 -> tree L m (ld64 m (right_at p)) c2 -> exists m',
  (let! l := load64 (left_at p) in do! nulterminate f l; let! r := load64 (right_at p) in do! nulterminate f r; uret tt) m = URet tt m' /\ cleared m m' /\
  ld32 m' p = ld32 m p /\ repr m' (ld64 m' (left_at p)) c1 /\ repr m' (ld64 m' (right_at p)) c2.
Proof.
  intros H1 H2 Hp Hn Hc T1 T2. unfold left_at, right_at in *. destruct (H1 _ m Hc T1) as (m1 & E1 & C1 & R1).
  pose proof (cleared_tree L m m1 _ c2 HL C1 T2) as T2'. destruct (H2 _ m1 (cleared_trans _ _ _ Hc C1) T2') as (m2 & E2 & C2 & R2).
  assert (C : cleared m m2) by (by apply (cleared_trans m m1)). exists m2. split; [|split; [done|]].
  - rewrite (ubind_run _ _ _ _ _ (eq_refl : load64 _ m = URet _ m)), (ubind_run _ _ _ _ _ E1).
    rewrite (ubind_run _ _ _ _ _ (eq_refl : load64 _ m1 = URet _ m1)), (field_kept m m1 p n) by (done || lia). by rewrite (ubind_run _ _ _ _ _ E2).
  - rewrite (type_kept m m2 p n), !(field_kept m m2 p n) by (done || lia). split; [done|]. split; [|done].
    apply (repr_cleared L m1 m2 c1 HL C2); [by apply (cleared_tree L m)|done].
Qed.

Lemma nul_redir f p c w k m : nul_ok f c -> cleared m0 m -> tree L m p (CRedir c w k) -> exists m',
  (let! c := load64 (cmd_at p) in do! nulterminate f c; let! e := load64 (efile_at p) in store8 e 0) m = URet tt m' /\ cleared m m' /\
  repr m' p (CRedir c w k).
Proof.
  intros IH Hc HT. pose proof HT as [(V & HL1 & _) HT1]. destruct (IH _ m Hc HT1) as (m1 & E1 & C1 & R1).
  pose proof (cleared_tree L m m1 p (CRedir c w k) HL C1 HT) as [N1 HT1']. pose proof N1 as (_ & _ & _ & N4 & _).
  set (e := ld64 m1 (efile_at p)) in *. pose proof (cleared_store m1 _ e w N4) as C2. set (m2 := st8 m1 e 0) in *.
  assert (C : cleared m m2) by (by apply (cleared_trans m m1)). pose proof (cleared_tree L m m2 p (CRedir c w k) HL C HT) as [N2 HT2].
  assert (F : forall ma mb a, cleared ma mb -> p <= a -> a + 8 <= p + redircmd_size -> ld64 mb a = ld64 ma a) by (intros ma mb a ?; by apply (field_kept ma mb p)).
  unfold redircmd_size, cmd_at, efile_at in *. exists m2. split; [|split; [done|]].
  - by rewrite (ubind_run _ _ _ _ _ (eq_refl : load64 _ m = URet _ m)), (ubind_run _ _ _ _ _ E1).
  - pose proof N2 as (_ & _ & M1 & M2 & M3 & M4). unfold valid, efile_at in *. split; [lia|]. split; [done|].
    split; [split; [destruct (located_range buf l0 Hsited _ _ w M2); lia|]; apply (cleared_word m0 m2 _ _ w HR (cleared_trans _ _ _ Hc C) M2);
      rewrite (F m1 m2) by (done || lia); unfold m2; by rewrite ld8_st8_eq|].
    split; [done|]. split; [done|]. unfold cmd_at. rewrite (F m m2) by (done || lia). apply (repr_cleared L m1 m2 c HL C2); [|done].
    by rewrite (F m m1) in HT1' by (done || lia).
Qed.

Lemma nul_exec p argv m : cleared m0 m -> tree L m p (CExec argv) -> exists m',
  nul_args (S (Z.to_nat MAXARGS)) p 0 m = URet tt m' /\ cleared m m' /\ repr m' p (CExec argv).
Proof.
  intros Hc HT. pose proof HT as (V & HL1 & T1 & T2 & T3 & T4).
  destruct (nul_args_run p argv (length argv) (S (Z.to_nat MAXARGS)) 0 m) as (m' & E & Hc' & Hz); [lia|vm_compute (Z.to_nat MAXARGS); lia|done|].
  exists m'. split; [done|]. split; [done|]. pose proof (cleared_tree L m m' p _ HL Hc' HT) as (_ & _ & T1' & _ & T3' & T4').
  unfold valid in V. split; [lia|]. split; [done|]. split_and!; [| |done].
  - intros i w Hi. pose proof (lookup_lt_Some _ _ _ Hi). apply (cleared_word m0 m' _ _ w HR (cleared_trans _ _ _ Hc Hc') (T3' i w Hi)).
    rewrite <- (Hz i) by lia. f_equal. apply (field_kept m m' p execcmd_size); [done|done|unfold eargv_at, execcmd_size; lia..].
  - intros i Hi. destruct (lookup_lt_is_Some_2 argv i Hi) as [w Hw]. destruct (located_range buf l0 Hsited _ _ w (T3' i w Hw)). lia.
Qed.

Lemma nulterminate_run c : forall f, (size c <= f)%nat -> nul_ok f c.
Proof.
  induction c as [argv|c IH w k|l IHl r IHr|l IHl r IHr|c IH]; intros [|f] Hf p m Hc HT; simpl in Hf; try lia; cbn [nulterminate];
    pose proof (tree_valid _ _ _ _ _ _ HT) as V; unfold valid in V; rewrite (proj2 (Z.eqb_neq p 0)) by lia;
    rewrite (ubind_run _ _ _ _ _ (eq_refl : load32 p m = URet (ld32 m p) m)).
  - destruct (nul_exec p argv m Hc HT) as (m' & E & C & R). exists m'. destruct HT as (_ & _ & T1 & _). rewrite T1.
    cbn [EXEC Z.eqb Pos.eqb]. by rewrite (ubind_run _ _ _ _ _ E).
  - destruct (nul_redir f p c w k m (IH f ltac:(lia)) Hc HT) as (m' & E & C & R). exists m'. destruct HT as ((_ & _ & T1 & _) & _). rewrite T1.
    cbn [EXEC REDIR Z.eqb Pos.eqb]. by rewrite (ubind_run _ _ _ _ _ E).
  - destruct HT as (_ & HL1 & T1 & T2 & T3).
    destruct (nul_binary f _ p l r m (IHl f ltac:(lia)) (IHr f ltac:(lia)) HL1 ltac:(done) Hc T2 T3) as (m' & E & C & Et & R1 & R2).
    exists m'. rewrite T1. cbn [EXEC REDIR PIPE Z.eqb Pos.eqb]. rewrite (ubind_run _ _ _ _ _ E). split; [done|]. split; [done|]. split; [lia|]. by rewrite Et.
  - destruct HT as (_ & HL1 & T1 & T2 & T3).
    destruct (nul_binary f _ p l r m (IHl f ltac:(lia)) (IHr f ltac:(lia)) HL1 ltac:(done) Hc T2 T3) as (m' & E & C & Et & R1 & R2).
    exists m'. rewrite T1. cbn [EXEC REDIR PIPE LIST Z.eqb Pos.eqb]. rewrite (ubind_run _ _ _ _ _ E). split; [done|]. split; [done|]. split; [lia|]. by rewrite Et.
  - pose proof HT as (_ & HL1 & T1 & T2). rewrite T1. cbn [EXEC REDIR PIPE LIST BACK Z.eqb Pos.eqb].
    destruct (IH f ltac:(lia) _ m Hc T2) as (m1 & E1 & C1 & R1). exists m1.
    assert (Eb : (let! c := load64 (cmd_at p) in do! nulterminate f c; uret tt) m = URet tt m1).
    { by rewrite (ubind_run _ _ _ _ _ (eq_refl : load64 _ m = URet _ m)), (ubind_run _ _ _ _ _ E1). }
    rewrite (ubind_run _ _ _ _ _ Eb). split; [done|]. split; [done|]. split; [lia|].
    rewrite (type_kept m m1 p backcmd_size), (field_kept m m1 p backcmd_size) by (done || (unfold cmd_at, backcmd_size; lia)). done.
Qed.
End Tree.

(** * parsecmd *)

(** Memory of the allocator, and the line. *)
Definition own (v : Z) : Prop := ~ outside v \/ buf <= v <= buf + Z.of_nat (length l0).

Lemma tree_within L m c : (forall v, inside L v -> ~ outside v) -> forall p, tree L m p c -> within own m p c.
Proof.
  intros HL. assert (HN : forall p n v, (p, n) ∈ L -> p <= v < p + n -> own v) by (intros p n v Hp Hv; left; apply HL; by exists (p, n)).
  assert (HW : forall q eq w, located q eq w -> word_within own q w).
  { intros q eq w (r & Hr & -> & _). apply (line_fuel buf l0 Hsited) in Hr as Hf. rewrite length_app in Hf. split; [lia|]. intros v Hv. right.
    apply rest_length in Hr. unfold ShLex.pos, ShLex.es in Hv. rewrite length_app in Hr, Hv. lia. }
  induction c as [argv|c IH w k|l IHl r IHr|l IHl r IHr|c IH]; intros p; simpl.
  - intros (_ & H2 & _ & H4 & H5 & _). split; [by intros v; apply HN|]. split; [done|]. intros i w Hi. by apply (HW _ _ w (H5 i w Hi)).
  - intros ((_ & H2 & _ & H4 & _) & H7). split; [by intros v; apply HN|]. split; [by apply (HW _ _ w H4)|by apply IH].
  - intros (_ & H2 & _ & H4 & H5). split; [by intros v; apply HN|]. auto.
  - intros (_ & H2 & _ & H4 & H5). split; [by intros v; apply HN|]. auto.
  - intros (_ & H2 & _ & H4). split; [by intros v; apply HN|]. auto.
Qed.

Lemma ready_printing m m' : ready m -> same_but (var "putc.c") 1 m m' -> ready m'.
Proof.
  intros H Hm a t Ht. apply (cstr_ext m); [|by apply H]. intros v Hv. apply Hm. destruct (Hsited a t Ht) as (_ & _ & _ & Hs). specialize (Hs v Hv). lia.
Qed.

Lemma line_ustring m l : ready m -> rest_of_line l -> ustring m (pos l) l.
Proof.
  intros HR Hl. destruct (Hsited buf l0 ltac:(by left)) as (_ & _ & Hlen & Ho). pose proof (rest_length l0 l Hl).
  split; [|split; [|by apply (line_fuel buf l0 Hsited)]].
  - destruct Hl as [p E]. pose proof (HR buf l0 ltac:(by left)) as [H1 H2].
    assert (Ep : pos l = buf + Z.of_nat (length p)) by (unfold ShLex.pos, ShLex.es; rewrite E, length_app; lia). rewrite Ep. split.
    + intros i c Hi. rewrite <- Z.add_assoc, <- Nat2Z.inj_add. apply H1. rewrite E. rewrite lookup_app_r by lia. by replace (length p + i - length p)%nat with i by lia.
    + rewrite <- H2. f_equal. rewrite E, length_app. lia.
  - intros Hp. destruct (Ho (var "putc.c")) as [_ ?]; [|done]. unfold ShLex.pos, ShLex.es in Hp. lia.
Qed.

(** What follows parseline() when there are tokens left. *)
Lemma leftovers_exit {A : Type} l m s (Q : A -> mem -> os -> Prop) E : ready m -> rest_of_line l -> (forall s', E 1 s') ->
  uwp ((do! fprintf 2 (litln "leftovers: %s") [pos l]; panic (lit (str "syntax"))) m) s Q E.
Proof.
  intros HR Hl HE. apply uwp_bind.
  set (ps := (PText <$> str "leftovers: ") ++ [PStr (pos l) l; PText 10]). assert (Ea : [pos l] = ps ≫= upiece_args) by done. rewrite Ea.
  apply (fprintf_emits 0 2 m (litln "leftovers: %s") ps).
  - apply Forall_app. split; [by repeat constructor|]. constructor; [|by repeat constructor].
    split; [pose proof (pos_range buf l0 Hsited l Hl); lia|by apply line_ustring].
  - apply (ready_ustring buf l0 Hsited); [done|]. apply in_literals. sh_literal.
  - by intros a Ha.
  - intros m' s' Hm _ _. apply (panic_exits buf l0 Hsited); [by apply (ready_printing m)|split; [done|sh_literal]|done].
Qed.

Lemma tokens_nil l : tokens l = [] <-> lstrip l = [].
Proof.
  rewrite tokens_lex. unfold lex. destruct (lstrip l) as [|c k]; [done|]. cbn [lex1]. split; [|done]. repeat case_match; simplify_eq; done.
Qed.

(** The line in memory is the only thing outside the allocator's memory that parsecmd() writes. *)
Lemma cleared_other m m' v : cleared m m' -> ~ (buf <= v <= buf + Z.of_nat (length l0)) -> ld8 m' v = ld8 m v.
Proof.
  intros H Hv. destruct (H v) as [E|(_ & q & w & r & Hr & _ & -> & _)]; [done|]. apply rest_app, rest_length in Hr. unfold ShLex.pos, ShLex.es in Hv. lia.
Qed.

Lemma parsecmd_spec s m L : ready m -> arena s m (2 * length l0 + 1) L ->
  uwp (parsecmd buf m) s (fun p m' s' => exists c, parse l0 = Some c /\ repr m' p c /\ within own m' p c /\
     forall v, outside v -> ~ (buf <= v <= buf + Z.of_nat (length l0)) -> ld8 m' v = ld8 m v)
    (fun n s' => n = 1 /\ parse l0 = None).
Proof.
  intros HR HA. unfold parsecmd. pose proof (Hsited buf l0 ltac:(by left)) as (Hb & _ & Hlen & _). assert (Hl0 : rest_of_line l0) by (by exists []).
  eapply uwp_bind_run; [apply (strlen_run m buf l0); [by apply HR; left|lia]|]. cbv zeta. fold (ShLex.es buf l0).
  assert (Epos : pos l0 = buf) by (unfold ShLex.pos, ShLex.es; lia). pose proof (tokens_length l0) as Htl.
  destruct (proj1 (p_fuel (4 * length l0 + 4)) (tokens l0)) as [Hn _]; [lia|]. assert (Hfuel : (4 * length l0 + 4 <= parse_fuel)%nat) by (rewrite parse_fuel_eq; lia).
  pose proof (p_line_more _ _ _ Hfuel Hn) as Emore. unfold parse. rewrite <- Emore in *. apply uwp_bind.
  assert (HA' : arena s m (2 * length (tokens l0) + 1 + 2 * (length l0 - length (tokens l0))) L) by (by apply (arena_some s m (2 * length l0 + 1)); [lia|]).
  pose proof (proj1 (parsers buf l0 Hsited parse_fuel) l0 s m _ L Hn Hl0 HA' HR) as HPl. unfold parses in HPl. rewrite Epos in HPl. apply HPl; clear HPl.
  2: { intros ->. done. }
  intros c l' p s1 m1 L1 Hp Hl' H1 HT. rewrite Hp. pose proof (lt_ready _ _ _ _ _ _ _ _ H1) as HR1.
  eapply uwp_bind_run; [apply (peek_run buf l0 Hsited m1 l'); [done|done|sh_literal|done]|]. cbv beta iota.
  destruct (decide (tokens l' = [])) as [E|Hne].
  - rewrite E. apply tokens_nil in E as ->. rewrite (proj2 (Z.eqb_eq _ _)) by (unfold ShLex.pos; simpl; lia). cbn [negb].
    assert (HL1 : forall v, inside L1 v -> ~ outside v) by (intros v; exact (arena_apart s1 m1 _ L1 v (lt_arena _ _ _ _ _ _ _ _ H1))).
    destruct (nulterminate_run L1) with (m0 := m1) (c := c) (f := parse_fuel) (p := p) (m := m1) as (m2 & E2 & C2 & R2); try done.
    + apply (proj1 (p_size _)) in Hp. rewrite parse_fuel_eq. lia.
    + apply cleared_refl.
    + eapply uwp_bind_run; [exact E2|]. exists c. split; [done|]. split; [done|].
      split; [by apply (tree_within L1), (cleared_tree L1 m1)|]. intros v Hv Hv'. rewrite (cleared_other m1 m2) by done.
      apply (lt_same _ _ _ _ _ _ _ _ H1). by left.
  - rewrite (proj2 (Z.eqb_neq _ _)).
    + apply leftovers_exit; [done|by apply rest_strip|]. intros s'. split; [done|]. by destruct (tokens l').
    + rewrite tokens_nil in Hne. unfold ShLex.pos. destruct (lstrip l'); [done|]. simpl. lia.
Qed.
End Terminate.

(** C16. parsecmd() on any line: when the line is a command of the grammar it returns the tree of that command, with every word a C
    string and all of it in the line and in memory of the allocator, and has changed nothing else; when it is not, the shell prints a message
    and exits with status 1. *)
Theorem parsecmd_correct {IM : Image} {OS : Os} {AR : Arena} {SD : Stdio 0 2} buf l s m L :
  sited buf l -> ready buf l m -> arena s m (2 * length l + 1) L ->
  uwp (parsecmd buf m) s (fun p m' s' => exists c, parse l = Some c /\ repr m' p c /\ within (own buf l) m' p c /\
     forall v, outside v -> ~ (buf <= v <= buf + Z.of_nat (length l)) -> ld8 m' v = ld8 m v)
    (fun n s' => n = 1 /\ parse l = None).
Proof. intros Hs. by apply parsecmd_spec. Qed.

(** C17. Printing and parsing are inverse: parsecmd() on the text of a command [c], laid out in any way, returns the tree of [c]. *)
Theorem parsecmd_print {IM : Image} {OS : Os} {AR : Arena} {SD : Stdio 0 2} buf l s m L c :
  sited buf l -> ready buf l m -> arena s m (2 * length l + 1) L -> fits c -> tokens l = print 3 c ->
  uwp (parsecmd buf m) s (fun p m' _ => repr m' p c) (fun _ _ => False).
Proof.
  intros Hs HR HA Hc Ht. pose proof (parse_print c l Hc Ht) as Ep. eapply uwp_mono; [| |exact (parsecmd_spec buf l Hs s m L HR HA)].
  - intros p m' s' (c' & Ec & R & _). rewrite Ep in Ec. by simplify_eq.
  - intros n s' [_ E]. by rewrite Ep in E.
Qed.

(** * A concrete shell

    A kernel that grants memory and has a terminal; the strings of the shell in a table. *)

Definition sh_sys (num : Z) (args : list Z) (m : mem) (s : Z * stream) (a0 : Z) (m' : mem) (s' : Z * stream) : Prop :=
  if num =? SYS_sbrk then sbrk_sys num args m s.1 a0 m' s'.1 /\ s'.2 = s.2
  else stream_sys 0 2 64 num args m s.2 a0 m' s'.2 /\ s'.1 = s.1.

#[local] Instance sh_os : Os := {| os := Z * stream; sys := sh_sys |}.

#[local] Instance sh_stdio : Stdio 0 2.
Proof.
  apply (stream_lift 0 2 64 sh_os snd); [lia| |].
  - by intros num args m s a0 m' s' [-> | ->] [H _].
  - intros num args m s a0 m' t [-> | ->] H; by exists (s.1, t).
Defined.

#[local] Instance sh_sbrk : Sbrk.
Proof.
  refine (@Build_Sbrk sh_os (fun s => @brk _ sbrk_kernel s.1) _ _ _).
  - intros s. apply (@brk_range _ sbrk_kernel).
  - intros m s n Hn. destruct (@sbrk_some _ sbrk_kernel m s.1 n Hn) as (r & m' & s' & H). by exists r, m', (s', s.2).
  - intros m s n r m' s' Hn [H _]. by apply (@sbrk_law _ sbrk_kernel m s.1 n r m' s'.1 Hn).
Defined.

#[local] Instance sh_grants : Grants limit.
Proof.
  split; [by vm_compute|]. intros m s n m' s' Hn Hle [H _]. cbn in Hle. cbn in H. destruct H as (_ & _ & H).
  assert (E : (0 <=? Z.min limit (Z.max 0 s.1) + n) && (Z.min limit (Z.max 0 s.1) + n <=? limit) = true).
  { apply andb_true_intro. split; apply Z.leb_le; unfold limit in *; lia. }
  rewrite E in H. destruct H as [H _]. unfold limit in *. lia.
Qed.

Fixpoint index_of (t : list Z) (ts : list (list Z)) : Z :=
  match ts with [] => 0 | t' :: ts => if bool_decide (t = t') then 0 else 1 + index_of t ts end.

#[local] Instance sh_image : Image := {|
  lit t := 256 + 64 * index_of t sh_literals;
  var v := if bool_decide (v = "umalloc.base"%string) then 64 else if bool_decide (v = "umalloc.freep"%string) then 96
           else if bool_decide (v = "putc.c"%string) then 120 else if bool_decide (v = "sh.whitespace"%string) then 128 else 144 |}.

Lemma sh_placed : placed 4096.
Proof. split; [by vm_compute..|]. left. by vm_compute. Qed.

#[local] Instance sh_arena : Arena := umalloc_arena limit 4096 sh_placed.

Definition put_string (m : mem) (at_ : Z * list Z) : mem := st_bytes m at_.1 (at_.2 ++ [0]).

Definition sh_mem (l : list Z) : mem := fold_left put_string (sh_strings 2000 l) ∅.

(** Where a string lies, and that it is there. *)
Definition sited_at (at_ : Z * list Z) : bool :=
  (120 <? at_.1) && (at_.1 + Z.of_nat (length at_.2) <? 4096) && (Z.of_nat (length at_.2) <? 4000).

Definition stored (m : mem) (at_ : Z * list Z) : bool :=
  bool_decide (bytes_at m at_.1 (length (at_.2 ++ [0])) = at_.2 ++ [0]) && forallb (fun c => negb (c =? 0)) at_.2.

Lemma sited_check l : forallb sited_at (sh_strings 2000 l) = true -> sited 2000 l.
Proof.
  rewrite forallb_forall. intros H a t Ht. specialize (H (a, t)). rewrite <- list_elem_of_In in H. specialize (H Ht). unfold sited_at in H. simpl in H.
  bool_prop. assert (Hf : Z.of_nat str_fuel = 4097) by (vm_compute; reflexivity). split; [lia|]. split; [lia|]. split; [lia|].
  intros v Hv. change (var "putc.c") with 120. split; [|lia]. change (v < 4096 /\ ~ (64 <= v < 80) /\ ~ (96 <= v < 104)). lia.
Qed.

Lemma stored_cstr m a t : stored m (a, t) = true -> cstr_at m a t.
Proof.
  unfold stored. simpl. intros [H1 H2]%andb_prop. apply cstr_of_bytes; [apply bytes_in_at; by apply bool_decide_eq_true in H1|].
  apply Forall_forall. intros c Hc. rewrite forallb_forall in H2. specialize (H2 c). rewrite <- list_elem_of_In in H2. specialize (H2 Hc). lia.
Qed.

Lemma ready_check l m : forallb (stored m) (sh_strings 2000 l) = true -> ready 2000 l m.
Proof. rewrite forallb_forall. intros H a t Ht. apply stored_cstr, H. by rewrite <- list_elem_of_In. Qed.

(** cat < in | wc >> out & ; ls a *)
Definition sample : cmd :=
  CList (CBack (CPipe (CRedir (CExec [str "cat"]) (str "in") RIn) (CRedir (CExec [str "wc"]) (str "out") RApp))) (CExec [str "ls"; str "a"]).

Definition sample_line : list Z := str "cat<in| wc >>out&;ls a" ++ [10].

Definition sh_start : os := (8192, mkStream [] []).

Lemma sample_arena l : ld64 (sh_mem l) freep = 0 -> (length l <= 100)%nat -> arena sh_start (sh_mem l) (2 * length l + 1) [].
Proof.
  intros E Hl. exists [], []. split; [|split].
  - split; [by vm_compute|]. right. done.
  - change (brk sh_start) with 8192. unfold limit. lia.
  - intros x Hx. by apply not_elem_of_nil in Hx.
Qed.

Lemma parsecmd_print_witness : uwp (parsecmd 2000 (sh_mem sample_line)) sh_start (fun p m' _ => repr m' p sample) (fun _ _ => False).
Proof.
  apply (parsecmd_print 2000 sample_line sh_start (sh_mem sample_line) [] sample).
  - apply sited_check. vm_compute. reflexivity.
  - apply ready_check. vm_compute. reflexivity.
  - apply sample_arena; [vm_compute; reflexivity|vm_compute; lia].
  - vm_compute. lia.
  - vm_compute. reflexivity.
Defined.

Lemma parsecmd_correct_witness : let l := str "cat < " ++ [10] in
  uwp (parsecmd 2000 (sh_mem l)) sh_start (fun _ _ _ => False) (fun n _ => n = 1).
Proof.
  intros l. eapply uwp_mono; [| |apply (parsecmd_correct 2000 l sh_start (sh_mem l) [])].
  - intros p m' s' (c & Hc & _). vm_compute in Hc. discriminate.
  - intros n s' [H _]. exact H.
  - apply sited_check. vm_compute. reflexivity.
  - apply ready_check. vm_compute. reflexivity.
  - apply sample_arena; [vm_compute; reflexivity|vm_compute; lia].
Defined.
