(* ===== verification/ShRun.v ===== *)
(** runcmd() of user/sh.c over a kernel with descriptors: whatever the shell executes is a simple command of its tree, with the
    descriptors that its redirections and pipes ask for ([runcmd_correct]). *)

From Stdlib Require Import ZArith Lia.
From stdpp Require Import base gmap list_numbers strings numbers list.
From S2P Require Import Prelude Mem User Ulib UlibSpec Coreutils Umalloc UmallocSpec UmallocProps Arena Sh ShParse ShLex ShTree ShProps.

Open Scope Z_scope.
Open Scope user_scope.

(** * Code that makes no call but write() *)

Fixpoint writes_only {A : Type} (t : uout A) : Prop :=
  match t with
  | ECall num _ _ r => num = SYS_write /\ forall a m, writes_only (r a m)
  | _ => True
  end.

Definition only_writes {A : Type} (u : U A) : Prop := forall m, writes_only (u m).

Create HintDb writes.

Lemma ow_ret {A : Type} (a : A) : only_writes (uret a).
Proof. done. Qed.

Lemma ow_nofuel {A : Type} : only_writes (unofuel : U A).
Proof. done. Qed.

Lemma ow_fault {A : Type} w : only_writes (ufault w : U A).
Proof. done. Qed.

Lemma ow_bind {A B : Type} (u : U A) (f : A -> U B) : only_writes u -> (forall a, only_writes (f a)) -> only_writes (ubind u f).
Proof.
  intros Hu Hf m. unfold ubind. specialize (Hu m). revert Hu. generalize (u m) as t. intros t. induction t as [a m'|n|num args m' r IH|w|]; simpl; auto.
  - intros _. apply Hf.
  - intros [-> H]. split; [done|]. intros a m2. by apply IH.
Qed.

Lemma ow_if {A : Type} (b : bool) (u v : U A) : only_writes u -> only_writes v -> only_writes (if b then u else v).
Proof. by destruct b. Qed.

#[export] Hint Resolve ow_ret ow_nofuel ow_fault ow_if : writes.
#[export] Hint Extern 1 (only_writes (ubind _ _)) => apply ow_bind; [|intros ?] : writes.

Section Prints.
Context {IM : Image}.

Lemma ow_putc fd c : only_writes (putc fd c).
Proof. intros m. split; [done|]. by intros. Qed.

#[local] Hint Resolve ow_putc : writes.

Lemma ow_put_rev fd l : only_writes (put_rev fd l).
Proof. induction l as [|c l IH]; simpl; auto with writes. Qed.

Lemma ow_printint_loop base : forall f x buf, only_writes (printint_loop f x base buf).
Proof. induction f as [|f IH]; intros x buf; cbn [printint_loop]; auto with writes. apply ow_if; auto with writes. destruct (digits !! _); auto with writes. Qed.

#[local] Hint Resolve ow_put_rev ow_printint_loop : writes.

Lemma ow_printint fd x b s : only_writes (printint fd x b s).
Proof. unfold printint. apply ow_bind; auto with writes. Qed.

Lemma ow_printptr_loop fd : forall n x, only_writes (printptr_loop n fd x).
Proof. induction n as [|n IH]; intros x; cbn [printptr_loop]; auto with writes. destruct (digits !! _); auto with writes. Qed.

Lemma ow_put_str fd : forall f s, only_writes (put_str f fd s).
Proof. induction f as [|f IH]; intros s; cbn [put_str]; auto with writes. apply ow_bind; [done|]. intros c. apply ow_if; auto with writes. Qed.

#[local] Hint Resolve ow_printint ow_printptr_loop ow_put_str : writes.

Lemma ow_va_arg {A : Type} ap (f : Z * list Z -> U A) : (forall v, only_writes (f v)) -> only_writes (ubind (va_arg ap) f).
Proof. intros H. apply ow_bind; [by destruct ap|done]. Qed.

Lemma ow_convert fd c ap : only_writes (convert fd c ap).
Proof.
  unfold convert, printptr. repeat apply ow_if; try (apply ow_va_arg; intros [v ap']); auto 10 with writes.
Qed.

Lemma ow_vprintf_loop fd fmt : forall f i state ap, only_writes (vprintf_loop f fd fmt i state ap).
Proof.
  induction f as [|f IH]; intros i state ap; cbn [vprintf_loop]; auto with writes. apply ow_bind; [done|]. intros c.
  repeat apply ow_if; auto with writes; apply ow_bind; auto using ow_convert with writes.
Qed.

Lemma ow_fprintf fd fmt ap : only_writes (fprintf fd fmt ap).
Proof. unfold fprintf, vprintf. apply ow_vprintf_loop. Qed.
End Prints.

(** * Runs that end in exit() or exec() *)

Section Calls.
Context {OS : Os}.

(** Like [uwp], but a call of exec() need not return and satisfies [P]. *)
Fixpoint calls {A : Type} (t : uout A) (s : os) (P : list Z -> mem -> os -> Prop) (Q : A -> mem -> os -> Prop) (E : Z -> os -> Prop) : Prop :=
  match t with
  | URet a m => Q a m s
  | UExit n => E n s
  | ECall num args m r =>
      (if num =? SYS_exec then P args m s else exists a0 m' s', sys num args m s a0 m' s') /\
      forall a0 m' s', sys num args m s a0 m' s' -> calls (r a0 m') s' P Q E
  | UFault _ | UNoFuel => False
  end.

Lemma calls_mono {A : Type} (t : uout A) (P P' : list Z -> mem -> os -> Prop) Q E :
  (forall args m s, P args m s -> P' args m s) -> forall s, calls t s P Q E -> calls t s P' Q E.
Proof.
  intros HP. induction t as [a m|n|num args m r IH|w|]; intros s; simpl; auto.
  intros [Hx H]. split; [case_match; auto|]. intros a0 m' s' Hs. apply IH. by apply (H a0 m').
Qed.

Lemma calls_bind {A B : Type} (u : U A) (f : A -> U B) m s P Q E :
  calls (u m) s P (fun a m' s' => calls (f a m') s' P Q E) E -> calls (ubind u f m) s P Q E.
Proof.
  unfold ubind. generalize (u m) as t. intros t. revert s. induction t as [a m'|n|num args m' r IH|w|]; intros s; simpl; auto.
  intros [Hx H]. split; [done|]. intros a0 m2 s' Hs. apply IH. by apply (H a0 m2).
Qed.

Lemma calls_run {A B : Type} (u : U A) (f : A -> U B) m a m' s P Q E :
  u m = URet a m' -> calls (f a m') s P Q E -> calls (ubind u f m) s P Q E.
Proof. intros Hu Hf. unfold ubind. by rewrite Hu. Qed.

(** A call other than exec(). *)
Lemma calls_call {A : Type} num args (f : Z -> U A) m s P Q E :
  num <> SYS_exec -> (exists a0 m' s', sys num args m s a0 m' s') ->
  (forall a0 m' s', sys num args m s a0 m' s' -> calls (f (i32 a0) m') s' P Q E) -> calls (ubind (entry_int num args) f m) s P Q E.
Proof. intros Hn Hx H. simpl. rewrite (proj2 (Z.eqb_neq num SYS_exec)) by done. done. Qed.

Lemma calls_writes {A : Type} (t : uout A) P Q E : forall s, writes_only t -> uwp t s Q E -> calls t s P Q E.
Proof.
  induction t as [a m|n|num args m r IH|w|]; intros s; simpl; auto. intros [-> Hw] [Hx H]. split; [done|]. intros a0 m' s' Hs. apply IH; [apply Hw|by apply (H a0 m')].
Qed.
End Calls.

(** * Descriptors *)

(** What a descriptor refers to. *)
Inductive desc : Type := DFile (path : list Z) (mode : Z) | DRead (pipe : Z) | DWrite (pipe : Z) | DOther (n : Z).

(** [fd] is the lowest descriptor that is not in use. *)
Definition lowest (F : gmap Z desc) (fd : Z) : Prop := 0 <= fd < 16 /\ F !! fd = None /\ forall i, 0 <= i < fd -> is_Some (F !! i).

(** What the shell relies on of the calls that it makes; results are those of the int stubs.  exec() returns only when it fails. *)
Class Unix {OS : Os} := {
  fds : os -> gmap Z desc;
  unix_returns : forall num args m s, num ∈ [SYS_fork; SYS_wait; SYS_pipe; SYS_close; SYS_dup; SYS_open] ->
    exists a0 m' s', sys num args m s a0 m' s';
  fork_law : forall m s r m' s', sys SYS_fork [] m s r m' s' -> m' = m /\ fds s' = fds s;
  wait_law : forall m s r m' s', sys SYS_wait [0] m s r m' s' -> m' = m /\ fds s' = fds s;
  exec_law : forall p argv m s r m' s', sys SYS_exec [p; argv] m s r m' s' -> m' = m /\ fds s' = fds s;
  close_law : forall fd m s r m' s', sys SYS_close [fd] m s r m' s' -> m' = m /\ fds s' = delete fd (fds s);
  open_law : forall p w mode m s r m' s', cstr_at m p w -> sys SYS_open [p; mode] m s r m' s' ->
    m' = m /\ ((i32 r < 0 /\ fds s' = fds s) \/ (lowest (fds s) (i32 r) /\ fds s' = <[i32 r := DFile w mode]> (fds s)));
  dup_law : forall fd f m s r m' s', fds s !! fd = Some f -> sys SYS_dup [fd] m s r m' s' ->
    m' = m /\ ((i32 r < 0 /\ (forall i, 0 <= i < 16 -> is_Some (fds s !! i)) /\ fds s' = fds s) \/
               (lowest (fds s) (i32 r) /\ fds s' = <[i32 r := f]> (fds s)));
  pipe_law : forall p m s r m' s', sys SYS_pipe [p] m s r m' s' ->
    (i32 r < 0 /\ m' = m) \/
    (0 <= i32 r /\ exists a b i, lowest (fds s) a /\ lowest (<[a := DRead i]> (fds s)) b /\ m' = st32 (st32 m p a) (p + 4) b /\
       fds s' = <[b := DWrite i]> (<[a := DRead i]> (fds s)));
}.

(** The simple commands that the execution of [c] with the descriptors [F] comes to, and their descriptors. *)
Inductive execs : cmd -> gmap Z desc -> list (list Z) -> gmap Z desc -> Prop :=
| ex_exec argv F : execs (CExec argv) F argv F
| ex_redir c w k F argv F' : execs c (<[kfd k := DFile w (kmode k)]> F) argv F' -> execs (CRedir c w k) F argv F'
| ex_left l r i F argv F' : execs l (<[1 := DWrite i]> F) argv F' -> execs (CPipe l r) F argv F'
| ex_right l r i F argv F' : execs r (<[0 := DRead i]> F) argv F' -> execs (CPipe l r) F argv F'
| ex_first l r F argv F' : execs l F argv F' -> execs (CList l r) F argv F'
| ex_second l r F argv F' : execs r F argv F' -> execs (CList l r) F argv F'
| ex_back c F argv F' : execs c F argv F' -> execs (CBack c) F argv F'.

(** The arguments of exec(): the words of [argv], and a null pointer. *)
Definition exec_args (m : mem) (args : list Z) (argv : list (list Z)) : Prop := exists w ws a,
  argv = w :: ws /\ args = [ld64 m a; a] /\ (forall i w, argv !! i = Some w -> cstr_at m (ld64 m (a + 8 * Z.of_nat i)) w) /\
  ld64 m (a + 8 * Z.of_nat (length argv)) = 0.

(** Standard input and output are in use. *)
Definition std (F : gmap Z desc) : Prop := is_Some (F !! 0) /\ is_Some (F !! 1).

Lemma std_insert F fd f : std F -> std (<[fd := f]> F).
Proof. intros [H0 H1]. split; rewrite lookup_insert_is_Some'; auto. Qed.

(** A descriptor 0 or 1 that has just been closed is the lowest one. *)
Lemma lowest_std F fd r : std F -> fd = 0 \/ fd = 1 -> lowest (delete fd F) r -> r = fd.
Proof.
  intros [H0 H1] Hfd (Hr & Hn & Hlow). destruct (decide (r = fd)) as [|Hne]; [done|]. exfalso.
  rewrite lookup_delete_ne in Hn by done. destruct (decide (fd < r)).
  - destruct (Hlow fd) as [x Hx]; [lia|]. by rewrite lookup_delete_eq in Hx.
  - assert (r = 0) as -> by lia. rewrite Hn in H0. by destruct H0.
Qed.

(** The tree of a command depends on the bytes it lies in. *)
Lemma word_frame (R : Z -> Prop) m m' q w : (forall v, R v -> ld8 m' v = ld8 m v) -> word_within R q w -> cstr_at m q w -> cstr_at m' q w.
Proof. intros H [_ Hw]. apply cstr_ext. intros v Hv. apply H. by apply Hw. Qed.

Lemma node_frame (R : Z -> Prop) m m' p k n a : (forall v, R v -> ld8 m' v = ld8 m v) -> (forall v, p <= v < p + k -> R v) ->
  p <= a -> a + Z.of_nat n <= p + k -> ldn n m' a = ldn n m a.
Proof. intros H Hp. apply (ldn_in n m m' p k). auto. Qed.

Lemma repr_frame (R : Z -> Prop) m m' c : (forall v, R v -> ld8 m' v = ld8 m v) -> forall p, within R m p c -> repr m p c ->
  within R m' p c /\ repr m' p c.
Proof.
  intros H. induction c as [argv|c IH w k|l IHl r IHr|l IHl r IHr|c IH]; intros p; cbn [within repr].
  - intros (W1 & W2 & W3) (P0 & P1 & P2 & P3 & P4).
    assert (Es : forall n a, p <= a -> a + Z.of_nat n <= p + execcmd_size -> ldn n m' a = ldn n m a) by (intros n a; by apply (node_frame R)).
    assert (Ea : forall i, (i <= 9)%nat -> ld64 m' (argv_at p (Z.of_nat i)) = ld64 m (argv_at p (Z.of_nat i))).
    { intros i Hi. apply Es; unfold argv_at, execcmd_size; simpl; lia. }
    split; split_and!; try done; try (rewrite Ea by lia; done).
    + intros i w Hi. pose proof (lookup_lt_Some _ _ _ Hi). rewrite Ea by lia. by apply W3.
    + rewrite <- P1. apply Es; unfold execcmd_size; simpl; lia.
    + intros i w Hi. pose proof (lookup_lt_Some _ _ _ Hi). rewrite Ea by lia. apply (word_frame R m); [done|by apply W3|by apply P2].
    + intros i Hi. rewrite Ea by lia. by apply P3.
  - intros (W1 & W2 & W3) (P0 & P1 & [P2 P2'] & P3 & P4 & P5). destruct (IH _ W3 P5) as [IW IR].
    assert (Es : forall n a, p <= a -> a + Z.of_nat n <= p + redircmd_size -> ldn n m' a = ldn n m a) by (intros n a; by apply (node_frame R)).
    unfold redircmd_size, ld32, ld64 in *. rewrite !Es by (unfold cmd_at, file_at, mode_at, fd_at; simpl; lia). split; split_and!; try done.
    by apply (word_frame R m).
  - intros (W1 & W2 & W3) (P0 & P1 & P2 & P3). destruct (IHl _ W2 P2), (IHr _ W3 P3).
    assert (Es : forall n a, p <= a -> a + Z.of_nat n <= p + pipecmd_size -> ldn n m' a = ldn n m a) by (intros n a; by apply (node_frame R)).
    unfold pipecmd_size, ld32, ld64 in *. rewrite !Es by (unfold left_at, right_at; simpl; lia). done.
  - intros (W1 & W2 & W3) (P0 & P1 & P2 & P3). destruct (IHl _ W2 P2), (IHr _ W3 P3).
    assert (Es : forall n a, p <= a -> a + Z.of_nat n <= p + listcmd_size -> ldn n m' a = ldn n m a) by (intros n a; by apply (node_frame R)).
    unfold listcmd_size, ld32, ld64 in *. rewrite !Es by (unfold left_at, right_at; simpl; lia). done.
  - intros (W1 & W2) (P0 & P1 & P2). destruct (IH _ W2 P2).
    assert (Es : forall n a, p <= a -> a + Z.of_nat n <= p + backcmd_size -> ldn n m' a = ldn n m a) by (intros n a; by apply (node_frame R)).
    unfold backcmd_size, ld32, ld64 in *. rewrite !Es by (unfold cmd_at; simpl; lia). done.
Qed.

(** * runcmd *)

(** The literals of runcmd(), fork1() and panic(). *)
Definition run_literals : list (list Z) :=
  [str "%s" ++ [10]; str "exec %s failed" ++ [10]; str "open %s failed" ++ [10]; str "pipe"; str "fork"; str "runcmd"].

Section Run.
Context {IM : Image} {OS : Os} {SD : Stdio 0 2} {UX : Unix} (R : Z -> Prop).
Implicit Types (m : mem) (s : os).

(** The bytes of the variables p of runcmd() and c of putc(). *)
Definition scratch (v : Z) : Prop := var "runcmd.p" <= v < var "runcmd.p" + 8.

(** The literals are in memory, away from these variables. *)
Definition texts m : Prop := forall t, t ∈ run_literals -> lit t <> 0 /\ ustring m (lit t) t /\
  forall v, lit t <= v <= lit t + Z.of_nat (length t) -> ~ scratch v.

Context (HR : forall v, R v -> ~ scratch v /\ v <> var "putc.c").

Lemma texts_frame m m' : texts m -> (forall v, ~ scratch v -> ld8 m' v = ld8 m v) -> texts m'.
Proof.
  intros H Hm t Ht. destruct (H t Ht) as (H1 & (H2 & H3 & H4) & H5). split; [done|]. split; [|done]. split; [|done].
  apply (cstr_ext m); [|done]. intros v Hv. by apply Hm, H5.
Qed.

(** A message, and the end of the process. *)
Lemma message_exits {A : Type} fmt ps n m s P (Q : A -> mem -> os -> Prop) (E : Z -> os -> Prop) :
  Forall (upiece_ok m) ps -> ustring m fmt (ps ≫= upiece_fmt) -> (forall s', E (i32 n) s') ->
  calls ((do! fprintf 2 fmt (ps ≫= upiece_args); exit n) m) s P Q E.
Proof.
  intros Hps Hf HE. apply calls_bind, calls_writes; [exact (ow_fprintf 2 fmt _ m)|]. apply (fprintf_emits 0 2 m fmt ps Hps Hf); [by intros a Ha|].
  intros m' s' _ _ _. apply HE.
Qed.

Definition ends_ok (n : Z) (_ : os) : Prop := n = 0 \/ n = 1.

Lemma panic_calls {A : Type} t m s P (Q : A -> mem -> os -> Prop) : texts m -> t ∈ run_literals -> calls (panic (lit t) m) s P Q ends_ok.
Proof.
  intros H Ht. destruct (H t Ht) as (H1 & H2 & _). destruct (H (str "%s" ++ [10]) ltac:(sh_literal)) as (_ & H3 & _).
  apply (message_exits (litln "%s") [PStr (lit t) t; PText 10]); [|exact H3|by right]. constructor; [done|by repeat constructor].
Qed.

(** "exec %s failed" and "open %s failed". *)
Lemma failed_exits {A : Type} (verb : string) n q w m s P (Q : A -> mem -> os -> Prop) :
  verb = "exec"%string \/ verb = "open"%string -> n = 0 \/ n = 1 -> texts m -> q <> 0 -> cstr_at m q w -> word_within R q w ->
  calls ((do! fprintf 2 (lit (str verb ++ str " %s failed" ++ [10])) [q]; exit n) m) s P Q ends_ok.
Proof.
  intros Hv Hn H Hq Hw [Hl HW]. assert (Hs : ustring m q w).
  { split; [done|]. split; [|done]. intros Hc. by destruct (HR _ (HW _ Hc)). }
  set (ps := (PText <$> (str verb ++ str " ")) ++ [PStr q w] ++ (PText <$> (str " failed" ++ [10]))).
  assert (Ea : [q] = ps ≫= upiece_args) by (by destruct Hv as [-> | ->]). rewrite Ea. apply message_exits.
  - unfold ps. rewrite !Forall_app. split; [destruct Hv as [-> | ->]; by repeat constructor|]. split; [constructor; [done|constructor]|by repeat constructor].
  - destruct Hv as [-> | ->]; [destruct (H (str "exec %s failed" ++ [10]) ltac:(sh_literal)) as (_ & H3 & _); exact H3|].
    destruct (H (str "open %s failed" ++ [10]) ltac:(sh_literal)) as (_ & H3 & _). exact H3.
  - intros s'. destruct Hn as [-> | ->]; [by left|by right].
Qed.

Lemma fork1_calls {A : Type} (f : Z -> U A) m s P Q : texts m ->
  (forall pid s', fds s' = fds s -> calls (f pid m) s' P Q ends_ok) -> calls ((let! pid := fork1 in f pid) m) s P Q ends_ok.
Proof.
  intros H K. apply calls_bind. unfold fork1. apply calls_call; [done|apply unix_returns; sh_literal|]. intros a0 m' s' Hs.
  apply fork_law in Hs as [-> Hf]. destruct (i32 a0 =? -1); [apply panic_calls; [done|sh_literal]|]. by apply K.
Qed.

Lemma close_calls {A : Type} fd (f : Z -> U A) m s P Q E :
  (forall r s', fds s' = delete fd (fds s) -> calls (f r m) s' P Q E) -> calls ((let! r := close fd in f r) m) s P Q E.
Proof.
  intros K. apply calls_call; [done|apply unix_returns; sh_literal|]. intros a0 m' s' Hs. apply close_law in Hs as [-> Hf]. by apply K.
Qed.

Lemma wait_calls {A : Type} (f : Z -> U A) m s P Q E :
  (forall r s', fds s' = fds s -> calls (f r m) s' P Q E) -> calls ((let! r := wait 0 in f r) m) s P Q E.
Proof.
  intros K. apply calls_call; [done|apply unix_returns; sh_literal|]. intros a0 m' s' Hs. apply wait_law in Hs as [-> Hf]. by apply K.
Qed.

(** dup() of [fd] when 0 or 1 has just been closed. *)
Lemma dup_calls {A : Type} fd std_fd g F (f : Z -> U A) m s P Q E :
  std F -> std_fd = 0 \/ std_fd = 1 -> fds s = delete std_fd F -> fds s !! fd = Some g ->
  (forall r s', fds s' = <[std_fd := g]> (fds s) -> calls (f r m) s' P Q E) -> calls ((let! r := dup fd in f r) m) s P Q E.
Proof.
  intros HF Hstd E0 Hg K. apply calls_call; [done|apply unix_returns; sh_literal|]. intros a0 m' s' Hs. apply (dup_law fd g) in Hs as [-> Hd]; [|done].
  destruct Hd as [(_ & Hall & _)|[Hlow Hf]].
  - exfalso. destruct (Hall std_fd) as [x Hx]; [lia|]. rewrite E0, lookup_delete_eq in Hx. done.
  - apply K. rewrite Hf. f_equal. rewrite E0 in Hlow. by apply (lowest_std F).
Qed.

(** The descriptors of a child of a pipe. *)
Lemma pipe_fds (F : gmap Z desc) a b fd f x y : F !! a = None -> F !! b = None -> fd <> a -> fd <> b ->
  delete b (delete a (<[fd := f]> (delete fd (<[b := x]> (<[a := y]> F))))) = <[fd := f]> F.
Proof.
  intros Ha Hb Hfa Hfb. apply map_eq. intros i. destruct (decide (i = b)) as [->|Hib]; [by rewrite lookup_delete_eq, lookup_insert_ne by done|].
  rewrite lookup_delete_ne by done. destruct (decide (i = a)) as [->|Hia]; [by rewrite lookup_delete_eq, lookup_insert_ne by done|].
  rewrite lookup_delete_ne by done. destruct (decide (i = fd)) as [->|Hif]; [by rewrite !lookup_insert_eq|].
  by rewrite !lookup_insert_ne, lookup_delete_ne, !lookup_insert_ne by done.
Qed.

(** p[0] and p[1] after pipe(): two new descriptors, above the standard ones. *)
Record piped m (F F1 : gmap Z desc) (a b i : Z) : Prop := {
  pp_read : ld32 m (var "runcmd.p") = a;
  pp_write : ld32 m (var "runcmd.p" + 4) = b;
  pp_range : 2 <= a < 16 /\ 2 <= b < 16 /\ a <> b;
  pp_new : F !! a = None /\ F !! b = None;
  pp_fds : F1 = <[b := DWrite i]> (<[a := DRead i]> F);
}.

Lemma piped_intro m F a b i : std F -> lowest F a -> lowest (<[a := DRead i]> F) b ->
  piped (st32 (st32 m (var "runcmd.p") a) (var "runcmd.p" + 4) b) F (<[b := DWrite i]> (<[a := DRead i]> F)) a b i.
Proof.
  intros [[x0 H0] [x1 H1]] (Ha & Hna & _) (Hb & Hnb & _). assert (Hab : a <> b) by (intros ->; by rewrite lookup_insert_eq in Hnb).
  rewrite lookup_insert_ne in Hnb by done.
  assert (forall x, 0 <= x < 16 -> F !! x = None -> 2 <= x) by (intros x Hx Hn; destruct (decide (x = 0)) as [->|]; [congruence|]; destruct (decide (x = 1)) as [->|]; [congruence|lia]).
  split; [field|field| |done|done]. split_and!; auto; lia.
Qed.

Lemma small_fd x : 0 <= x < 16 -> i32 x = x.
Proof. intros. apply i32_small. lia. Qed.

(** close(p[0]); close(p[1]); *)
Lemma close_both {A : Type} m F F1 a b i (k : U A) s P Q E : piped m F F1 a b i ->
  (forall s', fds s' = delete b (delete a (fds s)) -> calls (k m) s' P Q E) ->
  calls ((let! p0 := load32 (var "runcmd.p") in do! close (i32 p0); let! p1 := load32 (var "runcmd.p" + 4) in do! close (i32 p1); k) m) s P Q E.
Proof.
  intros [H1 H2 H3 _ _] K. eapply calls_run; [reflexivity|]. rewrite H1, small_fd by lia. apply close_calls. intros _ s1 E1.
  eapply calls_run; [reflexivity|]. rewrite H2, small_fd by lia. apply close_calls. intros _ s2 E2. apply K. by rewrite E2, E1.
Qed.

(** close(fd); dup(p[..]); close(p[0]); close(p[1]); in a child. *)
Lemma child_calls {A : Type} m F F1 a b i fd q f (k : U A) s P Q E : std F -> piped m F F1 a b i -> fds s = F1 ->
  (fd = 1 /\ q = var "runcmd.p" + 4 /\ f = DWrite i) \/ (fd = 0 /\ q = var "runcmd.p" /\ f = DRead i) ->
  (forall s', fds s' = <[fd := f]> F -> calls (k m) s' P Q E) ->
  calls ((do! close fd; let! x := load32 q in do! dup (i32 x);
          let! p0 := load32 (var "runcmd.p") in do! close (i32 p0); let! p1 := load32 (var "runcmd.p" + 4) in do! close (i32 p1); k) m) s P Q E.
Proof.
  intros HF HP EF Hc K. pose proof HP as [H1 H2 H3 [H4 H5] H6]. apply close_calls. intros _ s1 E1. eapply calls_run; [reflexivity|].
  set (x := ld32 m q). assert (Hx : i32 x = x /\ fds s1 !! x = Some f).
  { rewrite E1, EF, H6. unfold x. destruct Hc as [(-> & -> & ->)|(-> & -> & ->)]; rewrite ?H1, ?H2, small_fd by lia; (split; [done|]).
    - rewrite lookup_delete_ne by lia. by rewrite lookup_insert_eq.
    - rewrite lookup_delete_ne by lia. rewrite lookup_insert_ne by lia. by rewrite lookup_insert_eq. }
  destruct Hx as [-> Hx]. apply (dup_calls x fd f F1); [rewrite H6; by do 2 apply std_insert|lia|by rewrite E1, EF|done|]. intros _ s2 E2.
  apply (close_both m F F1 a b i); [done|]. intros s3 E3. apply K. rewrite E3, E2, E1, EF, H6. apply pipe_fds; [done|done|lia|lia].
Qed.

(** What is executed is a simple command of [c]. *)
Definition runs (c : cmd) (F : gmap Z desc) (args : list Z) m s : Prop := exists argv, execs c F argv (fds s) /\ exec_args m args argv.

Definition run_ok (f : nat) (c : cmd) : Prop := forall p m s, texts m -> repr m p c -> within R m p c -> std (fds s) ->
  calls (runcmd f p m) s (runs c (fds s)) (fun _ _ _ => False) ends_ok.

(** runcmd() of a part of [c]. *)
Lemma run_part f c c' p m s F F' : run_ok f c' -> texts m -> repr m p c' -> within R m p c' -> std F' -> fds s = F' ->
  (forall argv F2, execs c' F' argv F2 -> execs c F argv F2) -> calls (runcmd f p m) s (runs c F) (fun _ _ _ => False) ends_ok.
Proof.
  intros H HT HP HW Hs E HE. rewrite <- E in Hs. eapply calls_mono; [|by apply H]. intros args m' s' (argv & Hx & Ha). exists argv. split; [|done].
  apply HE. by rewrite <- E.
Qed.

Lemma run_exec argv p m s : texts m -> repr m p (CExec argv) -> within R m p (CExec argv) ->
  calls ((let! a := load64 (argv_at p 0) in if a =? 0 then exit 1 else
          let! a := load64 (argv_at p 0) in do! exec a (argv_at p 0);
          let! a := load64 (argv_at p 0) in do! fprintf 2 (litln "exec %s failed") [a]; exit 0 : U unit) m) s
    (runs (CExec argv) (fds s)) (fun _ _ _ => False) ends_ok.
Proof.
  intros HT (_ & _ & P2 & P3 & P4) (_ & _ & W3). eapply calls_run; [reflexivity|]. destruct argv as [|w ws].
  - change (argv_at p 0) with (argv_at p (Z.of_nat (length ([] : list (list Z))))). rewrite P4. by right.
  - pose proof (P3 0%nat ltac:(simpl; lia)) as Hq. pose proof (P2 0%nat w eq_refl) as Hw. pose proof (W3 0%nat w eq_refl) as Ww. simpl in Hq, Hw, Ww.
    rewrite (proj2 (Z.eqb_neq _ 0)) by done. eapply calls_run; [reflexivity|]. split.
    + exists (w :: ws). split; [constructor|]. exists w, ws, (argv_at p 0). unfold argv_at in *. split; [done|]. split; [done|].
      replace (p + 8 + 8 * 0) with (p + 8) by lia. split; [exact P2|exact P4].
    + intros a0 m' s' Hs. apply exec_law in Hs as [-> _]. eapply calls_run; [reflexivity|]. by apply (failed_exits "exec" 0 _ w); auto.
Qed.

Lemma run_redir f c w k p m s : run_ok f c -> texts m -> repr m p (CRedir c w k) -> within R m p (CRedir c w k) -> std (fds s) ->
  calls ((let! fd := load32 (fd_at p) in do! close (i32 fd);
          let! file := load64 (file_at p) in let! mode := load32 (mode_at p) in let! r := open file (i32 mode) in
          if r <? 0 then let! file := load64 (file_at p) in do! fprintf 2 (litln "open %s failed") [file]; exit 1
          else let! c := load64 (cmd_at p) in runcmd f c) m) s (runs (CRedir c w k) (fds s)) (fun _ _ _ => False) ends_ok.
Proof.
  intros IH HT (_ & _ & [P2 P2'] & P3 & P4 & P5) (_ & W2 & W3) Hstd. eapply calls_run; [reflexivity|]. rewrite P4.
  assert (Hk : i32 (kfd k) = kfd k /\ i32 (kmode k) = kmode k /\ (kfd k = 0 \/ kfd k = 1)) by (destruct k; vm_compute; auto).
  destruct Hk as (-> & Ek & Hfd). apply close_calls. intros _ s1 E1. do 2 (eapply calls_run; [reflexivity|]). rewrite P3, Ek.
  apply calls_call; [done|apply unix_returns; sh_literal|]. intros r m' s2 Hs. apply (open_law _ w) in Hs as (-> & Ho); [|done].
  destruct Ho as [(Hr & _)|(Hlow & E2)].
  - rewrite (proj2 (Z.ltb_lt _ 0)) by done. eapply calls_run; [reflexivity|]. by apply (failed_exits "open" 1 _ w); auto.
  - assert (Er : i32 r = kfd k) by (rewrite E1 in Hlow; by apply (lowest_std (fds s))). rewrite (proj2 (Z.ltb_ge _ 0)) by lia.
    eapply calls_run; [reflexivity|]. apply (run_part f _ c _ m s2 (fds s) (<[kfd k := DFile w (kmode k)]> (fds s))); try done.
    + by apply std_insert.
    + by rewrite E2, E1, Er, insert_delete_eq.
    + intros argv F2. apply ex_redir.
Qed.

Lemma run_list f l r p m s : run_ok f l -> run_ok f r -> texts m -> repr m p (CList l r) -> within R m p (CList l r) -> std (fds s) ->
  calls ((let! pid := fork1 in if pid =? 0 then let! l := load64 (left_at p) in runcmd f l else
          do! wait 0; let! r := load64 (right_at p) in runcmd f r) m) s (runs (CList l r) (fds s)) (fun _ _ _ => False) ends_ok.
Proof.
  intros IHl IHr HT (_ & _ & P2 & P3) (_ & W2 & W3) Hstd. apply fork1_calls; [done|]. intros pid s1 E1. destruct (pid =? 0).
  - eapply calls_run; [reflexivity|]. apply (run_part f _ l _ m s1 (fds s) (fds s)); try done. intros argv F2. apply ex_first.
  - apply wait_calls. intros _ s2 E2. eapply calls_run; [reflexivity|]. rewrite E1 in E2.
    apply (run_part f _ r _ m s2 (fds s) (fds s)); try done. intros argv F2. apply ex_second.
Qed.

Lemma run_back f c p m s : run_ok f c -> texts m -> repr m p (CBack c) -> within R m p (CBack c) -> std (fds s) ->
  calls ((let! pid := fork1 in if pid =? 0 then let! c := load64 (cmd_at p) in runcmd f c else exit 0) m) s
    (runs (CBack c) (fds s)) (fun _ _ _ => False) ends_ok.
Proof.
  intros IH HT (_ & _ & P2) (_ & W2) Hstd. apply fork1_calls; [done|]. intros pid s1 E1. destruct (pid =? 0); [|by left].
  eapply calls_run; [reflexivity|]. apply (run_part f _ c _ m s1 (fds s) (fds s)); try done. intros argv F2. apply ex_back.
Qed.

Lemma run_pipe f l r p m s : run_ok f l -> run_ok f r -> texts m -> repr m p (CPipe l r) -> within R m p (CPipe l r) -> std (fds s) ->
  calls ((let! x := pipe (var "runcmd.p") in
          if x <? 0 then panic (lit (str "pipe")) else
          let! pid := fork1 in
          if pid =? 0 then
            do! close 1; let! p1 := load32 (var "runcmd.p" + 4) in do! dup (i32 p1);
            let! p0 := load32 (var "runcmd.p") in do! close (i32 p0); let! p1 := load32 (var "runcmd.p" + 4) in do! close (i32 p1);
            let! l := load64 (left_at p) in runcmd f l
          else
          let! pid := fork1 in
          if pid =? 0 then
            do! close 0; let! p0 := load32 (var "runcmd.p") in do! dup (i32 p0);
            let! p0 := load32 (var "runcmd.p") in do! close (i32 p0); let! p1 := load32 (var "runcmd.p" + 4) in do! close (i32 p1);
            let! r := load64 (right_at p) in runcmd f r
          else
          let! p0 := load32 (var "runcmd.p") in do! close (i32 p0); let! p1 := load32 (var "runcmd.p" + 4) in do! close (i32 p1);
          do! wait 0; do! wait 0; exit 0) m) s (runs (CPipe l r) (fds s)) (fun _ _ _ => False) ends_ok.
Proof.
  intros IHl IHr HT HP HW Hstd. apply calls_call; [done|apply unix_returns; sh_literal|]. intros x m1 s1 Hs.
  apply pipe_law in Hs as [(Hx & ->)|(Hx & a & b & i & Ha & Hb & -> & E1)].
  { rewrite (proj2 (Z.ltb_lt _ 0)) by done. apply panic_calls; [done|sh_literal]. }
  rewrite (proj2 (Z.ltb_ge _ 0)) by done. pose proof (piped_intro m (fds s) a b i Hstd Ha Hb) as HPP.
  set (m1 := st32 (st32 m (var "runcmd.p") a) (var "runcmd.p" + 4) b) in *.
  assert (Hm : forall v, ~ scratch v -> ld8 m1 v = ld8 m v) by (intros v Hv; unfold scratch in Hv; unfold m1; by field_out).
  pose proof (texts_frame m m1 HT Hm) as HT1. destruct (repr_frame R m m1 (CPipe l r)) with (p := p) as [HW1 HP1]; [intros v Hv; apply Hm; by apply HR|done|done|].
  destruct HP1 as (_ & _ & P2 & P3). destruct HW1 as (_ & W2 & W3). rewrite <- E1 in HPP.
  apply fork1_calls; [done|]. intros pid s2 E2. destruct (pid =? 0).
  - apply (child_calls m1 (fds s) (fds s1) a b i 1 _ (DWrite i)); [done|done|done|by left|]. intros s3 E3. eapply calls_run; [reflexivity|].
    apply (run_part f _ l _ m1 s3 (fds s) (<[1 := DWrite i]> (fds s))); try done; [by apply std_insert|]. intros argv F2. apply ex_left.
  - apply fork1_calls; [done|]. intros pid2 s3 E3. rewrite E2 in E3. destruct (pid2 =? 0).
    + apply (child_calls m1 (fds s) (fds s1) a b i 0 _ (DRead i)); [done|done|done|by right|]. intros s4 E4. eapply calls_run; [reflexivity|].
      apply (run_part f _ r _ m1 s4 (fds s) (<[0 := DRead i]> (fds s))); try done; [by apply std_insert|]. intros argv F2. apply ex_right.
    + apply (close_both m1 (fds s) (fds s1) a b i); [done|]. intros s4 _. apply wait_calls. intros _ s5 _. apply wait_calls. intros _ s6 _. by left.
Qed.

Lemma runcmd_run c : forall f, (size c <= f)%nat -> run_ok f c.
Proof.
  induction c as [argv|c IH w k|l IHl r IHr|l IHl r IHr|c IH]; intros [|f] Hf p m s HT HP HW Hs; simpl in Hf; try lia; cbn [runcmd];
    pose proof HP as [Hp0 Hp]; rewrite (proj2 (Z.eqb_neq p 0)) by done; (eapply calls_run; [reflexivity|]); destruct Hp as [-> _].
  - cbn [EXEC Z.eqb Pos.eqb]. by apply run_exec.
  - cbn [EXEC REDIR Z.eqb Pos.eqb]. apply run_redir; try done. apply IH. lia.
  - cbn [EXEC REDIR LIST PIPE Z.eqb Pos.eqb]. apply run_pipe; try done; [apply IHl|apply IHr]; lia.
  - cbn [EXEC REDIR LIST PIPE Z.eqb Pos.eqb]. apply run_list; try done; [apply IHl|apply IHr]; lia.
  - cbn [EXEC REDIR LIST PIPE BACK Z.eqb Pos.eqb]. apply run_back; try done. apply IH. lia.
Qed.
End Run.

(** C18. runcmd() on the tree of a command never returns: every process it makes exits with status 0 or 1 or calls exec(), with the words of a
    simple command of the tree as its arguments, and with the descriptors changed as the redirections and pipes around that command say:
    standard input or output is the named file or the end of the pipe, and no end of a pipe is left open besides. *)
Theorem runcmd_correct {IM : Image} {OS : Os} {SD : Stdio 0 2} {UX : Unix} (R : Z -> Prop) c f p m s :
  (forall v, R v -> ~ scratch v /\ v <> var "putc.c") -> (size c <= f)%nat -> texts m -> repr m p c -> within R m p c -> std (fds s) ->
  calls (runcmd f p m) s (fun args m' s' => exists argv, execs c (fds s) argv (fds s') /\ exec_args m' args argv)
    (fun _ _ _ => False) (fun n _ => n = 0 \/ n = 1).
Proof. intros HR Hf. by apply (runcmd_run R HR c f Hf). Qed.

(** * A concrete run *)

Lemma lowest_or_full (F : gmap Z desc) (n : nat) : (n <= 16)%nat ->
  (exists fd, lowest F fd) \/ forall i, 0 <= i < Z.of_nat n -> is_Some (F !! i).
Proof.
  induction n as [|n IH]; intros Hn; [right; intros; lia|]. destruct IH as [H|H]; [lia|by left|]. destruct (F !! Z.of_nat n) as [x|] eqn:E.
  - right. intros i Hi. destruct (decide (i = Z.of_nat n)) as [->|]; [by exists x|apply H; lia].
  - left. exists (Z.of_nat n). split; [lia|done].
Qed.

(** A kernel with descriptors and a terminal: calls fail only when they must, but for open(), exec() and pipe(), which always may. *)
Definition unix_sys (num : Z) (args : list Z) (m : mem) (s : gmap Z desc * stream) (a0 : Z) (m' : mem) (s' : gmap Z desc * stream) : Prop :=
  let fail := a0 = 2 ^ 64 - 1 /\ m' = m /\ s' = s in
  if num =? SYS_fork then (a0 = 0 \/ a0 = 7 \/ a0 = 2 ^ 64 - 1) /\ m' = m /\ s' = s
  else if num =? SYS_wait then a0 = 7 /\ m' = m /\ s' = s
  else if num =? SYS_exec then fail
  else if num =? SYS_close then exists fd, (args = [fd] \/ length args <> 1%nat) /\ a0 = 0 /\ m' = m /\ s' = (delete fd s.1, s.2)
  else if num =? SYS_open then fail \/ exists p mode w, args = [p; mode] /\ cstr_at m p w /\ m' = m /\ lowest s.1 a0 /\ s' = (<[a0 := DFile w mode]> s.1, s.2)
  else if num =? SYS_dup then (fail /\ forall i, 0 <= i < 16 -> is_Some (s.1 !! i)) \/ (exists fd, args = [fd] /\ s.1 !! fd = None /\ fail) \/ (length args <> 1%nat /\ fail) \/
    exists fd f, args = [fd] /\ s.1 !! fd = Some f /\ m' = m /\ lowest s.1 a0 /\ s' = (<[a0 := f]> s.1, s.2)
  else if num =? SYS_pipe then fail \/ exists p a b i, args = [p] /\ a0 = 0 /\ lowest s.1 a /\ lowest (<[a := DRead i]> s.1) b /\
    m' = st32 (st32 m p a) (p + 4) b /\ s' = (<[b := DWrite i]> (<[a := DRead i]> s.1), s.2)
  else stream_sys 0 2 64 num args m s.2 a0 m' s'.2 /\ s'.1 = s.1.

#[local] Instance unix_os : Os := {| os := gmap Z desc * stream; sys := unix_sys |}.

Lemma i32_fail : i32 (2 ^ 64 - 1) < 0.
Proof. by vm_compute. Qed.

#[local] Instance unix_unix : Unix.
Proof.
  refine (@Build_Unix unix_os fst _ _ _ _ _ _ _ _).
  - intros num args m s Hn. rewrite !elem_of_cons, elem_of_nil in Hn. destruct_or! Hn; try done; subst; cbn.
    + exists 7, m, s. auto.
    + exists 7, m, s. auto.
    + exists (2 ^ 64 - 1), m, s. auto.
    + destruct args as [|fd [|]]; [exists 0, m, (delete 0 s.1, s.2), 0|exists 0, m, (delete fd s.1, s.2), fd|exists 0, m, (delete 0 s.1, s.2), 0]; (split; [by (by left) || right|done]).
    + destruct args as [|fd [|]]; [by exists (2 ^ 64 - 1), m, s; right; right; left| |by exists (2 ^ 64 - 1), m, s; right; right; left].
      destruct (s.1 !! fd) as [f|] eqn:E; [|exists (2 ^ 64 - 1), m, s; right; left; by exists fd].
      destruct (lowest_or_full s.1 16 ltac:(lia)) as [[r Hr]|Hfull]; [|exists (2 ^ 64 - 1), m, s; by left].
      exists r, m, (<[r := f]> s.1, s.2). do 3 right. by exists fd, f.
    + exists (2 ^ 64 - 1), m, s. auto.
  - intros m s r m' s' (_ & -> & ->). done.
  - intros m s r m' s' (_ & -> & ->). done.
  - intros p argv m s r m' s' (_ & -> & ->). done.
  - intros fd m s r m' s' (fd' & [E|E] & _ & -> & ->); [by simplify_eq|done].
  - intros p w mode m s r m' s' Hw [(-> & -> & ->)|(p' & mode' & w' & E & Hw' & -> & Hl & ->)]; (split; [done|]); [left; split; [apply i32_fail|done]|right].
    simplify_eq. rewrite (cstr_unique m p' w w' Hw Hw'), small_fd by apply Hl. done.
  - intros fd f m s r m' s' Hf [[(-> & -> & ->) Hfull]|[(fd' & E & Hn & _)|[[Hl _]|(fd' & g & E & Hg & -> & Hl & ->)]]]; [| |done|].
    + split; [done|]. left. split; [apply i32_fail|done].
    + by simplify_eq.
    + split; [done|]. right. simplify_eq. by rewrite small_fd by apply Hl.
  - intros p m s r m' s' [(-> & -> & ->)|(p' & a & b & i & E & -> & Ha & Hb & -> & ->)]; [left; split; [apply i32_fail|done]|right].
    simplify_eq. split; [by vm_compute|]. by exists a, b, i.
Defined.

#[local] Instance unix_stdio : Stdio 0 2.
Proof.
  apply (stream_lift 0 2 64 unix_os snd); [lia| |].
  - by intros num args m s a0 m' s' [-> | ->] [H _].
  - intros num args m s a0 m' t [-> | ->] H; by exists (s.1, t).
Defined.

#[local] Instance run_image : Image := {|
  lit t := 256 + 64 * index_of t run_literals;
  var v := if bool_decide (v = "putc.c"%string) then 120 else 200 |}.

(** cat < in | wc *)
Definition run_sample : cmd := CPipe (CRedir (CExec [str "cat"]) (str "in") RIn) (CExec [str "wc"]).

Definition run_mem : mem :=
  let m := fold_left put_string (((fun t => (lit t, t)) <$> run_literals) ++ [(6000, str "cat"); (6010, str "in"); (6020, str "wc")]) ∅ in
  let m := st64 (st64 (st32 m 5000 PIPE) (left_at 5000) 5100) (right_at 5000) 5200 in
  let m := st32 (st32 (st64 (st64 (st32 m 5100 REDIR) (cmd_at 5100) 5400) (file_at 5100) 6010) (mode_at 5100) O_RDONLY) (fd_at 5100) 0 in
  let m := st64 (st64 (st32 m 5400 EXEC) (argv_at 5400 0) 6000) (argv_at 5400 1) 0 in
  st64 (st64 (st32 m 5200 EXEC) (argv_at 5200 0) 6020) (argv_at 5200 1) 0.

Definition run_start : os := (<[0 := DOther 0]> (<[1 := DOther 1]> (<[2 := DOther 2]> ∅)), mkStream [] []).

Lemma run_texts : texts run_mem.
Proof.
  assert (Hf : Z.of_nat str_fuel = 4097) by (vm_compute; reflexivity).
  assert (H : forallb (fun t => stored run_mem (lit t, t) && (208 <=? lit t) && (Z.of_nat (length t) <? 64)) run_literals = true) by (vm_compute; reflexivity).
  rewrite forallb_forall in H. intros t Ht. rewrite list_elem_of_In in Ht. specialize (H t Ht). cbv beta in H. apply andb_prop in H as [[H1 H2]%andb_prop H3].
  apply stored_cstr in H1. apply Z.leb_le in H2. apply Z.ltb_lt in H3. unfold scratch. change (var "runcmd.p") with 200.
  split; [lia|]. split; [|lia]. split; [done|]. change (var "putc.c") with 120. lia.
Qed.

Lemma run_sample_repr : repr run_mem 5000 run_sample.
Proof.
  split; [done|]. split; [by vm_compute|]. split.
  - split; [by vm_compute|]. split; [by vm_compute|]. split; [split; [by vm_compute|by apply stored_cstr; vm_compute]|].
    split; [by vm_compute|]. split; [by vm_compute|]. split; [by vm_compute|]. split; [by vm_compute|]. split; [|split; [|by vm_compute]].
    + intros [|i] w Hi; [|done]. injection Hi as <-. by apply stored_cstr; vm_compute.
    + intros [|i] Hi; [by vm_compute|simpl in Hi; lia].
  - split; [by vm_compute|]. split; [by vm_compute|]. split; [|split; [|by vm_compute]].
    + intros [|i] w Hi; [|done]. injection Hi as <-. by apply stored_cstr; vm_compute.
    + intros [|i] Hi; [by vm_compute|simpl in Hi; lia].
Qed.

Lemma run_sample_within : within (fun v => 5000 <= v < 7000) run_mem 5000 run_sample.
Proof.
  assert (Hf : Z.of_nat str_fuel = 4097) by (vm_compute; reflexivity).
  assert (HW : forall q w, bool_decide (5000 <= q /\ q + Z.of_nat (length w) < 7000) = true -> word_within (fun v => 5000 <= v < 7000) q w).
  { intros q w [H1 H2]%bool_decide_eq_true. split; lia. }
  assert (HN : forall p n v, bool_decide (5000 <= p /\ p + n <= 7000) = true -> p <= v < p + n -> 5000 <= v < 7000).
  { intros p n v [H1 H2]%bool_decide_eq_true. lia. }
  split; [intros v; apply HN; by vm_compute|]. split.
  - split; [intros v; apply HN; by vm_compute|]. split; [apply HW; by vm_compute|]. split; [intros v; apply HN; by vm_compute|].
    split; [simpl; lia|]. intros [|i] w Hi; [|done]. injection Hi as <-. apply HW. by vm_compute.
  - split; [intros v; apply HN; by vm_compute|]. split; [simpl; lia|]. intros [|i] w Hi; [|done]. injection Hi as <-. apply HW. by vm_compute.
Qed.

Lemma runcmd_correct_witness : calls (runcmd 10 5000 run_mem) run_start
  (fun args m' s' => exists argv, execs run_sample (fds run_start) argv (fds s') /\ exec_args m' args argv) (fun _ _ _ => False) (fun n _ => n = 0 \/ n = 1).
Proof.
  apply (runcmd_correct (fun v => 5000 <= v < 7000) run_sample 10 5000 run_mem run_start).
  - intros v Hv. unfold scratch. change (var "runcmd.p") with 200. change (var "putc.c") with 120. lia.
  - simpl. lia.
  - exact run_texts.
  - exact run_sample_repr.
  - exact run_sample_within.
  - split; by eexists.
Defined.
